(* ===== verification/_CoqProject ===== *)
-Q . S2P
Prelude.v
Types.v
Crc.v
Dll.v
Telemetry.v
Kernel.v
Stack.v
Invariant.v
Scheduler.v
Heap.v
Task.v
SchedulerThm.v
Semaphore.v
Mutex.v
Queue.v
SoftTimer.v
System.v
Program.v
Inheritance.v
Delay.v
Spinlock.v
Board.v
Companion.v
Watchdog.v
Boot.v
Dfu.v
Bootloader.v
Bootstrap.v
Mmio.v
Emmc.v
EmmcThm.v
EmmcDevice.v
Printf.v
Soc.v
Gpio.v
Gic.v
Dma.v
I2c.v
Pwm.v
Uart.v
UartThm.v
UartTyped.v
App.v
Startup.v
Image.v
PriorityDemo.v
Pipe.v
FullDemo.v
MulticoreDemo.v
MulticoreSync.v
MulticoreBoot.v
