(* ===== verification/Prelude.v ===== *)
(** * rpitos: a verification library

    A model of the firmware under [src/source] -- the preemptive multicore
    kernel, the three boot stages with their A/B update, and the drivers below
    both -- with the theorems that make it correct.  The C code is translated
    function by function: a name here is the name there.

    ** How code is modelled

    A function that touches state is a [M S A] (this file): from a state to
    [Ret a s], or to [Stop why s] when it never comes back to its caller.  Every
    [uintN_t] result is wrapped where the code stores it.  A load or store
    through NULL or out of bounds is [Fault] (a store past the end of a local
    array [Overrun]), a read of a local never assigned [Unset], a lock its own
    core already holds [Deadlock]; a jump to another image and a chip reset are
    [Stop]s too.  Statements are [runs m s Q R]
    (returns into [Q], stops into [R]) and [returns m s Q] (does return).

    What is not C under [src/] is a parameter: devices answer register
    accesses (class [Mmio] and the contracts built on it), images are the
    contents of a disk, callbacks are arguments.  A weak symbol is a parameter
    too, given by the file that defines it ([Uart]'s hook by [App]).  The
    state is shared and mutable as in the code: one record per level of the
    system ([kstate] of Kernel, [board] of Board, [io] of Mmio, [sys] of Uart,
    [machine] of App), each function a change of it.

    A call that waits on another task is split at its spin: what runs before
    and what follows are two definitions, and scheduling happens between them.
    Cores interleave by critical sections, each step holding the locks the code
    takes ([k_held]): a call is one step, or one step on either side of each
    spin, and a timer interrupt or a handler may come between any two
    ([System]).  What makes a critical section one step is Spinlock's mutual
    exclusion, proved of the lock's individual memory accesses.  In three
    places the code's sections do not exclude what they share (semaphore_give
    and mutex_unlock against another core's tick, which may be taking the same
    waiter off; task_create's scheduler_lock, held with interrupts enabled):
    there the step is an assumption, and a finding of the development.

    ** The parts

    Foundations.
    - Prelude: words, records, execution, its logic and tactics.
    - Types: [task_types.h], [status.h], [companion_core.h].
    - Dll: the intrusive lists of scheduler, mutexes and semaphores; one
      representation predicate for all lists at once.
    - Crc: drivers/crc, by the architecture's definition of crc32b/h/w.

    The kernel, over [kstate].
    - Telemetry: source/telemetry, framing to the bytes on the wire.
    - Kernel: the static variables of source/kernel, critical sections, locks.
    - Stack, Heap, Task: stacks and first frames, kernel/heap, kernel/task.
    - Scheduler: kernel/scheduler, every function.
    - Invariant, SchedulerThm: [sched_inv] (each task is on exactly the lists
      its state says, on its own core) and what scheduling guarantees.
    - Mutex, Semaphore, Queue, SoftTimer: kernel/mutex, semaphore, queue,
      software_timer.
    - Spinlock: kernel/spinlock, one step per memory access.
    - System: the kernel as a whole.  A [world] is the [kstate], where in the
      kernel each task stands ([place]), and the books (who holds what, how
      often each semaphore was given and taken); an [event] is a call of the
      task that a core runs, the next step of its pending call, a timer
      interrupt, or a give by an interrupt handler; [run] any list of them.
      Its invariant [parts] is kept by every event.
    - Program: applications as programs over System, one per task, and the rule
      [app_run_ok] by which their properties are proved.
    - Inheritance: the priorities of the tasks in a world of System, kept by
      every event ([inherits]) while no task locks a mutex under another.
    - Delay: the sleepers in a world of System ([asleep]), whom no event but
      their own core's tick wakes.
    - Startup: what the kernel's initialisers establish between the cleared
      .bss and the first tasks ([booting], [booting_starts]).

    The boot stages, over [board].
    - Board: the state, the disk interface [BlockDevice] with its contract
      [BlockLaws], boot/boot_flags, the matcher of boot/dfu_trigger.
    - Companion: kernel/companion_core.  Watchdog: drivers/watchdog.
    - Boot: boot/boot.  Dfu: boot/dfu_receive.
    - Bootloader, Bootstrap: samples/boot.

    The drivers, over [io D V] with the device [D] a parameter.
    - Mmio, Soc: register access, bounded polls, device contracts.
    - Emmc, EmmcThm, EmmcDevice: drivers/emmc over any controller that obeys
      [SdHost]; EmmcDevice proves [BlockLaws] of it, so that the theorems of
      the boot stages hold of the driver, and gives a card.
    - Printf, Uart, UartThm, UartTyped: drivers/uart.
    - Gpio (with drivers/jtag), Gic (with interrupts, gentimer and
      libraries/delay), Dma (with mailbox), I2c, Pwm: the drivers of those
      names.

    The application.
    - App: drivers/reset, and what dfu_trigger.c and watchdog.c do as tasks,
      over kernel, devices and boot state together.
    - Image: the kernel's part of the services every sample starts before its
      own tasks (UART, timers, watchdog, DFU key).
    - PriorityDemo: the sample rtos/mutex_inheritance, from the cleared .bss:
      MID does not run while HIGH waits for what LOW holds.
    - Pipe: a queue between one sender and one receiver, as the samples use it.
    - FullDemo: the samples rtos/full_demo and rtos/heavy_overlap, from the
      cleared .bss: their messages arrive in order, and what is counted never
      runs ahead of what was given.
    - MulticoreDemo, MulticoreSync, MulticoreBoot: the sample
      rtos/multicore_full_demo -- its tasks as programs, the invariants of its
      handshake and of its queue, and its start-up on four cores, from which
      its theorems hold whatever the schedule.

    ** What is proved

    - Scheduling: initialisation establishes [sched_inv] and creating a task,
      switching, ticking, blocking and waking preserve it; the switch selects
      the highest ready priority; equal priorities take turns.
    - Synchronisation: mutual exclusion and first-come-first-served order of
      the bakery lock; lock and unlock of a mutex on every branch; take and give
      of a semaphore refine the abstract count and waiters; a queue is first-in-first-out over its bytes; timers
      expire in order.
    - The whole kernel, under any load on any cores: it comes back from every
      step; no two tasks hold a mutex ([System.mutexes_exclude]); a blocked
      task is where a wakeup will find it ([no_wakeup_lost]); a semaphore's
      count is what was given less what was taken and what is under way
      ([semaphore_ledger]); a call told to wait for ever does not time out
      ([forever_is_forever]); a delay is neither cut short nor drawn out
      ([Delay.delay_never_short], [delay_ends_in_time]); as long as no task locks a mutex while it holds
      one, who waits for a mutex is not kept from it by a task of lower
      priority on the owner's core ([Inheritance.no_priority_inversion]).
      Of multicore_full_demo, from the cleared .bss on: its counter loses no
      increment, the two halves of its handshake alternate, its messages arrive
      in order and none is overwritten.
    - Update and boot: however a session ends, it has written nothing but the
      image's own region, so while the image fits its slot the active slot is
      intact; what it commits validates and is on trial; an unconfirmed trial
      is rolled back, a confirmed one stays; a torn write of the metadata is
      detected; [kmain] enters only what is valid, and the bootstrap only what
      it verified, on a device whose reads succeed.  An upload can provoke two
      accesses outside C, which the theorems name ([Dfu.session_stop]).
      [EmmcDevice.kmain_boots_from_card] puts the eMMC driver under the boot
      stages, and [App.dfu_reboot_reaches_upload] takes the running application
      to the next boot.
    - Drivers: initialising the eMMC returns whatever the controller does,
      reads and writes are exact; printf hands its rendering to the channel,
      and what is printed is what leaves the UART; a write on I2C that reports
      success has given the controller the address and the bytes, the PWM's
      the ticks of the duty cycle; the CRC is independent of chunking.

    ** Bounds and fuel

    - Loops over data have their bound as fuel and enough of it is proved:
      the received events ([Dfu]), the sectors of an image
      ([Boot.validate_fuel]), the free ring slots ([UartThm]).
    - Walks along a timer list take any bound on the timers that exist; System,
      which must fix one, takes 64, and the rule of the load is that there are
      no more timers than that.
    - Bounded polls keep the code's own bounds.
    - A poll the code does not bound is followed for [patience] turns and is
      then a [Hang]; theorems hold for every [patience], and where they claim a
      return they say of the device that it answers.

    ** Not modelled

    - The assembly (startup.s, vectors, register save and restore of a context
      switch): what C relies on of it is in Stack, Task and Companion.
    - The samples under samples/rtos other than multicore_full_demo,
      mutex_inheritance, full_demo and heavy_overlap: endless tasks that blink
      and print through the services above.  Of those four, [kmain] is its calls of the kernel, from
      [scheduler_init] on: what it does to pins, UART, I2C, GIC and watchdog
      registers is in the drivers' files.  The tasks of the services and
      [pca_blink_task] run beside the rest as any programs that keep to the
      kernel's rules; [busy_work_ms] is the passing of time, which every
      schedule may let pass anyway; and the cores come up one after the other.
    - Caches, barriers and instruction timing: one entry in a trace where the
      code asks for maintenance, otherwise no effect.  The nop loops of
      delay.c do nothing to the state.
    - UART_TX_TIMING statistics (compiled out), the Python tools, the build.
*)

From Stdlib Require Export ZArith Lia Sorting.Sorted.
From Stdlib Require Export FunctionalExtensionality.
From stdpp Require Export base tactics option numbers functions sets list list_numbers.

#[export] Set Default Goal Selector "!".
#[export] Set Warnings "-clear-no-such-hyp".
#[global] Open Scope Z_scope.

(** ** Machine words

    A [uintN_t] is a [Z] in [0, 2^N); every arithmetic result that the C
    code stores in one is wrapped explicitly. *)

Definition wrap (w x : Z) : Z := x mod 2 ^ w.
Abbreviation u8 := (wrap 8).
Abbreviation u16 := (wrap 16).
Abbreviation u32 := (wrap 32).
Abbreviation u64 := (wrap 64).

(** The signed reading of a 32-bit word, as the cast [(int32_t)x]. *)
Definition s32 (x : Z) : Z :=
  let y := u32 x in if y <? 2 ^ 31 then y else y - 2 ^ 32.

Lemma wrap_range (w x : Z) : 0 <= w -> 0 <= wrap w x < 2 ^ w.
Proof. intros Hw. unfold wrap. apply Z.mod_pos_bound. lia. Qed.

Lemma wrap_small (w x : Z) : 0 <= x < 2 ^ w -> wrap w x = x.
Proof. intros Hx. unfold wrap. by apply Z.mod_small. Qed.

Lemma wrap_wrap (w x : Z) : 0 <= w -> wrap w (wrap w x) = wrap w x.
Proof. intros Hw. apply wrap_small, wrap_range, Hw. Qed.

(** ** Record update

    [r <| f := v |>] rebuilds a record with one field changed.  A record
    opts in by giving its eta expansion as a [Settable] instance; the
    setter of each projection is derived from that expansion. *)

Class Settable (R : Type) := eta_expand : R -> R.
Class FieldUpdate {R T : Type} (proj : R -> T) := field_update : (T -> T) -> R -> R.
Arguments field_update {R T} proj {_} f r /.

Ltac derive_update :=
  match goal with
  | |- @FieldUpdate ?R ?T ?proj =>
      let inst := constr:(_ : Settable R) in
      let body := eval hnf in inst in
      let f := fresh "f" in let r := fresh "r" in intros f r;
      let b := eval cbv beta in (body r) in
      let b' := eval pattern (proj r) in b in
      match b' with
      | ?g _ => let e := eval cbv beta in (g (f (proj r))) in exact e
      end
  end.

#[export] Hint Extern 0 (@FieldUpdate _ _ _) => derive_update : typeclass_instances.

Declare Scope record_scope.
Delimit Scope record_scope with rec.
Notation "r <| p := v |>" := (field_update p (fun _ => v) r)
  (at level 1, left associativity, p at level 9, v at level 60) : record_scope.
Notation "r <| p ::= f |>" := (field_update p f r)
  (at level 1, left associativity, p at level 9, f at level 60) : record_scope.
#[global] Open Scope record_scope.

(** ** Execution

    C code that touches state is a function [M S A] from a state to an
    outcome.  [Stop] is an execution that never comes back to its caller:
    an access the C standard leaves undefined ([Fault]: NULL or out of
    bounds; [Overrun]: a store past the end of a local array; [Unset]: a read
    of a local variable that was not assigned), a deliberate endless loop ([Hang]), a loop that used up the
    model's fuel ([NoFuel]), a lock the same core already holds
    ([Deadlock]), a jump into another image, or a chip reset. *)

Inductive stop_reason :=
  | Fault | Overrun | Unset | Hang | NoFuel | Deadlock | Jump (addr : Z) | ChipReset.

Inductive outcome (S A : Type) :=
  | Ret (a : A) (s : S)
  | Stop (why : stop_reason) (s : S).
Arguments Ret {S A} a s.
Arguments Stop {S A} why s.

Definition M (S A : Type) : Type := S -> outcome S A.

#[export] Instance M_mret {S} : MRet (M S) := fun A a s => Ret a s.
#[export] Instance M_mbind {S} : MBind (M S) := fun A B k m s =>
  match m s with Ret a s' => k a s' | Stop w s' => Stop w s' end.

Definition gets {S A} (f : S -> A) : M S A := fun s => Ret (f s) s.
Definition modify {S} (f : S -> S) : M S unit := fun s => Ret tt (f s).
Definition stop {S A} (w : stop_reason) : M S A := fun s => Stop w s.

(** Dereferencing a pointer that may be NULL. *)
Definition deref {S A} (p : option A) : M S A :=
  match p with Some a => mret a | None => stop Fault end.

(** Reading a local variable, [None] before its first assignment. *)
Definition read_local {S A} (p : option A) : M S A :=
  match p with Some a => mret a | None => stop Unset end.

(** [if (b) m;] *)
Definition when {S} (b : bool) (m : M S unit) : M S unit := if b then m else mret tt.

(** [for (i = 0; i < n; i++) body(i);], counting up from [i0]. *)
Fixpoint for_ {S} (n : nat) (i0 : Z) (body : Z -> M S unit) : M S unit :=
  match n with
  | O => mret tt
  | S n' => body i0;; for_ n' (i0 + 1) body
  end.

(** [returns m s Q]: [m] run from [s] comes back to its caller, with a
    result and a state that satisfy [Q].  This is total: a [Stop] of any
    kind falsifies it. *)
Definition returns {S A} (m : M S A) (s : S) (Q : A -> S -> Prop) : Prop :=
  match m s with Ret a s' => Q a s' | Stop _ _ => False end.

Section returns_rules.
Context {S A B : Type}.
Implicit Types (s : S).

Lemma returns_ret (a : A) s (Q : A -> S -> Prop) : Q a s -> returns (mret a) s Q.
Proof. done. Qed.

Lemma returns_bind (m : M S A) (k : A -> M S B) s Q :
  returns m s (fun a s' => returns (k a) s' Q) -> returns (m ≫= k) s Q.
Proof. unfold returns, mbind, M_mbind. by destruct (m s). Qed.

Lemma returns_mono (m : M S A) s (Q Q' : A -> S -> Prop) :
  returns m s Q -> (forall a s', Q a s' -> Q' a s') -> returns m s Q'.
Proof. unfold returns. destruct (m s); naive_solver. Qed.

Lemma returns_gets (f : S -> A) s (Q : A -> S -> Prop) : Q (f s) s -> returns (gets f) s Q.
Proof. done. Qed.

Lemma returns_modify (f : S -> S) s (Q : unit -> S -> Prop) :
  Q tt (f s) -> returns (modify f) s Q.
Proof. done. Qed.

Lemma returns_deref (p : option A) a s (Q : A -> S -> Prop) :
  p = Some a -> Q a s -> returns (deref p) s Q.
Proof. by intros ->. Qed.

Lemma returns_when (b : bool) (m : M S unit) s (Q : unit -> S -> Prop) :
  (b = true -> returns m s Q) -> (b = false -> Q tt s) -> returns (when b m) s Q.
Proof. destruct b; cbn; unfold returns; naive_solver. Qed.

Lemma returns_inv (m : M S A) s Q :
  returns m s Q <-> exists a s', m s = Ret a s' /\ Q a s'.
Proof. unfold returns. destruct (m s); naive_solver. Qed.

Lemma returns_det (m : M S A) s a s' (Q : A -> S -> Prop) :
  m s = Ret a s' -> returns m s Q -> Q a s'.
Proof. unfold returns. by intros ->. Qed.
End returns_rules.

(** Executing a sequence one command at a time, as an equation: [exec] runs a
    command that computes, [exec_with H] one whose result [H] gives. *)
Lemma bind_ret {S A B} (m : M S A) (f : A -> M S B) s a s' :
  m s = Ret a s' -> (m ≫= f) s = f a s'.
Proof. unfold mbind, M_mbind. by intros ->. Qed.

(** The same for two commands whose joint effect is known. *)
Lemma bind_ret2 {S A B C} (m1 : M S A) (m2 : M S B) (f : B -> M S C) s b s' :
  (m1;; m2) s = Ret b s' -> (m1;; (m2 ≫= f)) s = f b s'.
Proof. unfold mbind, M_mbind. by destruct (m1 s); [intros ->|]. Qed.

Ltac exec := etrans; [eapply bind_ret; reflexivity|]; cbv beta.
Ltac exec_with H := etrans; [eapply bind_ret; exact H|]; cbv beta.

(** [runs m s Q E]: the same for an execution that may also stop; [E] is then
    what holds of the reason and of the state it leaves. *)
Definition runs {S A} (m : M S A) (s : S) (Q : A -> S -> Prop) (E : stop_reason -> S -> Prop) : Prop :=
  match m s with Ret a s' => Q a s' | Stop w s' => E w s' end.

Section runs_rules.
Context {S A B : Type}.

Lemma runs_ret (a : A) (s : S) (Q : A -> S -> Prop) E : Q a s -> runs (mret a) s Q E.
Proof. done. Qed.

Lemma runs_stop (w : stop_reason) (s : S) (Q : A -> S -> Prop) (E : stop_reason -> S -> Prop) :
  E w s -> runs (stop w) s Q E.
Proof. done. Qed.

Lemma runs_gets (f : S -> A) s (Q : A -> S -> Prop) E : Q (f s) s -> runs (gets f) s Q E.
Proof. done. Qed.

Lemma runs_modify (f : S -> S) s (Q : unit -> S -> Prop) E : Q tt (f s) -> runs (modify f) s Q E.
Proof. done. Qed.

Lemma runs_bind (m : M S A) (k : A -> M S B) s Q E :
  runs m s (fun a s' => runs (k a) s' Q E) E -> runs (m ≫= k) s Q E.
Proof. unfold runs, mbind, M_mbind. by destruct (m s). Qed.

Lemma runs_mono (m : M S A) s (Q Q' : A -> S -> Prop) (E E' : stop_reason -> S -> Prop) :
  runs m s Q E -> (forall a s', Q a s' -> Q' a s') -> (forall w s', E w s' -> E' w s') -> runs m s Q' E'.
Proof. unfold runs. destruct (m s); auto. Qed.

Lemma runs_and (m : M S A) s (Q Q' : A -> S -> Prop) (E E' : stop_reason -> S -> Prop) :
  runs m s Q E -> runs m s Q' E' -> runs m s (fun a s' => Q a s' /\ Q' a s') (fun w s' => E w s' /\ E' w s').
Proof. unfold runs. by destruct (m s). Qed.

Lemma runs_returns (m : M S A) s (Q : A -> S -> Prop) E : returns m s Q -> runs m s Q E.
Proof. unfold runs, returns. by destruct (m s). Qed.

Lemma runs_when (b : bool) (m : M S unit) s (Q : unit -> S -> Prop) E :
  (b = true -> runs m s Q E) -> (b = false -> Q tt s) -> runs (when b m) s Q E.
Proof. destruct b; unfold when, runs; intros H1 H2; [by apply H1|by apply H2]. Qed.
End runs_rules.

Create HintDb returns.
#[export] Hint Resolve returns_ret returns_gets returns_modify : returns.

(** [step] runs one primitive command of the goal, [call H] runs a call
    whose contract is [H]. *)
Ltac step :=
  lazymatch goal with
  | |- returns (_ ≫= _) _ _ => apply returns_bind
  | |- returns (mret _) _ _ => apply returns_ret
  | |- returns (gets _) _ _ => apply returns_gets
  | |- returns (modify _) _ _ => apply returns_modify
  end; cbv beta.
Ltac steps := repeat step.
Ltac call H := eapply returns_mono; [eapply H | cbv beta].

(** The same for [runs]. *)
Ltac rstep :=
  lazymatch goal with
  | |- runs (_ ≫= _) _ _ _ => apply runs_bind
  | |- runs (mret _) _ _ _ => apply runs_ret
  | |- runs (gets _) _ _ _ => apply runs_gets
  | |- runs (modify _) _ _ _ => apply runs_modify
  | |- runs (stop _) _ _ _ => apply runs_stop
  end; cbv beta.
Ltac rsteps := repeat rstep.
Ltac rcall H := eapply runs_mono; [eapply H | cbv beta | cbv beta].

(** ** Frames

    [keeps E R m]: [m] relates the state it starts from to the one it leaves
    by [R]; if it does not come back, the reason satisfies [E].  [E] is
    [never] for code that always comes back. *)
Definition never (_ : stop_reason) : Prop := False.
Definition ever (_ : stop_reason) : Prop := True.

Definition keeps {S A} (E : stop_reason -> Prop) (R : S -> S -> Prop) (m : M S A) : Prop :=
  forall s, runs m s (fun _ s' => R s s') (fun w s' => E w /\ R s s').

Section keeps_rules.
Context {S : Type} {E : stop_reason -> Prop} {R : S -> S -> Prop} `{!PreOrder R}.

Lemma keeps_ret {A} (a : A) : keeps E R (mret a).
Proof. intros s. apply runs_ret. cbv beta. reflexivity. Qed.

Lemma keeps_gets {A} (f : S -> A) : keeps E R (gets f).
Proof. intros s. apply runs_gets. cbv beta. reflexivity. Qed.

Lemma keeps_stop {A} w : E w -> keeps E R (stop w : M S A).
Proof. intros Hw s. apply runs_stop. split; [done|]. reflexivity. Qed.

Lemma keeps_bind {A B} (m : M S A) (k : A -> M S B) :
  keeps E R m -> (forall a, keeps E R (k a)) -> keeps E R (m ≫= k).
Proof.
  intros Hm Hk s. apply runs_bind. eapply runs_mono; [apply Hm| |done].
  intros a s' Hs. eapply runs_mono; [apply Hk|intros b s'' Hb; exact (transitivity Hs Hb)|].
  intros w s'' [Hw Hs2]. split; [done|exact (transitivity Hs Hs2)].
Qed.

Lemma keeps_weaken {A} (E' : stop_reason -> Prop) (R' : S -> S -> Prop) (m : M S A) :
  (forall w, E' w -> E w) -> (forall s s', R' s s' -> R s s') -> keeps E' R' m -> keeps E R m.
Proof. intros HE HR Hm s. eapply runs_mono; [apply Hm|intros; by apply HR|]. intros w s' [??]. auto. Qed.
End keeps_rules.

Lemma keeps_returns {S A} (R : S -> S -> Prop) (m : M S A) s : keeps never R m -> returns m s (fun _ s' => R s s').
Proof. intros Hm. specialize (Hm s). unfold runs, returns in *. destruct (m s); [done|by destruct Hm]. Qed.

Lemma returns_keeps {S A} E (R : S -> S -> Prop) (m : M S A) :
  (forall s, returns m s (fun _ s' => R s s')) -> keeps E R m.
Proof. intros Hm s. apply runs_returns, Hm. Qed.

Create HintDb keeps discriminated.
#[export] Hint Constants Opaque : keeps.
(** Walks through a program of commands that keep [R], splitting its tests;
    the hint database has the commands. *)
Ltac keeps_step :=
  lazymatch goal with
  | |- keeps _ _ (_ ≫= _) => apply keeps_bind; [|intros ?]
  | |- keeps _ _ (mret _) => apply keeps_ret
  | |- keeps _ _ (gets _) => apply keeps_gets
  | |- keeps _ _ (let _ := _ in _) => cbv zeta
  | |- keeps _ _ (when ?b _) => unfold when; destruct b
  | |- keeps _ _ (if ?b then _ else _) => destruct b
  | |- keeps _ _ (match ?b with Some _ => _ | None => _ end) => destruct b
  | |- keeps _ _ (match ?b with inl _ => _ | inr _ => _ end) => destruct b
  end.
Ltac keeps := repeat first [solve [eauto with keeps] | keeps_step].

(** ** A part of a larger state *)

Definition zoom {S T A} (get : S -> T) (put : T -> S -> S) (m : M T A) : M S A := fun s =>
  match m (get s) with Ret a t => Ret a (put t s) | Stop w t => Stop w (put t s) end.

Lemma returns_zoom {S T A} (get : S -> T) (put : T -> S -> S) (m : M T A) s (Q : A -> S -> Prop) :
  returns m (get s) (fun a t => Q a (put t s)) -> returns (zoom get put m) s Q.
Proof. unfold returns, zoom. by destruct (m (get s)). Qed.

Lemma runs_zoom {S T A} (get : S -> T) (put : T -> S -> S) (m : M T A) (s : S) (Q : A -> S -> Prop) E :
  runs m (get s) (fun a t => Q a (put t s)) (fun w t => E w (put t s)) -> runs (zoom get put m) s Q E.
Proof. unfold runs, zoom. by destruct (m (get s)). Qed.

Ltac split_Forall :=
  repeat match goal with
  | H : Forall _ (_ :: _) |- _ => apply Forall_cons_iff in H as [? ?]
  | H : Forall _ (_ ++ _) |- _ => apply Forall_app in H as [? ?]
  end.

(** ** Arrays as functions *)

Section arrays.
Context {A B : Type} `{EqDecision A}.
Implicit Types (f : A -> B).

Lemma fn_insert_insert f a b c : <[a := b]> (<[a := c]> f) = <[a := b]> f.
Proof.
  apply functional_extensionality. intros x. unfold insert, fn_insert. by case_decide.
Qed.

Lemma fn_insert_id f a b : f a = b -> <[a := b]> f = f.
Proof.
  intros <-. apply functional_extensionality. intros x. unfold insert, fn_insert.
  case_decide; congruence.
Qed.

Lemma fn_insert_commute f a a' b c :
  a <> a' -> <[a := b]> (<[a' := c]> f) = <[a' := c]> (<[a := b]> f).
Proof.
  intros Hne. apply functional_extensionality. intros x. unfold insert, fn_insert.
  repeat case_decide; congruence.
Qed.

Lemma fn_insert_lookup f a b x : (<[a := b]> f) x = if decide (a = x) then b else f x.
Proof. done. Qed.
End arrays.

(** ** Ranges *)

Lemma seqZ_snoc (m k : Z) : 0 <= k -> seqZ m (k + 1) = seqZ m k ++ [m + k].
Proof.
  intros. rewrite seqZ_app, (seqZ_cons _ 1) by lia. by rewrite (seqZ_nil _ (Z.pred 1)) by lia.
Qed.

Lemma filter_ext_in {A} (P1 P2 : A -> Prop) `{!forall x, Decision (P1 x), !forall x, Decision (P2 x)}
    (l : list A) :
  (forall x, x ∈ l -> P1 x <-> P2 x) -> filter P1 l = filter P2 l.
Proof.
  induction l as [|x l IH]; intros Hl; [done|].
  pose proof (Hl x ltac:(by left)) as Hx.
  rewrite !filter_cons, IH by (intros y Hy; apply Hl; by right).
  repeat case_decide; tauto.
Qed.

(** ** Filtered lists *)

Lemma filter_all {A} (P : A -> Prop) `{!forall x, Decision (P x)} (l : list A) :
  Forall P l -> filter P l = l.
Proof. induction 1 as [|x l Hx Hl IH]; [done|]. by rewrite filter_cons_True, IH. Qed.
Lemma filter_none {A} (P : A -> Prop) `{!forall x, Decision (P x)} (l : list A) :
  Forall (fun x => ~ P x) l -> filter P l = [].
Proof. induction 1 as [|x l Hx Hl IH]; [done|]. by rewrite filter_cons_False. Qed.

(** One element starts or stops satisfying the predicate. *)
Lemma filter_change {A} (P P' : A -> Prop) `{!forall x, Decision (P x), !forall x, Decision (P' x)} (l : list A) (x : A) :
  NoDup l -> x ∈ l -> (forall y, y <> x -> P' y <-> P y) ->
  Z.of_nat (length (filter P' l)) = Z.of_nat (length (filter P l)) + (if decide (P' x) then 1 else 0) - (if decide (P x) then 1 else 0).
Proof.
  induction 1 as [|y l Hy Hl IH]; [by intros ?%elem_of_nil|]. intros [->|Hx]%elem_of_cons He.
  - rewrite !filter_cons. assert (filter P' l = filter P l) as Hf.
    { apply filter_ext_in. intros z Hz. apply He. by intros ->. }
    repeat case_decide; cbn [length]; rewrite Hf; lia.
  - rewrite !filter_cons. specialize (IH Hx He). destruct (He y) as [He1 He2]; [by intros ->|].
    destruct (decide (P' y)), (decide (P y)); cbn [length]; try (exfalso; tauto); rewrite ?Nat2Z.inj_succ, IH; lia.
Qed.

(** ** Bytes of a word

    Little-endian layout is the memory layout of every packed struct of the
    program; the telemetry and DFU wire formats write some fields
    big-endian. *)

Definition byte (x i : Z) : Z := u8 (Z.shiftr x (8 * i)).

Definition le32 (x : Z) : list Z := [byte x 0; byte x 1; byte x 2; byte x 3].
Definition be32 (x : Z) : list Z := [byte x 3; byte x 2; byte x 1; byte x 0].
Definition be16 (x : Z) : list Z := [byte x 1; byte x 0].

Definition of_le32 (b0 b1 b2 b3 : Z) : Z :=
  Z.lor (Z.lor (Z.lor b0 (Z.shiftl b1 8)) (Z.shiftl b2 16)) (Z.shiftl b3 24).

Definition is_byte (b : Z) : Prop := 0 <= b < 256.

Lemma byte_range (x i : Z) : is_byte (byte x i).
Proof. apply (wrap_range 8). lia. Qed.

Lemma byte_spec (x i : Z) : 0 <= i -> byte x i = (x / 2 ^ (8 * i)) mod 256.
Proof. intros. unfold byte, wrap. by rewrite Z.shiftr_div_pow2 by lia. Qed.

Lemma land_shiftl_low (a b n : Z) :
  0 <= n -> 0 <= a < 2 ^ n -> Z.land a (Z.shiftl b n) = 0.
Proof.
  intros Hn Ha. apply Z.bits_inj'. intros k Hk. rewrite Z.land_spec, Z.bits_0.
  destruct (Z.lt_ge_cases k n).
  - rewrite Z.shiftl_spec_low by lia. by rewrite andb_false_r.
  - rewrite <- (Z.mod_small a (2 ^ n)) by lia. by rewrite Z.mod_pow2_bits_high by lia.
Qed.

(** Or-ing a field above the bits of [a] is an addition. *)
Lemma lor_disjoint_add (a b n : Z) :
  0 <= n -> 0 <= a < 2 ^ n -> Z.lor a (Z.shiftl b n) = a + b * 2 ^ n.
Proof.
  intros Hn Ha. pose proof (land_shiftl_low a b n Hn Ha) as Hland.
  rewrite <- Z.lxor_lor, <- Z.add_nocarry_lxor by done.
  by rewrite Z.shiftl_mul_pow2 by lia.
Qed.

Lemma of_le32_sum (b0 b1 b2 b3 : Z) :
  is_byte b0 -> is_byte b1 -> is_byte b2 -> is_byte b3 ->
  of_le32 b0 b1 b2 b3 = b0 + b1 * 256 + b2 * 65536 + b3 * 16777216.
Proof.
  unfold is_byte, of_le32. intros.
  rewrite (lor_disjoint_add b0 b1 8) by lia. change (2 ^ 8) with 256.
  rewrite (lor_disjoint_add _ b2 16) by lia. change (2 ^ 16) with 65536.
  rewrite (lor_disjoint_add _ b3 24) by lia. change (2 ^ 24) with 16777216. lia.
Qed.

(** Reading back the four bytes of a word gives the word. *)
Lemma of_le32_le32 (x : Z) :
  of_le32 (byte x 0) (byte x 1) (byte x 2) (byte x 3) = u32 x.
Proof.
  rewrite of_le32_sum by apply byte_range.
  rewrite !byte_spec by lia. unfold wrap.
  change (2 ^ (8 * 0)) with 1. change (2 ^ (8 * 1)) with 256.
  change (2 ^ (8 * 2)) with 65536. change (2 ^ (8 * 3)) with 16777216.
  change (2 ^ 32) with 4294967296. Z.div_mod_to_equations. lia.
Qed.

Lemma of_le32_range (b0 b1 b2 b3 : Z) :
  is_byte b0 -> is_byte b1 -> is_byte b2 -> is_byte b3 ->
  0 <= of_le32 b0 b1 b2 b3 < 2 ^ 32.
Proof. intros. rewrite of_le32_sum by done. unfold is_byte in *. lia. Qed.

(** The bytes of a word assembled from bytes are those bytes. *)
Lemma byte_of_le32 (b0 b1 b2 b3 : Z) :
  is_byte b0 -> is_byte b1 -> is_byte b2 -> is_byte b3 ->
  le32 (of_le32 b0 b1 b2 b3) = [b0; b1; b2; b3].
Proof.
  intros. unfold le32. rewrite of_le32_sum by done. rewrite !byte_spec by lia.
  unfold is_byte in *.
  change (2 ^ (8 * 0)) with 1. change (2 ^ (8 * 1)) with 256.
  change (2 ^ (8 * 2)) with 65536. change (2 ^ (8 * 3)) with 16777216.
  repeat f_equal; Z.div_mod_to_equations; lia.
Qed.
