(* ===== verification/Types.v ===== *)
(** * Shared kernel types (source/libraries/status, source/kernel/task_types)

    Status codes, task states and priorities, and the C structs of
    [task_types.h].  An object the C code points to is named by what it is:
    a [tcb] is the address of a slot of a core's TCB pool or of a core's
    idle TCB, a [node] is the address of one of the two [ListItem]s embedded
    in a TCB, an [lref] is the address of a [List]. *)

From S2P Require Import Prelude.

(** ** status.h *)

Inductive StatusCode :=
  | E_OK | E_INVALID_ARGS | E_OUT_OF_MEM | E_RESOURCE_EXHAUSTED | E_EMPTY
  | E_TIMED_OUT | E_CORRUPTED | E_ABORTED | E_CMD | E_DATA | E_CRC | E_NOTSUPP
  | E_NOT_INITIALIZED.

#[export] Instance StatusCode_eq_dec : EqDecision StatusCode.
Proof. solve_decision. Defined.

Definition status_code (s : StatusCode) : Z :=
  match s with
  | E_OK => 0 | E_INVALID_ARGS => 1 | E_OUT_OF_MEM => 2 | E_RESOURCE_EXHAUSTED => 3
  | E_EMPTY => 4 | E_TIMED_OUT => 5 | E_CORRUPTED => 6 | E_ABORTED => 7 | E_CMD => 8
  | E_DATA => 9 | E_CRC => 10 | E_NOTSUPP => 11 | E_NOT_INITIALIZED => 12
  end.

(** ** task_types.h *)

Definition MAX_NUM_TASKS : Z := 16.
Definition TASK_WATERMARK : Z := 0x5A.
Definition COMPANION_CORE_MAX_CORES : Z := 4.

(** [TaskPriorityLevel]: an enum the C code compares and does arithmetic on. *)
Definition TASK_PRIORITY_IDLE : Z := 0.
Definition TASK_PRIORITY_1 : Z := 1.
Definition TASK_PRIORITY_2 : Z := 2.
Definition TASK_PRIORITY_3 : Z := 3.
Definition TASK_PRIORITY_4 : Z := 4.
Definition TASK_PRIORITY_5 : Z := 5.
Definition NUM_TASK_PRIORITIES : Z := 6.

Inductive TaskState :=
  | TASK_STATE_READY | TASK_STATE_RUNNING | TASK_STATE_BLOCKED
  | TASK_STATE_SUSPENDED | TASK_STATE_DELETED.

#[export] Instance TaskState_eq_dec : EqDecision TaskState.
Proof. solve_decision. Defined.

Definition task_state_code (s : TaskState) : Z :=
  match s with
  | TASK_STATE_READY => 0 | TASK_STATE_RUNNING => 1 | TASK_STATE_BLOCKED => 2
  | TASK_STATE_SUSPENDED => 3 | TASK_STATE_DELETED => 4
  end.

Inductive TaskWakeupReason := WAKEUP_REASON_NONE | WAKEUP_REASON_RESOURCE_ACQUIRED.

#[export] Instance TaskWakeupReason_eq_dec : EqDecision TaskWakeupReason.
Proof. solve_decision. Defined.

(** ** Addresses *)

(** [&tcb_pool[core][idx]] and [&g_cores[core].idle_tcb]. *)
Inductive tcb := Pool (core idx : Z) | Idle (core : Z).

(** [&tcb->state_list_item] and [&tcb->event_list_item]. *)
Inductive node := NState (t : tcb) | NEvent (t : tcb).

(** The semaphores of the program: the ones an application declares, a
    queue's two, and the ones of the kernel services. *)
Inductive semref :=
  | SemUser (s : Z) | SemSpace (q : Z) | SemData (q : Z) | SemTimer | SemDfu.

(** The [List]s: [g_cores[c].ready_list[p]], [g_cores[c].blocked_task_list],
    and the waiting list of a mutex or a semaphore. *)
Inductive lref :=
  | LReady (core prio : Z) | LBlocked (core : Z) | LMutex (m : Z) | LSem (s : semref).

#[export] Instance tcb_eq_dec : EqDecision tcb.
Proof. solve_decision. Defined.
#[export] Instance node_eq_dec : EqDecision node.
Proof. solve_decision. Defined.
#[export] Instance semref_eq_dec : EqDecision semref.
Proof. solve_decision. Defined.
#[export] Instance lref_eq_dec : EqDecision lref.
Proof. solve_decision. Defined.

Definition node_tcb (n : node) : tcb := match n with NState t | NEvent t => t end.
Definition tcb_core (t : tcb) : Z := match t with Pool c _ => c | Idle c => c end.

(** A stack pointer: a byte offset in the kernel heap, or a word index in a
    core's idle stack. *)
Inductive sptr := HeapPtr (off : Z) | IdlePtr (core word : Z).

(** [p + n] on a [StackType_t *]. *)
Definition sptr_add (p : sptr) (n : Z) : sptr :=
  match p with
  | HeapPtr off => HeapPtr (off + 4 * n)
  | IdlePtr c w => IdlePtr c (w + n)
  end.

(** ** Structs *)

Record ListItem := mkListItem {
  li_next : option node;
  li_prev : option node;
  li_owner : option tcb;
  li_container : option lref
}.
#[export] Instance eta_ListItem : Settable ListItem :=
  fun r => mkListItem (li_next r) (li_prev r) (li_owner r) (li_container r).

Record ListHead := mkListHead {
  num_items : Z;
  l_head : option node;
  l_index : option node;
  l_end : option node
}.
#[export] Instance eta_ListHead : Settable ListHead :=
  fun r => mkListHead (num_items r) (l_head r) (l_index r) (l_end r).

(** The two embedded [ListItem]s of a [TaskControlBlock] live in the list
    memory, under the addresses [NState t] and [NEvent t]. *)
Record TaskControlBlock := mkTCB {
  current_sp : option sptr;
  stack_high : option sptr;
  stack_base : option sptr;
  stack_depth : Z;
  task_id : Z;
  core_id : Z;
  current_state : TaskState;
  priority : Z;
  wakeup_time : Z;
  wakeup_reason : TaskWakeupReason;
  base_priority : Z;
  mutexes_held : Z
}.
#[export] Instance eta_TCB : Settable TaskControlBlock :=
  fun r => mkTCB (current_sp r) (stack_high r) (stack_base r) (stack_depth r) (task_id r)
    (core_id r) (current_state r) (priority r) (wakeup_time r) (wakeup_reason r)
    (base_priority r) (mutexes_held r).

(** What the startup code's .bss clear leaves. *)
Definition zero_item : ListItem := mkListItem None None None None.
Definition zero_list : ListHead := mkListHead 0 None None None.
Definition zero_tcb : TaskControlBlock :=
  mkTCB None None None 0 0 0 TASK_STATE_READY 0 0 WAKEUP_REASON_NONE 0 0.
