(* ===== verification/Crc.v ===== *)
(** * CRC-32 (source/drivers/crc)

    The driver folds bytes into a CRC with the ARMv8 [crc32w], [crc32h] and
    [crc32b] instructions.  The instructions are modelled by the bit-serial
    reflected CRC-32 they compute (polynomial 0x04C11DB7, reflected
    0xEDB88320); the loop that feeds them words, then a halfword, then a
    byte is the source's. *)

From S2P Require Import Prelude.

(** ** The instructions *)

Definition CRC_POLY : Z := 0xEDB88320.

Definition crc_step (x : Z) : Z :=
  Z.lxor (Z.shiftr x 1) (if Z.odd x then CRC_POLY else 0).

Definition crc_bits (n : nat) (x : Z) : Z := Nat.iter n crc_step x.

(** Conversion should compare folds before it runs them. *)
Strategy 100 [crc_bits].

Definition crc32b (acc v : Z) : Z := crc_bits 8 (Z.lxor acc v).
Definition crc32h (acc v : Z) : Z := crc_bits 16 (Z.lxor acc v).
Definition crc32w (acc v : Z) : Z := crc_bits 32 (Z.lxor acc v).

Arguments crc_bits : simpl never.
Arguments crc32b : simpl never.
Arguments crc32h : simpl never.
Arguments crc32w : simpl never.

(** ** The driver *)

Record CRC32 := mkCRC32 { crc : Z }.

(** [crc32_init]: the CRC32 field of ID_ISAR5, as read by the coprocessor. *)
Definition crc32_supported (isar5 : Z) : bool :=
  negb (Z.land (Z.shiftr isar5 16) 0xF =? 0).

(** The [while (len >= 4)] loop: the CRC and the bytes left over. *)
Fixpoint crc32_hw_words (c : Z) (data : list Z) {struct data} : Z * list Z :=
  match data with
  | b0 :: b1 :: b2 :: b3 :: rest => crc32_hw_words (crc32w c (of_le32 b0 b1 b2 b3)) rest
  | _ => (c, data)
  end.

(** [if (len >= 2)]. *)
Definition crc32_hw_half (c : Z) (data : list Z) : Z * list Z :=
  match data with
  | b0 :: b1 :: rest => (crc32h c (Z.lor b0 (Z.shiftl b1 8)), rest)
  | _ => (c, data)
  end.

Definition crc32_hw_update (c : Z) (data : list Z) : Z :=
  let '(c1, d1) := crc32_hw_words c data in
  let '(c2, d2) := crc32_hw_half c1 d1 in
  match d2 with
  | b0 :: _ => crc32b c2 b0
  | [] => c2
  end.

Definition crc32_start : CRC32 := mkCRC32 0xFFFFFFFF.
Definition crc32_update (ctx : CRC32) (data : list Z) : CRC32 :=
  mkCRC32 (crc32_hw_update (crc ctx) data).
Definition crc32_update_byte (ctx : CRC32) (b : Z) : CRC32 := crc32_update ctx [b].
Definition crc32_finish (ctx : CRC32) : Z := Z.lxor (crc ctx) 0xFFFFFFFF.
Definition crc32_verify (ctx : CRC32) (expected : Z) : bool := crc32_finish ctx =? expected.

(** The CRC of a whole buffer, the composition every caller uses. *)
Definition crc32_of (data : list Z) : Z := crc32_finish (crc32_update crc32_start data).

(** The check value of CRC-32/ISO-HDLC, which is also what the host tool's
    [zlib.crc32] computes. *)
Example crc32_check_value :
  crc32_of [0x31; 0x32; 0x33; 0x34; 0x35; 0x36; 0x37; 0x38; 0x39] = 0xCBF43926.
Proof. reflexivity. Qed.

(** ** Bit-serial reference *)

Lemma crc_step_shift (x y : Z) : crc_step (Z.lxor x (Z.shiftl y 1)) = Z.lxor (crc_step x) y.
Proof.
  unfold crc_step. rewrite Z.shiftr_lxor, Z.shiftr_shiftl_l by lia.
  change (1 - 1) with 0. rewrite Z.shiftl_0_r.
  rewrite <- !Z.bit0_odd, Z.lxor_spec, Z.shiftl_spec_low, xorb_false_r by lia.
  by rewrite !Z.lxor_assoc, (Z.lxor_comm y).
Qed.

Lemma crc_bits_shift (n : nat) (x y : Z) :
  crc_bits n (Z.lxor x (Z.shiftl y (Z.of_nat n))) = Z.lxor (crc_bits n x) y.
Proof.
  revert y. induction n as [|n IH]; intros y.
  - by rewrite Z.shiftl_0_r.
  - change (crc_bits (S n)) with (fun z => crc_step (crc_bits n z)). cbv beta.
    replace (Z.shiftl y (Z.of_nat (S n))) with (Z.shiftl (Z.shiftl y 1) (Z.of_nat n))
      by (rewrite Z.shiftl_shiftl by lia; f_equal; lia).
    rewrite IH. apply crc_step_shift.
Qed.

Lemma crc_bits_add (n m : nat) (x : Z) : crc_bits (n + m) x = crc_bits n (crc_bits m x).
Proof. unfold crc_bits. apply Nat.iter_add. Qed.

(** Folding [b] and then [v] is folding [b] with [v] placed above it. *)
Lemma crc_bits_cons (n : nat) (acc b v : Z) :
  crc_bits (8 + n) (Z.lxor acc (Z.lxor b (Z.shiftl v 8))) =
  crc_bits n (Z.lxor (crc32b acc b) v).
Proof.
  rewrite Nat.add_comm, crc_bits_add. f_equal. unfold crc32b.
  rewrite <- Z.lxor_assoc. change 8%Z with (Z.of_nat 8). apply crc_bits_shift.
Qed.

Lemma lxor_shiftl_add (a b n : Z) :
  0 <= n -> 0 <= a < 2 ^ n -> Z.lxor a (Z.shiftl b n) = a + b * 2 ^ n.
Proof.
  intros. rewrite <- Z.add_nocarry_lxor by (by apply land_shiftl_low).
  by rewrite Z.shiftl_mul_pow2 by lia.
Qed.

Lemma crc32h_bytes (acc b0 b1 : Z) : is_byte b0 -> is_byte b1 ->
  crc32h acc (Z.lor b0 (Z.shiftl b1 8)) = crc32b (crc32b acc b0) b1.
Proof.
  unfold is_byte. intros H0 H1. unfold crc32h at 1. change 16%nat with (8 + 8)%nat.
  rewrite lor_disjoint_add, <- lxor_shiftl_add by lia. apply crc_bits_cons.
Qed.

Lemma crc32w_bytes (acc b0 b1 b2 b3 : Z) :
  is_byte b0 -> is_byte b1 -> is_byte b2 -> is_byte b3 ->
  crc32w acc (of_le32 b0 b1 b2 b3) = crc32b (crc32b (crc32b (crc32b acc b0) b1) b2) b3.
Proof.
  intros H0 H1 H2 H3. rewrite of_le32_sum by done. unfold is_byte in *. unfold crc32w.
  replace (b0 + b1 * 256 + b2 * 65536 + b3 * 16777216)
    with (Z.lxor b0 (Z.shiftl (Z.lxor b1 (Z.shiftl (Z.lxor b2 (Z.shiftl b3 8)) 8)) 8))
    by (rewrite !lxor_shiftl_add by lia; lia).
  change 32%nat with (8 + (8 + (8 + 8)))%nat. rewrite 3!crc_bits_cons. reflexivity.
Qed.

Definition crc32_bytes (c : Z) (data : list Z) : Z := foldl crc32b c data.

Lemma crc32_hw_words_spec (c : Z) (data : list Z) :
  Forall is_byte data ->
  let '(c', rest) := crc32_hw_words c data in
  crc32_bytes c data = crc32_bytes c' rest /\ (length rest < 4)%nat /\ Forall is_byte rest.
Proof.
  remember (length data) as n eqn:Hn. revert c data Hn.
  induction n as [n IH] using lt_wf_ind. intros c data -> Hb.
  destruct data as [|b0 [|b1 [|b2 [|b3 rest]]]]; cbn -[Z.lor of_le32 crc32w crc32_bytes];
    try (split_and!; [done | lia | done]).
  split_Forall.
  specialize (IH (length rest)). cbn in IH.
  specialize (IH ltac:(lia) (crc32w c (of_le32 b0 b1 b2 b3)) rest eq_refl ltac:(done)).
  destruct (crc32_hw_words _ rest) as [c' rest']. destruct IH as (IH & Hl & Hb').
  split_and!; [|done..]. rewrite <- IH. unfold crc32_bytes. cbn [foldl].
  by rewrite crc32w_bytes.
Qed.

(** The word/halfword/byte loop computes the byte-by-byte CRC. *)
Lemma crc32_hw_update_bytes (c : Z) (data : list Z) :
  Forall is_byte data -> crc32_hw_update c data = crc32_bytes c data.
Proof.
  intros Hb. unfold crc32_hw_update. pose proof (crc32_hw_words_spec c data Hb) as Hw.
  destruct (crc32_hw_words c data) as [c1 d1]. destruct Hw as (-> & Hl & Hb1).
  destruct d1 as [|b0 [|b1 [|b2 [|]]]]; cbn in Hl; try lia;
    cbn -[Z.lor Z.shiftl crc32b crc32h]; [done..| |];
    split_Forall; by rewrite crc32h_bytes.
Qed.

Lemma crc32_bytes_app (c : Z) (a b : list Z) :
  crc32_bytes c (a ++ b) = crc32_bytes (crc32_bytes c a) b.
Proof. apply foldl_app. Qed.

(** ** Error detection *)

Lemma crc_step_range (x : Z) : 0 <= x < 2 ^ 32 -> 0 <= crc_step x < 2 ^ 32.
Proof.
  intros Hx. unfold crc_step.
  assert (0 <= Z.shiftr x 1 < 2 ^ 32) as Hs.
  { rewrite Z.shiftr_div_pow2 by lia. change (2 ^ 1) with 2. Z.div_mod_to_equations. lia. }
  destruct (Z.odd x); [|by rewrite Z.lxor_0_r].
  split; [apply Z.lxor_nonneg; unfold CRC_POLY; lia|].
  destruct (Z.eq_dec (Z.lxor (Z.shiftr x 1) CRC_POLY) 0) as [->|Hne]; [lia|].
  apply Z.log2_lt_pow2.
  - pose proof (proj2 (Z.lxor_nonneg (Z.shiftr x 1) CRC_POLY)) as Hn.
    unfold CRC_POLY in *. lia.
  - eapply Z.le_lt_trans; [apply Z.log2_lxor; unfold CRC_POLY; lia|].
    apply Z.max_lub_lt; [|done].
    destruct (Z.eq_dec (Z.shiftr x 1) 0) as [->|]; [done|]. apply Z.log2_lt_pow2; lia.
Qed.

Lemma testbit_32_high (x k : Z) : 0 <= x < 2 ^ 32 -> 32 <= k -> Z.testbit x k = false.
Proof.
  intros Hx Hk. rewrite <- (Z.mod_small x (2 ^ 32)) by lia.
  by apply Z.mod_pow2_bits_high.
Qed.

(** One bit step loses nothing: its top output bit is the bit shifted out. *)
Lemma crc_step_inj (x y : Z) :
  0 <= x < 2 ^ 32 -> 0 <= y < 2 ^ 32 -> crc_step x = crc_step y -> x = y.
Proof.
  intros Hx Hy Heq.
  assert (forall z, 0 <= z < 2 ^ 32 -> Z.testbit (crc_step z) 31 = Z.odd z) as Htop.
  { intros z Hz. unfold crc_step. rewrite Z.lxor_spec, Z.shiftr_spec by lia.
    rewrite testbit_32_high by lia. by destruct (Z.odd z). }
  assert (Z.odd x = Z.odd y) as Hodd by (rewrite <- !Htop by done; by rewrite Heq).
  unfold crc_step in Heq. rewrite Hodd in Heq.
  apply (f_equal (fun v => Z.lxor v (if Z.odd y then CRC_POLY else 0))) in Heq.
  rewrite !Z.lxor_assoc, Z.lxor_nilpotent, !Z.lxor_0_r in Heq.
  apply Z.bits_inj'. intros k Hk. destruct (Z.eq_dec k 0) as [->|].
  - by rewrite !Z.bit0_odd.
  - replace k with (k - 1 + 1) by lia. rewrite <- !Z.shiftr_spec by lia. by rewrite Heq.
Qed.

Lemma crc_bits_range (n : nat) (x : Z) : 0 <= x < 2 ^ 32 -> 0 <= crc_bits n x < 2 ^ 32.
Proof.
  intros Hx. induction n as [|n IH]; [done|].
  change (crc_bits (S n) x) with (crc_step (crc_bits n x)). by apply crc_step_range.
Qed.

Lemma crc_bits_inj (n : nat) (x y : Z) :
  0 <= x < 2 ^ 32 -> 0 <= y < 2 ^ 32 -> crc_bits n x = crc_bits n y -> x = y.
Proof.
  intros Hx Hy. induction n as [|n IH]; [done|].
  change (crc_bits (S n) ?z) with (crc_step (crc_bits n z)).
  change (crc_bits (S n) y) with (crc_step (crc_bits n y)).
  intros Heq%crc_step_inj; eauto using crc_bits_range.
Qed.

Lemma lxor_range_32 (x y : Z) :
  0 <= x < 2 ^ 32 -> 0 <= y < 2 ^ 32 -> 0 <= Z.lxor x y < 2 ^ 32.
Proof.
  intros Hx Hy. split; [apply Z.lxor_nonneg; lia|].
  destruct (Z.eq_dec (Z.lxor x y) 0) as [->|]; [lia|].
  assert (0 <= Z.lxor x y) by (apply Z.lxor_nonneg; lia).
  assert (forall z, 0 <= z < 2 ^ 32 -> Z.log2 z < 32) as Hlog.
  { intros z Hz. destruct (Z.eq_dec z 0) as [->|]; [done|]. apply Z.log2_lt_pow2; lia. }
  apply Z.log2_lt_pow2; [lia|].
  eapply Z.le_lt_trans; [apply Z.log2_lxor; lia|]. apply Z.max_lub_lt; by apply Hlog.
Qed.

Lemma crc32b_range (c b : Z) : 0 <= c < 2 ^ 32 -> is_byte b -> 0 <= crc32b c b < 2 ^ 32.
Proof. unfold is_byte. intros. apply crc_bits_range, lxor_range_32; lia. Qed.

Lemma crc32_bytes_range (c : Z) (data : list Z) :
  0 <= c < 2 ^ 32 -> Forall is_byte data -> 0 <= crc32_bytes c data < 2 ^ 32.
Proof.
  intros Hc Hd. revert c Hc. induction Hd as [|b data Hb Hd IH]; intros c Hc; [done|].
  cbn. apply IH. by apply crc32b_range.
Qed.

Lemma lxor_inj_r (a b c : Z) : Z.lxor a c = Z.lxor b c -> a = b.
Proof.
  intros Heq. apply (f_equal (fun v => Z.lxor v c)) in Heq.
  by rewrite !Z.lxor_assoc, Z.lxor_nilpotent, !Z.lxor_0_r in Heq.
Qed.

Lemma crc32b_inj_acc (c c' b : Z) :
  0 <= c < 2 ^ 32 -> 0 <= c' < 2 ^ 32 -> is_byte b -> crc32b c b = crc32b c' b -> c = c'.
Proof.
  unfold is_byte. intros Hc Hc' Hb Heq%crc_bits_inj; [|apply lxor_range_32; lia..].
  by apply lxor_inj_r in Heq.
Qed.

Lemma crc32b_inj_byte (c b b' : Z) :
  0 <= c < 2 ^ 32 -> is_byte b -> is_byte b' -> crc32b c b = crc32b c b' -> b = b'.
Proof.
  unfold is_byte. intros Hc Hb Hb' Heq%crc_bits_inj; [|apply lxor_range_32; lia..].
  rewrite (Z.lxor_comm c b), (Z.lxor_comm c b') in Heq. by apply lxor_inj_r in Heq.
Qed.

Lemma crc32_bytes_inj_acc (c c' : Z) (data : list Z) :
  0 <= c < 2 ^ 32 -> 0 <= c' < 2 ^ 32 -> Forall is_byte data ->
  crc32_bytes c data = crc32_bytes c' data -> c = c'.
Proof.
  intros Hc Hc' Hd. revert c c' Hc Hc'.
  induction Hd as [|b data Hb Hd IH]; intros c c' Hc Hc'; [done|].
  cbn. intros Heq%IH; [|by apply crc32b_range..]. by eapply crc32b_inj_acc.
Qed.

Lemma crc32_update_app (ctx : CRC32) (a b : list Z) :
  Forall is_byte a -> Forall is_byte b ->
  crc32_update (crc32_update ctx a) b = crc32_update ctx (a ++ b).
Proof.
  intros Ha Hb. unfold crc32_update. cbn [crc].
  rewrite !crc32_hw_update_bytes by (try apply Forall_app; done).
  by rewrite crc32_bytes_app.
Qed.

Lemma crc32_finish_range (ctx : CRC32) :
  0 <= crc ctx < 2 ^ 32 -> 0 <= crc32_finish ctx < 2 ^ 32.
Proof. intros. by apply lxor_range_32. Qed.

Lemma crc32_of_range (data : list Z) : Forall is_byte data -> 0 <= crc32_of data < 2 ^ 32.
Proof.
  intros Hd. apply crc32_finish_range. cbn [crc crc32_update].
  rewrite crc32_hw_update_bytes by done. by apply crc32_bytes_range.
Qed.

(** ** Properties *)

(** C28: feeding a message to [crc32_update] in any split into chunks gives
    the same CRC as feeding it whole, and that CRC is the byte-by-byte
    reference: the word, halfword and byte paths of [crc32_hw_update] agree
    however the chunk boundaries fall. *)
Theorem crc32_chunking (ctx : CRC32) (chunks : list (list Z)) :
  Forall (Forall is_byte) chunks ->
  foldl crc32_update ctx chunks = crc32_update ctx (concat chunks) /\
  crc (crc32_update ctx (concat chunks)) = crc32_bytes (crc ctx) (concat chunks).
Proof.
  intros Hc. split.
  - revert ctx. induction Hc as [|a cs Ha Hcs IH]; intros ctx; [by destruct ctx|].
    cbn [foldl concat]. rewrite IH. apply crc32_update_app; [done|].
    clear -Hcs. induction Hcs; cbn; [done|]. by apply Forall_app.
  - cbn [crc crc32_update]. apply crc32_hw_update_bytes.
    induction Hc; cbn; [done|]. by apply Forall_app.
Qed.

Lemma crc32_chunking_witness :
  foldl crc32_update crc32_start [[0x31; 0x32; 0x33]; [0x34; 0x35; 0x36; 0x37; 0x38]; [0x39]] =
  crc32_update crc32_start [0x31; 0x32; 0x33; 0x34; 0x35; 0x36; 0x37; 0x38; 0x39].
Proof.
  apply (crc32_chunking crc32_start [[0x31; 0x32; 0x33]; [0x34; 0x35; 0x36; 0x37; 0x38]; [0x39]]).
  repeat constructor; done.
Defined.

(** Folding a differing byte is remembered to the end. *)
Lemma crc32_of_differs (pre post : list Z) (b b' : Z) :
  Forall is_byte pre -> Forall is_byte post -> is_byte b -> is_byte b' -> b <> b' ->
  crc32_of (pre ++ b' :: post) <> crc32_of (pre ++ b :: post).
Proof.
  intros Hpre Hpost Hb Hb' Hne. unfold crc32_of. intros Heq%lxor_inj_r. cbn [crc crc32_update] in Heq.
  rewrite !crc32_hw_update_bytes in Heq by (apply Forall_app; auto).
  rewrite !crc32_bytes_app in Heq. cbn [crc32_bytes foldl] in Heq.
  assert (0 <= crc32_bytes (crc crc32_start) pre < 2 ^ 32) by (by apply crc32_bytes_range).
  apply crc32_bytes_inj_acc in Heq; [|by apply crc32b_range..|done].
  by apply crc32b_inj_byte in Heq.
Qed.

(** Two messages that differ in exactly one byte never have the same
    CRC, so [crc32_verify] rejects every single-byte corruption. *)
Theorem crc32_detects_byte (pre post : list Z) (b b' : Z) :
  Forall is_byte pre -> Forall is_byte post -> is_byte b -> is_byte b' -> b <> b' ->
  crc32_verify (crc32_update crc32_start (pre ++ b' :: post)) (crc32_of (pre ++ b :: post)) = false.
Proof. intros. apply Z.eqb_neq. by apply crc32_of_differs. Qed.

Lemma crc32_detects_byte_witness :
  crc32_verify (crc32_update crc32_start [1; 7; 3]) (crc32_of [1; 2; 3]) = false.
Proof. apply (crc32_detects_byte [1] [3] 2 7); [repeat constructor; done..|done|done|done]. Defined.
