(* ===== verification/Dll.v ===== *)
(** * Intrusive doubly linked lists (the List/ListItem code of the kernel)

    The scheduler, the mutex and the semaphore all keep tasks on intrusive
    lists and repeat the same pointer code inline.  This file gives that
    code once, over a memory of [ListItem]s and [ListHead]s, and proves it
    against a representation predicate: [list_rep d l q] says that the
    pointers of [d] lay out exactly the sequence [q] on list [l].  [wf_mem]
    says it of every list at once, which also separates the lists. *)

From S2P Require Import Prelude Types.

Record dmem := mkDmem { items : node -> ListItem; lists : lref -> ListHead }.
#[export] Instance eta_dmem : Settable dmem := fun r => mkDmem (items r) (lists r).

(** ** The pointer code *)

Definition set_item (n : node) (f : ListItem -> ListItem) (d : dmem) : dmem :=
  d <| items ::= fun it => <[n := f (it n)]> it |>.
Definition set_list (l : lref) (f : ListHead -> ListHead) (d : dmem) : dmem :=
  d <| lists ::= fun ls => <[l := f (ls l)]> ls |>.

(** Append [n], owned by [t], at the tail of [l].  The ready lists also set
    [index] when the list was empty ([with_index]); the event lists do not. *)
Definition list_push_back (with_index : bool) (l : lref) (n : node) (t : tcb) (d : dmem) : dmem :=
  let d := set_item n (fun it => it <| li_owner := Some t |> <| li_container := Some l |>
             <| li_next := None |> <| li_prev := l_end (lists d l) |>) d in
  let d := match l_end (lists d l) with
           | Some e => set_item e (fun it => it <| li_next := Some n |>) d
           | None => set_list l (fun h => let h := h <| l_head := Some n |> in
                       if with_index then h <| l_index := Some n |> else h) d
           end in
  set_list l (fun h => h <| l_end := Some n |> <| num_items ::= fun k => u16 (k + 1) |>) d.

(** The two stitching conditionals every removal starts with.  The item's
    own links are read again after the first store, as the C code does. *)
Definition list_stitch (l : lref) (n : node) (d : dmem) : dmem :=
  let d := match li_prev (items d n) with
           | Some p => set_item p (fun it => it <| li_next := li_next (items d n) |>) d
           | None => set_list l (fun h => h <| l_head := li_next (items d n) |>) d
           end in
  match li_next (items d n) with
  | Some x => set_item x (fun it => it <| li_prev := li_prev (items d n) |>) d
  | None => set_list l (fun h => h <| l_end := li_prev (items d n) |>) d
  end.

(** [if (list->index == item) list->index = item->next ? item->next : list->head;] *)
Definition list_skip_index (l : lref) (n : node) (d : dmem) : dmem :=
  if decide (l_index (lists d l) = Some n)
  then set_list l (fun h => h <| l_index := match li_next (items d n) with
                                            | Some x => Some x
                                            | None => l_head (lists d l)
                                            end |>) d
  else d.

(** [list->num_items--], then clear the item's links and container. *)
Definition list_forget (l : lref) (n : node) (d : dmem) : dmem :=
  let d := set_list l (fun h => h <| num_items ::= fun k => u16 (k - 1) |>) d in
  set_item n (fun it => it <| li_next := None |> <| li_prev := None |> <| li_container := None |>) d.

(** [if (list->index != NULL)
      list->index = list->index->next ? list->index->next : list->head;] *)
Definition list_advance_index (l : lref) (d : dmem) : dmem :=
  match l_index (lists d l) with
  | Some i => set_list l (fun h => h <| l_index := match li_next (items d i) with
                                                   | Some x => Some x
                                                   | None => l_head h
                                                   end |>) d
  | None => d
  end.

(** ** The representation predicate *)

Definition or_else {A} (o1 o2 : option A) : option A :=
  match o1 with Some _ => o1 | None => o2 end.

Fixpoint dseg (d : dmem) (p : option node) (q : list node) (nx : option node) : Prop :=
  match q with
  | [] => True
  | n :: q' => li_prev (items d n) = p /\ li_next (items d n) = or_else (head q') nx /\
               dseg d (Some n) q' nx
  end.

(** Addresses of live objects: four cores, sixteen pool slots and one idle
    task each. *)
Definition valid_tcb (t : tcb) : Prop :=
  match t with
  | Pool c i => 0 <= c < COMPANION_CORE_MAX_CORES /\ 0 <= i < MAX_NUM_TASKS
  | Idle c => 0 <= c < COMPANION_CORE_MAX_CORES
  end.
#[export] Instance valid_tcb_dec t : Decision (valid_tcb t).
Proof. destruct t; apply _. Defined.

Record list_rep (d : dmem) (l : lref) (q : list node) : Prop := {
  rep_head : l_head (lists d l) = head q;
  rep_end : l_end (lists d l) = last q;
  rep_num : num_items (lists d l) = Z.of_nat (length q);
  rep_seg : dseg d None q None;
  rep_nodup : NoDup q;
  rep_members : forall n, li_container (items d n) = Some l <-> n ∈ q;
  rep_owner : forall n, n ∈ q -> li_owner (items d n) = Some (node_tcb n);
  rep_valid : forall n, n ∈ q -> valid_tcb (node_tcb n)
}.

Abbreviation queues := (lref -> list node).
Definition wf_mem (d : dmem) (Q : queues) : Prop := forall l, list_rep d l (Q l).

(** ** Lists short enough for [uint16_t] *)

Definition all_tcbs : list tcb :=
  concat (map (fun c => Idle c :: map (Pool c) (seqZ 0 16)) (seqZ 0 4)).
Definition all_nodes : list node := map NState all_tcbs ++ map NEvent all_tcbs.

Lemma valid_tcb_all (t : tcb) : valid_tcb t -> t ∈ all_tcbs.
Proof.
  intros Ht. unfold all_tcbs. apply list_elem_of_In, in_concat.
  exists (Idle (tcb_core t) :: map (Pool (tcb_core t)) (seqZ 0 16)). split.
  - apply list_elem_of_In, list_elem_of_fmap. exists (tcb_core t). split; [done|].
    apply elem_of_seqZ. destruct t; cbn in *; unfold COMPANION_CORE_MAX_CORES in *; lia.
  - destruct t as [c i|c]; [right|by left]. apply list_elem_of_In, list_elem_of_fmap.
    exists i. split; [done|]. apply elem_of_seqZ. cbn in *. unfold MAX_NUM_TASKS in *. lia.
Qed.

Lemma valid_node_all (n : node) : valid_tcb (node_tcb n) -> n ∈ all_nodes.
Proof.
  intros Hn%valid_tcb_all. unfold all_nodes. apply elem_of_app.
  destruct n; [left|right]; by apply list_elem_of_fmap_2.
Qed.

Lemma valid_length (q : list node) :
  NoDup q -> (forall n, n ∈ q -> valid_tcb (node_tcb n)) -> (length q <= 136)%nat.
Proof.
  intros Hnd Hv. change 136%nat with (length all_nodes).
  apply submseteq_length, NoDup_submseteq; [done|].
  intros n Hn. by apply valid_node_all, Hv.
Qed.

(** ** Memory updates *)

Lemma items_set_item (n m : node) f (d : dmem) :
  items (set_item n f d) m = if decide (n = m) then f (items d n) else items d m.
Proof. cbn. unfold insert, fn_insert. by destruct (decide (n = m)). Qed.

Lemma lists_set_list (l m : lref) f (d : dmem) :
  lists (set_list l f d) m = if decide (l = m) then f (lists d l) else lists d m.
Proof. cbn. unfold insert, fn_insert. by destruct (decide (l = m)). Qed.

Lemma lists_set_item (n : node) f (d : dmem) (l : lref) : lists (set_item n f d) l = lists d l.
Proof. done. Qed.
Lemma items_set_list (l : lref) f (d : dmem) (n : node) : items (set_list l f d) n = items d n.
Proof. done. Qed.

#[global] Opaque set_item set_list.

Create Rewrite HintDb dll.
#[export] Hint Rewrite items_set_item lists_set_list lists_set_item items_set_list : dll.

(** Case analysis on every address comparison in sight. *)
Ltac dll_simpl := autorewrite with dll in *.
Ltac addr :=
  repeat (dll_simpl;
    match goal with
    | |- context [decide (?a = ?b)] => destruct (decide (a = b)); simplify_eq; cbn in *
    | H : context [decide (?a = ?b)] |- _ => destruct (decide (a = b)); simplify_eq; cbn in *
    end); dll_simpl.

(** ** Segments *)

Lemma or_else_assoc {A} (a b c : option A) : or_else a (or_else b c) = or_else (or_else a b) c.
Proof. by destruct a. Qed.

Lemma head_app {A} (q1 q2 : list A) : head (q1 ++ q2) = or_else (head q1) (head q2).
Proof. by destruct q1. Qed.

Lemma last_app' {A} (q1 q2 : list A) : last (q1 ++ q2) = or_else (last q2) (last q1).
Proof. rewrite last_app. by destruct (last q2). Qed.

Lemma last_cons' {A} (x : A) (q : list A) : last (x :: q) = or_else (last q) (Some x).
Proof. rewrite last_cons. by destruct (last q). Qed.

Lemma dseg_app (d : dmem) (q1 q2 : list node) p nx :
  dseg d p (q1 ++ q2) nx <->
  dseg d p q1 (or_else (head q2) nx) /\ dseg d (or_else (last q1) p) q2 nx.
Proof.
  revert p. induction q1 as [|n q1 IH]; intros p; [cbn; tauto|].
  cbn [app dseg]. rewrite IH, head_app, last_cons', <- !or_else_assoc. cbn. tauto.
Qed.

Lemma dseg_frame (d d' : dmem) q p nx :
  (forall n, n ∈ q -> li_prev (items d' n) = li_prev (items d n) /\
                      li_next (items d' n) = li_next (items d n)) ->
  dseg d p q nx -> dseg d' p q nx.
Proof.
  revert p. induction q as [|n q IH]; intros p Hf; [done|].
  cbn. intros (Hp & Hn & Hq).
  destruct (Hf n) as [-> ->]; [by left|]. split_and!; [done..|].
  apply IH; [|done]. intros m Hm. apply Hf. by right.
Qed.

(** The links of a node in the middle of a segment. *)
Lemma dseg_middle (d : dmem) q1 n q2 p nx :
  dseg d p (q1 ++ n :: q2) nx <->
  dseg d p q1 (Some n) /\ li_prev (items d n) = or_else (last q1) p /\
  li_next (items d n) = or_else (head q2) nx /\ dseg d (Some n) q2 nx.
Proof. rewrite dseg_app. cbn. tauto. Qed.

(** Re-linking the end of a segment: only the last node's [next] changes. *)
Lemma dseg_set_next_last (d d' : dmem) q p nx nx' :
  (forall n, n ∈ q -> li_prev (items d' n) = li_prev (items d n)) ->
  (forall n, n ∈ q -> last q <> Some n -> li_next (items d' n) = li_next (items d n)) ->
  (forall e, last q = Some e -> li_next (items d' e) = nx') ->
  NoDup q -> dseg d p q nx -> dseg d' p q nx'.
Proof.
  destruct q as [|e q _] using rev_ind; [done|].
  intros Hp Hn He Hnd. rewrite last_snoc in *. apply NoDup_app in Hnd as (_ & Hdis & _).
  rewrite !dseg_middle. intros (Hs & Hpe & _ & _). split_and!; [| |by rewrite He|done].
  - eapply dseg_frame; [|done]. intros n Hq.
    rewrite Hp, Hn; [done|set_solver| |set_solver].
    intros [= ->]. eapply Hdis; [done|]. set_solver.
  - rewrite Hp; [done|set_solver].
Qed.

(** Re-linking the front of a segment: only the first node's [prev] changes. *)
Lemma dseg_set_prev_head (d d' : dmem) q p p' nx :
  (forall n, n ∈ q -> li_next (items d' n) = li_next (items d n)) ->
  (forall n, n ∈ q -> head q <> Some n -> li_prev (items d' n) = li_prev (items d n)) ->
  (forall h, head q = Some h -> li_prev (items d' h) = p') ->
  NoDup q -> dseg d p q nx -> dseg d' p' q nx.
Proof.
  destruct q as [|h q]; [done|]. intros Hn Hp Hh Hnd. cbn in *.
  apply NoDup_cons in Hnd as [Hnin _]. intros (_ & Hne & Hq).
  rewrite Hh, Hn by (done || by left). split_and!; [done..|].
  eapply dseg_frame; [|done]. intros m Hm.
  rewrite Hn, Hp; [done|by right| |by right]. congruence.
Qed.

(** ** Frame *)

Lemma list_rep_frame (d d' : dmem) l q :
  l_head (lists d' l) = l_head (lists d l) -> l_end (lists d' l) = l_end (lists d l) ->
  num_items (lists d' l) = num_items (lists d l) ->
  (forall n, n ∈ q -> items d' n = items d n) ->
  (forall n, li_container (items d' n) = Some l <-> li_container (items d n) = Some l) ->
  list_rep d l q -> list_rep d' l q.
Proof.
  intros H1 H2 H3 Hi Hc []. split; rewrite ?H1, ?H2, ?H3; try done.
  - eapply dseg_frame; [|done]. intros n Hn. by rewrite Hi.
  - intros n. rewrite Hc. done.
  - intros n Hn. rewrite Hi by done. auto.
Qed.

Lemma wf_disjoint (d : dmem) (Q : queues) l l' n :
  wf_mem d Q -> n ∈ Q l -> n ∈ Q l' -> l = l'.
Proof.
  intros Hwf Hn Hn'. apply (rep_members _ _ _ (Hwf l)) in Hn.
  apply (rep_members _ _ _ (Hwf l')) in Hn'. congruence.
Qed.

Lemma wf_container (d : dmem) (Q : queues) l n :
  wf_mem d Q -> n ∈ Q l <-> li_container (items d n) = Some l.
Proof. intros Hwf. symmetry. apply (rep_members _ _ _ (Hwf l)). Qed.

Lemma wf_unlinked (d : dmem) (Q : queues) l n :
  wf_mem d Q -> li_container (items d n) = None -> n ∉ Q l.
Proof. intros Hwf Hc Hn%(wf_container _ _ _ _ Hwf). congruence. Qed.

(** ** Appending *)

Lemma push_back_items b l n t d m :
  l_end (lists d l) <> Some n ->
  items (list_push_back b l n t d) m =
    if decide (n = m) then mkListItem None (l_end (lists d l)) (Some t) (Some l)
    else if decide (l_end (lists d l) = Some m)
         then (items d m) <| li_next := Some n |> else items d m.
Proof.
  intros He. unfold list_push_back. dll_simpl.
  destruct (l_end (lists d l)) as [e|] eqn:Hend; addr; try done; congruence.
Qed.

Lemma push_back_lists b l n t d m :
  lists (list_push_back b l n t d) m =
    if decide (l = m)
    then mkListHead (u16 (num_items (lists d l) + 1))
           (match l_end (lists d l) with Some _ => l_head (lists d l) | None => Some n end)
           (match l_end (lists d l) with Some _ => l_index (lists d l)
            | None => if b then Some n else l_index (lists d l) end)
           (Some n)
    else lists d m.
Proof.
  unfold list_push_back. dll_simpl.
  destruct (l_end (lists d l)) as [e|] eqn:Hend; addr; try done; by destruct b.
Qed.

Lemma list_rep_push_back b d l q n :
  list_rep d l q -> n ∉ q -> valid_tcb (node_tcb n) ->
  list_rep (list_push_back b l n (node_tcb n) d) l (q ++ [n]).
Proof.
  intros [Hh He Hn Hs Hnd Hm Ho Hv] Hnin Hval.
  assert (l_end (lists d l) <> Some n) as Hne.
  { rewrite He. intros Hl. apply Hnin. apply last_Some in Hl as [q' ->]. set_solver. }
  assert (length q <= 136)%nat by by apply valid_length.
  split; rewrite ?push_back_lists, ?decide_True by done; cbn.
  - rewrite He, Hh, head_app. by destruct q as [|x q _] using rev_ind;
      [|rewrite last_snoc; destruct q].
  - by rewrite last_snoc.
  - rewrite Hn, wrap_small by lia. rewrite length_app. cbn. lia.
  - assert (items (list_push_back b l n (node_tcb n) d) n
            = mkListItem None (last q) (Some (node_tcb n)) (Some l)) as Hitem
      by (by rewrite push_back_items, decide_True, He by done).
    rewrite dseg_app. cbn. rewrite Hitem. cbn. split_and!; [|by destruct (last q)|done..].
    eapply (dseg_set_next_last d); [| | |done|done]; intros m Hm'; intros;
      rewrite push_back_items, He by done; rewrite He in Hne;
      repeat case_decide; cbn; congruence.
  - apply NoDup_app. split_and!; [done|set_solver|apply NoDup_singleton].
  - intros m. rewrite push_back_items, elem_of_app, <- Hm by done.
    rewrite list_elem_of_singleton. repeat case_decide; cbn; naive_solver.
  - intros m Hm'. rewrite push_back_items by done.
    apply elem_of_app in Hm' as [Hm'| ->%list_elem_of_singleton]; [|by rewrite decide_True].
    rewrite decide_False by congruence. by case_decide; apply Ho.
  - intros m. rewrite elem_of_app, list_elem_of_singleton. naive_solver.
Qed.

Lemma wf_push_back b d Q l n :
  wf_mem d Q -> li_container (items d n) = None -> valid_tcb (node_tcb n) ->
  wf_mem (list_push_back b l n (node_tcb n) d) (<[l := Q l ++ [n]]> Q).
Proof.
  intros Hwf Hc Hval l'. pose proof (wf_unlinked _ _ l _ Hwf Hc) as Hnin.
  destruct (decide (l = l')) as [<-|Hll].
  - rewrite fn_lookup_insert. by apply list_rep_push_back.
  - rewrite fn_lookup_insert_ne by done.
    assert (l_end (lists d l) <> Some n) as Hne.
    { rewrite (rep_end _ _ _ (Hwf l)). intros [q' Hq]%last_Some. apply Hnin. rewrite Hq. set_solver. }
    apply (list_rep_frame d); [by rewrite push_back_lists, decide_False by done..| | |done].
    + intros m Hm. rewrite push_back_items by done.
      assert (n <> m) by (intros ->; by apply (wf_unlinked _ _ l' _ Hwf Hc)).
      rewrite decide_False by done. case_decide as Hem; [|done].
      exfalso. apply Hll. eapply (wf_disjoint d Q _ _ m); [done| |done].
      rewrite (rep_end _ _ _ (Hwf l)) in Hem. apply last_Some in Hem as [q' ->]. set_solver.
    + intros m. rewrite push_back_items by done.
      repeat case_decide; cbn; subst; try done. rewrite Hc. naive_solver.
Qed.

(** ** Removal *)

(** The nodes of [q] other than [n]. *)
Definition del (n : node) (q : list node) : list node := filter (fun m => m <> n) q.

Lemma del_notin (n : node) (q : list node) : n ∉ q -> del n q = q.
Proof.
  induction q as [|m q IH]; [done|]. intros [Hm Hq]%not_elem_of_cons.
  unfold del. rewrite filter_cons_True by done. f_equal. by apply IH.
Qed.

Lemma del_middle (n : node) (q1 q2 : list node) :
  NoDup (q1 ++ n :: q2) -> del n (q1 ++ n :: q2) = q1 ++ q2.
Proof.
  intros (_ & Hd & [Hn _]%NoDup_cons)%NoDup_app. unfold del.
  rewrite filter_app, filter_cons_False by (intros Hc; by apply Hc).
  fold (del n q1) (del n q2). rewrite !del_notin; [done..|set_solver].
Qed.

Lemma elem_of_del (n m : node) (q : list node) : m ∈ del n q <-> m <> n /\ m ∈ q.
Proof. unfold del. by rewrite list_elem_of_filter. Qed.

Lemma forget_items (l : lref) (n m : node) (d : dmem) :
  items (list_forget l n d) m =
    if decide (n = m)
    then (items d n) <| li_next := None |> <| li_prev := None |> <| li_container := None |>
    else items d m.
Proof. unfold list_forget. by dll_simpl. Qed.

Lemma forget_lists (l m : lref) (n : node) (d : dmem) :
  lists (list_forget l n d) m =
    if decide (l = m) then (lists d l) <| num_items ::= fun k => u16 (k - 1) |> else lists d m.
Proof. unfold list_forget. by dll_simpl. Qed.

Section unlink.
Context (d : dmem) (l : lref) (n : node) (q1 q2 : list node).
Context (Hrep : list_rep d l (q1 ++ n :: q2)).

Lemma unlink_links :
  li_prev (items d n) = last q1 /\ li_next (items d n) = head q2.
Proof.
  pose proof (rep_seg _ _ _ Hrep) as (_ & -> & -> & _)%dseg_middle.
  split; [by destruct (last q1)|by destruct q2].
Qed.

Lemma unlink_neq p : last q1 = Some p -> p <> n /\ head q2 <> Some p /\ p ∈ q1.
Proof.
  pose proof (rep_nodup _ _ _ Hrep) as (_ & Hd & _)%NoDup_app.
  intros [q' ->]%last_Some.
  assert (p ∉ n :: q2) as Hp by (apply Hd; set_solver).
  split_and!; [set_solver| |set_solver]. intros Hh. destruct q2; simplify_eq/=. set_solver.
Qed.

Lemma unlink_neq' x : head q2 = Some x -> x <> n /\ last q1 <> Some x /\ x ∈ q2.
Proof.
  pose proof (rep_nodup _ _ _ Hrep) as (_ & Hd & [Hn _]%NoDup_cons)%NoDup_app.
  intros Hx. assert (x ∈ q2) by (destruct q2; simplify_eq/=; by left).
  split_and!; [set_solver| |done]. intros [q' ->]%last_Some. apply (Hd x); set_solver.
Qed.

Lemma stitch_items m :
  items (list_stitch l n d) m =
    if decide (last q1 = Some m) then (items d m) <| li_next := head q2 |>
    else if decide (head q2 = Some m) then (items d m) <| li_prev := last q1 |>
    else items d m.
Proof.
  pose proof unlink_links as [Hp Hn]. pose proof unlink_neq as Hne.
  pose proof unlink_neq' as Hne'.
  unfold list_stitch. rewrite Hp.
  destruct (last q1) as [p|] eqn:Hl1.
  - destruct (Hne p eq_refl) as (? & ? & ?). dll_simpl.
    rewrite (decide_False (P := p = n)) by done. rewrite Hn.
    destruct (head q2) as [x|] eqn:Hh2; addr; try done; congruence.
  - dll_simpl. rewrite Hn. destruct (head q2) as [x|] eqn:Hh2; addr; try done; congruence.
Qed.

Lemma stitch_lists m :
  lists (list_stitch l n d) m =
    if decide (l = m)
    then mkListHead (num_items (lists d l)) (head (q1 ++ q2)) (l_index (lists d l))
           (last (q1 ++ q2))
    else lists d m.
Proof.
  pose proof unlink_links as [Hp Hn]. pose proof unlink_neq as Hne.
  pose proof (rep_head _ _ _ Hrep) as Hh. pose proof (rep_end _ _ _ Hrep) as He.
  rewrite head_app, last_app', last_cons' in *. cbn in Hh, He.
  unfold list_stitch. rewrite Hp.
  destruct (lists d l) as [k h ix e] eqn:Hll. cbn in Hh, He. subst h e.
  destruct (last q1) as [p|] eqn:Hl1.
  - destruct (Hne p eq_refl) as (? & ? & Hp1). dll_simpl.
    rewrite (decide_False (P := p = n)) by done. rewrite Hn.
    destruct q1 as [|y q1']; [by apply not_elem_of_nil in Hp1|].
    destruct q2 as [|x q2']; cbn in *; addr; rewrite ?Hll; cbn; try done.
    all: rewrite ?Hp, ?last_cons'; first [done | by destruct (last q2')].
  - apply last_None in Hl1 as ->. dll_simpl. rewrite Hn.
    destruct q2 as [|x q2']; cbn in *; addr; rewrite ?Hll; cbn; try done.
    all: rewrite ?Hp, ?last_cons'; first [done | by destruct (last q2')].
Qed.

(** Unlinking leaves the rest of the queue, in order. *)
Lemma list_rep_unlink :
  list_rep (list_forget l n (list_stitch l n d)) l (q1 ++ q2).
Proof.
  pose proof (rep_nodup _ _ _ Hrep) as Hnd. pose proof (del_middle _ _ _ Hnd) as Hdel.
  pose proof (valid_length _ Hnd (rep_valid _ _ _ Hrep)) as Hlen.
  destruct Hrep as [_ _ Hk Hs _ Hm Ho Hv].
  assert (forall m, m ∈ q1 ++ q2 <-> m <> n /\ m ∈ q1 ++ n :: q2) as Hmem
    by (intros m; by rewrite <- Hdel, elem_of_del).
  assert (NoDup (q1 ++ q2)) as Hnd2 by (rewrite <- Hdel; by apply NoDup_filter).
  assert (NoDup (q1 ++ q2)) as (Hnd1 & Hd & Hnd3)%NoDup_app by done.
  split; rewrite ?forget_lists, ?stitch_lists, ?decide_True by done; cbn; try done.
  - rewrite Hk, length_app in *. cbn in *. rewrite length_app, wrap_small by lia. lia.
  - apply dseg_middle in Hs as (Hs1 & _ & _ & Hs2). rewrite dseg_app. split.
    + eapply (dseg_set_next_last d); [| | |done|done]; intros m Hmq; intros;
        (assert (m ∈ q1) by eauto using last_Some_elem_of);
        (assert (m <> n /\ m ∈ q1 ++ n :: q2) as [? _] by (apply Hmem, elem_of_app; auto));
        (assert (head q2 <> Some m) by (intros (_ & _ & ?)%unlink_neq'; by apply (Hd m)));
        rewrite forget_items, decide_False, stitch_items by done;
        repeat case_decide; cbn; try done; by destruct (head q2).
    + eapply (dseg_set_prev_head d); [| | |done|done]; intros m Hmq; intros;
        (assert (m ∈ q2) by eauto using head_Some_elem_of);
        (assert (m <> n /\ m ∈ q1 ++ n :: q2) as [? _] by (apply Hmem, elem_of_app; auto));
        (assert (last q1 <> Some m) by (intros (_ & _ & ?)%unlink_neq; by apply (Hd m)));
        rewrite forget_items, decide_False, stitch_items by done;
        repeat case_decide; cbn; try done; by destruct (last q1).
  - intros m. rewrite Hmem, <- Hm, forget_items. case_decide as Hnm; cbn; [naive_solver|].
    rewrite stitch_items. repeat case_decide; naive_solver.
  - intros m [Hmn Hmq]%Hmem. rewrite forget_items, decide_False, stitch_items by done.
    repeat case_decide; by apply Ho.
  - intros m [_ Hmq]%Hmem. by apply Hv.
Qed.
End unlink.

(** Two memories with the same items and the same list heads, whatever their
    [index] fields. *)
Record same_links (d d' : dmem) : Prop := {
  same_items : forall n, items d' n = items d n;
  same_head : forall l, l_head (lists d' l) = l_head (lists d l);
  same_end : forall l, l_end (lists d' l) = l_end (lists d l);
  same_num : forall l, num_items (lists d' l) = num_items (lists d l)
}.

Lemma wf_same_links (d d' : dmem) (Q : queues) : same_links d d' -> wf_mem d Q -> wf_mem d' Q.
Proof.
  intros [Hi Hh He Hn] Hwf l. apply (list_rep_frame d); try done.
  - intros n. by rewrite Hi.
Qed.

Lemma wf_queues_ext (d : dmem) (Q Q' : queues) : (forall l, Q' l = Q l) -> wf_mem d Q -> wf_mem d Q'.
Proof. intros HQ Hwf l. rewrite HQ. apply Hwf. Qed.

Lemma wf_unlink (d : dmem) (Q : queues) l n :
  wf_mem d Q -> n ∈ Q l ->
  wf_mem (list_forget l n (list_stitch l n d)) (<[l := del n (Q l)]> Q).
Proof.
  intros Hwf Hn. apply list_elem_of_split in Hn as (q1 & q2 & Hq).
  pose proof (Hwf l) as Hrep. rewrite Hq in Hrep. pose proof (rep_nodup _ _ _ Hrep) as Hnd.
  intros l'. destruct (decide (l = l')) as [<-|Hll].
  - rewrite fn_lookup_insert, Hq, del_middle by done. by apply list_rep_unlink.
  - rewrite fn_lookup_insert_ne by done.
    assert (forall m, m ∈ Q l' -> m ∉ q1 ++ n :: q2) as Hdis.
    { intros m Hm Hm'. rewrite <- Hq in Hm'. apply Hll. by eapply wf_disjoint. }
    pose proof (unlink_neq d l n q1 q2 Hrep) as Hlast.
    pose proof (unlink_neq' d l n q1 q2 Hrep) as Hhead.
    apply (list_rep_frame d); [rewrite forget_lists, decide_False by done;
      erewrite stitch_lists by done; by rewrite decide_False by done..| | |done].
    + intros m Hm%Hdis. rewrite forget_items, decide_False by set_solver.
      erewrite stitch_items by done. repeat case_decide; [..|done];
        exfalso; apply Hm, elem_of_app.
      * left. by apply last_Some_elem_of.
      * right; right. by apply head_Some_elem_of.
    + intros m. rewrite forget_items. case_decide as Hnm; cbn.
      * subst m. split; [done|]. intros Hc. apply (rep_members _ _ _ (Hwf l')) in Hc.
        apply Hdis in Hc. set_solver.
      * erewrite stitch_items by done. by repeat case_decide.
Qed.

(** The item that was unlinked is on no list. *)
Lemma unlink_container (l : lref) (n : node) (d : dmem) :
  li_container (items (list_forget l n d) n) = None.
Proof. by rewrite forget_items, decide_True. Qed.

(** Removal does not touch the owners. *)
Lemma unlink_owner (d : dmem) (Q : queues) l n m :
  wf_mem d Q -> n ∈ Q l ->
  li_owner (items (list_forget l n (list_stitch l n d)) m) = li_owner (items d m).
Proof.
  intros Hwf Hn. apply list_elem_of_split in Hn as (q1 & q2 & Hq).
  pose proof (Hwf l) as Hrep. rewrite Hq in Hrep.
  rewrite forget_items. erewrite !stitch_items by done. by repeat case_decide; subst.
Qed.

(** The container of every other item is what it was. *)
Lemma unlink_other_container (d : dmem) (Q : queues) l n m :
  wf_mem d Q -> n ∈ Q l -> m <> n ->
  li_container (items (list_forget l n (list_stitch l n d)) m) = li_container (items d m).
Proof.
  intros Hwf Hn Hm. apply list_elem_of_split in Hn as (q1 & q2 & Hq).
  pose proof (Hwf l) as Hrep. rewrite Hq in Hrep.
  rewrite forget_items, decide_False by done. erewrite !stitch_items by done.
  by repeat case_decide; subst.
Qed.

(** ** The round-robin cursor

    The [index] of a ready list is [NULL] exactly when the list is empty and
    otherwise points at one of its items. *)
Definition index_ok (d : dmem) (l : lref) (q : list node) : Prop :=
  match l_index (lists d l) with None => q = [] | Some n => n ∈ q end.

Lemma skip_same_links (l : lref) (n : node) (d : dmem) : same_links d (list_skip_index l n d).
Proof. unfold list_skip_index. split; intros; case_decide; addr; done. Qed.

Lemma skip_index (l m : lref) (n : node) (d : dmem) :
  l_index (lists (list_skip_index l n d) m) =
    if decide (l = m /\ l_index (lists d l) = Some n)
    then or_else (li_next (items d n)) (l_head (lists d l))
    else l_index (lists d m).
Proof.
  unfold list_skip_index. destruct (decide (l_index (lists d l) = Some n)) as [He|He].
  - rewrite lists_set_list. destruct (decide (l = m)) as [<-|Hlm].
    + rewrite decide_True by done. cbn. by destruct (li_next (items d n)).
    + by rewrite decide_False by naive_solver.
  - by rewrite decide_False by naive_solver.
Qed.

Lemma same_links_forget (l : lref) (n : node) (d d' : dmem) :
  same_links d d' -> same_links (list_forget l n d) (list_forget l n d').
Proof.
  intros [Hi Hh He Hn]. split; intros; rewrite ?forget_items, ?forget_lists;
    case_decide; cbn; congruence.
Qed.

(** Removal from a ready list: stitch, advance the cursor, forget. *)
Definition list_remove_ready (l : lref) (n : node) (d : dmem) : dmem :=
  list_forget l n (list_skip_index l n (list_stitch l n d)).

Lemma remove_ready_links (l : lref) (n : node) (d : dmem) :
  same_links (list_forget l n (list_stitch l n d)) (list_remove_ready l n d).
Proof. apply same_links_forget, skip_same_links. Qed.

Lemma wf_remove_ready (d : dmem) (Q : queues) l n :
  wf_mem d Q -> n ∈ Q l -> wf_mem (list_remove_ready l n d) (<[l := del n (Q l)]> Q).
Proof. intros. eapply wf_same_links; [apply remove_ready_links|]. by apply wf_unlink. Qed.

Lemma index_remove_ready (d : dmem) (Q : queues) l n :
  wf_mem d Q -> n ∈ Q l -> index_ok d l (Q l) ->
  index_ok (list_remove_ready l n d) l (del n (Q l)).
Proof.
  intros Hwf Hn. apply list_elem_of_split in Hn as (q1 & q2 & Hq).
  pose proof (Hwf l) as Hrep. rewrite Hq in *. pose proof (rep_nodup _ _ _ Hrep) as Hnd.
  rewrite del_middle by done. unfold index_ok, list_remove_ready.
  rewrite forget_lists, decide_True by done. cbn. rewrite skip_index.
  rewrite !(stitch_lists d l n q1 q2 Hrep), (stitch_items d l n q1 q2 Hrep).
  rewrite (decide_True (P := l = l)) by done. cbn.
  pose proof (unlink_links d l n q1 q2 Hrep) as [_ Hnext].
  pose proof (unlink_neq d l n q1 q2 Hrep) as Hl. pose proof (unlink_neq' d l n q1 q2 Hrep) as Hh.
  assert (last q1 <> Some n) by (intros (? & _)%Hl; done).
  assert (head q2 <> Some n) by (intros (? & _)%Hh; done).
  rewrite (decide_False (P := last q1 = Some n)), (decide_False (P := head q2 = Some n)), Hnext
    by done.
  case_decide as Hix.
  - intros _. destruct q2 as [|x q2]; cbn; [|set_solver].
    rewrite app_nil_r. destruct q1; cbn; [done|by left].
  - destruct (l_index (lists d l)) as [i|] eqn:Hi; [|intros; by destruct q1].
    rewrite !elem_of_app, elem_of_cons. naive_solver.
Qed.

(** ** Insertion in the middle *)

(** [item->owner = t; item->container = list; item->next = item->prev = NULL;] *)
Definition list_adopt (l : lref) (n : node) (t : tcb) (d : dmem) : dmem :=
  set_item n (fun _ => mkListItem None None (Some t) (Some l)) d.

(** The list was empty. *)
Definition list_put_only (l : lref) (n : node) (d : dmem) : dmem :=
  set_list l (fun h => h <| l_head := Some n |> <| l_end := Some n |>) d.

(** In front of the head [h]. *)
Definition list_put_first (l : lref) (n h : node) (d : dmem) : dmem :=
  let d := set_item n (fun it => it <| li_next := Some h |>) d in
  let d := set_item h (fun it => it <| li_prev := Some n |>) d in
  set_list l (fun hd => hd <| l_head := Some n |>) d.

(** Behind [iter]. *)
Definition list_put_after (l : lref) (n iter : node) (d : dmem) : dmem :=
  let d := set_item n (fun it => it <| li_next := li_next (items d iter) |>
                                    <| li_prev := Some iter |>) d in
  let d := match li_next (items d iter) with
           | Some x => set_item x (fun it => it <| li_prev := Some n |>) d
           | None => set_list l (fun h => h <| l_end := Some n |>) d
           end in
  set_item iter (fun it => it <| li_next := Some n |>) d.

(** [list->num_items++] *)
Definition list_count (l : lref) (d : dmem) : dmem :=
  set_list l (fun h => h <| num_items ::= fun k => u16 (k + 1) |>) d.

Lemma wf_relink (d d' : dmem) (Q : queues) l q' :
  wf_mem d Q -> list_rep d' l q' ->
  (forall l', l' <> l -> lists d' l' = lists d l') ->
  (forall m, m ∉ q' -> items d' m = items d m) ->
  (forall m, m ∈ Q l -> m ∈ q') ->
  (forall m, m ∈ q' -> m ∈ Q l \/ li_container (items d m) = None) ->
  wf_mem d' (<[l := q']> Q).
Proof.
  intros Hwf Hrep Hl Hi Hsub Hnew l'. destruct (decide (l = l')) as [<-|Hll].
  - by rewrite fn_lookup_insert.
  - rewrite fn_lookup_insert_ne by done.
    assert (forall m, m ∈ Q l' -> m ∉ q') as Hdis.
    { intros m Hm Hq. destruct (Hnew m Hq) as [Hm'|Hc].
      - apply Hll. by eapply wf_disjoint.
      - by apply (wf_unlinked _ _ l' _ Hwf) in Hc. }
    apply (list_rep_frame d); [by rewrite Hl by done..| | |done].
    + intros m Hm. by apply Hi, Hdis.
    + intros m. destruct (decide (m ∈ q')) as [Hq|Hq]; [|by rewrite Hi].
      pose proof Hq as Hc. apply (rep_members _ _ _ Hrep) in Hc. rewrite Hc.
      split; [congruence|]. intros Hc'. exfalso. apply (Hdis m); [|done].
      by apply (rep_members _ _ _ (Hwf l')).
Qed.

Section splice.
Context (d d' : dmem) (l : lref) (n : node) (q1 q2 : list node).
Context (Hrep : list_rep d l (q1 ++ q2)) (Hnin : n ∉ q1 ++ q2) (Hval : valid_tcb (node_tcb n)).
Context (Hl : lists d' l = mkListHead (u16 (num_items (lists d l) + 1)) (head (q1 ++ n :: q2))
           (l_index (lists d l)) (last (q1 ++ n :: q2))).
Context (Hi : forall m, items d' m =
  if decide (n = m) then mkListItem (head q2) (last q1) (Some (node_tcb n)) (Some l)
  else if decide (last q1 = Some m) then (items d m) <| li_next := Some n |>
  else if decide (head q2 = Some m) then (items d m) <| li_prev := Some n |>
  else items d m).

Lemma list_rep_splice : list_rep d' l (q1 ++ n :: q2).
Proof.
  destruct Hrep as [_ _ Hk Hs Hnd Hm Ho Hv].
  pose proof (valid_length _ Hnd Hv) as Hlen.
  assert ((n ∉ q1) /\ (n ∉ q2)) as [Hn1 Hn2] by (split; intros ?; apply Hnin, elem_of_app; auto).
  apply NoDup_app in Hnd as (Hnd1 & Hd & Hnd2). apply dseg_app in Hs as [Hs1 Hs2].
  assert (forall m, m ∈ q1 ++ n :: q2 <-> m = n \/ m ∈ q1 ++ q2) as Hmem
    by (intros m; rewrite !elem_of_app, elem_of_cons; tauto).
  split; rewrite ?Hl; cbn; try done.
  - rewrite Hk, wrap_small by lia. rewrite !length_app. cbn. lia.
  - rewrite dseg_middle, Hi, decide_True by done. cbn.
    split_and!; [|by destruct (last q1)|by destruct (head q2)|].
    + eapply (dseg_set_next_last d); [| | |done|done]; intros m Hmq; intros;
        (assert (m ∈ q1) by eauto using last_Some_elem_of);
        (assert (head q2 <> Some m) by (intros ?%head_Some_elem_of; by apply (Hd m)));
        (assert (n <> m) by congruence);
        rewrite Hi; repeat case_decide; cbn; done || congruence.
    + eapply (dseg_set_prev_head d); [| | |done|done]; intros m Hmq; intros;
        (assert (m ∈ q2) by eauto using head_Some_elem_of);
        (assert (last q1 <> Some m) by (intros ?%last_Some_elem_of; by apply (Hd m)));
        (assert (n <> m) by congruence);
        rewrite Hi; repeat case_decide; cbn; done || congruence.
  - apply NoDup_app. split_and!; [done| |by apply NoDup_cons].
    intros m Hm1 [->|Hm2]%elem_of_cons; [done|by apply (Hd m)].
  - intros m. rewrite Hi, Hmem, <- Hm. repeat case_decide; cbn; naive_solver.
  - intros m [->|Hmq]%Hmem; rewrite Hi; [by rewrite decide_True|].
    rewrite decide_False by congruence. repeat case_decide; by apply Ho.
  - intros m [->|Hmq]%Hmem; [done|by apply Hv].
Qed.
End splice.

Lemma wf_insert (d d' : dmem) (Q : queues) l n q1 q2 :
  wf_mem d Q -> Q l = q1 ++ q2 -> li_container (items d n) = None -> valid_tcb (node_tcb n) ->
  (forall l', lists d' l' = if decide (l = l')
     then mkListHead (u16 (num_items (lists d l) + 1)) (head (q1 ++ n :: q2))
            (l_index (lists d l)) (last (q1 ++ n :: q2))
     else lists d l') ->
  (forall m, items d' m =
    if decide (n = m) then mkListItem (head q2) (last q1) (Some (node_tcb n)) (Some l)
    else if decide (last q1 = Some m) then (items d m) <| li_next := Some n |>
    else if decide (head q2 = Some m) then (items d m) <| li_prev := Some n |>
    else items d m) ->
  wf_mem d' (<[l := q1 ++ n :: q2]> Q).
Proof.
  intros Hwf Hq Hc Hval Hl Hi. pose proof (Hwf l) as Hrep. rewrite Hq in Hrep.
  pose proof (wf_unlinked _ _ l _ Hwf Hc) as Hnin. rewrite Hq in Hnin.
  assert (forall m, m ∈ q1 ++ n :: q2 <-> m = n \/ m ∈ q1 ++ q2) as Hmem
    by (intros m; rewrite !elem_of_app, elem_of_cons; tauto).
  apply (wf_relink d); rewrite ?Hq; [done|..].
  - eapply list_rep_splice; [done..| |done]. by rewrite Hl, decide_True.
  - intros l' Hll. by rewrite Hl, decide_False.
  - intros m Hm. rewrite Hmem in Hm. rewrite Hi, decide_False by naive_solver.
    repeat case_decide; [..|done]; exfalso; apply Hm; right; apply elem_of_app.
    + left. by apply last_Some_elem_of.
    + right. by apply head_Some_elem_of.
  - intros m Hm. rewrite Hmem. auto.
  - intros m [->|Hm]%Hmem; auto.
Qed.

Section insertions.
Context (d : dmem) (Q : queues) (l : lref) (n : node).
Context (Hwf : wf_mem d Q) (Hc : li_container (items d n) = None) (Hval : valid_tcb (node_tcb n)).
Let adopted := list_adopt l n (node_tcb n) d.

Lemma insert_ne m q1 q2 : Q l = q1 ++ m :: q2 -> n <> m.
Proof.
  intros Hq ->. apply (wf_unlinked _ _ l _ Hwf Hc). rewrite Hq. set_solver.
Qed.

Lemma wf_put_only : Q l = [] -> wf_mem (list_count l (list_put_only l n adopted)) (<[l := [n]]> Q).
Proof.
  intros Hq. unfold adopted, list_count, list_put_only, list_adopt.
  apply (wf_insert d _ Q l n [] []); [done|done|done|done|..].
  - intros l'. rewrite !lists_set_list. by repeat case_decide.
  - intros m. dll_simpl. by repeat case_decide.
Qed.

Lemma wf_put_first h q : Q l = h :: q ->
  wf_mem (list_count l (list_put_first l n h adopted)) (<[l := n :: h :: q]> Q).
Proof.
  intros Hq. pose proof (insert_ne h [] q Hq) as Hne.
  pose proof (rep_end _ _ _ (Hwf l)) as He. rewrite Hq in He.
  unfold adopted, list_count, list_put_first, list_adopt.
  apply (wf_insert d _ Q l n [] (h :: q)); [done|done|done|done|..].
  - intros l'. rewrite !lists_set_list. repeat case_decide; try done. cbn.
    by rewrite !lists_set_item, He.
  - intros m. dll_simpl. cbn. repeat case_decide; congruence || naive_solver.
Qed.

Lemma wf_put_after iter q1 q2 : Q l = q1 ++ iter :: q2 ->
  wf_mem (list_count l (list_put_after l n iter adopted)) (<[l := q1 ++ iter :: n :: q2]> Q).
Proof.
  intros Hq. pose proof (insert_ne iter q1 q2 Hq) as Hne.
  pose proof (Hwf l) as Hrep. rewrite Hq in Hrep.
  pose proof (rep_end _ _ _ Hrep) as He. pose proof (rep_head _ _ _ Hrep) as Hh.
  pose proof (unlink_links d l iter q1 q2 Hrep) as [_ Hnext].
  pose proof (unlink_neq' d l iter q1 q2 Hrep) as Hx.
  assert (forall m l', q1 ++ m :: l' = (q1 ++ [m]) ++ l') as Hassoc by (intros; by rewrite <- app_assoc).
  rewrite Hassoc. unfold adopted, list_count, list_put_after, list_adopt.
  rewrite !items_set_item, !(decide_False (P := n = iter)), Hnext by done.
  apply (wf_insert d _ Q l n (q1 ++ [iter]) q2); [done|by rewrite <- Hassoc|done|done|..].
  - intros l'. rewrite <- !app_assoc, head_app, last_app', !last_cons', head_app in *.
    cbn in *. rewrite lists_set_list. destruct (lists d l) as [k hd ix e] eqn:Hl.
    cbn in *. subst hd e. destruct q2 as [|x q2]; cbn; dll_simpl.
    + repeat case_decide; rewrite ?Hl; cbn; try done; by destruct q1.
    + repeat case_decide; rewrite ?Hl; cbn; try done; rewrite ?last_cons'.
      all: destruct q1, (last q2); done.
  - intros m. rewrite last_snoc. destruct q2 as [|x q2]; cbn in *; dll_simpl.
    + repeat case_decide; congruence || naive_solver.
    + destruct (Hx x eq_refl) as (Hxi & _ & Hxq).
      assert (n <> x).
      { intros ->. apply (wf_unlinked _ _ l _ Hwf Hc). rewrite Hq. set_solver. }
      repeat case_decide; congruence || naive_solver.
Qed.
End insertions.

(** ** What an update of one queue does to the containers and cursors *)

Lemma wf_container_eq (d d' : dmem) (Q : queues) l q' m :
  wf_mem d Q -> wf_mem d' (<[l := q']> Q) ->
  (m ∈ Q l <-> m ∈ q') -> li_container (items d' m) = li_container (items d m).
Proof.
  intros Hwf Hwf' Hm. apply option_eq. intros l'.
  rewrite <- (wf_container _ _ _ _ Hwf), <- (wf_container _ _ _ _ Hwf').
  rewrite fn_insert_lookup. case_decide; [subst; by rewrite Hm|done].
Qed.

Lemma wf_container_some (d : dmem) (Q : queues) l m :
  wf_mem d Q -> m ∈ Q l -> li_container (items d m) = Some l.
Proof. intros Hwf Hm. by apply (wf_container d Q). Qed.

Lemma wf_container_none (d : dmem) (Q : queues) m :
  wf_mem d Q -> (forall l, m ∉ Q l) -> li_container (items d m) = None.
Proof.
  intros Hwf Hm. destruct (li_container (items d m)) as [l|] eqn:Hc; [|done].
  apply (wf_container d Q) in Hc; [|done]. by apply Hm in Hc.
Qed.

Lemma stitch_index l n d m : l_index (lists (list_stitch l n d) m) = l_index (lists d m).
Proof.
  unfold list_stitch. destruct (li_prev (items d n)), (li_next _); dll_simpl;
    repeat case_decide; subst; done.
Qed.

Lemma forget_index l n d m : l_index (lists (list_forget l n d) m) = l_index (lists d m).
Proof. rewrite forget_lists. case_decide; by subst. Qed.

Lemma push_back_index b l n t d m :
  l_index (lists (list_push_back b l n t d) m) =
    if decide (l = m /\ b = true /\ l_end (lists d l) = None) then Some n
    else l_index (lists d m).
Proof.
  rewrite push_back_lists. destruct (decide (l = m)) as [<-|Hne].
  - destruct (l_end (lists d l)), b; cbn; repeat case_decide; naive_solver.
  - by rewrite decide_False by naive_solver.
Qed.

Lemma remove_ready_index l n d m :
  m <> l -> l_index (lists (list_remove_ready l n d) m) = l_index (lists d m).
Proof.
  intros Hne. unfold list_remove_ready. rewrite forget_index, skip_index, decide_False.
  - apply stitch_index.
  - by intros [-> _].
Qed.

Lemma put_index l n t d m :
  l_index (lists (list_count l (list_put_only l n (list_adopt l n t d))) m) = l_index (lists d m) /\
  (forall h, l_index (lists (list_count l (list_put_first l n h (list_adopt l n t d))) m)
             = l_index (lists d m)) /\
  (forall i, l_index (lists (list_count l (list_put_after l n i (list_adopt l n t d))) m)
             = l_index (lists d m)).
Proof.
  unfold list_count, list_put_only, list_put_first, list_put_after, list_adopt.
  split_and!; intros; rewrite lists_set_list; case_decide; subst; cbn;
    try destruct (li_next _); dll_simpl; repeat case_decide; subst; done.
Qed.

Lemma index_push_back (d : dmem) (Q : queues) l n t :
  wf_mem d Q -> index_ok d l (Q l) ->
  index_ok (list_push_back true l n t d) l (Q l ++ [n]).
Proof.
  intros Hwf. unfold index_ok. rewrite push_back_index.
  pose proof (rep_end _ _ _ (Hwf l)) as He. case_decide as Hd.
  - intros _. apply elem_of_app. right. by apply list_elem_of_singleton.
  - destruct (l_index (lists d l)); [rewrite elem_of_app; auto|].
    intros Hq. rewrite Hq in He. cbn in He. naive_solver.
Qed.

Lemma index_frame (d d' : dmem) l q :
  l_index (lists d' l) = l_index (lists d l) -> index_ok d l q -> index_ok d' l q.
Proof. intros Hi. unfold index_ok. by rewrite Hi. Qed.

(** ** Round robin *)

Lemma advance_same_links l d : same_links d (list_advance_index l d).
Proof.
  unfold list_advance_index. destruct (l_index (lists d l)); [|done].
  split; intros; dll_simpl; try case_decide; by subst.
Qed.

Lemma advance_index_other l m d :
  m <> l -> l_index (lists (list_advance_index l d) m) = l_index (lists d m).
Proof.
  intros Hne. unfold list_advance_index. destruct (l_index (lists d l)); [|done].
  rewrite lists_set_list, decide_False; [done|congruence].
Qed.

(** The cursor moves to the cyclic successor. *)
Lemma advance_index (d : dmem) (Q : queues) l q1 n q2 :
  wf_mem d Q -> Q l = q1 ++ n :: q2 -> l_index (lists d l) = Some n ->
  l_index (lists (list_advance_index l d) l) = head (q2 ++ q1 ++ [n]).
Proof.
  intros Hwf Hq Hi. pose proof (Hwf l) as Hrep. rewrite Hq in Hrep.
  pose proof (unlink_links d l n q1 q2 Hrep) as [_ Hn].
  unfold list_advance_index. rewrite Hi, lists_set_list, decide_True, Hn by done. cbn.
  rewrite (rep_head _ _ _ Hrep). destruct q2; [by destruct q1|done].
Qed.

Lemma index_advance (d : dmem) (Q : queues) l :
  wf_mem d Q -> index_ok d l (Q l) -> index_ok (list_advance_index l d) l (Q l).
Proof.
  intros Hwf Hix. pose proof Hix as Hix'. unfold index_ok in Hix |- *.
  destruct (l_index (lists d l)) as [n|] eqn:Hi.
  - apply list_elem_of_split in Hix as (q1 & q2 & Hq).
    rewrite (advance_index d Q l q1 n q2) by done. rewrite Hq.
    destruct q2 as [|x q2]; [|set_solver]. destruct q1; set_solver.
  - unfold list_advance_index. by rewrite Hi, Hi.
Qed.

(** ** Initialisation *)

(** [list->head = list->index = list->list_end = NULL; list->num_items = 0;] *)
Definition reset_list (l : lref) (d : dmem) : dmem := set_list l (fun _ => zero_list) d.

Lemma wf_reset (d : dmem) (Q : queues) l : wf_mem d Q -> Q l = [] -> wf_mem (reset_list l d) Q.
Proof.
  intros Hwf Hq l'. unfold reset_list. destruct (decide (l = l')) as [<-|Hne].
  - pose proof (Hwf l) as Hrep. rewrite Hq in Hrep |- *.
    split; rewrite ?lists_set_list, ?decide_True by done; try done; try apply Hrep.
  - apply (list_rep_frame d); try done; by rewrite lists_set_list, decide_False.
Qed.

(** Writing an item that is on no list. *)
Lemma wf_set_free (d : dmem) (Q : queues) n it :
  wf_mem d Q -> li_container (items d n) = None -> li_container it = None ->
  wf_mem (set_item n (fun _ => it) d) Q.
Proof.
  intros Hwf Hc Hit l. apply (list_rep_frame d); try done.
  - intros m Hm. rewrite items_set_item, decide_False; [done|].
    intros ->. by apply (wf_unlinked _ _ l _ Hwf Hc).
  - intros m. rewrite items_set_item. case_decide; [subst|done]. by rewrite Hit, Hc.
Qed.

(** ** Popping the head

    [semaphore_give] takes the head off by hand and clears the popped item
    only later, under another lock. *)

(** [list->head = list->head->next; if (list->head) list->head->prev = NULL;
     else list->list_end = NULL; list->num_items--;] for the head [n]. *)
Definition list_pop_head (l : lref) (n : node) (d : dmem) : dmem :=
  let nx := li_next (items d n) in
  let d := set_list l (fun h => h <| l_head := nx |>) d in
  let d := match nx with
           | Some x => set_item x (fun it => it <| li_prev := None |>) d
           | None => set_list l (fun h => h <| l_end := None |>) d
           end in
  set_list l (fun h => h <| num_items ::= fun k => u16 (k - 1) |>) d.

(** [item.next = NULL; item.prev = NULL; item.container = NULL;] *)
Definition list_clear (n : node) (d : dmem) : dmem :=
  set_item n (fun it => it <| li_next := None |> <| li_prev := None |> <| li_container := None |>) d.

Lemma dmem_ext (d d' : dmem) :
  (forall n, items d n = items d' n) -> (forall l, lists d l = lists d' l) -> d = d'.
Proof.
  destruct d as [i ls], d' as [i' ls']. cbn. intros Hi Hl. f_equal; by apply functional_extensionality.
Qed.

Lemma pop_head_clear (d : dmem) (Q : queues) l n q :
  wf_mem d Q -> Q l = n :: q ->
  list_clear n (list_pop_head l n d) = list_forget l n (list_stitch l n d).
Proof.
  intros Hwf Hq. pose proof (Hwf l) as Hr. rewrite Hq in Hr.
  destruct (unlink_links d l n [] q Hr) as [Hp _]. cbn in Hp.
  assert (li_next (items d n) <> Some n) as Hne.
  { intros He. destruct (unlink_links d l n [] q Hr) as [_ Hnx]. rewrite Hnx in He.
    destruct (unlink_neq' d l n [] q Hr n He) as [? _]. done. }
  unfold list_clear, list_pop_head, list_forget, list_stitch. rewrite Hp. dll_simpl. cbn.
  apply dmem_ext; intros m; destruct (li_next (items d n)) as [x|] eqn:Hx;
    repeat (dll_simpl; cbn; try case_decide; simplify_eq; rewrite ?Hx, ?Hp); done.
Qed.

(** Writing an item commutes with unlinking another one, unless it is one of
    its neighbours. *)
Lemma unlink_clear (l : lref) (n e : node) (d : dmem) :
  e <> n -> li_prev (items d n) <> Some e -> li_next (items d n) <> Some e ->
  list_clear e (list_forget l n (list_stitch l n d)) =
  list_forget l n (list_stitch l n (list_clear e d)).
Proof.
  intros Hne Hp Hx. unfold list_clear, list_forget, list_stitch.
  destruct (li_prev (items d n)) as [p|] eqn:Hp', (li_next (items d n)) as [x|] eqn:Hx';
    apply dmem_ext; intros m;
    repeat (dll_simpl; rewrite ?decide_False by congruence; rewrite ?Hp', ?Hx'; cbn; simplify_eq;
            try case_decide); done.
Qed.

(** The neighbours of a queued item are queued with it. *)
Lemma wf_neighbours (d : dmem) (Q : queues) l n m :
  wf_mem d Q -> n ∈ Q l ->
  li_prev (items d n) = Some m \/ li_next (items d n) = Some m -> m ∈ Q l.
Proof.
  intros Hwf Hin Hm. pose proof (Hwf l) as Hr. apply list_elem_of_split in Hin as (q1 & q2 & Hq).
  rewrite Hq in Hr |- *. destruct (unlink_links _ _ _ _ _ Hr) as [Hp Hn].
  apply elem_of_app. destruct Hm as [Hm|Hm].
  - left. destruct (unlink_neq _ _ _ _ _ Hr m) as (_ & _ & ?); congruence.
  - right. apply elem_of_cons. right. destruct (unlink_neq' _ _ _ _ _ Hr m) as (_ & _ & ?); congruence.
Qed.
