(* ===== verification/Telemetry.v ===== *)
(** * Telemetry (source/telemetry)

    The packet framing of [telemetry_frame.c], the report functions of
    [telemetry.c] with its sync-object registry and per-core tick rings, and
    the unlocked senders of [telemetry_boot.c].  The state is everything those
    files keep in static variables, plus [wire]: the bytes handed to
    [uart_channel_tx_raw] on the telemetry channel, oldest first.

    Each function body runs between the acquire and the release of
    [telemetry_lock] (or of one ring's lock), so one function is one atomic
    step here; Spinlock.v is what makes that so. *)

From S2P Require Import Prelude Types Crc.

(** ** telemetry.h *)

Definition TELEMETRY_MAGIC : Z := 0xA5.
Definition TELEMETRY_TRAILER : Z := 0x5A.
Definition TELEMETRY_TASK_NAME_MAX : nat := 16.
Definition TELEMETRY_SYNC_NAME_MAX : nat := 16.
Definition TELEMETRY_TICK_RING_DEPTH : Z := 8.
Definition TELEMETRY_SYNC_ID_NONE : Z := 0xFFFF.
Definition TELEMETRY_MAX_SYNC_OBJECTS : Z := 16.

Definition PKT_HEARTBEAT : Z := 0.
Definition PKT_TASK_CREATED : Z := 1.
Definition PKT_TICK_STATE : Z := 2.
Definition PKT_TASK_BLOCKED : Z := 3.
Definition PKT_TASK_UNBLOCKED : Z := 4.
Definition PKT_BOOT_STAGE_ENTER : Z := 5.
Definition PKT_BOOT_MILESTONE : Z := 6.
Definition PKT_BOOT_INFO : Z := 7.
Definition PKT_DFU_EVENT : Z := 8.
Definition PKT_SYNC_CREATED : Z := 9.
Definition PKT_MUTEX_OWNER_CHANGED : Z := 10.
Definition NUM_TELEMETRY_PACKET_TYPES : Z := 11.

Inductive TelemetrySyncKind :=
  | SYNC_KIND_MUTEX | SYNC_KIND_SEMAPHORE | SYNC_KIND_QUEUE | SYNC_KIND_NONE.
Definition sync_kind_code (k : TelemetrySyncKind) : Z :=
  match k with
  | SYNC_KIND_MUTEX => 0 | SYNC_KIND_SEMAPHORE => 1 | SYNC_KIND_QUEUE => 2
  | SYNC_KIND_NONE => 0xFF
  end.

Inductive TelemetryBootStage := BOOT_STAGE_BOOTSTRAP | BOOT_STAGE_BOOTLOADER | BOOT_STAGE_APP.
Definition boot_stage_code (s : TelemetryBootStage) : Z :=
  match s with
  | BOOT_STAGE_BOOTSTRAP => 0 | BOOT_STAGE_BOOTLOADER => 1 | BOOT_STAGE_APP => 2
  end.

Inductive TelemetryBootMilestoneId :=
  | BOOT_MS_EMMC_INIT_DONE | BOOT_MS_EMMC_INIT_FAILED | BOOT_MS_HEADER_READ_FAILED
  | BOOT_MS_BAD_HEADER | BOOT_MS_BINARY_READ_FAILED | BOOT_MS_JUMPING_TO_BOOTLOADER
  | BOOT_MS_JTAG_INIT_DONE | BOOT_MS_BOOT_MODULE_INIT_DONE | BOOT_MS_DFU_MODULE_INIT_DONE
  | BOOT_MS_TRIAL_ROLLBACK | BOOT_MS_TOLERANCE_EXCEEDED_FORCE_DFU
  | BOOT_MS_TOLERANCE_EXCEEDED_ROLLBACK | BOOT_MS_ALL_RETRIES_EXHAUSTED
  | BOOT_MS_APP_LOAD_DONE | BOOT_MS_JUMPING_TO_APP | BOOT_MS_GIC_INIT_DONE
  | BOOT_MS_GENTIMER_INIT_DONE | BOOT_MS_CORE_RELEASED | BOOT_MS_SCHEDULER_INIT_DONE
  | BOOT_MS_SCHEDULER_START | BOOT_MS_SLOT_CONFIRMED.
Definition milestone_code (m : TelemetryBootMilestoneId) : Z :=
  match m with
  | BOOT_MS_EMMC_INIT_DONE => 0 | BOOT_MS_EMMC_INIT_FAILED => 1
  | BOOT_MS_HEADER_READ_FAILED => 2 | BOOT_MS_BAD_HEADER => 3
  | BOOT_MS_BINARY_READ_FAILED => 4 | BOOT_MS_JUMPING_TO_BOOTLOADER => 5
  | BOOT_MS_JTAG_INIT_DONE => 6 | BOOT_MS_BOOT_MODULE_INIT_DONE => 7
  | BOOT_MS_DFU_MODULE_INIT_DONE => 8 | BOOT_MS_TRIAL_ROLLBACK => 9
  | BOOT_MS_TOLERANCE_EXCEEDED_FORCE_DFU => 10 | BOOT_MS_TOLERANCE_EXCEEDED_ROLLBACK => 11
  | BOOT_MS_ALL_RETRIES_EXHAUSTED => 12 | BOOT_MS_APP_LOAD_DONE => 13
  | BOOT_MS_JUMPING_TO_APP => 14 | BOOT_MS_GIC_INIT_DONE => 15
  | BOOT_MS_GENTIMER_INIT_DONE => 16 | BOOT_MS_CORE_RELEASED => 17
  | BOOT_MS_SCHEDULER_INIT_DONE => 18 | BOOT_MS_SCHEDULER_START => 19
  | BOOT_MS_SLOT_CONFIRMED => 20
  end.

Definition BOOT_INFO_IMAGE_HEADER : Z := 0.
Definition BOOT_INFO_SLOT_STATE : Z := 1.
Definition BOOT_INFO_BOOT_FLAGS : Z := 2.

Definition DFU_TARGET_APP : Z := 0.
Definition DFU_TARGET_BOOTLOADER : Z := 1.
Definition DFU_TARGET_UNKNOWN : Z := 0xFF.

Inductive TelemetryDfuEventPhase :=
  | DFU_EVT_WAITING_TRIGGER | DFU_EVT_TRIGGER_MATCHED | DFU_EVT_START_RECEIVED
  | DFU_EVT_DATA_PROGRESS | DFU_EVT_CRC_CHECK_RESULT | DFU_EVT_READBACK_VALIDATE
  | DFU_EVT_MARKER_CHECK | DFU_EVT_COMMITTED | DFU_EVT_ABORTED.
Definition dfu_phase_code (p : TelemetryDfuEventPhase) : Z :=
  match p with
  | DFU_EVT_WAITING_TRIGGER => 0 | DFU_EVT_TRIGGER_MATCHED => 1
  | DFU_EVT_START_RECEIVED => 2 | DFU_EVT_DATA_PROGRESS => 3
  | DFU_EVT_CRC_CHECK_RESULT => 4 | DFU_EVT_READBACK_VALIDATE => 5
  | DFU_EVT_MARKER_CHECK => 6 | DFU_EVT_COMMITTED => 7 | DFU_EVT_ABORTED => 8
  end.

Inductive TelemetryDfuAbortReason :=
  | DFU_ABORT_BAD_START_LEN | DFU_ABORT_ALREADY_STARTED | DFU_ABORT_BAD_DATA_LEN
  | DFU_ABORT_HOST_ABORT | DFU_ABORT_CRC_MISMATCH | DFU_ABORT_READBACK_FAILED
  | DFU_ABORT_MARKER_MISSING | DFU_ABORT_TIMEOUT.
Definition dfu_abort_code (r : TelemetryDfuAbortReason) : Z :=
  match r with
  | DFU_ABORT_BAD_START_LEN => 0 | DFU_ABORT_ALREADY_STARTED => 1
  | DFU_ABORT_BAD_DATA_LEN => 2 | DFU_ABORT_HOST_ABORT => 3 | DFU_ABORT_CRC_MISMATCH => 4
  | DFU_ABORT_READBACK_FAILED => 5 | DFU_ABORT_MARKER_MISSING => 6 | DFU_ABORT_TIMEOUT => 7
  end.

(** ** State *)

Record TelemetrySyncRegistryEntry := mkSyncEntry {
  entry_kind : TelemetrySyncKind;
  entry_sync_id : Z;
  entry_parent_sync_id : Z;
  entry_name : list Z     (* name[0 .. name_len) *)
}.

Record TelemetryTickRecord := mkTickRecord {
  tick_core_id : Z;
  tick_task_id : Z;
  tick_state : Z
}.

Record TelemetryTickRing := mkTickRing {
  ring_records : Z -> TelemetryTickRecord;
  ring_head : Z;
  ring_tail : Z;
  ring_count : Z;
  ring_overflow_count : Z
}.
#[export] Instance eta_TelemetryTickRing : Settable TelemetryTickRing :=
  fun r => mkTickRing (ring_records r) (ring_head r) (ring_tail r) (ring_count r)
             (ring_overflow_count r).

Record telemetry := mkTelemetry {
  wire : list Z;
  seq_counters : Z -> Z;
  next_sync_id : Z;
  sync_registry : Z -> TelemetrySyncRegistryEntry;
  sync_registry_count : Z;
  g_tick_rings : Z -> TelemetryTickRing
}.
#[export] Instance eta_telemetry : Settable telemetry :=
  fun r => mkTelemetry (wire r) (seq_counters r) (next_sync_id r) (sync_registry r)
             (sync_registry_count r) (g_tick_rings r).

(** The state after the startup code has zeroed the .bss section. *)
Definition telemetry_zero : telemetry :=
  mkTelemetry [] (fun _ => 0) 0 (fun _ => mkSyncEntry SYNC_KIND_MUTEX 0 0 []) 0
    (fun _ => mkTickRing (fun _ => mkTickRecord 0 0 0) 0 0 0 0).

(** ** telemetry_frame.c *)

(** The CRC over the header and, when there is one, the payload. *)
Definition frame_crc (header payload : list Z) : Z :=
  let ctx := crc32_update crc32_start header in
  let ctx := if 0 <? Z.of_nat (length payload) then crc32_update ctx payload else ctx in
  crc32_finish ctx.

(** [payload] is the first [len] bytes of the caller's buffer. *)
Definition telemetry_send_framed (type : Z) (payload : list Z) (s : telemetry) : telemetry :=
  if NUM_TELEMETRY_PACKET_TYPES <=? type then s else
  let header := [TELEMETRY_MAGIC; u8 type; seq_counters s type; 0; u8 (Z.of_nat (length payload))] in
  let crc := frame_crc header payload in
  s <| seq_counters ::= fun f => <[type := u8 (f type + 1)]> f |>
    <| wire ::= fun w => w ++ header ++ payload ++ le32 crc ++ [TELEMETRY_TRAILER] |>.

(** ** telemetry.c: reports *)

Definition telemetry_send := telemetry_send_framed.

(** [while (name[i] != '\0' && i < max)]: the bytes of a C string, cut. *)
Fixpoint c_string (max : nat) (name : list Z) : list Z :=
  match max, name with
  | S max', c :: name' => if c =? 0 then [] else c :: c_string max' name'
  | _, _ => []
  end.
Definition name_bytes (max : nat) (name : option (list Z)) : list Z :=
  match name with Some n => c_string max n | None => [] end.

Definition telemetry_report_task_created (task_id core_id priority : Z) (name : option (list Z))
    : telemetry -> telemetry :=
  telemetry_send_framed PKT_TASK_CREATED
    ([byte task_id 1; byte task_id 0; u8 core_id; priority] ++
     name_bytes TELEMETRY_TASK_NAME_MAX name).

Definition telemetry_report_task_blocked (task_id core_id : Z) (kind : TelemetrySyncKind)
    (sync_id : Z) : telemetry -> telemetry :=
  telemetry_send_framed PKT_TASK_BLOCKED
    [byte task_id 1; byte task_id 0; u8 core_id; sync_kind_code kind; byte sync_id 1; byte sync_id 0].

Definition telemetry_report_task_unblocked (task_id core_id : Z) : telemetry -> telemetry :=
  telemetry_send_framed PKT_TASK_UNBLOCKED [byte task_id 1; byte task_id 0; u8 core_id].

Definition telemetry_register_sync (kind : TelemetrySyncKind) (parent_sync_id : Z)
    (name : option (list Z)) (s : telemetry) : Z * telemetry :=
  let sync_id := next_sync_id s in
  let s := s <| next_sync_id := u16 (sync_id + 1) |> in
  let payload :=
    [sync_kind_code kind; byte sync_id 1; byte sync_id 0; byte parent_sync_id 1;
     byte parent_sync_id 0] ++ name_bytes TELEMETRY_SYNC_NAME_MAX name in
  let s := if sync_registry_count s <? TELEMETRY_MAX_SYNC_OBJECTS
           then s <| sync_registry ::= fun r =>
                       <[sync_registry_count s := mkSyncEntry kind sync_id parent_sync_id
                           (name_bytes TELEMETRY_SYNC_NAME_MAX name)]> r |>
                  <| sync_registry_count ::= fun k => u16 (k + 1) |>
           else s in
  (sync_id, telemetry_send_framed PKT_SYNC_CREATED payload s).

Definition telemetry_report_mutex_owner_changed (sync_id has_owner owner_task_id owner_core_id : Z)
    : telemetry -> telemetry :=
  telemetry_send_framed PKT_MUTEX_OWNER_CHANGED
    [byte sync_id 1; byte sync_id 0; has_owner; byte owner_task_id 1; byte owner_task_id 0;
     u8 owner_core_id].

Definition telemetry_report_boot_stage_enter (stage : TelemetryBootStage) : telemetry -> telemetry :=
  telemetry_send_framed PKT_BOOT_STAGE_ENTER [boot_stage_code stage; 0; 0; 0; 0].

Definition telemetry_report_boot_milestone (id : TelemetryBootMilestoneId)
    (stage : TelemetryBootStage) (counter : Z) : telemetry -> telemetry :=
  telemetry_send_framed PKT_BOOT_MILESTONE
    ([milestone_code id; boot_stage_code stage] ++ be32 counter).

Definition telemetry_report_boot_info_image_header (stage : TelemetryBootStage)
    (version_num fw_length expected_crc actual_crc crc_ok : Z) : telemetry -> telemetry :=
  telemetry_send_framed PKT_BOOT_INFO
    ([BOOT_INFO_IMAGE_HEADER; boot_stage_code stage] ++ be32 version_num ++ be32 fw_length ++
     be32 expected_crc ++ be32 actual_crc ++ [crc_ok]).

Definition telemetry_report_boot_info_slot_state (active_app_slot app_slot_trial trial_boot_count
    wdt_reset_count wdt_reset_tolerance wdt_reset_policy wdt_reset_reason : Z)
    : telemetry -> telemetry :=
  telemetry_send_framed PKT_BOOT_INFO
    ([BOOT_INFO_SLOT_STATE; active_app_slot; app_slot_trial] ++ be32 trial_boot_count ++
     be32 wdt_reset_count ++ be32 (u32 wdt_reset_tolerance) ++ [wdt_reset_policy; wdt_reset_reason]).

Definition telemetry_report_boot_info_boot_flags (reset_reason dfu_requested fw_crc_ok : Z)
    : telemetry -> telemetry :=
  telemetry_send_framed PKT_BOOT_INFO [BOOT_INFO_BOOT_FLAGS; reset_reason; dfu_requested; fw_crc_ok].

Definition telemetry_report_dfu_event (phase : TelemetryDfuEventPhase) (target extra : Z)
    : telemetry -> telemetry :=
  telemetry_send_framed PKT_DFU_EVENT ([dfu_phase_code phase; target] ++ be32 extra).

(** ** telemetry.c: tick rings *)

Definition set_ring (core : Z) (r : TelemetryTickRing) (s : telemetry) : telemetry :=
  s <| g_tick_rings ::= fun g => <[core := r]> g |>.

Definition telemetry_report_tick_state (core_id task_id state : Z) (s : telemetry) : telemetry :=
  if COMPANION_CORE_MAX_CORES <=? core_id then s else
  let ring := g_tick_rings s core_id in
  if ring_count ring =? TELEMETRY_TICK_RING_DEPTH
  then set_ring core_id (ring <| ring_overflow_count ::= fun k => u8 (k + 1) |>) s
  else set_ring core_id
         (ring <| ring_records ::= fun f =>
                    <[ring_head ring := mkTickRecord (u8 core_id) task_id state]> f |>
               <| ring_head ::= fun h => u8 ((h + 1) mod TELEMETRY_TICK_RING_DEPTH) |>
               <| ring_count ::= fun k => u8 (k + 1) |>) s.

(** One locked section of the drain loop: the record taken, if any, and the
    overflow count to report with it. *)
Definition ring_take (core_id : Z) (s : telemetry) : option TelemetryTickRecord * Z * telemetry :=
  let ring := g_tick_rings s core_id in
  if 0 <? ring_count ring
  then (Some (ring_records ring (ring_tail ring)), ring_overflow_count ring,
        set_ring core_id
          (ring <| ring_tail ::= fun t => u8 ((t + 1) mod TELEMETRY_TICK_RING_DEPTH) |>
                <| ring_count ::= fun k => u8 (k - 1) |>) s)
  else (None, ring_overflow_count ring, s).

(** [while (1)], left when the ring is empty.  [ring_count] is a byte, so 256
    turns always reach that exit. *)
Fixpoint drain_ring (fuel : nat) (core_id : Z) (s : telemetry) : telemetry :=
  match fuel with
  | O => s
  | S fuel' =>
      match ring_take core_id s with
      | (None, _, s) => s
      | (Some record, overflow, s) =>
          drain_ring fuel' core_id
            (telemetry_send PKT_TICK_STATE
               [tick_core_id record; byte (tick_task_id record) 1; byte (tick_task_id record) 0;
                tick_state record; overflow] s)
      end
  end.

Definition telemetry_drain_tick_rings (s : telemetry) : telemetry :=
  foldl (fun s core_id => drain_ring 256 core_id s) s
    (seqZ 0 COMPANION_CORE_MAX_CORES).

(** ** telemetry.c: roster and publisher *)

Definition entry_payload (e : TelemetrySyncRegistryEntry) : list Z :=
  [sync_kind_code (entry_kind e); byte (entry_sync_id e) 1; byte (entry_sync_id e) 0;
   byte (entry_parent_sync_id e) 1; byte (entry_parent_sync_id e) 0] ++ entry_name e.

Definition telemetry_rebroadcast_sync_roster (s : telemetry) : telemetry :=
  foldl (fun s i => telemetry_drain_tick_rings
                      (telemetry_send_framed PKT_SYNC_CREATED (entry_payload (sync_registry s i)) s))
    s (seqZ 0 (sync_registry_count s)).

(** One turn of [telemetry_publisher_task], without the [task_delay_ms(1)]
    at its end; the two counters are its local variables. *)
Definition telemetry_publisher_turn (heartbeat_counter loop_counter : Z) (s : telemetry)
    : Z * Z * telemetry :=
  let s := telemetry_drain_tick_rings s in
  let '(heartbeat_counter, s) :=
    if loop_counter mod 100 =? 0
    then (u32 (heartbeat_counter + 1), telemetry_send PKT_HEARTBEAT (be32 heartbeat_counter) s)
    else (heartbeat_counter, s) in
  let s := if loop_counter mod 2000 =? 0 then telemetry_rebroadcast_sync_roster s else s in
  (heartbeat_counter, u32 (loop_counter + 1), s).

(** ** telemetry_boot.c

    The senders linked into bootstrap and bootloader: the same packets,
    without a lock. *)

Module Boot.
Definition telemetry_report_boot_stage_enter (stage : TelemetryBootStage) : telemetry -> telemetry :=
  telemetry_send_framed PKT_BOOT_STAGE_ENTER [boot_stage_code stage; 0; 0; 0; 0].

Definition telemetry_report_boot_milestone (id : TelemetryBootMilestoneId)
    (stage : TelemetryBootStage) (counter : Z) : telemetry -> telemetry :=
  telemetry_send_framed PKT_BOOT_MILESTONE
    ([milestone_code id; boot_stage_code stage] ++ be32 counter).

Definition telemetry_report_boot_info_image_header (stage : TelemetryBootStage)
    (version_num fw_length expected_crc actual_crc crc_ok : Z) : telemetry -> telemetry :=
  telemetry_send_framed PKT_BOOT_INFO
    ([BOOT_INFO_IMAGE_HEADER; boot_stage_code stage] ++ be32 version_num ++ be32 fw_length ++
     be32 expected_crc ++ be32 actual_crc ++ [crc_ok]).

Definition telemetry_report_boot_info_slot_state (active_app_slot app_slot_trial
    trial_boot_count wdt_reset_count wdt_reset_tolerance wdt_reset_policy wdt_reset_reason : Z)
    : telemetry -> telemetry :=
  telemetry_send_framed PKT_BOOT_INFO
    ([BOOT_INFO_SLOT_STATE; active_app_slot; app_slot_trial] ++ be32 trial_boot_count ++
     be32 wdt_reset_count ++ be32 (u32 wdt_reset_tolerance) ++ [wdt_reset_policy; wdt_reset_reason]).

Definition telemetry_report_boot_info_boot_flags (reset_reason dfu_requested fw_crc_ok : Z)
    : telemetry -> telemetry :=
  telemetry_send_framed PKT_BOOT_INFO
    [BOOT_INFO_BOOT_FLAGS; reset_reason; dfu_requested; fw_crc_ok].

Definition telemetry_report_dfu_event (phase : TelemetryDfuEventPhase) (target extra : Z)
    : telemetry -> telemetry :=
  telemetry_send_framed PKT_DFU_EVENT ([dfu_phase_code phase; target] ++ be32 extra).
End Boot.

(** ** The wire format

    What a receiver of the documented format accepts: magic, type, sequence
    number, a 16-bit big-endian length, that many payload bytes, the
    little-endian CRC of everything before it, trailer. *)

Record packet := mkPacket { pkt_type : Z; pkt_seq : Z; pkt_payload : list Z }.

Definition parse_frame (bytes : list Z) : option (packet * list Z) :=
  match bytes with
  | magic :: type :: seq :: hi :: lo :: rest =>
      let len := Z.to_nat (hi * 256 + lo) in
      let payload := take len rest in
      match drop len rest with
      | c0 :: c1 :: c2 :: c3 :: trailer :: rest' =>
          if bool_decide (magic = TELEMETRY_MAGIC) && bool_decide (trailer = TELEMETRY_TRAILER) &&
             (of_le32 c0 c1 c2 c3 =? crc32_of ([magic; type; seq; hi; lo] ++ payload))
          then Some (mkPacket type seq payload, rest') else None
      | _ => None
      end
  | _ => None
  end.

Fixpoint parse_frames (fuel : nat) (bytes : list Z) : option (list packet) :=
  match bytes, fuel with
  | [], _ => Some []
  | _, O => None
  | _, S fuel' =>
      '(p, rest) ← parse_frame bytes;
      ps ← parse_frames fuel' rest;
      Some (p :: ps)
  end.

Definition frame (type seq : Z) (payload : list Z) : list Z :=
  let header := [TELEMETRY_MAGIC; u8 type; seq; 0; u8 (Z.of_nat (length payload))] in
  header ++ payload ++ le32 (frame_crc header payload) ++ [TELEMETRY_TRAILER].

Lemma send_framed_wire (type : Z) (payload : list Z) (s : telemetry) :
  type < NUM_TELEMETRY_PACKET_TYPES ->
  telemetry_send_framed type payload s =
    s <| seq_counters ::= fun f => <[type := u8 (f type + 1)]> f |>
      <| wire ::= fun w => w ++ frame type (seq_counters s type) payload |>.
Proof. intros Ht. unfold telemetry_send_framed. by rewrite (proj2 (Z.leb_gt _ _) Ht). Qed.

Lemma frame_crc_of (header payload : list Z) :
  Forall is_byte header -> Forall is_byte payload ->
  frame_crc header payload = crc32_of (header ++ payload).
Proof.
  intros Hh Hp. unfold frame_crc, crc32_of. destruct payload as [|b payload].
  - by rewrite app_nil_r.
  - rewrite (proj2 (Z.ltb_lt _ _)) by (cbn; lia). by rewrite crc32_update_app.
Qed.

Lemma frame_length type seq payload : length (frame type seq payload) = (10 + length payload)%nat.
Proof. unfold frame. rewrite !length_app. cbn. lia. Qed.

Lemma parse_frame_frame (type seq : Z) (payload rest : list Z) :
  is_byte type -> is_byte seq -> Forall is_byte payload -> (length payload < 256)%nat ->
  parse_frame (frame type seq payload ++ rest) = Some (mkPacket type seq payload, rest).
Proof.
  intros Ht Hs Hp Hl. unfold frame.
  set (header := [TELEMETRY_MAGIC; u8 type; seq; 0; u8 (Z.of_nat (length payload))]).
  assert (u8 type = type) as Htype by (apply wrap_small; unfold is_byte in *; lia).
  assert (u8 (Z.of_nat (length payload)) = Z.of_nat (length payload)) as Hlen
    by (apply wrap_small; lia).
  assert (Forall is_byte header) as Hh.
  { subst header. rewrite Htype, Hlen. unfold TELEMETRY_MAGIC.
    repeat constructor; unfold is_byte in *; lia. }
  set (c := frame_crc header payload).
  assert (0 <= c < 2 ^ 32) as Hc.
  { unfold c. rewrite frame_crc_of by done. apply crc32_of_range. by apply Forall_app. }
  unfold parse_frame. cbn [app header]. rewrite Hlen.
  replace (Z.to_nat (0 * 256 + Z.of_nat (length payload))) with (length payload) by lia.
  rewrite <- !app_assoc, take_app_length, drop_app_length. cbn [le32 app].
  rewrite of_le32_le32, wrap_small by done.
  rewrite !bool_decide_eq_true_2 by done. cbn [andb]. unfold c. rewrite frame_crc_of by done.
  unfold header. rewrite Hlen. cbn [app]. rewrite Z.eqb_refl. by rewrite Htype.
Qed.

(** A message, as the report functions hand it to [telemetry_send_framed]. *)
Definition message : Type := Z * list Z.
Definition message_ok (m : message) : Prop :=
  0 <= m.1 < NUM_TELEMETRY_PACKET_TYPES /\ Forall is_byte m.2 /\ (length m.2 < 256)%nat.
Definition send_message (s : telemetry) (m : message) : telemetry := telemetry_send_framed m.1 m.2 s.
Definition send_messages (s : telemetry) (ms : list message) : telemetry := foldl send_message s ms.

(** The packets a receiver should see: each message under its type's next
    sequence number. *)
Fixpoint number (seqs : Z -> Z) (ms : list message) : list packet :=
  match ms with
  | [] => []
  | (t, p) :: ms' => mkPacket t (seqs t) p :: number (<[t := u8 (seqs t + 1)]> seqs) ms'
  end.

Definition same_type (t : Z) (m : message) : bool := m.1 =? t.
Fixpoint count_type (t : Z) (ms : list message) : Z :=
  match ms with
  | [] => 0
  | m :: ms' => (if same_type t m then 1 else 0) + count_type t ms'
  end.

Lemma wire_send_message (s : telemetry) (m : message) :
  message_ok m ->
  wire (send_message s m) = wire s ++ frame m.1 (seq_counters s m.1) m.2 /\
  seq_counters (send_message s m) = <[m.1 := u8 (seq_counters s m.1 + 1)]> (seq_counters s).
Proof. intros (Ht & _). unfold send_message. by rewrite send_framed_wire by lia. Qed.

Lemma wire_send_messages (s : telemetry) (ms : list message) :
  Forall message_ok ms ->
  wire (send_messages s ms) =
  wire s ++ concat (map (fun p => frame (pkt_type p) (pkt_seq p) (pkt_payload p))
                        (number (seq_counters s) ms)).
Proof.
  intros Hok. revert s. induction Hok as [|[t p] ms Hm Hms IH]; intros s; cbn.
  - by rewrite app_nil_r.
  - fold (send_messages (send_message s (t, p)) ms).
    destruct (wire_send_message s (t, p) Hm) as [Hw Hseq].
    by rewrite IH, Hw, Hseq, <- app_assoc.
Qed.

Lemma parse_frames_number (fuel : nat) (seqs : Z -> Z) (ms : list message) :
  Forall message_ok ms -> (forall t, is_byte (seqs t)) -> (length ms <= fuel)%nat ->
  parse_frames fuel (concat (map (fun p => frame (pkt_type p) (pkt_seq p) (pkt_payload p))
                                 (number seqs ms))) = Some (number seqs ms).
Proof.
  intros Hok. revert fuel seqs. induction Hok as [|[t p] ms Hm Hms IH]; intros fuel seqs Hs Hf.
  - by destruct fuel.
  - destruct fuel as [|fuel]; [cbn in Hf; lia|].
    destruct Hm as (Ht & Hp & Hl). unfold NUM_TELEMETRY_PACKET_TYPES in Ht. cbn in Ht, Hp, Hl.
    cbn [number map concat pkt_type pkt_seq pkt_payload].
    set (tail := concat _).
    assert (parse_frame (frame t (seqs t) p ++ tail) = Some (mkPacket t (seqs t) p, tail)) as Hpf
      by (apply parse_frame_frame; [unfold is_byte; lia|done..]).
    destruct (frame t (seqs t) p ++ tail) as [|b bytes] eqn:Hb.
    { apply (f_equal length) in Hb. rewrite length_app, frame_length in Hb. cbn in Hb. lia. }
    cbn [parse_frames]. rewrite Hpf. cbn. unfold tail. rewrite IH; [done| |cbn in Hf; lia].
    intros t'. unfold insert, fn_insert. case_decide; [apply (wrap_range 8); lia|done].
Qed.

Lemma number_lookup (seqs : Z -> Z) (ms : list message) (i : nat) (m : message) :
  (forall t, is_byte (seqs t)) -> ms !! i = Some m ->
  number seqs ms !! i = Some (mkPacket m.1 (u8 (seqs m.1 + count_type m.1 (take i ms))) m.2).
Proof.
  revert seqs i. induction ms as [|[t p] ms IH]; intros seqs [|i] Hs Hi; simplify_eq/=.
  - by rewrite Z.add_0_r, wrap_small by apply Hs.
  - rewrite (IH _ i) by (done || (intros t'; unfold insert, fn_insert;
      case_decide; [apply (wrap_range 8); lia|done])).
    do 2 f_equal. unfold insert, fn_insert, same_type. cbn [fst].
    case_decide as Hd; [rewrite Hd, Z.eqb_refl|by rewrite (proj2 (Z.eqb_neq t m.1) Hd)].
    unfold wrap. rewrite Zplus_mod_idemp_l. f_equal. rewrite <- Hd. lia.
Qed.

(** ** Tick rings *)

Definition ring_wf (r : TelemetryTickRing) : Prop :=
  0 <= ring_tail r < TELEMETRY_TICK_RING_DEPTH /\
  0 <= ring_count r <= TELEMETRY_TICK_RING_DEPTH /\
  ring_head r = (ring_tail r + ring_count r) mod TELEMETRY_TICK_RING_DEPTH.

(** The records a ring holds, oldest first. *)
Definition ring_contents (r : TelemetryTickRing) : list TelemetryTickRecord :=
  (fun i => ring_records r ((ring_tail r + i) mod TELEMETRY_TICK_RING_DEPTH)) <$>
    seqZ 0 (ring_count r).

Lemma u8_small (x : Z) : 0 <= x < 256 -> u8 x = x.
Proof. intros. by apply wrap_small. Qed.

Lemma ring_push (r : TelemetryTickRing) (rec : TelemetryTickRecord) :
  ring_wf r -> ring_count r < TELEMETRY_TICK_RING_DEPTH ->
  let r' := r <| ring_records ::= fun f => <[ring_head r := rec]> f |>
              <| ring_head ::= fun h => u8 ((h + 1) mod TELEMETRY_TICK_RING_DEPTH) |>
              <| ring_count ::= fun k => u8 (k + 1) |> in
  ring_wf r' /\ ring_contents r' = ring_contents r ++ [rec].
Proof.
  destruct r as [f h t k o]. unfold ring_wf, ring_contents, TELEMETRY_TICK_RING_DEPTH. cbn.
  intros (Ht & Hk & ->) Hlt. rewrite (u8_small (k + 1)), u8_small
    by (try apply Z.mod_pos_bound; Z.div_mod_to_equations; lia).
  split.
  - split_and!; [lia..|]. rewrite Zplus_mod_idemp_l. f_equal. lia.
  - rewrite seqZ_snoc, fmap_app by lia. cbn. f_equal; [|f_equal; apply fn_lookup_insert].
    apply list_fmap_ext. intros j i [-> Hi]%lookup_seqZ. apply fn_lookup_insert_ne.
    intros Heq. Z.div_mod_to_equations. lia.
Qed.

Lemma ring_pop (r : TelemetryTickRing) :
  ring_wf r -> 0 < ring_count r ->
  let r' := r <| ring_tail ::= fun t => u8 ((t + 1) mod TELEMETRY_TICK_RING_DEPTH) |>
              <| ring_count ::= fun k => u8 (k - 1) |> in
  ring_wf r' /\ ring_contents r = ring_records r (ring_tail r) :: ring_contents r'.
Proof.
  destruct r as [f h t k o]. unfold ring_wf, ring_contents, TELEMETRY_TICK_RING_DEPTH. cbn.
  intros (Ht & Hk & ->) Hlt. rewrite (u8_small (k - 1)), u8_small
    by (try apply Z.mod_pos_bound; Z.div_mod_to_equations; lia).
  split.
  - split_and!; [Z.div_mod_to_equations; lia..|]. rewrite Zplus_mod_idemp_l. f_equal. lia.
  - rewrite (seqZ_cons 0) by lia. cbn. rewrite Z.add_0_r, Z.mod_small by lia. f_equal.
    change (Z.succ 0) with (1 + 0). replace (Z.pred k) with (k - 1) by lia.
    rewrite <- (fmap_add_seqZ 1 0), <- list_fmap_compose.
    apply list_fmap_ext. intros ? i _. cbn. rewrite Zplus_mod_idemp_l. do 2 f_equal. lia.
Qed.

(** What the drain loop sends for one record. *)
Definition tick_message (overflow : Z) (r : TelemetryTickRecord) : message :=
  (PKT_TICK_STATE, [tick_core_id r; byte (tick_task_id r) 1; byte (tick_task_id r) 0;
                    tick_state r; overflow]).

Definition ring_messages (s : telemetry) (core : Z) : list message :=
  tick_message (ring_overflow_count (g_tick_rings s core)) <$> ring_contents (g_tick_rings s core).

Lemma send_rings (s : telemetry) (m : message) : g_tick_rings (send_message s m) = g_tick_rings s.
Proof. unfold send_message, telemetry_send_framed. by destruct (_ <=? _). Qed.

Lemma sends_rings (s : telemetry) (ms : list message) :
  g_tick_rings (send_messages s ms) = g_tick_rings s.
Proof.
  revert s. induction ms as [|m ms IH]; intros s; [done|].
  cbn. fold (send_messages (send_message s m) ms). by rewrite IH, send_rings.
Qed.

Lemma set_ring_send (core : Z) (r : TelemetryTickRing) (s : telemetry) (m : message) :
  send_message (set_ring core r s) m = set_ring core r (send_message s m).
Proof. unfold send_message, telemetry_send_framed. by destruct (_ <=? _). Qed.

Lemma set_ring_sends (core : Z) (r : TelemetryTickRing) (s : telemetry) (ms : list message) :
  send_messages (set_ring core r s) ms = set_ring core r (send_messages s ms).
Proof.
  revert s. induction ms as [|m ms IH]; intros s; [done|].
  cbn. by rewrite set_ring_send, IH.
Qed.

Lemma set_ring_twice (core : Z) (r r' : TelemetryTickRing) (s : telemetry) :
  set_ring core r (set_ring core r' s) = set_ring core r s.
Proof. unfold set_ring. cbn. by rewrite fn_insert_insert. Qed.

(** Draining one ring sends its records in order, and leaves it empty. *)
Lemma drain_ring_sends (fuel : nat) (core : Z) (s : telemetry) :
  ring_wf (g_tick_rings s core) -> ring_count (g_tick_rings s core) < Z.of_nat fuel ->
  exists r, drain_ring fuel core s = set_ring core r (send_messages s (ring_messages s core)) /\
            ring_wf r /\ ring_contents r = [].
Proof.
  revert s. induction fuel as [|fuel IH]; intros s Hwf Hf.
  { destruct Hwf as (_ & ? & _). lia. }
  cbn [drain_ring]. unfold ring_take, ring_messages. set (ring := g_tick_rings s core) in *.
  destruct (0 <? ring_count ring) eqn:Hc.
  - apply Z.ltb_lt in Hc. destruct (ring_pop ring Hwf Hc) as [Hwf' Hpop].
    set (ring' := ring <| ring_tail ::= _ |> <| ring_count ::= _ |>) in *.
    set (m := tick_message (ring_overflow_count ring) (ring_records ring (ring_tail ring))).
    change (telemetry_send PKT_TICK_STATE _ _) with (send_message (set_ring core ring' s) m).
    assert (g_tick_rings (send_message (set_ring core ring' s) m) core = ring') as Hr
      by (rewrite send_rings; apply fn_lookup_insert).
    destruct (IH (send_message (set_ring core ring' s) m)) as (r & Hd & Hr').
    { by rewrite Hr. }
    { rewrite Hr. cbn. destruct Hwf as (_ & Hk & _). unfold TELEMETRY_TICK_RING_DEPTH in Hk.
      rewrite u8_small by lia. lia. }
    exists r. split; [|done]. rewrite Hd. unfold ring_messages. rewrite Hr, Hpop.
    by rewrite set_ring_send, set_ring_sends, set_ring_twice.
  - apply Z.ltb_ge in Hc. destruct ring as [f h t k o] eqn:Hring. cbn in *.
    destruct Hwf as (Ht & Hk & Hh). cbn in *. assert (k = 0) as -> by lia.
    exists (mkTickRing f h t 0 o). split_and!; [|done|done]. cbn. unfold set_ring.
    destruct s as [w q n sr sc g]. cbn in *. by rewrite fn_insert_id.
Qed.

Definition all_rings_wf (s : telemetry) : Prop :=
  forall c, 0 <= c < COMPANION_CORE_MAX_CORES -> ring_wf (g_tick_rings s c).

#[global] Arguments drain_ring : simpl never.

(** Draining several rings, one after the other. *)
Lemma drain_cores_sends (cs : list Z) (s : telemetry) :
  NoDup cs -> (forall c, c ∈ cs -> ring_wf (g_tick_rings s c)) ->
  let s' := foldl (fun s core_id => drain_ring 256 core_id s) s cs in
  let ms := concat (map (ring_messages s) cs) in
  wire s' = wire (send_messages s ms) /\ seq_counters s' = seq_counters (send_messages s ms) /\
  (forall c, if decide (c ∈ cs)
             then ring_wf (g_tick_rings s' c) /\ ring_contents (g_tick_rings s' c) = []
             else g_tick_rings s' c = g_tick_rings s c).
Proof.
  revert s. induction cs as [|c cs IH]; intros s Hnd Hwf; cbn.
  { split_and!; [done..|]. intros c. by rewrite decide_False by apply not_elem_of_nil. }
  apply NoDup_cons in Hnd as [Hc Hnd].
  destruct (drain_ring_sends 256 c s) as (r & Hd & Hr & Hrc).
  { apply Hwf. by left. }
  { destruct (Hwf c ltac:(by left)) as (_ & Hk & _). unfold TELEMETRY_TICK_RING_DEPTH in Hk. lia. }
  cbn in Hd. rewrite Hd. set (s1 := set_ring c r (send_messages s (ring_messages s c))).
  assert (forall c', g_tick_rings s1 c' = if decide (c = c') then r else g_tick_rings s c') as Hr1.
  { intros c'. unfold s1, set_ring. cbn. rewrite fn_insert_lookup. by rewrite sends_rings. }
  destruct (IH s1 Hnd) as (Hw & Hq & Hrs).
  { intros c' Hc'. rewrite Hr1. case_decide; [by subst|]. apply Hwf. by right. }
  assert (map (ring_messages s1) cs = map (ring_messages s) cs) as Hms.
  { apply map_ext_in. intros c' Hc'%list_elem_of_In. unfold ring_messages.
    rewrite Hr1, decide_False; [done|]. by intros ->. }
  rewrite Hms in Hw, Hq. unfold s1 in Hw, Hq. rewrite set_ring_sends in Hw, Hq. cbn in Hw, Hq.
  unfold send_messages in Hw, Hq |- *. rewrite <- foldl_app in Hw, Hq.
  split_and!; [done|done|]. intros c'. specialize (Hrs c').
  destruct (decide (c' ∈ cs)); [by rewrite decide_True by (by right)|].
  rewrite Hr1 in Hrs. destruct (decide (c = c')) as [<-|Hne].
  - rewrite decide_True by (by left). by rewrite Hrs.
  - by rewrite decide_False by (rewrite elem_of_cons; naive_solver).
Qed.

(** ** Properties *)

(** C27: every packet sent is decoded by a receiver of the documented wire
    format: whatever was sent, in whatever order of types, the bytes put on
    the wire parse as exactly those packets, in order, and the sequence number
    of each is the number of earlier packets of its type, modulo 256. *)
Theorem telemetry_wire_roundtrip (ms : list message) :
  Forall message_ok ms ->
  exists ps, parse_frames (length ms) (wire (send_messages telemetry_zero ms)) = Some ps /\
    forall i m, ms !! i = Some m ->
      ps !! i = Some (mkPacket m.1 (u8 (count_type m.1 (take i ms))) m.2).
Proof.
  intros Hok. exists (number (seq_counters telemetry_zero) ms). split.
  - rewrite wire_send_messages by done. cbn [wire telemetry_zero app].
    by apply parse_frames_number.
  - intros i m Hi. by rewrite (number_lookup _ _ i m) by done.
Qed.

Lemma telemetry_wire_roundtrip_witness :
  exists ps, parse_frames 3 (wire (telemetry_report_task_unblocked 258 1
                (telemetry_report_dfu_event DFU_EVT_COMMITTED 0 1
                  (telemetry_report_task_unblocked 7 0 telemetry_zero)))) = Some ps /\
    ps !! 2%nat = Some (mkPacket PKT_TASK_UNBLOCKED 1 [1; 2; 1]).
Proof.
  destruct (telemetry_wire_roundtrip
    [(PKT_TASK_UNBLOCKED, [0; 7; 0]); (PKT_DFU_EVENT, [7; 0; 0; 0; 0; 1]);
     (PKT_TASK_UNBLOCKED, [1; 2; 1])]) as (ps & Hp & Hl).
  - repeat constructor; done.
  - exists ps. split; [exact Hp|]. exact (Hl 2%nat _ eq_refl).
Defined.

(** A core's tick ring is a bounded queue that drops the newest record
    when full: reporting appends to its contents or, with eight records
    buffered, only counts the loss; other cores' rings are not touched. *)
Theorem tick_ring_report (core task_id state : Z) (s : telemetry) :
  0 <= core < COMPANION_CORE_MAX_CORES -> all_rings_wf s ->
  let s' := telemetry_report_tick_state core task_id state s in
  let r := g_tick_rings s core in
  all_rings_wf s' /\ wire s' = wire s /\
  (forall c, c <> core -> g_tick_rings s' c = g_tick_rings s c) /\
  (if ring_count r =? TELEMETRY_TICK_RING_DEPTH
   then ring_contents (g_tick_rings s' core) = ring_contents r /\
        ring_overflow_count (g_tick_rings s' core) = u8 (ring_overflow_count r + 1)
   else ring_contents (g_tick_rings s' core) = ring_contents r ++ [mkTickRecord core task_id state] /\
        ring_overflow_count (g_tick_rings s' core) = ring_overflow_count r).
Proof.
  intros Hc Hwf. pose proof (Hwf core Hc) as Hr. cbn zeta. unfold telemetry_report_tick_state.
  assert (u8 core = core) as -> by (apply u8_small; unfold COMPANION_CORE_MAX_CORES in *; lia).
  rewrite (proj2 (Z.leb_gt _ _)) by lia. set (r := g_tick_rings s core) in *.
  assert (forall r', ring_wf r' -> all_rings_wf (set_ring core r' s)) as Hall.
  { intros r' Hr' c Hc'. cbn. rewrite fn_insert_lookup. case_decide; [done|by apply Hwf]. }
  assert (forall r' c, c <> core -> g_tick_rings (set_ring core r' s) c = g_tick_rings s c) as Hoth
    by (intros r' c Hne; by apply fn_lookup_insert_ne).
  assert (forall r', g_tick_rings (set_ring core r' s) core = r') as Hown
    by (intros r'; apply fn_lookup_insert).
  destruct (ring_count r =? TELEMETRY_TICK_RING_DEPTH) eqn:Hfull.
  - split_and!; [by apply Hall|done|by apply Hoth|by rewrite Hown..].
  - apply Z.eqb_neq in Hfull. destruct (ring_push r (mkTickRecord core task_id state) Hr) as [Hw Hcs].
    { destruct Hr as (_ & ? & _). lia. }
    split_and!; [by apply Hall|done|by apply Hoth|by rewrite Hown..].
Qed.

Lemma tick_ring_report_witness :
  ring_contents (g_tick_rings (telemetry_report_tick_state 1 5 1 telemetry_zero) 1) =
  [mkTickRecord 1 5 1].
Proof. apply (tick_ring_report 1 5 1 telemetry_zero); [done|]. intros c _. by repeat split. Defined.

(** The drain loop empties every ring and sends one [PKT_TICK_STATE] per
    buffered record, oldest first, core by core: the wire is exactly what
    sending those messages one at a time produces. *)
Theorem tick_ring_drain (s : telemetry) :
  all_rings_wf s ->
  let s' := telemetry_drain_tick_rings s in
  wire s' = wire (send_messages s
    (concat (map (ring_messages s) (seqZ 0 COMPANION_CORE_MAX_CORES)))) /\
  (forall c, 0 <= c < COMPANION_CORE_MAX_CORES ->
     ring_wf (g_tick_rings s' c) /\ ring_contents (g_tick_rings s' c) = []).
Proof.
  intros Hwf. destruct (drain_cores_sends (seqZ 0 COMPANION_CORE_MAX_CORES) s) as (Hw & _ & Hr).
  - apply NoDup_seqZ.
  - intros c Hc%elem_of_seqZ. by apply Hwf.
  - split; [exact Hw|]. intros c Hc. specialize (Hr c).
    rewrite decide_True in Hr by (by apply elem_of_seqZ). exact Hr.
Qed.

Lemma tick_ring_drain_witness :
  ring_contents (g_tick_rings (telemetry_drain_tick_rings
    (telemetry_report_tick_state 1 5 1 telemetry_zero)) 1) = [].
Proof.
  apply (tick_ring_drain (telemetry_report_tick_state 1 5 1 telemetry_zero)); [|done].
  intros c Hc. unfold COMPANION_CORE_MAX_CORES in Hc.
  assert (c = 0 \/ c = 1 \/ c = 2 \/ c = 3) as [->|[->|[->| ->]]] by lia; by repeat split.
Defined.

(** What the roster re-announces for an object is the packet its
    registration broadcast, for the first sixteen objects; a later object is
    broadcast once and not remembered.  Ids are handed out in order. *)
Theorem sync_roster_replays (kind : TelemetrySyncKind) (parent : Z) (name : option (list Z))
    (s : telemetry) :
  0 <= sync_registry_count s <= TELEMETRY_MAX_SYNC_OBJECTS ->
  let id := (telemetry_register_sync kind parent name s).1 in
  let s' := (telemetry_register_sync kind parent name s).2 in
  exists payload, id = next_sync_id s /\ next_sync_id s' = u16 (id + 1) /\
    wire s' = wire (telemetry_send_framed PKT_SYNC_CREATED payload s) /\
    (forall i, i < sync_registry_count s -> sync_registry s' i = sync_registry s i) /\
    if decide (sync_registry_count s = TELEMETRY_MAX_SYNC_OBJECTS)
    then sync_registry_count s' = sync_registry_count s
    else sync_registry_count s' = sync_registry_count s + 1 /\
         entry_payload (sync_registry s' (sync_registry_count s)) = payload.
Proof.
  intros Hk. unfold telemetry_register_sync, TELEMETRY_MAX_SYNC_OBJECTS in *. cbn [fst snd].
  exists (entry_payload (mkSyncEntry kind (next_sync_id s) parent
            (name_bytes TELEMETRY_SYNC_NAME_MAX name))).
  rewrite !send_framed_wire by done. cbn.
  destruct (sync_registry_count s <? 16) eqn:Hlt; cbn.
  - apply Z.ltb_lt in Hlt. split_and!; [done..| |].
    + intros i Hi. apply fn_lookup_insert_ne. lia.
    + rewrite decide_False by lia. rewrite fn_lookup_insert. split; [apply wrap_small; lia|done].
  - apply Z.ltb_ge in Hlt. by rewrite decide_True by lia.
Qed.

Lemma sync_roster_replays_witness :
  entry_payload (sync_registry (telemetry_register_sync SYNC_KIND_QUEUE 0xFFFF
                                  (Some [0x71; 0]) telemetry_zero).2 0) = [2; 0; 0; 255; 255; 0x71].
Proof.
  destruct (sync_roster_replays SYNC_KIND_QUEUE 0xFFFF (Some [0x71; 0]) telemetry_zero)
    as (p & _ & _ & _ & _ & _); [done|].
  vm_compute. reflexivity.
Defined.

(** Clients treat the reports as black boxes. *)
#[global] Strategy 1000 [telemetry_send_framed telemetry_report_task_created
  telemetry_report_task_blocked telemetry_report_task_unblocked telemetry_register_sync
  telemetry_report_mutex_owner_changed telemetry_report_boot_stage_enter
  telemetry_report_boot_milestone telemetry_report_tick_state].
#[global] Arguments telemetry_send_framed : simpl never.
#[global] Arguments telemetry_report_task_created : simpl never.
#[global] Arguments telemetry_report_task_blocked : simpl never.
#[global] Arguments telemetry_report_task_unblocked : simpl never.
#[global] Arguments telemetry_register_sync : simpl never.
#[global] Arguments telemetry_report_mutex_owner_changed : simpl never.
#[global] Arguments telemetry_report_boot_milestone : simpl never.
#[global] Arguments telemetry_report_tick_state : simpl never.
