(* ===== verification/Kernel.v ===== *)
(** * The kernel's shared memory

    Everything the kernel's source files keep in static variables, plus the
    objects applications declare (mutexes, semaphores, queues, timers), as one
    record; the primitives all components use: critical sections, spinlocks,
    TCB and list updates, heap words, console and telemetry output.  The core
    that executes a call is its argument [me], the value [companion_core_id()]
    reads from MPIDR. *)

From Stdlib Require String.
From S2P Require Import Prelude Types Dll Telemetry.

(** Console messages, as their format strings. *)
Module Messages.
Import String.
Definition task_overrun : string := "WARN: task overrun by %u ticks (period %u)\r\n".
Definition no_stack_space : string := "Could not create task, out of stack space!".
End Messages.

(** ** Structs *)

Definition IDLE_STACK_DEPTH : Z := 64.
Definition HEAP_SIZE_BYTES : Z := 262144.

(** The lists of a [SchedulerCore] are [LReady] and [LBlocked] of the list
    memory, its lock is [LkSched], its idle TCB [Idle core].  The two pointers
    are to cells of the application that only the kernel writes: [None] is
    NULL, [Some v] a cell holding [v]. *)
Record SchedulerCore := mkSchedulerCore {
  s_clk_freq : option Z;
  s_tick_count : option Z;
  hz : Z;
  idle_stack : Z -> Z
}.
#[export] Instance eta_SchedulerCore : Settable SchedulerCore :=
  fun r => mkSchedulerCore (s_clk_freq r) (s_tick_count r) (hz r) (idle_stack r).

Inductive MutexState := MUTEX_STATE_LOCKED | MUTEX_STATE_UNLOCKED.
#[export] Instance MutexState_eq_dec : EqDecision MutexState.
Proof. solve_decision. Defined.

Record Mutex := mkMutex {
  mtx_state : MutexState;
  mutex_owner : option tcb;
  inheritance_enabled : Z;
  inherited_priority : Z;
  mtx_sync_id : Z
}.
#[export] Instance eta_Mutex : Settable Mutex :=
  fun r => mkMutex (mtx_state r) (mutex_owner r) (inheritance_enabled r) (inherited_priority r)
             (mtx_sync_id r).

Record Semaphore := mkSemaphore { max_count : Z; count : Z; smph_sync_id : Z }.
#[export] Instance eta_Semaphore : Settable Semaphore :=
  fun r => mkSemaphore (max_count r) (count r) (smph_sync_id r).

Record Queue := mkQueue {
  q_buf : option Z;        (* byte offset in the heap *)
  q_head : Z;
  q_tail : Z;
  capacity : Z;
  item_size : Z;
  q_sync_id : Z
}.
#[export] Instance eta_Queue : Settable Queue :=
  fun r => mkQueue (q_buf r) (q_head r) (q_tail r) (capacity r) (item_size r) (q_sync_id r).

Inductive TimerMode := TIMER_MODE_ONE_SHOT | TIMER_MODE_PERIODIC.
Inductive TimerListId := TIMER_LIST_NONE | TIMER_LIST_BLOCKED | TIMER_LIST_ACTIVE.
#[export] Instance TimerMode_eq_dec : EqDecision TimerMode.
Proof. solve_decision. Defined.
#[export] Instance TimerListId_eq_dec : EqDecision TimerListId.
Proof. solve_decision. Defined.

Record SoftwareTimer := mkSoftwareTimer {
  expiry_tick : Z;
  period : Z;
  timer_mode : TimerMode;
  callback : option Z;     (* a function's address *)
  list_id : TimerListId;
  t_next : option Z
}.
#[export] Instance eta_SoftwareTimer : Settable SoftwareTimer :=
  fun r => mkSoftwareTimer (expiry_tick r) (period r) (timer_mode r) (callback r) (list_id r)
             (t_next r).

(** ** Locks

    [k_held] is the stack of spinlocks the running call holds.  The kernel's
    rules for them (spinlock/docs.md, scheduler.h) are that a core never
    acquires a lock it already holds, and that a scheduler lock is the
    innermost one: acquiring against these rules is [Stop Deadlock], so every
    theorem that a function returns also says that it follows them. *)
Inductive lock := LkSched (core : Z) | LkMutex (m : Z) | LkSem (s : semref) | LkQueue (q : Z) | LkHeap | LkUartBuf.
#[export] Instance lock_eq_dec : EqDecision lock.
Proof. solve_decision. Defined.

Definition lock_rank (l : lock) : Z := match l with LkSched _ => 2 | _ => 1 end.
Definition may_acquire (l : lock) (held : list lock) : bool :=
  forallb (fun h => lock_rank h <? lock_rank l) held.

(** ** State *)

Record kstate := mkK {
  k_dm : dmem;
  k_tcbs : tcb -> TaskControlBlock;
  k_current : Z -> option tcb;             (* p_task_control_block[core] *)
  k_cores : Z -> SchedulerCore;            (* g_cores[core] *)
  k_cval : Z -> Z;                         (* CNTP_CVAL of each core *)
  k_mtx : Z -> Mutex;
  k_sem : semref -> Semaphore;
  k_queue : Z -> Queue;
  k_task_counter : Z -> Z;                 (* task_counter[core] *)
  k_heap_offset : Z;
  k_heap : Z -> Z;                         (* heap[], a byte per offset *)
  k_timers : Z -> SoftwareTimer;
  k_blocked_head : option Z;               (* software_timer.c's two lists *)
  k_active_head : option Z;
  k_held : list lock;
  k_irq_masked : Z -> bool;
  k_tel : telemetry;
  k_console : list (String.string * list Z)       (* uart_print/uart_printf calls *)
}.
#[export] Instance eta_kstate : Settable kstate :=
  fun r => mkK (k_dm r) (k_tcbs r) (k_current r) (k_cores r) (k_cval r) (k_mtx r) (k_sem r)
             (k_queue r) (k_task_counter r) (k_heap_offset r) (k_heap r) (k_timers r)
             (k_blocked_head r) (k_active_head r) (k_held r) (k_irq_masked r) (k_tel r)
             (k_console r).

Abbreviation K := (M kstate).

(** The state the startup code's .bss clear leaves. *)
Definition kernel_zero : kstate :=
  mkK (mkDmem (fun _ => zero_item) (fun _ => zero_list)) (fun _ => zero_tcb) (fun _ => None)
    (fun _ => mkSchedulerCore None None 0 (fun _ => 0)) (fun _ => 0)
    (fun _ => mkMutex MUTEX_STATE_LOCKED None 0 0 0) (fun _ => mkSemaphore 0 0 0)
    (fun _ => mkQueue None 0 0 0 0 0) (fun _ => 0) 0 (fun _ => 0)
    (fun _ => mkSoftwareTimer 0 0 TIMER_MODE_ONE_SHOT None TIMER_LIST_NONE None) None None
    [] (fun _ => false) telemetry_zero [].

(** ** Primitives *)

(** interrupts.h: [enter_critical] hands back the CPSR; only its I bit is
    state here. *)
Definition enter_critical (me : Z) : K bool :=
  saved ← gets (fun k => k_irq_masked k me);
  modify (fun k => k <| k_irq_masked ::= fun f => <[me := true]> f |>);;
  mret saved.
Definition exit_critical (me : Z) (saved : bool) : K unit :=
  modify (fun k => k <| k_irq_masked ::= fun f => <[me := saved]> f |>).

Definition spinlock_acquire (l : lock) : K unit := fun k =>
  if may_acquire l (k_held k) then Ret tt (k <| k_held ::= cons l |>) else Stop Deadlock k.
Definition spinlock_release (l : lock) : K unit :=
  modify (fun k => k <| k_held ::= filter (fun h => h <> l) |>).

Definition spinlock_init (l : lock) : K unit := spinlock_release l.

Definition on_dm (f : dmem -> dmem) : K unit := modify (fun k => k <| k_dm ::= f |>).
Definition upd_tcb (t : tcb) (f : TaskControlBlock -> TaskControlBlock) : K unit :=
  modify (fun k => k <| k_tcbs ::= fun g => <[t := f (g t)]> g |>).
Definition upd_core (c : Z) (f : SchedulerCore -> SchedulerCore) : K unit :=
  modify (fun k => k <| k_cores ::= fun g => <[c := f (g c)]> g |>).
Definition upd_mtx (m : Z) (f : Mutex -> Mutex) : K unit :=
  modify (fun k => k <| k_mtx ::= fun g => <[m := f (g m)]> g |>).
Definition upd_sem (s : semref) (f : Semaphore -> Semaphore) : K unit :=
  modify (fun k => k <| k_sem ::= fun g => <[s := f (g s)]> g |>).
Definition upd_queue (q : Z) (f : Queue -> Queue) : K unit :=
  modify (fun k => k <| k_queue ::= fun g => <[q := f (g q)]> g |>).
Definition upd_timer (t : Z) (f : SoftwareTimer -> SoftwareTimer) : K unit :=
  modify (fun k => k <| k_timers ::= fun g => <[t := f (g t)]> g |>).

Definition tel (f : telemetry -> telemetry) : K unit := modify (fun k => k <| k_tel ::= f |>).
Definition telemetry_register (kind : TelemetrySyncKind) (parent : Z) (name : option (list Z)) : K Z :=
  fun k => let '(id, t) := telemetry_register_sync kind parent name (k_tel k) in
           Ret id (k <| k_tel := t |>).
Definition console (fmt : String.string) (args : list Z) : K unit :=
  modify (fun k => k <| k_console ::= fun c => c ++ [(fmt, args)] |>).

(** Words of the heap, little-endian. *)
Definition heap_store8 (off v : Z) : K unit :=
  modify (fun k => k <| k_heap ::= fun h => <[off := v]> h |>).
Definition heap_store32 (off v : Z) : K unit :=
  heap_store8 off (byte v 0);; heap_store8 (off + 1) (byte v 1);;
  heap_store8 (off + 2) (byte v 2);; heap_store8 (off + 3) (byte v 3).
Definition heap_load32 (k : kstate) (off : Z) : Z :=
  of_le32 (k_heap k off) (k_heap k (off + 1)) (k_heap k (off + 2)) (k_heap k (off + 3)).

(** Indexing [g_cores[core]]. *)
Definition core_ok (c : Z) : bool := (0 <=? c) && (c <? COMPANION_CORE_MAX_CORES).

Lemma enter_critical_eq (me : Z) (k : kstate) :
  enter_critical me k = Ret (k_irq_masked k me) (k <| k_irq_masked ::= fun f => <[me := true]> f |>).
Proof. done. Qed.

Lemma acquire_eq (l : lock) (k : kstate) :
  may_acquire l (k_held k) = true ->
  spinlock_acquire l k = Ret tt (k <| k_held ::= cons l |>).
Proof. unfold spinlock_acquire. by intros ->. Qed.

Lemma filter_own_lock (l : lock) : filter (fun h => h <> l) [l] = [].
Proof. rewrite filter_cons_False by tauto. done. Qed.

Lemma filter_inner_lock (l h : lock) : h <> l -> filter (fun x => x <> l) [l; h] = [h].
Proof. intros Hne. by rewrite filter_cons_False, filter_cons_True by naive_solver. Qed.

(** Expose the state passing of a primitive sequence. *)
Ltac unfold_K :=
  cbv [mbind M_mbind mret M_mret gets modify on_dm upd_tcb upd_core upd_mtx upd_sem upd_queue
       upd_timer tel deref when].
