(* ===== verification/Stack.v ===== *)
(** * Task stacks

    Loads and stores through a [StackType_t *], which points into the kernel
    heap or into a core's idle stack, and the initial frame both
    [scheduler_init] and [task_init_stack] lay out. *)

From S2P Require Import Prelude Types Kernel.

(** [*p] for a stack pointer.  A heap pointer outside [heap[]] or an idle
    stack index outside the array is a fault. *)
Definition sptr_ok (p : sptr) : bool :=
  match p with
  | HeapPtr off => (0 <=? off) && (off + 4 <=? HEAP_SIZE_BYTES)
  | IdlePtr c w => (0 <=? w) && (w <? IDLE_STACK_DEPTH)
  end.
Definition stack_word (k : kstate) (p : sptr) : Z :=
  match p with
  | HeapPtr off => heap_load32 k off
  | IdlePtr c w => idle_stack (k_cores k c) w
  end.
Definition stack_load (p : sptr) : K Z :=
  if sptr_ok p then gets (fun k => stack_word k p) else stop Fault.
Definition stack_store (p : sptr) (v : Z) : K unit :=
  if sptr_ok p
  then match p with
       | HeapPtr off => heap_store32 off v
       | IdlePtr c w => upd_core c (fun r => r <| idle_stack ::= fun f => <[w := u32 v]> f |>)
       end
  else stop Fault.

(** The initial frame: SPSR, PC and LR above thirteen words of registers,
    from [top] down; the result is the address of the last word stored. *)
Definition init_frame (top : sptr) (pc lr r0 : Z) : K sptr :=
  stack_store top 0x13;;
  stack_store (sptr_add top (-1)) pc;;
  stack_store (sptr_add top (-2)) lr;;
  for_ 12 3 (fun i => stack_store (sptr_add top (- i)) 0);;
  stack_store (sptr_add top (-15)) r0;;
  mret (sptr_add top (-15)).


(** ** Regions

    The words of a stack, counted from its base [b]. *)

Definition word (b : sptr) (k : kstate) (w : Z) : Z := stack_word k (sptr_add b w).

Definition region_ok (b : sptr) (n : Z) : Prop :=
  forall w, 0 <= w < n -> sptr_ok (sptr_add b w) = true.

(** [k'] differs from [k] only in the words [0 .. n) of the region. *)
Definition region_only (b : sptr) (n : Z) (k k' : kstate) : Prop :=
  match b with
  | HeapPtr off => exists h, k' = k <| k_heap := h |> /\
      forall a, a < off \/ off + 4 * n <= a -> h a = k_heap k a
  | IdlePtr c w0 => exists st,
      k' = k <| k_cores ::= fun g => <[c := (g c) <| idle_stack := st |>]> g |>
  end.

Lemma region_only_refl b n k : region_only b n k k.
Proof.
  destruct b as [off|c w0]; cbn.
  - exists (k_heap k). split; [by destruct k|done].
  - exists (idle_stack (k_cores k c)). cbn. rewrite fn_insert_id; [by destruct k|].
    by destruct (k_cores k c).
Qed.

Lemma region_only_trans b n k1 k2 k3 :
  region_only b n k1 k2 -> region_only b n k2 k3 -> region_only b n k1 k3.
Proof.
  destruct b as [off|c w0]; cbn.
  - intros (h & -> & H1) (h' & -> & H2). exists h'. split; [done|].
    intros a Ha. rewrite H2 by done. by apply H1.
  - intros (st & ->) (st' & ->). exists st'. cbn. by rewrite fn_insert_insert, fn_lookup_insert.
Qed.

Lemma heap_store32_eq (off v : Z) (k : kstate) :
  heap_store32 off v k =
    Ret tt (k <| k_heap := <[off + 3 := byte v 3]> (<[off + 2 := byte v 2]>
              (<[off + 1 := byte v 1]> (<[off := byte v 0]> (k_heap k)))) |>).
Proof. done. Qed.

Lemma store_word (b : sptr) (n w v : Z) (k : kstate) :
  region_ok b n -> 0 <= w < n ->
  exists k', stack_store (sptr_add b w) v k = Ret tt k' /\ region_only b n k k' /\
    forall w', word b k' w' = if decide (w = w') then u32 v else word b k w'.
Proof.
  intros Hok Hw. unfold stack_store, word. rewrite Hok by done.
  destruct b as [off|c w0]; cbn [sptr_add].
  - rewrite heap_store32_eq. eexists. split_and!; [reflexivity| |].
    + eexists. split; [reflexivity|]. intros a Ha. rewrite !fn_lookup_insert_ne by lia. done.
    + intros w'. unfold stack_word, heap_load32. cbn. rewrite !fn_insert_lookup.
      destruct (decide (w = w')) as [<-|Hne].
      * repeat first [rewrite decide_False by lia | rewrite decide_True by lia]. apply of_le32_le32.
      * by rewrite !decide_False by lia.
  - eexists. split_and!; [reflexivity| |].
    + eexists. reflexivity.
    + intros w'. unfold stack_word. cbn. rewrite fn_lookup_insert. cbn. rewrite fn_insert_lookup.
      repeat case_decide; done || lia.
Qed.

(** A fill loop over a range of words. *)
Lemma fill_words (b : sptr) (n v : Z) (m : nat) : forall (i0 : Z) (k : kstate),
  region_ok b n -> 0 <= i0 -> i0 + Z.of_nat m <= n ->
  exists k', for_ m i0 (fun i => stack_store (sptr_add b i) v) k = Ret tt k' /\
    region_only b n k k' /\
    forall w, word b k' w = if decide (i0 <= w < i0 + Z.of_nat m) then u32 v else word b k w.
Proof.
  induction m as [|m IH]; intros i0 k Hok Hi Hm.
  - exists k. split_and!; [done|apply region_only_refl|]. intros w. by rewrite decide_False by lia.
  - destruct (store_word b n i0 v k Hok) as (k1 & Hr1 & Ho1 & Hw1); [lia|].
    destruct (IH (i0 + 1) k1 Hok) as (k2 & Hr2 & Ho2 & Hw2); [lia..|].
    exists k2. split_and!.
    + cbn [for_]. by exec_with Hr1.
    + by eapply region_only_trans.
    + intros w. rewrite Hw2, Hw1. repeat case_decide; try done; lia.
Qed.

Lemma sptr_add_add (p : sptr) (i j : Z) : sptr_add (sptr_add p i) j = sptr_add p (i + j).
Proof. destruct p; cbn; f_equal; lia. Qed.

(** The frame [start_first_task] and the IRQ exit path pop: r0 to r12, LR, PC
    and SPSR, upwards from the new stack pointer. *)
Definition frame_word (pc lr r0 : Z) (i : Z) : Z :=
  if decide (i = 0) then r0 else if decide (i = 13) then lr else if decide (i = 14) then pc
  else if decide (i = 15) then 0x13 else 0.

Lemma zero_words (b : sptr) (n : Z) (m : nat) : forall (i0 : Z) (k : kstate),
  region_ok b n -> 0 <= i0 -> i0 + Z.of_nat m <= n ->
  exists k', for_ m i0 (fun i => stack_store (sptr_add (sptr_add b (n - 1)) (- i)) 0) k = Ret tt k' /\
    region_only b n k k' /\
    forall w, word b k' w = if decide (n - 1 - (i0 + Z.of_nat m) < w <= n - 1 - i0) then 0
                            else word b k w.
Proof.
  induction m as [|m IH]; intros i0 k Hok Hi Hm.
  - exists k. split_and!; [done|apply region_only_refl|]. intros w. by rewrite decide_False by lia.
  - destruct (store_word b n (n - 1 + - i0) 0 k Hok) as (k1 & Hr1 & Ho1 & Hw1); [lia|].
    destruct (IH (i0 + 1) k1 Hok) as (k2 & Hr2 & Ho2 & Hw2); [lia..|].
    exists k2. split_and!.
    + rewrite <- sptr_add_add in Hr1. cbn [for_]. by exec_with Hr1.
    + by eapply region_only_trans.
    + intros w. rewrite Hw2, Hw1. repeat case_decide; done || lia.
Qed.

Lemma init_frame_words (b : sptr) (n pc lr r0 : Z) (k : kstate) :
  region_ok b n -> 16 <= n ->
  exists k', init_frame (sptr_add b (n - 1)) pc lr r0 k = Ret (sptr_add b (n - 16)) k' /\
    region_only b n k k' /\
    forall w, word b k' w = if decide (n - 16 <= w < n)
                            then u32 (frame_word pc lr r0 (w - (n - 16))) else word b k w.
Proof.
  intros Hok Hn. unfold init_frame. rewrite !sptr_add_add.
  destruct (store_word b n (n - 1) 0x13 k Hok) as (k1 & Hr1 & Ho1 & Hw1); [lia|].
  destruct (store_word b n (n - 1 + -1) pc k1 Hok) as (k2 & Hr2 & Ho2 & Hw2); [lia|].
  destruct (store_word b n (n - 1 + -2) lr k2 Hok) as (k3 & Hr3 & Ho3 & Hw3); [lia|].
  destruct (zero_words b n 12 3 k3 Hok) as (k4 & Hr4 & Ho4 & Hw4); [lia..|].
  destruct (store_word b n (n - 1 + -15) r0 k4 Hok) as (k5 & Hr5 & Ho5 & Hw5); [lia|].
  exists k5. split_and!.
  - exec_with Hr1. exec_with Hr2. exec_with Hr3. exec_with Hr4. exec_with Hr5.
    unfold mret, M_mret. do 2 f_equal. lia.
  - eauto using region_only_trans.
  - intros w. rewrite Hw5, Hw4, Hw3, Hw2, Hw1. unfold frame_word.
    repeat case_decide; done || (exfalso; lia).
Qed.
