(* ===== verification/Invariant.v ===== *)
(** * The scheduling invariant

    Where every task control block is linked, for every state a task can be
    in, for all cores at once; the frame and update lemmas the proofs of the
    kernel functions use.  [sinv ex live d g cur Q] lets the tasks of [ex] be
    between states, which is how a function that moves a task looks half
    way. *)

From S2P Require Import Prelude Types Dll Telemetry Kernel.

(** A task that has been created, or the idle task of an initialised core. *)
Definition live (k : kstate) (t : tcb) : Prop :=
  match t with
  | Pool c i => 0 <= c < COMPANION_CORE_MAX_CORES /\ 0 <= i < k_task_counter k c /\ i < MAX_NUM_TASKS
  | Idle c => 0 <= c < COMPANION_CORE_MAX_CORES /\ s_tick_count (k_cores k c) <> None
  end.

Definition sync_list (l : lref) : Prop :=
  match l with LMutex _ | LSem _ => True | LReady _ _ | LBlocked _ => False end.

#[export] Instance sync_list_dec l : Decision (sync_list l).
Proof. destruct l; apply _. Defined.

Definition runnable (s : TaskState) : Prop := s = TASK_STATE_READY \/ s = TASK_STATE_RUNNING.

(** The list items of a task agree with its state: ready or running means on
    the ready list of its core and priority and waiting for nothing; blocked
    means waiting for a time, an object or both. *)
Inductive placed (d : dmem) (t : tcb) (r : TaskControlBlock) : Prop :=
  | placed_ready :
      runnable (current_state r) ->
      li_container (items d (NState t)) = Some (LReady (tcb_core t) (priority r)) ->
      li_container (items d (NEvent t)) = None -> placed d t r
  | placed_blocked (cs ce : option lref) :
      current_state r = TASK_STATE_BLOCKED ->
      li_container (items d (NState t)) = cs -> li_container (items d (NEvent t)) = ce ->
      cs = None \/ cs = Some (LBlocked (tcb_core t)) ->
      (forall l, ce = Some l -> sync_list l) ->
      ~ (cs = None /\ ce = None) -> placed d t r.

Lemma placed_state d t r l :
  placed d t r -> li_container (items d (NState t)) = Some l ->
  (runnable (current_state r) /\ l = LReady (tcb_core t) (priority r)) \/
  (current_state r = TASK_STATE_BLOCKED /\ l = LBlocked (tcb_core t)).
Proof.
  intros [Hr Hs _|cs ce Hb Hs _ Hcs _ _] Hl; rewrite Hl in Hs.
  - left. by simplify_eq.
  - right. subst cs. by destruct Hcs; simplify_eq.
Qed.

Lemma placed_event d t r l :
  placed d t r -> li_container (items d (NEvent t)) = Some l ->
  sync_list l /\ current_state r = TASK_STATE_BLOCKED.
Proof.
  intros [Hr _ He|cs ce Hb _ He _ Hce _] Hl; rewrite Hl in He; [done|]. subst ce. auto.
Qed.

Definition unplaced (d : dmem) (t : tcb) : Prop :=
  li_container (items d (NState t)) = None /\ li_container (items d (NEvent t)) = None.

Definition fields_ok (t : tcb) (r : TaskControlBlock) : Prop :=
  core_id r = tcb_core t /\ 0 <= base_priority r <= priority r /\
  priority r < NUM_TASK_PRIORITIES.

Definition wake (g : tcb -> TaskControlBlock) (n : node) : Z := wakeup_time (g (node_tcb n)).
Definition wake_le (g : tcb -> TaskControlBlock) (a b : node) : Prop := wake g a <= wake g b.

Record sinv (ex : list tcb) (alive : tcb -> Prop) (d : dmem) (g : tcb -> TaskControlBlock)
    (cur : Z -> option tcb) (Q : queues) : Prop := {
  si_mem : wf_mem d Q;
  si_valid : forall t, alive t -> valid_tcb t;
  si_fields : forall t, alive t -> fields_ok t (g t);
  si_placed : forall t, alive t -> t ∉ ex -> placed d t (g t);
  si_dead : forall t, ~ alive t -> t ∉ ex -> unplaced d t;
  si_index : forall c p, index_ok d (LReady c p) (Q (LReady c p));
  si_sorted : forall c, StronglySorted (wake_le g) (Q (LBlocked c));
  si_current : forall c t, cur c = Some t -> alive t /\ tcb_core t = c;
  si_running : forall t, alive t -> t ∉ ex -> current_state (g t) = TASK_STATE_RUNNING ->
                 cur (tcb_core t) = Some t;
  si_idle : forall c, alive (Idle c) -> Idle c ∉ ex ->
              current_state (g (Idle c)) <> TASK_STATE_BLOCKED
}.

Lemma StronglySorted_del g n q :
  StronglySorted (wake_le g) q -> StronglySorted (wake_le g) (del n q).
Proof.
  unfold del. induction 1 as [|m q Hs IH Hf]; [constructor|].
  rewrite filter_cons. case_decide; [|done]. constructor; [done|].
  rewrite Forall_forall in Hf |- *. intros x [_ Hx]%list_elem_of_filter. by apply Hf.
Qed.

Lemma sorted_same_wake g g' q :
  (forall n, n ∈ q -> wake g' n = wake g n) ->
  StronglySorted (wake_le g) q -> StronglySorted (wake_le g') q.
Proof.
  intros Hsame Hs. induction Hs as [|y q Hs IH Hf]; constructor.
  - apply IH. intros m Hm. apply Hsame. by right.
  - rewrite Forall_forall in Hf |- *. intros m Hm. unfold wake_le.
    rewrite !Hsame by (by left || by right). by apply Hf.
Qed.

(** The argument checks the scheduler functions open with. *)
Lemma valid_core t : valid_tcb t -> 0 <= tcb_core t < COMPANION_CORE_MAX_CORES.
Proof. destruct t; cbn; tauto. Qed.
Lemma core_guard t : valid_tcb t -> (COMPANION_CORE_MAX_CORES <=? tcb_core t) = false.
Proof. intros Hv%valid_core. apply Z.leb_gt. lia. Qed.
Lemma core_guard_range c : 0 <= c < COMPANION_CORE_MAX_CORES -> (COMPANION_CORE_MAX_CORES <=? c) = false.
Proof. intros. apply Z.leb_gt. lia. Qed.
Lemma args_guard t r : valid_tcb t -> fields_ok t r ->
  (NUM_TASK_PRIORITIES <=? priority r) || (COMPANION_CORE_MAX_CORES <=? tcb_core t) = false.
Proof.
  intros Hv (_ & _ & Hp). rewrite core_guard by done. by rewrite (proj2 (Z.leb_gt _ _) Hp).
Qed.

(** The invariant of a kernel state. *)
Definition sched_inv (ex : list tcb) (k : kstate) (Q : queues) : Prop :=
  sinv ex (live k) (k_dm k) (k_tcbs k) (k_current k) Q.

#[export] Instance live_dec k t : Decision (live k t).
Proof. destruct t; apply _. Defined.

Section sinv.
Context (alive : tcb -> Prop) `{!forall t, Decision (alive t)} (cur : Z -> option tcb).
Implicit Types (d : dmem) (g : tcb -> TaskControlBlock) (Q : queues) (t : tcb).

(** Setting a task apart, and putting it back. *)
Lemma sinv_exempt t ex d g Q : sinv ex alive d g cur Q -> sinv (t :: ex) alive d g cur Q.
Proof.
  intros []. split; auto.
  - intros t' Ha Hne. apply si_placed0; [done|set_solver].
  - intros t' Ha Hne. apply si_dead0; [done|set_solver].
  - intros t' Ha Hne. apply si_running0; [done|set_solver].
  - intros c Ha Hne. apply si_idle0; [done|set_solver].
Qed.

Lemma sinv_admit t ex d g Q :
  sinv (t :: ex) alive d g cur Q -> alive t -> placed d t (g t) ->
  (current_state (g t) = TASK_STATE_RUNNING -> cur (tcb_core t) = Some t) ->
  (forall c, t = Idle c -> current_state (g t) <> TASK_STATE_BLOCKED) ->
  sinv ex alive d g cur Q.
Proof.
  intros [] Ha Hp Hr Hi. split; auto.
  - intros t' Ha' Hne. destruct (decide (t = t')) as [<-|]; [done|].
    apply si_placed0; [done|]. apply not_elem_of_cons; auto.
  - intros t' Ha' Hne. destruct (decide (t = t')) as [<-|]; [done|].
    apply si_dead0; [done|]. apply not_elem_of_cons; auto.
  - intros t' Ha' Hne. destruct (decide (t = t')) as [<-|]; [done|].
    apply si_running0; [done|]. apply not_elem_of_cons; auto.
  - intros c Ha' Hne. destruct (decide (t = Idle c)) as [->|]; [by apply (Hi c)|].
    apply si_idle0; [done|]. apply not_elem_of_cons; auto.
Qed.

(** A change of the lists that touches only items of an exempt task. *)
Lemma sinv_lists t ex d d' g Q Q' :
  sinv (t :: ex) alive d g cur Q -> wf_mem d' Q' ->
  (forall n, node_tcb n <> t -> li_container (items d' n) = li_container (items d n)) ->
  (forall c p, index_ok d' (LReady c p) (Q' (LReady c p))) ->
  (forall c, StronglySorted (wake_le g) (Q' (LBlocked c))) ->
  sinv (t :: ex) alive d' g cur Q'.
Proof.
  intros [] Hwf Hc Hix Hso.
  assert (forall t', t' ∉ t :: ex ->
            li_container (items d' (NState t')) = li_container (items d (NState t')) /\
            li_container (items d' (NEvent t')) = li_container (items d (NEvent t'))) as Hc2
    by (intros t' [Hne _]%not_elem_of_cons; by split; apply Hc).
  split; auto.
  - intros t' Ha Hne. destruct (Hc2 t' Hne) as [H1 H2].
    destruct (si_placed0 t' Ha Hne) as [|cs ce];
      [apply placed_ready|apply (placed_blocked _ _ _ cs ce)]; first [done | congruence].
  - intros t' Ha Hne. destruct (Hc2 t' Hne) as [H1 H2]. unfold unplaced. rewrite H1, H2.
    by apply si_dead0.
Qed.

(** A change of an exempt task's TCB. *)
Lemma sinv_tcb t ex d g Q r :
  sinv (t :: ex) alive d g cur Q -> (alive t -> fields_ok t r) ->
  ((forall c n, n ∈ Q (LBlocked c) -> node_tcb n <> t) \/ wakeup_time r = wakeup_time (g t)) ->
  sinv (t :: ex) alive d (<[t := r]> g) cur Q.
Proof.
  intros [] Hf Hw.
  assert (forall t', t' ∉ t :: ex -> (<[t := r]> g) t' = g t') as Hg
    by (intros t' [Hne _]%not_elem_of_cons; by apply fn_lookup_insert_ne).
  split; auto.
  - intros t' Ha. rewrite fn_insert_lookup. case_decide; [subst; auto|auto].
  - intros t' Ha Hne. rewrite Hg by done. auto.
  - intros c. apply (sorted_same_wake g); [|done]. intros n Hn. unfold wake.
    rewrite fn_insert_lookup. case_decide as Ht; [|done].
    destruct Hw as [Hw|Hw]; [by apply Hw in Hn|congruence].
  - intros t' Ha Hne. rewrite Hg by done. auto.
  - intros c Ha Hne. rewrite Hg by done. auto.
Qed.

(** Unlinking an item of the exempt task from a list without a cursor. *)
Lemma sinv_unlink t ex n l d g Q :
  sinv (t :: ex) alive d g cur Q -> node_tcb n = t -> n ∈ Q l -> (forall c p, l <> LReady c p) ->
  let d' := list_forget l n (list_stitch l n d) in
  sinv (t :: ex) alive d' g cur (<[l := del n (Q l)]> Q) /\
  li_container (items d' n) = None /\
  (forall m, m <> n -> li_container (items d' m) = li_container (items d m)).
Proof.
  intros HI Ht Hn Hl d'. pose proof (si_mem _ _ _ _ _ _ HI) as Hwf.
  pose proof (wf_unlink _ _ _ _ Hwf Hn) as Hwf'.
  assert (forall m, m <> n -> li_container (items d' m) = li_container (items d m)) as Hc.
  { intros m Hm. eapply wf_container_eq; [done..|]. rewrite elem_of_del. naive_solver. }
  split_and!; [|apply unlink_container|done].
  eapply (sinv_lists t ex d); [exact HI|exact Hwf'|..].
  - intros m Hm. apply Hc. congruence.
  - intros c p. rewrite fn_lookup_insert_ne by done.
    eapply index_frame; [|apply (si_index _ _ _ _ _ _ HI)].
    unfold d'. by rewrite forget_index, stitch_index.
  - intros c. rewrite fn_insert_lookup. case_decide as Hd; [|apply (si_sorted _ _ _ _ _ _ HI)].
    apply StronglySorted_del. rewrite Hd. apply (si_sorted _ _ _ _ _ _ HI).
Qed.

(** Taking the exempt task off a ready list. *)
Lemma sinv_remove_ready t ex c p d g Q :
  sinv (t :: ex) alive d g cur Q -> NState t ∈ Q (LReady c p) ->
  let l := LReady c p in
  let d' := list_remove_ready l (NState t) d in
  sinv (t :: ex) alive d' g cur (<[l := del (NState t) (Q l)]> Q) /\
  li_container (items d' (NState t)) = None /\
  (forall m, m <> NState t -> li_container (items d' m) = li_container (items d m)).
Proof.
  intros HI Hn l d'. pose proof (si_mem _ _ _ _ _ _ HI) as Hwf.
  pose proof (wf_remove_ready _ _ _ _ Hwf Hn) as Hwf'.
  assert (forall m, m <> NState t -> li_container (items d' m) = li_container (items d m)) as Hc.
  { intros m Hm. eapply wf_container_eq; [done..|]. rewrite elem_of_del. naive_solver. }
  split_and!; [|apply unlink_container|done].
  eapply (sinv_lists t ex d); [exact HI|exact Hwf'|..].
  - intros m Hm. apply Hc. intros ->. by apply Hm.
  - intros c' p'. rewrite fn_insert_lookup. case_decide as Hd.
    + rewrite <- Hd. apply (index_remove_ready _ Q); [done..|]. apply (si_index _ _ _ _ _ _ HI).
    + eapply index_frame; [|apply (si_index _ _ _ _ _ _ HI)].
      apply remove_ready_index. congruence.
  - intros c'. rewrite fn_lookup_insert_ne by done. apply (si_sorted _ _ _ _ _ _ HI).
Qed.

(** Moving cursors only. *)
Lemma sinv_cursor ex d d' g Q :
  sinv ex alive d g cur Q -> same_links d d' ->
  (forall c p, index_ok d' (LReady c p) (Q (LReady c p))) -> sinv ex alive d' g cur Q.
Proof.
  intros [] Hd Hix. pose proof (same_items _ _ Hd) as Hi. split; auto.
  - by eapply wf_same_links.
  - intros t Ha Hne. destruct (si_placed0 t Ha Hne) as [|cs ce];
      [apply placed_ready|apply (placed_blocked _ _ _ cs ce)]; rewrite ?Hi; done.
  - intros t Ha Hne. unfold unplaced. rewrite !Hi. by apply si_dead0.
Qed.

(** A runnable task stays placed whichever of the two runnable states it is
    in. *)
Lemma sinv_runnable t s d g Q cur' :
  sinv [] alive d g cur Q -> alive t -> runnable (current_state (g t)) -> runnable s ->
  (forall c u, cur' c = Some u -> alive u /\ tcb_core u = c) ->
  (forall u, alive u -> u <> t -> current_state (g u) = TASK_STATE_RUNNING ->
     cur' (tcb_core u) = Some u) ->
  (s = TASK_STATE_RUNNING -> cur' (tcb_core t) = Some t) ->
  sinv [] alive d (<[t := (g t) <| current_state := s |>]> g) cur' Q.
Proof.
  intros [] Ha Hr Hs Hcur Hrun Ht.
  assert (forall u, u <> t -> (<[t := (g t) <| current_state := s |>]> g) u = g u) as Hg
    by (intros u Hu; by apply fn_lookup_insert_ne).
  split; auto.
  - intros u Hu. rewrite fn_insert_lookup. case_decide; subst; [by apply (si_fields0 u)|auto].
  - intros u Hu Hne. destruct (decide (u = t)) as [->|]; [|rewrite Hg by done; auto].
    rewrite fn_lookup_insert. destruct (si_placed0 t Ha Hne) as [|cs ce Hb]; [by apply placed_ready|].
    rewrite Hb in Hr. by destruct Hr.
  - intros c. apply (sorted_same_wake g); [|done]. intros n Hn. unfold wake.
    rewrite fn_insert_lookup. case_decide as He; [|done]. by rewrite <- He.
  - intros u Hu Hne. destruct (decide (u = t)) as [->|]; [by rewrite fn_lookup_insert|].
    rewrite Hg by done. by apply Hrun.
  - intros c Hu Hne. destruct (decide (Idle c = t)) as [<-|]; [|rewrite Hg by done; auto].
    rewrite fn_lookup_insert. cbn. by destruct Hs as [->| ->].
Qed.

(** Membership of a list, read back through the placement. *)
Lemma member_alive ex d g Q l n :
  sinv ex alive d g cur Q -> n ∈ Q l -> node_tcb n ∉ ex ->
  alive (node_tcb n) /\ placed d (node_tcb n) (g (node_tcb n)).
Proof.
  intros HI Hn Hne. pose proof (wf_container_some _ _ _ _ (si_mem _ _ _ _ _ _ HI) Hn) as Hc.
  destruct (decide (alive (node_tcb n))) as [Ha|Ha].
  - split; [done|]. by apply (si_placed _ _ _ _ _ _ HI).
  - destruct (si_dead _ _ _ _ _ _ HI _ Ha Hne) as [H1 H2].
    destruct n; cbn in *; congruence.
Qed.

Lemma member_ready ex d g Q c p n :
  sinv ex alive d g cur Q -> n ∈ Q (LReady c p) -> node_tcb n ∉ ex ->
  exists t, n = NState t /\ alive t /\ tcb_core t = c /\ priority (g t) = p /\
            runnable (current_state (g t)).
Proof.
  intros HI Hn Hne. pose proof (wf_container_some _ _ _ _ (si_mem _ _ _ _ _ _ HI) Hn) as Hc.
  destruct (member_alive _ _ _ _ _ _ HI Hn Hne) as [Ha Hp]. exists (node_tcb n).
  destruct n as [t|t]; cbn in *.
  - destruct (placed_state _ _ _ _ Hp Hc) as [[Hr ?]|[_ ?]]; by simplify_eq.
  - by destruct (placed_event _ _ _ _ Hp Hc).
Qed.

Lemma member_blocked ex d g Q c n :
  sinv ex alive d g cur Q -> n ∈ Q (LBlocked c) -> node_tcb n ∉ ex ->
  exists t, n = NState t /\ alive t /\ tcb_core t = c /\
            current_state (g t) = TASK_STATE_BLOCKED.
Proof.
  intros HI Hn Hne. pose proof (wf_container_some _ _ _ _ (si_mem _ _ _ _ _ _ HI) Hn) as Hc.
  destruct (member_alive _ _ _ _ _ _ HI Hn Hne) as [Ha Hp]. exists (node_tcb n).
  destruct n as [t|t]; cbn in *.
  - destruct (placed_state _ _ _ _ Hp Hc) as [[_ ?]|[Hs ?]]; by simplify_eq.
  - by destruct (placed_event _ _ _ _ Hp Hc).
Qed.

Lemma member_sync ex d g Q l n :
  sinv ex alive d g cur Q -> sync_list l -> n ∈ Q l -> node_tcb n ∉ ex ->
  exists t, n = NEvent t /\ alive t /\ current_state (g t) = TASK_STATE_BLOCKED.
Proof.
  intros HI Hl Hn Hne. pose proof (wf_container_some _ _ _ _ (si_mem _ _ _ _ _ _ HI) Hn) as Hc.
  destruct (member_alive _ _ _ _ _ _ HI Hn Hne) as [Ha Hp]. exists (node_tcb n).
  destruct n as [t|t]; cbn in *.
  - by destruct (placed_state _ _ _ _ Hp Hc) as [[_ ->]|[_ ->]].
  - destruct (placed_event _ _ _ _ Hp Hc) as [_ Hs]. done.
Qed.
End sinv.

Section creation.
Context (alive alive' : tcb -> Prop) (cur : Z -> option tcb) (t : tcb).
Context (Ht : ~ alive t) (Ht' : alive' t) (Hsame : forall u, u <> t -> alive' u <-> alive u).

(** A new task, seen as set apart. *)
Lemma sinv_create ex d g r Q :
  sinv ex alive d g cur Q -> t ∉ ex -> valid_tcb t -> fields_ok t r ->
  sinv (t :: ex) alive' d (<[t := r]> g) cur Q.
Proof.
  intros HI Hnin Hv Hf. pose proof HI as [].
  assert (forall u, u ∉ t :: ex -> u <> t /\ u ∉ ex) as Hex by (intros u [? ?]%not_elem_of_cons; done).
  assert (forall c u, cur c = Some u -> u <> t) as Hcur
    by (intros c u Hc ->; by apply Ht, (si_current0 c)).
  split; auto.
  - intros u Hu. destruct (decide (u = t)) as [->|Hne]; [done|]. by apply si_valid0, Hsame.
  - intros u Hu. destruct (decide (u = t)) as [->|Hne]; [by rewrite fn_lookup_insert|].
    rewrite fn_lookup_insert_ne by done. by apply si_fields0, Hsame.
  - intros u Hu [Hne Hu']%Hex. rewrite fn_lookup_insert_ne by done.
    apply si_placed0; [by apply Hsame|done].
  - intros u Hu [Hne Hu']%Hex. apply si_dead0; [by rewrite <- Hsame|done].
  - intros c. apply (sorted_same_wake g); [|done]. intros n Hn. unfold wake.
    rewrite fn_lookup_insert_ne; [done|]. intros He.
    pose proof (wf_container_some _ _ _ _ si_mem0 Hn) as Hc.
    destruct (si_dead0 t Ht Hnin) as [H1 H2]. destruct n; cbn in He; subst; congruence.
  - intros c u Hc. destruct (si_current0 c u Hc). split; [|done]. apply Hsame; [by eapply Hcur|done].
  - intros u Hu [Hne Hu']%Hex. rewrite fn_lookup_insert_ne by done.
    apply si_running0; [by apply Hsame|done].
  - intros c Hu [Hne Hu']%Hex. rewrite fn_lookup_insert_ne by done.
    apply si_idle0; [by apply Hsame|done].
Qed.
End creation.

Lemma sinv_reset ex alive d g cur Q l :
  sinv ex alive d g cur Q -> Q l = [] -> sinv ex alive (reset_list l d) g cur Q.
Proof.
  intros [] Hq.
  assert (forall n, items (reset_list l d) n = items d n) as Hi
    by (intros n; apply items_set_list).
  split; auto.
  - by apply wf_reset.
  - intros t Ha Hne. destruct (si_placed0 t Ha Hne) as [|cs ce];
      [apply placed_ready|apply (placed_blocked _ _ _ cs ce)]; rewrite ?Hi; done.
  - intros c p. unfold index_ok, reset_list. rewrite lists_set_list.
    case_decide as Hl; [by rewrite <- Hl|]. apply si_index0.
Qed.

Lemma sinv_set_item t ex alive d g cur Q n it :
  sinv (t :: ex) alive d g cur Q -> node_tcb n = t -> li_container (items d n) = None ->
  li_container it = None -> sinv (t :: ex) alive (set_item n (fun _ => it) d) g cur Q.
Proof.
  intros HI Hn Hc Hit. eapply sinv_lists; [exact HI|apply wf_set_free; [apply HI|done..]|..].
  - intros m Hm. rewrite items_set_item, decide_False; [done|]. congruence.
  - intros c p. eapply index_frame; [by rewrite lists_set_item|apply HI].
  - apply HI.
Qed.
