(* ===== verification/Scheduler.v ===== *)
(** * Scheduler (source/kernel/scheduler/scheduler.c)

    Every function of the file.  The two weak symbols it calls are the
    methods of the class [Hooks]; [weak_hooks] is the pair of no-op
    definitions the file itself gives.  A function that ends in a spin
    ([while (tcb->current_state == TASK_STATE_BLOCKED) {}]) is split there:
    its definition runs up to the spin, and what follows the spin is a
    definition of its own. *)

From S2P Require Import Prelude Types Dll Telemetry Kernel Stack Invariant.

Class Hooks := {
  software_timer_tick : Z -> Z -> K unit;        (* core, now_tick *)
  dfu_trigger_task_start : Z -> K StatusCode
}.

Definition weak_hooks : Hooks := {|
  software_timer_tick := fun _ _ => mret tt;
  dfu_trigger_task_start := fun _ => mret E_OK
|}.

(** ** Locks and reads *)

Definition scheduler_lock (core_id : Z) : K unit :=
  if core_ok core_id then spinlock_acquire (LkSched core_id) else stop Fault.
Definition scheduler_unlock (core_id : Z) : K unit :=
  if core_ok core_id then spinlock_release (LkSched core_id) else stop Fault.

Definition scheduler_get_current_task (me : Z) : K (option tcb) := gets (fun k => k_current k me).

Definition scheduler_get_tick_count (me : Z) : K Z :=
  p ← gets (fun k => s_tick_count (k_cores k me)); deref p.

(** ** Ready lists *)

(** [tcb] is the value of the [TaskControlBlock *] that the argument points
    at; [None] is NULL. *)
Definition scheduler_add_to_ready_list (tcb : option tcb) : K StatusCode :=
  match tcb with
  | None => mret E_INVALID_ARGS
  | Some t =>
      p ← gets (fun k => priority (k_tcbs k t));
      c ← gets (fun k => core_id (k_tcbs k t));
      if (NUM_TASK_PRIORITIES <=? p) || (COMPANION_CORE_MAX_CORES <=? c) then mret E_INVALID_ARGS else
      on_dm (list_push_back true (LReady c p) (NState t) t);;
      upd_tcb t (fun r => r <| current_state := TASK_STATE_READY |>);;
      mret E_OK
  end.

Definition scheduler_remove_from_ready_list (tcb : option tcb) : K StatusCode :=
  match tcb with
  | None => mret E_INVALID_ARGS
  | Some t =>
      p ← gets (fun k => priority (k_tcbs k t));
      c ← gets (fun k => core_id (k_tcbs k t));
      if (NUM_TASK_PRIORITIES <=? p) || (COMPANION_CORE_MAX_CORES <=? c) then mret E_INVALID_ARGS else
      list ← gets (fun k => li_container (items (k_dm k) (NState t)));
      if decide (list = Some (LReady c p))
      then on_dm (list_remove_ready (LReady c p) (NState t));; mret E_OK
      else mret E_INVALID_ARGS
  end.

(** ** Blocked lists *)

(** [iter->owner->wakeup_time] *)
Definition owner_wakeup (n : node) : K Z :=
  o ← gets (fun k => li_owner (items (k_dm k) n));
  t ← deref o;
  gets (fun k => wakeup_time (k_tcbs k t)).

(** [while (iter->next != NULL && iter->next->owner->wakeup_time <= wakeup_time)
     iter = iter->next;] *)
Fixpoint blocked_walk (fuel : nat) (wakeup : Z) (iter : node) : K node :=
  match fuel with
  | O => stop NoFuel
  | S fuel' =>
      nx ← gets (fun k => li_next (items (k_dm k) iter));
      match nx with
      | None => mret iter
      | Some x =>
          w ← owner_wakeup x;
          if w <=? wakeup then blocked_walk fuel' wakeup x else mret iter
      end
  end.

(** Enough for any list: there are at most 136 list items in the system. *)
Definition list_fuel : nat := 137.

Definition scheduler_add_to_blocked_list (tcb : option tcb) (wakeup : Z) : K StatusCode :=
  match tcb with
  | None => mret E_INVALID_ARGS
  | Some t =>
      c ← gets (fun k => core_id (k_tcbs k t));
      if COMPANION_CORE_MAX_CORES <=? c then mret E_INVALID_ARGS else
      let l := LBlocked c in
      let item := NState t in
      upd_tcb t (fun r => r <| wakeup_time := wakeup |>);;
      on_dm (list_adopt l item t);;
      hd ← gets (fun k => l_head (lists (k_dm k) l));
      match hd with
      | None => on_dm (list_put_only l item)
      | Some h =>
          w ← owner_wakeup h;
          if wakeup <=? w
          then on_dm (list_put_first l item h)
          else iter ← blocked_walk list_fuel wakeup h; on_dm (list_put_after l item iter)
      end;;
      on_dm (list_count l);;
      mret E_OK
  end.

Definition scheduler_remove_from_blocked_list (tcb : option tcb) : K StatusCode :=
  match tcb with
  | None => mret E_INVALID_ARGS
  | Some t =>
      c ← gets (fun k => core_id (k_tcbs k t));
      if COMPANION_CORE_MAX_CORES <=? c then mret E_INVALID_ARGS else
      list ← gets (fun k => li_container (items (k_dm k) (NState t)));
      if decide (list = Some (LBlocked c))
      then on_dm (list_stitch (LBlocked c) (NState t));;
           on_dm (list_forget (LBlocked c) (NState t));; mret E_OK
      else mret E_OK
  end.

(** ** Priority change *)

Definition scheduler_change_task_priority (t : tcb) (new_priority : Z) : K unit :=
  saved_state ← gets (fun k => current_state (k_tcbs k t));
  let in_ready := bool_decide (saved_state = TASK_STATE_READY) ||
                  bool_decide (saved_state = TASK_STATE_RUNNING) in
  when in_ready (
    list ← gets (fun k => li_container (items (k_dm k) (NState t)));
    match list with
    | Some l => on_dm (list_remove_ready l (NState t))
    | None => mret tt
    end);;
  upd_tcb t (fun r => r <| priority := new_priority |>);;
  when in_ready (
    scheduler_add_to_ready_list (Some t);;
    upd_tcb t (fun r => r <| current_state := saved_state |>)).

(** ** Context switch *)

(** The stack watermark check: an endless loop when the lowest word of the
    current task's stack has been overwritten. *)
Definition stack_watermark_check (current : option tcb) : K unit :=
  match current with
  | None => mret tt
  | Some t =>
      base ← gets (fun k => stack_base (k_tcbs k t));
      match base with
      | None => mret tt
      | Some p => w ← stack_load p; if w =? TASK_WATERMARK then mret tt else stop Hang
      end
  end.

(** The preempted task becomes READY again and its list's round-robin cursor
    moves on. *)
Definition switch_requeue (me : Z) (current : option tcb) : K unit :=
  match current with
  | None => mret tt
  | Some t =>
      s ← gets (fun k => current_state (k_tcbs k t));
      p ← gets (fun k => priority (k_tcbs k t));
      when (bool_decide (s = TASK_STATE_RUNNING) && (p <? NUM_TASK_PRIORITIES)) (
        upd_tcb t (fun r => r <| current_state := TASK_STATE_READY |>);;
        on_dm (list_advance_index (LReady me p)))
  end.

(** [for (int i = NUM_TASK_PRIORITIES - 1; i >= 0; i--)], counting [n = i + 1]
    down: pick the cursor of the highest non-empty list. *)
Fixpoint switch_pick (me : Z) (n : nat) : K unit :=
  match n with
  | O =>
      modify (fun k => k <| k_current ::= fun f => <[me := None]> f |>);;
      scheduler_unlock me
  | S n' =>
      let l := LReady me (Z.of_nat n') in
      num ← gets (fun k => num_items (lists (k_dm k) l));
      if 0 <? num then
        ix ← gets (fun k => l_index (lists (k_dm k) l));
        i ← deref ix;
        ow ← gets (fun k => li_owner (items (k_dm k) i));
        t ← deref ow;
        upd_tcb t (fun r => r <| current_state := TASK_STATE_RUNNING |>);;
        modify (fun k => k <| k_current ::= fun f => <[me := Some t]> f |>);;
        id ← gets (fun k => task_id (k_tcbs k t));
        tel (telemetry_report_tick_state me id (task_state_code TASK_STATE_RUNNING));;
        scheduler_unlock me
      else switch_pick me n'
  end.

Definition scheduler_switch_context (me : Z) : K unit :=
  current ← gets (fun k => k_current k me);
  stack_watermark_check current;;
  scheduler_lock me;;
  switch_requeue me current;;
  switch_pick me (Z.to_nat NUM_TASK_PRIORITIES).

(** [start_first_task()] does not come back: it is the assembly
    (startup/startup.s) that pops the first task's frame, thirteen registers
    and LR, and returns to the PC stored behind them. *)
Definition start_first_task (me : Z) : K StatusCode :=
  current ← gets (fun k => k_current k me);
  t ← deref current;
  sp ← gets (fun k => current_sp (k_tcbs k t));
  p ← deref sp;
  pc ← stack_load (sptr_add p 14);
  stop (Jump pc).

Definition scheduler_start (me : Z) : K StatusCode :=
  scheduler_switch_context me;;
  current ← gets (fun k => k_current k me);
  match current with
  | None => mret E_EMPTY
  | Some _ =>
      tel (telemetry_report_boot_milestone BOOT_MS_SCHEDULER_START BOOT_STAGE_APP me);;
      start_first_task me
  end.

(** ** Delays *)

(** Up to the spin on [my_tcb->current_state]; the task that spins is the
    result. *)
Definition block_until (me wakeup : Z) : K (option tcb) :=
  my_tcb ← gets (fun k => k_current k me);
  cpsr ← enter_critical me;
  scheduler_lock me;;
  scheduler_remove_from_ready_list my_tcb;;
  scheduler_add_to_blocked_list my_tcb wakeup;;
  t ← deref my_tcb;
  upd_tcb t (fun r => r <| current_state := TASK_STATE_BLOCKED |>);;
  id ← gets (fun k => task_id (k_tcbs k t));
  tel (telemetry_report_task_blocked id me SYNC_KIND_NONE 0);;
  scheduler_unlock me;;
  exit_critical me cpsr;;
  mret my_tcb.

Definition task_delay_ms (me ticks : Z) : K (option tcb) :=
  now ← scheduler_get_tick_count me;
  block_until me (u64 (now + ticks)).

(** [*last_wake_time] is [last]; after the spin it becomes
    [task_delay_until_done last period]. *)
Definition task_delay_until_ms (me last period : Z) : K (option tcb) :=
  let next_wake := u64 (last + period) in
  now ← scheduler_get_tick_count me;
  when (next_wake <? now)
    (console Messages.task_overrun [u32 (now - next_wake); u32 period]);;
  block_until me next_wake.
Definition task_delay_until_done (last period : Z) : Z := u64 (last + period).

(** ** Tick *)

(** If the task was also waiting on a mutex or semaphore, unlink it there. *)
Definition tick_unlink_event (t : tcb) : K unit :=
  c ← gets (fun k => li_container (items (k_dm k) (NEvent t)));
  match c with
  | Some l => on_dm (list_stitch l (NEvent t));; on_dm (list_forget l (NEvent t))
  | None => mret tt
  end.

(** [while (blocked head != NULL && *s_tick_count >= head->owner->wakeup_time)] *)
Fixpoint tick_wake (fuel : nat) (me : Z) : K unit :=
  match fuel with
  | O => stop NoFuel
  | S fuel' =>
      hd ← gets (fun k => l_head (lists (k_dm k) (LBlocked me)));
      match hd with
      | None => mret tt
      | Some h =>
          now ← scheduler_get_tick_count me;
          w ← owner_wakeup h;
          if w <=? now then
            ow ← gets (fun k => li_owner (items (k_dm k) h));
            t ← deref ow;
            scheduler_remove_from_blocked_list (Some t);;
            tick_unlink_event t;;
            scheduler_add_to_ready_list (Some t);;
            id ← gets (fun k => task_id (k_tcbs k t));
            c ← gets (fun k => core_id (k_tcbs k t));
            tel (telemetry_report_task_unblocked id c);;
            tick_wake fuel' me
          else mret tt
      end
  end.

(** [cntpct] is the physical counter the handler reads. *)
Definition timer_tick_handler `{Hooks} (me cntpct : Z) : K unit :=
  clk ← gets (fun k => s_clk_freq (k_cores k me));
  freq ← deref clk;
  h ← gets (fun k => hz (k_cores k me));
  if h =? 0 then stop Fault else
  modify (fun k => k <| k_cval ::= fun f => <[me := u64 (cntpct + freq / h)]> f |>);;
  now ← scheduler_get_tick_count me;
  upd_core me (fun r => r <| s_tick_count := Some (u64 (now + 1)) |>);;
  scheduler_lock me;;
  tick_wake list_fuel me;;
  scheduler_unlock me;;
  if me =? 0 then now' ← scheduler_get_tick_count me; software_timer_tick me now' else mret tt.

(** ** Initialisation *)

(** "idle" *)
Definition idle_name : option (list Z) := Some [0x69; 0x64; 0x6C; 0x65].

(** [idle_task_func] is the address of the idle loop. *)
Definition scheduler_init `{Hooks} (idle_task_func : Z) (core_id : Z) (p_clk_freq : option Z)
    (new_hz : Z) (p_tick_count : option Z) : K StatusCode :=
  if bool_decide (p_clk_freq = None) || bool_decide (p_tick_count = None) ||
     (COMPANION_CORE_MAX_CORES <=? core_id) then mret E_INVALID_ARGS else
  let idle := Idle core_id in
  spinlock_init (LkSched core_id);;
  upd_core core_id (fun r => r <| s_clk_freq := p_clk_freq |> <| hz := new_hz |>
                               <| s_tick_count := Some 0 |>);;
  for_ (Z.to_nat NUM_TASK_PRIORITIES) 0 (fun i => on_dm (reset_list (LReady core_id i)));;
  on_dm (reset_list (LBlocked core_id));;
  for_ (Z.to_nat IDLE_STACK_DEPTH) 0 (fun i => stack_store (IdlePtr core_id i) TASK_WATERMARK);;
  top ← init_frame (IdlePtr core_id (IDLE_STACK_DEPTH - 1)) idle_task_func 0 0;
  upd_tcb idle (fun _ => mkTCB (Some top) (Some (IdlePtr core_id (IDLE_STACK_DEPTH - 1)))
    (Some (IdlePtr core_id 0)) IDLE_STACK_DEPTH 0xFFFF core_id TASK_STATE_READY
    TASK_PRIORITY_IDLE 0 WAKEUP_REASON_NONE TASK_PRIORITY_IDLE 0);;
  on_dm (set_item (NState idle) (fun _ => mkListItem None None (Some idle) None));;
  on_dm (set_item (NEvent idle) (fun _ => mkListItem None None (Some idle) None));;
  cpsr ← enter_critical core_id;
  tel (telemetry_report_task_created 0xFFFF core_id TASK_PRIORITY_IDLE idle_name);;
  exit_critical core_id cpsr;;
  scheduler_lock core_id;;
  scheduler_add_to_ready_list (Some idle);;
  scheduler_unlock core_id;;
  dfu_ret ← (if core_id =? 0 then dfu_trigger_task_start core_id else mret E_OK);
  if decide (dfu_ret = E_OK)
  then tel (telemetry_report_boot_milestone BOOT_MS_SCHEDULER_INIT_DONE BOOT_STAGE_APP core_id);;
       mret E_OK
  else mret dfu_ret.

(** ** Ready lists: functional behaviour *)

Definition ready_add (t : tcb) (k : kstate) : kstate :=
  k <| k_dm ::= list_push_back true (LReady (tcb_core t) (priority (k_tcbs k t))) (NState t) t |>
    <| k_tcbs ::= fun g => <[t := (g t) <| current_state := TASK_STATE_READY |>]> g |>.

Lemma add_to_ready_eq (t : tcb) (k : kstate) :
  valid_tcb t -> fields_ok t (k_tcbs k t) ->
  scheduler_add_to_ready_list (Some t) k = Ret E_OK (ready_add t k).
Proof.
  intros Hv Hf. pose proof Hf as (Hc & _ & _). unfold scheduler_add_to_ready_list.
  unfold_K. by rewrite Hc, args_guard.
Qed.

Lemma ready_add_inv (t : tcb) ex (k : kstate) (Q : queues) :
  let l := LReady (tcb_core t) (priority (k_tcbs k t)) in
  sched_inv (t :: ex) k Q -> live k t -> unplaced (k_dm k) t ->
  sched_inv (t :: ex) (ready_add t k) (<[l := Q l ++ [NState t]]> Q) /\
  placed (k_dm (ready_add t k)) t (k_tcbs (ready_add t k) t).
Proof.
  intros l HI Ha [Hus Hue]. pose proof (si_mem _ _ _ _ _ _ HI) as Hwf.
  pose proof (si_valid _ _ _ _ _ _ HI t Ha) as Hv.
  pose proof (wf_push_back true _ _ l (NState t) Hwf Hus Hv) as Hwf'.
  assert (forall n, n <> NState t -> li_container (items (list_push_back true l (NState t) t (k_dm k)) n)
            = li_container (items (k_dm k) n)) as Hcont.
  { intros n Hn. eapply wf_container_eq; [done..|]. rewrite elem_of_app, list_elem_of_singleton.
    naive_solver. }
  split.
  - change (sched_inv (t :: ex) (ready_add t k)) with
      (sinv (t :: ex) (live k) (list_push_back true l (NState t) t (k_dm k))
         (<[t := (k_tcbs k t) <| current_state := TASK_STATE_READY |>]> (k_tcbs k)) (k_current k)).
    apply sinv_tcb.
    + apply (sinv_lists _ _ t ex (k_dm k) _ _ Q); [done|done|..].
      * intros n Hn. apply Hcont. by intros ->.
      * intros c p. rewrite fn_insert_lookup. case_decide as Hl.
        -- rewrite <- Hl. apply (index_push_back _ Q); [done|]. apply (si_index _ _ _ _ _ _ HI).
        -- eapply index_frame; [|apply (si_index _ _ _ _ _ _ HI)].
           rewrite push_back_index, decide_False; [done|]. by intros [-> _].
      * intros c. rewrite fn_lookup_insert_ne by done. apply (si_sorted _ _ _ _ _ _ HI).
    + intros _. exact (si_fields _ _ _ _ _ _ HI t Ha).
    + by right.
  - cbn -[list_push_back]. rewrite fn_lookup_insert. apply placed_ready; cbn -[list_push_back].
    + by left.
    + apply (wf_container_some _ _ _ _ Hwf'). rewrite fn_lookup_insert. apply elem_of_app.
      right. by apply list_elem_of_singleton.
    + by rewrite Hcont.
Qed.

Definition ready_remove (t : tcb) (k : kstate) : kstate :=
  k <| k_dm ::= list_remove_ready (LReady (tcb_core t) (priority (k_tcbs k t))) (NState t) |>.

Lemma remove_from_ready_eq (t : tcb) (k : kstate) :
  valid_tcb t -> fields_ok t (k_tcbs k t) ->
  li_container (items (k_dm k) (NState t)) = Some (LReady (tcb_core t) (priority (k_tcbs k t))) ->
  scheduler_remove_from_ready_list (Some t) k = Ret E_OK (ready_remove t k).
Proof.
  intros Hv Hf Hl. pose proof Hf as (Hc & _ & _). unfold scheduler_remove_from_ready_list.
  unfold_K. rewrite Hc, args_guard by done. by rewrite Hl, decide_True.
Qed.

(** A task that is on no ready list of its own is left alone. *)
Lemma remove_from_ready_absent (t : tcb) (k : kstate) :
  valid_tcb t -> fields_ok t (k_tcbs k t) ->
  li_container (items (k_dm k) (NState t)) <> Some (LReady (tcb_core t) (priority (k_tcbs k t))) ->
  scheduler_remove_from_ready_list (Some t) k = Ret E_INVALID_ARGS k.
Proof.
  intros Hv Hf Hl. pose proof Hf as (Hc & _ & _). unfold scheduler_remove_from_ready_list.
  unfold_K. rewrite Hc, args_guard by done. by rewrite decide_False.
Qed.

(** ** Blocked lists: functional behaviour *)

(** Where the code links an item with wakeup time [w]: in front when nothing
    on the list is due earlier, otherwise behind the last item of the prefix
    that is not due later. *)
Fixpoint insert_after (wk : node -> Z) (w : Z) (n : node) (q : list node) : list node :=
  match q with
  | [] => [n]
  | x :: q' => if wk x <=? w then x :: insert_after wk w n q' else n :: q
  end.
Definition blocked_insert (wk : node -> Z) (w : Z) (n : node) (q : list node) : list node :=
  match q with
  | [] => [n]
  | h :: q' => if w <=? wk h then n :: q else h :: insert_after wk w n q'
  end.

Lemma elem_of_insert_after wk w n q m : m ∈ insert_after wk w n q <-> m = n \/ m ∈ q.
Proof.
  induction q as [|x q IH]; cbn; [by rewrite list_elem_of_singleton, elem_of_nil; tauto|].
  case_match; rewrite ?elem_of_cons, ?IH, ?elem_of_cons; tauto.
Qed.

Lemma elem_of_blocked_insert wk w n q m : m ∈ blocked_insert wk w n q <-> m = n \/ m ∈ q.
Proof.
  destruct q as [|h q]; cbn; [by rewrite list_elem_of_singleton, elem_of_nil; tauto|].
  case_match; rewrite ?elem_of_cons, ?elem_of_insert_after, ?elem_of_cons; tauto.
Qed.

Lemma insert_after_ext wk wk' w n q :
  (forall m, m ∈ q -> wk' m = wk m) -> insert_after wk w n q = insert_after wk' w n q.
Proof.
  induction q as [|x q IH]; intros Hsame; [done|]. cbn. rewrite Hsame by (by left).
  rewrite IH; [done|]. intros m Hm. apply Hsame. by right.
Qed.

Section insert_sorted.
Context (g g' : tcb -> TaskControlBlock) (n : node).
Let w := wake g' n.

Lemma insert_after_sorted h q :
  (forall m, m ∈ h :: q -> wake g' m = wake g m) -> wake g h <= w ->
  StronglySorted (wake_le g) (h :: q) ->
  StronglySorted (wake_le g') (h :: insert_after (wake g) w n q).
Proof.
  intros Hsame. revert h Hsame. induction q as [|x q IH]; intros h Hsame Hh Hs.
  - cbn. repeat constructor. unfold wake_le. rewrite Hsame by (by left). unfold w in *. lia.
  - inversion Hs as [|?? Hs' Hf]; subst. inversion Hf as [|?? Hx Hf']; subst.
    assert (forall m, m ∈ x :: q -> wake g' m = wake g m) as Hsame'
      by (intros m Hm; apply Hsame; by right).
    assert (wake g' h = wake g h) as Hgh by (apply Hsame; by left).
    assert (forall m, m ∈ x :: q -> wake_le g' h m) as Hall.
    { intros m Hm. rewrite Forall_forall in Hf. unfold wake_le. rewrite Hgh, (Hsame' m) by done.
      by apply Hf. }
    cbn. case_match eqn:Hxw.
    + apply Z.leb_le in Hxw. constructor; [by apply IH|].
      rewrite Forall_forall. intros m [->|Hm]%elem_of_cons; [apply Hall; by left|].
      apply elem_of_insert_after in Hm as [->|Hm]; [unfold wake_le, w in *; lia|].
      apply Hall. by right.
    + apply Z.leb_gt in Hxw.
      pose proof (sorted_same_wake _ _ _ Hsame' Hs') as Hs''.
      constructor; [constructor; [done|]|].
      * rewrite Forall_forall. intros m Hm. unfold wake_le. rewrite (Hsame' m) by done.
        apply elem_of_cons in Hm as [->|Hm]; [unfold w in *; lia|].
        inversion Hs' as [|?? _ Hf'']; subst. rewrite Forall_forall in Hf''.
        pose proof (Hf'' m Hm). unfold wake_le, w in *. lia.
      * rewrite Forall_forall. intros m [->|Hm]%elem_of_cons; [unfold wake_le, w in *; lia|by apply Hall].
Qed.

Lemma blocked_insert_sorted q :
  (forall m, m ∈ q -> wake g' m = wake g m) -> StronglySorted (wake_le g) q ->
  StronglySorted (wake_le g') (blocked_insert (wake g) w n q).
Proof.
  intros Hsame Hs. destruct q as [|h q]; cbn; [repeat constructor|].
  case_match eqn:Hw.
  - apply Z.leb_le in Hw. pose proof (sorted_same_wake _ _ _ Hsame Hs) as Hs'.
    constructor; [done|]. rewrite Forall_forall. intros m Hm. unfold wake_le.
    rewrite (Hsame m) by done. apply elem_of_cons in Hm as [->|Hm]; [unfold w in *; lia|].
    inversion Hs as [|?? _ Hf]; subst. rewrite Forall_forall in Hf.
    pose proof (Hf m Hm). unfold wake_le, w in *. lia.
  - apply Z.leb_gt in Hw. apply insert_after_sorted; [done|lia|done].
Qed.
End insert_sorted.

Lemma owner_wakeup_eq (n : node) (k : kstate) :
  li_owner (items (k_dm k) n) = Some (node_tcb n) ->
  owner_wakeup n k = Ret (wake (k_tcbs k) n) k.
Proof. intros Ho. unfold owner_wakeup. unfold_K. by rewrite Ho. Qed.

(** The walk stops behind the prefix that is not due later. *)
Lemma blocked_walk_eq (fuel : nat) (w : Z) (n iter : node) (q : list node) (k : kstate) p :
  dseg (k_dm k) p (iter :: q) None ->
  (forall m, m ∈ q -> li_owner (items (k_dm k) m) = Some (node_tcb m)) ->
  (length q < fuel)%nat ->
  exists a b, q = a ++ b /\ blocked_walk fuel w iter k = Ret (default iter (last a)) k /\
              insert_after (wake (k_tcbs k)) w n q = a ++ n :: b.
Proof.
  revert iter q p. induction fuel as [|fuel IH]; intros iter q p Hs Ho Hf; [lia|].
  destruct Hs as (_ & Hnx & Hs). cbn [blocked_walk]. unfold_K. rewrite Hnx.
  destruct q as [|x q]; cbn [head or_else].
  - by exists [], [].
  - cbn [insert_after]. rewrite owner_wakeup_eq by (apply Ho; by left).
    destruct (wake (k_tcbs k) x <=? w) eqn:Hw; [|by exists [], (x :: q)].
    destruct (IH x q (Some iter) Hs) as (a & b & -> & Hr & Hi).
    { intros m Hm. apply Ho. by right. }
    { cbn in Hf. lia. }
    exists (x :: a), b. split_and!; [done| |by rewrite Hi].
    rewrite Hr. by rewrite last_cons; destruct (last a).
Qed.

Definition blocked_at (t : tcb) (w : Z) (d' : dmem) (k : kstate) : kstate :=
  k <| k_dm := d' |> <| k_tcbs ::= fun g => <[t := (g t) <| wakeup_time := w |>]> g |>.

Section blocked_add.
Context (t : tcb) (w : Z) (k : kstate) (Q : queues).
Let l := LBlocked (tcb_core t).
Let q' := blocked_insert (wake (k_tcbs k)) w (NState t) (Q l).
Context (Hwf : wf_mem (k_dm k) Q) (Hv : valid_tcb t).
Context (Hcore : core_id (k_tcbs k t) = tcb_core t).
Context (Hc : li_container (items (k_dm k) (NState t)) = None).
Context (Hother : forall n, n ∈ Q l -> node_tcb n <> t).

(** The pointer code links the item where [blocked_insert] puts it. *)
Lemma add_to_blocked_links :
  exists d', scheduler_add_to_blocked_list (Some t) w k = Ret E_OK (blocked_at t w d' k) /\
    wf_mem d' (<[l := q']> Q) /\ (forall m, l_index (lists d' m) = l_index (lists (k_dm k) m)).
Proof.
  pose proof (Hwf l) as Hrep.
  assert (forall n, n ∈ Q l -> items (list_adopt l (NState t) t (k_dm k)) n = items (k_dm k) n) as Hsame.
  { intros n Hn. unfold list_adopt. rewrite items_set_item, decide_False; [done|].
    intros <-. by apply (Hother _ Hn). }
  set (k1 := k <| k_tcbs ::= fun g => <[t := (g t) <| wakeup_time := w |>]> g |>
               <| k_dm ::= list_adopt l (NState t) t |>).
  assert (forall n, n ∈ Q l -> owner_wakeup n k1 = Ret (wake (k_tcbs k) n) k1) as Hown.
  { intros n Hn. rewrite owner_wakeup_eq.
    - f_equal. unfold wake. subst k1. cbn. rewrite fn_lookup_insert_ne; [done|].
      intros He. by apply (Hother _ Hn).
    - subst k1. cbn [k_dm]. rewrite Hsame by done. by apply (rep_owner _ _ _ Hrep). }
  assert (l_head (lists (k_dm k1) l) = head (Q l)) as Hhd.
  { subst k1. cbn. unfold list_adopt. rewrite lists_set_item. apply (rep_head _ _ _ Hrep). }
  unfold scheduler_add_to_blocked_list. unfold_K.
  rewrite Hcore, core_guard by done. fold l. fold k1. rewrite Hhd.
  pose proof (put_index l (NState t) t (k_dm k)) as Hix.
  unfold q'. destruct (Q l) as [|h q] eqn:HQ; cbn [head blocked_insert].
  - exists (list_count l (list_put_only l (NState t) (list_adopt l (NState t) t (k_dm k)))).
    split_and!; [reflexivity|exact (wf_put_only (k_dm k) Q l (NState t) Hwf Hc Hv HQ)|]. intros m. exact (proj1 (Hix m)).
  - rewrite Hown by (by left). destruct (w <=? wake (k_tcbs k) h) eqn:Hle.
    + exists (list_count l (list_put_first l (NState t) h (list_adopt l (NState t) t (k_dm k)))).
      split_and!; [reflexivity|exact (wf_put_first (k_dm k) Q l (NState t) Hwf Hc Hv h q HQ)|].
      intros m. exact (proj1 (proj2 (Hix m)) h).
    + destruct (blocked_walk_eq list_fuel w (NState t) h q k1 None) as (a & b & Hab & Hwalk & Hins).
      { eapply dseg_frame; [|exact (rep_seg _ _ _ Hrep)].
        intros n Hn. split; by rewrite <- (Hsame n Hn). }
      { intros n Hn. unfold k1. cbn [k_dm]. rewrite Hsame by (by right).
        apply (rep_owner _ _ _ Hrep). by right. }
      { pose proof (valid_length _ (rep_nodup _ _ _ Hrep) (rep_valid _ _ _ Hrep)) as Hlen.
        unfold list_fuel. cbn in Hlen. lia. }
      rewrite Hwalk.
      exists (list_count l (list_put_after l (NState t) (default h (last a))
                              (list_adopt l (NState t) t (k_dm k)))).
      split_and!; [reflexivity| |intros m; exact (proj2 (proj2 (Hix m)) _)].
      assert (insert_after (wake (k_tcbs k)) w (NState t) q = a ++ NState t :: b) as ->.
      { rewrite <- Hins. apply insert_after_ext. intros n Hn. unfold wake, k1. cbn.
        rewrite fn_lookup_insert_ne; [done|]. intros He. apply (Hother n); [by right|done]. }
      destruct a as [|x a _] using rev_ind; cbn.
      * cbn in Hab. rewrite Hab in HQ.
        exact (wf_put_after (k_dm k) Q l (NState t) Hwf Hc Hv h [] b HQ).
      * rewrite last_snoc. cbn.
        rewrite <- app_assoc. apply (wf_put_after (k_dm k) Q l (NState t) Hwf Hc Hv x (h :: a) b).
        rewrite HQ, Hab. cbn. by rewrite <- app_assoc.
Qed.
End blocked_add.

(** An item of a task that is being moved: nothing but a sync list holds its
    event item. *)
Definition event_ok (d : dmem) (t : tcb) : Prop :=
  forall l, li_container (items d (NEvent t)) = Some l -> sync_list l.

Lemma not_in_blocked (d : dmem) (Q : queues) (t : tcb) c n :
  wf_mem d Q -> li_container (items d (NState t)) = None -> event_ok d t ->
  n ∈ Q (LBlocked c) -> node_tcb n <> t.
Proof.
  intros Hwf Hs He Hn Ht. apply (wf_container_some _ _ _ _ Hwf) in Hn.
  destruct n as [t'|t']; cbn in Ht; subst t'; [congruence|]. by apply He in Hn.
Qed.

Lemma blocked_add_inv (t : tcb) ex (w : Z) (k : kstate) (Q : queues) :
  sched_inv (t :: ex) k Q -> live k t ->
  li_container (items (k_dm k) (NState t)) = None -> event_ok (k_dm k) t ->
  let l := LBlocked (tcb_core t) in
  exists d', scheduler_add_to_blocked_list (Some t) w k = Ret E_OK (blocked_at t w d' k) /\
    sched_inv (t :: ex) (blocked_at t w d' k)
      (<[l := blocked_insert (wake (k_tcbs k)) w (NState t) (Q l)]> Q) /\
    li_container (items d' (NState t)) = Some l /\
    (forall n, n <> NState t -> li_container (items d' n) = li_container (items (k_dm k) n)).
Proof.
  intros HI Ha Hs He l. pose proof (si_mem _ _ _ _ _ _ HI) as Hwf.
  pose proof (si_valid _ _ _ _ _ _ HI t Ha) as Hv.
  pose proof (si_fields _ _ _ _ _ _ HI t Ha) as Hf.
  assert (forall c n, n ∈ Q (LBlocked c) -> node_tcb n <> t) as Hoth
    by (intros c n; by apply (not_in_blocked (k_dm k))).
  destruct (add_to_blocked_links t w k Q Hwf Hv (proj1 Hf) Hs (Hoth _)) as (d' & Hr & Hwf' & Hix).
  fold l in Hwf'. set (q' := blocked_insert (wake (k_tcbs k)) w (NState t) (Q l)) in *.
  assert (forall n, n <> NState t -> li_container (items d' n) = li_container (items (k_dm k) n)) as Hc.
  { intros n Hn. eapply wf_container_eq; [exact Hwf|exact Hwf'|].
    unfold q'. rewrite elem_of_blocked_insert. tauto. }
  exists d'. split_and!; [done| | |done].
  - set (r := (k_tcbs k t) <| wakeup_time := w |>).
    assert (sinv (t :: ex) (live k) (k_dm k) (<[t := r]> (k_tcbs k)) (k_current k) Q) as HI2.
    { apply sinv_tcb; [exact HI|done|by left]. }
    change (sinv (t :: ex) (live k) d' (<[t := r]> (k_tcbs k)) (k_current k) (<[l := q']> Q)).
    eapply (sinv_lists _ _ t ex (k_dm k)); [exact HI2|exact Hwf'|..].
    + intros n Hn. apply Hc. by intros ->.
    + intros c p. rewrite fn_lookup_insert_ne by done.
      eapply index_frame; [apply Hix|apply (si_index _ _ _ _ _ _ HI)].
    + intros c. rewrite fn_insert_lookup. case_decide as Hd.
      * assert (wake (<[t := r]> (k_tcbs k)) (NState t) = w) as Hw
          by (unfold wake; cbn; by rewrite fn_lookup_insert).
        pose proof (blocked_insert_sorted (k_tcbs k) (<[t := r]> (k_tcbs k)) (NState t) (Q l)) as Hq.
        rewrite Hw in Hq. apply Hq; unfold l.
        -- intros m Hm. unfold wake. rewrite fn_lookup_insert_ne; [done|].
           intros Ht. by apply (Hoth _ _ Hm).
        -- apply (si_sorted _ _ _ _ _ _ HI).
      * apply (si_sorted _ _ _ _ _ _ HI2).
  - apply (wf_container_some _ _ _ _ Hwf'). rewrite fn_lookup_insert. unfold q'.
    apply elem_of_blocked_insert. by left.
Qed.

Definition blocked_remove (t : tcb) (k : kstate) : kstate :=
  let l := LBlocked (tcb_core t) in
  k <| k_dm ::= list_stitch l (NState t) |> <| k_dm ::= list_forget l (NState t) |>.

Lemma remove_from_blocked_eq (t : tcb) (k : kstate) :
  valid_tcb t -> core_id (k_tcbs k t) = tcb_core t ->
  scheduler_remove_from_blocked_list (Some t) k =
    if decide (li_container (items (k_dm k) (NState t)) = Some (LBlocked (tcb_core t)))
    then Ret E_OK (blocked_remove t k) else Ret E_OK k.
Proof.
  intros Hv Hc. unfold scheduler_remove_from_blocked_list. unfold_K.
  rewrite Hc, core_guard by done. by case_decide.
Qed.

Lemma blocked_remove_inv (t : tcb) ex (k : kstate) (Q : queues) :
  let l := LBlocked (tcb_core t) in
  sched_inv (t :: ex) k Q -> NState t ∈ Q l ->
  sched_inv (t :: ex) (blocked_remove t k) (<[l := del (NState t) (Q l)]> Q) /\
  li_container (items (k_dm (blocked_remove t k)) (NState t)) = None /\
  (forall m, m <> NState t ->
     li_container (items (k_dm (blocked_remove t k)) m) = li_container (items (k_dm k) m)).
Proof. intros l HI Hn. by apply (sinv_unlink (live k) (k_current k) t ex (NState t) l (k_dm k)). Qed.

Lemma ready_remove_inv (t : tcb) ex (k : kstate) (Q : queues) :
  let l := LReady (tcb_core t) (priority (k_tcbs k t)) in
  sched_inv (t :: ex) k Q -> NState t ∈ Q l ->
  sched_inv (t :: ex) (ready_remove t k) (<[l := del (NState t) (Q l)]> Q) /\
  li_container (items (k_dm (ready_remove t k)) (NState t)) = None /\
  (forall m, m <> NState t ->
     li_container (items (k_dm (ready_remove t k)) m) = li_container (items (k_dm k) m)).
Proof. intros l HI Hn. by apply (sinv_remove_ready (live k) (k_current k) t ex _ _ (k_dm k)). Qed.

(** ** Priority change: functional behaviour *)

Definition set_priority (t : tcb) (p : Z) (k : kstate) : kstate :=
  k <| k_tcbs ::= fun g => <[t := (g t) <| priority := p |>]> g |>.
Definition set_state (t : tcb) (s : TaskState) (k : kstate) : kstate :=
  k <| k_tcbs ::= fun g => <[t := (g t) <| current_state := s |>]> g |>.

Definition change_priority (t : tcb) (p : Z) (k : kstate) : kstate :=
  let s := current_state (k_tcbs k t) in
  if decide (runnable s)
  then set_state t s (ready_add t (set_priority t p (ready_remove t k)))
  else set_priority t p k.

(** The queues after a priority change: the task moves to the tail of its new
    bucket. *)
Definition requeued (t : tcb) (p : Z) (k : kstate) (Q : queues) : queues :=
  if decide (runnable (current_state (k_tcbs k t)))
  then let l := LReady (tcb_core t) (priority (k_tcbs k t)) in
       let l' := LReady (tcb_core t) p in
       let Q1 := <[l := del (NState t) (Q l)]> Q in
       <[l' := Q1 l' ++ [NState t]]> Q1
  else Q.

Lemma runnable_bool (s : TaskState) :
  bool_decide (s = TASK_STATE_READY) || bool_decide (s = TASK_STATE_RUNNING) =
  bool_decide (runnable s).
Proof. by destruct s. Qed.

Lemma change_priority_eq (t : tcb) (p : Z) (k : kstate) :
  valid_tcb t -> core_id (k_tcbs k t) = tcb_core t -> 0 <= base_priority (k_tcbs k t) <= p ->
  p < NUM_TASK_PRIORITIES -> placed (k_dm k) t (k_tcbs k t) ->
  scheduler_change_task_priority t p k = Ret tt (change_priority t p k).
Proof.
  intros Hv Hc Hp Hp' Hpl. unfold scheduler_change_task_priority, change_priority. unfold_K.
  rewrite runnable_bool. destruct Hpl as [Hr Hs _|cs ce Hb Hs _ _ _ _].
  - rewrite bool_decide_eq_true_2, decide_True, Hs by done. cbv [mbind M_mbind].
    set (k1 := field_update k_tcbs _ _). change k1 with (set_priority t p (ready_remove t k)).
    rewrite add_to_ready_eq; [done|done|]. unfold set_priority, ready_remove. cbn -[list_remove_ready].
    rewrite fn_lookup_insert. by repeat split; cbn; try lia.
  - assert (~ runnable (current_state (k_tcbs k t))) by (rewrite Hb; by intros [|]).
    by rewrite bool_decide_eq_false_2, decide_False by done.
Qed.

Lemma change_priority_inv (t : tcb) (p : Z) ex (k : kstate) (Q : queues) :
  sched_inv ex k Q -> live k t -> t ∉ ex -> base_priority (k_tcbs k t) <= p < NUM_TASK_PRIORITIES ->
  scheduler_change_task_priority t p k = Ret tt (change_priority t p k) /\
  sched_inv ex (change_priority t p k) (requeued t p k Q).
Proof.
  intros HI Ha Hex Hp.
  pose proof (si_valid _ _ _ _ _ _ HI t Ha) as Hv. pose proof (si_mem _ _ _ _ _ _ HI) as Hwf.
  pose proof (si_fields _ _ _ _ _ _ HI t Ha) as (Hc & Hb & _).
  pose proof (si_placed _ _ _ _ _ _ HI t Ha Hex) as Hpl.
  pose proof (si_running _ _ _ _ _ _ HI t Ha Hex) as Hrun.
  pose proof (si_idle _ _ _ _ _ _ HI) as Hidle.
  split; [by apply change_priority_eq; auto; lia|].
  assert (forall c, t = Idle c -> current_state (k_tcbs k t) <> TASK_STATE_BLOCKED) as Hidle'
    by (intros c ->; by apply Hidle).
  apply (sinv_exempt (live k) (k_current k) t) in HI. fold (sched_inv (t :: ex) k Q) in HI.
  unfold change_priority, requeued. case_decide as Hr.
  - destruct Hpl as [_ Hs He|cs ce Hbl _ _ _ _ _]; [|by rewrite Hbl in Hr; destruct Hr].
    pose proof Hs as Hn. apply (wf_container _ _ _ _ Hwf) in Hn.
    destruct (ready_remove_inv t ex k Q HI Hn) as (HI1 & Hs1 & Hoth).
    set (l := LReady (tcb_core t) (priority (k_tcbs k t))) in *.
    set (k1 := ready_remove t k) in *.
    assert (sched_inv (t :: ex) (set_priority t p k1) (<[l := del (NState t) (Q l)]> Q)) as HI2.
    { apply sinv_tcb; [exact HI1| |by right]. intros _. cbn -[list_remove_ready].
      repeat split; cbn; try lia; done. }
    destruct (ready_add_inv t ex _ _ HI2 Ha) as [HI3 Hpl3].
    { split; [done|]. change (li_container (items (k_dm k1) (NEvent t)) = None). by rewrite Hoth. }
    set (k2 := set_priority t p k1) in *.
    assert (priority (k_tcbs k2 t) = p) as Hp2.
    { unfold k2, set_priority. cbn -[k1]. by rewrite fn_lookup_insert. }
    rewrite Hp2 in HI3.
    assert (sched_inv (t :: ex) (set_state t (current_state (k_tcbs k t)) (ready_add t k2))
      (<[LReady (tcb_core t) p := (<[l := del (NState t) (Q l)]> Q) (LReady (tcb_core t) p)
            ++ [NState t]]> (<[l := del (NState t) (Q l)]> Q))) as HI4.
    { apply sinv_tcb; [exact HI3| |by right]. intros _.
      pose proof (si_fields _ _ _ _ _ _ HI3 t Ha) as Hf. exact Hf. }
    eapply (sinv_admit _ _ t); [exact HI4|done|..]; cbn -[k2 list_push_back];
      rewrite ?fn_lookup_insert; [|exact Hrun|exact Hidle'].
    destruct Hpl3 as [_ H1 H2|cs ce Hst _ _ _ _ _].
    + apply placed_ready; [done| |exact H2].
      cbn -[k2 list_push_back] in H1. rewrite fn_lookup_insert in H1. exact H1.
    + cbn -[k2 list_push_back] in Hst. by rewrite fn_lookup_insert in Hst.
  - destruct Hpl as [Hr' _ _|cs ce Hbl H1 H2 H3 H4 H5]; [done|].
    assert (sched_inv (t :: ex) (set_priority t p k) Q) as HI1.
    { apply sinv_tcb; [exact HI| |by right]. intros _. repeat split; cbn; try lia; done. }
    eapply (sinv_admit _ _ t); [exact HI1|done|..]; cbn; rewrite ?fn_lookup_insert;
      [|exact Hrun|exact Hidle'].
    by apply (placed_blocked _ _ _ cs ce).
Qed.

(** ** Locks: functional behaviour *)

Lemma core_ok_range (me : Z) : 0 <= me < COMPANION_CORE_MAX_CORES -> core_ok me = true.
Proof. intros. unfold core_ok. by rewrite (proj2 (Z.leb_le _ _)), (proj2 (Z.ltb_lt _ _)) by lia. Qed.

Lemma scheduler_lock_eq (c : Z) (k : kstate) :
  0 <= c < COMPANION_CORE_MAX_CORES -> may_acquire (LkSched c) (k_held k) = true ->
  scheduler_lock c k = Ret tt (k <| k_held ::= cons (LkSched c) |>).
Proof. intros Hc Hm. unfold scheduler_lock. rewrite core_ok_range by done. by apply acquire_eq. Qed.

Lemma scheduler_unlock_eq (c : Z) (k : kstate) :
  0 <= c < COMPANION_CORE_MAX_CORES ->
  scheduler_unlock c k = Ret tt (k <| k_held ::= filter (fun h => h <> LkSched c) |>).
Proof. intros Hc. unfold scheduler_unlock. by rewrite core_ok_range. Qed.

Lemma get_tick_eq (me now : Z) (k : kstate) :
  s_tick_count (k_cores k me) = Some now -> scheduler_get_tick_count me k = Ret now k.
Proof. intros Hn. unfold scheduler_get_tick_count. unfold_K. by rewrite Hn. Qed.

(** ** Context switch: functional behaviour *)

(** The highest priority with a ready task on a core. *)
Definition top_ready (Q : queues) (me p : Z) : Prop :=
  0 <= p < NUM_TASK_PRIORITIES /\ Q (LReady me p) <> [] /\
  forall p', p < p' < NUM_TASK_PRIORITIES -> Q (LReady me p') = [].

Definition running_on (k : kstate) (me : Z) : option tcb :=
  match k_current k me with
  | Some t => if decide (current_state (k_tcbs k t) = TASK_STATE_RUNNING) then Some t else None
  | None => None
  end.

Definition requeue (me : Z) (k : kstate) : kstate :=
  match running_on k me with
  | Some t => set_state t TASK_STATE_READY k
                <| k_dm ::= list_advance_index (LReady me (priority (k_tcbs k t))) |>
  | None => k
  end.

Definition pick (me : Z) (t : tcb) (k : kstate) : kstate :=
  set_state t TASK_STATE_RUNNING k
    <| k_current ::= fun f => <[me := Some t]> f |>
    <| k_tel ::= telemetry_report_tick_state me (task_id (k_tcbs k t))
                   (task_state_code TASK_STATE_RUNNING) |>
    <| k_held ::= filter (fun h => h <> LkSched me) |>.

Lemma running_on_spec (k : kstate) (me : Z) (t : tcb) ex (Q : queues) :
  sched_inv ex k Q -> running_on k me = Some t ->
  k_current k me = Some t /\ live k t /\ tcb_core t = me /\
  current_state (k_tcbs k t) = TASK_STATE_RUNNING.
Proof.
  intros HI. unfold running_on. destruct (k_current k me) as [u|] eqn:Hc; [|done].
  case_decide; [|done]. intros [= ->]. by destruct (si_current _ _ _ _ _ _ HI me t Hc).
Qed.

Lemma switch_requeue_eq (me : Z) (k : kstate) (Q : queues) :
  sched_inv [] k Q -> switch_requeue me (k_current k me) k = Ret tt (requeue me k).
Proof.
  intros HI. unfold switch_requeue, requeue, running_on.
  destruct (k_current k me) as [t|] eqn:Hc; [|done].
  destruct (si_current _ _ _ _ _ _ HI me t Hc) as [Ha _].
  destruct (si_fields _ _ _ _ _ _ HI t Ha) as (_ & _ & Hp).
  unfold_K. case_decide as Hs.
  - by rewrite bool_decide_eq_true_2, (proj2 (Z.ltb_lt _ _) Hp).
  - by rewrite bool_decide_eq_false_2.
Qed.

Lemma requeue_inv (me : Z) (k : kstate) (Q : queues) :
  sched_inv [] k Q ->
  sched_inv [] (requeue me k) Q /\
  (forall t, live k t -> tcb_core t = me ->
     current_state (k_tcbs (requeue me k) t) <> TASK_STATE_RUNNING).
Proof.
  intros HI. unfold requeue. destruct (running_on k me) as [t|] eqn:Hr.
  - destruct (running_on_spec k me t [] Q HI Hr) as (Hcur & Ha & Hme & Hs).
    assert (sched_inv [] (set_state t TASK_STATE_READY k) Q) as HI1.
    { apply (sinv_runnable _ (k_current k)); [done|done|by right|by left|..|done].
      - apply (si_current _ _ _ _ _ _ HI).
      - intros u Hu _. apply (si_running _ _ _ _ _ _ HI u Hu). apply not_elem_of_nil. }
    split.
    + eapply (sinv_cursor _ _ [] _ _ _ Q HI1); [apply advance_same_links|].
      intros c p. cbn -[list_advance_index]. pose proof (si_index _ _ _ _ _ _ HI c p) as Hix.
      destruct (decide (LReady c p = LReady me (priority (k_tcbs k t)))) as [->|Hne].
      * apply index_advance; [apply (si_mem _ _ _ _ _ _ HI)|apply (si_index _ _ _ _ _ _ HI)].
      * eapply index_frame; [by apply advance_index_other|done].
    + intros u Hu Hum. cbn. rewrite fn_insert_lookup. case_decide as Hd; [done|].
      intros Hrun. apply (si_running _ _ _ _ _ _ HI u Hu) in Hrun; [|apply not_elem_of_nil].
      rewrite Hum in Hrun. congruence.
  - split; [done|]. intros u Hu Hum Hrun. pose proof Hrun as Hrun'.
    apply (si_running _ _ _ _ _ _ HI u Hu) in Hrun; [|apply not_elem_of_nil].
    unfold running_on in Hr. by rewrite <- Hum, Hrun, decide_True in Hr.
Qed.

Lemma requeue_live (me : Z) (k : kstate) (t : tcb) : live (requeue me k) t = live k t.
Proof. unfold requeue. by destruct (running_on k me). Qed.

Lemma top_ready_exists (me : Z) (k : kstate) (Q : queues) :
  sched_inv [] k Q -> live k (Idle me) -> exists p, top_ready Q me p.
Proof.
  intros HI Ha.
  pose proof (si_placed _ _ _ _ _ _ HI _ Ha ltac:(apply not_elem_of_nil)) as Hpl.
  pose proof (si_fields _ _ _ _ _ _ HI _ Ha) as (_ & Hb & Hp).
  destruct Hpl as [Hr Hs _|cs ce Hbl _ _ _ _ _].
  2: { by apply (si_idle _ _ _ _ _ _ HI) in Hbl; [|done|apply not_elem_of_nil]. }
  apply (wf_container _ _ _ _ (si_mem _ _ _ _ _ _ HI)) in Hs. cbn in Hs.
  set (p0 := priority (k_tcbs k (Idle me))) in *.
  assert (Q (LReady me p0) <> []) as Hq by (intros Hq; rewrite Hq in Hs; by apply elem_of_nil in Hs).
  assert (forall n : nat, (exists p, 6 - Z.of_nat n <= p < 6 /\ Q (LReady me p) <> [] /\
             forall p', p < p' < 6 -> Q (LReady me p') = []) \/
          (forall p, 6 - Z.of_nat n <= p < 6 -> Q (LReady me p) = [])) as Hscan.
  { induction n as [|n [(p & Hp1 & Hp2)|Hnone]]; [right; lia|left; exists p; split; [lia|done]|].
    destruct (decide (Q (LReady me (5 - Z.of_nat n)) = [])) as [He|Hne].
    - right. intros p Hpr. destruct (decide (p = 5 - Z.of_nat n)) as [->|]; [done|apply Hnone; lia].
    - left. exists (5 - Z.of_nat n). split_and!; [lia..|done|]. intros p' Hp'. apply Hnone. lia. }
  unfold NUM_TASK_PRIORITIES in *. destruct (Hscan 6%nat) as [(p & Hp1 & Hp2)|Hnone].
  - exists p. split; [unfold NUM_TASK_PRIORITIES; lia|done].
  - exfalso. apply Hq, Hnone. lia.
Qed.

Lemma switch_pick_eq (me p : Z) (n : nat) (i : node) (k : kstate) (Q : queues) :
  wf_mem (k_dm k) Q -> core_ok me = true -> top_ready Q me p ->
  p < Z.of_nat n <= NUM_TASK_PRIORITIES ->
  l_index (lists (k_dm k) (LReady me p)) = Some i -> i ∈ Q (LReady me p) ->
  switch_pick me n k = Ret tt (pick me (node_tcb i) k).
Proof.
  intros Hwf Hme (Hp & Hne & Htop). revert p Hp Hne Htop. 
  intros p Hp Hne Htop Hn Hi Hin. induction n as [|n IH]; [lia|].
  cbn [switch_pick]. unfold_K.
  rewrite (rep_num _ _ _ (Hwf (LReady me (Z.of_nat n)))).
  destruct (decide (p = Z.of_nat n)) as [->|Hnp].
  - rewrite (proj2 (Z.ltb_lt _ _)), Hi.
    2: { destruct (Q (LReady me (Z.of_nat n))); [done|cbn; lia]. }
    rewrite (rep_owner _ _ _ (Hwf (LReady me (Z.of_nat n))) i Hin).
    unfold scheduler_unlock. rewrite Hme. cbn. by rewrite fn_lookup_insert.
  - rewrite Htop by lia. cbn [length Z.of_nat Z.ltb]. apply IH. lia.
Qed.

Lemma pick_inv (me p : Z) (t : tcb) (k : kstate) (Q : queues) :
  sched_inv [] k Q -> NState t ∈ Q (LReady me p) ->
  (forall u, live k u -> tcb_core u = me -> current_state (k_tcbs k u) <> TASK_STATE_RUNNING) ->
  sched_inv [] (pick me t k) Q.
Proof.
  intros HI Hin Hno.
  destruct (member_ready _ _ _ _ _ _ _ _ _ HI Hin) as (u & [= <-] & Ha & Hc & _ & Hr);
    [apply not_elem_of_nil|].
  apply (sinv_runnable _ (k_current k)); [done|done|done|by right|..].
  - intros c u. cbn. rewrite fn_insert_lookup. case_decide; [by intros [= <-]; subst|].
    apply (si_current _ _ _ _ _ _ HI).
  - intros u Hu Hne Hrun. cbn. rewrite fn_insert_lookup. case_decide as Hd.
    + by destruct (Hno u Hu (eq_sym Hd)).
    + apply (si_running _ _ _ _ _ _ HI u Hu); [apply not_elem_of_nil|done].
  - intros _. cbn. by rewrite Hc, fn_lookup_insert.
Qed.

(** The lowest word of a task's stack, where its TCB says it is. *)
Definition watermark_word (k : kstate) (t : tcb) : option Z :=
  match stack_base (k_tcbs k t) with
  | Some p => if sptr_ok p then Some (stack_word k p) else None
  | None => Some TASK_WATERMARK
  end.

Lemma watermark_check_eq (t : tcb) (w : Z) (k : kstate) :
  watermark_word k t = Some w ->
  stack_watermark_check (Some t) k = if w =? TASK_WATERMARK then Ret tt k else Stop Hang k.
Proof.
  unfold watermark_word, stack_watermark_check, stack_load. unfold_K.
  destruct (stack_base (k_tcbs k t)) as [p|]; [|by intros [= <-]].
  destruct (sptr_ok p); [|done]. intros [= <-]. by case_match.
Qed.

Definition watermark_intact (k : kstate) (me : Z) : Prop :=
  forall t, k_current k me = Some t -> watermark_word k t = Some TASK_WATERMARK.

(** The task a switch selects: the cursor of the highest non-empty ready list,
    one step further when the running task is preempted at that priority. *)
Definition next_cursor (k : kstate) (me p : Z) : option node :=
  l_index (lists (k_dm (requeue me k)) (LReady me p)).

Lemma switch_context_eq (me : Z) (k : kstate) (Q : queues) :
  sched_inv [] k Q -> k_held k = [] -> live k (Idle me) -> watermark_intact k me ->
  exists p t, top_ready Q me p /\ NState t ∈ Q (LReady me p) /\
    next_cursor k me p = Some (NState t) /\
    scheduler_switch_context me k =
      Ret tt (pick me t (requeue me (k <| k_held ::= cons (LkSched me) |>))) /\
    sched_inv [] (pick me t (requeue me (k <| k_held ::= cons (LkSched me) |>))) Q.
Proof.
  intros HI Hh Hidle Hw. destruct (top_ready_exists me k Q HI Hidle) as (p & Htop).
  set (k1 := k <| k_held ::= cons (LkSched me) |>).
  assert (sched_inv [] k1 Q) as HI1 by exact HI.
  destruct (requeue_inv me k1 Q HI1) as [HI2 Hno].
  pose proof (si_mem _ _ _ _ _ _ HI2) as Hwf.
  pose proof (si_index _ _ _ _ _ _ HI2 me p) as Hix. unfold index_ok in Hix.
  assert (k_dm (requeue me k1) = k_dm (requeue me k)) as Hdm.
  { unfold requeue, running_on. change (k_current k1) with (k_current k).
    destruct (k_current k me); [|done]. change (k_tcbs k1) with (k_tcbs k). by case_decide. }
  destruct (l_index (lists (k_dm (requeue me k1)) (LReady me p))) as [i|] eqn:Hi.
  2: { by destruct Htop as (_ & Hne & _). }
  destruct (member_ready _ _ _ _ _ _ _ _ _ HI2 Hix) as (t & -> & _); [apply not_elem_of_nil|].
  exists p, t. split_and!; [done|done|unfold next_cursor; by rewrite <- Hdm| |].
  2: { eapply pick_inv; [exact HI2|exact Hix|]. intros u Hu. rewrite requeue_live in Hu. by apply Hno. }
  assert (core_ok me = true) as Hok by (apply core_ok_range, Hidle).
  unfold scheduler_switch_context, scheduler_lock. rewrite Hok. unfold_K.
  assert (stack_watermark_check (k_current k me) k = Ret tt k) as ->.
  { destruct (k_current k me) as [u|] eqn:Hc; [|done].
    rewrite (watermark_check_eq u TASK_WATERMARK) by (by apply Hw). by rewrite Z.eqb_refl. }
  unfold spinlock_acquire. rewrite Hh. cbn [may_acquire forallb]. fold k1.
  change (k_current k) with (k_current k1). rewrite (switch_requeue_eq me k1 Q HI1).
  apply (switch_pick_eq me p _ (NState t) _ Q); try done.
  destruct Htop as (? & _). cbn. unfold NUM_TASK_PRIORITIES in *. lia.
Qed.

Lemma pick_current (me : Z) (t : tcb) (k : kstate) (c : Z) :
  k_current (pick me t k) c = if decide (me = c) then Some t else k_current k c.
Proof. apply fn_insert_lookup. Qed.

Lemma requeue_current (me : Z) (k : kstate) : k_current (requeue me k) = k_current k.
Proof. unfold requeue. by destruct (running_on k me). Qed.

(** A switch changes no field of a TCB but its state. *)
Lemma switch_tcb_field {A} (f : TaskControlBlock -> A) (me : Z) (t : tcb) (k : kstate) (u : tcb) :
  (forall r s, f (r <| current_state := s |>) = f r) ->
  f (k_tcbs (pick me t (requeue me k)) u) = f (k_tcbs k u).
Proof.
  intros Hf. cbn -[requeue]. rewrite fn_insert_lookup.
  assert (forall v, f (k_tcbs (requeue me k) v) = f (k_tcbs k v)) as Hr.
  { intros v. unfold requeue. destruct (running_on k me) as [x|]; [|done].
    cbn. rewrite fn_insert_lookup. case_decide; [subst; apply Hf|done]. }
  case_decide; [subst; rewrite <- (Hr u); apply Hf|apply Hr].
Qed.

Lemma switch_watermark (me : Z) (t : tcb) (k : kstate) (u : tcb) :
  watermark_word (pick me t (requeue me k)) u = watermark_word k u.
Proof.
  unfold watermark_word. rewrite (switch_tcb_field stack_base) by done.
  destruct (stack_base (k_tcbs k u)) as [p|]; [|done]. destruct (sptr_ok p); [|done]. f_equal.
  assert (k_heap (requeue me k) = k_heap k /\ k_cores (requeue me k) = k_cores k) as [Hh Hc]
    by (unfold requeue; by destruct (running_on k me)).
  destruct p; cbn -[requeue]; unfold heap_load32; cbn -[requeue]; by rewrite ?Hh, ?Hc.
Qed.

Lemma top_ready_unique (Q : queues) (me p p' : Z) :
  top_ready Q me p -> top_ready Q me p' -> p = p'.
Proof.
  intros (Hp & Hne & Ht) (Hp' & Hne' & Ht').
  destruct (Z.lt_trichotomy p p') as [Hlt|[He|Hlt]]; [|done|].
  - exfalso. apply Hne', Ht. lia.
  - exfalso. apply Hne, Ht'. lia.
Qed.

(** One quantum: the cursor and the running task move to the cyclic
    successor. *)
Lemma switch_rotates (me p : Z) (k : kstate) (Q : queues) (t : tcb) (i : nat) :
  sched_inv [] k Q -> k_held k = [] -> live k (Idle me) -> watermark_intact k me ->
  top_ready Q me p -> running_on k me = Some t ->
  l_index (lists (k_dm k) (LReady me p)) = Some (NState t) ->
  Q (LReady me p) !! i = Some (NState t) ->
  exists t' k', scheduler_switch_context me k = Ret tt k' /\
    k' = pick me t' (requeue me (k <| k_held ::= cons (LkSched me) |>)) /\
    sched_inv [] k' Q /\ running_on k' me = Some t' /\
    l_index (lists (k_dm k') (LReady me p)) = Some (NState t') /\
    Q (LReady me p) !! (S i mod length (Q (LReady me p)))%nat = Some (NState t').
Proof.
  intros HI Hh Hidle Hw Htop Hrun Hix Hl.
  destruct (switch_context_eq me k Q HI Hh Hidle Hw) as (p' & t' & Htop' & Hin & Hnext & Heq & HI').
  assert (p' = p) as -> by (by eapply top_ready_unique).
  exists t', (pick me t' (requeue me (k <| k_held ::= cons (LkSched me) |>))).
  assert (k_dm (requeue me (k <| k_held ::= cons (LkSched me) |>)) = k_dm (requeue me k)) as Hdm.
  { unfold requeue, running_on. cbn -[list_advance_index]. by destruct (k_current k me); [case_decide|]. }
  split_and!; [done|done|done| | |].
  - unfold running_on. rewrite pick_current, decide_True by done. cbn -[requeue].
    by rewrite fn_lookup_insert, decide_True.
  - change (l_index (lists (k_dm (requeue me (k <| k_held ::= cons (LkSched me) |>)))
              (LReady me p)) = Some (NState t')). by rewrite Hdm.
  - destruct (running_on_spec k me t [] Q HI Hrun) as (_ & Ha & Hc & Hs).
    assert (priority (k_tcbs k t) = p) as Hprio.
    { assert (NState t ∈ Q (LReady me p)) as Hm by (by eapply list_elem_of_lookup_2).
      destruct (member_ready _ _ _ _ _ _ _ _ _ HI Hm) as (u & [= <-] & _ & _ & Hp & _);
        [apply not_elem_of_nil|done]. }
    apply list_elem_of_split_length in Hl as (q1 & q2 & Hq & ->).
    unfold next_cursor, requeue in Hnext. rewrite Hrun in Hnext.
    cbn -[list_advance_index] in Hnext. rewrite Hprio in Hnext.
    rewrite (advance_index _ Q _ q1 (NState t) q2) in Hnext
      by (apply (si_mem _ _ _ _ _ _ HI) || done).
    rewrite Hq, length_app. cbn [length].
    destruct q2 as [|x q2]; cbn in Hnext; simplify_eq.
    + assert (S (length q1) mod (length q1 + S (length [])) = 0)%nat as ->
        by (cbn [length]; replace (length q1 + 1)%nat with (S (length q1)) by lia;
            by rewrite Nat.Div0.mod_same).
      destruct q1; cbn in *; congruence.
    + rewrite Nat.mod_small by (cbn; lia). rewrite lookup_app_r by lia.
      by replace (S (length q1) - length q1)%nat with 1%nat by lia.
Qed.

(** ** Tick: functional behaviour *)

(** The queues and TCBs after the tasks of [ws], the expired prefix of
    [me]'s blocked list, have been woken. *)
Definition wake_queues (me : Z) (prio : tcb -> Z) (ws rest : list node) (Q : queues) : queues :=
  fun l => match l with
  | LBlocked c => if decide (c = me) then rest else Q l
  | LReady c p => if decide (c = me) then Q l ++ filter (fun n => prio (node_tcb n) = p) ws else Q l
  | LMutex _ | LSem _ => filter (fun n => node_tcb n ∉ node_tcb <$> ws) (Q l)
  end.
Definition wake_tcbs (ws : list node) (g : tcb -> TaskControlBlock) : tcb -> TaskControlBlock :=
  fun t => if decide (t ∈ node_tcb <$> ws) then (g t) <| current_state := TASK_STATE_READY |> else g t.

(** Unlinking a task's event item from whichever list it waits on. *)
Definition unlink_event (t : tcb) (k : kstate) : kstate :=
  match li_container (items (k_dm k) (NEvent t)) with
  | Some l => k <| k_dm ::= list_stitch l (NEvent t) |> <| k_dm ::= list_forget l (NEvent t) |>
  | None => k
  end.
Definition event_queues (t : tcb) (Q : queues) : queues :=
  fun l => if decide (sync_list l) then del (NEvent t) (Q l) else Q l.

Lemma unlink_event_inv (t : tcb) ex (k : kstate) (Q : queues) :
  sched_inv (t :: ex) k Q -> event_ok (k_dm k) t ->
  tick_unlink_event t k = Ret tt (unlink_event t k) /\
  sched_inv (t :: ex) (unlink_event t k) (event_queues t Q) /\
  li_container (items (k_dm (unlink_event t k)) (NEvent t)) = None /\
  (forall m, m <> NEvent t ->
     li_container (items (k_dm (unlink_event t k)) m) = li_container (items (k_dm k) m)).
Proof.
  intros HI He. pose proof (si_mem _ _ _ _ _ _ HI) as Hwf.
  unfold tick_unlink_event, unlink_event, event_queues. unfold_K.
  destruct (li_container (items (k_dm k) (NEvent t))) as [l|] eqn:Hc.
  - pose proof (He l Hc) as Hl. split; [done|].
    pose proof Hc as Hin. apply (wf_container _ _ _ _ Hwf) in Hin.
    destruct (sinv_unlink (live k) (k_current k) t ex (NEvent t) l (k_dm k) (k_tcbs k) Q HI)
      as (HI' & Hc' & Ho); [done|done|by destruct l|].
    split_and!; [|exact Hc'|exact Ho].
    replace (fun l0 => if decide (sync_list l0) then del (NEvent t) (Q l0) else Q l0)
      with (<[l := del (NEvent t) (Q l)]> Q : queues); [exact HI'|].
    apply functional_extensionality. intros l'. rewrite fn_insert_lookup.
    destruct (decide (l = l')) as [<-|Hne]; [by rewrite decide_True|].
    case_decide; [|done]. symmetry. apply del_notin. intros Hin'. apply Hne.
    by eapply wf_disjoint.
  - split_and!; [done| |done|done].
    replace (fun l0 => if decide (sync_list l0) then del (NEvent t) (Q l0) else Q l0)
      with Q; [exact HI|].
    apply functional_extensionality. intros l'. case_decide; [|done].
    symmetry. apply del_notin. by apply (wf_unlinked (k_dm k)).
Qed.

(** Waking one task: off the blocked list, off the list of what it waited
    for, onto its ready list. *)
Definition woken (t : tcb) (k : kstate) : kstate := ready_add t (unlink_event t (blocked_remove t k)).

Lemma wake_one_queues (me : Z) (t : tcb) (q : list node) (k : kstate) (Q : queues) :
  sched_inv [] k Q -> Q (LBlocked me) = NState t :: q -> tcb_core t = me ->
  let l := LReady me (priority (k_tcbs k t)) in
  let Q1 := event_queues t (<[LBlocked me := del (NState t) (Q (LBlocked me))]> Q) in
  <[l := Q1 l ++ [NState t]]> Q1 = wake_queues me (fun u => priority (k_tcbs k u)) [NState t] q Q.
Proof.
  intros HI Hq Hc l Q1. pose proof (si_mem _ _ _ _ _ _ HI) as Hwf.
  apply functional_extensionality. intros l'. rewrite fn_insert_lookup.
  unfold Q1, l, event_queues, wake_queues. destruct l' as [c p|c|m|s].
  - rewrite filter_cons, filter_nil. cbn. rewrite !(decide_False (P := False)) by tauto.
    rewrite !fn_lookup_insert_ne by done.
    destruct (decide (c = me)) as [->|]; repeat case_decide; simplify_eq/=; try done.
    by rewrite app_nil_r.
  - rewrite decide_False by done. cbn. rewrite fn_insert_lookup.
    rewrite (decide_False (P := False)) by tauto.
    case_decide as Hd; [|by case_decide; [subst|]].
    simplify_eq. rewrite decide_True, Hq by done. apply (del_middle _ [] q).
    rewrite <- Hq. apply (rep_nodup _ _ _ (Hwf (LBlocked (tcb_core t)))).
  - rewrite decide_False by done. cbn. rewrite (decide_True (P := True)) by done.
    rewrite fn_lookup_insert_ne by done. apply filter_ext_in. intros n Hn.
    destruct (member_sync _ _ _ _ _ _ _ _ HI (I : sync_list (LMutex m)) Hn) as (u & -> & _);
      [apply not_elem_of_nil|]. rewrite list_elem_of_singleton. cbn. naive_solver.
  - rewrite decide_False by done. cbn. rewrite (decide_True (P := True)) by done.
    rewrite fn_lookup_insert_ne by done. apply filter_ext_in. intros n Hn.
    destruct (member_sync _ _ _ _ _ _ _ _ HI (I : sync_list (LSem s)) Hn) as (u & -> & _);
      [apply not_elem_of_nil|]. rewrite list_elem_of_singleton. cbn. naive_solver.
Qed.

Lemma unlink_event_tcbs (t : tcb) (k : kstate) : k_tcbs (unlink_event t k) = k_tcbs k.
Proof. unfold unlink_event. by destruct (li_container _). Qed.
Lemma unlink_event_frame (t : tcb) (k : kstate) :
  unlink_event t k = k <| k_dm := k_dm (unlink_event t k) |>.
Proof. unfold unlink_event. destruct (li_container _); [done|by destruct k]. Qed.
Lemma unlink_event_live (t : tcb) (k : kstate) (u : tcb) : live (unlink_event t k) u = live k u.
Proof. by rewrite unlink_event_frame. Qed.

(** Taking a blocked task off its core's blocked list, if it is on it. *)
Definition leave_blocked (t : tcb) (k : kstate) : kstate :=
  if decide (li_container (items (k_dm k) (NState t)) = Some (LBlocked (tcb_core t)))
  then blocked_remove t k else k.

Lemma leave_blocked_inv (t : tcb) ex (k : kstate) (Q : queues) :
  let l := LBlocked (tcb_core t) in
  sched_inv (t :: ex) k Q -> live k t ->
  (li_container (items (k_dm k) (NState t)) = None \/
   li_container (items (k_dm k) (NState t)) = Some l) ->
  scheduler_remove_from_blocked_list (Some t) k = Ret E_OK (leave_blocked t k) /\
  sched_inv (t :: ex) (leave_blocked t k) (<[l := del (NState t) (Q l)]> Q) /\
  li_container (items (k_dm (leave_blocked t k)) (NState t)) = None /\
  (forall m, m <> NState t ->
     li_container (items (k_dm (leave_blocked t k)) m) = li_container (items (k_dm k) m)) /\
  k_tcbs (leave_blocked t k) = k_tcbs k /\ leave_blocked t k = k <| k_dm := k_dm (leave_blocked t k) |>.
Proof.
  intros l HI Ha Hl. pose proof (si_mem _ _ _ _ _ _ HI) as Hwf.
  rewrite remove_from_blocked_eq
    by (apply (si_valid _ _ _ _ _ _ HI t Ha) || apply (si_fields _ _ _ _ _ _ HI t Ha)).
  unfold leave_blocked. fold l. case_decide as Hc.
  - pose proof Hc as Hin. apply (wf_container _ _ _ _ Hwf) in Hin.
    destruct (blocked_remove_inv t ex k Q HI Hin) as (HI' & Hc' & Ho). done.
  - destruct Hl as [Hl|Hl]; [|done]. split_and!; [done| |done|done|done|by destruct k].
    rewrite del_notin by (by apply (wf_unlinked (k_dm k))). by rewrite fn_insert_id.
Qed.

Lemma wake_one_inv (me : Z) (t : tcb) (q : list node) (k : kstate) (Q : queues) :
  sched_inv [] k Q -> Q (LBlocked me) = NState t :: q ->
  live k t /\ tcb_core t = me /\
  scheduler_remove_from_blocked_list (Some t) k = Ret E_OK (blocked_remove t k) /\
  tick_unlink_event t (blocked_remove t k) = Ret tt (unlink_event t (blocked_remove t k)) /\
  scheduler_add_to_ready_list (Some t) (unlink_event t (blocked_remove t k)) = Ret E_OK (woken t k) /\
  sched_inv [] (woken t k) (wake_queues me (fun u => priority (k_tcbs k u)) [NState t] q Q).
Proof.
  intros HI Hq.
  assert (NState t ∈ Q (LBlocked me)) as Hin by (rewrite Hq; by left).
  destruct (member_blocked _ _ _ _ _ _ _ _ HI Hin) as (u & [= <-] & Ha & Hc & Hs);
    [apply not_elem_of_nil|].
  pose proof (si_placed _ _ _ _ _ _ HI t Ha ltac:(apply not_elem_of_nil)) as Hpl.
  pose proof (si_valid _ _ _ _ _ _ HI t Ha) as Hv.
  pose proof (si_fields _ _ _ _ _ _ HI t Ha) as Hf.
  assert (forall c, t = Idle c -> False) as Hidle.
  { intros c ->. by apply (si_idle _ _ _ _ _ _ HI c Ha) in Hs; [|apply not_elem_of_nil]. }
  pose proof (si_mem _ _ _ _ _ _ HI) as Hwf.
  pose proof (wf_container_some _ _ _ _ Hwf Hin) as Hcont. subst me.
  apply (sinv_exempt (live k) (k_current k) t) in HI as HIx.
  destruct (blocked_remove_inv t [] k Q HIx Hin) as (HI1 & Hc1 & Ho1).
  destruct (unlink_event_inv t [] (blocked_remove t k) _ HI1) as (He2 & HI2 & Hc2 & Ho2).
  { intros l. rewrite Ho1 by done. intros Hl. by destruct (placed_event _ _ _ _ Hpl Hl). }
  set (k2 := unlink_event t (blocked_remove t k)) in *.
  assert (k_tcbs k2 = k_tcbs k) as Htc by (unfold k2; by rewrite unlink_event_tcbs).
  assert (live k2 t) as Ha2 by (unfold k2; by rewrite unlink_event_live).
  destruct (ready_add_inv t [] k2 _ HI2 Ha2) as [HI3 Hpl3].
  { split; [by rewrite Ho2|done]. }
  rewrite Htc in HI3. fold (woken t k) in HI3, Hpl3.
  split_and!; [done|done| |done| |].
  - by rewrite remove_from_blocked_eq, decide_True by (done || apply Hf).
  - apply add_to_ready_eq; [done|]. by rewrite Htc.
  - rewrite <- wake_one_queues by done.
    apply (sinv_admit _ _ t) in HI3; [exact HI3|exact Ha2|exact Hpl3| |].
    + cbn -[k2]. by rewrite fn_lookup_insert.
    + intros c Ht. by apply Hidle in Ht.
Qed.

Lemma wake_tcbs_app ws ws' g : wake_tcbs ws' (wake_tcbs ws g) = wake_tcbs (ws ++ ws') g.
Proof.
  apply functional_extensionality. intros t. unfold wake_tcbs. rewrite fmap_app.
  repeat case_decide; set_solver.
Qed.

Lemma wake_queues_app me prio ws ws' rest rest' Q :
  wake_queues me prio ws' rest (wake_queues me prio ws rest' Q) = wake_queues me prio (ws ++ ws') rest Q.
Proof.
  apply functional_extensionality. intros [c p|c|m|s]; cbn; rewrite ?fmap_app.
  - case_decide; [|done]. by rewrite filter_app, <- app_assoc.
  - by case_decide.
  - rewrite list_filter_filter. apply filter_ext_in. intros n _. rewrite not_elem_of_app. tauto.
  - rewrite list_filter_filter. apply filter_ext_in. intros n _. rewrite not_elem_of_app. tauto.
Qed.

Lemma wake_queues_nil me prio rest Q : Q (LBlocked me) = rest -> wake_queues me prio [] rest Q = Q.
Proof.
  intros Hq. apply functional_extensionality.
  assert (forall l, filter (fun n => node_tcb n ∉ node_tcb <$> []) (Q l) = Q l) as Hf.
  { intros l. induction (Q l) as [|x q IHq]; [done|].
    rewrite filter_cons_True by apply not_elem_of_nil. by f_equal. }
  intros [c p|c|m|s]; cbn; [| |apply Hf..]; case_decide; subst; by rewrite ?app_nil_r.
Qed.

Lemma wake_tcbs_nil g : wake_tcbs [] g = g.
Proof.
  apply functional_extensionality. intros t. unfold wake_tcbs. by case_decide; [set_solver|].
Qed.

Lemma wake_tcbs_field {A} (f : TaskControlBlock -> A) ws g t :
  (forall r s, f (r <| current_state := s |>) = f r) -> f (wake_tcbs ws g t) = f (g t).
Proof. intros Hf. unfold wake_tcbs. by case_decide. Qed.

Lemma woken_frame (t : tcb) (k : kstate) :
  woken t k = k <| k_dm := k_dm (woken t k) |> <| k_tcbs ::= wake_tcbs [NState t] |>.
Proof.
  assert (forall g, <[t := (g t) <| current_state := TASK_STATE_READY |>]> g = wake_tcbs [NState t] g)
    as Hg.
  { intros g. apply functional_extensionality. intros u. rewrite fn_insert_lookup.
    unfold wake_tcbs. cbn. repeat case_decide; subst; set_solver. }
  unfold woken, ready_add. rewrite unlink_event_frame. cbn -[unlink_event list_push_back].
  f_equal. apply Hg.
Qed.

Definition tick_now (k : kstate) (me : Z) : Z := default 0 (s_tick_count (k_cores k me)).

(** The state after one turn of the wake-up loop. *)
Definition woken_reported (t : tcb) (k : kstate) : kstate :=
  (woken t k) <| k_tel ::= telemetry_report_task_unblocked (task_id (k_tcbs (woken t k) t))
                             (core_id (k_tcbs (woken t k) t)) |>.

Lemma woken_reported_frame (t : tcb) (k : kstate) :
  woken_reported t k = k <| k_dm := k_dm (woken t k) |> <| k_tcbs ::= wake_tcbs [NState t] |>
                         <| k_tel := k_tel (woken_reported t k) |>.
Proof.
  assert (forall (w : kstate) f g, w = k <| k_dm := k_dm w |> <| k_tcbs ::= f |> ->
            w <| k_tel ::= g |> = k <| k_dm := k_dm w |> <| k_tcbs ::= f |> <| k_tel := g (k_tel w) |>)
    as Hframe by (intros [] f g Hw; cbn in *; injection Hw; intros; by subst).
  apply Hframe, woken_frame.
Qed.

Lemma tick_wake_step (me : Z) (t : tcb) (q : list node) (fuel : nat) (k : kstate) (Q : queues) now :
  sched_inv [] k Q -> Q (LBlocked me) = NState t :: q ->
  s_tick_count (k_cores k me) = Some now -> wake (k_tcbs k) (NState t) <= now ->
  tick_wake (S fuel) me k = tick_wake fuel me (woken_reported t k).
Proof.
  intros HI Hq Hnow Hw. destruct (wake_one_inv me t q k Q HI Hq) as (_ & _ & Hr1 & Hr2 & Hr3 & _).
  pose proof (si_mem _ _ _ _ _ _ HI (LBlocked me)) as Hrep.
  cbn [tick_wake]. unfold_K. rewrite (rep_head _ _ _ Hrep), Hq. cbn [head].
  unfold scheduler_get_tick_count. unfold_K. rewrite Hnow.
  assert (li_owner (items (k_dm k) (NState t)) = Some t) as Ho
    by (apply (rep_owner _ _ _ Hrep (NState t)); rewrite Hq; by left).
  rewrite owner_wakeup_eq, (proj2 (Z.leb_le _ _)), Ho by done.
  rewrite Hr1, Hr2, Hr3. reflexivity.
Qed.

(** The wake-up loop wakes the tasks of the expired prefix, in order, and
    nobody else. *)
Lemma tick_wake_eq (me : Z) (ws rest : list node) :
  forall (fuel : nat) (k : kstate) (Q : queues),
  sched_inv [] k Q -> s_tick_count (k_cores k me) <> None ->
  Q (LBlocked me) = ws ++ rest ->
  Forall (fun n => wake (k_tcbs k) n <= tick_now k me) ws ->
  (forall h, head rest = Some h -> tick_now k me < wake (k_tcbs k) h) ->
  (length ws < fuel)%nat ->
  exists d' te, let k' := k <| k_dm := d' |> <| k_tcbs ::= wake_tcbs ws |> <| k_tel := te |> in
    tick_wake fuel me k = Ret tt k' /\
    sched_inv [] k' (wake_queues me (fun t => priority (k_tcbs k t)) ws rest Q).
Proof.
  induction ws as [|n ws IH]; intros fuel k Q HI Htick Hq Hws Hrest Hf.
  - destruct fuel as [|fuel]; [cbn in Hf; lia|].
    exists (k_dm k), (k_tel k). cbn zeta.
    assert (k <| k_dm := k_dm k |> <| k_tcbs ::= wake_tcbs [] |> <| k_tel := k_tel k |> = k) as ->
      by (cbn; rewrite wake_tcbs_nil; by destruct k).
    rewrite wake_queues_nil by done.
    split; [|done]. cbn [tick_wake]. unfold_K.
    rewrite (rep_head _ _ _ (si_mem _ _ _ _ _ _ HI (LBlocked me))), Hq. cbn [app].
    destruct rest as [|h rest]; [done|]. cbn [head].
    unfold scheduler_get_tick_count. unfold_K. unfold tick_now in Hrest.
    destruct (s_tick_count (k_cores k me)) as [now|]; [|done].
    rewrite owner_wakeup_eq
      by (apply (rep_owner _ _ _ (si_mem _ _ _ _ _ _ HI (LBlocked me))); rewrite Hq; by left).
    rewrite (proj2 (Z.leb_gt _ _)); [done|]. by apply Hrest.
  - destruct fuel as [|fuel]; [cbn in Hf; lia|].
    apply Forall_cons_iff in Hws as [Hn Hws]. cbn in Hq, Hf.
    assert (n ∈ Q (LBlocked me)) as Hin by (rewrite Hq; by left).
    destruct (member_blocked _ _ _ _ _ _ _ _ HI Hin) as (t & -> & _); [apply not_elem_of_nil|].
    destruct (wake_one_inv me t (ws ++ rest) k Q HI Hq) as (Ha & Hc & Hr1 & Hr2 & Hr3 & HI1).
    pose proof (woken_reported_frame t k) as Hk1.
    set (k1 := woken_reported t k) in *.
    assert (forall u, wakeup_time (k_tcbs k1 u) = wakeup_time (k_tcbs k u) /\
                      priority (k_tcbs k1 u) = priority (k_tcbs k u)) as Hfld
      by (intros u; rewrite Hk1; cbn -[woken]; by rewrite !wake_tcbs_field).
    assert (k_cores k1 = k_cores k) as Hcores by by rewrite Hk1.
    destruct (IH fuel k1 (wake_queues me (fun u => priority (k_tcbs k u)) [NState t] (ws ++ rest) Q))
      as (d' & te' & Hrun & HI').
    { exact HI1. }
    { by rewrite Hcores. }
    { cbn. by rewrite decide_True. }
    { unfold tick_now. rewrite Hcores. eapply Forall_impl; [exact Hws|].
      intros m. unfold wake. by rewrite (proj1 (Hfld _)). }
    { unfold tick_now, wake. rewrite Hcores. intros h Hh. rewrite (proj1 (Hfld _)). by apply Hrest. }
    { lia. }
    exists d', te'. cbn zeta.
    assert (k1 <| k_dm := d' |> <| k_tcbs ::= wake_tcbs ws |> <| k_tel := te' |> =
            k <| k_dm := d' |> <| k_tcbs ::= wake_tcbs (NState t :: ws) |> <| k_tel := te' |>) as Hk.
    { rewrite Hk1. cbn -[woken]. by rewrite wake_tcbs_app. }
    rewrite <- Hk. split.
    + unfold tick_now in Hn. destruct (s_tick_count (k_cores k me)) as [now|] eqn:Hnow; [|done].
      by rewrite (tick_wake_step me t (ws ++ rest) fuel k Q now).
    + replace (fun u => priority (k_tcbs k1 u)) with (fun u => priority (k_tcbs k u)) in HI'
        by (apply functional_extensionality; intros u; by rewrite (proj2 (Hfld u))).
      by rewrite wake_queues_app in HI'.
Qed.

Lemma sched_inv_live ex (k k' : kstate) (Q : queues) :
  k_dm k' = k_dm k -> k_tcbs k' = k_tcbs k -> k_current k' = k_current k ->
  (forall t, live k' t <-> live k t) -> sched_inv ex k Q -> sched_inv ex k' Q.
Proof.
  unfold sched_inv. intros -> -> -> Hl HI. split; try apply HI.
  - intros t Ht. by apply (si_valid _ _ _ _ _ _ HI), Hl.
  - intros t Ht. by apply (si_fields _ _ _ _ _ _ HI), Hl.
  - intros t Ht. by apply (si_placed _ _ _ _ _ _ HI), Hl.
  - intros t Ht. apply (si_dead _ _ _ _ _ _ HI). by rewrite <- Hl.
  - intros c t Hc. rewrite Hl. by apply (si_current _ _ _ _ _ _ HI).
  - intros t Ht. by apply (si_running _ _ _ _ _ _ HI), Hl.
  - intros c Ht. by apply (si_idle _ _ _ _ _ _ HI), Hl.
Qed.

Lemma live_tick (k k' : kstate) (me now : Z) (t : tcb) :
  k_task_counter k' = k_task_counter k ->
  (forall c, c <> me -> s_tick_count (k_cores k' c) = s_tick_count (k_cores k c)) ->
  s_tick_count (k_cores k me) <> None -> s_tick_count (k_cores k' me) = Some now ->
  live k' t <-> live k t.
Proof.
  intros Hn Hc Hs Hs'. destruct t as [c i|c]; cbn; [by rewrite Hn|].
  destruct (decide (c = me)) as [->|Hne]; [|by rewrite Hc]. rewrite Hs'. naive_solver.
Qed.

(** A list sorted by wakeup time splits into what is due and what is not. *)
Lemma sorted_split (g : tcb -> TaskControlBlock) (now : Z) (q : list node) :
  StronglySorted (wake_le g) q ->
  q = filter (fun n => wake g n <= now) q ++ filter (fun n => ~ wake g n <= now) q.
Proof.
  induction 1 as [|n q Hs IH Hf]; [done|]. rewrite !filter_cons.
  destruct (decide (wake g n <= now)) as [Hn|Hn].
  - rewrite (decide_False (P := ~ _)) by tauto. cbn. by rewrite <- IH.
  - rewrite (decide_True (P := ~ _)) by done.
    assert (filter (fun m => wake g m <= now) q = []) as Hnil.
    { clear IH Hs. induction q as [|m q IHq]; [done|]. apply Forall_cons_iff in Hf as [Hm Hf].
      unfold wake_le in Hm. rewrite filter_cons_False by lia. by apply IHq. }
    rewrite Hnil in IH |- *. cbn in *. by rewrite <- IH.
Qed.

(** The tasks a tick of core [me] to time [now] wakes. *)
Definition due (k : kstate) (Q : queues) (me now : Z) : list node :=
  filter (fun n => wake (k_tcbs k) n <= now) (Q (LBlocked me)).
Definition not_due (k : kstate) (Q : queues) (me now : Z) : list node :=
  filter (fun n => ~ wake (k_tcbs k) n <= now) (Q (LBlocked me)).

Definition ticked (me cntpct clk now : Z) (k : kstate) : kstate :=
  k <| k_cval ::= fun f => <[me := u64 (cntpct + clk / hz (k_cores k me))]> f |>
    <| k_cores ::= fun g => <[me := (g me) <| s_tick_count := Some (u64 (now + 1)) |>]> g |>.

Lemma ticked_inv (me cntpct clk now : Z) ex (k : kstate) (Q : queues) :
  sched_inv ex k Q -> s_tick_count (k_cores k me) = Some now ->
  sched_inv ex (ticked me cntpct clk now k) Q.
Proof.
  intros HI Hnow. apply (sched_inv_live ex k); [done|done|done| |done].
  intros t. apply (live_tick _ _ me (u64 (now + 1))); [done| |by rewrite Hnow|].
  - intros c Hc. cbn. by rewrite fn_lookup_insert_ne.
  - cbn. by rewrite fn_lookup_insert.
Qed.

(** The handler up to the call of the software-timer hook. *)
Lemma timer_tick_eq `{Hooks} (me cntpct clk now : Z) (k : kstate) (Q : queues) :
  sched_inv [] k Q -> k_held k = [] -> 0 <= me < COMPANION_CORE_MAX_CORES ->
  s_clk_freq (k_cores k me) = Some clk -> hz (k_cores k me) <> 0 ->
  s_tick_count (k_cores k me) = Some now ->
  let now' := u64 (now + 1) in
  exists d' te,
    let k' := (ticked me cntpct clk now k) <| k_dm := d' |>
                <| k_tcbs ::= wake_tcbs (due k Q me now') |> <| k_tel := te |> in
    timer_tick_handler me cntpct k =
      (if me =? 0 then software_timer_tick me now' else mret tt) k' /\
    sched_inv [] k' (wake_queues me (fun t => priority (k_tcbs k t)) (due k Q me now')
                       (not_due k Q me now') Q).
Proof.
  intros HI Hh Hme Hclk Hhz Hnow now'.
  pose proof (ticked_inv me cntpct clk now [] k Q HI Hnow) as HI1.
  set (k1 := ticked me cntpct clk now k) in *.
  assert (s_tick_count (k_cores k1 me) = Some now') as Hnow1
    by (unfold k1, ticked; cbn; by rewrite fn_lookup_insert).
  set (k2 := k1 <| k_held ::= cons (LkSched me) |>).
  assert (tick_now k2 me = now') as Htn.
  { unfold tick_now. change (k_cores k2) with (k_cores k1). by rewrite Hnow1. }
  assert (sched_inv [] k2 Q) as HI2 by exact HI1.
  assert (s_tick_count (k_cores k2 me) <> None) as Hsome
    by (change (k_cores k2) with (k_cores k1); by rewrite Hnow1).
  destruct (tick_wake_eq me (due k Q me now') (not_due k Q me now') list_fuel k2 Q HI2 Hsome)
    as (d' & te & Hrun & HI').
  - apply sorted_split, (si_sorted _ _ _ _ _ _ HI).
  - rewrite Htn. apply Forall_forall. intros n Hn. by apply list_elem_of_filter in Hn as [Hn _].
  - rewrite Htn. intros h Hhd%head_Some_elem_of. apply list_elem_of_filter in Hhd as [Hhd _].
    change (k_tcbs k2) with (k_tcbs k). lia.
  - pose proof (si_mem _ _ _ _ _ _ HI (LBlocked me)) as Hrep.
    pose proof (valid_length _ (rep_nodup _ _ _ Hrep) (rep_valid _ _ _ Hrep)) as Hlen.
    pose proof (length_filter (fun n => wake (k_tcbs k) n <= now') (Q (LBlocked me))) as Hfl.
    unfold due, list_fuel. lia.
  - exists d', te. split; [|exact HI'].
    assert (may_acquire (LkSched me) (k_held k1) = true) as Hm
      by (change (k_held k1) with (k_held k); by rewrite Hh).
    unfold timer_tick_handler. exec. rewrite Hclk. exec. exec.
    rewrite (proj2 (Z.eqb_neq _ _) Hhz). exec. etrans; [eapply bind_ret, (get_tick_eq me now); exact Hnow|].
    exec. change (field_update k_cores _ _) with k1.
    etrans; [eapply bind_ret, (scheduler_lock_eq me k1); done|]. fold k2.
    exec_with Hrun.
    etrans; [eapply bind_ret, scheduler_unlock_eq; done|].
    replace (field_update k_held (filter (fun h => h <> LkSched me)) _)
      with (k1 <| k_dm := d' |> <| k_tcbs ::= wake_tcbs (due k Q me now') |> <| k_tel := te |>).
    2: { unfold k2, k1. cbn -[wake_tcbs filter]. by rewrite Hh, filter_own_lock. }
    destruct (me =? 0); [|done].
    etrans; [eapply bind_ret, (get_tick_eq me now'); exact Hnow1|]. done.
Qed.

(** ** Delay: functional behaviour *)

(** The task of a core, other than its idle task, while it is not waiting.
    It need not be RUNNING: one that another core wakes before it was switched
    out goes on READY. *)
Definition can_block (k : kstate) (me : Z) (t : tcb) : Prop :=
  k_current k me = Some t /\ runnable (current_state (k_tcbs k t)) /\ (forall c, t <> Idle c).

Lemma runnable_not_blocked (s : TaskState) : runnable s -> s <> TASK_STATE_BLOCKED.
Proof. by intros [-> | ->]. Qed.

(** Setting a task that is off the ready list to BLOCKED. *)
Lemma sinv_block (t : tcb) ex (k : kstate) (Q : queues) :
  sched_inv (t :: ex) k Q -> live k t -> (forall c, t <> Idle c) ->
  (li_container (items (k_dm k) (NState t)) = None \/
   li_container (items (k_dm k) (NState t)) = Some (LBlocked (tcb_core t))) ->
  event_ok (k_dm k) t ->
  ~ (li_container (items (k_dm k) (NState t)) = None /\
     li_container (items (k_dm k) (NEvent t)) = None) ->
  sched_inv ex (set_state t TASK_STATE_BLOCKED k) Q.
Proof.
  intros HI Ha Hidle Hs He Hn.
  assert (sched_inv (t :: ex) (set_state t TASK_STATE_BLOCKED k) Q) as HI1.
  { apply sinv_tcb; [exact HI| |by right]. intros _. exact (si_fields _ _ _ _ _ _ HI t Ha). }
  apply (sinv_admit _ _ t ex) in HI1; [done|done|..]; cbn; rewrite ?fn_lookup_insert; [|done|].
  - by apply (placed_blocked _ _ _ (li_container (items (k_dm k) (NState t)))
                (li_container (items (k_dm k) (NEvent t)))).
  - intros c ->. by destruct (Hidle c).
Qed.

Lemma block_until_eq (me wakeup : Z) (t : tcb) (k : kstate) (Q : queues) :
  sched_inv [] k Q -> k_held k = [] -> can_block k me t ->
  let l := LReady me (priority (k_tcbs k t)) in
  let Q' := <[LBlocked me := blocked_insert (wake (k_tcbs k)) wakeup (NState t) (Q (LBlocked me))]>
              (<[l := del (NState t) (Q l)]> Q) in
  exists d' te, let k' := k <| k_dm := d' |> <| k_tel := te |>
      <| k_tcbs ::= fun g => <[t := (g t) <| wakeup_time := wakeup |>
                                          <| current_state := TASK_STATE_BLOCKED |>]> g |> in
    block_until me wakeup k = Ret (Some t) k' /\ sched_inv [] k' Q'.
Proof.
  intros HI Hh (Hcur & Hrun & Hidle) l Q'.
  destruct (si_current _ _ _ _ _ _ HI me t Hcur) as [Ha Hc].
  pose proof (si_valid _ _ _ _ _ _ HI t Ha) as Hv. pose proof (valid_core _ Hv) as Hme.
  pose proof (si_fields _ _ _ _ _ _ HI t Ha) as Hf. rewrite Hc in Hme.
  pose proof (si_placed _ _ _ _ _ _ HI t Ha ltac:(apply not_elem_of_nil)) as Hpl.
  destruct Hpl as [_ Hs He|cs ce Hb _ _ _ _ _]; [|by apply runnable_not_blocked in Hrun].
  pose proof Hs as Hin. apply (wf_container _ _ _ _ (si_mem _ _ _ _ _ _ HI)) in Hin.
  set (k1 := k <| k_irq_masked ::= fun f => <[me := true]> f |> <| k_held ::= cons (LkSched me) |>).
  apply (sinv_exempt (live k) (k_current k) t) in HI.
  assert (sched_inv [t] k1 Q) as HI1 by exact HI.
  pose proof (remove_from_ready_eq t k1 Hv Hf Hs) as Hr1.
  destruct (ready_remove_inv t [] k1 Q HI1 Hin) as (HI2 & Hs2 & Ho2).
  set (k2 := ready_remove t k1) in *.
  destruct (blocked_add_inv t [] wakeup k2 _ HI2 Ha Hs2) as (d' & Hr3 & HI3 & Hs3 & Ho3).
  { intros x. rewrite Ho2 by done. change (k_dm k1) with (k_dm k). by rewrite He. }
  set (k3 := blocked_at t wakeup d' k2) in *.
  assert (sched_inv [] (set_state t TASK_STATE_BLOCKED k3) Q') as HI4.
  { apply (sinv_block t []); [|exact Ha|done|by right|..].
    - rewrite Hc in HI3. rewrite fn_lookup_insert_ne in HI3 by done.
      change (k_tcbs k2) with (k_tcbs k) in HI3. change (k_tcbs k1) with (k_tcbs k) in HI3.
      exact HI3.
    - intros x. change (k_dm k3) with d'. rewrite Ho3, Ho2 by done.
      change (k_dm k1) with (k_dm k). by rewrite He.
    - change (k_dm k3) with d'. rewrite Hs3. by intros [? _]. }
  exists d', (telemetry_report_task_blocked (task_id (k_tcbs k t)) me SYNC_KIND_NONE 0 (k_tel k)).
  split.
  - unfold block_until. exec. rewrite Hcur.
    etrans; [eapply bind_ret, enter_critical_eq|].
    etrans; [eapply bind_ret, scheduler_lock_eq; [exact Hme|by cbn; rewrite Hh]|].
    exec_with Hr1. exec_with Hr3. exec. exec. exec. exec.
    etrans; [eapply bind_ret, scheduler_unlock_eq; exact Hme|].
    exec. unfold mret, M_mret. f_equal. unfold k3, k2, k1, blocked_at, ready_remove.
    cbn -[list_remove_ready filter].
    rewrite !fn_insert_insert, !fn_lookup_insert, Hh, filter_own_lock. cbn.
    by rewrite (fn_insert_id (k_irq_masked k)).
  - apply (sched_inv_live [] (set_state t TASK_STATE_BLOCKED k3)); [done| |done|done|exact HI4].
    unfold k3, k2, k1, blocked_at, ready_remove, set_state. cbn -[list_remove_ready].
    by rewrite fn_insert_insert, fn_lookup_insert.
Qed.

(** ** Initialisation: functional behaviour *)

Definition idle_tcb_init (c : Z) : TaskControlBlock :=
  mkTCB (Some (IdlePtr c (IDLE_STACK_DEPTH - 16))) (Some (IdlePtr c (IDLE_STACK_DEPTH - 1)))
    (Some (IdlePtr c 0)) IDLE_STACK_DEPTH 0xFFFF c TASK_STATE_READY
    TASK_PRIORITY_IDLE 0 WAKEUP_REASON_NONE TASK_PRIORITY_IDLE 0.

(** The ready and blocked lists of core [c], cleared. *)
Definition cleared (c : Z) (d : dmem) : dmem :=
  reset_list (LBlocked c) (reset_list (LReady c 5) (reset_list (LReady c 4) (reset_list (LReady c 3)
    (reset_list (LReady c 2) (reset_list (LReady c 1) (reset_list (LReady c 0) d)))))).

Definition fresh_item (t : tcb) : ListItem := mkListItem None None (Some t) None.

Definition initialised (c clk new_hz : Z) (st : Z -> Z) (r : SchedulerCore) : SchedulerCore :=
  r <| s_clk_freq := Some clk |> <| hz := new_hz |> <| s_tick_count := Some 0 |>
    <| idle_stack := st |>.

Lemma idle_region_ok (c : Z) : region_ok (IdlePtr c 0) IDLE_STACK_DEPTH.
Proof.
  intros w Hw. cbn. by rewrite (proj2 (Z.leb_le _ _)), (proj2 (Z.ltb_lt _ _)) by lia.
Qed.

(** The idle stack: watermark words below the initial frame. *)
Definition idle_stack_image (idle_func : Z) (w : Z) : Z :=
  if decide (IDLE_STACK_DEPTH - 16 <= w < IDLE_STACK_DEPTH)
  then u32 (frame_word idle_func 0 0 (w - (IDLE_STACK_DEPTH - 16)))
  else TASK_WATERMARK.

Lemma idle_stack_eq (c idle_func : Z) (k : kstate) :
  exists st,
    (for_ (Z.to_nat IDLE_STACK_DEPTH) 0 (fun i => stack_store (IdlePtr c i) TASK_WATERMARK);;
     init_frame (IdlePtr c (IDLE_STACK_DEPTH - 1)) idle_func 0 0) k =
    Ret (IdlePtr c (IDLE_STACK_DEPTH - 16))
        (k <| k_cores ::= fun g => <[c := (g c) <| idle_stack := st |>]> g |>) /\
    forall w, 0 <= w < IDLE_STACK_DEPTH -> st w = idle_stack_image idle_func w.
Proof.
  destruct (fill_words (IdlePtr c 0) IDLE_STACK_DEPTH TASK_WATERMARK (Z.to_nat IDLE_STACK_DEPTH) 0 k
              (idle_region_ok c)) as (k1 & Hr1 & Ho1 & Hw1); [done..|].
  destruct (init_frame_words (IdlePtr c 0) IDLE_STACK_DEPTH idle_func 0 0 k1 (idle_region_ok c))
    as (k2 & Hr2 & Ho2 & Hw2); [done|].
  pose proof (region_only_trans _ _ _ _ _ Ho1 Ho2) as [st Hst].
  exists st. rewrite <- Hst. split; [by exec_with Hr1|].
  intros w Hw. specialize (Hw2 w). rewrite Hw1, Hst in Hw2. unfold word, stack_word in Hw2.
  cbn in Hw2. rewrite fn_lookup_insert in Hw2. cbn in Hw2. rewrite Z.add_0_l in Hw2.
  rewrite Hw2. unfold idle_stack_image. case_decide; [done|].
  by rewrite decide_True by (unfold IDLE_STACK_DEPTH in *; lia).
Qed.

Section init.
Context `{Hooks} (idle_func c clk new_hz tick0 : Z) (k : kstate) (Q : queues).
Context (HI : sched_inv [] k Q) (Hheld : k_held k = []).
Context (Hc : 0 <= c < COMPANION_CORE_MAX_CORES).
Context (Hfresh : s_tick_count (k_cores k c) = None) (Hnone : k_task_counter k c = 0).

Lemma init_no_tasks t : live k t -> tcb_core t <> c.
Proof.
  destruct t as [c' i|c']; cbn; intros Ha; [|naive_solver].
  intros ->. rewrite Hnone in Ha. lia.
Qed.

Lemma init_ready_empty p : Q (LReady c p) = [].
Proof.
  destruct (Q (LReady c p)) as [|n q] eqn:Hq; [done|].
  assert (n ∈ Q (LReady c p)) as Hn by (rewrite Hq; by left).
  destruct (member_ready _ _ _ _ _ _ _ _ _ HI Hn) as (t & _ & Ha & Hcc & _);
    [apply not_elem_of_nil|]. by apply init_no_tasks in Ha.
Qed.

Lemma init_blocked_empty : Q (LBlocked c) = [].
Proof.
  destruct (Q (LBlocked c)) as [|n q] eqn:Hq; [done|].
  assert (n ∈ Q (LBlocked c)) as Hn by (rewrite Hq; by left).
  destruct (member_blocked _ _ _ _ _ _ _ _ HI Hn) as (t & _ & Ha & Hcc & _);
    [apply not_elem_of_nil|]. by apply init_no_tasks in Ha.
Qed.

(** The state when the idle task is about to be put on its ready list. *)
Definition init_state (st : Z -> Z) (te : telemetry) : kstate :=
  k <| k_cores ::= fun g => <[c := initialised c clk new_hz st (g c)]> g |>
    <| k_tcbs ::= fun g => <[Idle c := idle_tcb_init c]> g |>
    <| k_dm ::= cleared c |>
    <| k_dm ::= set_item (NState (Idle c)) (fun _ => fresh_item (Idle c)) |>
    <| k_dm ::= set_item (NEvent (Idle c)) (fun _ => fresh_item (Idle c)) |>
    <| k_tel := te |>.

Lemma init_state_inv st te :
  sched_inv [Idle c] (init_state st te) Q /\ live (init_state st te) (Idle c) /\
  unplaced (k_dm (init_state st te)) (Idle c).
Proof.
  assert (~ live k (Idle c)) as Hdead by (intros Ha; by apply init_no_tasks in Ha).
  destruct (si_dead _ _ _ _ _ _ HI _ Hdead) as [H1 H2]; [apply not_elem_of_nil|].
  assert (live (init_state st te) (Idle c)) as Ha
    by (split; [done|]; cbn; by rewrite fn_lookup_insert).
  split_and!; [|done|].
  - unfold sched_inv. unfold init_state at 2. cbn [k_dm field_update].
    apply sinv_set_item; [|done| |done].
    + apply sinv_set_item; [|done| |done].
      * unfold cleared.
        repeat (apply sinv_reset; [|apply init_ready_empty || apply init_blocked_empty]).
        apply (sinv_create (live k) (live (init_state st te)) (k_current k) (Idle c));
          [done|done| |exact HI|apply not_elem_of_nil|done|].
        -- intros u Hu. destruct u as [c' i|c']; cbn; [done|].
           rewrite fn_lookup_insert_ne by congruence. done.
        -- by repeat split.
      * unfold cleared, reset_list. by rewrite !items_set_list.
    + rewrite items_set_item, decide_False by done. unfold cleared, reset_list.
      by rewrite !items_set_list.
  - split; cbn -[cleared]; rewrite !items_set_item.
    + by rewrite decide_False, decide_True.
    + by rewrite decide_True.
Qed.

Lemma init_resets (k1 : kstate) :
  (for_ (Z.to_nat NUM_TASK_PRIORITIES) 0 (fun i => on_dm (reset_list (LReady c i)));;
   on_dm (reset_list (LBlocked c))) k1 = Ret tt (k1 <| k_dm ::= cleared c |>).
Proof. reflexivity. Qed.

(** Up to the start of the DFU task, whatever that does. *)
Lemma scheduler_init_until :
  exists d' st te,
    let k' := k <| k_cores ::= fun g => <[c := initialised c clk new_hz st (g c)]> g |>
                <| k_tcbs ::= fun g => <[Idle c := idle_tcb_init c]> g |>
                <| k_dm := d' |> <| k_tel := te |> in
    scheduler_init idle_func c (Some clk) new_hz (Some tick0) k =
      (dfu_ret ← (if c =? 0 then dfu_trigger_task_start c else mret E_OK);
       if decide (dfu_ret = E_OK)
       then tel (telemetry_report_boot_milestone BOOT_MS_SCHEDULER_INIT_DONE BOOT_STAGE_APP c);; mret E_OK
       else mret dfu_ret) k' /\
    sched_inv [] k' (<[LReady c 0 := [NState (Idle c)]]> Q) /\
    (forall w, 0 <= w < IDLE_STACK_DEPTH -> st w = idle_stack_image idle_func w).
Proof.
  set (kA := k <| k_held ::= filter (fun h => h <> LkSched c) |>
               <| k_cores ::= fun g => <[c := (g c) <| s_clk_freq := Some clk |> <| hz := new_hz |>
                                               <| s_tick_count := Some 0 |>]> g |>
               <| k_dm ::= cleared c |>).
  destruct (idle_stack_eq c idle_func kA) as (st & Hst & Himg).
  set (te1 := telemetry_report_task_created 0xFFFF c TASK_PRIORITY_IDLE idle_name (k_tel k)).
  destruct (init_state_inv st te1) as (HI1 & Ha1 & Hun1).
  set (k1 := init_state st te1) in *.
  set (k2 := k1 <| k_held := [LkSched c] |>).
  assert (k_tcbs k1 (Idle c) = idle_tcb_init c) as Htcb
    by (unfold k1, init_state; cbn; by rewrite fn_lookup_insert).
  assert (fields_ok (Idle c) (k_tcbs k2 (Idle c))) as Hf
    by exact (si_fields _ _ _ _ _ _ HI1 _ Ha1).
  destruct (ready_add_inv (Idle c) [] k2 Q HI1 Ha1 Hun1) as [HI2 Hpl].
  assert (priority (k_tcbs k2 (Idle c)) = 0) as Hp
    by (change (k_tcbs k2) with (k_tcbs k1); by rewrite Htcb).
  rewrite Hp in HI2. cbn [tcb_core] in HI2. rewrite init_ready_empty in HI2. cbn [app] in HI2.
  assert (sched_inv [] (ready_add (Idle c) k2) (<[LReady c 0 := [NState (Idle c)]]> Q)) as HI3.
  { apply (sinv_admit _ _ (Idle c) [] _ _ _ HI2 Ha1 Hpl); cbn -[k2 list_push_back];
      by rewrite fn_lookup_insert. }
  exists (k_dm (ready_add (Idle c) k2)), st, te1.
  split_and!; [| |exact Himg].
  - unfold scheduler_init. rewrite core_guard_range by done.
    cbn [bool_decide decide orb]. cbv zeta.
    exec. exec.
    etrans; [eapply bind_ret2, init_resets|].
    etrans; [eapply bind_ret2; exact Hst|].
    exec. exec. exec.
    etrans; [eapply bind_ret, enter_critical_eq|]. exec. exec.
    etrans; [eapply bind_ret, scheduler_lock_eq; [done|by cbn; rewrite Hheld]|].
    replace (field_update k_held (cons (LkSched c)) _) with k2.
    2: { unfold k2, k1, init_state, kA, initialised. cbn -[cleared].
         rewrite Hheld, !fn_insert_insert, !fn_lookup_insert. cbn -[cleared].
         by rewrite (fn_insert_id (k_irq_masked k)). }
    exec_with (add_to_ready_eq (Idle c) k2 Hc Hf).
    etrans; [eapply bind_ret, scheduler_unlock_eq; exact Hc|].
    f_equal. unfold ready_add, k2, k1, init_state.
    cbn -[cleared list_push_back filter]. rewrite fn_insert_insert, fn_lookup_insert, filter_own_lock.
    cbn -[cleared list_push_back]. by rewrite Hheld.
  - apply (sched_inv_live [] (ready_add (Idle c) k2)); [done| |done|done|exact HI3].
    unfold ready_add, k2, k1, init_state. cbn -[cleared list_push_back].
    by rewrite fn_insert_insert, fn_lookup_insert.
Qed.

Context (Hhook : c = 0 -> forall k', dfu_trigger_task_start 0 k' = Ret E_OK k').

Lemma scheduler_init_eq :
  exists d' st te,
    let k' := k <| k_cores ::= fun g => <[c := initialised c clk new_hz st (g c)]> g |>
                <| k_tcbs ::= fun g => <[Idle c := idle_tcb_init c]> g |>
                <| k_dm := d' |> <| k_tel := te |> in
    scheduler_init idle_func c (Some clk) new_hz (Some tick0) k = Ret E_OK k' /\
    sched_inv [] k' (<[LReady c 0 := [NState (Idle c)]]> Q) /\
    (forall w, 0 <= w < IDLE_STACK_DEPTH -> st w = idle_stack_image idle_func w).
Proof.
  destruct scheduler_init_until as (d' & st & te & Heq & HI' & Hst).
  exists d', st, (telemetry_report_boot_milestone BOOT_MS_SCHEDULER_INIT_DONE BOOT_STAGE_APP c te). split_and!; [|exact HI'|exact Hst].
  assert (forall k', (if c =? 0 then dfu_trigger_task_start c else mret E_OK) k' = Ret E_OK k') as Hdfu.
  { intros k'. destruct (Z.eqb_spec c 0) as [->|]; [by apply Hhook|done]. }
  rewrite Heq. etrans; [eapply bind_ret, Hdfu|]. cbn [decide]. rewrite decide_True by done. by exec.
Qed.
End init.

(** ** Waking and blocking one task: the invariant

    What the mutex and the semaphore do around their own lists. *)

(** A task on no list at all is put back on its ready list. *)
Lemma ready_again_inv (t : tcb) ex (k : kstate) (Q : queues) :
  let l := LReady (tcb_core t) (priority (k_tcbs k t)) in
  sched_inv (t :: ex) k Q -> live k t -> unplaced (k_dm k) t ->
  sched_inv ex (ready_add t k) (<[l := Q l ++ [NState t]]> Q).
Proof.
  intros l HI Ha Hu. destruct (ready_add_inv t ex k Q HI Ha Hu) as [HI' Hpl].
  apply (sinv_admit _ _ t ex) in HI'; [done|done|exact Hpl|..];
    cbn -[list_push_back]; by rewrite fn_lookup_insert.
Qed.

(** Rewriting fields of an exempt task that the invariant does not read. *)
Lemma set_fields_inv (t : tcb) ex (k : kstate) (Q : queues) (r : TaskControlBlock) :
  sched_inv (t :: ex) k Q -> core_id r = core_id (k_tcbs k t) ->
  priority r = priority (k_tcbs k t) -> base_priority r = base_priority (k_tcbs k t) ->
  wakeup_time r = wakeup_time (k_tcbs k t) ->
  sched_inv (t :: ex) (k <| k_tcbs ::= fun g => <[t := r]> g |>) Q.
Proof.
  intros HI Hc Hp Hb Hw.
  apply (sinv_tcb _ _ t ex) with (r := r) in HI; [exact HI| |by right].
  intros Ha. pose proof (si_fields _ _ _ _ _ _ HI t Ha) as Hf. unfold fields_ok in *. congruence.
Qed.

(** Moving a task whose event item is already queued off the ready list and,
    when the wait is bounded, onto the blocked list; [m] is the code that does
    the second step. *)
Lemma wait_core (t : tcb) (l : lref) (w : Z) (timed : bool) (m : K unit) (k : kstate) (Q : queues) :
  sched_inv [t] k Q -> live k t -> (forall c, t <> Idle c) -> sync_list l ->
  let lr := LReady (tcb_core t) (priority (k_tcbs k t)) in
  li_container (items (k_dm k) (NState t)) = Some lr ->
  li_container (items (k_dm k) (NEvent t)) = Some l ->
  (forall k2, k_cores k2 = k_cores k -> m k2 = (scheduler_add_to_blocked_list (Some t) w;; mret tt) k2) ->
  let lb := LBlocked (tcb_core t) in
  let Q1 := <[lr := del (NState t) (Q lr)]> Q in
  let Q2 := if timed then <[lb := blocked_insert (wake (k_tcbs k)) w (NState t) (Q lb)]> Q1 else Q1 in
  exists d', let k' := k <| k_dm := d' |> <| k_tcbs ::= fun g =>
      <[t := if timed then (g t) <| wakeup_time := w |> else g t]> g |> in
    (scheduler_remove_from_ready_list (Some t);; when timed m) k = Ret tt k' /\
    sched_inv [] (set_state t TASK_STATE_BLOCKED k') Q2.
Proof.
  intros HI Ha Hidle Hl lr Hs He Hm lb Q1 Q2.
  pose proof (si_valid _ _ _ _ _ _ HI t Ha) as Hv. pose proof (si_fields _ _ _ _ _ _ HI t Ha) as Hf.
  pose proof Hs as Hin. apply (wf_container _ _ _ _ (si_mem _ _ _ _ _ _ HI)) in Hin.
  pose proof (remove_from_ready_eq t k Hv Hf Hs) as Hr.
  destruct (ready_remove_inv t [] k Q HI Hin) as (HI2 & Hs2 & Ho2).
  set (k2 := ready_remove t k) in *.
  assert (event_ok (k_dm k2) t) as Hev.
  { intros x. rewrite Ho2 by done. rewrite He. by intros [= <-]. }
  destruct timed.
  - destruct (blocked_add_inv t [] w k2 _ HI2 Ha Hs2 Hev) as (d' & Hr3 & HI3 & Hs3 & Ho3).
    exists d'. split.
    + exec_with Hr. cbn [when]. rewrite Hm by done. exec_with Hr3. reflexivity.
    + apply (sinv_block t []); [|exact Ha|done|by right|..].
      * rewrite fn_lookup_insert_ne in HI3 by done. exact HI3.
      * intros x. cbn. rewrite Ho3 by done. apply Hev.
      * cbn. rewrite Hs3. by intros [? _].
  - exists (k_dm k2). split.
    + exec_with Hr. unfold when, mret, M_mret. f_equal. unfold k2, ready_remove. destruct k; cbn.
      by rewrite (fn_insert_id _ t).
    + apply (sinv_block t []); [|exact Ha|done|by left|..].
      * assert (forall g : tcb -> TaskControlBlock, <[t := g t]> g = g) as Hid by (intros; by apply fn_insert_id).
        unfold sched_inv. cbn. rewrite Hid. exact HI2.
      * exact Hev.
      * pose proof (Ho2 (NEvent t) ltac:(done)) as Hn. rewrite He in Hn. change (k_dm (_ <| k_tcbs ::= _ |>)) with (k_dm k2). rewrite Hn. by intros [_ ?].
Qed.

(** Queueing the event item of a task that can block. *)
Lemma push_event_inv (l : lref) (t : tcb) (k : kstate) (Q : queues) :
  sched_inv [] k Q -> live k t -> runnable (current_state (k_tcbs k t)) -> sync_list l ->
  let lr := LReady (tcb_core t) (priority (k_tcbs k t)) in
  let d' := list_push_back false l (NEvent t) t (k_dm k) in
  sched_inv [t] (k <| k_dm := d' |>) (<[l := Q l ++ [NEvent t]]> Q) /\
  li_container (items d' (NState t)) = Some lr /\ li_container (items d' (NEvent t)) = Some l.
Proof.
  intros HI Ha Hrun Hl lr d'. pose proof (si_mem _ _ _ _ _ _ HI) as Hwf.
  pose proof (si_valid _ _ _ _ _ _ HI t Ha) as Hv.
  destruct (si_placed _ _ _ _ _ _ HI t Ha ltac:(apply not_elem_of_nil)) as [_ Hs He|? ? Hb];
    [|destruct Hrun; congruence].
  pose proof (wf_push_back false _ _ l (NEvent t) Hwf He Hv) as Hwf'.
  assert (forall n, n <> NEvent t -> li_container (items d' n) = li_container (items (k_dm k) n)) as Hcont.
  { intros n Hn. eapply wf_container_eq; [done..|]. rewrite elem_of_app, list_elem_of_singleton.
    naive_solver. }
  split_and!.
  - apply (sinv_lists _ _ t [] (k_dm k) _ _ Q); [by apply sinv_exempt|done|..].
    + intros n Hn. apply Hcont. by intros ->.
    + intros c p. rewrite fn_lookup_insert_ne by (by destruct l).
      eapply index_frame; [|apply (si_index _ _ _ _ _ _ HI)].
      change (l_index (lists d' (LReady c p)) = l_index (lists (k_dm k) (LReady c p))).
      unfold d'. rewrite push_back_index, decide_False; [done|]. by intros (_ & ? & _).
    + intros c. rewrite fn_lookup_insert_ne by (by destruct l). apply (si_sorted _ _ _ _ _ _ HI).
  - by rewrite Hcont.
  - apply (wf_container_some _ _ _ _ Hwf'). rewrite fn_lookup_insert. apply elem_of_app. right.
    by apply list_elem_of_singleton.
Qed.

(** Fields the invariant does not read, on any task. *)
Lemma same_fields_inv ex (k : kstate) (Q : queues) (g' : tcb -> TaskControlBlock) :
  sched_inv ex k Q ->
  (forall u, core_id (g' u) = core_id (k_tcbs k u) /\ priority (g' u) = priority (k_tcbs k u) /\
     base_priority (g' u) = base_priority (k_tcbs k u) /\
     wakeup_time (g' u) = wakeup_time (k_tcbs k u) /\
     current_state (g' u) = current_state (k_tcbs k u)) ->
  sched_inv ex (k <| k_tcbs := g' |>) Q.
Proof.
  intros [] Hg. split; cbn; try done.
  - intros u Ha. specialize (si_fields u Ha). destruct (Hg u) as (H1 & H2 & H3 & _).
    unfold fields_ok in *. by rewrite H1, H2, H3.
  - intros u Ha Hne. destruct (Hg u) as (H1 & H2 & _ & _ & H5).
    destruct (si_placed u Ha Hne) as [Hr Hs He|cs ce Hb Hs He Hcs Hce Hno].
    + apply placed_ready; by rewrite ?H5, ?H2.
    + apply (placed_blocked _ _ _ cs ce); by rewrite ?H5.
  - intros c. apply (sorted_same_wake (k_tcbs k)); [|apply si_sorted].
    intros n _. unfold wake. apply Hg.
  - intros u Ha Hne. destruct (Hg u) as (_ & _ & _ & _ & ->). by apply si_running.
  - intros c Ha Hne. destruct (Hg (Idle c)) as (_ & _ & _ & _ & ->). by apply si_idle.
Qed.
