(* ===== verification/Heap.v ===== *)
(** * Heap (source/kernel/heap/heap.c)

    The bump allocator.  Sizes are [uint32_t], and so is every sum the code
    forms from one. *)

From S2P Require Import Prelude Types Kernel.

(** [size = (size + 3) & ~0b11;] *)
Definition round4 (size : Z) : Z := Z.land (u32 (size + 3)) 0xFFFFFFFC.

Definition heap_malloc (me size : Z) : K (option Z) :=
  let size := round4 size in
  cpsr ← enter_critical me;
  spinlock_acquire LkHeap;;
  off ← gets k_heap_offset;
  if HEAP_SIZE_BYTES <? u32 (off + size) then
    spinlock_release LkHeap;;
    exit_critical me cpsr;;
    mret None
  else
    modify (fun k => k <| k_heap_offset := u32 (off + size) |>);;
    spinlock_release LkHeap;;
    exit_critical me cpsr;;
    mret (Some off).

(** ** Behaviour *)

Lemma round4_spec (size : Z) : 0 <= size < 2 ^ 32 - 3 -> round4 size = 4 * ((size + 3) / 4).
Proof.
  intros Hs. unfold round4. rewrite wrap_small by lia. set (x := size + 3).
  assert (4 * (x / 4) = Z.shiftl (Z.shiftr x 2) 2) as ->.
  { rewrite Z.shiftl_mul_pow2, Z.shiftr_div_pow2 by lia. change (2 ^ 2) with 4. lia. }
  change 0xFFFFFFFC with (Z.shiftl (Z.ones 30) 2).
  apply Z.bits_inj'. intros k Hk. rewrite Z.land_spec.
  destruct (Z.lt_ge_cases k 2).
  - rewrite !Z.shiftl_spec_low by lia. apply andb_false_r.
  - rewrite !Z.shiftl_spec, Z.shiftr_spec by lia. replace (k - 2 + 2) with k by lia.
    rewrite Z.testbit_ones_nonneg by lia.
    destruct (Z.lt_ge_cases k 32); [rewrite (proj2 (Z.ltb_lt _ _)) by lia; apply andb_true_r|].
    rewrite <- (Z.mod_small x (2 ^ 32)) by (unfold x; lia).
    by rewrite Z.mod_pow2_bits_high by lia.
Qed.

(** A well-formed heap: the offset is within the pool and word-aligned. *)
Definition heap_ok (k : kstate) : Prop :=
  0 <= k_heap_offset k <= HEAP_SIZE_BYTES /\ k_heap_offset k mod 4 = 0.

(** A request that fits is granted at the current offset; the offset moves by
    the request rounded up to a word. *)
Lemma heap_malloc_fits (me size : Z) (k : kstate) :
  k_held k = [] -> heap_ok k -> 0 <= size -> k_heap_offset k + 4 * ((size + 3) / 4) <= HEAP_SIZE_BYTES ->
  heap_malloc me size k = Ret (Some (k_heap_offset k))
    (k <| k_heap_offset := k_heap_offset k + 4 * ((size + 3) / 4) |>).
Proof.
  intros Hh [Hok _] Hs Hfit. unfold HEAP_SIZE_BYTES in *.
  assert (size < 2 ^ 32 - 3) by (Z.div_mod_to_equations; lia).
  unfold heap_malloc. rewrite round4_spec by lia.
  etrans; [eapply bind_ret, enter_critical_eq|].
  etrans; [eapply bind_ret, acquire_eq; by cbn; rewrite Hh|]. exec.
  cbn [k_heap_offset field_update].
  rewrite wrap_small by (Z.div_mod_to_equations; lia).
  rewrite (proj2 (Z.ltb_ge _ _)) by (unfold HEAP_SIZE_BYTES; lia). exec. exec. exec.
  unfold mret, M_mret. f_equal. cbn -[filter Z.mul Z.div].
  rewrite Hh, filter_own_lock, fn_insert_insert, fn_insert_id by done. by destruct k; cbn in *; subst.
Qed.

(** A request that does not fit is refused and changes nothing, as long as it
    is small enough for the 32-bit sum not to wrap. *)
Lemma heap_malloc_full (me size : Z) (k : kstate) :
  k_held k = [] -> heap_ok k -> 0 <= size < 2 ^ 32 - 3 - HEAP_SIZE_BYTES ->
  HEAP_SIZE_BYTES < k_heap_offset k + 4 * ((size + 3) / 4) ->
  heap_malloc me size k = Ret None k.
Proof.
  intros Hh [Hok _] Hs Hfit. unfold HEAP_SIZE_BYTES in *.
  unfold heap_malloc. rewrite round4_spec by lia.
  etrans; [eapply bind_ret, enter_critical_eq|].
  etrans; [eapply bind_ret, acquire_eq; by cbn; rewrite Hh|]. exec.
  cbn [k_heap_offset field_update].
  rewrite wrap_small by (Z.div_mod_to_equations; lia).
  rewrite (proj2 (Z.ltb_lt _ _)) by (unfold HEAP_SIZE_BYTES; lia). exec. exec.
  unfold mret, M_mret. f_equal. cbn -[filter Z.mul Z.div].
  rewrite Hh, filter_own_lock, fn_insert_insert, fn_insert_id by done. by destruct k; cbn in *; subst.
Qed.

(** A run of requests; the blocks granted, with the sizes asked for. *)
Fixpoint heap_mallocs (me : Z) (sizes : list Z) : K (list (Z * Z)) :=
  match sizes with
  | [] => mret []
  | size :: sizes' =>
      b ← heap_malloc me size;
      bs ← heap_mallocs me sizes';
      mret (match b with Some off => (off, size) :: bs | None => bs end)
  end.

Lemma heap_malloc_small (me size : Z) (k : kstate) :
  k_held k = [] -> heap_ok k -> 0 <= size < 2 ^ 31 ->
  exists r k', heap_malloc me size k = Ret r k' /\ k_held k' = [] /\ heap_ok k' /\
    k_heap_offset k <= k_heap_offset k' /\
    (forall off, r = Some off -> off = k_heap_offset k /\ off + size <= k_heap_offset k').
Proof.
  intros Hh Hok Hs.
  destruct (Z.le_gt_cases (k_heap_offset k + 4 * ((size + 3) / 4)) HEAP_SIZE_BYTES) as [Hfit|Hfull].
  - eexists _, _. split; [by apply heap_malloc_fits; try lia|]. destruct Hok as [Ho Hm].
    split_and!; [done| |cbn -[Z.mul Z.div]; Z.div_mod_to_equations; lia|].
    + split; cbn -[Z.mul Z.div Z.modulo]; Z.div_mod_to_equations; lia.
    + intros off [= <-]. split; [done|]. cbn -[Z.mul Z.div]. Z.div_mod_to_equations; lia.
  - exists None, k. split_and!; [|done|done|lia|done].
    apply heap_malloc_full; [done|done|unfold HEAP_SIZE_BYTES; lia|done].
Qed.

Lemma heap_mallocs_blocks (me : Z) (sizes : list Z) : forall (k : kstate),
  k_held k = [] -> heap_ok k -> Forall (fun size => 0 <= size < 2 ^ 31) sizes ->
  returns (heap_mallocs me sizes) k (fun bs k' =>
    heap_ok k' /\ k_heap_offset k <= k_heap_offset k' /\
    (forall i off size, bs !! i = Some (off, size) ->
       k_heap_offset k <= off /\ off mod 4 = 0 /\ off + size <= k_heap_offset k') /\
    (forall i j off size off' size', (i < j)%nat ->
       bs !! i = Some (off, size) -> bs !! j = Some (off', size') -> off + size <= off')).
Proof.
  induction sizes as [|size sizes IH]; intros k Hh Hok Hs.
  - cbn. split_and!; [done|lia|done..].
  - apply Forall_cons_iff in Hs as [Hsz Hs].
    destruct (heap_malloc_small me size k Hh Hok Hsz) as (r & k1 & Hr & Hh1 & Hok1 & Hle & Hoff).
    cbn [heap_mallocs]. step. unfold returns at 1. rewrite Hr. step.
    call (IH k1 Hh1 Hok1 Hs). intros bs k2 (Hok2 & Hle2 & Hbs & Hdis). step.
    destruct r as [off0|]; [|split_and!; [done|lia| |done]].
    + destruct (Hoff off0 eq_refl) as [-> Hsz0]. destruct Hok as [Ho Hm].
      split_and!; [done|lia| |].
      * intros [|i] off sz; cbn.
        -- intros [= <- <-]. split_and!; [lia|done|lia].
        -- intros Hi. destruct (Hbs i off sz Hi) as (? & ? & ?). split_and!; [lia|done|lia].
      * intros [|i] [|j] off sz off' sz' Hij; cbn; try lia.
        -- intros [= <- <-] Hj. destruct (Hbs j off' sz' Hj) as (? & ? & ?). lia.
        -- intros Hi Hj. apply (Hdis i j off sz off' sz'); [lia|done..].
    + intros i off sz Hi. destruct (Hbs i off sz Hi) as (? & ? & ?). split_and!; [lia|done|lia].
Qed.

(** ** Properties *)

(** Whatever sequence of requests below 2 GB the kernel makes, every
    block granted is word-aligned, lies inside the 256 KB pool, and ends before
    the next block granted begins: no two allocations overlap. *)
Theorem heap_blocks_disjoint (me : Z) (sizes : list Z) (k : kstate) :
  k_held k = [] -> heap_ok k -> Forall (fun size => 0 <= size < 2 ^ 31) sizes ->
  returns (heap_mallocs me sizes) k (fun bs _ =>
    (forall i off size, bs !! i = Some (off, size) ->
       0 <= off /\ off mod 4 = 0 /\ off + size <= HEAP_SIZE_BYTES) /\
    (forall i j off size off' size', (i < j)%nat ->
       bs !! i = Some (off, size) -> bs !! j = Some (off', size') -> off + size <= off')).
Proof.
  intros Hh Hok Hs. call (heap_mallocs_blocks me sizes k Hh Hok Hs).
  intros bs k' ([Hok' _] & _ & Hb & Hd). split; [|done]. intros i off size Hi.
  destruct Hok as [? _]. destruct (Hb i off size Hi) as (? & ? & ?). split_and!; [lia|done|lia].
Qed.

Lemma heap_blocks_disjoint_witness :
  returns (heap_mallocs 0 [2048; 5; 262144; 64]) kernel_zero (fun bs _ =>
    (forall i off size, bs !! i = Some (off, size) ->
       0 <= off /\ off mod 4 = 0 /\ off + size <= HEAP_SIZE_BYTES) /\
    (forall i j off size off' size', (i < j)%nat ->
       bs !! i = Some (off, size) -> bs !! j = Some (off', size') -> off + size <= off')) /\
  (exists k', heap_mallocs 0 [2048; 5; 262144; 64] kernel_zero
     = Ret [(0, 2048); (2048, 5); (2056, 64)] k').
Proof.
  split; [|eexists; vm_compute; reflexivity].
  apply heap_blocks_disjoint; [done|done|repeat constructor; done].
Defined.

(** The size computation wraps.  A request of 2^32 - 4 bytes, which no
    pool could satisfy, is granted, and leaves the allocation offset four bytes
    lower than it was: the next request is given memory that is in use. *)
Theorem heap_huge_request_granted (me : Z) (k : kstate) :
  k_held k = [] -> heap_ok k -> 4 <= k_heap_offset k ->
  returns (heap_malloc me (2 ^ 32 - 4)) k (fun r k' =>
    r = Some (k_heap_offset k) /\ k_heap_offset k' = k_heap_offset k - 4).
Proof.
  intros Hh [Hok _] Hoff. unfold HEAP_SIZE_BYTES in Hok.
  assert (u32 (k_heap_offset k + round4 (2 ^ 32 - 4)) = k_heap_offset k - 4) as Hw.
  { change (round4 (2 ^ 32 - 4)) with (2 ^ 32 - 4). unfold wrap.
    replace (k_heap_offset k + (2 ^ 32 - 4)) with (k_heap_offset k - 4 + 1 * 2 ^ 32) by lia.
    rewrite Z.mod_add, Z.mod_small by lia. done. }
  unfold heap_malloc. cbv zeta. unfold returns.
  assert (forall (m : K (option Z)) r k' (P : option Z -> kstate -> Prop),
            m k = Ret r k' -> P r k' -> match m k with Ret a s => P a s | Stop _ _ => False end)
    as Hret by (intros m r k' P ->; done).
  eapply Hret.
  - etrans; [eapply bind_ret, enter_critical_eq|].
    etrans; [eapply bind_ret, acquire_eq; by cbn; rewrite Hh|]. exec.
    cbn [k_heap_offset field_update]. rewrite Hw.
    rewrite (proj2 (Z.ltb_ge _ _)) by (unfold HEAP_SIZE_BYTES; lia). exec. exec. exec. reflexivity.
  - done.
Qed.

Lemma heap_huge_request_granted_witness :
  let k := kernel_zero <| k_heap_offset := 2048 |> in
  returns (heap_malloc 0 (2 ^ 32 - 4)) k (fun r k' =>
    r = Some (k_heap_offset k) /\ k_heap_offset k' = k_heap_offset k - 4).
Proof.
  exact (heap_huge_request_granted 0 (kernel_zero <| k_heap_offset := 2048 |>)
           eq_refl ltac:(by repeat split) ltac:(by cbn)).
Defined.
