(* ===== verification/Task.v ===== *)
(** * Tasks (source/kernel/task/task.c)

    [task_create] on the calling core's TCB pool.  The addresses of the task
    function, of the exit trap and of the parameter block are numbers the
    code only stores. *)

From S2P Require Import Prelude Types Dll Telemetry Kernel Stack Invariant Scheduler Heap.

Definition task_init_stack (task_exit_trap : Z) (top_of_stack : sptr) (task_function task_params : Z)
    : K sptr :=
  init_frame top_of_stack task_function task_exit_trap task_params.

(** [task_exit_trap()]: a task function that returns lands here. *)
Definition task_exit_trap {A} : K A := stop Hang.

Definition clamp_priority (prio : Z) : Z :=
  if NUM_TASK_PRIORITIES <=? prio then NUM_TASK_PRIORITIES - 1 else prio.

(** The second component is what [*p_task_control_block] holds afterwards;
    [None] when the call left it alone. *)
Definition task_create (trap : Z) (me task_function depth prio task_params : Z)
    (name : option (list Z)) : K (StatusCode * option tcb) :=
  n ← gets (fun k => k_task_counter k me);
  if n =? MAX_NUM_TASKS then mret (E_RESOURCE_EXHAUSTED, None) else
  let prio := clamp_priority prio in
  let t := Pool me n in
  block ← heap_malloc me (u32 (4 * depth));
  upd_tcb t (fun r => r <| stack_base := option_map HeapPtr block |>);;
  match block with
  | None => console Messages.no_stack_space [];; mret (E_OUT_OF_MEM, Some t)
  | Some off =>
      let base := HeapPtr off in
      for_ (Z.to_nat depth) 0 (fun i => stack_store (sptr_add base i) TASK_WATERMARK);;
      upd_tcb t (fun r => r <| task_id := u16 n |> <| core_id := me |>);;
      modify (fun k => k <| k_task_counter ::= fun f => <[me := u16 (n + 1)]> f |>);;
      cpsr ← enter_critical me;
      tel (telemetry_report_task_created (u16 n) me prio name);;
      exit_critical me cpsr;;
      upd_tcb t (fun r => r <| priority := prio |> <| base_priority := prio |> <| mutexes_held := 0 |>
                            <| stack_high := Some (sptr_add base (depth - 1)) |>
                            <| current_state := TASK_STATE_READY |> <| wakeup_time := 0 |>
                            <| wakeup_reason := WAKEUP_REASON_NONE |>);;
      sp ← task_init_stack trap (sptr_add base (depth - 1)) task_function task_params;
      upd_tcb t (fun r => r <| current_sp := Some sp |>);;
      on_dm (set_item (NState t) (fun _ => fresh_item t));;
      on_dm (set_item (NEvent t) (fun _ => fresh_item t));;
      scheduler_lock me;;
      scheduler_add_to_ready_list (Some t);;
      scheduler_unlock me;;
      mret (E_OK, Some t)
  end.

(** ** Behaviour *)

Definition new_tcb (me n depth prio off : Z) (r : TaskControlBlock) : TaskControlBlock :=
  mkTCB (Some (sptr_add (HeapPtr off) (depth - 16))) (Some (sptr_add (HeapPtr off) (depth - 1)))
    (Some (HeapPtr off)) (stack_depth r) n me TASK_STATE_READY prio 0 WAKEUP_REASON_NONE prio 0.

(** What the stack block of a new task holds: the initial frame at its top,
    the watermark below it. *)
Definition stack_image (depth task_function trap task_params : Z) (w : Z) : Z :=
  if decide (depth - 16 <= w < depth)
  then u32 (frame_word task_function trap task_params (w - (depth - 16)))
  else TASK_WATERMARK.

Section create.
Context (trap me task_function depth prio task_params : Z) (name : option (list Z)).
Context (k : kstate) (Q : queues).
Let n := k_task_counter k me.
Let t := Pool me n.
Let p := clamp_priority prio.
Let off := k_heap_offset k.
Context (HI : sched_inv [] k Q) (Hheld : k_held k = []) (Hheap : heap_ok k).
Context (Hme : 0 <= me < COMPANION_CORE_MAX_CORES) (Hn : 0 <= n < MAX_NUM_TASKS).
Context (Hdepth : 16 <= depth < 2 ^ 16) (Hprio : 0 <= prio).
Context (Hroom : off + 4 * depth <= HEAP_SIZE_BYTES).

Lemma create_region : region_ok (HeapPtr off) depth.
Proof.
  intros w Hw. destruct Hheap as [Ho _]. cbn. unfold off in *.
  by rewrite (proj2 (Z.leb_le _ _)), (proj2 (Z.leb_le _ _)) by lia.
Qed.

Lemma create_dead : ~ live k t.
Proof. unfold t, n. cbn. lia. Qed.

(** The state when the task is about to be put on its ready list. *)
Definition created (h : Z -> Z) (te : telemetry) : kstate :=
  k <| k_heap_offset := off + 4 * depth |> <| k_heap := h |>
    <| k_task_counter ::= fun f => <[me := n + 1]> f |>
    <| k_tcbs ::= fun g => <[t := new_tcb me n depth p off (g t)]> g |>
    <| k_dm ::= set_item (NState t) (fun _ => fresh_item t) |>
    <| k_dm ::= set_item (NEvent t) (fun _ => fresh_item t) |>
    <| k_tel := te |>.

Lemma created_inv h te :
  sched_inv [t] (created h te) Q /\ live (created h te) t /\ unplaced (k_dm (created h te)) t.
Proof.
  destruct (si_dead _ _ _ _ _ _ HI _ create_dead) as [H1 H2]; [apply not_elem_of_nil|].
  assert (live (created h te) t) as Ha.
  { unfold t. cbn. rewrite fn_lookup_insert. split; [exact Hme|]. lia. }
  split_and!; [|done|].
  - unfold sched_inv. unfold created at 2. cbn [k_dm field_update].
    apply sinv_set_item; [|done|rewrite items_set_item, decide_False; done|done].
    apply sinv_set_item; [|done|done|done].
    apply (sinv_create (live k) (live (created h te)) (k_current k) t);
      [apply create_dead|exact Ha| |exact HI|apply not_elem_of_nil|by split|].
    + intros u Hu. destruct u as [c i|c]; cbn; [|done]. rewrite fn_insert_lookup.
      case_decide as Hc; [subst c|done]. unfold t in Hu.
      assert (i <> n) by congruence. unfold n in *. lia.
    + unfold fields_ok, p, clamp_priority, NUM_TASK_PRIORITIES. cbn.
      destruct (Z.leb_spec 6 prio); split_and!; done || lia.
  - split; cbn -[fresh_item]; rewrite !items_set_item.
    + by rewrite decide_False, decide_True.
    + by rewrite decide_True.
Qed.

Lemma task_create_eq :
  exists h d' te,
    let k' := k <| k_heap_offset := off + 4 * depth |> <| k_heap := h |>
                <| k_task_counter ::= fun f => <[me := n + 1]> f |>
                <| k_tcbs ::= fun g => <[t := new_tcb me n depth p off (g t)]> g |>
                <| k_dm := d' |> <| k_tel := te |> in
    task_create trap me task_function depth prio task_params name k = Ret (E_OK, Some t) k' /\
    sched_inv [] k' (<[LReady me p := Q (LReady me p) ++ [NState t]]> Q) /\
    (forall w, 0 <= w < depth ->
       word (HeapPtr off) k' w = stack_image depth task_function trap task_params w) /\
    (forall a, a < off \/ off + 4 * depth <= a -> h a = k_heap k a).
Proof.
  set (k1 := k <| k_heap_offset := off + 4 * depth |>
               <| k_tcbs ::= fun g => <[t := (g t) <| stack_base := Some (HeapPtr off) |>]> g |>).
  destruct (fill_words (HeapPtr off) depth TASK_WATERMARK (Z.to_nat depth) 0 k1 create_region)
    as (k2 & Hr2 & [h1 [Hk2 Ho2]] & Hw2); [lia..|].
  set (te := telemetry_report_task_created n me p name (k_tel k)).
  set (k3 := k <| k_heap_offset := off + 4 * depth |>
               <| k_heap := h1 |>
               <| k_task_counter ::= fun f => <[me := n + 1]> f |>
               <| k_tcbs ::= fun g => <[t := (new_tcb me n depth p off (g t))
                                               <| current_sp := current_sp (g t) |>]> g |>
               <| k_tel := te |>).
  destruct (init_frame_words (HeapPtr off) depth task_function trap task_params k3 create_region)
    as (k4 & Hr4 & [h [Hk4 Ho4]] & Hw4); [lia|].
  destruct (created_inv h te) as (HI5 & Ha5 & Hun5). set (k5 := created h te) in *.
  set (k6 := k5 <| k_held := [LkSched me] |>).
  assert (k_tcbs k6 t = new_tcb me n depth p off (k_tcbs k t)) as Htcb
    by (unfold k6, k5, created; cbn; by rewrite fn_lookup_insert).
  pose proof (si_fields _ _ _ _ _ _ HI5 _ Ha5) as Hf.
  destruct (ready_add_inv t [] k6 Q HI5 Ha5 Hun5) as [HI6 Hpl].
  rewrite Htcb in HI6. cbn [tcb_core priority new_tcb t] in HI6.
  assert (sched_inv [] (ready_add t k6) (<[LReady me p := Q (LReady me p) ++ [NState t]]> Q)) as HI7.
  { apply (sinv_admit _ _ t [] _ _ _ HI6 Ha5 Hpl); cbn -[k6 list_push_back];
      by rewrite fn_lookup_insert. }
  assert (region_only (HeapPtr off) depth k3 k4) as Hreg by (exists h; done).
  exists h, (k_dm (ready_add t k6)), te. split_and!.
  - unfold task_create. exec. fold n. rewrite (proj2 (Z.eqb_neq _ _)) by (unfold MAX_NUM_TASKS in *; lia).
    cbv zeta. fold p. fold t.
    assert (4 * ((u32 (4 * depth) + 3) / 4) = 4 * depth) as Hsz
      by (rewrite wrap_small by lia; Z.div_mod_to_equations; lia).
    etrans; [eapply bind_ret, heap_malloc_fits; [done|done|rewrite wrap_small by lia; lia|]|];
      [unfold off in Hroom; lia|]. fold off. rewrite Hsz.
    exec. cbn [option_map]. fold k1. exec_with Hr2.
    assert (u16 n = n /\ u16 (n + 1) = n + 1) as [Hn1 Hn2]
      by (split; apply wrap_small; unfold MAX_NUM_TASKS in *; lia).
    rewrite Hn1, Hn2. exec. exec. etrans; [eapply bind_ret, enter_critical_eq|]. exec. exec. exec.
    etrans; [eapply bind_ret|].
    { unfold task_init_stack. etrans; [|exact Hr4]. f_equal.
      unfold k3. rewrite Hk2. unfold k1, new_tcb, te. cbn -[Z.mul sptr_add].
      rewrite !fn_insert_insert, !fn_lookup_insert. cbn -[Z.mul sptr_add].
      rewrite (fn_insert_id (k_irq_masked k)) by done. reflexivity. }
    exec. exec. exec.
    replace (field_update k_dm (set_item (NEvent t) (fun _ => fresh_item t)) _) with k5.
    2: { unfold k5, created. rewrite Hk4. unfold k3, new_tcb. cbn -[Z.mul sptr_add fresh_item].
         by rewrite !fn_insert_insert, !fn_lookup_insert. }
    etrans; [eapply bind_ret, scheduler_lock_eq; [exact Hme|]|].
    { change (k_held k5) with (k_held k). by rewrite Hheld. }
    replace (k5 <| k_held ::= cons (LkSched me) |>) with k6
      by (unfold k6, k5, created; cbn -[Z.mul sptr_add fresh_item]; by rewrite Hheld).
    exec_with (add_to_ready_eq t k6 (conj Hme Hn) Hf).
    etrans; [eapply bind_ret, scheduler_unlock_eq; exact Hme|].
    unfold mret, M_mret. f_equal. unfold ready_add, k6, k5, created.
    cbn -[Z.mul sptr_add fresh_item list_push_back filter].
    rewrite fn_insert_insert, fn_lookup_insert, filter_own_lock.
    cbn -[Z.mul sptr_add fresh_item list_push_back]. by rewrite Hheld.
  - apply (sched_inv_live [] (ready_add t k6)); [done| |done|done|exact HI7].
    unfold ready_add, k6, k5, created. cbn -[fresh_item list_push_back].
    by rewrite fn_insert_insert, fn_lookup_insert.
  - intros w Hw. specialize (Hw4 w). rewrite Hk4 in Hw4.
    transitivity (word (HeapPtr off) (k3 <| k_heap := h |>) w); [done|]. rewrite Hw4.
    unfold stack_image. case_decide; [done|].
    specialize (Hw2 w). rewrite Hk2, decide_True in Hw2 by lia. exact Hw2.
  - intros a Ha. rewrite Ho4 by done. apply (Ho2 a Ha).
Qed.
End create.
