(* ===== verification/SchedulerThm.v ===== *)
(** * What the scheduler guarantees

    The properties of scheduler.c and task.c, stated over the invariant
    [sched_inv], and [demo], a booted core with two tasks on which each is
    instantiated. *)

From S2P Require Import Prelude Types Dll Telemetry Kernel Stack Invariant Scheduler Heap Task.

(** ** Boot *)

Lemma kernel_zero_inv : sched_inv [] kernel_zero (fun _ => []).
Proof.
  split.
  - intros l. split; try done; [constructor|..]; intros n; [split; [done|]|..];
      intros Hn; by apply elem_of_nil in Hn.
  - intros [c i|c] Ha; cbn in *; [lia|by destruct Ha].
  - intros [c i|c] Ha; cbn in *; [lia|by destruct Ha].
  - intros [c i|c] Ha; cbn in *; [lia|by destruct Ha].
  - done.
  - done.
  - intros c. constructor.
  - done.
  - intros [c i|c] Ha; cbn in *; [lia|by destruct Ha].
  - intros c Ha. cbn in Ha. by destruct Ha.
Qed.

(** The state a call leaves, wherever it stops. *)
Definition final {A} (m : K A) (k : kstate) : kstate :=
  match m k with Ret _ k' => k' | Stop _ k' => k' end.

Lemma final_eq {A} (m : K A) k a k' : m k = Ret a k' -> final m k = k'.
Proof. unfold final. by intros ->. Qed.

(** Core 1, initialised with a 54 MHz counter and a 1 kHz tick, with two tasks
    of priority 2 and stacks of 32 words. *)
Definition demo0 : kstate :=
  final (scheduler_init (H := weak_hooks) 0x8000 1 (Some 54000000) 1000 (Some 7)) kernel_zero.
Definition demo1 : kstate := final (task_create 0x9000 1 0x9100 32 2 0 None) demo0.
Definition demo2 : kstate := final (task_create 0x9000 1 0x9200 32 2 0 None) demo1.
Definition demo : kstate := final (scheduler_switch_context 1) demo2.

Definition demo_Q : queues :=
  <[LReady 1 2 := [NState (Pool 1 0); NState (Pool 1 1)]]>
    (<[LReady 1 0 := [NState (Idle 1)]]> (fun _ => [])).

Lemma demo0_inv : sched_inv [] demo0 (<[LReady 1 0 := [NState (Idle 1)]]> (fun _ => [])).
Proof.
  destruct (scheduler_init_eq (H := weak_hooks) 0x8000 1 54000000 1000 7 kernel_zero _ kernel_zero_inv)
    as (d' & st & te & Heq & HI & _); [done..|].
  unfold demo0. erewrite final_eq by exact Heq. exact HI.
Qed.

Lemma demo1_inv : sched_inv [] demo1
  (<[LReady 1 2 := [NState (Pool 1 0)]]> (<[LReady 1 0 := [NState (Idle 1)]]> (fun _ => []))).
Proof.
  destruct (task_create_eq 0x9000 1 0x9100 32 2 0 None demo0 _ demo0_inv)
    as (h & d' & te & Heq & HI & _); [vm_compute; done|by vm_compute|done|by vm_compute|done|done|by vm_compute|].
  unfold demo1. erewrite final_eq by exact Heq. exact HI.
Qed.

Lemma demo2_inv : sched_inv [] demo2 demo_Q.
Proof.
  destruct (task_create_eq 0x9000 1 0x9200 32 2 0 None demo1 _ demo1_inv)
    as (h & d' & te & Heq & HI & _); [vm_compute; done|by vm_compute|done|by vm_compute|done|done|by vm_compute|].
  unfold demo2. erewrite final_eq by exact Heq. 
  assert (k_task_counter demo1 1 = 1) as Hn by by vm_compute.
  rewrite Hn in *. change (clamp_priority 2) with 2 in *.
  rewrite fn_lookup_insert, fn_insert_insert in HI. exact HI.
Qed.

Lemma demo2_idle : live demo2 (Idle 1).
Proof. split; [done|by vm_compute]. Qed.

Lemma demo2_current : k_current demo2 1 = None.
Proof. by vm_compute. Qed.

Lemma demo_inv : sched_inv [] demo demo_Q.
Proof.
  destruct (switch_context_eq 1 demo2 demo_Q demo2_inv) as (p & t & _ & _ & _ & Heq & HI);
    [by vm_compute|apply demo2_idle|intros t Ht; by rewrite demo2_current in Ht|].
  unfold demo. by erewrite final_eq by exact Heq.
Qed.

Lemma demo_held : k_held demo = [].
Proof. by vm_compute. Qed.
Lemma demo_idle : live demo (Idle 1).
Proof. split; [done|by vm_compute]. Qed.
Lemma demo_current : k_current demo 1 = Some (Pool 1 0).
Proof. by vm_compute. Qed.

(** The tasks of [demo]. *)
Lemma demo_live (t : tcb) : live demo t -> t = Pool 1 0 \/ t = Pool 1 1 \/ t = Idle 1.
Proof.
  destruct t as [c i|c]; cbn -[demo].
  - intros (Hc & Hi & _).
    assert (forall c, 0 <= c < 4 -> k_task_counter demo c = if c =? 1 then 2 else 0) as Hcnt.
    { intros c' Hc'. assert (c' = 0 \/ c' = 1 \/ c' = 2 \/ c' = 3) as [->|[->|[->| ->]]] by lia;
        by vm_compute. }
    rewrite Hcnt in Hi by done. destruct (Z.eqb_spec c 1) as [->|]; [|lia].
    assert (i = 0 \/ i = 1) as [->| ->] by lia; tauto.
  - intros [Hc Ht].
    assert (c = 0 \/ c = 1 \/ c = 2 \/ c = 3) as [->|[->|[->| ->]]]
      by (unfold COMPANION_CORE_MAX_CORES in Hc; lia); try tauto.
    all: exfalso; apply Ht; by vm_compute.
Qed.

Lemma demo_watermark (t : tcb) : live demo t -> watermark_word demo t = Some TASK_WATERMARK.
Proof. intros [->|[->| ->]]%demo_live; by vm_compute. Qed.

(** Nobody waits in [demo]. *)
Lemma demo_nobody_waits (k : kstate) (t : tcb) : sched_inv [] k demo_Q -> live k t -> runnable (current_state (k_tcbs k t)).
Proof.
  intros HI Ha. pose proof (si_mem _ _ _ _ _ _ HI) as Hwf.
  destruct (si_placed _ _ _ _ _ _ HI t Ha (not_elem_of_nil _)) as [Hr|cs ce _ Hcs Hce Hl Hsync Hno]; [done|]. exfalso.
  destruct ce as [l|].
  - apply (wf_container _ _ _ _ Hwf) in Hce. specialize (Hsync l eq_refl). destruct l; try done; by apply elem_of_nil in Hce.
  - destruct Hl as [->| ->]; [by apply Hno|]. apply (wf_container _ _ _ _ Hwf) in Hcs. by apply elem_of_nil in Hcs.
Qed.

(** ** Context switch *)

(** C5: a context switch on a core whose idle task exists, and whose running
    task has not overflowed its stack ([watermark_intact]; the switch stops at a
    stack that has), always comes back with a task selected: the cursor of the
    highest-priority non-empty ready list.  That task is the only RUNNING one of the core, the invariant holds
    again with every queue as it was, no lock stays held, and no other core's
    current task changes. *)
Theorem switch_context_selects (me : Z) (k : kstate) (Q : queues) :
  sched_inv [] k Q -> k_held k = [] -> live k (Idle me) -> watermark_intact k me ->
  returns (scheduler_switch_context me) k (fun _ k' =>
    sched_inv [] k' Q /\ k_held k' = [] /\
    (forall c, c <> me -> k_current k' c = k_current k c) /\
    exists t p, k_current k' me = Some t /\ tcb_core t = me /\
      top_ready Q me p /\ NState t ∈ Q (LReady me p) /\
      l_index (lists (k_dm k') (LReady me p)) = Some (NState t) /\
      current_state (k_tcbs k' t) = TASK_STATE_RUNNING /\
      forall u, live k' u -> tcb_core u = me -> u <> t ->
        current_state (k_tcbs k' u) <> TASK_STATE_RUNNING).
Proof.
  intros HI Hh Hidle Hw.
  destruct (switch_context_eq me k Q HI Hh Hidle Hw) as (p & t & Htop & Hin & Hnext & Heq & HI').
  set (k1 := k <| k_held ::= cons (LkSched me) |>) in *.
  unfold returns. rewrite Heq. split_and!; [done| | |].
  - change (filter (fun h => h <> LkSched me) (k_held (requeue me k1)) = []).
    assert (k_held (requeue me k1) = [LkSched me]) as ->
      by (unfold requeue; destruct (running_on k1 me); cbn; by rewrite Hh).
    apply filter_own_lock.
  - intros c Hc. rewrite pick_current, decide_False by done. by rewrite requeue_current.
  - exists t, p. rewrite pick_current, decide_True by done.
    destruct (member_ready _ _ _ _ _ _ _ _ _ HI' Hin) as (u & [= <-] & _ & Hme & _);
      [apply not_elem_of_nil|].
    split_and!; [done|done|done|done| | |].
    + change (l_index (lists (k_dm (requeue me k1)) (LReady me p)) = Some (NState t)).
      rewrite <- Hnext. unfold next_cursor. do 2 f_equal. unfold requeue, running_on.
      change (k_current k1) with (k_current k). change (k_tcbs k1) with (k_tcbs k).
      destruct (k_current k me); [|done]. by case_decide.
    + cbn -[requeue]. by rewrite fn_lookup_insert.
    + intros u Hu Hum Hut Hrun. apply (si_running _ _ _ _ _ _ HI' u Hu) in Hrun;
        [|apply not_elem_of_nil].
      rewrite pick_current, decide_True in Hrun by done. congruence.
Qed.

Lemma switch_context_selects_witness :
  returns (scheduler_switch_context 1) demo (fun _ k' =>
    sched_inv [] k' demo_Q /\ k_held k' = [] /\
    exists t p, k_current k' 1 = Some t /\ NState t ∈ demo_Q (LReady 1 p) /\ top_ready demo_Q 1 p).
Proof.
  eapply returns_mono; [apply (switch_context_selects 1 demo demo_Q demo_inv demo_held demo_idle)|].
  - intros t Ht. apply demo_watermark, (si_current _ _ _ _ _ _ demo_inv 1 t Ht).
  - intros _ k' (HI & Hh & _ & t & p & Hc & _ & Htop & Hin & _). split_and!; [done..|].
    by exists t, p.
Defined.

(** ** Round robin *)

Fixpoint quanta (me : Z) (n : nat) : K unit :=
  match n with O => mret tt | S n' => scheduler_switch_context me;; quanta me n' end.

Lemma quanta_rotate (me p : Z) (Q : queues) (n : nat) : forall (k : kstate) (t : tcb) (i : nat),
  sched_inv [] k Q -> k_held k = [] -> live k (Idle me) ->
  (forall u, live k u -> watermark_word k u = Some TASK_WATERMARK) ->
  top_ready Q me p -> running_on k me = Some t ->
  l_index (lists (k_dm k) (LReady me p)) = Some (NState t) ->
  Q (LReady me p) !! (i mod length (Q (LReady me p)))%nat = Some (NState t) ->
  returns (quanta me n) k (fun _ k' => exists t',
    running_on k' me = Some t' /\
    Q (LReady me p) !! ((i + n) mod length (Q (LReady me p)))%nat = Some (NState t')).
Proof.
  induction n as [|n IH]; intros k t i HI Hh Hidle Hw Htop Hrun Hix Hl.
  - exists t. by rewrite Nat.add_0_r.
  - set (q := Q (LReady me p)) in *.
    assert (length q <> 0)%nat as Hlen by (destruct Htop as (_ & Hne & _); by destruct q).
    destruct (switch_rotates me p k Q t (i mod length q)%nat HI Hh Hidle)
      as (t' & k' & Heq & Hk' & HI' & Hrun' & Hix' & Hl'); [|done..|].
    { intros u Hu. apply Hw, (si_current _ _ _ _ _ _ HI me u Hu). }
    cbn [quanta]. step. unfold returns at 1. rewrite Heq.
    assert (forall u, live k' u <-> live k u) as Hlive.
    { intros u. rewrite Hk'. unfold pick. rewrite <- (requeue_live me k u).
      unfold requeue. by destruct (running_on _ me), (running_on k me). }
    eapply returns_mono; [apply (IH k' t' (S i))|].
    + done.
    + rewrite Hk'. change (filter (fun h => h <> LkSched me)
        (k_held (requeue me (k <| k_held ::= cons (LkSched me) |>))) = []).
      assert (k_held (requeue me (k <| k_held ::= cons (LkSched me) |>)) = [LkSched me]) as ->
        by (unfold requeue; destruct (running_on _ me); cbn; by rewrite Hh).
      apply filter_own_lock.
    + by apply Hlive.
    + intros u Hu%Hlive. rewrite Hk', switch_watermark. by apply Hw.
    + done.
    + done.
    + done.
    + fold q. rewrite <- Hl'. fold q. f_equal.
      change (S (i mod length q)) with (1 + i mod length q)%nat.
      by rewrite Nat.Div0.add_mod_idemp_r.
    + cbn beta. intros _ k2 (t2 & Hr2 & Hl2). exists t2. split; [done|].
      by replace (i + S n)%nat with (S i + n)%nat by lia.
Qed.

(** C23: round robin is fair.  While the queues do not change and no task
    overflows its stack (the watermark of each is intact), the task that
    runs after [n] quanta is the one [n] places further round the ready list
    of the highest priority, so among [m] ready tasks of that priority each
    runs once in every [m] consecutive quanta. *)
Theorem round_robin_fair (me p : Z) (k : kstate) (Q : queues) (t : tcb) (i n : nat) :
  sched_inv [] k Q -> k_held k = [] -> live k (Idle me) ->
  (forall u, live k u -> watermark_word k u = Some TASK_WATERMARK) ->
  top_ready Q me p -> running_on k me = Some t ->
  l_index (lists (k_dm k) (LReady me p)) = Some (NState t) ->
  Q (LReady me p) !! i = Some (NState t) ->
  returns (quanta me n) k (fun _ k' => exists t',
    running_on k' me = Some t' /\
    Q (LReady me p) !! ((i + n) mod length (Q (LReady me p)))%nat = Some (NState t')).
Proof.
  intros HI Hh Hidle Hw Htop Hrun Hix Hl. eapply quanta_rotate; try done.
  rewrite Nat.mod_small; [done|]. by eapply lookup_lt_Some.
Qed.

Lemma demo_top : top_ready demo_Q 1 2.
Proof.
  split_and!; [done..|]. intros p' Hp. unfold demo_Q.
  by rewrite !fn_lookup_insert_ne by (intros [=]; lia).
Qed.

Lemma round_robin_fair_witness :
  returns (quanta 1 3) demo (fun _ k' => running_on k' 1 = Some (Pool 1 1)).
Proof.
  eapply returns_mono; [apply (round_robin_fair 1 2 demo demo_Q (Pool 1 0) 0 3 demo_inv demo_held
    demo_idle demo_watermark demo_top)|].
  - by vm_compute.
  - by vm_compute.
  - reflexivity.
  - cbn beta. intros _ k' (t' & Hr & Hl). vm_compute in Hl. by simplify_eq.
Defined.

(** ** Stack overflow *)

(** The watermark check stops the core exactly when the lowest word of the
    current task's stack is no longer the watermark: a switch never returns to
    a task whose stack has overflowed into that word, and never stops a task
    whose watermark is intact. *)
Theorem overflow_stops_core (me : Z) (k : kstate) (Q : queues) (t : tcb) (w : Z) :
  sched_inv [] k Q -> k_held k = [] -> live k (Idle me) ->
  k_current k me = Some t -> watermark_word k t = Some w ->
  (scheduler_switch_context me k = Stop Hang k <-> w <> TASK_WATERMARK).
Proof.
  intros HI Hh Hidle Hcur Hw. split.
  - intros Hhang ->. destruct (switch_context_eq me k Q HI Hh Hidle) as (p & u & _ & _ & _ & Heq & _).
    + intros u Hu. congruence.
    + congruence.
  - intros Hne. unfold scheduler_switch_context. exec. rewrite Hcur.
    unfold mbind, M_mbind. rewrite (watermark_check_eq t w k Hw).
    by rewrite (proj2 (Z.eqb_neq _ _) Hne).
Qed.

(** [demo] after its running task has overwritten the word at its stack base
    (heap offset 0). *)
Definition demo_overflow : kstate := demo <| k_heap ::= fun h => <[0 := 0]> h |>.

Lemma heap_write_inv k f Q : sched_inv [] k Q -> sched_inv [] (k <| k_heap ::= f |>) Q.
Proof. done. Qed.

Lemma heap_write_live k f t : live k t -> live (k <| k_heap ::= f |>) t.
Proof. done. Qed.

Definition demo_overflow_inv : sched_inv [] demo_overflow demo_Q :=
  heap_write_inv demo _ demo_Q demo_inv.
Definition demo_overflow_idle : live demo_overflow (Idle 1) := heap_write_live demo _ _ demo_idle.

Lemma overflow_stops_core_witness :
  scheduler_switch_context 1 demo_overflow = Stop Hang demo_overflow.
Proof.
  refine (proj2 (overflow_stops_core 1 demo_overflow demo_Q (Pool 1 0) 0 demo_overflow_inv
    _ demo_overflow_idle _ _) _).
  - by vm_compute.
  - by vm_compute.
  - by vm_compute.
  - done.
Defined.

(** ** Ticks and delays *)

(** On core 0, the weak definition of the timer hook is linked: it does nothing,
    whatever the tick and the state.  Nothing is asked on the other cores, whose
    handler does not call it.  With software_timer.c linked core 0 is out; [Delay]
    has the delays on the whole kernel, software timers included. *)
Definition quiet_hook `{Hooks} (me : Z) : Prop :=
  me = 0 -> forall now k, software_timer_tick me now k = Ret tt k.

Definition ticking (k : kstate) (me now : Z) : Prop :=
  0 <= me < COMPANION_CORE_MAX_CORES /\ hz (k_cores k me) <> 0 /\
  s_clk_freq (k_cores k me) <> None /\ s_tick_count (k_cores k me) = Some now.

Lemma in_wakes (q : list node) (t : tcb) :
  (forall n, n ∈ q -> exists u, n = NState u) -> t ∈ node_tcb <$> q <-> NState t ∈ q.
Proof.
  intros Hq. rewrite list_elem_of_fmap. split.
  - intros (n & -> & Hn). destruct (Hq n Hn) as [u ->]. exact Hn.
  - intros Hn. by exists (NState t).
Qed.

(** The effect of one tick on one task. *)
Lemma tick_one `{Hooks} (me cntpct now : Z) (k : kstate) (Q : queues) :
  sched_inv [] k Q -> k_held k = [] -> ticking k me now -> quiet_hook me ->
  let now' := u64 (now + 1) in
  returns (timer_tick_handler me cntpct) k (fun _ k' =>
    sched_inv [] k' (wake_queues me (fun t => priority (k_tcbs k t)) (due k Q me now')
                       (not_due k Q me now') Q) /\
    k_held k' = [] /\ ticking k' me now' /\
    forall t, k_tcbs k' t = if decide (NState t ∈ due k Q me now')
                            then (k_tcbs k t) <| current_state := TASK_STATE_READY |> else k_tcbs k t).
Proof.
  intros HI Hh (Hme & Hhz & Hclk & Hnow) Hq now'.
  destruct (s_clk_freq (k_cores k me)) as [clk|] eqn:Hc; [|done].
  destruct (timer_tick_eq me cntpct clk now k Q HI Hh Hme Hc Hhz Hnow) as (d' & te & Heq & HI').
  unfold returns. rewrite Heq.
  assert (forall kk : kstate, (if me =? 0 then software_timer_tick me (u64 (now + 1)) else mret tt) kk
            = Ret tt kk) as ->.
  { intros kk. destruct (Z.eqb_spec me 0) as [H0|]; [by apply Hq|done]. }
  split_and!; [done|done| |].
  - unfold ticking. cbn. rewrite fn_lookup_insert. cbn. by rewrite Hc.
  - intros t. cbn. unfold wake_tcbs.
    assert (t ∈ node_tcb <$> due k Q me now' <-> NState t ∈ due k Q me now') as Hw.
    { apply in_wakes. intros n [_ Hn]%list_elem_of_filter.
      destruct (member_blocked _ _ _ _ _ _ _ _ HI Hn) as (u & -> & _); [apply not_elem_of_nil|].
      by exists u. }
    fold now'. repeat case_decide; tauto.
Qed.

(** A tick advances the core's tick count by one and wakes exactly the
    tasks of this core whose wakeup time has come: each becomes READY at the
    back of the ready list of its priority and waits on no mutex or semaphore
    any more; every other task control block is unchanged, the tasks that
    were ready keep their order, and the tasks due later stay blocked in
    order. *)
Theorem tick_wakes_due_tasks `{Hooks} (me cntpct now : Z) (k : kstate) (Q : queues) :
  sched_inv [] k Q -> k_held k = [] -> ticking k me now -> quiet_hook me ->
  let now' := u64 (now + 1) in
  returns (timer_tick_handler me cntpct) k (fun _ k' => exists Q',
    sched_inv [] k' Q' /\ k_held k' = [] /\ ticking k' me now' /\
    Q' (LBlocked me) = filter (fun n => ~ wake (k_tcbs k) n <= now') (Q (LBlocked me)) /\
    (forall p, exists ws, Q' (LReady me p) = Q (LReady me p) ++ ws) /\
    forall t, if decide (NState t ∈ Q (LBlocked me) /\ wakeup_time (k_tcbs k t) <= now')
      then current_state (k_tcbs k' t) = TASK_STATE_READY /\
           NState t ∈ Q' (LReady me (priority (k_tcbs k t))) /\
           (forall l, sync_list l -> NEvent t ∉ Q' l)
      else k_tcbs k' t = k_tcbs k t).
Proof.
  intros HI Hh Ht Hq now'.
  eapply returns_mono; [by apply (tick_one me cntpct now k Q)|].
  fold now'. intros _ k' (HI' & Hh' & Ht' & Htcb). eexists. split; [exact HI'|].
  split; [done|]. split; [done|]. split; [|split].
  - cbn. by rewrite decide_True.
  - intros p. cbn. rewrite decide_True by done. by eexists.
  - intros t. rewrite Htcb. unfold due.
    destruct (decide (NState t ∈ Q (LBlocked me) /\ wakeup_time (k_tcbs k t) <= now')) as [[Hin Hw]|Hn].
    + assert (NState t ∈ due k Q me now') as Hd by (by apply list_elem_of_filter).
      rewrite decide_True by done. split_and!; [done| |].
      * cbn. rewrite decide_True by done. apply elem_of_app. right. by apply list_elem_of_filter.
      * intros l Hl. destruct l; cbn in Hl |- *; try done;
          intros [Hno _]%list_elem_of_filter; apply Hno, list_elem_of_fmap; by exists (NState t).
    + rewrite decide_False; [done|]. intros [Hw Hin]%list_elem_of_filter. by apply Hn.
Qed.

(** [n] ticks of core [me]; the counter value read at each is irrelevant here. *)
Fixpoint ticks `{Hooks} (me cntpct : Z) (n : nat) : K unit :=
  match n with O => mret tt | S n' => ticks me cntpct n';; timer_tick_handler me cntpct end.

(** [t] waits on core [me] for the tick [w], and it is now tick [now]. *)
Definition waiting (me now w : Z) (t : tcb) (k : kstate) : Prop :=
  exists Q, sched_inv [] k Q /\ k_held k = [] /\ ticking k me now /\
    NState t ∈ Q (LBlocked me) /\ wakeup_time (k_tcbs k t) = w /\
    current_state (k_tcbs k t) = TASK_STATE_BLOCKED.

Section waiting.
Context `{Hooks} (me cntpct w : Z) (t : tcb) (Hq : quiet_hook me).

Lemma tick_early (now : Z) (k : kstate) :
  waiting me now w t k -> 0 <= now -> now + 1 < w -> w < 2 ^ 64 ->
  returns (timer_tick_handler me cntpct) k (fun _ k' => waiting me (now + 1) w t k').
Proof.
  intros (Q & HI & Hh & Ht & Hin & Hw & Hs) H0 Hlt Hb.
  eapply returns_mono; [by apply (tick_one me cntpct now k Q)|].
  rewrite wrap_small by lia. intros _ k' (HI' & Hh' & Ht' & Htcb).
  assert (~ wake (k_tcbs k) (NState t) <= now + 1) as Hno by (unfold wake; cbn; lia).
  assert (k_tcbs k' t = k_tcbs k t) as Heq.
  { rewrite Htcb, decide_False; [done|]. by intros [? _]%list_elem_of_filter. }
  eexists. rewrite Heq. split_and!; [exact HI'|done|done| |done|done].
  cbn. rewrite decide_True by done. by apply list_elem_of_filter.
Qed.

Lemma tick_due (now : Z) (k : kstate) :
  waiting me now w t k -> 0 <= now -> now + 1 = w -> w < 2 ^ 64 ->
  returns (timer_tick_handler me cntpct) k (fun _ k' =>
    current_state (k_tcbs k' t) = TASK_STATE_READY).
Proof.
  intros (Q & HI & Hh & Ht & Hin & Hw & Hs) H0 Hlt Hb.
  eapply returns_mono; [by apply (tick_one me cntpct now k Q)|].
  rewrite wrap_small by lia. intros _ k' (_ & _ & _ & ->).
  rewrite decide_True; [done|]. apply list_elem_of_filter. split; [unfold wake; cbn; lia|done].
Qed.

Lemma ticks_early (now : Z) (k : kstate) (n : nat) :
  waiting me now w t k -> 0 <= now -> now + Z.of_nat n < w -> w < 2 ^ 64 ->
  returns (ticks me cntpct n) k (fun _ k' => waiting me (now + Z.of_nat n) w t k').
Proof.
  intros Hw H0 Hn Hb. induction n as [|n IH].
  - apply returns_ret. by rewrite Z.add_0_r.
  - cbn [ticks]. apply returns_bind. eapply returns_mono; [apply IH; lia|]. cbn beta.
    intros _ k' Hk'. replace (now + Z.of_nat (S n)) with (now + Z.of_nat n + 1) by lia.
    apply tick_early; [done|lia..].
Qed.
End waiting.

(** What [block_until] leaves is a waiting task. *)
Lemma delay_waits (me d now : Z) (t : tcb) (k : kstate) (Q : queues) :
  sched_inv [] k Q -> k_held k = [] -> ticking k me now -> can_block k me t ->
  0 <= now -> 0 < d -> now + d < 2 ^ 64 ->
  returns (task_delay_ms me d) k (fun r k' => r = Some t /\ waiting me now (now + d) t k').
Proof.
  intros HI Hh Ht Hb H0 Hd Hlt. pose proof Ht as (_ & _ & _ & Hnow).
  destruct (block_until_eq me (u64 (now + d)) t k Q HI Hh Hb) as (d' & te & Heq & HI').
  unfold task_delay_ms. apply returns_bind. unfold returns at 1. rewrite (get_tick_eq me now k Hnow).
  unfold returns. rewrite Heq. rewrite wrap_small in * by lia. split; [done|].
  eexists. split_and!; [exact HI'|done|exact Ht| | |].
  - rewrite fn_lookup_insert. by apply elem_of_blocked_insert; left.
  - cbn. by rewrite fn_lookup_insert.
  - cbn. by rewrite fn_lookup_insert.
Qed.

(** A delay of at least one tick lasts exactly the number of ticks asked for,
    on a core whose timer hook is quiet.  A running task that calls
    [task_delay_ms d] at tick [now], with [0 < d], comes back from the call's
    critical section blocked, is still blocked after any [n < d] ticks, and is
    ready after the [d]-th. *)
Theorem delay_lasts_exactly `{Hooks} (me cntpct d now : Z) (t : tcb) (k : kstate) (Q : queues) :
  quiet_hook me -> sched_inv [] k Q -> k_held k = [] -> ticking k me now -> can_block k me t ->
  0 <= now -> 0 < d -> now + d < 2 ^ 64 ->
  (forall n, Z.of_nat n < d -> returns (task_delay_ms me d;; ticks me cntpct n) k (fun _ k' =>
     current_state (k_tcbs k' t) = TASK_STATE_BLOCKED)) /\
  returns (task_delay_ms me d;; ticks me cntpct (Z.to_nat d)) k (fun _ k' =>
     current_state (k_tcbs k' t) = TASK_STATE_READY).
Proof.
  intros Hq HI Hh Ht Hb H0 Hd Hlt.
  pose proof (delay_waits me d now t k Q HI Hh Ht Hb H0 Hd Hlt) as Hdel. split.
  - intros n Hn. apply returns_bind. eapply returns_mono; [exact Hdel|]. intros r k' [_ Hw].
    eapply returns_mono; [by apply (ticks_early me cntpct (now + d) t Hq now k'); [|lia..]|].
    by intros _ k2 (Q2 & _ & _ & _ & _ & _ & Hs).
  - apply returns_bind. eapply returns_mono; [exact Hdel|]. intros r k' [_ Hw].
    replace (Z.to_nat d) with (S (Z.to_nat (d - 1))) by lia. cbn [ticks]. apply returns_bind.
    eapply returns_mono;
      [apply (ticks_early me cntpct (now + d) t Hq now k' (Z.to_nat (d - 1))); [done|lia..]|].
    cbn beta. intros _ k2 Hw2. apply (tick_due me cntpct (now + d) t Hq _ k2) in Hw2; [done|lia..].
Qed.

Lemma demo_ticking : ticking demo 1 0.
Proof. split_and!; by vm_compute. Qed.

Lemma demo_can_block : can_block demo 1 (Pool 1 0).
Proof. split_and!; [by vm_compute|right; by vm_compute|done]. Qed.

Lemma delay_lasts_exactly_witness :
  returns (task_delay_ms 1 3;; ticks (H := weak_hooks) 1 0 2) demo (fun _ k' =>
     current_state (k_tcbs k' (Pool 1 0)) = TASK_STATE_BLOCKED) /\
  returns (task_delay_ms 1 3;; ticks (H := weak_hooks) 1 0 3) demo (fun _ k' =>
     current_state (k_tcbs k' (Pool 1 0)) = TASK_STATE_READY).
Proof.
  destruct (delay_lasts_exactly (H := weak_hooks) 1 0 3 0 (Pool 1 0) demo demo_Q) as [H1 H2];
    [done|exact demo_inv|exact demo_held|exact demo_ticking|exact demo_can_block|lia..|].
  split; [by apply H1|exact H2].
Defined.

(** [demo] with its first task asleep until tick 1. *)
Definition demo_asleep : kstate := final (task_delay_ms 1 1) demo.

Lemma demo_asleep_waits : waiting 1 0 1 (Pool 1 0) demo_asleep.
Proof.
  assert (0 <= 0 /\ 0 < 1 /\ 0 + 1 < 2 ^ 64) as (H0 & H1 & H2) by done.
  pose proof (proj1 (returns_inv _ _ _) (delay_waits 1 1 0 (Pool 1 0) demo demo_Q demo_inv demo_held
    demo_ticking demo_can_block H0 H1 H2)) as (r & k' & Heq & _ & Hw).
  unfold demo_asleep. erewrite final_eq by exact Heq. exact Hw.
Qed.

Lemma tick_wakes_due_tasks_witness :
  returns (timer_tick_handler (H := weak_hooks) 1 54000) demo_asleep (fun _ k' =>
    current_state (k_tcbs k' (Pool 1 0)) = TASK_STATE_READY).
Proof.
  destruct demo_asleep_waits as (Q & HI & Hh & Ht & Hin & Hw & _).
  eapply returns_mono; [by apply (tick_wakes_due_tasks (H := weak_hooks) 1 54000 0 demo_asleep Q)|].
  cbv zeta. intros _ k' (Q' & _ & _ & _ & _ & _ & Hall). specialize (Hall (Pool 1 0)).
  rewrite decide_True in Hall; [apply Hall|]. split; [done|]. by rewrite Hw.
Defined.

(** ** Creation and dispatch *)

(** [task_create] with a free slot and room on the heap returns E_OK and
    the next TCB of the calling core's pool.  The task is READY at the back of
    the ready list of its (clamped) priority, the scheduling invariant holds,
    its stack block is the next one of the heap and holds the initial frame at
    the top with the watermark in every word below, and no other byte of the
    heap and no other task control block changes. *)
Theorem task_create_places_task (trap me task_function depth prio task_params : Z)
    (name : option (list Z)) (k : kstate) (Q : queues) :
  sched_inv [] k Q -> k_held k = [] -> heap_ok k -> 0 <= me < COMPANION_CORE_MAX_CORES ->
  0 <= k_task_counter k me < MAX_NUM_TASKS -> 16 <= depth < 2 ^ 16 -> 0 <= prio ->
  k_heap_offset k + 4 * depth <= HEAP_SIZE_BYTES ->
  let t := Pool me (k_task_counter k me) in
  let p := Z.min prio (NUM_TASK_PRIORITIES - 1) in
  let base := HeapPtr (k_heap_offset k) in
  returns (task_create trap me task_function depth prio task_params name) k (fun r k' =>
    r = (E_OK, Some t) /\ k_held k' = [] /\
    sched_inv [] k' (<[LReady me p := Q (LReady me p) ++ [NState t]]> Q) /\
    current_state (k_tcbs k' t) = TASK_STATE_READY /\ priority (k_tcbs k' t) = p /\
    stack_base (k_tcbs k' t) = Some base /\
    current_sp (k_tcbs k' t) = Some (sptr_add base (depth - 16)) /\
    k_task_counter k' me = k_task_counter k me + 1 /\
    k_heap_offset k' = k_heap_offset k + 4 * depth /\
    (forall w, 0 <= w < depth ->
       word base k' w = stack_image depth task_function trap task_params w) /\
    (forall a, a < k_heap_offset k \/ k_heap_offset k + 4 * depth <= a -> k_heap k' a = k_heap k a) /\
    (forall u, u <> t -> k_tcbs k' u = k_tcbs k u)).
Proof.
  intros HI Hh Hheap Hme Hn Hd Hp Hroom t p base.
  assert (clamp_priority prio = p) as Hclamp.
  { unfold clamp_priority, p, NUM_TASK_PRIORITIES. destruct (Z.leb_spec 6 prio); lia. }
  destruct (task_create_eq trap me task_function depth prio task_params name k Q HI Hh Hheap Hme Hn
              Hd Hp Hroom) as (h & d' & te & Heq & HI' & Hw & Ho).
  rewrite Hclamp in *. unfold returns. rewrite Heq. split_and!; try done; cbn.
  - by rewrite fn_lookup_insert.
  - by rewrite fn_lookup_insert.
  - by rewrite fn_lookup_insert.
  - by rewrite fn_lookup_insert.
  - by rewrite fn_lookup_insert.
  - intros u Hu. by rewrite fn_lookup_insert_ne.
Qed.

Lemma task_create_places_task_witness :
  returns (task_create 0x9000 1 0x9200 32 9 7 None) demo1 (fun r k' =>
    r = (E_OK, Some (Pool 1 1)) /\ priority (k_tcbs k' (Pool 1 1)) = 5).
Proof.
  assert (k_task_counter demo1 1 = 1) as Hn by by vm_compute.
  eapply returns_mono;
    [apply (task_create_places_task 0x9000 1 0x9200 32 9 7 None demo1 _ demo1_inv)|].
  - by vm_compute.
  - by vm_compute.
  - done.
  - rewrite Hn. done.
  - done.
  - done.
  - by vm_compute.
  - rewrite Hn. intros r k' (Hr & _ & _ & _ & Hp & _). by split.
Defined.

(** [scheduler_init] on a core that was not initialised yet, and on which
    [dfu_trigger_task_start] does nothing (a core other than 0, or an image with
    the weak definition), returns E_OK with the core's tick count at 0 and, on its otherwise empty ready lists,
    the idle task alone at priority 0; the idle stack holds the initial frame
    of the idle loop above the watermark; the scheduling invariant holds, and
    no other core's queues, TCBs or scheduler state change. *)
Theorem scheduler_init_establishes `{Hooks} (idle_func c clk new_hz tick0 : Z) (k : kstate) (Q : queues) :
  sched_inv [] k Q -> k_held k = [] -> 0 <= c < COMPANION_CORE_MAX_CORES ->
  s_tick_count (k_cores k c) = None -> k_task_counter k c = 0 ->
  (c = 0 -> forall k', dfu_trigger_task_start 0 k' = Ret E_OK k') ->
  returns (scheduler_init idle_func c (Some clk) new_hz (Some tick0)) k (fun r k' =>
    r = E_OK /\ k_held k' = [] /\
    sched_inv [] k' (<[LReady c 0 := [NState (Idle c)]]> Q) /\
    (forall p, 0 < p -> Q (LReady c p) = []) /\ Q (LBlocked c) = [] /\
    live k' (Idle c) /\ s_tick_count (k_cores k' c) = Some 0 /\ hz (k_cores k' c) = new_hz /\
    current_state (k_tcbs k' (Idle c)) = TASK_STATE_READY /\
    (forall w, 0 <= w < IDLE_STACK_DEPTH ->
       idle_stack (k_cores k' c) w = idle_stack_image idle_func w) /\
    (forall c', c' <> c -> k_cores k' c' = k_cores k c') /\
    (forall u, u <> Idle c -> k_tcbs k' u = k_tcbs k u)).
Proof.
  intros HI Hh Hc Hfresh Hnone Hhook.
  destruct (scheduler_init_eq idle_func c clk new_hz tick0 k Q HI Hh Hc Hfresh Hnone Hhook)
    as (d' & st & te & Heq & HI' & Hst).
  unfold returns. rewrite Heq. split_and!; try done; cbn; rewrite ?fn_lookup_insert; try done.
  - intros p _. eapply init_ready_empty; eassumption.
  - eapply init_blocked_empty; eassumption.
  - intros c' Hne. by rewrite fn_lookup_insert_ne.
  - intros u Hu. by rewrite fn_lookup_insert_ne.
Qed.

Lemma scheduler_init_establishes_witness :
  returns (scheduler_init (H := weak_hooks) 0x8000 1 (Some 54000000) 1000 (Some 7)) kernel_zero
    (fun r k' => r = E_OK /\ s_tick_count (k_cores k' 1) = Some 0).
Proof.
  eapply returns_mono; [apply (scheduler_init_establishes (H := weak_hooks) 0x8000 1 54000000 1000 7
                                 kernel_zero _ kernel_zero_inv); done|].
  cbv beta. intros r k' (Hr & _ & _ & _ & _ & _ & Ht & _). by split.
Defined.

(** A context switch writes no stack and no saved stack pointer. *)
Lemma switch_frame (me : Z) (t : tcb) (k : kstate) :
  let k' := pick me t (requeue me (k <| k_held ::= cons (LkSched me) |>)) in
  k_heap k' = k_heap k /\ forall u, current_sp (k_tcbs k' u) = current_sp (k_tcbs k u).
Proof.
  intros k'. split.
  - unfold k', requeue. by destruct (running_on _ me).
  - intros u. unfold k'. by rewrite switch_tcb_field.
Qed.

(** The first task of a core: the state [scheduler_start] hands over in. *)
Lemma start_jumps (me sp : Z) (t : tcb) (k k1 : kstate) :
  scheduler_switch_context me k = Ret tt k1 -> k_current k1 me = Some t ->
  current_sp (k_tcbs k1 t) = Some (HeapPtr sp) -> sptr_ok (sptr_add (HeapPtr sp) 14) = true ->
  exists k2, scheduler_start me k = Stop (Jump (stack_word k1 (sptr_add (HeapPtr sp) 14))) k2.
Proof.
  intros Hsw Hcur Hsp Hok. eexists. unfold scheduler_start. exec_with Hsw. exec. rewrite Hcur.
  exec. unfold start_first_task. exec. cbn [k_current] in *. change (k_current _ me) with (k_current k1 me).
  rewrite Hcur. exec. exec. change (k_tcbs _ t) with (k_tcbs k1 t). rewrite Hsp. exec.
  unfold stack_load. rewrite Hok. exec. reflexivity.
Qed.

(** Creating a task and starting the core runs that task from its entry
    point.  On an initialised core that has not started, if no ready task has
    a priority as high as the new one's, [scheduler_start] right after
    [task_create] jumps to the task function's address. *)
Theorem start_enters_new_task (trap me task_function depth prio task_params : Z)
    (name : option (list Z)) (k : kstate) (Q : queues) :
  sched_inv [] k Q -> k_held k = [] -> heap_ok k -> live k (Idle me) ->
  0 <= k_task_counter k me < MAX_NUM_TASKS -> 16 <= depth < 2 ^ 16 -> 0 <= prio ->
  k_heap_offset k + 4 * depth <= HEAP_SIZE_BYTES -> k_current k me = None ->
  (forall p, Z.min prio (NUM_TASK_PRIORITIES - 1) <= p < NUM_TASK_PRIORITIES -> Q (LReady me p) = []) ->
  exists k', (task_create trap me task_function depth prio task_params name;; scheduler_start me) k =
    Stop (Jump (u32 task_function)) k'.
Proof.
  intros HI Hh Hheap Hidle Hn Hd Hp Hroom Hcur Hlow. pose proof Hidle as [Hme _].
  set (p := Z.min prio (NUM_TASK_PRIORITIES - 1)) in *. set (t := Pool me (k_task_counter k me)).
  assert (clamp_priority prio = p) as Hclamp.
  { unfold clamp_priority, p, NUM_TASK_PRIORITIES. destruct (Z.leb_spec 6 prio); lia. }
  destruct (task_create_eq trap me task_function depth prio task_params name k Q HI Hh Hheap Hme Hn
              Hd Hp Hroom) as (h & d' & te & Heq & HI1 & Hw & _).
  rewrite Hclamp in *. match type of Heq with _ = Ret _ ?k1 => set (k1' := k1) in * end.
  destruct (switch_context_eq me k1' _ HI1) as (p' & t' & Htop & Hin & _ & Hsw & HI2);
    [done|exact Hidle|intros u Hu; change (k_current k1' me) with (k_current k me) in Hu; congruence|].
  assert (p' = p) as ->.
  { apply (top_ready_unique _ me p' p Htop). split_and!.
    - unfold p, NUM_TASK_PRIORITIES. lia.
    - unfold p, NUM_TASK_PRIORITIES. lia.
    - rewrite fn_lookup_insert. by destruct (Q _).
    - intros p2 Hp2. rewrite fn_lookup_insert_ne by (intros [=]; lia). apply Hlow. lia. }
  rewrite fn_lookup_insert, Hlow in Hin by (unfold p, NUM_TASK_PRIORITIES; lia).
  apply list_elem_of_singleton in Hin as [= ->]. fold t in Hsw, HI2.
  destruct (switch_frame me t k1') as [Hheap' Hsp'].
  destruct (start_jumps me (k_heap_offset k + 4 * (depth - 16)) t k1' _ Hsw) as [k2 Hk2].
  - by rewrite pick_current, decide_True.
  - rewrite Hsp'. cbn. by rewrite fn_lookup_insert.
  - destruct Hheap as [Ho _]. cbn. apply andb_true_intro. split; apply Z.leb_le; lia.
  - exists k2. exec_with Heq. rewrite Hk2. do 2 f_equal.
    specialize (Hw (depth - 2) ltac:(lia)). unfold stack_image in Hw.
    rewrite decide_True in Hw by lia. replace (depth - 2 - (depth - 16)) with 14 in Hw by lia.
    etrans; [|exact Hw]. unfold word. cbn [stack_word sptr_add]. unfold heap_load32. rewrite Hheap'.
    replace (k_heap_offset k + 4 * (depth - 16) + 4 * 14) with (k_heap_offset k + 4 * (depth - 2)) by lia.
    reflexivity.
Qed.

Lemma start_enters_new_task_witness :
  exists k', (task_create 0x9000 1 0x9100 32 2 0 None;; scheduler_start 1) demo0 =
    Stop (Jump 0x9100) k'.
Proof.
  apply (start_enters_new_task 0x9000 1 0x9100 32 2 0 None demo0 _ demo0_inv).
  - by vm_compute.
  - by vm_compute.
  - split; [done|by vm_compute].
  - by vm_compute.
  - done.
  - done.
  - by vm_compute.
  - by vm_compute.
  - intros p Hp. unfold NUM_TASK_PRIORITIES in Hp. rewrite fn_lookup_insert_ne; [done|].
    intros [=]. lia.
Defined.
