(* ===== verification/Semaphore.v ===== *)
(** * Counting semaphores (source/kernel/semaphore/semaphore.c)

    A semaphore's count is [k_sem s], its waiting list the queue [LSem s],
    its lock [LkSem s].  [semaphore_take] is a loop around a spin on the
    caller's state; [semaphore_take_start] is what runs before the loop,
    [semaphore_try] one turn up to the spin, and [semaphore_resume] what
    follows it. *)

From S2P Require Import Prelude Types Dll Telemetry Kernel Invariant Scheduler SchedulerThm.

Definition SEMAPHORE_TAKE_BLOCKING : Z := -1.
Definition SEMAPHORE_MAX_COUNT_UNLIMITED : Z := 0xFFFFFFFF.

(** ** Operations *)

Definition semaphore_add_to_blocked_list (s : semref) (t : tcb) : K unit :=
  on_dm (list_push_back false (LSem s) (NEvent t) t).

Definition semaphore_init_common (s : semref) (max initial : Z) : K unit :=
  upd_sem s (fun r => r <| max_count := max |> <| count := initial |>);;
  on_dm (reset_list (LSem s));;
  spinlock_init (LkSem s).

Definition semaphore_init_with_parent (s : semref) (max initial : Z) (name : option (list Z))
    (parent_sync_id : Z) : K unit :=
  semaphore_init_common s max initial;;
  id ← telemetry_register SYNC_KIND_SEMAPHORE parent_sync_id name;
  upd_sem s (fun r => r <| smph_sync_id := id |>).

Definition semaphore_init (s : semref) (max initial : Z) (name : option (list Z)) : K unit :=
  semaphore_init_with_parent s max initial name TELEMETRY_SYNC_ID_NONE.

(** The deadline and the calling task. *)
Definition semaphore_take_start (me timeout_ms : Z) : K (Z * option tcb) :=
  deadline ← (if 0 <? timeout_ms
              then now ← scheduler_get_tick_count me; mret (u64 (now + timeout_ms))
              else mret 0);
  cur ← scheduler_get_current_task me;
  mret (deadline, cur).

(** A call either returns a status or spins until its task is woken. *)
Inductive attempt := Done (code : StatusCode) | Spin.

Definition semaphore_leave (me : Z) (s : semref) (cpsr : bool) (r : attempt) : K attempt :=
  spinlock_release (LkSem s);; exit_critical me cpsr;; mret r.

Definition semaphore_try (me : Z) (s : semref) (timeout_ms deadline : Z) (t : tcb) : K attempt :=
  core ← gets (fun k => core_id (k_tcbs k t));
  cpsr ← enter_critical me;
  spinlock_acquire (LkSem s);;
  n ← gets (fun k => count (k_sem k s));
  if 0 <? n then
    upd_sem s (fun r => r <| count := u32 (n - 1) |>);;
    semaphore_leave me s cpsr (Done E_OK)
  else if timeout_ms =? 0 then semaphore_leave me s cpsr (Done E_TIMED_OUT)
  else
    late ← (if 0 <? timeout_ms
            then now ← scheduler_get_tick_count me; mret (deadline <=? now) else mret false);
    if late : bool then semaphore_leave me s cpsr (Done E_TIMED_OUT) else
    semaphore_add_to_blocked_list s t;;
    scheduler_lock core;;
    scheduler_remove_from_ready_list (Some t);;
    when (0 <? timeout_ms) (scheduler_add_to_blocked_list (Some t) deadline;; mret tt);;
    scheduler_unlock core;;
    upd_tcb t (fun r => r <| current_state := TASK_STATE_BLOCKED |>);;
    id ← gets (fun k => task_id (k_tcbs k t));
    sync ← gets (fun k => smph_sync_id (k_sem k s));
    tel (telemetry_report_task_blocked id core SYNC_KIND_SEMAPHORE sync);;
    semaphore_leave me s cpsr Spin.

(** After the spin: a task that [semaphore_give] woke has its count; one
    that timed out goes round the loop again ([Spin] here), where the
    deadline check ends the call. *)
Definition semaphore_resume (me : Z) (s : semref) (t : tcb) : K attempt :=
  cpsr ← enter_critical me;
  spinlock_acquire (LkSem s);;
  why ← gets (fun k => wakeup_reason (k_tcbs k t));
  if decide (why = WAKEUP_REASON_RESOURCE_ACQUIRED)
  then upd_tcb t (fun r => r <| wakeup_reason := WAKEUP_REASON_NONE |>);;
       semaphore_leave me s cpsr (Done E_OK)
  else semaphore_leave me s cpsr Spin.

(** The call, up to its first return or spin. *)
Definition semaphore_take (me : Z) (s : semref) (timeout_ms : Z) : K attempt :=
  dc ← semaphore_take_start me timeout_ms;
  t ← deref dc.2;
  semaphore_try me s timeout_ms dc.1 t.

Definition semaphore_give (me : Z) (s : semref) : K StatusCode :=
  cpsr ← enter_critical me;
  spinlock_acquire (LkSem s);;
  num ← gets (fun k => num_items (lists (k_dm k) (LSem s)));
  if 0 <? num then
    hd ← gets (fun k => l_head (lists (k_dm k) (LSem s)));
    h ← deref hd;
    ow ← gets (fun k => li_owner (items (k_dm k) h));
    t ← deref ow;
    on_dm (list_pop_head (LSem s) h);;
    core ← gets (fun k => core_id (k_tcbs k t));
    scheduler_lock core;;
    scheduler_remove_from_blocked_list (Some t);;
    on_dm (list_clear (NEvent t));;
    upd_tcb t (fun r => r <| wakeup_reason := WAKEUP_REASON_RESOURCE_ACQUIRED |>);;
    scheduler_add_to_ready_list (Some t);;
    id ← gets (fun k => task_id (k_tcbs k t));
    tel (telemetry_report_task_unblocked id core);;
    scheduler_unlock core;;
    spinlock_release (LkSem s);; exit_critical me cpsr;; mret E_OK
  else
    n ← gets (fun k => count (k_sem k s));
    mx ← gets (fun k => max_count (k_sem k s));
    if n <? mx then
      upd_sem s (fun r => r <| count := u32 (n + 1) |>);;
      spinlock_release (LkSem s);; exit_critical me cpsr;; mret E_OK
    else spinlock_release (LkSem s);; exit_critical me cpsr;; mret E_RESOURCE_EXHAUSTED.

(** ** Invariant

    The count stays within its bounds, and nobody waits while it is
    positive. *)
Definition sem_ok (k : kstate) (Q : queues) (s : semref) : Prop :=
  0 <= count (k_sem k s) <= max_count (k_sem k s) /\ max_count (k_sem k s) < 2 ^ 32 /\
  (Q (LSem s) <> [] -> count (k_sem k s) = 0).

(** ** Specification

    A semaphore seen from outside: its bound, its count and who waits on it,
    longest first. *)
Record asem := mkAsem { a_max : Z; a_count : Z; a_waiters : list tcb }.

Definition sem_abs (k : kstate) (Q : queues) (s : semref) : asem :=
  mkAsem (max_count (k_sem k s)) (count (k_sem k s)) (node_tcb <$> Q (LSem s)).

(** Taking on behalf of [t]; [patient] says that [t] may wait. *)
Definition a_take (t : tcb) (patient : bool) (a : asem) : attempt * asem :=
  if 0 <? a_count a then (Done E_OK, mkAsem (a_max a) (a_count a - 1) (a_waiters a))
  else if patient then (Spin, mkAsem (a_max a) (a_count a) (a_waiters a ++ [t]))
  else (Done E_TIMED_OUT, a).

(** Giving: the longest waiter gets the count, if there is one. *)
Definition a_give (a : asem) : StatusCode * option tcb * asem :=
  match a_waiters a with
  | t :: ws => (E_OK, Some t, mkAsem (a_max a) (a_count a) ws)
  | [] => if a_count a <? a_max a then (E_OK, None, mkAsem (a_max a) (a_count a + 1) [])
          else (E_RESOURCE_EXHAUSTED, None, a)
  end.

(** ** Taking *)

Lemma sem_lock_eq (me : Z) (s : semref) (k : kstate) :
  k_held k = [] ->
  spinlock_acquire (LkSem s) (k <| k_irq_masked ::= fun f => <[me := true]> f |>) =
    Ret tt (k <| k_irq_masked ::= fun f => <[me := true]> f |> <| k_held := [LkSem s] |>).
Proof. intros Hh. rewrite acquire_eq by (cbn; by rewrite Hh). cbn. by rewrite Hh. Qed.

(** Leaving the critical section: only the interrupt mask and the lock of [k0]
    were changed by entering it. *)
Lemma leave_eq (me : Z) (s : semref) (r : attempt) (k k1 : kstate) :
  k_irq_masked k1 = <[me := true]> (k_irq_masked k) -> k_held k1 = [LkSem s] ->
  semaphore_leave me s (k_irq_masked k me) r k1 =
    Ret r (k1 <| k_held := [] |> <| k_irq_masked := k_irq_masked k |>).
Proof.
  intros Hi Hh. unfold semaphore_leave. exec. exec. unfold mret, M_mret. f_equal. cbn -[filter].
  by rewrite Hi, Hh, filter_own_lock, fn_insert_insert, fn_insert_id.
Qed.

(** The queues after [t] starts waiting, until [w] if [timed]. *)
Definition wait_queues (t : tcb) (l : lref) (timed : bool) (w : Z) (k : kstate) (Q : queues) : queues :=
  let lr := LReady (tcb_core t) (priority (k_tcbs k t)) in
  let lb := LBlocked (tcb_core t) in
  let Q1 := <[lr := del (NState t) (Q lr)]> (<[l := Q l ++ [NEvent t]]> Q) in
  if timed then <[lb := blocked_insert (wake (k_tcbs k)) w (NState t) (Q lb)]> Q1 else Q1.

Definition wait_tcb (timed : bool) (w : Z) (r : TaskControlBlock) : TaskControlBlock :=
  (if timed then r <| wakeup_time := w |> else r) <| current_state := TASK_STATE_BLOCKED |>.

(** The blocking branch. *)
Lemma semaphore_block_eq (me : Z) (s : semref) (timeout_ms deadline : Z) (t : tcb) (k : kstate) (Q : queues) :
  sched_inv [] k Q -> k_held k = [] -> can_block k me t -> count (k_sem k s) <= 0 ->
  timeout_ms <> 0 ->
  (0 < timeout_ms -> exists now, s_tick_count (k_cores k me) = Some now /\ now < deadline) ->
  let timed := 0 <? timeout_ms in
  exists d' te, let k' := k <| k_dm := d' |> <| k_tel := te |>
      <| k_tcbs ::= fun g => <[t := wait_tcb timed deadline (g t)]> g |> in
    semaphore_try me s timeout_ms deadline t k = Ret Spin k' /\
    sched_inv [] k' (wait_queues t (LSem s) timed deadline k Q).
Proof.
  intros HI Hh (Hcur & Hrun & Hidle) Hc H0 Hdl timed.
  destruct (si_current _ _ _ _ _ _ HI me t Hcur) as [Ha Hme].
  pose proof (si_valid _ _ _ _ _ _ HI t Ha) as Hv. pose proof (valid_core _ Hv) as Hcr.
  destruct (si_fields _ _ _ _ _ _ HI t Ha) as (Hcore & _).
  destruct (push_event_inv (LSem s) t k Q HI Ha Hrun I) as (HI1 & Hs1 & He1).
  set (d1 := list_push_back false (LSem s) (NEvent t) t (k_dm k)) in *.
  set (k1 := k <| k_irq_masked ::= fun f => <[me := true]> f |> <| k_held := [LkSched me; LkSem s] |>
               <| k_dm := d1 |>).
  destruct (wait_core t (LSem s) deadline timed
              (scheduler_add_to_blocked_list (Some t) deadline;; mret tt) k1 _ HI1 Ha Hidle I Hs1 He1
              ltac:(done)) as (d2 & Heq & HI2).
  exists d2, (telemetry_report_task_blocked (task_id (k_tcbs k t)) me SYNC_KIND_SEMAPHORE
                (smph_sync_id (k_sem k s)) (k_tel k)). split.
  - unfold semaphore_try. exec. rewrite Hcore, Hme.
    etrans; [eapply bind_ret, enter_critical_eq|]. etrans; [eapply bind_ret, sem_lock_eq, Hh|]. exec.
    change (count (k_sem _ s)) with (count (k_sem k s)). rewrite (proj2 (Z.ltb_ge _ _) Hc).
    rewrite (proj2 (Z.eqb_neq _ _) H0).
    etrans; [apply (bind_ret _ _ _ false
      (k <| k_irq_masked ::= fun f => <[me := true]> f |> <| k_held := [LkSem s] |>))|].
    { destruct (Z.ltb_spec 0 timeout_ms) as [Hp|]; [|done].
      destruct (Hdl Hp) as (now & Hnow & Hlt). unfold scheduler_get_tick_count. unfold_K. cbn.
      by rewrite Hnow, (proj2 (Z.leb_gt _ _) Hlt). }
    exec. etrans; [eapply bind_ret, scheduler_lock_eq; [by rewrite <- Hme|done]|].
    etrans; [eapply bind_ret2; exact Heq|]. cbv beta.
    etrans; [eapply bind_ret, scheduler_unlock_eq; by rewrite <- Hme|].
    exec. exec. exec. exec.
    etrans; [apply (leave_eq me s Spin k); [done|]|].
    + change (filter (fun h => h <> LkSched me) [LkSched me; LkSem s] = [LkSem s]).
      by apply filter_inner_lock.
    + unfold k1. cbn. rewrite !fn_insert_insert, !fn_lookup_insert, <- Hh. unfold wait_tcb.
      destruct timed; done.
  - eapply sched_inv_live; [| | | |exact HI2].
    all: cbn; try done.
    by rewrite fn_insert_insert, fn_lookup_insert.
Qed.

(** The two branches that return. *)
Lemma semaphore_return_eq (me : Z) (s : semref) (timeout_ms deadline : Z) (t : tcb) (k : kstate) :
  k_held k = [] -> 0 < count (k_sem k s) < 2 ^ 32 ->
  semaphore_try me s timeout_ms deadline t k =
    Ret (Done E_OK) (k <| k_sem ::= fun f => <[s := (f s) <| count := count (k_sem k s) - 1 |>]> f |>).
Proof.
  intros Hh Hc. unfold semaphore_try. exec.
  etrans; [eapply bind_ret, enter_critical_eq|]. etrans; [eapply bind_ret, sem_lock_eq, Hh|]. exec.
  change (count (k_sem _ s)) with (count (k_sem k s)). rewrite (proj2 (Z.ltb_lt _ _)) by lia. exec.
  etrans; [by apply (leave_eq me s _ k)|]. rewrite <- Hh. cbn. by rewrite wrap_small by lia.
Qed.

Lemma semaphore_timeout_eq (me : Z) (s : semref) (timeout_ms deadline now : Z) (t : tcb) (k : kstate) :
  k_held k = [] -> count (k_sem k s) <= 0 -> s_tick_count (k_cores k me) = Some now ->
  timeout_ms = 0 \/ (0 < timeout_ms /\ deadline <= now) ->
  semaphore_try me s timeout_ms deadline t k = Ret (Done E_TIMED_OUT) k.
Proof.
  intros Hh Hc Hnow Hto. unfold semaphore_try. exec.
  etrans; [eapply bind_ret, enter_critical_eq|]. etrans; [eapply bind_ret, sem_lock_eq, Hh|]. exec.
  change (count (k_sem _ s)) with (count (k_sem k s)). rewrite (proj2 (Z.ltb_ge _ _) Hc).
  assert (forall k', k' = k <| k_held := [] |> <| k_irq_masked := k_irq_masked k |> -> k' = k) as Hk.
  { intros k' ->. rewrite <- Hh. by destruct k. }
  destruct Hto as [->|[Hp Hd]].
  - etrans; [by apply (leave_eq me s _ k)|]. f_equal. by apply Hk.
  - rewrite (proj2 (Z.eqb_neq timeout_ms 0)) by lia. rewrite (proj2 (Z.ltb_lt _ _) Hp).
    etrans; [apply (bind_ret _ _ _ true
      (k <| k_irq_masked ::= fun f => <[me := true]> f |> <| k_held := [LkSem s] |>))|].
    { unfold scheduler_get_tick_count. unfold_K. cbn. by rewrite Hnow, (proj2 (Z.leb_le _ _) Hd). }
    etrans; [by apply (leave_eq me s _ k)|]. f_equal. by apply Hk.
Qed.

Lemma wait_sem_queue (t : tcb) (s : semref) (timed : bool) (w : Z) (k : kstate) (Q : queues) (s' : semref) :
  wait_queues t (LSem s) timed w k Q (LSem s') = if decide (s' = s) then Q (LSem s) ++ [NEvent t] else Q (LSem s').
Proof.
  unfold wait_queues. destruct timed; rewrite ?fn_lookup_insert_ne by done;
    case_decide as Hs; subst; by rewrite ?fn_lookup_insert, ?fn_lookup_insert_ne by congruence.
Qed.

(** Whether the loop turn may wait: not for a zero timeout, and not past the
    deadline. *)
Definition patient (timeout_ms deadline now : Z) : bool :=
  negb (timeout_ms =? 0) && ((timeout_ms <? 0) || (now <? deadline)).

(** C9: one turn of [semaphore_take] does what the specification says, on
    every branch: it takes a count when there is one; otherwise, when it may
    not wait, it returns E_TIMED_OUT and changes nothing; otherwise the caller
    joins the back of the semaphore's waiting list and becomes BLOCKED, with
    the deadline as its wakeup time exactly when the wait is bounded.  The
    scheduling and semaphore invariants are kept, every lock is released and
    the interrupt mask restored. *)
Theorem semaphore_take_refines (me : Z) (s : semref) (timeout_ms deadline now : Z) (t : tcb)
    (k : kstate) (Q : queues) :
  sched_inv [] k Q -> sem_ok k Q s -> k_held k = [] -> can_block k me t ->
  s_tick_count (k_cores k me) = Some now ->
  returns (semaphore_try me s timeout_ms deadline t) k (fun r k' => exists Q',
    sched_inv [] k' Q' /\ sem_ok k' Q' s /\ k_held k' = [] /\ k_irq_masked k' = k_irq_masked k /\
    (r, sem_abs k' Q' s) = a_take t (patient timeout_ms deadline now) (sem_abs k Q s) /\
    (forall s', s' <> s -> sem_abs k' Q' s' = sem_abs k Q s') /\
    match r with
    | Done E_TIMED_OUT => k' = k
    | Done _ => k_tcbs k' = k_tcbs k /\ Q' = Q
    | Spin => k_tcbs k' t = wait_tcb (0 <? timeout_ms) deadline (k_tcbs k t) /\
              (NState t ∈ Q' (LBlocked me) <-> 0 < timeout_ms) /\
              (forall u, u <> t -> k_tcbs k' u = k_tcbs k u)
    end).
Proof.
  intros HI Hok Hh Hb Hnow. pose proof Hok as (Hc & Hm & Hw). unfold a_take, returns.
  cbn [a_count sem_abs a_max a_waiters]. destruct (Z.ltb_spec 0 (count (k_sem k s))) as [Hpos|Hz].
  - rewrite semaphore_return_eq by (done || lia). exists Q. unfold sem_ok, sem_abs. cbn.
    rewrite fn_lookup_insert. cbn. split_and!; try done; try lia.
    + intros Hne. specialize (Hw Hne). lia.
    + intros s' Hs'. by rewrite fn_lookup_insert_ne.
  - destruct (patient timeout_ms deadline now) eqn:Hpat; unfold patient in Hpat.
    + apply andb_true_iff in Hpat as [H0 Hd].
      destruct (semaphore_block_eq me s timeout_ms deadline t k Q HI Hh Hb Hz) as (d' & te & Heq & HI').
      { destruct (Z.eqb_spec timeout_ms 0); [done|lia]. }
      { intros Hp. exists now. split; [done|]. destruct (Z.ltb_spec now deadline); [done|].
        destruct (Z.ltb_spec timeout_ms 0); [lia|done]. }
      rewrite Heq. eexists. split; [exact HI'|]. unfold sem_ok, sem_abs. cbn.
      rewrite !wait_sem_queue, decide_True, fmap_app by done. split_and!; try done; try lia.
      * intros s' Hs'. by rewrite wait_sem_queue, decide_False.
      * by rewrite fn_lookup_insert.
      * unfold wait_queues. destruct Hb as (Hcur & Hrun & _).
        destruct (si_current _ _ _ _ _ _ HI me t Hcur) as [Ha <-].
        destruct (Z.ltb_spec 0 timeout_ms) as [Hp|Hp].
        -- rewrite fn_lookup_insert. split; [done|]. intros _. by apply elem_of_blocked_insert; left.
        -- rewrite !fn_lookup_insert_ne by done. split; [|lia]. intros Hin.
           destruct (member_blocked _ _ _ _ _ _ _ _ HI Hin) as (u & [= <-] & _ & _ & Hbl);
             [apply not_elem_of_nil|]. by apply runnable_not_blocked in Hrun.
      * intros u Hu. by rewrite fn_lookup_insert_ne.
    + rewrite (semaphore_timeout_eq me s timeout_ms deadline now t k Hh Hz Hnow).
      * exists Q. by split_and!.
      * destruct (Z.eqb_spec timeout_ms 0); [by left|right]. cbn in Hpat.
        apply orb_false_iff in Hpat as [H1 H2]. apply Z.ltb_ge in H1, H2. lia.
Qed.

(** ** Giving *)

(** The queues after the first waiter [t] of [l] has been woken. *)
Definition handed_queues (t : tcb) (l : lref) (q : list node) (k : kstate) (Q : queues) : queues :=
  let lr := LReady (tcb_core t) (priority (k_tcbs k t)) in
  let lb := LBlocked (tcb_core t) in
  let Q1 := <[lb := del (NState t) (Q lb)]> (<[l := q]> Q) in <[lr := Q1 lr ++ [NState t]]> Q1.

Definition given_tcb (r : TaskControlBlock) : TaskControlBlock :=
  r <| wakeup_reason := WAKEUP_REASON_RESOURCE_ACQUIRED |> <| current_state := TASK_STATE_READY |>.

(** The pointer work of a hand-over: pop, take off the blocked list, clear. *)
Lemma hand_over_links (s : semref) (t : tcb) (q : list node) (k : kstate) (Q : queues) :
  sched_inv [] k Q -> Q (LSem s) = NEvent t :: q ->
  let k1 := k <| k_dm ::= list_pop_head (LSem s) (NEvent t) |> in
  exists k2, scheduler_remove_from_blocked_list (Some t) k1 = Ret E_OK k2 /\
    k2 = k <| k_dm := k_dm k2 |> /\
    let k3 := k2 <| k_dm ::= list_clear (NEvent t) |> in
    sched_inv [t] k3 (<[LBlocked (tcb_core t) := del (NState t) (Q (LBlocked (tcb_core t)))]>
                        (<[LSem s := q]> Q)) /\
    unplaced (k_dm k3) t /\ live k t.
Proof.
  intros HI Hq k1. pose proof (si_mem _ _ _ _ _ _ HI) as Hwf.
  destruct (member_sync _ _ _ _ _ _ (LSem s) (NEvent t) HI I) as (u & [= <-] & Ha & Hbl);
    [rewrite Hq; by apply elem_of_cons; left|apply not_elem_of_nil|].
  pose proof (si_valid _ _ _ _ _ _ HI t Ha) as Hv. pose proof (si_fields _ _ _ _ _ _ HI t Ha) as (Hcore & _).
  assert (li_container (items (k_dm k) (NState t)) = None \/
          li_container (items (k_dm k) (NState t)) = Some (LBlocked (tcb_core t))) as Hcs.
  { destruct (si_placed _ _ _ _ _ _ HI t Ha ltac:(apply not_elem_of_nil)) as [[?|?] _ _|cs ce _ <- _ Hor _ _];
      [congruence..|exact Hor]. }
  destruct (sinv_unlink (live k) (k_current k) t [] (NEvent t) (LSem s) (k_dm k) (k_tcbs k) Q)
    as (HI2 & He2 & Ho2); [by apply sinv_exempt|done|rewrite Hq; by apply elem_of_cons; left|done|].
  assert (del (NEvent t) (Q (LSem s)) = q) as Hdel.
  { rewrite Hq. apply (del_middle (NEvent t) [] q). rewrite <- Hq at 1. apply (rep_nodup _ _ _ (Hwf (LSem s))). }
  rewrite Hdel in HI2. rewrite <- (pop_head_clear _ Q _ _ q Hwf Hq) in HI2, He2, Ho2.
  set (d1 := list_pop_head (LSem s) (NEvent t) (k_dm k)) in *.
  set (kc := k <| k_dm := list_clear (NEvent t) d1 |>).
  assert (forall m, m <> NEvent t -> items (list_clear (NEvent t) d1) m = items d1 m) as Hcl.
  { intros m Hm. unfold list_clear. dll_simpl. by rewrite decide_False. }
  destruct (leave_blocked_inv t [] kc _ HI2 Ha) as (_ & HI3 & Hs3 & Ho3 & _ & Hf3).
  { cbn. by rewrite Ho2. }
  assert (leave_blocked t k1 = k <| k_dm := k_dm (leave_blocked t k1) |>) as Hf.
  { unfold leave_blocked, k1. case_decide; unfold blocked_remove; by destruct k. }
  exists (leave_blocked t k1). split; [|split; [exact Hf|]].
  - rewrite remove_from_blocked_eq by done. unfold leave_blocked. by case_decide.
  - assert (list_clear (NEvent t) (k_dm (leave_blocked t k1)) = k_dm (leave_blocked t kc)) as Hcomm.
    { unfold leave_blocked. change (k_dm k1) with d1. change (k_dm kc) with (list_clear (NEvent t) d1).
      rewrite Hcl by done. case_decide as Hc; [|done].
      apply unlink_clear; [done|..]; rewrite <- Hcl by done; intros Hn;
        destruct (wf_unlinked _ _ (LBlocked (tcb_core t)) _ (si_mem _ _ _ _ _ _ HI2) He2);
        eapply wf_neighbours; [exact (si_mem _ _ _ _ _ _ HI2)| |by left|exact (si_mem _ _ _ _ _ _ HI2)| |by right];
        apply (wf_container _ _ _ _ (si_mem _ _ _ _ _ _ HI2)); by rewrite Hcl. }
    rewrite Hf3 in HI3. rewrite Hf. split_and!.
    + unfold sched_inv. cbn. rewrite Hcomm. rewrite fn_lookup_insert_ne in HI3 by done. exact HI3.
    + cbn. rewrite Hcomm. split; [exact Hs3|]. rewrite Ho3 by done. exact He2.
    + done.
Qed.

Lemma semaphore_give_wakes (me : Z) (s : semref) (t : tcb) (q : list node) (k : kstate) (Q : queues) :
  sched_inv [] k Q -> k_held k = [] -> Q (LSem s) = NEvent t :: q ->
  exists d' te, let k' := k <| k_dm := d' |> <| k_tel := te |>
      <| k_tcbs ::= fun g => <[t := given_tcb (g t)]> g |> in
    semaphore_give me s k = Ret E_OK k' /\
    sched_inv [] k' (handed_queues t (LSem s) q k Q).
Proof.
  intros HI Hh Hq. set (k0 := k <| k_irq_masked ::= fun f => <[me := true]> f |>
                                <| k_held := [LkSched (tcb_core t); LkSem s] |>).
  assert (sched_inv [] k0 Q) as HI0 by exact HI.
  destruct (hand_over_links s t q k0 Q HI0 Hq) as (k2 & Heq & Hf & HI3 & Hu & Ha).
  set (k3 := k2 <| k_dm ::= list_clear (NEvent t) |>) in *.
  set (r := (k_tcbs k3 t) <| wakeup_reason := WAKEUP_REASON_RESOURCE_ACQUIRED |>).
  set (k4 := k3 <| k_tcbs ::= fun g => <[t := r]> g |>).
  pose proof (si_valid _ _ _ _ _ _ HI t Ha) as Hv. pose proof (valid_core _ Hv) as Hcr.
  pose proof (si_fields _ _ _ _ _ _ HI t Ha) as Hfl. pose proof Hfl as (Hcore & _).
  assert (k_tcbs k3 = k_tcbs k) as Htc by (unfold k3; by rewrite Hf).
  assert (sched_inv [t] k4 (<[LBlocked (tcb_core t) := del (NState t) (Q (LBlocked (tcb_core t)))]>
                        (<[LSem s := q]> Q))) as HI4.
  { by apply set_fields_inv. }
  assert (k_tcbs k4 t = (k_tcbs k t) <| wakeup_reason := WAKEUP_REASON_RESOURCE_ACQUIRED |>) as Hk4.
  { change (k_tcbs k4 t) with ((<[t := r]> (k_tcbs k3)) t). rewrite fn_lookup_insert. unfold r.
    by rewrite Htc. }
  assert (priority (k_tcbs k4 t) = priority (k_tcbs k t)) as Hp4 by (by rewrite Hk4).
  assert (live k4 t) as Ha4 by (unfold k4, k3; by rewrite Hf).
  pose proof (ready_again_inv t [] k4 _ HI4 Ha4 Hu) as HI5. rewrite Hp4 in HI5.
  assert (fields_ok t (k_tcbs k4 t)) as Hf4 by (by rewrite Hk4).
  exists (k_dm (ready_add t k4)), (telemetry_report_task_unblocked (task_id (k_tcbs k t)) (tcb_core t) (k_tel k)).
  pose proof (si_mem _ _ _ _ _ _ HI (LSem s)) as [Hhd _ Hnum _ _ _ Hown _]. rewrite Hq in Hhd, Hnum, Hown.
  split.
  - unfold semaphore_give.
    etrans; [eapply bind_ret, enter_critical_eq|]. etrans; [eapply bind_ret, sem_lock_eq, Hh|]. exec.
    change (num_items (lists (k_dm _) (LSem s))) with (num_items (lists (k_dm k) (LSem s))).
    rewrite Hnum. rewrite (proj2 (Z.ltb_lt 0 _)) by (cbn; lia). exec.
    change (l_head (lists (k_dm _) (LSem s))) with (l_head (lists (k_dm k) (LSem s))). rewrite Hhd. exec. exec.
    change (items (k_dm _) (NEvent t)) with (items (k_dm k) (NEvent t)).
    rewrite Hown by (by apply elem_of_cons; left).
    change (node_tcb (NEvent t)) with t. exec. exec. exec.
    change (core_id (k_tcbs _ t)) with (core_id (k_tcbs k t)). rewrite Hcore.
    etrans; [eapply bind_ret, scheduler_lock_eq; [exact Hcr|done]|].
    etrans; [eapply bind_ret; exact Heq|]. cbv beta.
    exec. exec. exec_with (add_to_ready_eq t k4 Hv Hf4).
    exec. exec. etrans; [eapply bind_ret, scheduler_unlock_eq; exact Hcr|]. exec. exec.
    unfold mret, M_mret. f_equal. unfold ready_add, k4, r, k3. rewrite Hf.
    cbn -[list_push_back filter telemetry_report_task_unblocked].
    rewrite filter_inner_lock, filter_own_lock by done.
    rewrite !fn_insert_insert, !fn_lookup_insert, (fn_insert_id (k_irq_masked k)) by done.
    cbn -[list_push_back telemetry_report_task_unblocked]. by rewrite <- Hh.
  - apply (sched_inv_live [] (ready_add t k4)); [done| | | |exact HI5].
    + unfold ready_add, k4, r, k3. rewrite Hf. cbn -[list_push_back].
      by rewrite !fn_insert_insert, !fn_lookup_insert.
    + unfold ready_add, k4, k3. by rewrite Hf.
    + intros u. unfold ready_add, k4, k3. by rewrite Hf.
Qed.

Lemma handed_sem_queue (t : tcb) (l : lref) (q : list node) (k : kstate) (Q : queues) (l' : lref) :
  sync_list l -> sync_list l' -> handed_queues t l q k Q l' = if decide (l' = l) then q else Q l'.
Proof.
  intros Hl Hl'. unfold handed_queues. rewrite !fn_lookup_insert_ne by (by destruct l').
  case_decide as He; subst; by rewrite ?fn_lookup_insert, ?fn_lookup_insert_ne by congruence.
Qed.

Lemma semaphore_give_counts (me : Z) (s : semref) (k : kstate) (Q : queues) :
  wf_mem (k_dm k) Q -> k_held k = [] -> Q (LSem s) = [] -> 0 <= count (k_sem k s) -> 
  max_count (k_sem k s) < 2 ^ 32 ->
  semaphore_give me s k =
    if count (k_sem k s) <? max_count (k_sem k s)
    then Ret E_OK (k <| k_sem ::= fun f => <[s := (f s) <| count := count (k_sem k s) + 1 |>]> f |>)
    else Ret E_RESOURCE_EXHAUSTED k.
Proof.
  intros Hwf Hh Hq Hc Hm. pose proof (Hwf (LSem s)) as [_ _ Hnum _ _ _ _ _]. rewrite Hq in Hnum.
  unfold semaphore_give. etrans; [eapply bind_ret, enter_critical_eq|].
  etrans; [eapply bind_ret, sem_lock_eq, Hh|]. exec.
  change (num_items (lists (k_dm _) (LSem s))) with (num_items (lists (k_dm k) (LSem s))).
  rewrite Hnum. cbn [Z.of_nat length Z.ltb Z.compare]. exec. exec.
  change (count (k_sem _ s)) with (count (k_sem k s)).
  change (max_count (k_sem _ s)) with (max_count (k_sem k s)).
  destruct (Z.ltb_spec (count (k_sem k s)) (max_count (k_sem k s))); exec; exec; try exec;
    unfold mret, M_mret; f_equal; cbn -[filter];
    rewrite filter_own_lock, ?fn_insert_insert, (fn_insert_id (k_irq_masked k)) by done; rewrite <- Hh.
  - by rewrite wrap_small by lia.
  - by destruct k.
Qed.

(** Whether a give hands its count to a waiter. *)
Definition woken (Q : queues) (s : semref) : Z := match Q (LSem s) with [] => 0 | _ => 1 end.

(** What a give does, seen from another component: it moves one count, or one
    waiter, of its own semaphore. *)
Record gave (s : semref) (k : kstate) (Q : queues) (k' : kstate) (Q' : queues) : Prop := {
  gv_inv : sched_inv [] k' Q';
  gv_held : k_held k' = [];
  gv_queue : k_queue k' = k_queue k;
  gv_cores : k_cores k' = k_cores k /\ k_current k' = k_current k;
  gv_quiet : Q (LSem s) = [] -> k_tcbs k' = k_tcbs k /\ Q' = Q;
  gv_heap : k_heap k' = k_heap k;
  gv_timers : k_timers k' = k_timers k /\ k_blocked_head k' = k_blocked_head k /\
              k_active_head k' = k_active_head k;
  gv_sem : k_sem k' = <[s := (k_sem k s) <| count := count (k_sem k s) + 1 - woken Q s |>]> (k_sem k);
  gv_waiters : forall s', Q' (LSem s') = if decide (s' = s) then tail (Q (LSem s)) else Q (LSem s');
  gv_woken : forall t q, Q (LSem s) = NEvent t :: q ->
    k_tcbs k' t = given_tcb (k_tcbs k t) /\ NState t ∈ Q' (LReady (tcb_core t) (priority (k_tcbs k t)))
}.

Lemma semaphore_give_moves (me : Z) (s : semref) (k : kstate) (Q : queues) :
  sched_inv [] k Q -> sem_ok k Q s -> k_held k = [] -> count (k_sem k s) < max_count (k_sem k s) ->
  exists k' Q', semaphore_give me s k = Ret E_OK k' /\ gave s k Q k' Q'.
Proof.
  intros HI (Hc & Hm & _) Hh Hroom. destruct (Q (LSem s)) as [|n q] eqn:Hq.
  - pose proof (semaphore_give_counts me s k Q (si_mem _ _ _ _ _ _ HI) Hh Hq (proj1 Hc) Hm) as Heq.
    rewrite (proj2 (Z.ltb_lt _ _)) in Heq by lia.
    eexists _, Q. split; [exact Heq|]. split; try done.
    + unfold woken. rewrite Hq. cbn. by rewrite Z.sub_0_r.
    + intros s'. case_decide; subst; by rewrite ?Hq.
    + intros t q. by rewrite Hq.
  - destruct (member_sync _ _ _ _ _ _ (LSem s) n HI I) as (t & -> & Ha & Hbl);
      [rewrite Hq; by apply elem_of_cons; left|apply not_elem_of_nil|].
    destruct (semaphore_give_wakes me s t q k Q HI Hh Hq) as (d' & te & Heq & HI').
    eexists _, _. split; [exact Heq|]. split; rewrite ?Hq; try done.
    + unfold woken. rewrite Hq. cbn. symmetry. apply fn_insert_id. destruct (k_sem k s). cbn. f_equal. lia.
    + intros s'. rewrite handed_sem_queue by done. case_decide as Hs; [|by rewrite decide_False by congruence].
      injection Hs as ->. by rewrite decide_True.
    + intros t' q' [= <- <-]. cbn. rewrite fn_lookup_insert.
      split; [done|]. unfold handed_queues. rewrite fn_lookup_insert. set_solver.
Qed.

Lemma sem_ok_ext (k k' : kstate) (Q Q' : queues) (s : semref) :
  k_sem k' s = k_sem k s -> Q' (LSem s) = Q (LSem s) -> sem_ok k Q s -> sem_ok k' Q' s.
Proof. unfold sem_ok. by intros -> ->. Qed.

(** After a give the semaphore's own invariant still holds. *)
Lemma gave_ok (s : semref) (k k' : kstate) (Q Q' : queues) :
  sem_ok k Q s -> count (k_sem k s) < max_count (k_sem k s) -> gave s k Q k' Q' ->
  forall s', sem_ok k Q s' -> sem_ok k' Q' s'.
Proof.
  intros (Hc & Hm & Hw) Hroom [] s' Hs'. destruct (decide (s' = s)) as [->|Hne].
  - unfold sem_ok. rewrite gv_sem0, gv_waiters0, fn_lookup_insert, decide_True by done. cbn.
    unfold woken in *. destruct (Q (LSem s)) as [|n q]; cbn; [split_and!; [lia..|done]|].
    rewrite Hw in * by done. split_and!; [lia..|]. lia.
  - apply (sem_ok_ext k k' Q Q'); [by rewrite gv_sem0, fn_lookup_insert_ne|by rewrite gv_waiters0, decide_False|done].
Qed.

(** C25: [semaphore_give] does what the specification says: when tasks wait,
    the one that has waited longest is taken off the semaphore's list and off
    its core's blocked list and put, READY and marked as having acquired the
    resource, at the back of its own core's ready list, whichever core gave;
    the count does not change.  When nobody waits the count goes up by one,
    or, at its bound, the call returns E_RESOURCE_EXHAUSTED and changes
    nothing. *)
Theorem semaphore_give_refines (me : Z) (s : semref) (k : kstate) (Q : queues) :
  sched_inv [] k Q -> sem_ok k Q s -> k_held k = [] ->
  returns (semaphore_give me s) k (fun r k' => exists Q' woken,
    sched_inv [] k' Q' /\ sem_ok k' Q' s /\ k_held k' = [] /\ k_irq_masked k' = k_irq_masked k /\
    a_give (sem_abs k Q s) = (r, woken, sem_abs k' Q' s) /\
    (forall s', s' <> s -> sem_abs k' Q' s' = sem_abs k Q s') /\
    match woken with
    | Some t => k_tcbs k' t = given_tcb (k_tcbs k t) /\
                last (Q' (LReady (tcb_core t) (priority (k_tcbs k t)))) = Some (NState t) /\
                (forall c, NState t ∉ Q' (LBlocked c)) /\ (forall u, u <> t -> k_tcbs k' u = k_tcbs k u)
    | None => k_tcbs k' = k_tcbs k /\ Q' = Q
    end).
Proof.
  intros HI Hok Hh. pose proof Hok as (Hc & Hm & Hw). unfold returns.
  pose proof (si_mem _ _ _ _ _ _ HI) as Hwf.
  destruct (Q (LSem s)) as [|n q] eqn:Hq.
  - rewrite (semaphore_give_counts me s k Q) by (done || lia). unfold a_give, sem_abs. rewrite Hq. cbn.
    destruct (Z.ltb_spec (count (k_sem k s)) (max_count (k_sem k s))).
    + exists Q, None. unfold sem_ok. cbn. rewrite Hq, fn_lookup_insert. cbn. split_and!; try done; try lia.
      intros s' Hs'. by rewrite fn_lookup_insert_ne.
    + exists Q, None. rewrite Hq. by split_and!.
  - destruct (member_sync _ _ _ _ _ _ (LSem s) n HI I) as (t & -> & Ha & Hbl);
      [rewrite Hq; by apply elem_of_cons; left|apply not_elem_of_nil|].
    destruct (semaphore_give_wakes me s t q k Q HI Hh Hq) as (d' & te & Heq & HI').
    rewrite Heq. exists (handed_queues t (LSem s) q k Q), (Some t).
    unfold a_give, sem_abs, sem_ok. rewrite Hq. cbn -[handed_queues].
    rewrite !handed_sem_queue, decide_True by done. split_and!; try done; try lia.
    + intros _. by apply Hw.
    + intros s' Hs'. by rewrite handed_sem_queue, decide_False by (done || congruence).
    + by rewrite fn_lookup_insert.
    + unfold handed_queues. by rewrite fn_lookup_insert, last_snoc.
    + intros c Hin. destruct (member_blocked _ _ _ _ _ _ _ _ HI' Hin) as (u & [= <-] & _ & _ & Hb);
        [apply not_elem_of_nil|]. cbn in Hb. by rewrite fn_lookup_insert in Hb.
    + intros u Hu. by rewrite fn_lookup_insert_ne.
Qed.

(** ** Initialisation *)

Lemma semaphore_init_eq (s : semref) (mx initial : Z) (name : option (list Z)) (k : kstate) (Q : queues) :
  sched_inv [] k Q -> k_held k = [] -> Q (LSem s) = [] -> 0 <= initial <= mx -> mx < 2 ^ 32 ->
  exists te id, let k' := k <| k_dm ::= reset_list (LSem s) |> <| k_tel := te |>
      <| k_sem ::= fun f => <[s := mkSemaphore mx initial id]> f |> in
    semaphore_init s mx initial name k = Ret tt k' /\ sched_inv [] k' Q /\ sem_ok k' Q s.
Proof.
  intros HI Hh Hq Hi Hm.
  destruct (telemetry_register_sync SYNC_KIND_SEMAPHORE TELEMETRY_SYNC_ID_NONE name (k_tel k)) as [id te] eqn:Ht.
  exists te, id. split_and!.
  - unfold semaphore_init, semaphore_init_with_parent, semaphore_init_common, telemetry_register.
    unfold_K. cbn -[filter telemetry_register_sync]. rewrite Ht. cbn -[filter].
    by rewrite fn_insert_insert, fn_lookup_insert, Hh.
  - by apply sinv_reset.
  - unfold sem_ok. cbn. rewrite fn_lookup_insert. cbn. split_and!; [lia..|]. by rewrite Hq.
Qed.

(** ** Hand-over *)

Lemma semaphore_resume_eq (me : Z) (s : semref) (t : tcb) (k : kstate) :
  k_held k = [] ->
  semaphore_resume me s t k =
    if decide (wakeup_reason (k_tcbs k t) = WAKEUP_REASON_RESOURCE_ACQUIRED)
    then Ret (Done E_OK) (k <| k_tcbs ::= fun g => <[t := (g t) <| wakeup_reason := WAKEUP_REASON_NONE |>]> g |>)
    else Ret Spin k.
Proof.
  intros Hh. unfold semaphore_resume. etrans; [eapply bind_ret, enter_critical_eq|].
  etrans; [eapply bind_ret, sem_lock_eq, Hh|]. exec.
  change (k_tcbs _ t) with (k_tcbs k t). case_decide as Hr.
  - exec. etrans; [by apply (leave_eq me s _ k)|]. by rewrite <- Hh.
  - etrans; [by apply (leave_eq me s _ k)|]. rewrite <- Hh. by destruct k.
Qed.

(** A hand-over is complete.  When a task finds the semaphore empty and
    nobody waiting before it, and waits, one [semaphore_give] from any core
    makes it READY, and its [semaphore_take] then returns E_OK without going
    round the loop again; the give and the take cancel out, so the count is
    still 0 and nobody is left waiting. *)
Theorem semaphore_handoff (me you : Z) (s : semref) (timeout_ms deadline now : Z) (t : tcb)
    (k : kstate) (Q : queues) :
  sched_inv [] k Q -> sem_ok k Q s -> k_held k = [] -> can_block k me t ->
  s_tick_count (k_cores k me) = Some now -> count (k_sem k s) = 0 -> Q (LSem s) = [] ->
  patient timeout_ms deadline now = true ->
  returns (semaphore_try me s timeout_ms deadline t;; semaphore_give you s;; semaphore_resume me s t) k
    (fun r k' => r = Done E_OK /\ exists Q',
       sched_inv [] k' Q' /\ sem_abs k' Q' s = sem_abs k Q s /\ k_held k' = [] /\
       current_state (k_tcbs k' t) = TASK_STATE_READY /\
       wakeup_reason (k_tcbs k' t) = WAKEUP_REASON_NONE).
Proof.
  intros HI Hok Hh Hb Hnow Hc Hq Hpat.
  unfold patient in Hpat. apply andb_true_iff in Hpat as [H0 Hd].
  destruct (semaphore_block_eq me s timeout_ms deadline t k Q HI Hh Hb) as (d1 & te1 & Heq & HI1); [lia| | |].
  { by destruct (Z.eqb_spec timeout_ms 0). }
  { intros Hp. exists now. split; [done|]. destruct (Z.ltb_spec now deadline); [done|].
    destruct (Z.ltb_spec timeout_ms 0); [lia|done]. }
  cbv zeta in Heq, HI1. set (k1 := k <| k_dm := d1 |> <| k_tel := te1 |> <| k_tcbs ::= _ |>) in *.
  set (Q1 := wait_queues _ _ _ _ _ _) in *.
  apply returns_bind. unfold returns at 1. rewrite Heq.
  assert (Q1 (LSem s) = [NEvent t]) as Hq1 by (unfold Q1; by rewrite wait_sem_queue, decide_True, Hq).
  destruct (semaphore_give_wakes you s t [] k1 Q1 HI1 Hh Hq1) as (d2 & te2 & Heq2 & HI2).
  cbv zeta in Heq2, HI2. set (k2 := k1 <| k_dm := d2 |> <| k_tel := te2 |> <| k_tcbs ::= _ |>) in *.
  set (Q2 := handed_queues _ _ _ _ _) in *.
  apply returns_bind. unfold returns at 1. rewrite Heq2.
  assert (k_tcbs k2 t = given_tcb (k_tcbs k1 t)) as Ht2 by (unfold k2; cbn; by rewrite fn_lookup_insert).
  unfold returns. rewrite semaphore_resume_eq, Ht2 by done. rewrite decide_True by done. split; [done|].
  exists Q2. split_and!.
  - apply same_fields_inv; [exact HI2|]. intros u. rewrite fn_insert_lookup. by case_decide; subst.
  - unfold sem_abs, Q2. rewrite handed_sem_queue, decide_True, Hq by done. done.
  - done.
  - cbn -[k2]. rewrite fn_lookup_insert, Ht2. done.
  - cbn -[k2]. by rewrite fn_lookup_insert.
Qed.

(** ** A concrete semaphore: [demo] with an empty one of bound 2 *)

Definition demo_sem : kstate := final (semaphore_init (SemUser 0) 2 0 None) demo.

Lemma demo_sem_inv : sched_inv [] demo_sem demo_Q /\ sem_ok demo_sem demo_Q (SemUser 0).
Proof.
  assert (0 <= 0 <= 2 /\ 2 < 2 ^ 32) as [H1 H2] by done.
  destruct (semaphore_init_eq (SemUser 0) 2 0 None demo demo_Q demo_inv demo_held eq_refl H1 H2)
    as (te & id & Heq & Hk).
  unfold demo_sem. by erewrite final_eq by exact Heq.
Qed.

Lemma demo_sem_can_block : can_block demo_sem 1 (Pool 1 0).
Proof. split_and!; [by vm_compute|right; by vm_compute|done]. Qed.
Lemma demo_sem_tick : s_tick_count (k_cores demo_sem 1) = Some 0.
Proof. by vm_compute. Qed.
Lemma demo_sem_held : k_held demo_sem = [].
Proof. by vm_compute. Qed.
Lemma demo_sem_count : count (k_sem demo_sem (SemUser 0)) = 0.
Proof. by vm_compute. Qed.

Lemma semaphore_take_refines_witness :
  returns (semaphore_try 1 (SemUser 0) 5 5 (Pool 1 0)) demo_sem (fun r k' =>
    r = Spin /\ current_state (k_tcbs k' (Pool 1 0)) = TASK_STATE_BLOCKED).
Proof.
  eapply returns_mono; [apply (semaphore_take_refines 1 (SemUser 0) 5 5 0 (Pool 1 0) demo_sem demo_Q
    (proj1 demo_sem_inv) (proj2 demo_sem_inv) demo_sem_held demo_sem_can_block demo_sem_tick)|].
  cbv beta. intros r k' (Q' & _ & _ & _ & _ & Hr & _ & Hm). unfold a_take, sem_abs in Hr. cbn [a_count] in Hr.
  rewrite demo_sem_count in Hr. cbn in Hr. injection Hr as ->. split; [done|]. destruct Hm as [-> _]. done.
Defined.

Lemma semaphore_give_refines_witness :
  returns (semaphore_give 0 (SemUser 0)) demo_sem (fun r k' =>
    r = E_OK /\ count (k_sem k' (SemUser 0)) = 1).
Proof.
  eapply returns_mono; [apply (semaphore_give_refines 0 (SemUser 0) demo_sem demo_Q
    (proj1 demo_sem_inv) (proj2 demo_sem_inv) demo_sem_held)|].
  cbv beta. intros r k' (Q' & w & _ & _ & _ & _ & Hr & _). unfold a_give, sem_abs in Hr.
  cbn [a_waiters a_count a_max] in Hr. rewrite demo_sem_count in Hr.
  assert (max_count (k_sem demo_sem (SemUser 0)) = 2) as Hm by by vm_compute.
  rewrite Hm in Hr. cbn in Hr. by injection Hr as <- _ _ <- _.
Defined.

Lemma semaphore_handoff_witness :
  returns (semaphore_try 1 (SemUser 0) (-1) 0 (Pool 1 0);; semaphore_give 0 (SemUser 0);;
           semaphore_resume 1 (SemUser 0) (Pool 1 0)) demo_sem (fun r _ => r = Done E_OK).
Proof.
  eapply returns_mono; [apply (semaphore_handoff 1 0 (SemUser 0) (-1) 0 0 (Pool 1 0) demo_sem demo_Q
    (proj1 demo_sem_inv) (proj2 demo_sem_inv) demo_sem_held demo_sem_can_block demo_sem_tick
    demo_sem_count eq_refl eq_refl)|].
  cbv beta. by intros r k' [Hr _].
Defined.
