(* ===== verification/Mutex.v ===== *)
(** * Mutexes with priority inheritance (source/kernel/mutex/mutex.c)

    A mutex is [k_mtx m], its waiting list the queue [LMutex m], its lock
    [LkMutex m].  [mutex_lock] runs up to the spin on the caller's state,
    [mutex_lock_resume] is what follows it. *)

From S2P Require Import Prelude Types Dll Telemetry Kernel Invariant Scheduler SchedulerThm Semaphore.

(** ** Operations *)

Definition mutex_init (m : Z) (name : option (list Z)) : K unit :=
  on_dm (reset_list (LMutex m));;
  upd_mtx m (fun r => r <| mutex_owner := None |> <| mtx_state := MUTEX_STATE_UNLOCKED |>
                        <| inheritance_enabled := 0 |> <| inherited_priority := TASK_PRIORITY_IDLE |>);;
  spinlock_init (LkMutex m);;
  id ← telemetry_register SYNC_KIND_MUTEX TELEMETRY_SYNC_ID_NONE name;
  upd_mtx m (fun r => r <| mtx_sync_id := id |>).

Definition mutex_leave {A} (me : Z) (m : Z) (cpsr : bool) (r : A) : K A :=
  spinlock_release (LkMutex m);; exit_critical me cpsr;; mret r.

Definition mutex_set_inheritance (me m enable : Z) : K StatusCode :=
  cpsr ← enter_critical me;
  spinlock_acquire (LkMutex m);;
  s ← gets (fun k => mtx_state (k_mtx k m));
  num ← gets (fun k => num_items (lists (k_dm k) (LMutex m)));
  if bool_decide (s = MUTEX_STATE_LOCKED) || (0 <? num)
  then mutex_leave me m cpsr E_INVALID_ARGS
  else upd_mtx m (fun r => r <| inheritance_enabled := enable |>);;
       mutex_leave me m cpsr E_OK.

Definition mutex_add_to_blocked_list (m : Z) (t : tcb) : K unit :=
  on_dm (list_push_back false (LMutex m) (NEvent t) t).

(** Taking [tcb] to a new priority inside its own core's scheduler lock. *)
Definition locked_change_priority (t : tcb) (p : Z) : K unit :=
  c ← gets (fun k => core_id (k_tcbs k t));
  scheduler_lock c;; scheduler_change_task_priority t p;; scheduler_unlock c.

(** The inheritance step of a waiter [t]: raise [inherited_priority] to the
    waiter's priority, and the holder to [inherited_priority]. *)
Definition mutex_inherit (m : Z) (t : tcb) : K unit :=
  p ← gets (fun k => priority (k_tcbs k t));
  ip ← gets (fun k => inherited_priority (k_mtx k m));
  when (ip <? p) (upd_mtx m (fun r => r <| inherited_priority := p |>));;
  ow ← gets (fun k => mutex_owner (k_mtx k m));
  o ← deref ow;
  po ← gets (fun k => priority (k_tcbs k o));
  ip' ← gets (fun k => inherited_priority (k_mtx k m));
  when (po <? ip') (locked_change_priority o ip').

Definition mutex_lock (me m timeout_ms : Z) : K attempt :=
  cpsr ← enter_critical me;
  spinlock_acquire (LkMutex m);;
  cur ← scheduler_get_current_task me;
  s ← gets (fun k => mtx_state (k_mtx k m));
  if decide (s = MUTEX_STATE_UNLOCKED) then
    upd_mtx m (fun r => r <| mtx_state := MUTEX_STATE_LOCKED |> <| mutex_owner := cur |>);;
    inh ← gets (fun k => inheritance_enabled (k_mtx k m));
    when (negb (inh =? 0))
      (t ← deref cur; upd_tcb t (fun r => r <| mutexes_held ::= fun n => u32 (n + 1) |>));;
    spinlock_release (LkMutex m);;
    t ← deref cur;
    r ← gets (fun k => k_tcbs k t);
    sync ← gets (fun k => mtx_sync_id (k_mtx k m));
    tel (telemetry_report_mutex_owner_changed sync 1 (task_id r) (core_id r));;
    exit_critical me cpsr;; mret (Done E_OK)
  else if timeout_ms =? 0 then mutex_leave me m cpsr (Done E_TIMED_OUT)
  else
    t ← deref cur;
    mutex_add_to_blocked_list m t;;
    c ← gets (fun k => core_id (k_tcbs k t));
    scheduler_lock c;;
    scheduler_remove_from_ready_list (Some t);;
    when (0 <? timeout_ms)
      (now ← scheduler_get_tick_count me;
       scheduler_add_to_blocked_list (Some t) (u64 (now + timeout_ms));; mret tt);;
    upd_tcb t (fun r => r <| current_state := TASK_STATE_BLOCKED |>);;
    id ← gets (fun k => task_id (k_tcbs k t));
    sync ← gets (fun k => mtx_sync_id (k_mtx k m));
    tel (telemetry_report_task_blocked id c SYNC_KIND_MUTEX sync);;
    scheduler_unlock c;;
    inh ← gets (fun k => inheritance_enabled (k_mtx k m));
    when (negb (inh =? 0)) (mutex_inherit m t);;
    mutex_leave me m cpsr Spin.

Definition mutex_lock_resume (me m : Z) (t : tcb) : K StatusCode :=
  cpsr ← enter_critical me;
  spinlock_acquire (LkMutex m);;
  ow ← gets (fun k => mutex_owner (k_mtx k m));
  mutex_leave me m cpsr (if decide (ow = Some t) then E_OK else E_TIMED_OUT).

(** The scan of the waiting list from [iter]: the waiter of highest priority,
    the first of them, and the second-highest priority. *)
Definition owner_priority (n : node) : K Z :=
  ow ← gets (fun k => li_owner (items (k_dm k) n));
  t ← deref ow;
  gets (fun k => priority (k_tcbs k t)).

Fixpoint mutex_scan (fuel : nat) (iter : option node) (best : node) (second : Z) : K (node * Z) :=
  match iter, fuel with
  | None, _ => mret (best, second)
  | Some _, O => stop NoFuel
  | Some i, S fuel' =>
      pi ← owner_priority i;
      pb ← owner_priority best;
      nx ← gets (fun k => li_next (items (k_dm k) i));
      if pb <? pi then mutex_scan fuel' nx i (if second <? pb then pb else second)
      else mutex_scan fuel' nx best (if second <? pi then pi else second)
  end.

(** What the holder gives up: one inheritance mutex fewer, and, with the last
    one, its boosted priority. *)
Definition mutex_restore_holder (m : Z) (holder : option tcb) : K unit :=
  inh ← gets (fun k => inheritance_enabled (k_mtx k m));
  match holder with
  | Some h =>
      when (negb (inh =? 0)) (
        upd_tcb h (fun r => r <| mutexes_held ::= fun n => u32 (n - 1) |>);;
        r ← gets (fun k => k_tcbs k h);
        when ((mutexes_held r =? 0) && negb (priority r =? base_priority r))
          (locked_change_priority h (base_priority r)))
  | None => mret tt
  end.

(** The hand-over to [t], inside its core's scheduler lock. *)
Definition mutex_hand_over (m : Z) (t : tcb) : K unit :=
  c ← gets (fun k => core_id (k_tcbs k t));
  scheduler_lock c;;
  inh ← gets (fun k => inheritance_enabled (k_mtx k m));
  when (negb (inh =? 0)) (
    upd_tcb t (fun r => r <| mutexes_held ::= fun n => u32 (n + 1) |>);;
    ip ← gets (fun k => inherited_priority (k_mtx k m));
    p ← gets (fun k => priority (k_tcbs k t));
    when (p <? ip) (scheduler_change_task_priority t ip));;
  scheduler_remove_from_blocked_list (Some t);;
  scheduler_add_to_ready_list (Some t);;
  r ← gets (fun k => k_tcbs k t);
  sync ← gets (fun k => mtx_sync_id (k_mtx k m));
  tel (telemetry_report_task_unblocked (task_id r) (core_id r));;
  tel (telemetry_report_mutex_owner_changed sync 1 (task_id r) (core_id r));;
  scheduler_unlock c.

Definition mutex_unlock (me m : Z) : K unit :=
  cpsr ← enter_critical me;
  spinlock_acquire (LkMutex m);;
  s ← gets (fun k => mtx_state (k_mtx k m));
  if decide (s <> MUTEX_STATE_LOCKED) then mutex_leave me m cpsr tt else
  holder ← gets (fun k => mutex_owner (k_mtx k m));
  num ← gets (fun k => num_items (lists (k_dm k) (LMutex m)));
  (if num =? 0 then
    upd_mtx m (fun r => r <| mutex_owner := None |> <| mtx_state := MUTEX_STATE_UNLOCKED |>
                          <| inherited_priority := TASK_PRIORITY_IDLE |>);;
    sync ← gets (fun k => mtx_sync_id (k_mtx k m));
    tel (telemetry_report_mutex_owner_changed sync 0 0 0);;
    mutex_restore_holder m holder
  else
    hd ← gets (fun k => l_head (lists (k_dm k) (LMutex m)));
    h ← deref hd;
    nx ← gets (fun k => li_next (items (k_dm k) h));
    bs ← mutex_scan list_fuel nx h TASK_PRIORITY_IDLE;
    ow ← gets (fun k => li_owner (items (k_dm k) bs.1));
    on_dm (list_stitch (LMutex m) bs.1);;
    on_dm (list_forget (LMutex m) bs.1);;
    upd_mtx m (fun r => r <| inherited_priority := bs.2 |>);;
    mutex_restore_holder m holder;;
    t ← deref ow;
    upd_mtx m (fun r => r <| mutex_owner := Some t |>);;
    mutex_hand_over m t);;
  mutex_leave me m cpsr tt.

(** ** Invariant

    An unlocked mutex has no owner and nobody waiting; a locked one is owned
    by a task that is not itself waiting for it. *)
Definition mtx_ok (k : kstate) (Q : queues) (m : Z) : Prop :=
  0 <= inherited_priority (k_mtx k m) < NUM_TASK_PRIORITIES /\
  match mtx_state (k_mtx k m) with
  | MUTEX_STATE_UNLOCKED => mutex_owner (k_mtx k m) = None /\ Q (LMutex m) = []
  | MUTEX_STATE_LOCKED => exists o, mutex_owner (k_mtx k m) = Some o /\ live k o /\
                            NEvent o ∉ Q (LMutex m)
  end.

(** ** Shared steps *)

Lemma mtx_lock_eq (me m : Z) (k : kstate) :
  k_held k = [] ->
  spinlock_acquire (LkMutex m) (k <| k_irq_masked ::= fun f => <[me := true]> f |>) =
    Ret tt (k <| k_irq_masked ::= fun f => <[me := true]> f |> <| k_held := [LkMutex m] |>).
Proof. intros Hh. rewrite acquire_eq by (cbn; by rewrite Hh). cbn. by rewrite Hh. Qed.

Lemma mtx_leave_eq {A} (me m : Z) (r : A) (k k1 : kstate) :
  k_irq_masked k1 = <[me := true]> (k_irq_masked k) -> k_held k1 = [LkMutex m] ->
  mutex_leave me m (k_irq_masked k me) r k1 =
    Ret r (k1 <| k_held := [] |> <| k_irq_masked := k_irq_masked k |>).
Proof.
  intros Hi Hh. unfold mutex_leave. exec. exec. unfold mret, M_mret. f_equal. cbn -[filter].
  by rewrite Hi, Hh, filter_own_lock, fn_insert_insert, fn_insert_id.
Qed.

Lemma change_priority_held (t : tcb) (p : Z) (k : kstate) (H : list lock) :
  change_priority t p (k <| k_held := H |>) = (change_priority t p k) <| k_held := H |>.
Proof. destruct k. unfold change_priority. cbn. by case_decide. Qed.

Lemma change_priority_frame (t : tcb) (p : Z) (k : kstate) :
  change_priority t p k = k <| k_dm := k_dm (change_priority t p k) |>
                            <| k_tcbs ::= fun g => <[t := (g t) <| priority := p |>]> g |>.
Proof.
  unfold change_priority. case_decide; [|by destruct k].
  unfold set_state, ready_add, set_priority, ready_remove. destruct k. cbn -[list_push_back list_remove_ready].
  rewrite !fn_insert_insert, !fn_lookup_insert. reflexivity.
Qed.

Lemma locked_change_eq (t : tcb) (p : Z) (h : lock) ex (k : kstate) (Q : queues) :
  sched_inv ex k Q -> live k t -> t ∉ ex -> base_priority (k_tcbs k t) <= p < NUM_TASK_PRIORITIES ->
  k_held k = [h] -> lock_rank h = 1 ->
  locked_change_priority t p k = Ret tt (change_priority t p k) /\
  sched_inv ex (change_priority t p k) (requeued t p k Q).
Proof.
  intros HI Ha Hex Hp Hh Hr. pose proof (si_valid _ _ _ _ _ _ HI t Ha) as Hv.
  destruct (si_fields _ _ _ _ _ _ HI t Ha) as (Hc & _).
  destruct (change_priority_inv t p ex k Q HI Ha Hex Hp) as [Heq HI']. split; [|done].
  set (k1 := k <| k_held := [LkSched (tcb_core t); h] |>).
  destruct (change_priority_inv t p ex k1 Q HI Ha Hex Hp) as [Heq1 _].
  unfold locked_change_priority. exec. rewrite Hc.
  etrans; [eapply bind_ret, scheduler_lock_eq; [by apply valid_core|by rewrite Hh; cbn; rewrite Hr]|].
  replace (k <| k_held ::= cons (LkSched (tcb_core t)) |>) with k1 by (unfold k1; destruct k; cbn in *; by subst).
  exec_with Heq1. etrans; [eapply scheduler_unlock_eq; by apply valid_core|].
  unfold k1. rewrite change_priority_held. f_equal. rewrite change_priority_frame. destruct k.
  cbn -[filter] in *. rewrite filter_inner_lock by (intros ->; by cbn in Hr). by subst.
Qed.

Lemma requeued_other (t : tcb) (p : Z) (k : kstate) (Q : queues) (l : lref) :
  (forall c p', l <> LReady c p') -> requeued t p k Q l = Q l.
Proof.
  intros Hl. unfold requeued. case_decide; [|done].
  by rewrite !fn_lookup_insert_ne by (intros He; by eapply Hl).
Qed.

Lemma requeued_elem (t : tcb) (p : Z) (k : kstate) (Q : queues) (n : node) (l : lref) :
  node_tcb n <> t -> n ∈ requeued t p k Q l <-> n ∈ Q l.
Proof.
  intros Hn. assert (n <> NState t) as Hne by (by intros ->). unfold requeued. case_decide; [|done].
  set (l0 := LReady _ (priority _)).
  assert (forall l, n ∈ (<[l0 := del (NState t) (Q l0)]> Q) l <-> n ∈ Q l) as Hin.
  { intros x. rewrite fn_insert_lookup. case_decide; subst; [|done]. rewrite elem_of_del. tauto. }
  rewrite fn_insert_lookup. case_decide; subst; [|done].
  rewrite elem_of_app, list_elem_of_singleton, Hin. tauto.
Qed.

Lemma change_priority_live (t : tcb) (p : Z) (k : kstate) (u : tcb) :
  live (change_priority t p k) u <-> live k u.
Proof. by rewrite change_priority_frame. Qed.

Lemma change_priority_tcb (t : tcb) (p : Z) (k : kstate) (u : tcb) :
  k_tcbs (change_priority t p k) u =
    if decide (t = u) then (k_tcbs k u) <| priority := p |> else k_tcbs k u.
Proof. rewrite change_priority_frame. cbn. rewrite fn_insert_lookup. by case_decide; subst. Qed.

(** ** Inheritance *)

Definition inherit (m : Z) (t o : tcb) (k : kstate) : kstate :=
  let ip := Z.max (inherited_priority (k_mtx k m)) (priority (k_tcbs k t)) in
  let k1 := k <| k_mtx ::= fun f => <[m := (f m) <| inherited_priority := ip |>]> f |> in
  if priority (k_tcbs k o) <? ip then change_priority o ip k1 else k1.

Definition inherit_queues (m : Z) (t o : tcb) (k : kstate) (Q : queues) : queues :=
  let ip := Z.max (inherited_priority (k_mtx k m)) (priority (k_tcbs k t)) in
  if priority (k_tcbs k o) <? ip then requeued o ip k Q else Q.

Lemma inherit_eq (m : Z) (t o : tcb) (k : kstate) (Q : queues) :
  sched_inv [] k Q -> live k t -> live k o -> mutex_owner (k_mtx k m) = Some o ->
  0 <= inherited_priority (k_mtx k m) < NUM_TASK_PRIORITIES -> k_held k = [LkMutex m] ->
  mutex_inherit m t k = Ret tt (inherit m t o k) /\
  sched_inv [] (inherit m t o k) (inherit_queues m t o k Q).
Proof.
  intros HI Ha Hao How Hip Hh.
  destruct (si_fields _ _ _ _ _ _ HI t Ha) as (_ & Hb & Hp).
  destruct (si_fields _ _ _ _ _ _ HI o Hao) as (_ & Hbo & Hpo).
  set (ip := Z.max (inherited_priority (k_mtx k m)) (priority (k_tcbs k t))).
  set (k1 := k <| k_mtx ::= fun f => <[m := (f m) <| inherited_priority := ip |>]> f |>).
  assert (sched_inv [] k1 Q) as HI1 by exact HI.
  assert ((when (inherited_priority (k_mtx k m) <? priority (k_tcbs k t))
             (upd_mtx m (fun r => r <| inherited_priority := priority (k_tcbs k t) |>))) k = Ret tt k1) as Hw.
  { unfold k1, ip. destruct (Z.ltb_spec (inherited_priority (k_mtx k m)) (priority (k_tcbs k t))).
    - by rewrite Z.max_r by lia.
    - rewrite Z.max_l by lia. unfold when, mret, M_mret. f_equal. destruct k as [? ? ? ? ? mtx]. cbn.
      rewrite fn_insert_id; [done|]. by destruct (mtx m). }
  assert (mutex_owner (k_mtx k1 m) = Some o /\ inherited_priority (k_mtx k1 m) = ip) as [Ho1 Hi1].
  { cbn. by rewrite fn_lookup_insert. }
  unfold mutex_inherit, inherit, inherit_queues. fold ip. fold k1.
  assert (forall r, (when (priority (k_tcbs k1 o) <? ip) (locked_change_priority o ip)) k1 = r ->
    mutex_inherit m t k = r) as Hrun.
  { intros r <-. unfold mutex_inherit. exec. exec. exec_with Hw. exec. rewrite Ho1. exec. exec. exec.
    by rewrite Hi1. }
  unfold mutex_inherit in Hrun. change (k_tcbs k1 o) with (k_tcbs k o) in Hrun.
  destruct (Z.ltb_spec (priority (k_tcbs k o)) ip) as [Hlt|Hge].
  - destruct (locked_change_eq o ip (LkMutex m) [] k1 Q HI1 Hao) as [Heq HI2];
      [apply not_elem_of_nil|cbn; unfold ip; lia|done|done|]. split; [by apply Hrun|exact HI2].
  - split; [by apply Hrun|done].
Qed.

(** ** Locking *)

(** The state inside the mutex's lock once the caller is queued and BLOCKED. *)
Definition queued (me m w : Z) (timed : bool) (t : tcb) (d' : dmem) (te : telemetry) (k : kstate) : kstate :=
  k <| k_irq_masked ::= fun f => <[me := true]> f |> <| k_held := [LkMutex m] |> <| k_dm := d' |>
    <| k_tel := te |> <| k_tcbs ::= fun g => <[t := wait_tcb timed w (g t)]> g |>.

Lemma mutex_queue_eq (me m timeout_ms now : Z) (t : tcb) (k : kstate) (Q : queues) :
  sched_inv [] k Q -> k_held k = [] -> can_block k me t -> mtx_state (k_mtx k m) = MUTEX_STATE_LOCKED ->
  s_tick_count (k_cores k me) = Some now -> timeout_ms <> 0 ->
  let timed := 0 <? timeout_ms in
  let w := u64 (now + timeout_ms) in
  exists d' te, let kb := queued me m w timed t d' te k in
    sched_inv [] kb (wait_queues t (LMutex m) timed w k Q) /\
    mutex_lock me m timeout_ms k =
      (when (negb (inheritance_enabled (k_mtx k m) =? 0)) (mutex_inherit m t);;
       mutex_leave me m (k_irq_masked k me) Spin) kb.
Proof.
  intros HI Hh (Hcur & Hrun & Hidle) Hst Hnow H0 timed w.
  destruct (si_current _ _ _ _ _ _ HI me t Hcur) as [Ha Hme].
  pose proof (si_valid _ _ _ _ _ _ HI t Ha) as Hv. pose proof (valid_core _ Hv) as Hcr.
  destruct (si_fields _ _ _ _ _ _ HI t Ha) as (Hcore & _).
  destruct (push_event_inv (LMutex m) t k Q HI Ha Hrun I) as (HI1 & Hs1 & He1).
  set (d1 := list_push_back false (LMutex m) (NEvent t) t (k_dm k)) in *.
  set (k1 := k <| k_irq_masked ::= fun f => <[me := true]> f |> <| k_held := [LkSched (tcb_core t); LkMutex m] |>
               <| k_dm := d1 |>).
  destruct (wait_core t (LMutex m) w timed
    (now ← scheduler_get_tick_count me;
     scheduler_add_to_blocked_list (Some t) (u64 (now + timeout_ms));; mret tt) k1 _ HI1 Ha Hidle I Hs1 He1)
    as (d2 & Heq & HI2).
  { intros k2 Hk2. etrans; [eapply bind_ret, (get_tick_eq me now)|done]. rewrite Hk2. exact Hnow. }
  exists d2, (telemetry_report_task_blocked (task_id (k_tcbs k t)) (tcb_core t) SYNC_KIND_MUTEX
                (mtx_sync_id (k_mtx k m)) (k_tel k)). split.
  - refine (sched_inv_live [] _ _ _ _ _ _ _ HI2); [done| |done|done].
    cbn. rewrite fn_insert_insert, fn_lookup_insert. done.
  - unfold mutex_lock. etrans; [eapply bind_ret, enter_critical_eq|].
    etrans; [eapply bind_ret, mtx_lock_eq, Hh|]. exec. exec.
    change (mtx_state (k_mtx _ m)) with (mtx_state (k_mtx k m)). rewrite Hst. rewrite decide_False by done.
    rewrite (proj2 (Z.eqb_neq _ _) H0). change (k_current _ me) with (k_current k me). rewrite Hcur.
    exec. exec. exec. change (core_id (k_tcbs _ t)) with (core_id (k_tcbs k t)). rewrite Hcore.
    etrans; [eapply bind_ret, scheduler_lock_eq; [exact Hcr|done]|].
    etrans; [eapply bind_ret2; exact Heq|]. cbv beta. exec. exec. exec. exec.
    etrans; [eapply bind_ret, scheduler_unlock_eq; exact Hcr|]. exec.
    assert (forall k' k'' : kstate, k' = k'' -> forall f : kstate -> outcome kstate attempt, f k' = f k'') as Hcong
      by (by intros ? ? ->).
    etrans; [apply (Hcong _ (queued me m w timed t d2
        (telemetry_report_task_blocked (task_id (k_tcbs k t)) (tcb_core t) SYNC_KIND_MUTEX
           (mtx_sync_id (k_mtx k m)) (k_tel k)) k))|reflexivity].
    unfold queued, k1, wait_tcb. cbn -[filter]. rewrite filter_inner_lock by done.
    rewrite !fn_insert_insert, !fn_lookup_insert. by destruct timed.
Qed.

Lemma mutex_take_eq (me m timeout_ms : Z) (t : tcb) (k : kstate) :
  k_held k = [] -> k_current k me = Some t -> mtx_state (k_mtx k m) = MUTEX_STATE_UNLOCKED ->
  exists te, mutex_lock me m timeout_ms k = Ret (Done E_OK) (k <| k_tel := te |>
    <| k_mtx ::= fun f => <[m := (f m) <| mtx_state := MUTEX_STATE_LOCKED |> <| mutex_owner := Some t |>]> f |>
    <| k_tcbs ::= fun g => <[t := if inheritance_enabled (k_mtx k m) =? 0 then g t
                                  else (g t) <| mutexes_held ::= fun n => u32 (n + 1) |>]> g |>).
Proof.
  intros Hh Hcur Hst. eexists. unfold mutex_lock. etrans; [eapply bind_ret, enter_critical_eq|].
  etrans; [eapply bind_ret, mtx_lock_eq, Hh|]. exec. exec.
  change (mtx_state (k_mtx _ m)) with (mtx_state (k_mtx k m)). rewrite Hst, decide_True by done.
  change (k_current _ me) with (k_current k me). rewrite Hcur. exec. exec.
  set (km := field_update k_mtx _ _).
  assert (inheritance_enabled (k_mtx km m) = inheritance_enabled (k_mtx k m)) as ->
    by (unfold km; cbn; by rewrite fn_lookup_insert).
  etrans; [apply (bind_ret _ _ _ tt (km <| k_tcbs ::= fun g =>
      <[t := if inheritance_enabled (k_mtx k m) =? 0 then g t
             else (g t) <| mutexes_held ::= fun n => u32 (n + 1) |>]> g |>))|].
  { destruct (inheritance_enabled (k_mtx k m) =? 0); [|reflexivity].
    unfold when, mret, M_mret, negb. f_equal. unfold km. destruct k. cbn. by rewrite (fn_insert_id _ t). }
  exec. exec. exec. exec. exec. exec. unfold mret, M_mret. f_equal. unfold km. cbn -[filter].
  rewrite filter_own_lock, fn_insert_insert, (fn_insert_id (k_irq_masked k)) by done. rewrite <- Hh.
  reflexivity.
Qed.

Lemma wait_mtx_queue (t : tcb) (m : Z) (timed : bool) (w : Z) (k : kstate) (Q : queues) (l : lref) :
  sync_list l ->
  wait_queues t (LMutex m) timed w k Q l = if decide (l = LMutex m) then Q l ++ [NEvent t] else Q l.
Proof.
  intros Hl. unfold wait_queues. destruct timed; rewrite ?fn_lookup_insert_ne by (by destruct l);
    case_decide as Hs; subst; by rewrite ?fn_lookup_insert, ?fn_lookup_insert_ne by congruence.
Qed.

(** The priority the holder ends up with when [t] starts waiting. *)
Definition boosted (k : kstate) (m : Z) (t o : tcb) : Z :=
  if inheritance_enabled (k_mtx k m) =? 0 then priority (k_tcbs k o)
  else Z.max (priority (k_tcbs k o)) (Z.max (inherited_priority (k_mtx k m)) (priority (k_tcbs k t))).

Lemma mutex_busy_eq (me m : Z) (k : kstate) :
  k_held k = [] -> mtx_state (k_mtx k m) = MUTEX_STATE_LOCKED ->
  mutex_lock me m 0 k = Ret (Done E_TIMED_OUT) k.
Proof.
  intros Hh Hst. unfold mutex_lock. etrans; [eapply bind_ret, enter_critical_eq|].
  etrans; [eapply bind_ret, mtx_lock_eq, Hh|]. exec. exec.
  change (mtx_state (k_mtx _ m)) with (mtx_state (k_mtx k m)). rewrite Hst, decide_False by done.
  etrans; [by apply (mtx_leave_eq me m _ k)|]. f_equal. rewrite <- Hh. by destruct k.
Qed.

(** The inheritance step of a waiting task, enabled or not. *)
Lemma maybe_inherit (m : Z) (t o : tcb) (k : kstate) (Q : queues) :
  sched_inv [] k Q -> live k t -> live k o -> mutex_owner (k_mtx k m) = Some o ->
  0 <= inherited_priority (k_mtx k m) < NUM_TASK_PRIORITIES -> k_held k = [LkMutex m] ->
  exists kf Qf, when (negb (inheritance_enabled (k_mtx k m) =? 0)) (mutex_inherit m t) k = Ret tt kf /\
    sched_inv [] kf Qf /\ (forall l, (forall c p, l <> LReady c p) -> Qf l = Q l) /\
    mtx_state (k_mtx kf m) = mtx_state (k_mtx k m) /\ mutex_owner (k_mtx kf m) = Some o /\
    inheritance_enabled (k_mtx kf m) = inheritance_enabled (k_mtx k m) /\
    0 <= inherited_priority (k_mtx kf m) < NUM_TASK_PRIORITIES /\
    k_held kf = k_held k /\ k_irq_masked kf = k_irq_masked k /\ (forall u, live kf u <-> live k u) /\
    priority (k_tcbs kf o) = boosted k m t o /\
    (forall u, current_state (k_tcbs kf u) = current_state (k_tcbs k u) /\
       base_priority (k_tcbs kf u) = base_priority (k_tcbs k u) /\
       mutexes_held (k_tcbs kf u) = mutexes_held (k_tcbs k u) /\
       (u <> o -> priority (k_tcbs kf u) = priority (k_tcbs k u))).
Proof.
  intros HI Ha Hao How Hip Hh. unfold boosted.
  destruct (Z.eqb_spec (inheritance_enabled (k_mtx k m)) 0) as [Hz|Hz]; cbn [negb when].
  - by exists k, Q.
  - destruct (inherit_eq m t o k Q HI Ha Hao How Hip Hh) as [Heq HI'].
    destruct (si_fields _ _ _ _ _ _ HI t Ha) as (_ & Hb & Hp).
    exists (inherit m t o k), (inherit_queues m t o k Q). split; [done|]. split; [done|].
    unfold inherit, inherit_queues. set (ip := Z.max _ _).
    destruct (Z.ltb_spec (priority (k_tcbs k o)) ip) as [Hlt|Hge].
    + split; [intros l Hl; by apply requeued_other|]. rewrite change_priority_frame. cbn -[change_priority].
      rewrite !fn_lookup_insert. cbn. split_and!; try done; try (unfold ip; lia).
      intros u. rewrite fn_insert_lookup. by case_decide; subst.
    + cbn. rewrite !fn_lookup_insert. cbn. split_and!; try done; unfold ip in *; lia.
Qed.

(** The branch that waits: all the state it leaves. *)
Definition waiting_for (me m timeout_ms : Z) (t : tcb) (k : kstate) (Q : queues) (k' : kstate) (Q' : queues) : Prop :=
  current_state (k_tcbs k' t) = TASK_STATE_BLOCKED /\
  mutex_owner (k_mtx k' m) = mutex_owner (k_mtx k m) /\
  Q' (LMutex m) = Q (LMutex m) ++ [NEvent t] /\
  (NState t ∈ Q' (LBlocked me) <-> 0 < timeout_ms) /\
  (forall o, mutex_owner (k_mtx k m) = Some o -> priority (k_tcbs k' o) = boosted k m t o) /\
  inheritance_enabled (k_mtx k' m) = inheritance_enabled (k_mtx k m) /\
  (forall u, base_priority (k_tcbs k' u) = base_priority (k_tcbs k u) /\
     mutexes_held (k_tcbs k' u) = mutexes_held (k_tcbs k u) /\
     (mutex_owner (k_mtx k m) <> Some u -> priority (k_tcbs k' u) = priority (k_tcbs k u)) /\
     (u <> t -> current_state (k_tcbs k' u) = current_state (k_tcbs k u))).

Lemma mutex_lock_waits (me m timeout_ms now : Z) (t o : tcb) (k : kstate) (Q : queues) :
  sched_inv [] k Q -> mtx_ok k Q m -> k_held k = [] -> can_block k me t ->
  s_tick_count (k_cores k me) = Some now -> mtx_state (k_mtx k m) = MUTEX_STATE_LOCKED ->
  mutex_owner (k_mtx k m) = Some o -> o <> t -> timeout_ms <> 0 ->
  exists k' Q', mutex_lock me m timeout_ms k = Ret Spin k' /\
    sched_inv [] k' Q' /\ mtx_ok k' Q' m /\ k_held k' = [] /\ k_irq_masked k' = k_irq_masked k /\
    mtx_state (k_mtx k' m) = MUTEX_STATE_LOCKED /\
    (forall l, sync_list l -> l <> LMutex m -> Q' l = Q l) /\
    (forall c n, n <> NState t -> n ∈ Q' (LBlocked c) -> n ∈ Q (LBlocked c)) /\
    waiting_for me m timeout_ms t k Q k' Q'.
Proof.
  intros HI (Hip & Hok) Hh Hb Hnow Hst How Hot H0. pose proof Hb as (Hcur & Hrun & _).
  destruct (si_current _ _ _ _ _ _ HI me t Hcur) as [Ha Hme].
  rewrite Hst in Hok. destruct Hok as (o' & How' & Hao & Hno).
  assert (o' = o) as -> by congruence. clear How'.
  destruct (mutex_queue_eq me m timeout_ms now t k Q HI Hh Hb Hst Hnow H0) as (d' & te & HI' & Heq).
  set (kb := queued _ _ _ _ _ _ _ _) in *. set (Qb := wait_queues _ _ _ _ _ _) in *.
  destruct (maybe_inherit m t o kb Qb HI' Ha Hao How Hip eq_refl)
    as (kf & Qf & Hw & HIf & HQf & Hsf & Hof & Hen & Hif & Hhf & Hirq & Hlf & Hpf & Hstf).
  change (k_mtx kb) with (k_mtx k) in Hw.
  assert (forall l, sync_list l -> Qf l = if decide (l = LMutex m) then Q l ++ [NEvent t] else Q l) as Hql.
  { intros l Hl. rewrite HQf by (by destruct l). by apply wait_mtx_queue. }
  eexists _, Qf. split.
  { rewrite Heq. unfold mbind, M_mbind. rewrite Hw. by rewrite (mtx_leave_eq me m Spin k kf). }
  unfold waiting_for. split_and!; try done.
  - unfold mtx_ok. cbn. rewrite Hsf, Hof. change (k_mtx kb m) with (k_mtx k m). rewrite Hst.
    split; [done|]. exists o. split_and!; [done|by apply Hlf|].
    rewrite Hql, decide_True by done. intros [?|He]%elem_of_app; [done|].
    apply list_elem_of_singleton in He. congruence.
  - cbn. rewrite Hsf. exact Hst.
  - intros l Hl Hne. by rewrite Hql, decide_False.
  - intros c n Hn. rewrite HQf by done. unfold Qb, wait_queues. destruct (0 <? timeout_ms); rewrite ?fn_insert_lookup;
      repeat case_decide; try congruence; rewrite ?elem_of_blocked_insert; naive_solver.
  - cbn. rewrite (proj1 (Hstf t)). cbn. by rewrite fn_lookup_insert.
  - cbn. by rewrite Hof, How.
  - by rewrite Hql, decide_True.
  - rewrite HQf by done. unfold Qb, wait_queues. rewrite Hme.
    destruct (Z.ltb_spec 0 timeout_ms) as [Hp|Hp].
    + rewrite fn_lookup_insert. split; [done|]. intros _. by apply elem_of_blocked_insert; left.
    + rewrite !fn_lookup_insert_ne by done. split; [|lia]. intros Hin.
      destruct (member_blocked _ _ _ _ _ _ _ _ HI Hin) as (u & [= <-] & _ & _ & Hbl);
        [apply not_elem_of_nil|]. by apply runnable_not_blocked in Hrun.
  - intros o' Ho'. rewrite How in Ho'. injection Ho' as <-. cbn. rewrite Hpf. unfold boosted. cbn.
    rewrite fn_lookup_insert, fn_lookup_insert_ne by done. unfold wait_tcb. by destruct (0 <? timeout_ms).
  - intros u. destruct (Hstf u) as (Hsu & Hbu & Hmu & Hpu). rewrite How. cbn. rewrite Hsu, Hbu, Hmu.
    assert (priority (k_tcbs kb u) = priority (k_tcbs k u)) as Hpb.
    { cbn. rewrite fn_insert_lookup. case_decide; subst; [|done]. unfold wait_tcb. by destruct (0 <? timeout_ms). }
    rewrite <- Hpb. clear Hpb. split_and!.
    + cbn. rewrite fn_insert_lookup. unfold wait_tcb. case_decide; subst; [|done]. by destruct (0 <? timeout_ms).
    + cbn. rewrite fn_insert_lookup. unfold wait_tcb. case_decide; subst; [|done]. by destruct (0 <? timeout_ms).
    + intros Hu. apply Hpu. congruence.
    + intros Hu. cbn. by rewrite fn_lookup_insert_ne.
Qed.

(** The branch that takes a free mutex. *)
Lemma mutex_lock_takes (me m timeout_ms : Z) (t : tcb) (k : kstate) (Q : queues) :
  sched_inv [] k Q -> mtx_ok k Q m -> k_held k = [] -> k_current k me = Some t ->
  mtx_state (k_mtx k m) = MUTEX_STATE_UNLOCKED ->
  exists k', mutex_lock me m timeout_ms k = Ret (Done E_OK) k' /\
    sched_inv [] k' Q /\ mtx_ok k' Q m /\ k_held k' = [] /\ k_irq_masked k' = k_irq_masked k /\
    mtx_state (k_mtx k' m) = MUTEX_STATE_LOCKED /\ mutex_owner (k_mtx k' m) = Some t.
Proof.
  intros HI (Hip & Hok) Hh Hcur Hst. destruct (si_current _ _ _ _ _ _ HI me t Hcur) as [Ha Hme].
  destruct (mutex_take_eq me m timeout_ms t k Hh Hcur Hst) as (te & Heq). eexists. split; [exact Heq|].
  rewrite Hst in Hok. destruct Hok as [_ Hq]. split_and!; try done; cbn; rewrite ?fn_lookup_insert; cbn; try done.
  - apply same_fields_inv; [exact HI|]. intros u. cbn.
    case_decide; subst; [|done]. by destruct (_ =? 0).
  - unfold mtx_ok. cbn. rewrite fn_lookup_insert. cbn. split; [done|]. exists t. rewrite Hq.
    split_and!; [done|done|apply not_elem_of_nil].
Qed.

(** C26: [mutex_lock] on every branch, for a caller that does not own the mutex
    (mutex.h forbids it to lock twice).  A free mutex goes to the caller.  A
    held one makes a caller that may not wait return E_TIMED_OUT with nothing
    changed, and any other caller join the back of the waiting list and
    become BLOCKED, on its core's blocked list as well exactly when the wait
    is bounded; the owner stays, and with inheritance enabled its priority is
    raised to the maximum of its own, the inherited priority and the caller's.
    The scheduling and mutex invariants are kept, no other waiting list
    changes, every lock is released and the interrupt mask restored. *)
Theorem mutex_lock_correct (me m timeout_ms now : Z) (t : tcb) (k : kstate) (Q : queues) :
  sched_inv [] k Q -> mtx_ok k Q m -> k_held k = [] -> can_block k me t ->
  s_tick_count (k_cores k me) = Some now -> mutex_owner (k_mtx k m) <> Some t ->
  returns (mutex_lock me m timeout_ms) k (fun r k' => exists Q',
    sched_inv [] k' Q' /\ mtx_ok k' Q' m /\ k_held k' = [] /\ k_irq_masked k' = k_irq_masked k /\
    mtx_state (k_mtx k' m) = MUTEX_STATE_LOCKED /\
    (forall l, sync_list l -> l <> LMutex m -> Q' l = Q l) /\
    match mtx_state (k_mtx k m) with
    | MUTEX_STATE_UNLOCKED => r = Done E_OK /\ mutex_owner (k_mtx k' m) = Some t /\ Q' = Q
    | MUTEX_STATE_LOCKED =>
        if timeout_ms =? 0 then r = Done E_TIMED_OUT /\ k' = k
        else r = Spin /\ waiting_for me m timeout_ms t k Q k' Q'
    end).
Proof.
  intros HI Hok Hh Hb Hnow Hself. pose proof Hok as (Hip & Hcase). unfold returns.
  destruct (mtx_state (k_mtx k m)) eqn:Hst.
  - destruct Hcase as (o & How & _ & Hno). destruct (Z.eqb_spec timeout_ms 0) as [->|H0].
    + rewrite mutex_busy_eq by (done || apply Hb). exists Q. by split_and!.
    + destruct (mutex_lock_waits me m timeout_ms now t o k Q HI Hok Hh Hb Hnow Hst How) as
        (k' & Q' & -> & HI' & Hok' & Hh' & Hirq & Hst' & HQ & _ & Hw); [congruence|done|].
      exists Q'. by split_and!.
  - destruct (mutex_lock_takes me m timeout_ms t k Q HI Hok Hh (proj1 Hb) Hst) as
      (k' & -> & HI' & Hok' & Hh' & Hirq & Hst' & How). exists Q. by split_and!.
Qed.

(** ** The scan for the next owner *)

Fixpoint pscan (prio : node -> Z) (q : list node) (best : node) (second : Z) : node * Z :=
  match q with
  | [] => (best, second)
  | i :: q' => if prio best <? prio i then pscan prio q' i (if second <? prio best then prio best else second)
               else pscan prio q' best (if second <? prio i then prio i else second)
  end.

(** [best] is the first waiter of highest priority of [q1 ++ best :: q2], and
    [second] bounds the priorities of the others, tightly. *)
Definition scanned (prio : node -> Z) (q1 : list node) (best : node) (q2 : list node) (second : Z) : Prop :=
  (forall n, n ∈ q1 -> prio n < prio best) /\ (forall n, n ∈ q2 -> prio n <= prio best) /\
  (forall n, n ∈ q1 ++ q2 -> prio n <= second) /\
  (second = TASK_PRIORITY_IDLE \/ exists n, n ∈ q1 ++ q2 /\ prio n = second) /\
  0 <= second <= prio best.

Lemma pscan_spec (prio : node -> Z) (q : list node) : forall best second q1 q2,
  (forall n, n ∈ best :: q -> 0 <= prio n) -> scanned prio q1 best q2 second ->
  exists q1' b q2' s, pscan prio q best second = (b, s) /\
    q1 ++ best :: q2 ++ q = q1' ++ b :: q2' /\ scanned prio q1' b q2' s.
Proof.
  induction q as [|i q IH]; intros best second q1 q2 H0 Hs.
  - exists q1, best, q2, second. by rewrite app_nil_r.
  - cbn [pscan]. destruct Hs as (H1 & H2 & H3 & H4 & H5 & H6).
    destruct (Z.ltb_spec (prio best) (prio i)) as [Hlt|Hge].
    + destruct (IH i (if second <? prio best then prio best else second) (q1 ++ best :: q2) [])
        as (q1' & b & q2' & s & Heq & Happ & Hs').
      * intros n Hn. apply H0. apply elem_of_cons. by right.
      * assert ((if second <? prio best then prio best else second) = prio best) as ->
          by (destruct (Z.ltb_spec second (prio best)); lia).
        specialize (H0 best ltac:(apply elem_of_cons; by left)). split_and!.
        -- intros n. rewrite elem_of_app, elem_of_cons. intros [Hn|[->|Hn]]; [|done|].
           ++ specialize (H1 n Hn). lia.
           ++ specialize (H2 n Hn). lia.
        -- intros n Hn. by apply elem_of_nil in Hn.
        -- intros n. rewrite app_nil_r, elem_of_app, elem_of_cons. intros [Hn|[->|Hn]]; [|done|by apply H2].
           specialize (H1 n Hn). lia.
        -- right. exists best. split; [|done]. rewrite app_nil_r. apply elem_of_app. right.
           apply elem_of_cons. by left.
        -- done.
        -- lia.
      * exists q1', b, q2', s. split; [done|]. split; [|done]. rewrite <- Happ. cbn.
        by rewrite <- app_assoc.
    + destruct (IH best (if second <? prio i then prio i else second) q1 (q2 ++ [i]))
        as (q1' & b & q2' & s & Heq & Happ & Hs').
      * intros n [->|Hn]%elem_of_cons; apply H0; rewrite !elem_of_cons; tauto.
      * set (s' := if second <? prio i then prio i else second).
        assert (s' = Z.max second (prio i)) as Hs' by (unfold s'; destruct (Z.ltb_spec second (prio i)); lia).
        split_and!; try done; try lia.
        -- intros n. rewrite elem_of_app, list_elem_of_singleton. intros [Hn| ->]; [by apply H2|done].
        -- intros n. rewrite app_assoc, elem_of_app, list_elem_of_singleton. intros [Hn| ->]; [|lia].
           specialize (H3 n Hn). lia.
        -- unfold s'. destruct (Z.ltb_spec second (prio i)).
           ++ right. exists i. split; [|done]. rewrite app_assoc. apply elem_of_app. right.
              by apply list_elem_of_singleton.
           ++ destruct H4 as [?|(n & Hn & ?)]; [by left|right]. exists n. split; [|done].
              rewrite app_assoc. apply elem_of_app. by left.
      * exists q1', b, q2', s. split; [done|]. split; [|done]. rewrite <- Happ. by rewrite <- app_assoc.
Qed.

Lemma owner_priority_eq (k : kstate) (Q : queues) (l : lref) (n : node) :
  wf_mem (k_dm k) Q -> n ∈ Q l -> owner_priority n k = Ret (priority (k_tcbs k (node_tcb n))) k.
Proof.
  intros Hwf Hin. unfold owner_priority. exec. rewrite (rep_owner _ _ _ (Hwf l) n Hin). exec. done.
Qed.

Lemma mutex_scan_eq (k : kstate) (Q : queues) (l : lref) (rest : list node) :
  let prio n := priority (k_tcbs k (node_tcb n)) in
  wf_mem (k_dm k) Q -> forall fuel q1 best second,
  Q l = q1 ++ rest -> best ∈ Q l -> (length rest < fuel)%nat ->
  mutex_scan fuel (head rest) best second k = Ret (pscan prio rest best second) k.
Proof.
  intros prio Hwf. induction rest as [|i rest IH]; intros fuel q1 best second Hq Hb Hf.
  - by destruct fuel.
  - destruct fuel as [|fuel]; [cbn in Hf; lia|].
    assert (i ∈ Q l) as Hi by (rewrite Hq; apply elem_of_app; right; apply elem_of_cons; by left).
    cbn [head mutex_scan pscan]. exec_with (owner_priority_eq k Q l i Hwf Hi).
    exec_with (owner_priority_eq k Q l best Hwf Hb). exec.
    pose proof (Hwf l) as Hr. rewrite Hq in Hr. destruct (unlink_links _ _ _ _ _ Hr) as [_ ->].
    fold (prio best). fold (prio i).
    destruct (Z.ltb_spec (prio best) (prio i)); apply (IH fuel (q1 ++ [i])); try done;
      try (by rewrite <- app_assoc); cbn in Hf; lia.
Qed.

(** ** Giving up and handing over *)

(** The priority a task keeps when it gives up the mutex. *)
Definition restored (k : kstate) (m : Z) (h : tcb) : Z :=
  if negb (inheritance_enabled (k_mtx k m) =? 0) && (u32 (mutexes_held (k_tcbs k h) - 1) =? 0)
  then base_priority (k_tcbs k h) else priority (k_tcbs k h).

(** The inheritance mutexes it holds from then on. *)
Definition given_up (k : kstate) (m : Z) (h : tcb) : Z :=
  if inheritance_enabled (k_mtx k m) =? 0 then mutexes_held (k_tcbs k h) else u32 (mutexes_held (k_tcbs k h) - 1).

Definition taken_over (k : kstate) (m : Z) (h : tcb) : Z :=
  if inheritance_enabled (k_mtx k m) =? 0 then mutexes_held (k_tcbs k h) else u32 (mutexes_held (k_tcbs k h) + 1).

Lemma restore_holder_eq (m : Z) (h : tcb) ex (k : kstate) (Q : queues) :
  sched_inv ex k Q -> live k h -> h ∉ ex -> k_held k = [LkMutex m] ->
  exists kf Qf, mutex_restore_holder m (Some h) k = Ret tt kf /\ sched_inv ex kf Qf /\
    (forall l, (forall c p, l <> LReady c p) -> Qf l = Q l) /\
    (forall n l, node_tcb n <> h -> n ∈ Qf l <-> n ∈ Q l) /\
    kf = k <| k_dm := k_dm kf |> <| k_tcbs := k_tcbs kf |> /\
    priority (k_tcbs kf h) = restored k m h /\
    current_state (k_tcbs kf h) = current_state (k_tcbs k h) /\
    base_priority (k_tcbs kf h) = base_priority (k_tcbs k h) /\
    mutexes_held (k_tcbs kf h) = given_up k m h /\
    (forall u, u <> h -> k_tcbs kf u = k_tcbs k u).
Proof.
  intros HI Ha Hex Hh. destruct (si_fields _ _ _ _ _ _ HI h Ha) as (_ & Hb & Hp).
  unfold mutex_restore_holder, restored, given_up.
  destruct (Z.eqb_spec (inheritance_enabled (k_mtx k m)) 0) as [Hz|Hz].
  - exists k, Q. split_and!; try done; [|by destruct k]. exec. by rewrite Hz.
  - set (k1 := k <| k_tcbs ::= fun g => <[h := (g h) <| mutexes_held ::= fun n => u32 (n - 1) |>]> g |>).
    assert (sched_inv ex k1 Q) as HI1.
    { apply same_fields_inv; [exact HI|]. intros u. cbn. rewrite ?fn_insert_lookup. by case_decide; subst. }
    assert (k_tcbs k1 h = (k_tcbs k h) <| mutexes_held ::= fun n => u32 (n - 1) |>) as Hk1
      by (cbn; by rewrite fn_lookup_insert).
    assert (forall u, u <> h -> k_tcbs k1 u = k_tcbs k u) as Hk1'
      by (intros u Hu; cbn; by rewrite fn_lookup_insert_ne).
    assert (forall r, (when ((mutexes_held (k_tcbs k1 h) =? 0) && negb (priority (k_tcbs k1 h) =? base_priority (k_tcbs k1 h)))
              (locked_change_priority h (base_priority (k_tcbs k1 h)))) k1 = r ->
            mutex_restore_holder m (Some h) k = r) as Hrun.
    { intros r <-. unfold mutex_restore_holder. exec. rewrite (proj2 (Z.eqb_neq _ _) Hz). cbn [negb when].
      exec. exec. reflexivity. }
    rewrite Hk1 in Hrun. cbn in Hrun. cbn [negb andb].
    destruct (Z.eqb_spec (u32 (mutexes_held (k_tcbs k h) - 1)) 0) as [H0|H0]; cbn [andb when] in Hrun.
    + destruct (Z.eqb_spec (priority (k_tcbs k h)) (base_priority (k_tcbs k h))) as [He|He]; cbn in Hrun.
      * exists k1, Q. split_and!; try done; first [by apply Hrun|rewrite Hk1; cbn; congruence].
      * destruct (locked_change_eq h (base_priority (k_tcbs k h)) (LkMutex m) ex k1 Q HI1 Ha Hex)
          as [Heq HI2]; [rewrite Hk1; cbn; lia|done|done|].
        exists (change_priority h (base_priority (k_tcbs k h)) k1), (requeued h (base_priority (k_tcbs k h)) k1 Q).
        split_and!; [by apply Hrun|done|intros l Hl; by apply requeued_other| | | | | | |].
        -- intros n l Hn. by apply requeued_elem.
        -- pose proof (change_priority_frame h (base_priority (k_tcbs k h)) k1) as Hf.
           set (kc := change_priority _ _ _) in *. rewrite Hf. by destruct k.
        -- by rewrite change_priority_tcb, decide_True, Hk1.
        -- by rewrite change_priority_tcb, decide_True, Hk1.
        -- by rewrite change_priority_tcb, decide_True, Hk1.
        -- by rewrite change_priority_tcb, decide_True, Hk1.
        -- intros u Hu. by rewrite change_priority_tcb, decide_False, Hk1'.
    + exists k1, Q. split_and!; try done; first [by apply Hrun|by rewrite Hk1].
Qed.

Lemma hand_over_eq (m : Z) (b : tcb) (k : kstate) (Q : queues) :
  sched_inv [b] k Q -> live k b -> k_held k = [LkMutex m] ->
  li_container (items (k_dm k) (NEvent b)) = None ->
  (li_container (items (k_dm k) (NState b)) = None \/
   li_container (items (k_dm k) (NState b)) = Some (LBlocked (tcb_core b))) ->
  inherited_priority (k_mtx k m) <= priority (k_tcbs k b) ->
  let lr := LReady (tcb_core b) (priority (k_tcbs k b)) in
  let lb := LBlocked (tcb_core b) in
  let Q1 := <[lb := del (NState b) (Q lb)]> Q in
  exists kf, mutex_hand_over m b k = Ret tt kf /\
    sched_inv [] kf (<[lr := Q1 lr ++ [NState b]]> Q1) /\
    kf = k <| k_dm := k_dm kf |> <| k_tcbs := k_tcbs kf |> <| k_tel := k_tel kf |> /\
    current_state (k_tcbs kf b) = TASK_STATE_READY /\ priority (k_tcbs kf b) = priority (k_tcbs k b) /\
    base_priority (k_tcbs kf b) = base_priority (k_tcbs k b) /\ mutexes_held (k_tcbs kf b) = taken_over k m b /\
    (forall u, u <> b -> k_tcbs kf u = k_tcbs k u).
Proof.
  intros HI Ha Hh He Hs Hip lr lb Q1.
  pose proof (si_valid _ _ _ _ _ _ HI b Ha) as Hv. pose proof (valid_core _ Hv) as Hcr.
  destruct (si_fields _ _ _ _ _ _ HI b Ha) as (Hcore & Hf).
  set (r := if inheritance_enabled (k_mtx k m) =? 0 then k_tcbs k b
            else (k_tcbs k b) <| mutexes_held ::= fun n => u32 (n + 1) |>).
  assert (core_id r = core_id (k_tcbs k b) /\ priority r = priority (k_tcbs k b) /\
          base_priority r = base_priority (k_tcbs k b) /\ wakeup_time r = wakeup_time (k_tcbs k b))
    as (Hr1 & Hr2 & Hr3 & Hr4) by (unfold r; by destruct (_ =? 0)).
  set (k1 := k <| k_held := [LkSched (tcb_core b); LkMutex m] |> <| k_tcbs ::= fun g => <[b := r]> g |>).
  assert (sched_inv [b] k1 Q) as HI1 by (by apply set_fields_inv).
  assert (k_tcbs k1 b = r) as Hk1 by (cbn; by rewrite fn_lookup_insert).
  destruct (leave_blocked_inv b [] k1 Q HI1 Ha Hs) as (Heq2 & HI2 & Hs2 & Ho2 & Ht2 & Hf2).
  set (k2 := leave_blocked b k1) in *.
  assert (live k2 b) as Ha2 by (by rewrite Hf2).
  assert (unplaced (k_dm k2) b) as Hu by (split; [done|by rewrite Ho2]).
  assert (k_tcbs k2 b = r) as Hk2 by (by rewrite Ht2).
  pose proof (ready_again_inv b [] k2 _ HI2 Ha2 Hu) as HI3. rewrite Hk2, Hr2 in HI3.
  assert (fields_ok b (k_tcbs k2 b)) as Hf3 by (rewrite Hk2; unfold fields_ok; split; [congruence|lia]).
  set (k3 := ready_add b k2) in *.
  eexists. split; [|split; [|split; [|split; [|split; [|split; [|split]]]]]].
  - unfold mutex_hand_over. exec. rewrite Hcore.
    etrans; [eapply bind_ret, scheduler_lock_eq; [exact Hcr|by rewrite Hh]|].
    exec. change (inheritance_enabled (k_mtx _ m)) with (inheritance_enabled (k_mtx k m)).
    etrans; [apply (bind_ret _ _ _ tt k1)|].
    { unfold k1, r. destruct (inheritance_enabled (k_mtx k m) =? 0); cbn [negb when].
      - unfold mret, M_mret. f_equal. destruct k. cbn in *. subst. by rewrite (fn_insert_id _ b).
      - exec. exec. exec.
        change (inherited_priority (k_mtx _ m)) with (inherited_priority (k_mtx k m)).
        assert (forall p, p <= priority (k_tcbs k b) -> forall x : K unit,
                  when (priority (k_tcbs k b) <? p) x = mret tt) as Hno.
        { intros p Hp x. by rewrite (proj2 (Z.ltb_ge _ _) Hp). }
        match goal with |- when (?p <? _) _ _ = _ =>
          replace p with (priority (k_tcbs k b)) by (cbn; by rewrite fn_lookup_insert) end.
        rewrite Hno by done. unfold mret, M_mret. f_equal. destruct k. cbn in *. by subst. }
    exec_with Heq2. exec_with (add_to_ready_eq b k2 Hv Hf3). exec. exec. exec. exec.
    eapply scheduler_unlock_eq. exact Hcr.
  - refine (sched_inv_live [] _ _ _ _ _ _ _ HI3); done.
  - change (k_dm (_ <| k_held ::= _ |>)) with (k_dm k3). fold k3.
    unfold k3, ready_add. rewrite Hf2. destruct k. cbn -[list_push_back filter] in *. subst.
    by rewrite filter_inner_lock.
  - cbn. by rewrite fn_lookup_insert.
  - cbn. rewrite fn_lookup_insert. cbn. by rewrite Hk2.
  - cbn. rewrite fn_lookup_insert. cbn. by rewrite Hk2.
  - cbn. rewrite fn_lookup_insert. cbn. rewrite Hk2. unfold r, taken_over. by destruct (_ =? 0).
  - intros u Hu'. cbn. rewrite fn_lookup_insert_ne, Ht2 by done. cbn. by rewrite fn_lookup_insert_ne.
Qed.

(** ** Unlocking *)

Definition waiter_prio (k : kstate) (n : node) : Z := priority (k_tcbs k (node_tcb n)).

(** Entering the unlock of a held mutex. *)
Definition entered (me m : Z) (k : kstate) : kstate :=
  k <| k_irq_masked ::= fun f => <[me := true]> f |> <| k_held := [LkMutex m] |>.

(** The free branch: nobody waits. *)
Lemma unlock_free_eq (me m : Z) (o : tcb) (k : kstate) (Q : queues) :
  sched_inv [] k Q -> mtx_ok k Q m -> k_held k = [] -> mtx_state (k_mtx k m) = MUTEX_STATE_LOCKED ->
  mutex_owner (k_mtx k m) = Some o -> Q (LMutex m) = [] ->
  exists k' Q', mutex_unlock me m k = Ret tt k' /\ sched_inv [] k' Q' /\
    (forall l, (forall c p, l <> LReady c p) -> Q' l = Q l) /\ k_held k' = [] /\
    k_irq_masked k' = k_irq_masked k /\ mtx_state (k_mtx k' m) = MUTEX_STATE_UNLOCKED /\
    mutex_owner (k_mtx k' m) = None /\ inherited_priority (k_mtx k' m) = TASK_PRIORITY_IDLE /\
    priority (k_tcbs k' o) = restored k m o /\
    (forall u, current_state (k_tcbs k' u) = current_state (k_tcbs k u)) /\
    base_priority (k_tcbs k' o) = base_priority (k_tcbs k o) /\ mutexes_held (k_tcbs k' o) = given_up k m o /\
    (forall u, u <> o -> k_tcbs k' u = k_tcbs k u) /\ inheritance_enabled (k_mtx k' m) = inheritance_enabled (k_mtx k m).
Proof.
  intros HI (_ & Hok) Hh Hst How Hq. rewrite Hst in Hok. destruct Hok as (o' & How' & Ha & _).
  assert (o' = o) as -> by congruence.
  set (km := entered me m k <| k_mtx ::= fun f => <[m := (f m) <| mutex_owner := None |>
      <| mtx_state := MUTEX_STATE_UNLOCKED |> <| inherited_priority := TASK_PRIORITY_IDLE |>]> f |>
      <| k_tel ::= telemetry_report_mutex_owner_changed (mtx_sync_id (k_mtx k m)) 0 0 0 |>).
  assert (sched_inv [] km Q) as HIm by exact HI.
  destruct (restore_holder_eq m o [] km Q HIm Ha) as (kf & Qf & Heq & HIf & HQ & _ & Hf & Hp & Hso & Hbo & Hmo & Hoth);
    [apply not_elem_of_nil|done|].
  eexists _, Qf. split.
  - unfold mutex_unlock. etrans; [eapply bind_ret, enter_critical_eq|].
    etrans; [eapply bind_ret, mtx_lock_eq, Hh|]. exec.
    change (mtx_state (k_mtx _ m)) with (mtx_state (k_mtx k m)). rewrite Hst, decide_False by tauto.
    exec. exec. change (mutex_owner (k_mtx _ m)) with (mutex_owner (k_mtx k m)). rewrite How.
    change (num_items (lists (k_dm _) (LMutex m))) with (num_items (lists (k_dm k) (LMutex m))).
    rewrite (rep_num _ _ _ (si_mem _ _ _ _ _ _ HI (LMutex m))), Hq. cbn [length Z.of_nat Z.eqb].
    etrans; [eapply bind_ret|].
    { exec. exec. exec. 
      change (mtx_sync_id (k_mtx _ m)) with (mtx_sync_id ((<[m := (k_mtx k m) <| mutex_owner := None |>
        <| mtx_state := MUTEX_STATE_UNLOCKED |> <| inherited_priority := TASK_PRIORITY_IDLE |>]> (k_mtx k)) m)).
      rewrite fn_lookup_insert. exact Heq. }
    apply (mtx_leave_eq me m tt k kf); by rewrite Hf.
  - assert (forall u, current_state (k_tcbs kf u) = current_state (k_tcbs k u)) as Hs
      by (intros u; destruct (decide (u = o)) as [->|]; [exact Hso|by rewrite Hoth]).
    assert (forall u, u <> o -> k_tcbs kf u = k_tcbs k u) as Hoth' by exact Hoth.
    assert (priority (k_tcbs kf o) = restored k m o) as Hp'.
    { rewrite Hp. unfold restored. cbn. by rewrite fn_lookup_insert. }
    assert (mutexes_held (k_tcbs kf o) = given_up k m o) as Hmo'.
    { rewrite Hmo. unfold given_up. cbn. by rewrite fn_lookup_insert. }
    change (base_priority (k_tcbs kf o) = base_priority (k_tcbs k o)) in Hbo.
    assert (k_mtx kf = k_mtx km /\ k_held kf = k_held km /\ k_irq_masked kf = k_irq_masked km) as (Hx & Hy & Hz) by (by rewrite Hf).
    clear Hso Hoth Hp Hmo Hf. cbn. rewrite Hx. cbn. rewrite fn_lookup_insert. cbn. by split_and!.
Qed.

Lemma container_same (d d' : dmem) (Q Q' : queues) (n : node) :
  wf_mem d Q -> wf_mem d' Q' -> (forall l, n ∈ Q' l <-> n ∈ Q l) ->
  li_container (items d' n) = li_container (items d n).
Proof.
  intros Hwf Hwf' Hn. destruct (li_container (items d n)) as [l|] eqn:Hc.
  - apply (wf_container_some _ _ _ _ Hwf'). by apply Hn, (wf_container _ _ _ _ Hwf).
  - apply (wf_container_none _ _ _ Hwf'). intros l Hin%Hn. exact (wf_unlinked _ _ l _ Hwf Hc Hin).
Qed.

(** The hand-over branch: [b], the first waiter of highest priority, is next. *)
Lemma unlock_hand_eq (me m : Z) (o : tcb) (k : kstate) (Q : queues) :
  sched_inv [] k Q -> mtx_ok k Q m -> k_held k = [] -> mtx_state (k_mtx k m) = MUTEX_STATE_LOCKED ->
  mutex_owner (k_mtx k m) = Some o -> Q (LMutex m) <> [] ->
  exists k' Q' q1 b q2 s, mutex_unlock me m k = Ret tt k' /\ sched_inv [] k' Q' /\
    Q (LMutex m) = q1 ++ NEvent b :: q2 /\ scanned (waiter_prio k) q1 (NEvent b) q2 s /\
    (forall l, sync_list l -> Q' l = if decide (l = LMutex m) then q1 ++ q2 else Q l) /\
    k_held k' = [] /\ k_irq_masked k' = k_irq_masked k /\ (forall u, live k' u <-> live k u) /\
    mtx_state (k_mtx k' m) = MUTEX_STATE_LOCKED /\ mutex_owner (k_mtx k' m) = Some b /\
    inherited_priority (k_mtx k' m) = s /\ priority (k_tcbs k' o) = restored k m o /\ live k b /\
    current_state (k_tcbs k' b) = TASK_STATE_READY /\ priority (k_tcbs k' b) = waiter_prio k (NEvent b) /\
    last (Q' (LReady (tcb_core b) (waiter_prio k (NEvent b)))) = Some (NState b) /\
    base_priority (k_tcbs k' o) = base_priority (k_tcbs k o) /\ mutexes_held (k_tcbs k' o) = given_up k m o /\
    base_priority (k_tcbs k' b) = base_priority (k_tcbs k b) /\ mutexes_held (k_tcbs k' b) = taken_over k m b /\
    inheritance_enabled (k_mtx k' m) = inheritance_enabled (k_mtx k m) /\
    (forall u, u <> o -> u <> b -> k_tcbs k' u = k_tcbs k u) /\
    (forall u, u <> b -> current_state (k_tcbs k' u) = current_state (k_tcbs k u)) /\
    (forall c n, n ∈ Q' (LBlocked c) -> n ∈ Q (LBlocked c)).
Proof.
  intros HI (_ & Hok) Hh Hst How Hne. rewrite Hst in Hok. destruct Hok as (o' & How' & Hao & Hno).
  assert (o' = o) as -> by congruence. pose proof (si_mem _ _ _ _ _ _ HI) as Hwf.
  assert (forall n, n ∈ Q (LMutex m) -> exists t, n = NEvent t /\ live k t /\
            current_state (k_tcbs k t) = TASK_STATE_BLOCKED) as Hmem.
  { intros n Hn. eapply (member_sync _ _ _ _ _ _ (LMutex m) n HI I Hn), not_elem_of_nil. }
  destruct (Q (LMutex m)) as [|h rest] eqn:Hq; [done|].
  (* the scan *)
  destruct (pscan_spec (waiter_prio k) rest h TASK_PRIORITY_IDLE [] []) as (q1 & bn & q2 & s & Hps & Hqq & Hsc).
  { intros n Hn. destruct (Hmem n Hn) as (t & -> & Ht & _).
    destruct (si_fields _ _ _ _ _ _ HI t Ht) as (_ & ? & _). unfold waiter_prio. cbn. lia. }
  { destruct (Hmem h ltac:(apply elem_of_cons; by left)) as (t & -> & Ht & _).
    destruct (si_fields _ _ _ _ _ _ HI t Ht) as (_ & ? & _).
    split_and!; try (intros n Hn; by apply elem_of_nil in Hn); [by left|done|unfold waiter_prio, TASK_PRIORITY_IDLE in *; cbn; lia]. }
  cbn [app] in Hqq. assert (bn ∈ h :: rest) as Hbn by (rewrite Hqq; apply elem_of_app; right; apply elem_of_cons; by left).
  destruct (Hmem bn Hbn) as (b & -> & Hab & Hbb).
  assert (o <> b) as Hob by (by intros ->).
  (* the pop *)
  set (ke := entered me m k).
  set (dp := list_forget (LMutex m) (NEvent b) (list_stitch (LMutex m) (NEvent b) (k_dm k))).
  set (kp := ke <| k_dm := dp |> <| k_mtx ::= fun f => <[m := (f m) <| inherited_priority := s |>]> f |>).
  destruct (sinv_unlink (live k) (k_current k) b [] (NEvent b) (LMutex m) (k_dm k) (k_tcbs k) Q)
    as (HIp & Hep & Hop); [by apply sinv_exempt|done|by rewrite Hq|done|].
  fold dp in HIp, Hep, Hop. set (Qp := <[LMutex m := del (NEvent b) (Q (LMutex m))]> Q) in *.
  assert (del (NEvent b) (Q (LMutex m)) = q1 ++ q2) as Hdel.
  { rewrite Hq, Hqq. apply del_middle. rewrite <- Hqq, <- Hq. apply (rep_nodup _ _ _ (Hwf (LMutex m))). }
  (* the holder *)
  destruct (restore_holder_eq m o [b] kp Qp HIp Hao) as
    (kr & Qr & Heqr & HIr & HQr & Hnr & Hfr & Hpr & Hsr & Hbr & Hmr & Hor); [by intros ?%list_elem_of_singleton|done|].
  assert (forall n, node_tcb n <> o -> li_container (items (k_dm kr) n) = li_container (items dp n)) as Hcr.
  { intros n Hn. apply (container_same dp _ Qp Qr); [apply (si_mem _ _ _ _ _ _ HIp)|apply (si_mem _ _ _ _ _ _ HIr)|].
    intros l. by apply Hnr. }
  (* the hand-over *)
  set (ko := kr <| k_mtx ::= fun f => <[m := (f m) <| mutex_owner := Some b |>]> f |>).
  assert (k_tcbs ko b = k_tcbs k b) as Htb by (change (k_tcbs kr b = k_tcbs k b); by rewrite Hor).
  assert (k_mtx ko m = (k_mtx k m) <| inherited_priority := s |> <| mutex_owner := Some b |>) as Hmo.
  { unfold ko. rewrite Hfr. cbn. by rewrite !fn_lookup_insert. }
  assert (forall u, live ko u <-> live k u) as Hlo by (intros u; unfold ko; by rewrite Hfr).
  destruct (hand_over_eq m b ko Qr) as (kf & Heqf & HIf & Hff & Hsf & Hpf & Hbf & Hmf' & Hof).
  { exact HIr. }
  { by apply Hlo. }
  { unfold ko. by rewrite Hfr. }
  { change (k_dm ko) with (k_dm kr). rewrite Hcr by (cbn; congruence). exact Hep. }
  { change (k_dm ko) with (k_dm kr). rewrite Hcr, Hop by (done || (cbn; congruence)).
    destruct (si_placed _ _ _ _ _ _ HI b Hab ltac:(apply not_elem_of_nil)) as [[?|?] _ _|cs ce _ <- _ Hor' _ _];
      [congruence..|exact Hor']. }
  { rewrite Hmo, Htb. cbn. apply Hsc. }
  rewrite Htb in HIf, Hpf. change (waiter_prio k (NEvent b)) with (priority (k_tcbs k b)).
  pose proof (Hwf (LMutex m)) as Hr. rewrite Hq in Hr.
  eexists _, _, q1, b, q2, s. split; [|split; [|split; [done|split; [done|split]]]].
  - unfold mutex_unlock. etrans; [eapply bind_ret, enter_critical_eq|].
    etrans; [eapply bind_ret, mtx_lock_eq, Hh|]. fold (entered me m k). fold ke. exec.
    change (mtx_state (k_mtx ke m)) with (mtx_state (k_mtx k m)). rewrite Hst, decide_False by tauto.
    exec. exec. change (mutex_owner (k_mtx ke m)) with (mutex_owner (k_mtx k m)). rewrite How.
    change (k_dm ke) with (k_dm k). rewrite (rep_num _ _ _ Hr).
    rewrite (proj2 (Z.eqb_neq _ _)) by (cbn; lia).
    etrans; [eapply bind_ret|].
    { exec. change (k_dm ke) with (k_dm k). rewrite (rep_head _ _ _ Hr). exec. exec.
      change (k_dm ke) with (k_dm k). destruct (unlink_links _ _ _ [] _ Hr) as [_ ->].
      etrans; [eapply bind_ret, (mutex_scan_eq ke Q (LMutex m) rest Hwf list_fuel [h])|].
      { by rewrite Hq. }
      { rewrite Hq. apply elem_of_cons. by left. }
      { pose proof (valid_length _ (rep_nodup _ _ _ Hr) (rep_valid _ _ _ Hr)) as Hlen.
        cbn in Hlen. unfold list_fuel. lia. }
      change (fun n => priority (k_tcbs ke (node_tcb n))) with (waiter_prio k). rewrite Hps. cbn [fst snd].
      exec. change (k_dm ke) with (k_dm k). rewrite (rep_owner _ _ _ Hr _ Hbn). exec. exec. exec.
      etrans; [eapply bind_ret; exact Heqr|]. exec. exec. exact Heqf. }
    apply (mtx_leave_eq me m tt k kf); rewrite Hff; unfold ko; by rewrite Hfr.
  - exact HIf.
  - intros l Hl. rewrite !fn_lookup_insert_ne by (by destruct l). rewrite HQr by (by destruct l).
    unfold Qp. rewrite Hdel, fn_insert_lookup. repeat case_decide; congruence.
  - assert (k_mtx kf = k_mtx ko) as Hmf by (by rewrite Hff). cbn. rewrite Hmf, Hmo. cbn.
    split_and!; try done.
    + intros u. rewrite <- Hlo. by rewrite Hff.
    + rewrite Hof by done. change (k_tcbs ko o) with (k_tcbs kr o). rewrite Hpr. unfold restored. cbn.
      by rewrite fn_lookup_insert.
    + by rewrite fn_lookup_insert, last_snoc.
    + by rewrite Hof.
    + rewrite Hof by done. change (k_tcbs ko o) with (k_tcbs kr o). rewrite Hmr. unfold given_up. cbn. by rewrite fn_lookup_insert.
    + by rewrite Hbf, Htb.
    + rewrite Hmf'. unfold taken_over. by rewrite Htb, Hmo.
    + intros u Huo Hub. rewrite Hof by done. by apply Hor.
    + intros u Hub. rewrite Hof by done. destruct (decide (u = o)) as [->|]; [exact Hsr|]. change (k_tcbs ko u) with (k_tcbs kr u). by rewrite Hor.
    + intros c n. rewrite fn_lookup_insert_ne by done. rewrite fn_insert_lookup, !HQr by done. unfold Qp. rewrite !fn_lookup_insert_ne by done.
      case_decide as Hc; [injection Hc as <-; apply elem_of_del|done].
Qed.

(** After a hand-over the mutex is well formed again. *)
Lemma unlock_hand_ok (m : Z) (b : tcb) (k k' : kstate) (Q Q' : queues) q1 q2 s :
  sched_inv [] k Q -> Q (LMutex m) = q1 ++ NEvent b :: q2 -> scanned (waiter_prio k) q1 (NEvent b) q2 s ->
  Q' (LMutex m) = q1 ++ q2 -> live k b -> live k' b -> mtx_state (k_mtx k' m) = MUTEX_STATE_LOCKED ->
  mutex_owner (k_mtx k' m) = Some b -> inherited_priority (k_mtx k' m) = s -> mtx_ok k' Q' m.
Proof.
  intros HI Hqq Hsc HQ Hab Hl Hs' Ho' Hi'. unfold mtx_ok. rewrite Hi', Hs'. split.
  - destruct (si_fields _ _ _ _ _ _ HI b Hab) as (_ & _ & ?). destruct Hsc as (_ & _ & _ & _ & ? & Hle).
    unfold waiter_prio in Hle. cbn in Hle. lia.
  - exists b. split_and!; [done|done|]. rewrite HQ.
    pose proof (rep_nodup _ _ _ (si_mem _ _ _ _ _ _ HI (LMutex m))) as Hnd. rewrite Hqq in Hnd.
    rewrite <- (del_middle _ _ _ Hnd). by intros [? _]%elem_of_del.
Qed.

(** What the unlock of a held mutex does to it: it becomes free, or a waiter's. *)
Lemma mutex_unlock_moves (me m : Z) (o : tcb) (k : kstate) (Q : queues) :
  sched_inv [] k Q -> mtx_ok k Q m -> k_held k = [] -> mtx_state (k_mtx k m) = MUTEX_STATE_LOCKED ->
  mutex_owner (k_mtx k m) = Some o ->
  exists k' Q', mutex_unlock me m k = Ret tt k' /\ sched_inv [] k' Q' /\ k_held k' = [] /\ mtx_ok k' Q' m /\
    (forall l, sync_list l -> l <> LMutex m -> Q' l = Q l) /\ (forall n, n ∈ Q' (LMutex m) -> n ∈ Q (LMutex m)) /\
    (forall b, mutex_owner (k_mtx k' m) = Some b -> NEvent b ∈ Q (LMutex m)) /\
    (forall u, NEvent u ∈ Q (LMutex m) -> NEvent u ∈ Q' (LMutex m) \/ current_state (k_tcbs k' u) = TASK_STATE_READY) /\
    (forall u, current_state (k_tcbs k' u) = current_state (k_tcbs k u) \/ mutex_owner (k_mtx k' m) = Some u) /\
    (forall c n, n ∈ Q' (LBlocked c) -> n ∈ Q (LBlocked c)).
Proof.
  intros HI Hok Hh Hst How. destruct (decide (Q (LMutex m) = [])) as [Hq|Hq].
  - destruct (unlock_free_eq me m o k Q HI Hok Hh Hst How Hq) as (k' & Q' & -> & HI' & HQ & Hh' & _ & Hs' & Ho' & Hi' & _ & Hst' & _).
    exists k', Q'. split_and!; try done.
    + unfold mtx_ok. rewrite Hi', Hs', HQ by done. by split.
    + intros l Hl _. apply HQ. by destruct l.
    + intros n. by rewrite HQ.
    + intros b. by rewrite Ho'.
    + intros u. rewrite Hq. by intros ?%elem_of_nil.
    + intros u. by left.
    + intros c n. by rewrite HQ.
  - destruct (unlock_hand_eq me m o k Q HI Hok Hh Hst How Hq) as (k' & Q' & q1 & b & q2 & s & -> &
      HI' & Hqq & Hsc & HQ & Hh' & _ & Hl & Hs' & Ho' & Hi' & _ & Hab & Hbs & _ & _ & _ & _ & _ & _ & _ & _ & Hst' & Hblk).
    pose proof (HQ (LMutex m) I) as HQm. rewrite decide_True in HQm by done.
    exists k', Q'. split_and!; try done.
    + apply (unlock_hand_ok m b k k' Q Q' q1 q2 s); try done. by apply Hl.
    + intros l Hl' Hne. by rewrite HQ, decide_False.
    + intros n. rewrite HQm, Hqq. set_solver.
    + intros b'. rewrite Ho'. intros [= <-]. rewrite Hqq. set_solver.
    + intros u Hu. destruct (decide (u = b)) as [->|Hne]; [by right|left]. rewrite HQm. rewrite Hqq in Hu. set_solver.
    + intros u. destruct (decide (u = b)) as [->|Hne]; [by right|left]. by apply Hst'.
Qed.

(** C6: [mutex_unlock] on every branch.  Unlocking a mutex that is not locked
    changes nothing.  With nobody waiting the mutex becomes free.  With tasks
    waiting it goes to the first waiter of the highest priority, which leaves
    the waiting list (whose other members keep their order) and its core's
    blocked list and is READY at the back of its own core's ready list; the
    mutex stays locked, so no third task can slip in, and its inherited
    priority is the highest priority still waiting.  The former holder falls
    back to its base priority when this was the last inheritance mutex it
    held, and keeps its priority otherwise.  The invariants are kept. *)
Theorem mutex_unlock_correct (me m : Z) (k : kstate) (Q : queues) :
  sched_inv [] k Q -> mtx_ok k Q m -> k_held k = [] ->
  returns (mutex_unlock me m) k (fun _ k' => exists Q',
    sched_inv [] k' Q' /\ mtx_ok k' Q' m /\ k_held k' = [] /\ k_irq_masked k' = k_irq_masked k /\
    (forall l, sync_list l -> l <> LMutex m -> Q' l = Q l) /\
    match mtx_state (k_mtx k m), mutex_owner (k_mtx k m) with
    | MUTEX_STATE_LOCKED, Some o =>
        priority (k_tcbs k' o) = restored k m o /\
        (Q (LMutex m) = [] -> mtx_state (k_mtx k' m) = MUTEX_STATE_UNLOCKED) /\
        (Q (LMutex m) <> [] -> exists q1 b q2,
           Q (LMutex m) = q1 ++ NEvent b :: q2 /\ Q' (LMutex m) = q1 ++ q2 /\
           scanned (waiter_prio k) q1 (NEvent b) q2 (inherited_priority (k_mtx k' m)) /\
           mtx_state (k_mtx k' m) = MUTEX_STATE_LOCKED /\ mutex_owner (k_mtx k' m) = Some b /\
           current_state (k_tcbs k' b) = TASK_STATE_READY /\
           last (Q' (LReady (tcb_core b) (priority (k_tcbs k b)))) = Some (NState b) /\
           (forall u, u <> o -> u <> b -> k_tcbs k' u = k_tcbs k u))
    | _, _ => k' = k
    end).
Proof.
  intros HI Hok Hh. pose proof Hok as [Hip Hcase]. destruct (mtx_state (k_mtx k m)) eqn:Hst.
  - destruct Hcase as (o & How & Hao & Hno). rewrite How. unfold returns.
    destruct (decide (Q (LMutex m) = [])) as [Hq|Hq].
    + destruct (unlock_free_eq me m o k Q HI Hok Hh Hst How Hq)
        as (k' & Q' & -> & HI' & HQ & Hh' & Hirq & Hs' & Ho' & Hi' & Hp' & _).
      exists Q'. split_and!; try done.
      * unfold mtx_ok. rewrite Hi', Hs', HQ by done. by split.
      * intros l Hl _. apply HQ. by destruct l.
    + destruct (unlock_hand_eq me m o k Q HI Hok Hh Hst How Hq) as (k' & Q' & q1 & b & q2 & s & -> &
        HI' & Hqq & Hsc & HQ & Hh' & Hirq & Hl & Hs' & Ho' & Hi' & Hp' & Hab & Hb & Hpb & Hlast & _ & _ & _ & _ & _ & Hu & _).
      exists Q'. split_and!; try done.
      * apply (unlock_hand_ok m b k k' Q Q' q1 q2 s); try done; [by rewrite HQ, decide_True|by apply Hl].
      * intros l Hl' Hne. by rewrite HQ, decide_False.
      * intros _. exists q1, b, q2. rewrite HQ, decide_True, Hi' by done. by split_and!.
  - unfold returns.
    assert (forall r, (mutex_leave me m (k_irq_masked k me) tt) (entered me m k) = r -> mutex_unlock me m k = r) as Hrun.
    { intros r <-. unfold mutex_unlock. etrans; [eapply bind_ret, enter_critical_eq|].
      etrans; [eapply bind_ret, mtx_lock_eq, Hh|]. exec.
      change (mtx_state (k_mtx _ m)) with (mtx_state (k_mtx k m)). by rewrite Hst, decide_True. }
    assert (mutex_unlock me m k = Ret tt k) as ->.
    { apply Hrun. rewrite (mtx_leave_eq me m tt k) by done. f_equal. rewrite <- Hh. by destruct k. }
    exists Q. by split_and!.
Qed.

(** ** Hand-over and inheritance, end to end *)

Lemma mutex_lock_resume_eq (me m : Z) (t : tcb) (k : kstate) :
  k_held k = [] ->
  mutex_lock_resume me m t k =
    Ret (if decide (mutex_owner (k_mtx k m) = Some t) then E_OK else E_TIMED_OUT) k.
Proof.
  intros Hh. unfold mutex_lock_resume. etrans; [eapply bind_ret, enter_critical_eq|].
  etrans; [eapply bind_ret, mtx_lock_eq, Hh|]. exec.
  rewrite (mtx_leave_eq me m _ k) by done. f_equal. rewrite <- Hh. by destruct k.
Qed.

(** Priority inheritance bounds the inversion and is undone.  When a task
    waits for an inheritance mutex that nobody else waits for, the holder runs
    at least at the waiter's priority from then on; when the holder unlocks,
    from whichever core, it falls back to its base priority if it held no
    other inheritance mutex, the waiter owns the mutex and is READY, and its
    [mutex_lock] returns E_OK. *)
Theorem inheritance_bounded (me you m timeout_ms now : Z) (t o : tcb) (k : kstate) (Q : queues) :
  sched_inv [] k Q -> mtx_ok k Q m -> k_held k = [] -> can_block k me t ->
  s_tick_count (k_cores k me) = Some now ->
  mtx_state (k_mtx k m) = MUTEX_STATE_LOCKED -> mutex_owner (k_mtx k m) = Some o -> o <> t ->
  Q (LMutex m) = [] -> timeout_ms <> 0 ->
  inheritance_enabled (k_mtx k m) <> 0 -> mutexes_held (k_tcbs k o) = 1 ->
  returns (mutex_lock me m timeout_ms) k (fun r k1 =>
    r = Spin /\ priority (k_tcbs k t) <= priority (k_tcbs k1 o) /\
    returns (mutex_unlock you m;; mutex_lock_resume me m t) k1 (fun c k2 =>
      c = E_OK /\ priority (k_tcbs k2 o) = base_priority (k_tcbs k o) /\
      mutex_owner (k_mtx k2 m) = Some t /\ current_state (k_tcbs k2 t) = TASK_STATE_READY)).
Proof.
  intros HI Hok Hh Hb Hnow Hst How Hot Hq H0 Hinh Hheld.
  destruct (mutex_lock_waits me m timeout_ms now t o k Q HI Hok Hh Hb Hnow Hst How Hot H0) as
    (k1 & Q1 & Heq & HI1 & Hok1 & Hh1 & _ & Hst1 & _ & _ & _ & How1 & Hq1 & _ & Hp1 & Hinh1 & Hf1).
  unfold returns at 1. rewrite Heq. rewrite How in How1. split; [done|]. split.
  - rewrite (Hp1 o How). unfold boosted. rewrite (proj2 (Z.eqb_neq _ _) Hinh). lia.
  - rewrite Hq in Hq1. destruct (unlock_hand_eq you m o k1 Q1 HI1 Hok1 Hh1 Hst1 How1) as
      (k2 & Q2 & q1 & b & q2 & s & Heq2 & _ & Hqq & _ & _ & Hh2 & _ & _ & _ & Ho2 & _ & Hp2 & _ & Hb2 & _);
      [by rewrite Hq1|].
    apply returns_bind. unfold returns at 1. rewrite Heq2.
    assert (b = t) as ->. { rewrite Hq1 in Hqq. destruct q1 as [|? [|]]; cbn in Hqq; by simplify_eq. }
    unfold returns. rewrite mutex_lock_resume_eq by done. rewrite Ho2, decide_True by done.
    split_and!; try done. rewrite Hp2. unfold restored. destruct (Hf1 o) as (-> & -> & _). rewrite Hinh1, Hheld.
    by rewrite (proj2 (Z.eqb_neq _ _) Hinh).
Qed.

(** ** A concrete mutex: [demo] with one that task 0 holds, task 1 running *)

Lemma mutex_init_eq (m : Z) (name : option (list Z)) (k : kstate) (Q : queues) :
  sched_inv [] k Q -> k_held k = [] -> Q (LMutex m) = [] ->
  exists te id, let k' := k <| k_dm ::= reset_list (LMutex m) |> <| k_tel := te |>
      <| k_mtx ::= fun f => <[m := mkMutex MUTEX_STATE_UNLOCKED None 0 TASK_PRIORITY_IDLE id]> f |> in
    mutex_init m name k = Ret tt k' /\ sched_inv [] k' Q /\ mtx_ok k' Q m.
Proof.
  intros HI Hh Hq.
  destruct (telemetry_register_sync SYNC_KIND_MUTEX TELEMETRY_SYNC_ID_NONE name (k_tel k)) as [id te] eqn:Ht.
  exists te, id. split_and!.
  - unfold mutex_init, telemetry_register.
    unfold_K. cbn -[filter telemetry_register_sync]. rewrite Ht. cbn -[filter].
    by rewrite fn_insert_insert, fn_lookup_insert, Hh.
  - by apply sinv_reset.
  - unfold mtx_ok. cbn. rewrite fn_lookup_insert. cbn. done.
Qed.

Lemma set_inheritance_unlocked (me m enable : Z) (k : kstate) :
  mtx_state (k_mtx k m) = MUTEX_STATE_UNLOCKED -> num_items (lists (k_dm k) (LMutex m)) = 0 -> k_held k = [] ->
  mutex_set_inheritance me m enable k = Ret E_OK (k <| k_mtx ::= fun f => <[m := (f m) <| inheritance_enabled := enable |>]> f |>).
Proof.
  intros Hst Hnum Hh. unfold mutex_set_inheritance. etrans; [eapply bind_ret, enter_critical_eq|].
  etrans; [eapply bind_ret, mtx_lock_eq, Hh|]. exec. exec.
  change (mtx_state (k_mtx _ m)) with (mtx_state (k_mtx k m)).
  change (num_items (lists (k_dm _) (LMutex m))) with (num_items (lists (k_dm k) (LMutex m))).
  rewrite Hst, Hnum, bool_decide_false by done. cbn [orb Z.ltb Z.compare]. exec.
  etrans; [by apply (mtx_leave_eq me m _ k)|]. f_equal. rewrite <- Hh. by destruct k.
Qed.

Lemma set_inheritance_eq (me m enable : Z) (k : kstate) (Q : queues) :
  sched_inv [] k Q -> mtx_ok k Q m -> k_held k = [] ->
  returns (mutex_set_inheritance me m enable) k (fun r k' =>
    sched_inv [] k' Q /\ mtx_ok k' Q m /\ k_held k' = [] /\
    if decide (mtx_state (k_mtx k m) = MUTEX_STATE_UNLOCKED)
    then r = E_OK /\ inheritance_enabled (k_mtx k' m) = enable
    else r = E_INVALID_ARGS /\ k' = k).
Proof.
  intros HI [Hip Hok] Hh. unfold returns.
  pose proof (rep_num _ _ _ (si_mem _ _ _ _ _ _ HI (LMutex m))) as Hnum.
  destruct (mtx_state (k_mtx k m)) eqn:Hst.
  - assert (mutex_set_inheritance me m enable k = Ret E_INVALID_ARGS k) as ->.
    { unfold mutex_set_inheritance. etrans; [eapply bind_ret, enter_critical_eq|].
      etrans; [eapply bind_ret, mtx_lock_eq, Hh|]. exec. exec.
      change (mtx_state (k_mtx _ m)) with (mtx_state (k_mtx k m)). rewrite Hst.
      rewrite bool_decide_true by done. cbn [orb]. rewrite (mtx_leave_eq me m _ k) by done.
      f_equal. rewrite <- Hh. by destruct k. }
    rewrite decide_False by done. split_and!; try done. unfold mtx_ok. by rewrite Hst.
  - destruct Hok as [Hno Hq]. rewrite Hq in Hnum. rewrite (set_inheritance_unlocked me m enable k Hst Hnum Hh).
    rewrite decide_True by done. split_and!; try done; [|cbn; by rewrite fn_lookup_insert].
    unfold mtx_ok. cbn. rewrite fn_lookup_insert. cbn. by rewrite Hst.
Qed.

Definition demo_m0 : kstate := final (mutex_init 0 None) demo.
Definition demo_m1 : kstate := final (mutex_set_inheritance 1 0 1) demo_m0.
Definition demo_m2 : kstate := final (mutex_lock 1 0 (-1)) demo_m1.
Definition demo_mtx : kstate := final (scheduler_switch_context 1) demo_m2.

Lemma demo_m0_ok : sched_inv [] demo_m0 demo_Q /\ mtx_ok demo_m0 demo_Q 0.
Proof.
  destruct (mutex_init_eq 0 None demo demo_Q demo_inv demo_held eq_refl) as (te & id & Heq & Hk).
  unfold demo_m0. by erewrite final_eq by exact Heq.
Qed.

Lemma final_returns {A} (m : K A) k (P : A -> kstate -> Prop) :
  returns m k P -> exists a, P a (final m k).
Proof. unfold returns, final. destruct (m k); [by eexists|done]. Qed.

Lemma demo_m1_ok : sched_inv [] demo_m1 demo_Q /\ mtx_ok demo_m1 demo_Q 0.
Proof.
  assert (k_held demo_m0 = []) as Hh by by vm_compute.
  destruct (final_returns _ _ _ (set_inheritance_eq 1 0 1 demo_m0 demo_Q (proj1 demo_m0_ok)
              (proj2 demo_m0_ok) Hh)) as (r & H1 & H2 & _).
  by split.
Qed.

Lemma demo_m1_free : mtx_state (k_mtx demo_m1 0) = MUTEX_STATE_UNLOCKED.
Proof. by vm_compute. Qed.
Lemma demo_m1_held : k_held demo_m1 = [].
Proof. by vm_compute. Qed.
Lemma demo_m1_tick : s_tick_count (k_cores demo_m1 1) = Some 0.
Proof. by vm_compute. Qed.
Lemma demo_m1_block : can_block demo_m1 1 (Pool 1 0).
Proof. split_and!; [by vm_compute|right; by vm_compute|done]. Qed.
Lemma demo_m1_owner : mutex_owner (k_mtx demo_m1 0) <> Some (Pool 1 0).
Proof. by vm_compute. Qed.

Lemma demo_m2_ok : sched_inv [] demo_m2 demo_Q /\ mtx_ok demo_m2 demo_Q 0.
Proof.
  destruct (mutex_lock_takes 1 0 (-1) (Pool 1 0) demo_m1 demo_Q
    (proj1 demo_m1_ok) (proj2 demo_m1_ok) demo_m1_held (proj1 demo_m1_block) demo_m1_free) as (k' & Heq & HI & Hok & _).
  rewrite (final_eq _ _ _ _ Heq : demo_m2 = k'). exact (conj HI Hok).
Qed.

Lemma switch_mtx_ok (me m : Z) (t : tcb) (k : kstate) (Q : queues) :
  mtx_ok k Q m -> mtx_ok (pick me t (requeue me (k <| k_held ::= cons (LkSched me) |>))) Q m.
Proof.
  set (k' := pick _ _ _). intros [Hip Hok].
  assert (k_mtx k' = k_mtx k /\ forall u, live k' u <-> live k u) as [Hm Hl]
    by (unfold k', requeue; by destruct (running_on _ me)).
  unfold mtx_ok. rewrite Hm. split; [exact Hip|]. destruct (mtx_state (k_mtx k m)); [|exact Hok].
  destruct Hok as (o & How & Ho & Hno). exists o. split_and!; [done|by apply Hl|done].
Qed.

Lemma demo_m2_held : k_held demo_m2 = [].
Proof. by vm_compute. Qed.
Lemma demo_m2_idle : live demo_m2 (Idle 1).
Proof. split; by vm_compute. Qed.
Lemma demo_m2_current : k_current demo_m2 1 = Some (Pool 1 0).
Proof. by vm_compute. Qed.
Lemma demo_m2_word : watermark_word demo_m2 (Pool 1 0) = Some TASK_WATERMARK.
Proof. by vm_compute. Qed.

Lemma demo_mtx_ok : sched_inv [] demo_mtx demo_Q /\ mtx_ok demo_mtx demo_Q 0.
Proof.
  assert (watermark_intact demo_m2 1) as Hw.
  { intros t Ht. rewrite demo_m2_current in Ht. injection Ht as <-. exact demo_m2_word. }
  destruct (switch_context_eq 1 demo_m2 demo_Q (proj1 demo_m2_ok) demo_m2_held demo_m2_idle Hw)
    as (p & t & _ & _ & _ & Heq & HI).
  pose proof (final_eq _ _ _ _ Heq : demo_mtx = _) as Hf. rewrite Hf. split; [exact HI|].
  apply switch_mtx_ok. exact (proj2 demo_m2_ok).
Qed.

Lemma demo_mtx_facts :
  k_held demo_mtx = [] /\ can_block demo_mtx 1 (Pool 1 1) /\
  s_tick_count (k_cores demo_mtx 1) = Some 0 /\ mtx_state (k_mtx demo_mtx 0) = MUTEX_STATE_LOCKED /\
  mutex_owner (k_mtx demo_mtx 0) = Some (Pool 1 0) /\ inheritance_enabled (k_mtx demo_mtx 0) <> 0 /\
  mutexes_held (k_tcbs demo_mtx (Pool 1 0)) = 1.
Proof. unfold can_block. split_and!; try (vm_compute; done). right. by vm_compute. Qed.

Lemma mutex_lock_correct_witness :
  returns (mutex_lock 1 0 (-1)) demo_m1 (fun r k' =>
    r = Done E_OK /\ mutex_owner (k_mtx k' 0) = Some (Pool 1 0)).
Proof.
  eapply returns_mono; [apply (mutex_lock_correct 1 0 (-1) 0 (Pool 1 0) demo_m1 demo_Q
    (proj1 demo_m1_ok) (proj2 demo_m1_ok) demo_m1_held demo_m1_block demo_m1_tick demo_m1_owner)|].
  cbv beta. intros r k' (Q' & _ & _ & _ & _ & _ & _ & Hcase). rewrite demo_m1_free in Hcase. tauto.
Defined.

Lemma mutex_unlock_correct_witness :
  returns (mutex_unlock 1 0) demo_mtx (fun _ k' => mtx_state (k_mtx k' 0) = MUTEX_STATE_UNLOCKED).
Proof.
  destruct demo_mtx_facts as (Hh & _ & _ & Hst & How & _).
  eapply returns_mono; [apply (mutex_unlock_correct 1 0 demo_mtx demo_Q (proj1 demo_mtx_ok)
    (proj2 demo_mtx_ok) Hh)|].
  cbv beta. intros _ k' (Q' & _ & _ & _ & _ & _ & Hcase). rewrite Hst, How in Hcase.
  by apply Hcase.
Defined.

Lemma inheritance_bounded_witness :
  returns (mutex_lock 1 0 (-1)) demo_mtx (fun _ k1 =>
    returns (mutex_unlock 1 0;; mutex_lock_resume 1 0 (Pool 1 1)) k1 (fun c _ => c = E_OK)).
Proof.
  destruct demo_mtx_facts as (Hh & Hb & Hn & Hst & How & Hi & Hm).
  eapply returns_mono; [apply (inheritance_bounded 1 1 0 (-1) 0 (Pool 1 1) (Pool 1 0) demo_mtx demo_Q
    (proj1 demo_mtx_ok) (proj2 demo_mtx_ok) Hh Hb Hn Hst How); done|].
  cbv beta. intros r k1 (_ & _ & Hr). eapply returns_mono; [exact Hr|]. cbv beta. by intros c k2 [Hc _].
Defined.
