(* ===== verification/Queue.v ===== *)
(** * Message queues (source/kernel/queue/queue.c)

    A ring of fixed-size items in a heap block, guarded by two semaphores that
    count the free and the filled slots.  A call that has to wait stops at the
    spin of its [semaphore_take] ([Spin]); [queue_send_tail] and
    [queue_recv_tail] are what follows a successful take. *)

From S2P Require Import Prelude Types Dll Telemetry Kernel Invariant Scheduler Heap SchedulerThm Semaphore.

(** ** Operations *)

(** "data" and "space" *)
Definition data_name : option (list Z) := Some [0x64; 0x61; 0x74; 0x61].
Definition space_name : option (list Z) := Some [0x73; 0x70; 0x61; 0x63; 0x65].

Definition queue_init (me q cap isize : Z) (name : option (list Z)) : K StatusCode :=
  upd_queue q (fun r => r <| capacity := cap |> <| item_size := isize |> <| q_head := 0 |> <| q_tail := 0 |>);;
  buf ← heap_malloc me (u32 (cap * isize));
  upd_queue q (fun r => r <| q_buf := buf |>);;
  match buf with
  | None => mret E_OUT_OF_MEM
  | Some _ =>
      id ← telemetry_register SYNC_KIND_QUEUE TELEMETRY_SYNC_ID_NONE name;
      upd_queue q (fun r => r <| q_sync_id := id |>);;
      semaphore_init_with_parent (SemData q) cap 0 data_name id;;
      semaphore_init_with_parent (SemSpace q) cap cap space_name id;;
      spinlock_init (LkQueue q);;
      mret E_OK
  end.

(** The byte address of [q->buf[(pos * q->item_size) + i]]. *)
Definition slot_addr (r : Queue) (pos i : Z) : option Z :=
  match q_buf r with
  | Some b => let a := b + u32 (u32 (pos * item_size r) + i) in
              if (0 <=? a) && (a <? HEAP_SIZE_BYTES) then Some a else None
  | None => None
  end.

(** [for (uint32_t i = 0; i < q->item_size; i++) q->buf[...] = src[i];] *)
Definition queue_copy_in (q pos : Z) (src : list Z) : K unit :=
  r ← gets (fun k => k_queue k q);
  for_ (Z.to_nat (item_size r)) 0 (fun i =>
    a ← deref (slot_addr r pos i);
    v ← deref (src !! Z.to_nat i);
    heap_store8 a v).

(** The same loop the other way; the bytes stored to [dst]. *)
Fixpoint queue_copy_out (r : Queue) (pos : Z) (n : nat) (i : Z) : K (list Z) :=
  match n with
  | O => mret []
  | S n' =>
      a ← deref (slot_addr r pos i);
      v ← gets (fun k => k_heap k a);
      rest ← queue_copy_out r pos n' (i + 1);
      mret (v :: rest)
  end.

Definition queue_put (me q : Z) (src : list Z) : K unit :=
  cpsr ← enter_critical me;
  spinlock_acquire (LkQueue q);;
  head ← gets (fun k => q_head (k_queue k q));
  queue_copy_in q head src;;
  cap ← gets (fun k => capacity (k_queue k q));
  (if cap =? 0 then stop Fault else mret tt);;
  upd_queue q (fun r => r <| q_head := u32 (head + 1) mod cap |>);;
  spinlock_release (LkQueue q);;
  exit_critical me cpsr.

Definition queue_get (me q : Z) : K (list Z) :=
  cpsr ← enter_critical me;
  spinlock_acquire (LkQueue q);;
  r ← gets (fun k => k_queue k q);
  item ← queue_copy_out r (q_tail r) (Z.to_nat (item_size r)) 0;
  (if capacity r =? 0 then stop Fault else mret tt);;
  upd_queue q (fun r => r <| q_tail := u32 (q_tail r + 1) mod capacity r |>);;
  spinlock_release (LkQueue q);;
  exit_critical me cpsr;;
  mret item.

Definition queue_send_tail (me q : Z) (src : list Z) : K StatusCode :=
  queue_put me q src;;
  semaphore_give me (SemData q);;
  mret E_OK.

Definition queue_send (me q : Z) (src : list Z) (timeout_ms : Z) : K attempt :=
  a ← semaphore_take me (SemSpace q) timeout_ms;
  match a with
  | Spin => mret Spin
  | Done E_OK => r ← queue_send_tail me q src; mret (Done r)
  | Done _ => mret (Done E_TIMED_OUT)
  end.

Definition queue_recv_tail (me q : Z) : K (StatusCode * list Z) :=
  item ← queue_get me q;
  semaphore_give me (SemSpace q);;
  mret (E_OK, item).

Definition queue_recv (me q timeout_ms : Z) : K (attempt * list Z) :=
  a ← semaphore_take me (SemData q) timeout_ms;
  match a with
  | Spin => mret (Spin, [])
  | Done E_OK => r ← queue_recv_tail me q; mret (Done r.1, r.2)
  | Done _ => mret (Done E_TIMED_OUT, [])
  end.

(** ** The ring *)

(** Byte [i] of slot [pos]. *)
Definition slot_bytes (k : kstate) (q pos : Z) : list Z :=
  let r := k_queue k q in
  map (fun i => k_heap k (default 0 (q_buf r) + pos * item_size r + i)) (seqZ 0 (item_size r)).

(** The geometry: the block lies in the heap and no index wraps. *)
Record ring_ok (k : kstate) (q : Z) : Prop := {
  rg_buf : exists b, q_buf (k_queue k q) = Some b /\ 0 <= b /\
    b + capacity (k_queue k q) * item_size (k_queue k q) <= HEAP_SIZE_BYTES;
  rg_cap : 0 < capacity (k_queue k q);
  rg_item : 0 < item_size (k_queue k q);
  rg_head : 0 <= q_head (k_queue k q) < capacity (k_queue k q);
  rg_tail : 0 <= q_tail (k_queue k q) < capacity (k_queue k q)
}.

(** The items in the ring, oldest first. *)
Definition ring_items (k : kstate) (q n : Z) : list (list Z) :=
  let r := k_queue k q in
  map (fun j => slot_bytes k q ((q_tail r + j) mod capacity r)) (seqZ 0 n).

(** The ring holds exactly the items [xs]. *)
Definition ring_holds (k : kstate) (q : Z) (xs : list (list Z)) : Prop :=
  let n := Z.of_nat (length xs) in
  ring_ok k q /\ n <= capacity (k_queue k q) /\
  q_head (k_queue k q) = (q_tail (k_queue k q) + n) mod capacity (k_queue k q) /\
  ring_items k q n = xs.

(** ** Bytes of a slot *)

Lemma slot_addr_eq (k : kstate) (q pos i b : Z) :
  ring_ok k q -> q_buf (k_queue k q) = Some b -> 0 <= pos < capacity (k_queue k q) ->
  0 <= i < item_size (k_queue k q) ->
  slot_addr (k_queue k q) pos i = Some (b + (pos * item_size (k_queue k q) + i)).
Proof.
  intros [(b' & Hb & Hb0 & Hroom) Hc Hi _ _] Hb' Hpos Hii. assert (b' = b) as -> by congruence.
  set (c := capacity _) in *. set (n := item_size _) in *.
  assert (pos * n + n <= c * n) as Hle by nia. assert (0 <= pos * n) by nia.
  unfold HEAP_SIZE_BYTES in Hroom. unfold slot_addr. fold n. rewrite Hb.
  rewrite (wrap_small 32 (pos * n)) by lia. rewrite wrap_small by lia.
  rewrite (proj2 (Z.leb_le 0 _)) by lia. unfold HEAP_SIZE_BYTES. by rewrite (proj2 (Z.ltb_lt _ _)) by lia.
Qed.

Section copies.
Context (k0 : kstate) (q pos b : Z).
Context (Hok : ring_ok k0 q) (Hb : q_buf (k_queue k0 q) = Some b).
Context (Hpos : 0 <= pos < capacity (k_queue k0 q)).
Let n := item_size (k_queue k0 q).
Let base := b + pos * n.

Lemma copy_in_loop (src : list Z) (m : nat) : forall (i0 : Z) (k : kstate),
  k_queue k = k_queue k0 -> 0 <= i0 -> i0 + Z.of_nat m <= n -> n <= Z.of_nat (length src) ->
  exists h, for_ m i0 (fun i => a ← deref (slot_addr (k_queue k0 q) pos i);
                                v ← deref (src !! Z.to_nat i); heap_store8 a v) k =
              Ret tt (k <| k_heap := h |>) /\
    forall a, h a = if decide (base + i0 <= a < base + i0 + Z.of_nat m)
                    then default 0 (src !! Z.to_nat (a - base)) else k_heap k a.
Proof.
  induction m as [|m IH]; intros i0 k Hq H0 Hm Hs.
  - exists (k_heap k). split; [by destruct k|]. intros a. by rewrite decide_False by lia.
  - destruct (lookup_lt_is_Some_2 src (Z.to_nat i0)) as [v Hv]; [lia|].
    destruct (IH (i0 + 1) (k <| k_heap ::= fun h => <[base + i0 := v]> h |>)) as (h & Heq & Hh); [done|lia..|].
    exists h. split.
    + cbn [for_]. etrans; [eapply bind_ret|exact Heq].
      rewrite (slot_addr_eq k0 q pos i0 b) by (done || (fold n; lia)). rewrite Hv. unfold base, heap_store8. unfold_K.
      fold n. by rewrite Z.add_assoc.
    + intros a. rewrite Hh. cbn. rewrite fn_insert_lookup. repeat case_decide; try lia; try done.
      subst a. replace (base + i0 - base) with i0 by lia. by rewrite Hv.
Qed.

Lemma copy_out_loop (m : nat) : forall (i0 : Z) (k : kstate),
  0 <= i0 -> i0 + Z.of_nat m <= n ->
  queue_copy_out (k_queue k0 q) pos m i0 k =
    Ret (map (fun i => k_heap k (base + i)) (seqZ i0 (Z.of_nat m))) k.
Proof.
  induction m as [|m IH]; intros i0 k H0 Hm; [done|].
  cbn [queue_copy_out]. rewrite (slot_addr_eq k0 q pos i0 b) by (done || (fold n; lia)).
  exec. exec. rewrite (seqZ_cons i0) by lia. cbn [map].
  replace (Z.pred (Z.of_nat (S m))) with (Z.of_nat m) by lia. replace (Z.succ i0) with (i0 + 1) by lia.
  etrans; [eapply bind_ret, IH; lia|]. unfold mret, M_mret, base. fold n. by rewrite Z.add_assoc.
Qed.
End copies.

(** ** Putting and getting *)

Lemma map_seqZ_ext {A} (f g : Z -> A) (a b n : Z) :
  (forall j, 0 <= j < n -> f (a + j) = g (b + j)) -> map f (seqZ a n) = map g (seqZ b n).
Proof.
  intros Hfg. apply list_eq. intros i. rewrite !list_lookup_fmap.
  destruct (decide (Z.of_nat i < n)).
  - rewrite !lookup_seqZ_lt by lia. cbn. rewrite Hfg by lia. done.
  - by rewrite !lookup_seqZ_ge by lia.
Qed.

Lemma ring_mod (t j c : Z) :
  0 <= t < c -> 0 <= j <= c -> (t + j) mod c = if decide (t + j < c) then t + j else t + j - c.
Proof.
  intros. case_decide; [by rewrite Z.mod_small by lia|].
  replace (t + j) with (t + j - c + 1 * c) at 1 by lia. by rewrite Z.mod_add, Z.mod_small by lia.
Qed.

Lemma slot_bytes_ext (k k' : kstate) (q p : Z) :
  q_buf (k_queue k' q) = q_buf (k_queue k q) -> item_size (k_queue k' q) = item_size (k_queue k q) ->
  (forall i, 0 <= i < item_size (k_queue k q) ->
     let a := default 0 (q_buf (k_queue k q)) + p * item_size (k_queue k q) + i in k_heap k' a = k_heap k a) ->
  slot_bytes k' q p = slot_bytes k q p.
Proof.
  intros Hb Hi Hh. unfold slot_bytes. rewrite Hb, Hi. apply list_fmap_ext. intros j i Hj.
  apply lookup_seqZ in Hj as [-> Hj]. apply Hh. lia.
Qed.

(** The items of a ring whose first [n] slots are unchanged. *)
Lemma ring_items_ext (k k' : kstate) (q n : Z) :
  q_tail (k_queue k' q) = q_tail (k_queue k q) -> capacity (k_queue k' q) = capacity (k_queue k q) ->
  (forall j, 0 <= j < n -> let p := (q_tail (k_queue k q) + j) mod capacity (k_queue k q) in
     slot_bytes k' q p = slot_bytes k q p) ->
  ring_items k' q n = ring_items k q n.
Proof.
  intros Ht Hc Hs. unfold ring_items. rewrite Ht, Hc. apply list_fmap_ext. intros i j Hj.
  apply lookup_seqZ in Hj as [-> Hj]. apply Hs. lia.
Qed.

Lemma q_lock_eq (me q : Z) (k : kstate) :
  k_held k = [] ->
  spinlock_acquire (LkQueue q) (k <| k_irq_masked ::= fun f => <[me := true]> f |>) =
    Ret tt (k <| k_irq_masked ::= fun f => <[me := true]> f |> <| k_held := [LkQueue q] |>).
Proof. intros Hh. rewrite acquire_eq by (cbn; by rewrite Hh). cbn. by rewrite Hh. Qed.

(** Storing an item: the ring gains it at its end; no byte outside the ring's
    block changes. *)
Lemma queue_put_eq (me q : Z) (src : list Z) (xs : list (list Z)) (k : kstate) (b : Z) :
  k_held k = [] -> ring_holds k q xs -> Z.of_nat (length xs) < capacity (k_queue k q) ->
  capacity (k_queue k q) < 2 ^ 32 -> Z.of_nat (length src) = item_size (k_queue k q) ->
  q_buf (k_queue k q) = Some b ->
  exists h, let r := k_queue k q in
    let k' := k <| k_heap := h |>
                <| k_queue ::= fun f => <[q := r <| q_head := (q_head r + 1) mod capacity r |>]> f |> in
    queue_put me q src k = Ret tt k' /\ ring_holds k' q (xs ++ [src]) /\
    (forall a, a < b \/ b + capacity r * item_size r <= a -> h a = k_heap k a).
Proof.
  intros Hh (Hok & Hle & Hhd & Hxs) Hroom Hc32 Hlen Hb.
  pose proof Hok as [(b' & Hb' & Hb0 & Hblk) Hcap Hisz Hhead Htail]. assert (b' = b) as -> by congruence.
  set (k1 := k <| k_irq_masked ::= fun f => <[me := true]> f |> <| k_held := [LkQueue q] |>).
  set (c := capacity (k_queue k q)) in *. set (n := item_size (k_queue k q)) in *.
  set (hd := q_head (k_queue k q)) in *. set (tl := q_tail (k_queue k q)) in *.
  destruct (copy_in_loop k q hd b Hok Hb Hhead src (Z.to_nat n) 0 k1) as (h & Heq & Hheap);
    [done|lia|fold n; lia|fold n; lia|]. fold n in Hheap.
  assert (forall a, a < b + hd * n \/ b + hd * n + n <= a -> h a = k_heap k a) as Hout.
  { intros a Ha. rewrite Hheap, decide_False by lia. done. }
  exists h. cbv zeta. split_and!.
  - unfold queue_put. etrans; [eapply bind_ret, enter_critical_eq|].
    etrans; [eapply bind_ret, q_lock_eq, Hh|]. exec.
    etrans; [eapply bind_ret; exact Heq|]. exec.
    change (capacity (k_queue (k1 <| k_heap := h |>) q)) with c.
    rewrite (proj2 (Z.eqb_neq c 0)) by lia. exec. exec. exec.
    unfold exit_critical, modify. f_equal. unfold k1. cbn -[filter]. fold hd c.
    rewrite filter_own_lock, fn_insert_insert, (fn_insert_id (k_irq_masked k)), <- Hh, wrap_small by (done || lia). done.
  - set (k' := k <| k_heap := h |> <| k_queue ::= _ |>).
    assert (k_queue k' q = (k_queue k q) <| q_head := (hd + 1) mod c |>) as Hq'.
    { unfold k'. cbn. by rewrite fn_lookup_insert. }
    assert (0 <= (hd + 1) mod c < c) as Hnew by (apply Z.mod_pos_bound; lia).
    split; [|split; [|split]]; rewrite ?length_app; cbn [length].
    + split; rewrite Hq'; cbn; [|done..]. exists b. done.
    + rewrite Hq'. cbn. fold c. lia.
    + rewrite Hq'. cbn. fold c tl. rewrite Hhd, Z.add_mod_idemp_l by lia. f_equal. lia.
    + rewrite Nat2Z.inj_add. change (Z.of_nat 1) with 1.
      unfold ring_items. rewrite seqZ_snoc, map_app, Z.add_0_l by lia. cbn [map]. f_equal; [|f_equal].
      * etrans; [apply (ring_items_ext k k' q)|exact Hxs]; rewrite ?Hq'; [done|done|].
        fold tl c. intros j Hj p. apply slot_bytes_ext; rewrite ?Hq'; [done|done|].
        fold n. rewrite Hb. unfold from_option, id. intros i Hi. apply Hout. unfold p in *.
        pose proof (ring_mod tl j c ltac:(lia) ltac:(lia)) as Hp.
        rewrite (ring_mod tl _ c) in Hhd by lia. rewrite Hp. clear - Hhd Hi Hisz Hj Hroom Htail.
        clearbody hd tl n c. repeat case_decide; nia.
      * rewrite Hq'. cbn [q_tail capacity field_update]. fold tl c. rewrite <- Hhd.
        unfold slot_bytes. rewrite Hq'. cbn [q_buf item_size field_update]. rewrite Hb. unfold from_option, id.
        fold n. apply list_eq. intros i. rewrite list_lookup_fmap.
        destruct (decide (Z.of_nat i < n)) as [Hi|Hi].
        -- rewrite lookup_seqZ_lt by lia. cbn [fmap option_fmap option_map].
           unfold k'. cbn [k_heap field_update]. rewrite Hheap, decide_True by lia.
           destruct (lookup_lt_is_Some_2 src i) as [v Hv]; [lia|].
           replace (Z.to_nat _) with i by lia. by rewrite Hv.
        -- rewrite lookup_seqZ_ge by lia. symmetry. apply lookup_ge_None. lia.
  - intros a Ha. apply Hout. fold n c in Ha. nia.
Qed.

(** Taking an item out: the ring loses its oldest one. *)
Lemma queue_get_eq (me q : Z) (x : list Z) (xs : list (list Z)) (k : kstate) :
  k_held k = [] -> ring_holds k q (x :: xs) -> capacity (k_queue k q) < 2 ^ 32 ->
  let r := k_queue k q in
  let k' := k <| k_queue ::= fun f => <[q := r <| q_tail := (q_tail r + 1) mod capacity r |>]> f |> in
  queue_get me q k = Ret x k' /\ ring_holds k' q xs.
Proof.
  intros Hh (Hok & Hle & Hhd & Hxs) Hc32. cbv zeta.
  pose proof Hok as [(b & Hb & Hb0 & Hblk) Hcap Hisz Hhead Htail].
  set (c := capacity (k_queue k q)) in *. set (n := item_size (k_queue k q)) in *.
  set (tl := q_tail (k_queue k q)) in *. cbn [length] in Hle, Hhd, Hxs.
  replace (Z.of_nat (S (length xs))) with (1 + Z.of_nat (length xs)) in * by lia.
  unfold ring_items in Hxs. rewrite seqZ_app in Hxs by lia. fold tl c in Hxs.
  cbn [map app] in Hxs. rewrite (seqZ_cons 0 1) in Hxs by lia. cbn [map app] in Hxs.
  rewrite Z.add_0_r, (Z.mod_small tl) in Hxs by lia.
  replace (Z.pred 1) with 0 in Hxs by lia. cbn [seqZ map app] in Hxs. injection Hxs as Hx Hxs.
  split.
  - set (k1 := k <| k_irq_masked ::= fun f => <[me := true]> f |> <| k_held := [LkQueue q] |>).
    unfold queue_get. etrans; [eapply bind_ret, enter_critical_eq|].
    etrans; [eapply bind_ret, q_lock_eq, Hh|]. exec. change (k_queue _ q) with (k_queue k q).
    fold tl n c. etrans; [eapply bind_ret, (copy_out_loop k q tl b Hok Hb Htail);
                          [lia|fold n; lia]|].
    rewrite (proj2 (Z.eqb_neq c 0)) by lia. exec. exec. exec. exec.
    unfold mret, M_mret. fold n. rewrite Z2Nat.id by lia. f_equal.
    + rewrite <- Hx. unfold slot_bytes. rewrite Hb. reflexivity.
    + cbn -[filter].
      rewrite filter_own_lock, fn_insert_insert, (fn_insert_id (k_irq_masked k)), <- Hh, wrap_small by (done || lia). done.
  - set (k' := k <| k_queue ::= _ |>).
    assert (k_queue k' q = (k_queue k q) <| q_tail := (tl + 1) mod c |>) as Hq'.
    { unfold k'. cbn. by rewrite fn_lookup_insert. }
    assert (0 <= (tl + 1) mod c < c) as Hnew by (apply Z.mod_pos_bound; lia).
    split; [|split; [|split]].
    + split; rewrite Hq'; cbn; [|done..]. exists b. done.
    + rewrite Hq'. cbn. fold c. lia.
    + rewrite Hq'. cbn. fold c. rewrite Z.add_mod_idemp_l by lia. rewrite Hhd. f_equal. lia.
    + etrans; [|exact Hxs]. unfold ring_items. rewrite Hq'. cbn [q_tail capacity field_update]. fold c.
      apply map_seqZ_ext. intros j Hj. rewrite Z.add_mod_idemp_l, !Z.add_0_l, Z.add_assoc by lia.
      apply slot_bytes_ext; by rewrite ?Hq'.
Qed.

(** ** The queue as a whole

    Between the turn of [semaphore_take] that reserves a slot and the copy, a
    sender owns a free slot nobody has filled yet, and a receiver a filled one
    nobody has emptied.  In [queue_ok k Q q xs rr rs] the ring holds [xs], [rr] receivers
    have taken a count of "data" and [rs] senders one of "space". *)
Record queue_ok (k : kstate) (Q : queues) (q : Z) (xs : list (list Z)) (rr rs : Z) : Prop := {
  qo_ring : ring_holds k q xs;
  qo_cap : capacity (k_queue k q) < 2 ^ 32;
  qo_data : sem_ok k Q (SemData q);
  qo_space : sem_ok k Q (SemSpace q);
  qo_max : max_count (k_sem k (SemData q)) = capacity (k_queue k q) /\
           max_count (k_sem k (SemSpace q)) = capacity (k_queue k q);
  qo_filled : count (k_sem k (SemData q)) + rr = Z.of_nat (length xs);
  qo_free : count (k_sem k (SemSpace q)) + rs = capacity (k_queue k q) - Z.of_nat (length xs);
  qo_pos : 0 <= rr /\ 0 <= rs
}.

Lemma ring_holds_ext (k k' : kstate) (q : Z) (xs : list (list Z)) :
  k_queue k' = k_queue k -> k_heap k' = k_heap k -> ring_holds k q xs -> ring_holds k' q xs.
Proof.
  intros Hq Hh (Hok & Hle & Hhd & Hxs). unfold ring_holds, ring_items, slot_bytes in *.
  rewrite Hq, Hh. split_and!; try done. destruct Hok. by split; rewrite ?Hq.
Qed.

(** What a transfer leaves: the ring holds [xs'], one waiter of [s] was woken
    if there was one, and no other semaphore's waiters changed. *)
Record transferred (q : Z) (s : semref) (k : kstate) (Q : queues) (xs' : list (list Z)) (rr' rs' : Z)
    (k' : kstate) (Q' : queues) : Prop := {
  tr_inv : sched_inv [] k' Q';
  tr_held : k_held k' = [];
  tr_cores : k_cores k' = k_cores k /\ k_current k' = k_current k;
  tr_quiet : Q (LSem s) = [] -> k_tcbs k' = k_tcbs k /\ Q' = Q;
  tr_ok : queue_ok k' Q' q xs' rr' rs';
  tr_waiters : forall s', Q' (LSem s') = if decide (s' = s) then tail (Q (LSem s)) else Q (LSem s');
  tr_woken : forall t l, Q (LSem s) = NEvent t :: l ->
    k_tcbs k' t = given_tcb (k_tcbs k t) /\ NState t ∈ Q' (LReady (tcb_core t) (priority (k_tcbs k t)));
  tr_geometry : capacity (k_queue k' q) = capacity (k_queue k q) /\
                item_size (k_queue k' q) = item_size (k_queue k q)
}.

Lemma queue_send_tail_eq (me q : Z) (src : list Z) (xs : list (list Z)) (rr rs : Z) (k : kstate) (Q : queues) :
  sched_inv [] k Q -> k_held k = [] -> queue_ok k Q q xs rr rs -> 0 < rs ->
  Z.of_nat (length src) = item_size (k_queue k q) ->
  exists k' Q', queue_send_tail me q src k = Ret E_OK k' /\
    transferred q (SemData q) k Q (xs ++ [src]) (rr + woken Q (SemData q)) (rs - 1) k' Q'.
Proof.
  intros HI Hh [Hring Hc32 Hd Hs [Hmd Hms] Hfil Hfre [Hrr Hrs]] Hpos Hlen.
  pose proof (proj1 Hs) as [Hs0 _]. pose proof (proj1 Hd) as [Hd0 _].
  pose proof Hring as [[(b & Hb & _) _ _ _ _] _].
  destruct (queue_put_eq me q src xs k b Hh Hring ltac:(lia) Hc32 Hlen Hb) as (h & Heq & Hring' & _).
  cbv zeta in Heq, Hring'. set (k1 := k <| k_heap := h |> <| k_queue ::= _ |>) in *.
  assert (count (k_sem k1 (SemData q)) < max_count (k_sem k1 (SemData q))) as Hroom.
  { change (k_sem k1) with (k_sem k). lia. }
  destruct (semaphore_give_moves me (SemData q) k1 Q HI Hd Hh Hroom) as (k' & Q' & Hg & Hgave).
  pose proof (gave_ok _ k1 _ _ _ Hd Hroom Hgave) as Hok. destruct Hgave.
  exists k', Q'. split.
  { unfold queue_send_tail. etrans; [eapply bind_ret; exact Heq|]. by etrans; [eapply bind_ret; exact Hg|]. }
  split; try done; rewrite ?gv_queue.
  - split; rewrite ?gv_queue, ?gv_sem, ?fn_lookup_insert, ?fn_lookup_insert_ne by done; cbn;
      rewrite ?fn_lookup_insert; cbn; try done; try lia.
    + by eapply ring_holds_ext; [| |exact Hring'].
    + by apply Hok.
    + by apply Hok.
    + rewrite length_app. cbn. change (k_sem k1) with (k_sem k). lia.
    + rewrite length_app. cbn. lia.
    + unfold woken. destruct (Q _); lia.
  - cbn. by rewrite fn_lookup_insert.
Qed.

Lemma queue_recv_tail_eq (me q : Z) (x : list Z) (xs : list (list Z)) (rr rs : Z) (k : kstate) (Q : queues) :
  sched_inv [] k Q -> k_held k = [] -> queue_ok k Q q (x :: xs) rr rs -> 0 < rr ->
  exists k' Q', queue_recv_tail me q k = Ret (E_OK, x) k' /\
    transferred q (SemSpace q) k Q xs (rr - 1) (rs + woken Q (SemSpace q)) k' Q'.
Proof.
  intros HI Hh [Hring Hc32 Hd Hs [Hmd Hms] Hfil Hfre [Hrr Hrs]] Hpos.
  pose proof (proj1 Hs) as [Hs0 _]. pose proof (proj1 Hd) as [Hd0 _]. cbn [length] in Hfil, Hfre.
  destruct (queue_get_eq me q x xs k Hh Hring Hc32) as [Heq Hring'].
  cbv zeta in Heq, Hring'. set (k1 := k <| k_queue ::= _ |>) in *.
  assert (count (k_sem k1 (SemSpace q)) < max_count (k_sem k1 (SemSpace q))) as Hroom.
  { change (k_sem k1) with (k_sem k). lia. }
  destruct (semaphore_give_moves me (SemSpace q) k1 Q HI Hs Hh Hroom) as (k' & Q' & Hg & Hgave).
  pose proof (gave_ok _ k1 _ _ _ Hs Hroom Hgave) as Hok. destruct Hgave.
  exists k', Q'. split.
  { unfold queue_recv_tail. etrans; [eapply bind_ret; exact Heq|]. by etrans; [eapply bind_ret; exact Hg|]. }
  split; try done; rewrite ?gv_queue.
  - split; rewrite ?gv_queue, ?gv_sem, ?fn_lookup_insert, ?fn_lookup_insert_ne by done; cbn;
      rewrite ?fn_lookup_insert; cbn; try done; try lia.
    + by eapply ring_holds_ext; [| |exact Hring'].
    + by apply Hok.
    + by apply Hok.
    + unfold woken. destruct (Q _); lia.
  - cbn. by rewrite fn_lookup_insert.
Qed.

(** The first turn of [semaphore_take]. *)
Definition deadline_of (timeout_ms now : Z) : Z := if 0 <? timeout_ms then u64 (now + timeout_ms) else 0.

Lemma semaphore_take_eq (me : Z) (s : semref) (timeout_ms now : Z) (t : tcb) (k : kstate) :
  k_current k me = Some t -> s_tick_count (k_cores k me) = Some now ->
  semaphore_take me s timeout_ms k = semaphore_try me s timeout_ms (deadline_of timeout_ms now) t k.
Proof.
  intros Hcur Hnow. unfold semaphore_take.
  etrans; [apply (bind_ret _ _ _ (deadline_of timeout_ms now, Some t) k)|by exec].
  unfold semaphore_take_start, deadline_of, scheduler_get_tick_count, scheduler_get_current_task.
  destruct (0 <? timeout_ms); unfold_K; cbn; by rewrite ?Hnow, ?Hcur.
Qed.

(** A caller that finds no count and may wait becomes BLOCKED at the back of
    the waiting list; the queue itself is as before. *)
Lemma queue_waits (me q : Z) (s : semref) (timeout_ms now : Z) (t : tcb) (xs : list (list Z)) (rr rs : Z)
    (k : kstate) (Q : queues) :
  sched_inv [] k Q -> k_held k = [] -> can_block k me t -> s_tick_count (k_cores k me) = Some now ->
  0 <= now -> now + timeout_ms < 2 ^ 64 -> timeout_ms <> 0 -> count (k_sem k s) = 0 ->
  queue_ok k Q q xs rr rs ->
  exists k' Q', semaphore_take me s timeout_ms k = Ret Spin k' /\ sched_inv [] k' Q' /\ k_held k' = [] /\
    queue_ok k' Q' q xs rr rs /\ Q' (LSem s) = Q (LSem s) ++ [NEvent t] /\
    current_state (k_tcbs k' t) = TASK_STATE_BLOCKED.
Proof.
  intros HI Hh Hb Hnow Hn0 Hn Ht Hc [Hring Hc32 Hd Hs Hmax Hfil Hfre Hpos].
  rewrite (semaphore_take_eq me s timeout_ms now t k (proj1 Hb) Hnow).
  destruct (semaphore_block_eq me s timeout_ms (deadline_of timeout_ms now) t k Q HI Hh Hb)
    as (d' & te & Heq & HI'); [lia|done| |].
  { intros Hp. exists now. split; [done|]. unfold deadline_of. rewrite (proj2 (Z.ltb_lt _ _) Hp).
    rewrite wrap_small by lia. lia. }
  cbv zeta in Heq, HI'. eexists _, _. split; [exact Heq|]. split; [exact HI'|].
  split; [done|]. split; [|split].
  - destruct Hd as (Hd1 & Hd2 & Hd3), Hs as (Hs1 & Hs2 & Hs3).
    split; [by eapply ring_holds_ext; [| |exact Hring]|exact Hc32| | |exact Hmax|exact Hfil|exact Hfre|exact Hpos].
    + unfold sem_ok. rewrite wait_sem_queue. cbn. case_decide as He; [split_and!; [apply Hd1|apply Hd1|done|congruence]|exact (conj Hd1 (conj Hd2 Hd3))].
    + unfold sem_ok. rewrite wait_sem_queue. cbn. case_decide as He; [split_and!; [apply Hs1|apply Hs1|done|congruence]|exact (conj Hs1 (conj Hs2 Hs3))].
  - by rewrite wait_sem_queue, decide_True.
  - cbn. rewrite fn_lookup_insert. unfold wait_tcb. by destruct (0 <? timeout_ms).
Qed.

(** Reserving a count changes nothing else. *)
Lemma reserve_ok (k : kstate) (Q : queues) (q : Z) (s : semref) (xs : list (list Z)) (rr rs : Z) :
  queue_ok k Q q xs rr rs -> 0 < count (k_sem k s) -> s = SemData q \/ s = SemSpace q ->
  queue_ok (k <| k_sem ::= fun f => <[s := (f s) <| count := count (k_sem k s) - 1 |>]> f |>) Q q xs
    (if decide (s = SemData q) then rr + 1 else rr) (if decide (s = SemData q) then rs else rs + 1).
Proof.
  intros [Hring Hc32 (Hd & Hdm & Hdw) (Hs & Hsm & Hsw) [Hmd Hms] Hfil Hfre Hpos] Hc Hsq.
  destruct Hsq as [-> | ->]; case_decide; try done.
  - split; unfold sem_ok; cbn; rewrite ?fn_lookup_insert, ?fn_lookup_insert_ne by done; cbn; try done; try lia;
      [by eapply ring_holds_ext; [| |exact Hring]|].
    split_and!; try lia. intros Hne. specialize (Hdw Hne). lia.
  - split; unfold sem_ok; cbn; rewrite ?fn_lookup_insert, ?fn_lookup_insert_ne by done; cbn; try done; try lia;
      [by eapply ring_holds_ext; [| |exact Hring]|].
    split_and!; try lia. intros Hne. specialize (Hsw Hne). lia.
Qed.

Lemma transferred_reserve (f : (semref -> Semaphore) -> semref -> Semaphore) (q : Z) (s : semref)
    (k : kstate) (Q : queues) (xs : list (list Z)) (rr rs : Z) (k' : kstate) (Q' : queues) :
  transferred q s (k <| k_sem ::= f |>) Q xs rr rs k' Q' -> transferred q s k Q xs rr rs k' Q'.
Proof. intros []. by split. Qed.

(** A call that finds a count reserves it and goes on. *)
Lemma queue_send_ready (me q : Z) (src : list Z) (timeout_ms now : Z) (t : tcb) (xs : list (list Z))
    (rr rs : Z) (k : kstate) (Q : queues) :
  sched_inv [] k Q -> k_held k = [] -> k_current k me = Some t -> s_tick_count (k_cores k me) = Some now ->
  queue_ok k Q q xs rr rs -> 0 < count (k_sem k (SemSpace q)) ->
  Z.of_nat (length src) = item_size (k_queue k q) ->
  exists k' Q', queue_send me q src timeout_ms k = Ret (Done E_OK) k' /\
    transferred q (SemData q) k Q (xs ++ [src]) (rr + woken Q (SemData q)) rs k' Q'.
Proof.
  intros HI Hh Hcur Hnow Hok Hc Hlen.
  pose proof (reserve_ok k Q q (SemSpace q) xs rr rs Hok Hc ltac:(by right)) as Hok1.
  rewrite !decide_False in Hok1 by done. set (k1 := k <| k_sem ::= _ |>) in *.
  destruct (queue_send_tail_eq me q src xs rr (rs + 1) k1 Q HI Hh Hok1) as (k' & Q' & Heq & Htr);
    [destruct (qo_pos _ _ _ _ _ _ Hok); lia|exact Hlen|].
  exists k', Q'. replace (rs + 1 - 1) with rs in Htr by lia. split; [|by eapply transferred_reserve].
  unfold queue_send. etrans; [apply (bind_ret _ _ _ (Done E_OK) k1)|].
  - rewrite (semaphore_take_eq me _ _ now t) by done. apply semaphore_return_eq; [done|].
    destruct (qo_space _ _ _ _ _ _ Hok) as ((_ & Hm) & Hm2 & _). lia.
  - by etrans; [eapply bind_ret; exact Heq|].
Qed.

Lemma queue_recv_ready (me q timeout_ms now : Z) (t : tcb) (x : list Z) (xs : list (list Z))
    (rr rs : Z) (k : kstate) (Q : queues) :
  sched_inv [] k Q -> k_held k = [] -> k_current k me = Some t -> s_tick_count (k_cores k me) = Some now ->
  queue_ok k Q q (x :: xs) rr rs -> 0 < count (k_sem k (SemData q)) ->
  exists k' Q', queue_recv me q timeout_ms k = Ret (Done E_OK, x) k' /\
    transferred q (SemSpace q) k Q xs rr (rs + woken Q (SemSpace q)) k' Q'.
Proof.
  intros HI Hh Hcur Hnow Hok Hc.
  pose proof (reserve_ok k Q q (SemData q) (x :: xs) rr rs Hok Hc ltac:(by left)) as Hok1.
  rewrite !decide_True in Hok1 by done. set (k1 := k <| k_sem ::= _ |>) in *.
  destruct (queue_recv_tail_eq me q x xs (rr + 1) rs k1 Q HI Hh Hok1) as (k' & Q' & Heq & Htr);
    [destruct (qo_pos _ _ _ _ _ _ Hok); lia|].
  exists k', Q'. replace (rr + 1 - 1) with rr in Htr by lia. split; [|by eapply transferred_reserve].
  unfold queue_recv. etrans; [apply (bind_ret _ _ _ (Done E_OK) k1)|].
  - rewrite (semaphore_take_eq me _ _ now t) by done. apply semaphore_return_eq; [done|].
    destruct (qo_data _ _ _ _ _ _ Hok) as ((_ & Hm) & Hm2 & _). lia.
  - by etrans; [eapply bind_ret; exact Heq|].
Qed.

(** The outcome of a call that found no count of [s]. *)
Definition unserved (q : Z) (s : semref) (timeout_ms : Z) (t : tcb) (xs : list (list Z)) (rr rs : Z)
    (k : kstate) (Q : queues) (r : attempt) (k' : kstate) : Prop :=
  if timeout_ms =? 0 then r = Done E_TIMED_OUT /\ k' = k
  else r = Spin /\ exists Q', sched_inv [] k' Q' /\ k_held k' = [] /\ queue_ok k' Q' q xs rr rs /\
       Q' (LSem s) = Q (LSem s) ++ [NEvent t] /\ current_state (k_tcbs k' t) = TASK_STATE_BLOCKED.

Lemma take_unserved (me q : Z) (s : semref) (timeout_ms now : Z) (t : tcb) (xs : list (list Z)) (rr rs : Z)
    (k : kstate) (Q : queues) :
  sched_inv [] k Q -> k_held k = [] -> can_block k me t -> s_tick_count (k_cores k me) = Some now ->
  0 <= now -> now + timeout_ms < 2 ^ 64 -> count (k_sem k s) = 0 -> queue_ok k Q q xs rr rs ->
  exists r k', semaphore_take me s timeout_ms k = Ret r k' /\ unserved q s timeout_ms t xs rr rs k Q r k' /\
    r <> Done E_OK.
Proof.
  intros HI Hh Hb Hnow Hn0 Hn Hc Hok. unfold unserved. destruct (Z.eqb_spec timeout_ms 0) as [->|H0].
  - exists (Done E_TIMED_OUT), k. split; [|done].
    rewrite (semaphore_take_eq me s 0 now t k (proj1 Hb) Hnow).
    apply (semaphore_timeout_eq me s 0 _ now); [done|lia|done|by left].
  - destruct (queue_waits me q s timeout_ms now t xs rr rs k Q HI Hh Hb Hnow Hn0 Hn H0 Hc Hok)
      as (k' & Q' & Heq & Hk'). exists Spin, k'. split; [exact Heq|]. split; [|done]. split; [done|]. by exists Q'.
Qed.

(** [queue_send] on every branch.  With a free slot the item's bytes are
    stored behind the ones the queue holds, and either the item count goes up
    or the receiver that has waited longest is made READY with the item
    reserved for it.  With no free slot a zero timeout returns E_TIMED_OUT and
    changes nothing, and any other caller blocks behind the earlier senders.
    In every case the counts still add up to the capacity, so no send can ever
    overwrite an unread item. *)
Theorem queue_send_correct (me q : Z) (src : list Z) (timeout_ms now : Z) (t : tcb) (xs : list (list Z))
    (rr rs : Z) (k : kstate) (Q : queues) :
  sched_inv [] k Q -> k_held k = [] -> can_block k me t -> s_tick_count (k_cores k me) = Some now ->
  0 <= now -> now + timeout_ms < 2 ^ 64 ->
  queue_ok k Q q xs rr rs -> Z.of_nat (length src) = item_size (k_queue k q) ->
  returns (queue_send me q src timeout_ms) k (fun r k' =>
    if 0 <? count (k_sem k (SemSpace q))
    then r = Done E_OK /\ exists Q',
         transferred q (SemData q) k Q (xs ++ [src]) (rr + woken Q (SemData q)) rs k' Q'
    else unserved q (SemSpace q) timeout_ms t xs rr rs k Q r k').
Proof.
  intros HI Hh Hb Hnow Hn0 Hn Hok Hlen. unfold returns.
  destruct (Z.ltb_spec 0 (count (k_sem k (SemSpace q)))) as [Hc|Hc].
  - destruct (queue_send_ready me q src timeout_ms now t xs rr rs k Q HI Hh (proj1 Hb) Hnow Hok Hc Hlen)
      as (k' & Q' & -> & Htr). split; [done|]. by exists Q'.
  - assert (count (k_sem k (SemSpace q)) = 0) as Hc0
      by (destruct (qo_space _ _ _ _ _ _ Hok) as ((? & _) & _); lia).
    destruct (take_unserved me q (SemSpace q) timeout_ms now t xs rr rs k Q HI Hh Hb Hnow Hn0 Hn Hc0 Hok)
      as (r & k' & Heq & Hu & Hr).
    unfold queue_send, mbind, M_mbind. rewrite Heq. destruct r as [c|]; [|exact Hu].
    unfold unserved in *. destruct (timeout_ms =? 0); destruct Hu as [[= ->] Hu]. by split.
Qed.

(** [queue_recv] on every branch.  When an item is available the caller
    gets the bytes of the oldest one, which leaves the queue, and either a
    slot becomes free or the sender that has waited longest is made READY with
    the slot reserved for it.  With none available a zero timeout returns
    E_TIMED_OUT and changes nothing, and any other caller blocks behind the
    earlier receivers. *)
Theorem queue_recv_correct (me q timeout_ms now : Z) (t : tcb) (xs : list (list Z))
    (rr rs : Z) (k : kstate) (Q : queues) :
  sched_inv [] k Q -> k_held k = [] -> can_block k me t -> s_tick_count (k_cores k me) = Some now ->
  0 <= now -> now + timeout_ms < 2 ^ 64 -> queue_ok k Q q xs rr rs ->
  returns (queue_recv me q timeout_ms) k (fun r k' =>
    if 0 <? count (k_sem k (SemData q))
    then exists x xs' Q', xs = x :: xs' /\ r = (Done E_OK, x) /\
         transferred q (SemSpace q) k Q xs' rr (rs + woken Q (SemSpace q)) k' Q'
    else unserved q (SemData q) timeout_ms t xs rr rs k Q r.1 k').
Proof.
  intros HI Hh Hb Hnow Hn0 Hn Hok. unfold returns.
  destruct (Z.ltb_spec 0 (count (k_sem k (SemData q)))) as [Hc|Hc].
  - destruct xs as [|x xs].
    { pose proof (qo_filled _ _ _ _ _ _ Hok) as Hf. pose proof (qo_pos _ _ _ _ _ _ Hok). cbn in Hf. lia. }
    destruct (queue_recv_ready me q timeout_ms now t x xs rr rs k Q HI Hh (proj1 Hb) Hnow Hok Hc)
      as (k' & Q' & -> & Htr). by exists x, xs, Q'.
  - assert (count (k_sem k (SemData q)) = 0) as Hc0
      by (destruct (qo_data _ _ _ _ _ _ Hok) as ((? & _) & _); lia).
    destruct (take_unserved me q (SemData q) timeout_ms now t xs rr rs k Q HI Hh Hb Hnow Hn0 Hn Hc0 Hok)
      as (r & k' & Heq & Hu & Hr).
    unfold queue_recv, mbind, M_mbind. rewrite Heq. destruct r as [c|]; [|exact Hu].
    unfold unserved in *. destruct (timeout_ms =? 0); destruct Hu as [[= ->] Hu]. by split.
Qed.

(** ** Initialisation *)

Lemma init_with_parent_run (s : semref) (mx initial parent : Z) (name : option (list Z)) (k : kstate) :
  k_held k = [] ->
  exists te id, semaphore_init_with_parent s mx initial name parent k =
    Ret tt (k <| k_dm ::= reset_list (LSem s) |> <| k_tel := te |>
              <| k_sem ::= fun f => <[s := mkSemaphore mx initial id]> f |>).
Proof.
  intros Hh.
  destruct (telemetry_register_sync SYNC_KIND_SEMAPHORE parent name (k_tel k)) as [id te] eqn:Ht.
  exists te, id. unfold semaphore_init_with_parent, semaphore_init_common, telemetry_register.
  unfold_K. cbn -[filter telemetry_register_sync]. rewrite Ht. cbn -[filter].
  by rewrite fn_insert_insert, fn_lookup_insert, Hh.
Qed.

Lemma init_with_parent_eq (s : semref) (mx initial parent : Z) (name : option (list Z)) (k : kstate) (Q : queues) :
  sched_inv [] k Q -> k_held k = [] -> Q (LSem s) = [] -> 0 <= initial <= mx -> mx < 2 ^ 32 ->
  exists te id, let k' := k <| k_dm ::= reset_list (LSem s) |> <| k_tel := te |>
      <| k_sem ::= fun f => <[s := mkSemaphore mx initial id]> f |> in
    semaphore_init_with_parent s mx initial name parent k = Ret tt k' /\ sched_inv [] k' Q /\ sem_ok k' Q s.
Proof.
  intros HI Hh Hq Hi Hm. destruct (init_with_parent_run s mx initial parent name k Hh) as (te & id & Heq).
  exists te, id. split_and!; [exact Heq|by apply sinv_reset|].
  unfold sem_ok. cbn. rewrite fn_lookup_insert. cbn. split_and!; [lia..|]. by rewrite Hq.
Qed.

Lemma queue_init_eq (me q cap isize : Z) (name : option (list Z)) (k : kstate) (Q : queues) :
  sched_inv [] k Q -> k_held k = [] -> heap_ok k -> 0 < cap -> 0 < isize -> 
  k_heap_offset k + 4 * ((cap * isize + 3) / 4) <= HEAP_SIZE_BYTES ->
  Q (LSem (SemData q)) = [] -> Q (LSem (SemSpace q)) = [] ->
  exists k', queue_init me q cap isize name k = Ret E_OK k' /\ sched_inv [] k' Q /\ k_held k' = [] /\
    queue_ok k' Q q [] 0 0 /\ k_tcbs k' = k_tcbs k /\ k_current k' = k_current k /\ k_cores k' = k_cores k /\
    capacity (k_queue k' q) = cap /\ item_size (k_queue k' q) = isize.
Proof.
  intros HI Hh Hok Hcap Hi Hfit Hqd Hqs.
  assert (cap * isize <= HEAP_SIZE_BYTES - k_heap_offset k /\ 0 <= k_heap_offset k /\ cap <= cap * isize)
    as (Hprod & Hoff & Hcp).
  { destruct Hok as [? _]. split_and!; [Z.div_mod_to_equations; lia|lia|nia]. }
  unfold HEAP_SIZE_BYTES in Hprod.
  set (r0 := (k_queue k q) <| capacity := cap |> <| item_size := isize |> <| q_head := 0 |> <| q_tail := 0 |>).
  set (k1 := k <| k_queue ::= fun f => <[q := r0]> f |>).
  pose proof (heap_malloc_fits me (cap * isize) k1 Hh Hok ltac:(lia) Hfit) as Hm.
  set (r1 := r0 <| q_buf := Some (k_heap_offset k) |>).
  destruct (telemetry_register_sync SYNC_KIND_QUEUE TELEMETRY_SYNC_ID_NONE name (k_tel k)) as [id te] eqn:Ht.
  set (r2 := r1 <| q_sync_id := id |>).
  set (k2 := k <| k_heap_offset := k_heap_offset k + 4 * ((cap * isize + 3) / 4) |> <| k_tel := te |>
               <| k_queue ::= fun f => <[q := r2]> f |>).
  assert (sched_inv [] k2 Q) as HI2 by exact HI.
  destruct (init_with_parent_eq (SemData q) cap 0 id data_name k2 Q HI2 Hh Hqd ltac:(lia) ltac:(lia))
    as (te3 & id3 & He3 & HI3 & Hs3). cbv zeta in He3, HI3, Hs3.
  set (k3 := k2 <| k_dm ::= _ |> <| k_tel := _ |> <| k_sem ::= _ |>) in *.
  destruct (init_with_parent_eq (SemSpace q) cap cap id space_name k3 Q HI3 Hh Hqs ltac:(lia) ltac:(lia))
    as (te4 & id4 & He4 & HI4 & Hs4). cbv zeta in He4, HI4, Hs4.
  set (k4 := k3 <| k_dm ::= _ |> <| k_tel := _ |> <| k_sem ::= _ |>) in *.
  assert (k_queue k4 q = r2) as Hr by (cbn; by rewrite fn_lookup_insert).
  exists k4. split; [|split_and!; try done].
  - unfold queue_init. exec. rewrite (wrap_small 32 (cap * isize)) by lia. exec_with Hm. exec.
    etrans; [eapply bind_ret; unfold telemetry_register; cbn -[telemetry_register_sync]; rewrite Ht; reflexivity|].
    exec. etrans; [eapply bind_ret; etrans; [|exact He3]; f_equal; unfold k2; cbn;
                   rewrite !fn_insert_insert, !fn_lookup_insert; reflexivity|].
    etrans; [eapply bind_ret, He4|]. exec. unfold mret, M_mret. f_equal.
    unfold k4, k3, k2. cbn -[filter]. by rewrite Hh.
  - split; rewrite ?Hr; cbn; try done; try lia.
    + split; [split; rewrite ?Hr; cbn; try lia|rewrite Hr; cbn].
      * exists (k_heap_offset k). split_and!; [done|lia|unfold HEAP_SIZE_BYTES; lia].
      * split_and!; [lia|by rewrite Z.mod_0_l by lia|done].
    + rewrite fn_lookup_insert, fn_lookup_insert_ne, fn_lookup_insert by done. done.
    + by rewrite fn_lookup_insert_ne, fn_lookup_insert.
    + rewrite fn_lookup_insert. cbn. lia.
  - rewrite Hr. done.
  - rewrite Hr. done.
Qed.

(** The size product is 32 bits wide: a queue whose bytes number 2^32 gets a
    block of none. *)
Lemma queue_init_wraps (me q cap isize : Z) (name : option (list Z)) (k : kstate) :
  k_held k = [] -> heap_ok k -> cap * isize = 2 ^ 32 ->
  returns (queue_init me q cap isize name) k (fun r k' =>
    r = E_OK /\ q_buf (k_queue k' q) = Some (k_heap_offset k) /\ k_heap_offset k' = k_heap_offset k /\
    capacity (k_queue k' q) = cap /\ item_size (k_queue k' q) = isize).
Proof.
  intros Hh Hok Hprod. destruct (telemetry_register_sync SYNC_KIND_QUEUE TELEMETRY_SYNC_ID_NONE name (k_tel k))
    as [id te] eqn:Ht.
  set (r0 := (k_queue k q) <| capacity := cap |> <| item_size := isize |> <| q_head := 0 |> <| q_tail := 0 |>).
  set (k1 := k <| k_queue ::= fun f => <[q := r0]> f |>).
  pose proof (heap_malloc_fits me 0 k1 Hh Hok ltac:(lia)) as Hm.
  assert (k_heap_offset k1 + 4 * ((0 + 3) / 4) = k_heap_offset k) as Hz.
  { change ((0 + 3) / 4) with 0. cbn. lia. }
  rewrite Hz in Hm. specialize (Hm (proj2 (proj1 Hok))).
  set (r2 := r0 <| q_buf := Some (k_heap_offset k) |> <| q_sync_id := id |>).
  set (k2 := k <| k_tel := te |> <| k_queue ::= fun f => <[q := r2]> f |>).
  destruct (init_with_parent_run (SemData q) cap 0 id data_name k2 Hh) as (te3 & id3 & He3).
  set (k3 := k2 <| k_dm ::= _ |> <| k_tel := _ |> <| k_sem ::= _ |>) in *.
  destruct (init_with_parent_run (SemSpace q) cap cap id space_name k3 Hh) as (te4 & id4 & He4).
  apply returns_inv. eexists _, _. split.
  - unfold queue_init. exec. rewrite Hprod. change (u32 (2 ^ 32)) with 0. exec_with Hm. exec.
    etrans; [eapply bind_ret; unfold telemetry_register; cbn -[telemetry_register_sync]; rewrite Ht; reflexivity|].
    exec. etrans; [eapply bind_ret; etrans; [|exact He3]; f_equal; unfold k2; cbn;
                   rewrite !fn_insert_insert, !fn_lookup_insert; reflexivity|].
    etrans; [eapply bind_ret, He4|]. exec. reflexivity.
  - cbn. rewrite !fn_lookup_insert. by split_and!.
Qed.

(** ** A burst through the queue *)

Fixpoint queue_sends (me q : Z) (srcs : list (list Z)) : K (list attempt) :=
  match srcs with
  | [] => mret []
  | src :: srcs' => a ← queue_send me q src 0; r ← queue_sends me q srcs'; mret (a :: r)
  end.
Fixpoint queue_recvs (me q : Z) (n : nat) : K (list (attempt * list Z)) :=
  match n with
  | O => mret []
  | S n' => x ← queue_recv me q 0; r ← queue_recvs me q n'; mret (x :: r)
  end.

(** A queue nobody waits at. *)
Definition quiet (me q : Z) (t : tcb) (now cap isize : Z) (xs : list (list Z)) (k : kstate) (Q : queues) : Prop :=
  sched_inv [] k Q /\ k_held k = [] /\ k_current k me = Some t /\ s_tick_count (k_cores k me) = Some now /\
  Q (LSem (SemData q)) = [] /\ Q (LSem (SemSpace q)) = [] /\ queue_ok k Q q xs 0 0 /\
  capacity (k_queue k q) = cap /\ item_size (k_queue k q) = isize.

Section burst.
Context (me q : Z) (t : tcb) (now cap isize : Z) (Q : queues).

Lemma quiet_transferred (s : semref) (xs xs' : list (list Z)) (rr' rs' : Z) (k k' : kstate) (Q' : queues) :
  quiet me q t now cap isize xs k Q -> s = SemData q \/ s = SemSpace q ->
  transferred q s k Q xs' rr' rs' k' Q' -> rr' = 0 -> rs' = 0 -> quiet me q t now cap isize xs' k' Q.
Proof.
  intros (HI & Hh & Hcur & Hnow & Hqd & Hqs & Hok & Hc & Hi) Hs [] -> ->.
  assert (Q (LSem s) = []) as Hq by (by destruct Hs as [-> | ->]).
  destruct (tr_quiet0 Hq) as [Ht ->]. destruct tr_cores0 as [Hco Hcu]. destruct tr_geometry0 as [Hg1 Hg2].
  unfold quiet. rewrite Hco, Hcu, Hg1, Hg2. by split_and!.
Qed.

Lemma burst_in (srcs : list (list Z)) : forall (xs : list (list Z)) (k : kstate),
  quiet me q t now cap isize xs k Q -> Forall (fun src => Z.of_nat (length src) = isize) srcs ->
  Z.of_nat (length xs) + Z.of_nat (length srcs) <= cap ->
  exists k', queue_sends me q srcs k = Ret (map (fun _ => Done E_OK) srcs) k' /\
    quiet me q t now cap isize (xs ++ srcs) k' Q.
Proof.
  induction srcs as [|src srcs IH]; intros xs k Hk Hl Hn.
  - exists k. by rewrite app_nil_r.
  - apply Forall_cons_iff in Hl as [Hsrc Hl]. cbn [length] in Hn.
    pose proof Hk as (HI & Hh & Hcur & Hnow & Hqd & Hqs & Hok & Hc & Hi).
    destruct (queue_send_ready me q src 0 now t xs 0 0 k Q HI Hh Hcur Hnow Hok) as (k1 & Q1 & Heq & Htr).
    { pose proof (qo_free _ _ _ _ _ _ Hok). lia. }
    { by rewrite Hi. }
    unfold woken in Htr. rewrite Hqd in Htr.
    pose proof (quiet_transferred _ _ _ _ _ _ _ _ Hk (or_introl eq_refl) Htr eq_refl eq_refl) as Hk1.
    destruct (IH (xs ++ [src]) k1 Hk1 Hl) as (k2 & Heq2 & Hk2); [rewrite length_app; cbn; lia|].
    exists k2. split; [|by rewrite <- app_assoc in Hk2].
    cbn [queue_sends map]. exec_with Heq. exec_with Heq2. done.
Qed.

Lemma burst_out (xs : list (list Z)) : forall (k : kstate),
  quiet me q t now cap isize xs k Q ->
  exists k', queue_recvs me q (length xs) k = Ret (map (fun x => (Done E_OK, x)) xs) k' /\
    quiet me q t now cap isize [] k' Q.
Proof.
  induction xs as [|x xs IH]; intros k Hk; [by exists k|].
  pose proof Hk as (HI & Hh & Hcur & Hnow & Hqd & Hqs & Hok & Hc & Hi).
  destruct (queue_recv_ready me q 0 now t x xs 0 0 k Q HI Hh Hcur Hnow Hok) as (k1 & Q1 & Heq & Htr).
  { pose proof (qo_filled _ _ _ _ _ _ Hok) as Hf. cbn in Hf. lia. }
  unfold woken in Htr. rewrite Hqs in Htr.
  pose proof (quiet_transferred _ _ _ _ _ _ _ _ Hk (or_intror eq_refl) Htr eq_refl eq_refl) as Hk1.
  destruct (IH k1 Hk1) as (k2 & Heq2 & Hk2). exists k2. split; [|done].
  cbn [queue_recvs length map]. exec_with Heq. exec_with Heq2. done.
Qed.

(** C15: first in, first out, byte for byte.  From an empty queue at any
    position of the ring, as many items as the queue holds can be sent without
    waiting, and receiving as many gives exactly their bytes in the order of
    the sends and leaves the queue empty again. *)
Theorem queue_fifo (srcs : list (list Z)) (k : kstate) :
  quiet me q t now cap isize [] k Q -> Forall (fun src => Z.of_nat (length src) = isize) srcs ->
  Z.of_nat (length srcs) <= cap ->
  returns (s ← queue_sends me q srcs; r ← queue_recvs me q (length srcs); mret (s, r)) k (fun out k' =>
    out = (map (fun _ => Done E_OK) srcs, map (fun x => (Done E_OK, x)) srcs) /\
    quiet me q t now cap isize [] k' Q).
Proof.
  intros Hk Hl Hn. destruct (burst_in srcs [] k Hk Hl Hn) as (k1 & Heq1 & Hk1).
  destruct (burst_out srcs k1 Hk1) as (k2 & Heq2 & Hk2).
  apply returns_bind. unfold returns at 1. rewrite Heq1.
  apply returns_bind. unfold returns at 1. rewrite Heq2. by split.
Qed.
End burst.

(** ** A concrete queue: three items of two bytes on [demo] *)

Definition demo_queue : kstate := final (queue_init 1 0 3 2 None) demo.

Lemma demo_heap_ok : heap_ok demo /\ k_heap_offset demo + 4 * ((3 * 2 + 3) / 4) <= HEAP_SIZE_BYTES.
Proof. unfold heap_ok. split_and!; vm_compute; done. Qed.
Lemma demo_current_tick : k_current demo 1 = Some (Pool 1 0) /\ s_tick_count (k_cores demo 1) = Some 0.
Proof. split; by vm_compute. Qed.

Lemma demo_queue_quiet : quiet 1 0 (Pool 1 0) 0 3 2 [] demo_queue demo_Q /\ k_tcbs demo_queue = k_tcbs demo.
Proof.
  destruct demo_heap_ok as [Ho Hf]. destruct demo_current_tick as [Hc Ht].
  destruct (queue_init_eq 1 0 3 2 None demo demo_Q demo_inv demo_held Ho ltac:(lia) ltac:(lia) Hf eq_refl eq_refl)
    as (k' & Heq & HI & Hh & Hok & Htc & Hcur & Hco & Hcap & Hi).
  rewrite (final_eq _ _ _ _ Heq : demo_queue = k'). split; [|exact Htc].
  unfold quiet. rewrite Hcur, Hco, Hc, Ht. by split_and!.
Qed.

Lemma demo_queue_block : can_block demo_queue 1 (Pool 1 0).
Proof. split_and!; [by vm_compute|right; by vm_compute|done]. Qed.
Lemma demo_queue_counts : count (k_sem demo_queue (SemSpace 0)) = 3 /\ count (k_sem demo_queue (SemData 0)) = 0.
Proof. split; by vm_compute. Qed.

Lemma queue_send_correct_witness :
  returns (queue_send 1 0 [7; 9] 5) demo_queue (fun r _ => r = Done E_OK).
Proof.
  destruct demo_queue_quiet as [(HI & Hh & _ & Ht & _ & _ & Hok & _ & Hi) _].
  eapply returns_mono; [apply (queue_send_correct 1 0 [7; 9] 5 0 (Pool 1 0) [] 0 0 demo_queue demo_Q
    HI Hh demo_queue_block Ht ltac:(lia) ltac:(lia) Hok); by rewrite Hi|].
  cbv beta. rewrite (proj1 demo_queue_counts). by intros r k' [Hr _].
Defined.

Lemma queue_recv_correct_witness :
  returns (queue_recv 1 0 5) demo_queue (fun r k' => r.1 = Spin /\
    current_state (k_tcbs k' (Pool 1 0)) = TASK_STATE_BLOCKED).
Proof.
  destruct demo_queue_quiet as [(HI & Hh & _ & Ht & _ & _ & Hok & _ & Hi) _].
  eapply returns_mono; [apply (queue_recv_correct 1 0 5 0 (Pool 1 0) [] 0 0 demo_queue demo_Q
    HI Hh demo_queue_block Ht ltac:(lia) ltac:(lia) Hok)|].
  cbv beta. rewrite (proj2 demo_queue_counts). intros r k' [Hr (Q' & _ & _ & _ & _ & Hb)]. by split.
Defined.

Lemma queue_fifo_witness :
  returns (s ← queue_sends 1 0 [[1; 2]; [3; 4]; [5; 6]]; r ← queue_recvs 1 0 3; mret (s, r)) demo_queue
    (fun out _ => out.2 = [(Done E_OK, [1; 2]); (Done E_OK, [3; 4]); (Done E_OK, [5; 6])]).
Proof.
  eapply returns_mono; [apply (queue_fifo 1 0 (Pool 1 0) 0 3 2 demo_Q [[1; 2]; [3; 4]; [5; 6]] demo_queue
    (proj1 demo_queue_quiet)); [by repeat constructor|done]|].
  cbv beta. by intros out k' [-> _].
Defined.
