(* ===== verification/SoftTimer.v ===== *)
(** * Software timers (source/kernel/software_timer/software_timer.c)

    The two singly-linked lists of the file are threaded through the timers
    themselves ([t_next], [list_id] of [k_timers]); their heads are
    [k_blocked_head] and [k_active_head].  A walk along a list takes a fuel
    argument: any bound on the number of timers is enough.  The service task's
    endless loop is given by its turn, split at its [semaphore_take];
    callbacks are code of the application, the parameter [fn] of the turn. *)

From S2P Require Import Prelude Types Dll Telemetry Kernel Invariant Scheduler Task SchedulerThm Semaphore.

(** ** Operations *)

(** [&blocked_list_head] and [&active_list_head]. *)
Inductive timer_list := BlockedTimers | ActiveTimers.

Definition list_head (k : kstate) (h : timer_list) : option Z :=
  match h with BlockedTimers => k_blocked_head k | ActiveTimers => k_active_head k end.
Definition set_head (h : timer_list) (v : option Z) : K unit :=
  match h with
  | BlockedTimers => modify (fun k => k <| k_blocked_head := v |>)
  | ActiveTimers => modify (fun k => k <| k_active_head := v |>)
  end.

(** [while (iter != NULL && iter->next != timer) iter = iter->next;] *)
Fixpoint unlink_walk (fuel : nat) (iter : option Z) (timer : Z) : K (option Z) :=
  match iter with
  | None => mret None
  | Some i =>
      nx ← gets (fun k => t_next (k_timers k i));
      if decide (nx = Some timer) then mret (Some i)
      else match fuel with O => stop NoFuel | S fuel' => unlink_walk fuel' nx timer end
  end.

Definition software_timer_unlink (fuel : nat) (head : timer_list) (timer : Z) : K bool :=
  hd ← gets (fun k => list_head k head);
  nx ← gets (fun k => t_next (k_timers k timer));
  if decide (hd = Some timer) then
    set_head head nx;;
    upd_timer timer (fun r => r <| t_next := None |>);;
    mret true
  else
    iter ← unlink_walk fuel hd timer;
    match iter with
    | None => mret false
    | Some i =>
        upd_timer i (fun r => r <| t_next := nx |>);;
        upd_timer timer (fun r => r <| t_next := None |>);;
        mret true
    end.

(** [while (iter->next != NULL && iter->next->expiry_tick <= e) iter = iter->next;] *)
Fixpoint insert_walk (fuel : nat) (iter e : Z) : K Z :=
  nx ← gets (fun k => t_next (k_timers k iter));
  match nx with
  | None => mret iter
  | Some n =>
      en ← gets (fun k => expiry_tick (k_timers k n));
      if en <=? e then match fuel with O => stop NoFuel | S fuel' => insert_walk fuel' n e end
      else mret iter
  end.

Definition software_timer_add_to_blocked_list (fuel : nat) (timer : Z) : K unit :=
  upd_timer timer (fun r => r <| list_id := TIMER_LIST_BLOCKED |> <| t_next := None |>);;
  hd ← gets k_blocked_head;
  e ← gets (fun k => expiry_tick (k_timers k timer));
  first ← match hd with
          | None => mret true
          | Some h => eh ← gets (fun k => expiry_tick (k_timers k h)); mret (e <? eh)
          end;
  if first : bool then
    upd_timer timer (fun r => r <| t_next := hd |>);;
    set_head BlockedTimers (Some timer)
  else
    h ← deref hd;
    i ← insert_walk fuel h e;
    nx ← gets (fun k => t_next (k_timers k i));
    upd_timer timer (fun r => r <| t_next := nx |>);;
    upd_timer i (fun r => r <| t_next := Some timer |>).

Definition software_timer_pop_to_active (fuel : nat) (timer : Z) : K unit :=
  found ← software_timer_unlink fuel BlockedTimers timer;
  when found (
    hd ← gets k_active_head;
    upd_timer timer (fun r => r <| t_next := hd |>);;
    set_head ActiveTimers (Some timer);;
    upd_timer timer (fun r => r <| list_id := TIMER_LIST_ACTIVE |>)).

(** The turn of the service task after its [semaphore_take]: first it pops an
    expired timer... *)
Definition service_pop (me : Z) : K (option Z) :=
  cpsr ← enter_critical me;
  expired ← gets k_active_head;
  match expired with
  | None => mret tt
  | Some t =>
      nx ← gets (fun k => t_next (k_timers k t));
      set_head ActiveTimers nx;;
      upd_timer t (fun r => r <| t_next := None |> <| list_id := TIMER_LIST_NONE |>)
  end;;
  exit_critical me cpsr;;
  mret expired.

(** ...and after the callback it re-arms a periodic one. *)
Definition service_rearm (fuel : nat) (me t : Z) : K unit :=
  mode ← gets (fun k => timer_mode (k_timers k t));
  when (bool_decide (mode = TIMER_MODE_PERIODIC)) (
    cpsr ← enter_critical me;
    upd_timer t (fun r => r <| expiry_tick := u64 (expiry_tick r + period r) |>);;
    software_timer_add_to_blocked_list fuel t;;
    exit_critical me cpsr).

(** [fn f t] is the effect of calling the callback at address [f] on [t]. *)
Definition software_timer_service_turn (fuel : nat) (me : Z) (fn : Z -> Z -> K unit) : K unit :=
  expired ← service_pop me;
  match expired with
  | None => mret tt
  | Some t =>
      cb ← gets (fun k => callback (k_timers k t));
      match cb with Some f => fn f t | None => mret tt end;;
      service_rearm fuel me t
  end.

(** "sw_timer_sem" and "sw_timer" *)
Definition timer_sem_name : option (list Z) :=
  Some [0x73; 0x77; 0x5F; 0x74; 0x69; 0x6D; 0x65; 0x72; 0x5F; 0x73; 0x65; 0x6D].
Definition timer_task_name : option (list Z) := Some [0x73; 0x77; 0x5F; 0x74; 0x69; 0x6D; 0x65; 0x72].

Definition software_timer_init : K StatusCode :=
  set_head BlockedTimers None;;
  set_head ActiveTimers None;;
  semaphore_init SemTimer SEMAPHORE_MAX_COUNT_UNLIMITED 0 timer_sem_name;;
  mret E_OK.

(** [service_task] is the address of [software_timer_service_task]. *)
Definition software_timer_start (trap me service_task : Z) : K StatusCode :=
  r ← task_create trap me service_task 512 TASK_PRIORITY_5 0 timer_task_name;
  mret r.1.

Definition software_timer_create (fuel : nat) (me : Z) (timer : option Z) (new_period : Z)
    (cb : option Z) (mode : TimerMode) : K StatusCode :=
  match timer with
  | None => mret E_INVALID_ARGS
  | Some t =>
      if new_period =? 0 then mret E_INVALID_ARGS else
      upd_timer t (fun _ => mkSoftwareTimer 0 new_period mode cb TIMER_LIST_NONE None);;
      cur ← scheduler_get_current_task me;
      when (bool_decide (cur <> None)) (
        cpsr ← enter_critical me;
        now ← scheduler_get_tick_count me;
        upd_timer t (fun r => r <| expiry_tick := u64 (now + new_period) |>);;
        software_timer_add_to_blocked_list fuel t;;
        exit_critical me cpsr);;
      mret E_OK
  end.

(** Taking [t] off whichever list its tag names. *)
Definition unlink_tagged (fuel : nat) (t : Z) : K unit :=
  id ← gets (fun k => list_id (k_timers k t));
  match id with
  | TIMER_LIST_BLOCKED => software_timer_unlink fuel BlockedTimers t;; mret tt
  | TIMER_LIST_ACTIVE => software_timer_unlink fuel ActiveTimers t;; mret tt
  | TIMER_LIST_NONE => mret tt
  end.

Definition software_timer_stop (fuel : nat) (me : Z) (timer : option Z) : K StatusCode :=
  match timer with
  | None => mret E_INVALID_ARGS
  | Some t =>
      cpsr ← enter_critical me;
      unlink_tagged fuel t;;
      upd_timer t (fun r => r <| list_id := TIMER_LIST_NONE |>);;
      exit_critical me cpsr;;
      mret E_OK
  end.

Definition software_timer_reset (fuel : nat) (me : Z) (timer : option Z) : K StatusCode :=
  match timer with
  | None => mret E_INVALID_ARGS
  | Some t =>
      cpsr ← enter_critical me;
      unlink_tagged fuel t;;
      now ← scheduler_get_tick_count me;
      upd_timer t (fun r => r <| expiry_tick := u64 (now + period r) |>);;
      software_timer_add_to_blocked_list fuel t;;
      exit_critical me cpsr;;
      mret E_OK
  end.

Fixpoint software_timer_tick (fuel : nat) (me now_tick : Z) : K unit :=
  hd ← gets k_blocked_head;
  match hd with
  | None => mret tt
  | Some t =>
      e ← gets (fun k => expiry_tick (k_timers k t));
      if e <=? now_tick then
        match fuel with
        | O => stop NoFuel
        | S fuel' =>
            software_timer_pop_to_active fuel' t;;
            semaphore_give me SemTimer;;
            software_timer_tick fuel' me now_tick
        end
      else mret tt
  end.

(** The scheduler's hooks in an image that links this file; [start] starts
    the DFU task, if the image has one. *)
Definition timer_hooks (fuel : nat) (start : Z -> K StatusCode) : Hooks := {|
  Scheduler.software_timer_tick := software_timer_tick fuel;
  dfu_trigger_task_start := start
|}.

(** ** Chains *)

Fixpoint tchain (tm : Z -> SoftwareTimer) (h : option Z) (l : list Z) : Prop :=
  match l with
  | [] => h = None
  | t :: l' => h = Some t /\ tchain tm (t_next (tm t)) l'
  end.

Lemma tchain_ext (tm tm' : Z -> SoftwareTimer) (l : list Z) : forall h,
  (forall t, t ∈ l -> t_next (tm' t) = t_next (tm t)) -> tchain tm h l -> tchain tm' h l.
Proof.
  induction l as [|t l IH]; intros h Hext; cbn; [done|]. intros [-> Hl]. split; [done|].
  rewrite Hext by (by left). apply IH; [|done]. intros u Hu. apply Hext. by right.
Qed.

(** Changing what follows [j]. *)
Lemma tchain_relink (tm tm' : Z -> SoftwareTimer) (j : Z) (l1 l2 l2' : list Z) : forall h,
  tchain tm h (l1 ++ j :: l2) -> (forall t, t ∈ l1 -> t_next (tm' t) = t_next (tm t)) ->
  tchain tm' (t_next (tm' j)) l2' -> tchain tm' h (l1 ++ j :: l2').
Proof.
  induction l1 as [|t l1 IH]; intros h; cbn; [tauto|]. intros [-> Hl] Hext Hj. split; [done|].
  rewrite Hext by (by left). apply IH; [done| |done]. intros u Hu. apply Hext. by right.
Qed.

Lemma tchain_after (tm : Z -> SoftwareTimer) (j : Z) (l1 l2 : list Z) : forall h,
  tchain tm h (l1 ++ j :: l2) -> tchain tm (t_next (tm j)) l2.
Proof. induction l1 as [|t l1 IH]; intros h; cbn; [tauto|]. intros [_ Hl]. by eapply IH. Qed.

(** The links may change, the timers' data do not. *)
Definition relinked (tm tm' : Z -> SoftwareTimer) (l : list Z) : Prop :=
  forall u, tm' u = (tm u) <| t_next := t_next (tm' u) |> /\ (u ∉ l -> tm' u = tm u).

Definition with_head (h : timer_list) (v : option Z) (k : kstate) : kstate :=
  match h with
  | BlockedTimers => k <| k_blocked_head := v |>
  | ActiveTimers => k <| k_active_head := v |>
  end.

Lemma set_head_eq (h : timer_list) (v : option Z) (k : kstate) : set_head h v k = Ret tt (with_head h v k).
Proof. by destruct h. Qed.

Lemma unlink_walk_hit (k : kstate) (i t : Z) (l2 : list Z) (l1 : list Z) : forall (fuel : nat) (iter : option Z),
  tchain (k_timers k) iter (l1 ++ i :: t :: l2) -> NoDup (l1 ++ i :: t :: l2) -> (length l1 <= fuel)%nat ->
  unlink_walk fuel iter t k = Ret (Some i) k.
Proof.
  induction l1 as [|x l1 IH]; intros fuel iter.
  - cbn. intros (-> & Hnx & _) _ _. destruct fuel; cbn; exec; by rewrite Hnx, decide_True.
  - cbn [app]. intros [-> Hl] [Hx Hnd]%NoDup_cons Hf. cbn [length] in Hf. destruct fuel as [|fuel]; [lia|].
    cbn [unlink_walk]. exec. rewrite decide_False; [apply IH; [done|done|lia]|].
    intros He. rewrite He in Hl. destruct l1 as [|y l1]; cbn in Hl; destruct Hl as [[= ->] _].
    + apply NoDup_cons in Hnd as [Hn _]. apply Hn. by left.
    + apply NoDup_cons in Hnd as [Hn _]. apply Hn. apply elem_of_app. right. right. by left.
Qed.

Lemma unlink_walk_miss (k : kstate) (t : Z) (l : list Z) : forall (fuel : nat) (iter : option Z),
  tchain (k_timers k) iter l -> t ∉ l -> (length l <= fuel)%nat -> unlink_walk fuel iter t k = Ret None k.
Proof.
  induction l as [|x l IH]; intros fuel iter.
  - cbn. intros ->. by destruct fuel.
  - intros [-> Hl] Hn Hf. cbn [length] in Hf. destruct fuel as [|fuel]; [lia|].
    cbn [unlink_walk]. exec. rewrite decide_False; [apply IH; [done|set_solver|lia]|].
    intros He. rewrite He in Hl. destruct l as [|y l]; cbn in Hl; [done|].
    destruct Hl as [[= ->] _]. set_solver.
Qed.

Lemma del_timer (t : Z) (l1 l2 : list Z) :
  NoDup (l1 ++ t :: l2) -> filter (fun u => u <> t) (l1 ++ t :: l2) = l1 ++ l2.
Proof.
  intros (Hnd & Hd & Hnd2)%NoDup_app. apply NoDup_cons in Hnd2 as [Ht _].
  assert (forall l : list Z, t ∉ l -> filter (fun u => u <> t) l = l) as Hf.
  { intros l Hl. induction l as [|x l IH]; [done|]. rewrite filter_cons_True by set_solver. f_equal. set_solver. }
  rewrite filter_app, filter_cons_False by tauto. rewrite !Hf; [done|done|]. intros Hin. apply (Hd t Hin). by left.
Qed.

(** Unlinking a timer from the list it is in. *)
Lemma unlink_eq (fuel : nat) (h : timer_list) (t : Z) (l : list Z) (k : kstate) :
  tchain (k_timers k) (list_head k h) l -> NoDup l -> t ∈ l -> (length l <= fuel)%nat ->
  exists tm' hd', software_timer_unlink fuel h t k = Ret true (with_head h hd' (k <| k_timers := tm' |>)) /\
    tchain tm' hd' (filter (fun u => u <> t) l) /\ relinked (k_timers k) tm' l /\ t_next (tm' t) = None.
Proof.
  intros Hc Hnd Hin Hf. apply list_elem_of_split in Hin as (l1 & l2 & ->).
  rewrite del_timer by done. pose proof (tchain_after _ _ _ _ _ Hc) as Hl2.
  unfold software_timer_unlink. destruct l1 as [|i l1' _] using rev_ind.
  - cbn [app] in *. destruct Hc as [Hhd _]. apply NoDup_cons in Hnd as [Ht _].
    exists (<[t := (k_timers k t) <| t_next := None |>]> (k_timers k)), (t_next (k_timers k t)). split_and!.
    + exec. exec. rewrite Hhd, decide_True by done. exec_with (set_head_eq h (t_next (k_timers k t)) k). exec.
      by destruct h.
    + eapply tchain_ext; [|exact Hl2]. intros u Hu. rewrite fn_lookup_insert_ne; [done|]. by intros ->.
    + intros u. rewrite fn_insert_lookup. case_decide; subst; [split; [done|set_solver]|by destruct (k_timers k u)].
    + by rewrite fn_lookup_insert.
  - rewrite <- app_assoc in *. cbn [app] in *.
    assert (list_head k h <> Some t) as Hne.
    { intros He. rewrite He in Hc. apply NoDup_app in Hnd as (_ & Hd & Hnd).
      destruct l1' as [|y l1']; cbn in Hc; destruct Hc as [[= ->] _].
      - apply NoDup_cons in Hnd as [Hn _]. apply Hn. by left.
      - apply (Hd y); [by left|]. right. by left. }
    assert (i <> t) as Hit.
    { apply NoDup_app in Hnd as (_ & _ & [Hn _]%NoDup_cons). intros ->. apply Hn. by left. }
    set (tm1 := <[i := (k_timers k i) <| t_next := t_next (k_timers k t) |>]> (k_timers k)).
    exists (<[t := (tm1 t) <| t_next := None |>]> tm1), (list_head k h). split_and!.
    + exec. exec. rewrite decide_False by done.
      etrans; [eapply bind_ret, (unlink_walk_hit k i t l2 l1' fuel _ Hc Hnd);
               rewrite !length_app in Hf; cbn in Hf; lia|]. exec. exec.
      unfold tm1. destruct h; cbn; by destruct k.
    + apply (tchain_relink (k_timers k) _ i l1' (t :: l2)); [done| |].
      * intros u Hu. apply NoDup_app in Hnd as (_ & Hd & _). specialize (Hd u Hu).
        unfold tm1. rewrite !fn_lookup_insert_ne by (intros ->; set_solver). done.
      * assert (t_next ((<[t := (tm1 t) <| t_next := None |>]> tm1) i) = t_next (k_timers k t)) as ->.
        { rewrite fn_lookup_insert_ne by done. unfold tm1. by rewrite fn_lookup_insert. }
        eapply tchain_ext; [|exact Hl2]. intros u Hu. apply NoDup_app in Hnd as (_ & _ & Hnd).
        apply NoDup_cons in Hnd as [Hi [Ht _]%NoDup_cons].
        unfold tm1. rewrite !fn_lookup_insert_ne by (intros ->; set_solver). done.
    + intros u. rewrite fn_insert_lookup. case_decide as Ht.
      * subst u. unfold tm1. rewrite fn_lookup_insert_ne by done. split; [done|set_solver].
      * unfold tm1. rewrite fn_insert_lookup. case_decide as Hi; subst; [split; [done|set_solver]|].
        by destruct (k_timers k u).
    + by rewrite fn_lookup_insert.
Qed.

(** The blocked list after [t], of expiry [e], is inserted: behind every timer
    that expires no later. *)
Fixpoint timer_insert (ex : Z -> Z) (e t : Z) (l : list Z) : list Z :=
  match l with
  | [] => [t]
  | x :: l' => if e <? ex x then t :: l else x :: timer_insert ex e t l'
  end.

Lemma insert_walk_eq (k : kstate) (e t : Z) (l : list Z) : forall (fuel : nat) (i : Z),
  tchain (k_timers k) (t_next (k_timers k i)) l -> (length l <= fuel)%nat ->
  exists l1 j l2, insert_walk fuel i e k = Ret j k /\ i :: l = l1 ++ j :: l2 /\
    i :: timer_insert (fun u => expiry_tick (k_timers k u)) e t l = l1 ++ j :: t :: l2.
Proof.
  induction l as [|x l IH]; intros fuel i Hc Hf.
  - exists [], i, []. cbn in Hc. destruct fuel; cbn [insert_walk]; (split; [exec; by rewrite Hc|done]).
  - destruct Hc as [Hn Hc]. cbn [length timer_insert] in *. destruct fuel as [|fuel]; [lia|].
    destruct (Z.ltb_spec e (expiry_tick (k_timers k x))) as [Hlt|Hge].
    + exists [], i, (x :: l). split; [|done]. cbn [insert_walk]. exec. rewrite Hn. exec.
      by rewrite (proj2 (Z.leb_gt _ _)).
    + destruct (IH fuel x Hc ltac:(lia)) as (l1 & j & l2 & Heq & H1 & H2).
      exists (i :: l1), j, l2. cbn [app]. rewrite H1, H2. split; [|done]. cbn [insert_walk]. exec. rewrite Hn. exec.
      by rewrite (proj2 (Z.leb_le _ _)).
Qed.

Lemma elem_of_timer_insert (ex : Z -> Z) (e t u : Z) (l : list Z) :
  u ∈ timer_insert ex e t l <-> u = t \/ u ∈ l.
Proof. induction l as [|x l IH]; cbn; [set_solver|]. case_match; set_solver. Qed.

(** Inserting a timer that is in no list. *)
Lemma insert_eq (fuel : nat) (t : Z) (l : list Z) (k : kstate) :
  tchain (k_timers k) (k_blocked_head k) l -> NoDup l -> t ∉ l -> (length l <= fuel)%nat ->
  let ex u := expiry_tick (k_timers k u) in
  exists tm' hd', software_timer_add_to_blocked_list fuel t k =
      Ret tt (k <| k_timers := tm' |> <| k_blocked_head := hd' |>) /\
    tchain tm' hd' (timer_insert ex (ex t) t l) /\
    (forall u, u <> t -> tm' u = (k_timers k u) <| t_next := t_next (tm' u) |> /\
                         (u ∉ l -> tm' u = k_timers k u)) /\
    tm' t = (k_timers k t) <| list_id := TIMER_LIST_BLOCKED |> <| t_next := t_next (tm' t) |>.
Proof.
  intros Hc Hnd Ht Hf ex. set (r := (k_timers k t) <| list_id := TIMER_LIST_BLOCKED |> <| t_next := None |>).
  set (k1 := k <| k_timers ::= fun g => <[t := r]> g |>).
  assert (forall h l', tchain (k_timers k) h l' -> t ∉ l' -> tchain (k_timers k1) h l') as Hk1.
  { intros h l' Hl' Hn. eapply tchain_ext; [|exact Hl']. intros u Hu. cbn.
    rewrite fn_lookup_insert_ne; [done|]. by intros ->. }
  assert (forall u, expiry_tick (k_timers k1 u) = ex u) as Hex.
  { intros u. cbn. rewrite fn_insert_lookup. by case_decide; subst. }
  unfold software_timer_add_to_blocked_list.
  assert (forall h v, v = ex t -> match h with None => mret true
           | Some h => eh ← gets (fun k => expiry_tick (k_timers k h)); mret (v <? eh) end k1 =
         Ret (match h with None => true | Some h => ex t <? ex h end) k1) as Hfirst.
  { intros [h|] v ->; [|done]. exec. by rewrite Hex. }
  destruct l as [|h l].
  - exists (<[t := r]> (k_timers k)), (Some t). cbn in Hc. split_and!.
    + etrans; [apply (bind_ret _ _ _ tt k1); reflexivity|]. exec. exec.
      etrans; [eapply bind_ret, Hfirst, Hex|].
      change (k_blocked_head k1) with (k_blocked_head k). rewrite Hc. exec. unfold set_head, modify. f_equal.
      unfold k1. cbn. by rewrite fn_insert_insert, fn_lookup_insert.
    + cbn. by rewrite fn_lookup_insert.
    + intros u Hu. rewrite fn_lookup_insert_ne by done. by destruct (k_timers k u).
    + by rewrite fn_lookup_insert.
  - destruct Hc as [Hhd Hc]. cbn [timer_insert].
    destruct (Z.ltb_spec (ex t) (ex h)) as [Hlt|Hge].
    + set (tm1 := <[t := r <| t_next := Some h |>]> (k_timers k)).
      exists tm1, (Some t). split_and!.
      * etrans; [apply (bind_ret _ _ _ tt k1); reflexivity|]. exec. exec.
      etrans; [eapply bind_ret, Hfirst, Hex|].
        change (k_blocked_head k1) with (k_blocked_head k). rewrite Hhd, (proj2 (Z.ltb_lt _ _)) by done.
        exec. unfold set_head, modify. f_equal.
        unfold k1. cbn. by rewrite fn_insert_insert, fn_lookup_insert.
      * split; [done|]. unfold tm1 at 2. rewrite fn_lookup_insert. cbn. split; [done|].
        unfold tm1. rewrite fn_lookup_insert_ne by set_solver.
        eapply tchain_ext; [|exact Hc]. intros u Hu. rewrite fn_lookup_insert_ne by set_solver. done.
      * intros u Hu. unfold tm1. rewrite fn_lookup_insert_ne by done. by destruct (k_timers k u).
      * unfold tm1. by rewrite fn_lookup_insert.
    + assert (tchain (k_timers k1) (t_next (k_timers k1 h)) l) as Hc1.
      { apply Hk1; [|set_solver]. cbn. by rewrite fn_lookup_insert_ne by set_solver. }
      destruct (insert_walk_eq k1 (ex t) t l fuel h Hc1 ltac:(cbn in Hf; lia)) as (l1 & j & l2 & Hw & Hl & Hins).
      assert (j <> t) as Hjt by (rewrite Hl in Ht; set_solver).
      set (r2 := r <| t_next := t_next (k_timers k j) |>).
      set (tm2 := <[j := (k_timers k j) <| t_next := Some t |>]> (<[t := r2]> (k_timers k))).
      exists tm2, (Some h). split_and!.
      * etrans; [apply (bind_ret _ _ _ tt k1); reflexivity|]. exec. exec.
      etrans; [eapply bind_ret, Hfirst, Hex|].
        change (k_blocked_head k1) with (k_blocked_head k). rewrite Hhd, (proj2 (Z.ltb_ge _ _)) by done.
        exec.
        rewrite Hex. etrans; [eapply bind_ret; exact Hw|]. exec. exec. unfold upd_timer, modify. f_equal.
        unfold k1, tm2, r2. cbn.
        rewrite !fn_insert_insert, !fn_lookup_insert, (fn_lookup_insert_ne _ t j) by done.
        rewrite (fn_lookup_insert_ne _ t j) by done. destruct k. cbn in *. by rewrite Hhd.
      * assert (timer_insert ex (ex t) t l = timer_insert (fun u => expiry_tick (k_timers k1 u)) (ex t) t l) as ->.
        { clear - Hex. induction l as [|x l IH]; cbn -[k1]; [done|]. rewrite Hex. case_match; [done|by rewrite IH]. }
        rewrite Hins. apply (tchain_relink (k_timers k) tm2 j l1 l2 (t :: l2)).
        -- rewrite <- Hl. by split.
        -- intros u Hu. unfold tm2. rewrite Hl in Hnd, Ht. apply NoDup_app in Hnd as (_ & Hd & _).
           specialize (Hd u Hu). rewrite !fn_lookup_insert_ne by (intros ->; set_solver). done.
        -- unfold tm2 at 2. rewrite fn_lookup_insert. cbn. split; [done|].
           unfold tm2 at 2. rewrite fn_lookup_insert_ne, fn_lookup_insert by done. cbn.
           assert (tchain (k_timers k) (Some h) (h :: l)) as Hall by (by split). rewrite Hl in Hall, Hnd, Ht.
           apply tchain_after in Hall. eapply tchain_ext; [|exact Hall]. intros u Hu. unfold tm2.
           apply NoDup_app in Hnd as (_ & _ & [Hj _]%NoDup_cons).
           rewrite !fn_lookup_insert_ne by (intros ->; set_solver). done.
      * intros u Hu. unfold tm2. rewrite fn_insert_lookup. case_decide; subst.
        -- split; [done|]. intros Hn. rewrite Hl in Hn. set_solver.
        -- rewrite fn_lookup_insert_ne by done. by destruct (k_timers k u).
      * unfold tm2. rewrite fn_lookup_insert_ne, fn_lookup_insert by done. done.
Qed.

(** ** Invariant

    [Lb] is the blocked list, soonest first, [La] the active one; a timer's
    tag says which of them it is in. *)
Definition tag (Lb La : list Z) (t : Z) : TimerListId :=
  if decide (t ∈ Lb) then TIMER_LIST_BLOCKED
  else if decide (t ∈ La) then TIMER_LIST_ACTIVE else TIMER_LIST_NONE.

Definition by_expiry (tm : Z -> SoftwareTimer) (a b : Z) : Prop := expiry_tick (tm a) <= expiry_tick (tm b).

Record timers_ok (k : kstate) (Lb La : list Z) : Prop := {
  tk_blocked : tchain (k_timers k) (k_blocked_head k) Lb;
  tk_active : tchain (k_timers k) (k_active_head k) La;
  tk_nodup : NoDup (Lb ++ La);
  tk_sorted : StronglySorted (by_expiry (k_timers k)) Lb;
  tk_tags : forall t, list_id (k_timers k t) = tag Lb La t
}.

Lemma timers_ok_ext (k k' : kstate) (Lb La : list Z) :
  k_timers k' = k_timers k -> k_blocked_head k' = k_blocked_head k -> k_active_head k' = k_active_head k ->
  timers_ok k Lb La -> timers_ok k' Lb La.
Proof. intros H1 H2 H3 []. split; by rewrite ?H1, ?H2, ?H3. Qed.

Lemma sorted_ext (tm tm' : Z -> SoftwareTimer) (l : list Z) :
  (forall t, t ∈ l -> expiry_tick (tm' t) = expiry_tick (tm t)) ->
  StronglySorted (by_expiry tm) l -> StronglySorted (by_expiry tm') l.
Proof.
  intros Hex. induction 1 as [|x l Hl IH Hx]; constructor; [apply IH; intros u Hu; apply Hex; by right|].
  apply Forall_forall. intros u Hu. unfold by_expiry. rewrite !Hex by (by left || by right).
  by apply (proj1 (Forall_forall _ _) Hx).
Qed.

Lemma sorted_insert (tm : Z -> SoftwareTimer) (e t : Z) (l : list Z) :
  expiry_tick (tm t) = e -> StronglySorted (by_expiry tm) l ->
  StronglySorted (by_expiry tm) (timer_insert (fun u => expiry_tick (tm u)) e t l).
Proof.
  intros He. induction 1 as [|x l Hl IH Hx]; cbn; [repeat constructor|].
  destruct (Z.ltb_spec e (expiry_tick (tm x))) as [Hlt|Hge].
  - constructor; [by constructor|]. apply Forall_cons. unfold by_expiry. split; [lia|].
    eapply Forall_impl; [exact Hx|]. unfold by_expiry. intros u Hu. cbn in *. lia.
  - constructor; [done|]. apply Forall_forall. intros u Hu. apply elem_of_timer_insert in Hu as [->|Hu].
    + unfold by_expiry. lia.
    + by apply (proj1 (Forall_forall _ _) Hx).
Qed.

Lemma sorted_filter (tm : Z -> SoftwareTimer) (P : Z -> Prop) `{!forall x, Decision (P x)} (l : list Z) :
  StronglySorted (by_expiry tm) l -> StronglySorted (by_expiry tm) (filter P l).
Proof.
  induction 1 as [|x l Hl IH Hx]; [constructor|]. rewrite filter_cons. case_decide; [|done].
  constructor; [done|]. apply Forall_forall. intros u [_ Hu]%list_elem_of_filter.
  by apply (proj1 (Forall_forall _ _) Hx).
Qed.

Lemma timer_insert_ext (ex ex' : Z -> Z) (e t : Z) (l : list Z) :
  (forall u, u ∈ l -> ex u = ex' u) -> timer_insert ex e t l = timer_insert ex' e t l.
Proof.
  induction l as [|x l IH]; intros Hex; cbn; [done|]. rewrite Hex by (by left).
  case_match; [done|]. rewrite IH; [done|]. intros u Hu. apply Hex. by right.
Qed.

(** Arming a timer that is in no list, at the expiry its field holds. *)
Lemma arm_ok (fuel : nat) (t : Z) (Lb La : list Z) (k : kstate) (e : Z) :
  timers_ok k Lb La -> t ∉ Lb -> t ∉ La -> (length Lb <= fuel)%nat ->
  let k0 := k <| k_timers ::= fun g => <[t := (g t) <| expiry_tick := e |>]> g |> in
  exists tm' hd', let k' := k <| k_timers := tm' |> <| k_blocked_head := hd' |> in
    software_timer_add_to_blocked_list fuel t k0 = Ret tt k' /\
    timers_ok k' (timer_insert (fun u => expiry_tick (k_timers k u)) e t Lb) La /\
    (forall u, tm' u = (if decide (u = t) then (k_timers k t) <| expiry_tick := e |> <| list_id := TIMER_LIST_BLOCKED |>
                        else k_timers k u) <| t_next := t_next (tm' u) |>).
Proof.
  intros [Hb Ha Hnd Hs Htag] Htb Hta Hf k0.
  assert (forall u, k_timers k0 u = if decide (t = u) then (k_timers k t) <| expiry_tick := e |> else k_timers k u)
    as Hk0 by done.
  assert (forall h l, t ∉ l -> tchain (k_timers k) h l -> tchain (k_timers k0) h l) as Hext.
  { intros h l Hn. apply tchain_ext. intros u Hu. rewrite Hk0, decide_False; [done|]. by intros ->. }
  pose proof (proj1 (NoDup_app _ _) Hnd) as (Hndb & Hdis & Hnda).
  destruct (insert_eq fuel t Lb k0 (Hext _ _ Htb Hb) Hndb Htb Hf) as (tm' & hd' & Heq & Hc & Hu & Ht).
  assert (expiry_tick (k_timers k0 t) = e) as He0 by (by rewrite Hk0, decide_True).
  cbv zeta in Hc. rewrite He0 in Hc. rewrite Hk0, decide_True in Ht by done.
  assert (timer_insert (fun u => expiry_tick (k_timers k0 u)) e t Lb =
          timer_insert (fun u => expiry_tick (k_timers k u)) e t Lb) as Hins.
  { apply timer_insert_ext. intros u Hin. rewrite Hk0, decide_False; [done|]. by intros ->. }
  rewrite Hins in Hc.
  assert (forall u, tm' u = (if decide (u = t) then (k_timers k t) <| expiry_tick := e |> <| list_id := TIMER_LIST_BLOCKED |>
                        else k_timers k u) <| t_next := t_next (tm' u) |>) as Hall.
  { intros u. destruct (decide (u = t)) as [->|Hne]; [exact Ht|].
    destruct (Hu u Hne) as [Hx _]. rewrite Hx at 1. by rewrite Hk0, decide_False. }
  exists tm', hd'. split; [exact Heq|]. split; [|exact Hall].
  split; cbn.
  - exact Hc.
  - eapply tchain_ext; [|exact Ha]. intros u Hua. destruct (Hu u) as [_ Hx]; [by intros ->|].
    rewrite Hx, Hk0, decide_False; [done|by intros ->|]. intros Hub. by apply (Hdis u).
  - apply NoDup_app. split_and!; [| |done].
    + clear - Hndb Htb. induction Hndb as [|x l Hx Hl IH]; cbn; [by repeat constructor; set_solver|].
      case_match; repeat constructor; try set_solver. rewrite elem_of_timer_insert. set_solver.
    + intros u. rewrite elem_of_timer_insert. set_solver.
  - rewrite (timer_insert_ext _ (fun u => expiry_tick (tm' u))).
    + apply sorted_insert; [by rewrite Hall, decide_True|]. apply (sorted_ext (k_timers k)); [|done].
      intros u Hin. rewrite Hall, decide_False; [done|]. by intros ->.
    + intros u Hin. rewrite Hall, decide_False; [done|]. by intros ->.
  - intros u. rewrite Hall. cbn. unfold tag. 
    destruct (decide (u = t)) as [->|Hne]; cbn.
    + rewrite decide_True; [done|]. rewrite elem_of_timer_insert. by left.
    + rewrite Htag. unfold tag. pose proof (elem_of_timer_insert (fun u => expiry_tick (k_timers k u)) e t u Lb).
      repeat case_decide; tauto.
Qed.

(** ** Operations on well-formed timers *)

(** The state after the soonest timer [t] has been moved to the active list. *)
Definition popped (t : Z) (k : kstate) : kstate :=
  k <| k_timers ::= fun g => <[t := (g t) <| t_next := k_active_head k |> <| list_id := TIMER_LIST_ACTIVE |>]> g |>
    <| k_blocked_head := t_next (k_timers k t) |> <| k_active_head := Some t |>.

Lemma pop_eq (fuel : nat) (t : Z) (Lb La : list Z) (k : kstate) :
  timers_ok k (t :: Lb) La ->
  software_timer_pop_to_active fuel t k = Ret tt (popped t k) /\ timers_ok (popped t k) Lb (t :: La).
Proof.
  intros [[Hhd Hb] Ha Hnd Hs Htag]. cbn [app] in Hnd. apply NoDup_cons in Hnd as [Ht Hnd].
  assert (forall h l, t ∉ l -> tchain (k_timers k) h l -> tchain (k_timers (popped t k)) h l) as Hext.
  { intros h l Hn. apply tchain_ext. intros u Hu. cbn. rewrite fn_lookup_insert_ne; [done|]. by intros ->. }
  split.
  - unfold software_timer_pop_to_active, software_timer_unlink.
    etrans; [apply (bind_ret _ _ _ true (k <| k_blocked_head := t_next (k_timers k t) |>
               <| k_timers ::= fun g => <[t := (g t) <| t_next := None |>]> g |>))|].
    { exec. exec. cbn [list_head]. by rewrite Hhd, decide_True. }
    cbn [when]. exec. exec. exec. unfold upd_timer, modify. f_equal. unfold popped. cbn.
    by rewrite !fn_insert_insert, !fn_lookup_insert.
  - apply StronglySorted_inv in Hs as [Hs _]. split.
    + apply Hext; [set_solver|exact Hb].
    + split; [done|]. cbn. rewrite fn_lookup_insert. apply (Hext _ La); [set_solver|exact Ha].
    + apply NoDup_app in Hnd as (H1 & H2 & H3). apply NoDup_app. split_and!; [done| |].
      * intros u Hu [->|Hua]%elem_of_cons; [set_solver|]. by apply (H2 u).
      * apply NoDup_cons. split; [set_solver|done].
    + eapply sorted_ext; [|exact Hs]. intros u Hu. cbn. rewrite fn_insert_lookup. by case_decide; subst.
    + intros u. cbn. rewrite fn_insert_lookup. unfold tag. case_decide; subst.
      * rewrite decide_False by set_solver. rewrite decide_True by (by left). done.
      * rewrite Htag. unfold tag. repeat case_decide; set_solver.
Qed.

(** What survives a tick: the timers' schedules. *)
Definition schedules (tm : Z -> SoftwareTimer) (t : Z) : Z * Z * TimerMode * option Z :=
  (expiry_tick (tm t), period (tm t), timer_mode (tm t), callback (tm t)).

Lemma tick_stop (fuel : nat) (me now : Z) (Lb La : list Z) (k : kstate) :
  timers_ok k Lb La -> (forall t, head Lb = Some t -> now < expiry_tick (k_timers k t)) ->
  software_timer_tick fuel me now k = Ret tt k /\ filter (fun t => expiry_tick (k_timers k t) <= now) Lb = [] /\
  filter (fun t => now < expiry_tick (k_timers k t)) Lb = Lb.
Proof.
  intros [Hb _ _ Hs _] Hh. destruct Lb as [|t Lb].
  - cbn in Hb. split; [|done]. destruct fuel; cbn [software_timer_tick]; exec; by rewrite Hb.
  - pose proof (Hh t eq_refl) as Ht. destruct Hb as [Hhd _]. apply StronglySorted_inv in Hs as [Hs Hx].
    assert (Forall (fun u => now < expiry_tick (k_timers k u)) (t :: Lb)) as Hall.
    { apply Forall_cons. split; [done|]. eapply Forall_impl; [exact Hx|]. unfold by_expiry. cbn. lia. }
    split_and!.
    + destruct fuel; cbn [software_timer_tick]; exec; rewrite Hhd; exec; by rewrite (proj2 (Z.leb_gt _ _)).
    + apply filter_none. eapply Forall_impl; [exact Hall|]. cbn. lia.
    + by apply filter_all.
Qed.

Lemma tick_loop (me now : Z) (Lb : list Z) : forall (fuel : nat) (La : list Z) (k : kstate) (Q : queues),
  timers_ok k Lb La -> sched_inv [] k Q -> sem_ok k Q SemTimer -> k_held k = [] -> (length Lb <= fuel)%nat ->
  count (k_sem k SemTimer) + Z.of_nat (length Lb) < max_count (k_sem k SemTimer) ->
  let due t := expiry_tick (k_timers k t) <= now in
  exists k' Q', software_timer_tick fuel me now k = Ret tt k' /\
    timers_ok k' (filter (fun t => now < expiry_tick (k_timers k t)) Lb) (rev (filter due Lb) ++ La) /\
    sched_inv [] k' Q' /\ sem_ok k' Q' SemTimer /\ k_held k' = [] /\
    (forall t, schedules (k_timers k') t = schedules (k_timers k) t) /\
    count (k_sem k' SemTimer) - Z.of_nat (length (Q' (LSem SemTimer))) =
      count (k_sem k SemTimer) - Z.of_nat (length (Q (LSem SemTimer))) + Z.of_nat (length (filter due Lb)).
Proof.
  induction Lb as [|t Lb IH]; intros fuel La k Q Hok HI Hs Hh Hf Hroom due.
  - destruct (tick_stop fuel me now [] La k Hok ltac:(done)) as (Heq & _ & _).
    exists k, Q. split_and!; try done. cbn. lia.
  - destruct (Z.le_gt_cases (expiry_tick (k_timers k t)) now) as [Hdue|Hlate].
    + destruct fuel as [|fuel]; [cbn in Hf; lia|]. cbn [length] in Hf, Hroom.
      destruct (pop_eq fuel t Lb La k Hok) as [Heq1 Hok1]. set (k1 := popped t k) in *.
      destruct (semaphore_give_moves me SemTimer k1 Q HI Hs Hh) as (k2 & Q2 & Heq2 & Hg).
      { change (k_sem k1) with (k_sem k). lia. }
      pose proof (gave_ok SemTimer k1 k2 Q Q2 Hs ltac:(change (k_sem k1) with (k_sem k); lia) Hg SemTimer Hs) as Hs2.
      destruct Hg as [HI2 Hh2 _ _ _ _ (Ht2 & Hb2 & Ha2) Hsem2 Hw2 _].
      assert (forall u, schedules (k_timers k2) u = schedules (k_timers k) u) as Hsch.
      { intros u. rewrite Ht2. unfold schedules, k1. cbn. rewrite fn_insert_lookup. by case_decide; subst. }
      assert (forall u, expiry_tick (k_timers k2 u) = expiry_tick (k_timers k u)) as Hex
        by (intros u; by injection (Hsch u)).
      assert (timers_ok k2 Lb (t :: La)) as Hok2 by (by apply (timers_ok_ext k1)).
      assert (count (k_sem k2 SemTimer) = count (k_sem k SemTimer) + 1 - woken Q SemTimer) as Hc2.
      { rewrite Hsem2, fn_lookup_insert. done. }
      assert (max_count (k_sem k2 SemTimer) = max_count (k_sem k SemTimer)) as Hm2.
      { rewrite Hsem2, fn_lookup_insert. done. }
      destruct (IH fuel (t :: La) k2 Q2 Hok2 HI2 Hs2 Hh2) as (k' & Q' & Heq & Hok' & HI' & Hs' & Hh' & Hsch' & Hcnt);
        [lia|rewrite Hc2, Hm2; unfold woken; destruct (Q _); lia|].
      exists k', Q'. split_and!; try done.
      * cbn [software_timer_tick]. destruct Hok as [[Hhd _] _ _ _ _]. exec. rewrite Hhd. exec.
        rewrite (proj2 (Z.leb_le _ _)) by done. exec_with Heq1. exec_with Heq2. exact Heq.
      * rewrite filter_cons_False by lia. unfold due. rewrite filter_cons_True by done. cbn [rev].
        rewrite <- app_assoc. cbn [app].
        rewrite (filter_ext_in (fun t => now < expiry_tick (k_timers k t)) (fun t => now < expiry_tick (k_timers k2 t))),
          (filter_ext_in (fun t => expiry_tick (k_timers k t) <= now) (fun t => expiry_tick (k_timers k2 t) <= now));
          [done|intros; by rewrite Hex|intros; by rewrite Hex].
      * intros u. by rewrite Hsch'.
      * rewrite Hcnt, Hc2, Hw2, decide_True by done. unfold due.
        rewrite (filter_cons_True _ t) by done. cbn [length].
        rewrite (filter_ext_in (fun t => expiry_tick (k_timers k t) <= now) (fun t => expiry_tick (k_timers k2 t) <= now))
          by (intros; by rewrite Hex).
        unfold woken. destruct (Q (LSem SemTimer)); cbn [tail length]; lia.
    + destruct (tick_stop fuel me now (t :: Lb) La k Hok) as (Heq & H1 & H2).
      { intros u [= <-]. lia. }
      exists k, Q. unfold due. rewrite H1, H2. split_and!; try done. cbn. lia.
Qed.

Lemma timer_nodup (k : kstate) (Lb La : list Z) :
  timers_ok k Lb La -> NoDup Lb /\ NoDup La /\ forall t, t ∈ Lb -> t ∉ La.
Proof. intros [_ _ (H1 & H2 & H3)%NoDup_app _ _]. by split_and!. Qed.

(** Taking [t] off whichever list it is in; its tag is left to the caller. *)
Lemma unlink_tagged_eq (fuel : nat) (t : Z) (Lb La : list Z) (k : kstate) :
  timers_ok k Lb La -> (length Lb <= fuel)%nat -> (length La <= fuel)%nat ->
  exists tm' hb ha, let k' := k <| k_timers := tm' |> <| k_blocked_head := hb |> <| k_active_head := ha |> in
    unlink_tagged fuel t k = Ret tt k' /\
    timers_ok (k' <| k_timers ::= fun g => <[t := (g t) <| list_id := TIMER_LIST_NONE |>]> g |>)
      (filter (fun u => u <> t) Lb) (filter (fun u => u <> t) La) /\
    (forall u, tm' u = (k_timers k u) <| t_next := t_next (tm' u) |>).
Proof.
  intros Hok Hfb Hfa. destruct (timer_nodup k Lb La Hok) as (Hnb & Hna & Hdis).
  destruct Hok as [Hb Ha Hnd Hs Htag].
  assert (forall tm' hb ha, tchain tm' hb (filter (fun u => u <> t) Lb) ->
    tchain tm' ha (filter (fun u => u <> t) La) ->
    (forall u, tm' u = (k_timers k u) <| t_next := t_next (tm' u) |>) ->
    timers_ok (k <| k_timers := tm' |> <| k_blocked_head := hb |> <| k_active_head := ha |>
                <| k_timers ::= fun g => <[t := (g t) <| list_id := TIMER_LIST_NONE |>]> g |>)
      (filter (fun u => u <> t) Lb) (filter (fun u => u <> t) La)) as Hwrap.
  { intros tm' hb ha Hcb Hca Hu.
    assert (forall h l, tchain tm' h (filter (fun u => u <> t) l) ->
      tchain (<[t := (tm' t) <| list_id := TIMER_LIST_NONE |>]> tm') h (filter (fun u => u <> t) l)) as Hext.
    { intros h l. apply tchain_ext. intros u [Hne _]%list_elem_of_filter. by rewrite fn_lookup_insert_ne. }
    split; [by apply Hext|by apply Hext| | |].
    - apply NoDup_app. split_and!; [by apply NoDup_filter| |by apply NoDup_filter].
      intros u [_ Hub]%list_elem_of_filter [_ Hua]%list_elem_of_filter. by apply (Hdis u).
    - apply (sorted_ext (k_timers k)); [|by apply sorted_filter].
      intros u [Hne _]%list_elem_of_filter. cbn. rewrite fn_lookup_insert_ne by done. by rewrite Hu.
    - intros u. cbn. rewrite fn_insert_lookup.
      assert (forall l, u ∈ filter (fun u => u <> t) l <-> u <> t /\ u ∈ l) as Hf
        by (intros l; apply (list_elem_of_filter (fun u => u <> t))).
      pose proof (Hf Lb). pose proof (Hf La). clear Hf. unfold tag. case_decide as He.
      + subst u. rewrite !decide_False by tauto. done.
      + rewrite Hu. cbn. rewrite Htag. unfold tag. repeat case_decide; try done; exfalso; naive_solver. }
  assert (forall l : list Z, t ∉ l -> filter (fun u => u <> t) l = l) as Hout.
  { intros l Hn. apply filter_all, Forall_forall. intros u Hu ->. done. }
  assert (forall u, k_timers k u = (k_timers k u) <| t_next := t_next (k_timers k u) |>) as Hid
    by (intros u; by destruct (k_timers k u)).
  unfold unlink_tagged. specialize (Htag t) as Ht. unfold tag in Ht.
  destruct (decide (t ∈ Lb)) as [Hin|Hnb']; [|destruct (decide (t ∈ La)) as [Hin|Hna']].
  - destruct (unlink_eq fuel BlockedTimers t Lb k Hb Hnb Hin Hfb) as (tm' & hd' & Heq & Hc & Hr & _).
    exists tm', hd', (k_active_head k). split_and!.
    + exec. rewrite Ht. etrans; [eapply bind_ret; exact Heq|]. by destruct k.
    + apply Hwrap; [done| |by intros u; apply Hr]. rewrite Hout by (by apply Hdis).
      eapply tchain_ext; [|exact Ha]. intros u Hu. destruct (Hr u) as [_ ->]; [done|]. intros Hub. by apply (Hdis u).
    + intros u. apply Hr.
  - destruct (unlink_eq fuel ActiveTimers t La k Ha Hna Hin Hfa) as (tm' & hd' & Heq & Hc & Hr & _).
    exists tm', (k_blocked_head k), hd'. split_and!.
    + exec. rewrite Ht. etrans; [eapply bind_ret; exact Heq|]. by destruct k.
    + apply Hwrap; [|done|by intros u; apply Hr]. rewrite Hout by done.
      eapply tchain_ext; [|exact Hb]. intros u Hu. destruct (Hr u) as [_ ->]; [done|]. by apply Hdis.
    + intros u. apply Hr.
  - exists (k_timers k), (k_blocked_head k), (k_active_head k). split_and!.
    + exec. rewrite Ht. unfold mret, M_mret. f_equal. by destruct k.
    + apply Hwrap; [by rewrite Hout|by rewrite Hout|done].
    + done.
Qed.

(** The state behind a critical section that changed only the timers. *)
Definition timers_changed (k : kstate) (tm' : Z -> SoftwareTimer) (hb ha : option Z) : kstate :=
  k <| k_timers := tm' |> <| k_blocked_head := hb |> <| k_active_head := ha |>.

Lemma stop_eq (fuel : nat) (me t : Z) (Lb La : list Z) (k : kstate) :
  timers_ok k Lb La -> (length Lb <= fuel)%nat -> (length La <= fuel)%nat ->
  exists tm' hb ha, software_timer_stop fuel me (Some t) k = Ret E_OK (timers_changed k tm' hb ha) /\
    timers_ok (timers_changed k tm' hb ha) (filter (fun u => u <> t) Lb) (filter (fun u => u <> t) La) /\
    (forall u, schedules tm' u = schedules (k_timers k) u).
Proof.
  intros Hok Hfb Hfa. set (k0 := k <| k_irq_masked ::= fun f => <[me := true]> f |>).
  assert (timers_ok k0 Lb La) as Hok0 by (by apply (timers_ok_ext k)).
  destruct (unlink_tagged_eq fuel t Lb La k0 Hok0 Hfb Hfa) as (tm' & hb & ha & Heq & Hok' & Hu).
  eexists (<[t := (tm' t) <| list_id := TIMER_LIST_NONE |>]> tm'), hb, ha. split_and!.
  - unfold software_timer_stop. exec. exec_with Heq. exec. exec. unfold mret, M_mret. f_equal.
    unfold timers_changed, k0. cbn. rewrite fn_insert_insert, (fn_insert_id (k_irq_masked k)) by done. done.
  - eapply timers_ok_ext; [..|exact Hok']; done.
  - intros u. unfold schedules. rewrite fn_insert_lookup. case_decide; subst; cbn; by rewrite Hu.
Qed.

(** Inserting sets the tag, whatever it was. *)
Lemma insert_tag (fuel : nat) (t : Z) (id : TimerListId) (k : kstate) :
  software_timer_add_to_blocked_list fuel t (k <| k_timers ::= fun g => <[t := (g t) <| list_id := id |>]> g |>) =
  software_timer_add_to_blocked_list fuel t k.
Proof.
  unfold software_timer_add_to_blocked_list. unfold mbind at 1, M_mbind at 1. symmetry.
  unfold mbind at 1, M_mbind at 1. cbn -[insert_walk mbind]. by rewrite fn_insert_insert, fn_lookup_insert.
Qed.

Lemma reset_eq (fuel : nat) (me t now : Z) (Lb La : list Z) (k : kstate) :
  timers_ok k Lb La -> (length Lb <= fuel)%nat -> (length La <= fuel)%nat ->
  s_tick_count (k_cores k me) = Some now ->
  let e := u64 (now + period (k_timers k t)) in
  exists tm' hb ha, software_timer_reset fuel me (Some t) k = Ret E_OK (timers_changed k tm' hb ha) /\
    timers_ok (timers_changed k tm' hb ha)
      (timer_insert (fun u => expiry_tick (k_timers k u)) e t (filter (fun u => u <> t) Lb))
      (filter (fun u => u <> t) La) /\
    expiry_tick (tm' t) = e /\ (forall u, u <> t -> schedules tm' u = schedules (k_timers k) u).
Proof.
  intros Hok Hfb Hfa Hnow e. set (k0 := k <| k_irq_masked ::= fun f => <[me := true]> f |>).
  assert (timers_ok k0 Lb La) as Hok0 by (by apply (timers_ok_ext k)).
  destruct (unlink_tagged_eq fuel t Lb La k0 Hok0 Hfb Hfa) as (tm1 & hb & ha & Heq & Hok1 & Hu).
  cbv zeta in Heq, Hok1. set (k1 := k0 <| k_timers := tm1 |> <| k_blocked_head := hb |> <| k_active_head := ha |>) in *.
  set (k2 := k1 <| k_timers ::= _ |>) in *.
  assert (length (filter (fun u => u <> t) Lb) <= fuel)%nat as Hf2.
  { etrans; [apply length_filter|done]. }
  destruct (arm_ok fuel t _ _ k2 e Hok1) as (tm3 & hd3 & Heq3 & Hok3 & Hu3);
    [rewrite list_elem_of_filter; tauto|rewrite list_elem_of_filter; tauto|done|].
  exists tm3, hd3, ha. split_and!.
  - unfold software_timer_reset. exec. exec_with Heq.
    etrans; [apply (bind_ret _ _ _ now k1)|].
    { unfold scheduler_get_tick_count. unfold_K. cbn. by rewrite Hnow. }
    exec. etrans; [eapply bind_ret; etrans; [|exact Heq3]|].
    + rewrite <- (insert_tag fuel t TIMER_LIST_NONE). f_equal. unfold k2. cbn.
      rewrite !fn_insert_insert, !fn_lookup_insert. unfold e. cbn. by rewrite Hu.
    + exec. unfold mret, M_mret. f_equal.
      unfold timers_changed, k2, k1, k0. cbn. rewrite fn_insert_insert, (fn_insert_id (k_irq_masked k)) by done. done.
  - erewrite timer_insert_ext; [eapply timers_ok_ext; [..|exact Hok3]; done|].
    intros u [Hne _]%list_elem_of_filter. cbn. rewrite fn_lookup_insert_ne by done. by rewrite Hu.
  - by rewrite Hu3, decide_True.
  - intros u Hne. unfold schedules. rewrite Hu3, decide_False by done. cbn.
    rewrite fn_lookup_insert_ne by done. by rewrite Hu.
Qed.

(** Creating a timer that is in no list, from a task: it is armed at once. *)
Lemma create_eq (fuel : nat) (me t p now : Z) (cb : option Z) (mode : TimerMode) (c : tcb) (Lb La : list Z) (k : kstate) :
  timers_ok k Lb La -> t ∉ Lb -> t ∉ La -> (length Lb <= fuel)%nat -> p <> 0 ->
  k_current k me = Some c -> s_tick_count (k_cores k me) = Some now ->
  let e := u64 (now + p) in
  exists tm' hb, let k' := timers_changed k tm' hb (k_active_head k) in
    software_timer_create fuel me (Some t) p cb mode k = Ret E_OK k' /\
    timers_ok k' (timer_insert (fun u => expiry_tick (k_timers k u)) e t Lb) La /\
    schedules tm' t = (e, p, mode, cb) /\ (forall u, u <> t -> schedules tm' u = schedules (k_timers k) u).
Proof.
  intros Hok Htb Hta Hf Hp Hcur Hnow e.
  set (r := mkSoftwareTimer 0 p mode cb TIMER_LIST_NONE None).
  set (k0 := k <| k_timers ::= fun g => <[t := r]> g |> <| k_irq_masked ::= fun f => <[me := true]> f |>).
  assert (timers_ok k0 Lb La) as Hok0.
  { destruct Hok as [Hb Ha Hnd Hs Htag].
    assert (forall u, u <> t -> k_timers k0 u = k_timers k u) as Hu
      by (intros u Hu; cbn; by rewrite fn_lookup_insert_ne).
    split; [| |done| |].
    - eapply tchain_ext; [|exact Hb]. intros u Hin. rewrite Hu; [done|]. by intros ->.
    - eapply tchain_ext; [|exact Ha]. intros u Hin. rewrite Hu; [done|]. by intros ->.
    - eapply sorted_ext; [|exact Hs]. intros u Hin. rewrite Hu; [done|]. by intros ->.
    - intros u. cbn. rewrite fn_insert_lookup. case_decide; [|apply Htag]. subst. unfold tag.
      by rewrite !decide_False. }
  destruct (arm_ok fuel t Lb La k0 e Hok0 Htb Hta Hf) as (tm' & hd' & Heq & Hok' & Hu).
  exists tm', hd'. split_and!.
  - unfold software_timer_create. rewrite (proj2 (Z.eqb_neq p 0)) by done.
    set (k9 := k <| k_timers ::= fun g => <[t := r]> g |>).
    etrans; [apply (bind_ret _ _ _ tt k9); reflexivity|].
    etrans; [apply (bind_ret _ _ _ (Some c) k9)|].
    { unfold scheduler_get_current_task. unfold_K. cbn. by rewrite Hcur. }
    rewrite bool_decide_true by done. cbn [when].
    etrans; [apply (bind_ret _ _ _ tt (timers_changed k tm' hd' (k_active_head k)))|done].
    etrans; [apply (bind_ret _ _ _ (k_irq_masked k me) k0); reflexivity|].
    etrans; [apply (bind_ret _ _ _ now k0)|].
    { unfold scheduler_get_tick_count. unfold_K. cbn. by rewrite Hnow. }
    exec. etrans; [eapply bind_ret; exact Heq|].
    unfold exit_critical, modify, timers_changed, k0. f_equal. cbn.
    rewrite fn_insert_insert, (fn_insert_id (k_irq_masked k)) by done. done.
  - erewrite timer_insert_ext; [eapply timers_ok_ext; [..|exact Hok']; done|].
    intros u Hin. cbn. rewrite fn_lookup_insert_ne; [done|]. by intros ->.
  - unfold schedules. rewrite Hu, decide_True by done. cbn. by rewrite fn_lookup_insert.
  - intros u Hne. unfold schedules. rewrite Hu, decide_False by done. cbn. by rewrite fn_lookup_insert_ne.
Qed.

(** The service task pops the newest expired timer. *)
Lemma service_pop_eq (me t : Z) (Lb La : list Z) (k : kstate) :
  timers_ok k Lb (t :: La) ->
  exists tm' ha, service_pop me k = Ret (Some t) (timers_changed k tm' (k_blocked_head k) ha) /\
    timers_ok (timers_changed k tm' (k_blocked_head k) ha) Lb La /\ (t ∉ Lb) /\ (t ∉ La) /\
    (forall u, schedules tm' u = schedules (k_timers k) u).
Proof.
  intros [Hb [Hhd Ha] Hnd Hs Htag].
  apply NoDup_app in Hnd as (Hnb & Hd & [Hta Hna]%NoDup_cons).
  assert (t ∉ Lb) as Htb by (intros Hin; apply (Hd t Hin); by left).
  set (r := (k_timers k t) <| t_next := None |> <| list_id := TIMER_LIST_NONE |>).
  assert (forall u, u <> t -> (<[t := r]> (k_timers k) : Z -> SoftwareTimer) u = k_timers k u) as Hu
    by (intros u Hne; by rewrite fn_lookup_insert_ne).
  exists (<[t := r]> (k_timers k)), (t_next (k_timers k t)). split_and!; [| |done|done|].
  - unfold service_pop. etrans; [apply (bind_ret _ _ _ (k_irq_masked k me)
      (k <| k_irq_masked ::= fun f => <[me := true]> f |>)); reflexivity|].
    etrans; [apply (bind_ret _ _ _ (Some t) (k <| k_irq_masked ::= fun f => <[me := true]> f |>))|].
    { unfold_K. cbn. by rewrite Hhd. }
    unfold_K. unfold set_head, exit_critical, modify, timers_changed. cbn. f_equal.
    rewrite fn_insert_insert, (fn_insert_id (k_irq_masked k)) by done. done.
  - split; cbn.
    + eapply tchain_ext; [|exact Hb]. intros u Hin. rewrite Hu; [done|]. by intros ->.
    + eapply tchain_ext; [|exact Ha]. intros u Hin. rewrite Hu; [done|]. by intros ->.
    + apply NoDup_app. split_and!; [done| |done]. intros u Hin Hin2. apply (Hd u Hin). by right.
    + eapply sorted_ext; [|exact Hs]. intros u Hin. rewrite Hu; [done|]. by intros ->.
    + intros u. rewrite fn_insert_lookup. unfold tag. case_decide as He.
      * subst. by rewrite !decide_False.
      * rewrite Htag. unfold tag. repeat case_decide; set_solver.
  - intros u. unfold schedules. rewrite fn_insert_lookup. by case_decide; subst.
Qed.

Lemma service_pop_none (me : Z) (k : kstate) : k_active_head k = None -> service_pop me k = Ret None k.
Proof.
  intros Hh. unfold service_pop. etrans; [apply (bind_ret _ _ _ (k_irq_masked k me)
      (k <| k_irq_masked ::= fun f => <[me := true]> f |>)); reflexivity|].
  etrans; [apply (bind_ret _ _ _ None (k <| k_irq_masked ::= fun f => <[me := true]> f |>))|].
  { unfold_K. cbn. by rewrite Hh. }
  unfold_K. unfold exit_critical, modify. cbn. rewrite fn_insert_insert, (fn_insert_id (k_irq_masked k)) by done. by destruct k.
Qed.

Lemma service_rearm_oneshot (fuel : nat) (me t : Z) (k : kstate) :
  timer_mode (k_timers k t) <> TIMER_MODE_PERIODIC -> service_rearm fuel me t k = Ret tt k.
Proof. intros Hm. unfold service_rearm. exec. by rewrite bool_decide_eq_false_2. Qed.

(** What a callback on [t] must leave: the lists intact, [t] in neither, its
    schedule unchanged.  It may create, stop and reset other timers. *)
Definition callback_ok (fuel : nat) (fn : Z -> Z -> K unit) (t : Z) : Prop :=
  forall f k Lb La, timers_ok k Lb La -> t ∉ Lb -> t ∉ La -> (length Lb <= fuel)%nat ->
  returns (fn f t) k (fun _ k' => exists Lb' La', timers_ok k' Lb' La' /\ (t ∉ Lb') /\ (t ∉ La') /\
    (length Lb' <= fuel)%nat /\ schedules (k_timers k') t = schedules (k_timers k) t).

Lemma rearm_eq (fuel : nat) (me t : Z) (Lb La : list Z) (k : kstate) :
  timers_ok k Lb La -> t ∉ Lb -> t ∉ La -> (length Lb <= fuel)%nat ->
  timer_mode (k_timers k t) = TIMER_MODE_PERIODIC ->
  let e := u64 (expiry_tick (k_timers k t) + period (k_timers k t)) in
  exists tm' hb, let k' := timers_changed k tm' hb (k_active_head k) in
    service_rearm fuel me t k = Ret tt k' /\
    timers_ok k' (timer_insert (fun u => expiry_tick (k_timers k u)) e t Lb) La /\
    expiry_tick (tm' t) = e.
Proof.
  intros Hok Htb Hta Hf Hmode e. set (k0 := k <| k_irq_masked ::= fun f => <[me := true]> f |>).
  assert (timers_ok k0 Lb La) as Hok0 by (by apply (timers_ok_ext k)).
  destruct (arm_ok fuel t Lb La k0 e Hok0 Htb Hta Hf) as (tm' & hd' & Heq & Hok' & Hu).
  exists tm', hd'. split_and!.
  - unfold service_rearm. exec. rewrite Hmode, bool_decide_true by done. cbn [when].
    etrans; [apply (bind_ret _ _ _ (k_irq_masked k me) k0); reflexivity|]. exec.
    etrans; [eapply bind_ret; exact Heq|].
    unfold exit_critical, modify, timers_changed, k0. f_equal. cbn.
    rewrite fn_insert_insert, (fn_insert_id (k_irq_masked k)) by done. done.
  - eapply timers_ok_ext; [..|exact Hok']; done.
  - by rewrite Hu, decide_True.
Qed.

(** Initialisation, from a state where no timer is in a list. *)
Lemma timer_init_eq (k : kstate) (Q : queues) :
  sched_inv [] k Q -> k_held k = [] -> Q (LSem SemTimer) = [] ->
  (forall t, list_id (k_timers k t) = TIMER_LIST_NONE) ->
  exists k', software_timer_init k = Ret E_OK k' /\ timers_ok k' [] [] /\ sched_inv [] k' Q /\
    sem_ok k' Q SemTimer /\ k_held k' = [] /\ k_cores k' = k_cores k /\ k_current k' = k_current k.
Proof.
  intros HI Hh Hq Htag. set (ki := k <| k_blocked_head := None |> <| k_active_head := None |>).
  destruct (semaphore_init_eq SemTimer SEMAPHORE_MAX_COUNT_UNLIMITED 0 timer_sem_name ki Q HI Hh Hq
    ltac:(done) ltac:(done)) as (te & id & Heq & HI' & Hs').
  eexists. split.
  { unfold software_timer_init. exec. exec. etrans; [eapply bind_ret; exact Heq|]. reflexivity. }
  split_and!; [|exact HI'|exact Hs'|exact Hh|done|done].
  split; [done|done|apply NoDup_nil_2|apply SSorted_nil|exact Htag].
Qed.

(** ** Properties *)

(** C22: a tick moves exactly the timers whose expiry has come from the
    blocked to the active list, keeps the order of the ones that have not, and
    signals the service task once per expired timer: the semaphore's count
    less its waiters goes up by their number.  No timer's schedule changes,
    and the list, scheduling and semaphore invariants are kept. *)
Theorem timer_tick_expires (fuel : nat) (me now : Z) (Lb La : list Z) (k : kstate) (Q : queues) :
  timers_ok k Lb La -> sched_inv [] k Q -> sem_ok k Q SemTimer -> k_held k = [] -> (length Lb <= fuel)%nat ->
  count (k_sem k SemTimer) + Z.of_nat (length Lb) < max_count (k_sem k SemTimer) ->
  let due t := expiry_tick (k_timers k t) <= now in
  returns (software_timer_tick fuel me now) k (fun _ k' => exists Q',
    timers_ok k' (filter (fun t => now < expiry_tick (k_timers k t)) Lb) (rev (filter due Lb) ++ La) /\
    sched_inv [] k' Q' /\ sem_ok k' Q' SemTimer /\ k_held k' = [] /\
    (forall t, schedules (k_timers k') t = schedules (k_timers k) t) /\
    count (k_sem k' SemTimer) - Z.of_nat (length (Q' (LSem SemTimer))) =
      count (k_sem k SemTimer) - Z.of_nat (length (Q (LSem SemTimer))) + Z.of_nat (length (filter due Lb))).
Proof.
  intros Hok HI Hs Hh Hf Hroom due.
  destruct (tick_loop me now Lb fuel La k Q Hok HI Hs Hh Hf Hroom) as (k' & Q' & Heq & Hk').
  unfold returns. rewrite Heq. by exists Q'.
Qed.

(** Periodic timers do not drift.  A turn of the service task takes one
    expired timer off the active list and calls its callback; a periodic
    timer is then armed again exactly one period after the expiry it had,
    however late the service task ran, and a one-shot timer stays unarmed.
    The callback may create, stop and reset other timers. *)
Theorem service_turn_drift_free (fuel : nat) (me t : Z) (fn : Z -> Z -> K unit) (Lb La : list Z) (k : kstate) :
  timers_ok k Lb (t :: La) -> callback_ok fuel fn t -> (length Lb <= fuel)%nat ->
  returns (software_timer_service_turn fuel me fn) k (fun _ k' => exists Lb' La',
    timers_ok k' Lb' La' /\ (t ∉ La') /\
    match timer_mode (k_timers k t) with
    | TIMER_MODE_PERIODIC =>
        t ∈ Lb' /\ expiry_tick (k_timers k' t) = u64 (expiry_tick (k_timers k t) + period (k_timers k t))
    | TIMER_MODE_ONE_SHOT => (t ∉ Lb') /\ list_id (k_timers k' t) = TIMER_LIST_NONE
    end).
Proof.
  intros Hok Hcb Hf. destruct (service_pop_eq me t Lb La k Hok) as (tm1 & ha & Heq & Hok1 & Htb & Hta & Hsch).
  set (k1 := timers_changed k tm1 (k_blocked_head k) ha) in *.
  unfold software_timer_service_turn. apply returns_bind. unfold returns at 1. rewrite Heq.
  step. step. step. eapply returns_mono with (Q := fun _ k' => exists Lb' La', timers_ok k' Lb' La' /\
    (t ∉ Lb') /\ (t ∉ La') /\ (length Lb' <= fuel)%nat /\ schedules (k_timers k') t = schedules tm1 t).
  { destruct (callback (k_timers k1 t)) as [f|].
    - by apply (Hcb f k1 Lb La).
    - step. by exists Lb, La. }
  intros _ k2 (Lb2 & La2 & Hok2 & Htb2 & Hta2 & Hf2 & Hsch2). rewrite Hsch in Hsch2.
  injection Hsch2 as He Hp Hm Hc. rewrite <- Hm.
  destruct (timer_mode (k_timers k2 t)) eqn:Hmode.
  - unfold service_rearm. step. step. rewrite Hmode. cbn. exists Lb2, La2. split_and!; try done.
    rewrite (tk_tags _ _ _ Hok2). unfold tag. by rewrite !decide_False.
  - destruct (rearm_eq fuel me t Lb2 La2 k2 Hok2 Htb2 Hta2 Hf2 Hmode) as (tm3 & hb3 & Heq3 & Hok3 & He3).
    unfold returns. rewrite Heq3. eexists _, _. split; [exact Hok3|]. split; [done|].
    split; [apply elem_of_timer_insert; by left|]. by rewrite <- He, <- Hp.
Qed.

(** [software_timer_reset] on every input.  NULL is refused.  Any other
    timer, whether it was unarmed, counting down or already expired, leaves
    the list it was in and is armed to expire one period from now, behind the
    timers that expire no later; no other timer's schedule changes, and
    nothing outside the timer lists does. *)
Theorem timer_reset_rearms (fuel : nat) (me now : Z) (timer : option Z) (Lb La : list Z) (k : kstate) :
  timers_ok k Lb La -> (length Lb <= fuel)%nat -> (length La <= fuel)%nat ->
  s_tick_count (k_cores k me) = Some now ->
  returns (software_timer_reset fuel me timer) k (fun r k' =>
    match timer with
    | None => r = E_INVALID_ARGS /\ k' = k
    | Some t =>
        let e := u64 (now + period (k_timers k t)) in
        r = E_OK /\ expiry_tick (k_timers k' t) = e /\
        timers_ok k' (timer_insert (fun u => expiry_tick (k_timers k u)) e t (filter (fun u => u <> t) Lb))
          (filter (fun u => u <> t) La) /\
        (forall u, u <> t -> schedules (k_timers k') u = schedules (k_timers k) u) /\
        k' = timers_changed k (k_timers k') (k_blocked_head k') (k_active_head k')
    end).
Proof.
  intros Hok Hfb Hfa Hnow. destruct timer as [t|]; [|done].
  destruct (reset_eq fuel me t now Lb La k Hok Hfb Hfa Hnow) as (tm' & hb & ha & Heq & Hok' & He & Hu).
  unfold returns. rewrite Heq. by split_and!.
Qed.

(** A stopped timer stays silent.  [software_timer_stop] takes the timer
    off whichever list it is in, so no later tick expires it and no turn of
    the service task calls it; other timers keep their places. *)
Theorem timer_stop_cancels (fuel : nat) (me : Z) (timer : option Z) (Lb La : list Z) (k : kstate) :
  timers_ok k Lb La -> (length Lb <= fuel)%nat -> (length La <= fuel)%nat ->
  returns (software_timer_stop fuel me timer) k (fun r k' =>
    match timer with
    | None => r = E_INVALID_ARGS /\ k' = k
    | Some t =>
        r = E_OK /\ list_id (k_timers k' t) = TIMER_LIST_NONE /\
        timers_ok k' (filter (fun u => u <> t) Lb) (filter (fun u => u <> t) La) /\
        (forall u, schedules (k_timers k') u = schedules (k_timers k) u) /\
        k' = timers_changed k (k_timers k') (k_blocked_head k') (k_active_head k')
    end).
Proof.
  intros Hok Hfb Hfa. destruct timer as [t|]; [|done].
  destruct (stop_eq fuel me t Lb La k Hok Hfb Hfa) as (tm' & hb & ha & Heq & Hok' & Hu).
  unfold returns. rewrite Heq. split_and!; try done. rewrite (tk_tags _ _ _ Hok'). unfold tag.
  rewrite !decide_False; [done|..]; intros [Hne _]%list_elem_of_filter; done.
Qed.

(** ** A concrete run: a periodic and a one-shot timer on [demo] *)

Definition demo_t0 : kstate := final software_timer_init demo.
Definition demo_t1 : kstate :=
  final (software_timer_create 4 1 (Some 0) 5 (Some 0xA000) TIMER_MODE_PERIODIC) demo_t0.
Definition demo_timers : kstate :=
  final (software_timer_create 4 1 (Some 1) 3 None TIMER_MODE_ONE_SHOT) demo_t1.

Lemma demo_tags (t : Z) : list_id (k_timers demo t) = TIMER_LIST_NONE.
Proof. vm_compute. reflexivity. Qed.

Lemma demo_t0_ok :
  exists k', demo_t0 = k' /\ timers_ok k' [] [] /\ sched_inv [] k' demo_Q /\ sem_ok k' demo_Q SemTimer /\
    k_held k' = [] /\ k_cores k' = k_cores demo /\ k_current k' = k_current demo.
Proof.
  destruct (timer_init_eq demo demo_Q demo_inv demo_held eq_refl demo_tags) as (k' & Heq & Hk').
  exists k'. split; [exact (final_eq _ _ _ _ Heq : demo_t0 = k')|exact Hk'].
Qed.

Lemma demo_timers_ok :
  timers_ok demo_timers [1; 0] [] /\ sched_inv [] demo_timers demo_Q /\ sem_ok demo_timers demo_Q SemTimer /\
  k_held demo_timers = [].
Proof.
  destruct demo_t0_ok as (k0 & H0 & Hok & HI & Hs & Hh & Hco & Hcu). pose proof demo_current as Hc. pose proof (proj2 (proj2 (proj2 demo_ticking))) as Ht.
  rewrite <- Hcu in Hc. rewrite <- Hco in Ht. clear Hcu Hco.
  destruct (create_eq 4 1 0 5 0 (Some 0xA000) TIMER_MODE_PERIODIC (Pool 1 0) [] [] k0 Hok)
    as (tm1 & hb1 & Heq1 & Hok1 & Hs1 & _);
    [apply not_elem_of_nil|apply not_elem_of_nil|repeat constructor|discriminate|exact Hc|exact Ht|].
  assert (demo_t1 = timers_changed k0 tm1 hb1 (k_active_head k0)) as H1.
  { unfold demo_t1. rewrite H0. exact (final_eq _ _ _ _ Heq1). }
  set (k1 := timers_changed k0 tm1 hb1 (k_active_head k0)) in *.
  destruct (create_eq 4 1 1 3 0 None TIMER_MODE_ONE_SHOT (Pool 1 0) [0] [] k1)
    as (tm2 & hb2 & Heq2 & Hok2 & _);
    [exact Hok1|apply not_elem_of_cons; split; [discriminate|apply not_elem_of_nil]|apply not_elem_of_nil|
     repeat constructor|discriminate|exact Hc|exact Ht|].
  assert (demo_timers = timers_changed k1 tm2 hb2 (k_active_head k1)) as H2.
  { unfold demo_timers. rewrite H1. exact (final_eq _ _ _ _ Heq2). }
  rewrite H2.
  split; [|split; [exact HI|split; [exact Hs|exact Hh]]].
  assert (expiry_tick (k_timers k1 0) = 5) as He by (by injection Hs1).
  cbv zeta in Hok2. cbn [timer_insert] in Hok2. rewrite He in Hok2. exact Hok2.
Qed.

Lemma demo_timers_room : count (k_sem demo_timers SemTimer) + 2 < max_count (k_sem demo_timers SemTimer).
Proof. by vm_compute. Qed.
Lemma demo_timers_expiry :
  expiry_tick (k_timers demo_timers 0) = 5 /\ expiry_tick (k_timers demo_timers 1) = 3 /\
  s_tick_count (k_cores demo_timers 1) = Some 0 /\ period (k_timers demo_timers 0) = 5.
Proof. split_and!; by vm_compute. Qed.

Lemma timer_tick_expires_witness :
  returns (software_timer_tick 2 1 4) demo_timers (fun _ k' => timers_ok k' [0] [1]).
Proof.
  destruct demo_timers_ok as (Hok & HI & Hs & Hh). destruct demo_timers_expiry as (H0 & H1 & _).
  eapply returns_mono; [apply (timer_tick_expires 2 1 4 [1; 0] [] demo_timers demo_Q Hok HI Hs Hh);
    [cbn; lia|exact demo_timers_room]|].
  cbv beta. intros _ k' (Q' & Hok' & _). rewrite !filter_cons, !filter_nil in Hok'. rewrite H0, H1 in Hok'. exact Hok'.
Defined.

(** [demo_timers] with the periodic timer expired, at tick 9. *)
Definition demo_fired : kstate := final (software_timer_tick 2 1 9) demo_timers.

Lemma demo_fired_ok : timers_ok demo_fired [] [0; 1].
Proof.
  destruct demo_timers_ok as (Hok & HI & Hs & Hh). destruct demo_timers_expiry as (H0 & H1 & _).
  destruct (tick_loop 1 9 [1; 0] 2 [] demo_timers demo_Q Hok HI Hs Hh ltac:(cbn; lia) demo_timers_room)
    as (k' & Q' & Heq & Hok' & _).
  rewrite (final_eq _ _ _ _ Heq : demo_fired = k'). rewrite !filter_cons, !filter_nil in Hok'.
  rewrite H0, H1 in Hok'. exact Hok'.
Qed.
Lemma demo_fired_timer :
  expiry_tick (k_timers demo_fired 0) = 5 /\ period (k_timers demo_fired 0) = 5 /\
  timer_mode (k_timers demo_fired 0) = TIMER_MODE_PERIODIC.
Proof. split_and!; by vm_compute. Qed.

Lemma service_turn_drift_free_witness :
  returns (software_timer_service_turn 4 1 (fun _ _ => mret tt)) demo_fired (fun _ k' =>
    expiry_tick (k_timers k' 0) = 10).
Proof.
  pose proof demo_fired_ok as Hok. destruct demo_fired_timer as (He & Hp & Hm).
  eapply returns_mono; [apply (service_turn_drift_free 4 1 0 (fun _ _ => mret tt) [] [1] demo_fired Hok);
    [|cbn; lia]|].
  - intros f k Lb La Hk Hb Ha Hf. apply returns_ret. exists Lb, La. by split_and!.
  - cbv beta. intros _ k' (Lb' & La' & _ & _ & Hk'). rewrite Hm, He, Hp in Hk'. exact (proj2 Hk').
Defined.

Lemma timer_reset_rearms_witness :
  returns (software_timer_reset 4 1 (Some 1)) demo_timers (fun r k' =>
    r = E_OK /\ expiry_tick (k_timers k' 1) = 3).
Proof.
  destruct demo_timers_ok as (Hok & _). destruct demo_timers_expiry as (_ & _ & Ht & _).
  assert (period (k_timers demo_timers 1) = 3) as Hp by by vm_compute.
  eapply returns_mono; [apply (timer_reset_rearms 4 1 0 (Some 1) [1; 0] [] demo_timers Hok);
    [cbn; lia|cbn; lia|exact Ht]|].
  cbv beta. intros r k' (-> & He & _). rewrite Hp in He. exact (conj eq_refl He).
Defined.

Lemma timer_stop_cancels_witness :
  returns (software_timer_stop 4 1 (Some 1)) demo_timers (fun r k' => timers_ok k' [0] []).
Proof.
  destruct demo_timers_ok as (Hok & _).
  eapply returns_mono; [apply (timer_stop_cancels 4 1 (Some 1) [1; 0] [] demo_timers Hok); cbn; lia|].
  cbv beta. intros r k' (_ & _ & Hok' & _). exact Hok'.
Defined.

(** ** Callbacks that touch their own timer

    The service task re-arms a periodic timer after its callback whatever the
    callback did.  A callback that stops its own timer does not stop it... *)
Lemma stop_in_callback_rearmed :
  returns (software_timer_service_turn 4 1 (fun _ t => software_timer_stop 4 1 (Some t);; mret tt)) demo_fired
    (fun _ k' => list_id (k_timers k' 0) = TIMER_LIST_BLOCKED /\ k_blocked_head k' = Some 0).
Proof. vm_compute. split; reflexivity. Qed.

(** ...and one that resets its own timer puts it on the blocked list twice:
    the timer becomes its own successor. *)
Lemma reset_in_callback_loops :
  returns (software_timer_service_turn 4 1 (fun _ t => software_timer_reset 4 1 (Some t);; mret tt)) demo_fired
    (fun _ k' => k_blocked_head k' = Some 0 /\ t_next (k_timers k' 0) = Some 0).
Proof. vm_compute. split; reflexivity. Qed.
