(* ===== verification/System.v ===== *)
(** * The kernel under load

    Tasks on every core, each making any of the kernel's calls whenever it is
    its turn; timer interrupts and interrupt handlers at any moment between
    the calls' critical sections: every interleaving is a list of [event]s.
    A task is known by where it stands in the kernel ([place]); which call it
    makes next is the event's choice, so what is proved of all event lists
    holds of every application.

    The unit of interleaving is the critical section: what a call does under
    the object's lock with interrupts off is one step. *)

From S2P Require Import Prelude Types Dll Telemetry Kernel Stack Invariant Scheduler Heap Task SchedulerThm Semaphore Mutex SoftTimer.

(** ** State *)

(** Where a task stands: in its own code; about to enter [block_until]; in the
    spin of [block_until], of [mutex_lock] or of [semaphore_take]; at the top
    of the loop of [semaphore_take]. *)
Inductive place :=
  | PRun
  | PBlock (wakeup : Z)
  | PDelay
  | PLock (m timeout_ms : Z)
  | PTry (s : semref) (timeout_ms deadline : Z)
  | PTake (s : semref) (timeout_ms deadline : Z).

(** [w_holds] is what the tasks know: the mutexes they locked and have not
    unlocked.  [w_given] and [w_taken] count the calls that returned E_OK. *)
Record world := mkWorld {
  w_k : kstate;
  w_at : tcb -> place;
  w_holds : list (tcb * Z);
  w_given : semref -> Z;
  w_taken : semref -> Z
}.
#[export] Instance eta_world : Settable world :=
  fun r => mkWorld (w_k r) (w_at r) (w_holds r) (w_given r) (w_taken r).

Abbreviation W := (M world).

Definition on_k {A} (m : K A) : W A := zoom w_k (fun k w => w <| w_k := k |>) m.
Definition go (t : tcb) (p : place) : W unit := modify (fun w => w <| w_at ::= <[t := p]> |>).

(** ** Calls *)

(** What tasks do to the software timers: the API, and the two halves of a turn
    of the service task. *)
Inductive timer_op :=
  | TCreate (t period : Z) (cb : option Z) (mode : TimerMode)
  | TStop (t : Z)
  | TReset (t : Z)
  | TPop
  | TRearm (t : Z).

(** More than there are timers. *)
Definition timer_fuel : nat := 64.

Definition run_timer (c : Z) (op : timer_op) : K StatusCode :=
  match op with
  | TCreate t p cb mode => software_timer_create timer_fuel c (Some t) p cb mode
  | TStop t => software_timer_stop timer_fuel c (Some t)
  | TReset t => software_timer_reset timer_fuel c (Some t)
  | TPop => service_pop c;; mret E_OK
  | TRearm t => service_rearm timer_fuel c t;; mret E_OK
  end.

Inductive call :=
  | CDelay (ticks : Z)                       (* task_delay_ms *)
  | CDelayUntil (last period : Z)            (* task_delay_until_ms *)
  | CLock (m timeout_ms : Z)
  | CUnlock (m : Z)
  | CTake (s : semref) (timeout_ms : Z)
  | CGive (s : semref)
  | CTimer (op : timer_op).

(** The initialised mutexes, semaphores and timers, with the semaphores' initial
    counts and bounds. *)
Record objects := mkObjects { ob_mtx : list Z; ob_sem : list semref; ob_init : semref -> Z * Z; ob_timers : list Z }.

(** The rules of mutex.h: a task does not lock a mutex it holds, and unlocks
    only a mutex it holds.  Objects are initialised before they are used.  A
    timer is not created or re-armed while it is on a list. *)
Definition allowed (ob : objects) (t : tcb) (o : call) (w : world) : bool :=
  match o with
  | CDelay _ | CDelayUntil _ _ => true
  | CLock m _ => bool_decide (m ∈ ob_mtx ob) && bool_decide ((t, m) ∉ w_holds w)
  | CUnlock m => bool_decide ((t, m) ∈ w_holds w)
  | CTake s _ | CGive s => bool_decide (s ∈ ob_sem ob)
  | CTimer (TCreate t p _ _) => bool_decide (t ∈ ob_timers ob) && bool_decide (list_id (k_timers (w_k w) t) = TIMER_LIST_NONE)
  | CTimer (TStop t) | CTimer (TReset t) => bool_decide (t ∈ ob_timers ob)
  | CTimer TPop => true
  | CTimer (TRearm t) => bool_decide (t ∈ ob_timers ob) && bool_decide (list_id (k_timers (w_k w) t) = TIMER_LIST_NONE)
  end.

Definition acquired (t : tcb) (m : Z) : W unit := modify (fun w => w <| w_holds ::= cons (t, m) |>).
Definition released (t : tcb) (m : Z) : W unit := modify (fun w => w <| w_holds ::= filter (fun x => x <> (t, m)) |>).
Definition took (s : semref) : W unit := modify (fun w => w <| w_taken ::= fun f => <[s := f s + 1]> f |>).
Definition gave_one (s : semref) : W unit := modify (fun w => w <| w_given ::= fun f => <[s := f s + 1]> f |>).

Definition give (c : Z) (s : semref) : W StatusCode :=
  r ← on_k (semaphore_give c s);
  (if decide (r = E_OK) then gave_one s else mret tt);;
  mret r.

(** The first step of a call.  The result is the code the call returns with
    (E_OK for a void function), or [None] while it is still under way. *)
Definition enter (c : Z) (t : tcb) (o : call) : W (option StatusCode) :=
  match o with
  | CDelay ticks =>
      now ← on_k (scheduler_get_tick_count c);
      go t (PBlock (u64 (now + ticks)));;
      mret None
  | CDelayUntil last period =>
      let next_wake := u64 (last + period) in
      on_k (now ← scheduler_get_tick_count c;
            when (next_wake <? now) (console Messages.task_overrun [u32 (now - next_wake); u32 period]));;
      go t (PBlock next_wake);;
      mret None
  | CLock m timeout_ms =>
      r ← on_k (mutex_lock c m timeout_ms);
      match r with
      | Done code => (if decide (code = E_OK) then acquired t m else mret tt);; mret (Some code)
      | Spin => go t (PLock m timeout_ms);; mret None
      end
  | CUnlock m => on_k (mutex_unlock c m);; released t m;; mret (Some E_OK)
  | CTake s timeout_ms =>
      dc ← on_k (semaphore_take_start c timeout_ms);
      go t (PTry s timeout_ms dc.1);;
      mret None
  | CGive s => r ← give c s; mret (Some r)
  | CTimer op => r ← on_k (run_timer c op); mret (Some r)
  end.

(** The next step of a call that has begun. *)
Definition resume (c : Z) (t : tcb) (p : place) : W (option StatusCode) :=
  match p with
  | PRun => mret None
  | PBlock wakeup => on_k (block_until c wakeup);; go t PDelay;; mret None
  | PDelay => go t PRun;; mret (Some E_OK)
  | PLock m _ =>
      r ← on_k (mutex_lock_resume c m t);
      (if decide (r = E_OK) then acquired t m else mret tt);;
      go t PRun;;
      mret (Some r)
  | PTry s timeout_ms deadline =>
      r ← on_k (semaphore_try c s timeout_ms deadline t);
      match r with
      | Done code => (if decide (code = E_OK) then took s else mret tt);; go t PRun;; mret (Some code)
      | Spin => go t (PTake s timeout_ms deadline);; mret None
      end
  | PTake s timeout_ms deadline =>
      r ← on_k (semaphore_resume c s t);
      match r with
      | Done code => (if decide (code = E_OK) then took s else mret tt);; go t PRun;; mret (Some code)
      | Spin => go t (PTry s timeout_ms deadline);; mret None
      end
  end.

(** ** Steps *)

Inductive event :=
  | ECall (c : Z) (o : call)       (* the task of core [c] makes a call *)
  | EStep (c : Z)                  (* the task of core [c] goes on in its call *)
  | ETick (c cntpct : Z)           (* the timer interrupt of core [c] *)
  | EGive (c : Z) (s : semref).    (* an interrupt handler on core [c] gives *)

(** [software_timer_tick], with the gives on the books. *)
Fixpoint expire (fuel : nat) (c now_tick : Z) : W unit :=
  hd ← on_k (gets k_blocked_head);
  match hd with
  | None => mret tt
  | Some t =>
      e ← on_k (gets (fun k => expiry_tick (k_timers k t)));
      if e <=? now_tick then
        match fuel with
        | O => on_k (stop NoFuel)
        | S fuel' =>
            on_k (software_timer_pop_to_active fuel' t);;
            give c SemTimer;;
            expire fuel' c now_tick
        end
      else mret tt
  end.

(** The IRQ handler (startup.s) runs the tick handler, whose hook on core 0 is
    [software_timer_tick], then switches. *)
Definition timer_interrupt (c cntpct : Z) : W unit :=
  on_k (timer_tick_handler (H := weak_hooks) c cntpct);;
  (if c =? 0 then now ← on_k (scheduler_get_tick_count c); expire timer_fuel c now else mret tt);;
  on_k (scheduler_switch_context c).

Section steps.
Context (ob : objects).

(** The task of core [c], unless it spins or is the idle task. *)
Definition active (c : Z) (w : world) : option tcb :=
  match k_current (w_k w) c with
  | Some (Pool i n) =>
      if decide (current_state (k_tcbs (w_k w) (Pool i n)) = TASK_STATE_BLOCKED) then None else Some (Pool i n)
  | _ => None
  end.

(** An event that is not possible in a state leaves it as it is. *)
Definition step_event (e : event) : W unit := fun w =>
  match e with
  | ECall c o =>
      match active c w with
      | Some t =>
          match w_at w t with
          | PRun => if allowed ob t o w then (enter c t o;; mret tt) w else Ret tt w
          | _ => Ret tt w
          end
      | None => Ret tt w
      end
  | EStep c => match active c w with Some t => (resume c t (w_at w t);; mret tt) w | None => Ret tt w end
  | ETick c cntpct =>
      match k_current (w_k w) c with
      | Some _ => timer_interrupt c cntpct w
      | None => Ret tt w
      end
  | EGive c s => if decide (s ∈ ob_sem ob) then (give c s;; mret tt) w else Ret tt w
  end.

Fixpoint run (es : list event) : W unit :=
  match es with [] => mret tt | e :: es' => step_event e;; run es' end.
End steps.

(** ** The interrupt is the code's

    Without the books, [timer_interrupt] is the handler with the timers' hook,
    followed by the switch. *)
Definition erases {A} (m : W A) (n : K A) : Prop := forall w,
  match m w with Ret a w' => n (w_k w) = Ret a (w_k w') | Stop r w' => n (w_k w) = Stop r (w_k w') end.

Lemma erases_on_k {A} (n : K A) : erases (on_k n) n.
Proof. intros w. unfold on_k, zoom. by destruct (n (w_k w)). Qed.

Lemma erases_bind {A B} (m : W A) (n : K A) (f : A -> W B) (g : A -> K B) :
  erases m n -> (forall a, erases (f a) (g a)) -> erases (m ≫= f) (n ≫= g).
Proof.
  intros Hm Hf w. specialize (Hm w). unfold mbind, M_mbind. destruct (m w) as [a w'|r w']; rewrite Hm; [|done]. apply Hf.
Qed.

Lemma erases_give c s : erases (give c s) (semaphore_give c s).
Proof.
  intros w. unfold give, on_k, zoom, gave_one, mbind, M_mbind. destruct (semaphore_give c s (w_k w)) as [r k|r k]; [|done].
  by destruct (decide (r = E_OK)).
Qed.

Lemma erases_ret {A} (a : A) : erases (mret a) (mret a).
Proof. by intros w. Qed.

Lemma erases_expire c now : forall fuel, erases (expire fuel c now) (SoftTimer.software_timer_tick fuel c now).
Proof.
  induction fuel as [|fuel IH]; cbn [expire SoftTimer.software_timer_tick]; (apply erases_bind; [apply erases_on_k|]); intros [t|];
    try apply erases_ret; (apply erases_bind; [apply erases_on_k|]); intros e; (destruct (e <=? now); [|apply erases_ret]).
  - apply erases_on_k.
  - apply erases_bind; [apply erases_on_k|]. intros _. apply erases_bind; [apply erases_give|]. by intros _.
Qed.

Lemma handler_split `{Hooks} c cntpct k : timer_tick_handler c cntpct k =
  (timer_tick_handler (H := weak_hooks) c cntpct;;
   (if c =? 0 then now ← scheduler_get_tick_count c; Scheduler.software_timer_tick c now else mret tt)) k.
Proof.
  assert (forall kk : kstate, scheduler_get_tick_count c kk =
            match s_tick_count (k_cores kk c) with Some n => Ret n kk | None => Stop Fault kk end) as Hcount.
  { intros kk. unfold scheduler_get_tick_count. unfold_K. cbn. by destruct (s_tick_count _). }
  unfold timer_tick_handler, mbind, M_mbind.
  repeat match goal with
    | |- context [match ?m ?s with Ret _ _ => _ | Stop _ _ => _ end] =>
        lazymatch m with if _ then _ else _ => fail | scheduler_get_tick_count _ => fail | _ => destruct (m s); try done end
    | |- context [if ?b =? 0 then stop Fault else _] => destruct (b =? 0); try done
    | |- context [match s_tick_count ?x with _ => _ end] => destruct (s_tick_count x) eqn:?; try done
    | |- context [scheduler_get_tick_count c ?s] => rewrite (Hcount s)
    end.
  destruct (c =? 0); [|done]. cbv beta. rewrite !Hcount.
  match goal with |- context [match s_tick_count ?x with _ => _ end] => destruct (s_tick_count x) eqn:Hn end; [|done].
  change (Scheduler.software_timer_tick (Hooks := weak_hooks)) with (fun (_ _ : Z) => mret tt : K unit). cbn. by rewrite Hcount, Hn.
Qed.

Lemma timer_interrupt_erases c cntpct start :
  erases (timer_interrupt c cntpct) (timer_tick_handler (H := timer_hooks timer_fuel start) c cntpct;; scheduler_switch_context c).
Proof.
  intros w. assert (forall k, (timer_tick_handler (H := timer_hooks timer_fuel start) c cntpct;; scheduler_switch_context c) k =
    (timer_tick_handler (H := weak_hooks) c cntpct;;
     (if c =? 0 then now ← scheduler_get_tick_count c; SoftTimer.software_timer_tick timer_fuel c now else mret tt);;
     scheduler_switch_context c) k) as Hassoc.
  { intros k. unfold mbind at 1, M_mbind at 1. rewrite handler_split. unfold mbind, M_mbind.
    by destruct (timer_tick_handler c cntpct k). }
  rewrite Hassoc. revert w. apply erases_bind; [apply erases_on_k|]. intros _. apply erases_bind; [|intros _; apply erases_on_k].
  destruct (c =? 0); [|apply erases_ret]. apply erases_bind; [apply erases_on_k|]. intros now. apply erases_expire.
Qed.

(** ** Invariant *)

(** Places a task reaches only while it is not waiting. *)
Definition awake (p : place) : Prop := match p with PRun | PBlock _ | PTry _ _ _ => True | _ => False end.
Definition taking (s : semref) (p : place) : Prop := match p with PTake s' _ _ => s' = s | _ => False end.
Definition locking (m : Z) (p : place) : Prop := match p with PLock m' _ => m' = m | _ => False end.
#[export] Instance taking_dec s p : Decision (taking s p).
Proof. destruct p; cbn; apply _. Defined.

(** A semaphore's token that was handed to a waiting task, which has not yet
    come back from its call. *)
Definition granted (k : kstate) (at_ : tcb -> place) (s : semref) (t : tcb) : Prop :=
  wakeup_reason (k_tcbs k t) = WAKEUP_REASON_RESOURCE_ACQUIRED /\ taking s (at_ t).
#[export] Instance granted_dec k a s t : Decision (granted k a s t).
Proof. unfold granted. apply _. Defined.

Definition in_flight (k : kstate) (at_ : tcb -> place) (s : semref) : Z :=
  Z.of_nat (length (filter (granted k at_ s) all_tcbs)).

(** Where a BLOCKED task is found: in one of the three spins, and on the
    waiting list of the object it spins for. *)
Definition waits (Q : queues) (t : tcb) (p : place) : Prop :=
  match p with
  | PDelay => True
  | PLock m _ => NEvent t ∈ Q (LMutex m)
  | PTake s _ _ => NEvent t ∈ Q (LSem s)
  | _ => False
  end.

(** Nothing but a hand-over wakes the task. *)
Definition endless (k : kstate) (Q : queues) (t : tcb) : Prop :=
  current_state (k_tcbs k t) = TASK_STATE_BLOCKED /\ forall c, NState t ∉ Q (LBlocked c).

(** The three parts of the invariant: the kernel and the tasks that do not
    wait, the mutexes, the semaphores. *)
Record base_ok (ts : list Z) (k : kstate) (Q : queues) (at_ : tcb -> place) : Prop := {
  bo_sched : sched_inv [] k Q;
  bo_locks : k_held k = [];
  bo_stacks : forall t, live k t -> watermark_word k t = Some TASK_WATERMARK;
  bo_cores : forall c t, k_current k c = Some t -> live k (Idle c) /\ exists now, ticking k c now;
  bo_waits : forall t, live k t -> current_state (k_tcbs k t) = TASK_STATE_BLOCKED -> waits Q t (at_ t);
  bo_timers : exists Lb La, timers_ok k Lb La /\ forall t, t ∈ Lb ++ La -> t ∈ ts
}.

Record mutexes_ok (ms : list Z) (k : kstate) (Q : queues) (at_ : tcb -> place) (holds : list (tcb * Z)) : Prop := {
  mo_ok : forall m, m ∈ ms -> mtx_ok k Q m;
  mo_queue : forall t m, NEvent t ∈ Q (LMutex m) -> locking m (at_ t);
  mo_at : forall t m, locking m (at_ t) -> m ∈ ms;
  mo_holds : forall t m, (t, m) ∈ holds -> m ∈ ms /\ mutex_owner (k_mtx k m) = Some t;
  mo_owner : forall t m, m ∈ ms -> mutex_owner (k_mtx k m) = Some t -> (t, m) ∈ holds \/ locking m (at_ t);
  mo_forever : forall t m x, at_ t = PLock m x -> x < 0 -> mutex_owner (k_mtx k m) = Some t \/ endless k Q t
}.

Record semaphores_ok (ss : list semref) (init : semref -> Z * Z) (k : kstate) (Q : queues) (at_ : tcb -> place)
    (given taken : semref -> Z) : Prop := {
  so_ok : forall s, s ∈ ss -> sem_ok k Q s;
  so_queue : forall t s, NEvent t ∈ Q (LSem s) -> taking s (at_ t) /\ wakeup_reason (k_tcbs k t) = WAKEUP_REASON_NONE;
  so_at : forall t s, taking s (at_ t) \/ (exists x d, at_ t = PTry s x d) -> s ∈ ss;
  so_reason : forall t, wakeup_reason (k_tcbs k t) = WAKEUP_REASON_RESOURCE_ACQUIRED -> exists s, taking s (at_ t);
  so_bound : forall s, s ∈ ss -> max_count (k_sem k s) = (init s).2;
  so_ledger : forall s, s ∈ ss -> count (k_sem k s) + in_flight k at_ s + taken s = (init s).1 + given s
}.

Definition sys_ok (ob : objects) (w : world) : Prop := exists Q,
  base_ok (ob_timers ob) (w_k w) Q (w_at w) /\ mutexes_ok (ob_mtx ob) (w_k w) Q (w_at w) (w_holds w) /\
  semaphores_ok (ob_sem ob) (ob_init ob) (w_k w) Q (w_at w) (w_given w) (w_taken w).

(** ** Frames

    What no call changes, and what the mutex calls change besides the lists. *)
Record still (k k' : kstate) : Prop := {
  st_heap : k_heap k' = k_heap k;
  st_tasks : k_task_counter k' = k_task_counter k;
  st_cores : forall c, idle_stack (k_cores k' c) = idle_stack (k_cores k c) /\ hz (k_cores k' c) = hz (k_cores k c) /\
    s_clk_freq (k_cores k' c) = s_clk_freq (k_cores k c) /\ (s_tick_count (k_cores k' c) = None <-> s_tick_count (k_cores k c) = None);
  st_current : forall c, is_Some (k_current k' c) -> is_Some (k_current k c);
  st_stack : forall u, stack_base (k_tcbs k' u) = stack_base (k_tcbs k u);
  st_timers : k_timers k' = k_timers k /\ k_blocked_head k' = k_blocked_head k /\ k_active_head k' = k_active_head k
}.
#[export] Instance still_preorder : PreOrder still.
Proof.
  split; [done|]. intros k1 k2 k3 [H1 H2 H3 H4 H5 H6] [H1' H2' H3' H4' H5' H6']. split; try congruence.
  - intros c. destruct (H3' c) as (-> & -> & -> & Ht'), (H3 c) as (-> & -> & -> & Ht). by rewrite Ht', Ht.
  - auto.
  - destruct H6' as (-> & -> & ->). exact H6.
Qed.

Lemma still_live k k' t : still k k' -> live k' t <-> live k t.
Proof. intros []. unfold live. rewrite st_tasks0. destruct t as [c i|c]; [done|]. destruct (st_cores0 c) as (_ & _ & _ & ->). done. Qed.

Lemma still_ticking k k' c now : still k k' -> ticking k c now -> exists now', ticking k' c now'.
Proof.
  intros Hst (Hc & Hz & Hclk & Hnow). destruct (st_cores k k' Hst c) as (_ & Hz' & Hclk' & Hn). unfold ticking. rewrite Hz', Hclk'.
  destruct (s_tick_count (k_cores k' c)) as [n|]; [by exists n|]. by rewrite (proj1 Hn) in Hnow.
Qed.

Lemma still_watermark k k' t : still k k' -> watermark_word k' t = watermark_word k t.
Proof.
  intros []. unfold watermark_word. rewrite st_stack0. destruct (stack_base (k_tcbs k t)) as [p|]; [|done].
  destruct p as [o|c i]; cbn; unfold heap_load32; [by rewrite st_heap0|by destruct (st_cores0 c) as (-> & _)].
Qed.

Record mtx_touch (m : Z) (may_block : tcb -> Prop) (k k' : kstate) : Prop := {
  mt_still : still k k';
  mt_sem : k_sem k' = k_sem k;
  mt_mtx : forall m', m' <> m -> k_mtx k' m' = k_mtx k m';
  mt_reason : forall u, wakeup_reason (k_tcbs k' u) = wakeup_reason (k_tcbs k u);
  mt_runnable : forall u, ~ may_block u -> runnable (current_state (k_tcbs k u)) -> runnable (current_state (k_tcbs k' u))
}.
#[export] Instance mtx_touch_preorder m B : PreOrder (mtx_touch m B).
Proof.
  split; [intros k; split; by auto|]. intros k1 k2 k3 [] []. split; [by etrans|congruence|..].
  - intros m' Hm. by rewrite mt_mtx1, mt_mtx0.
  - intros u. by rewrite mt_reason1, mt_reason0.
  - auto.
Qed.

Section mtx_frames.
Context (m : Z) (B : tcb -> Prop).
Abbreviation kp := (keeps ever (mtx_touch m B)).

Lemma kp_dm f : kp (on_dm f). Proof. by intros k. Qed.
Lemma kp_tel f : kp (tel f). Proof. by intros k. Qed.
Lemma kp_enter c : kp (enter_critical c). Proof. by intros k. Qed.
Lemma kp_exit c b : kp (exit_critical c b). Proof. by intros k. Qed.
Lemma kp_release l : kp (spinlock_release l). Proof. by intros k. Qed.
Lemma kp_acquire l : kp (spinlock_acquire l).
Proof. intros k. unfold runs, spinlock_acquire. by destruct (may_acquire l (k_held k)). Qed.
Lemma kp_mtx f : kp (upd_mtx m f).
Proof. intros k. split; try done. intros m' Hm. cbn. by rewrite fn_lookup_insert_ne. Qed.
Lemma kp_deref {A} (p : option A) : kp (deref p).
Proof. intros k. by destruct p. Qed.
Lemma kp_tcb t f : (forall r, stack_base (f r) = stack_base r /\ wakeup_reason (f r) = wakeup_reason r) ->
  B t \/ (forall r, runnable (current_state r) -> runnable (current_state (f r))) -> kp (upd_tcb t f).
Proof.
  intros Hf Hs k. split; try done; [split; try done|..]; cbn; intros u; rewrite fn_insert_lookup; case_decide as He; subst; try done; try apply Hf.
  intros Hb Hr. destruct Hs as [Hs|Hs]; [done|by apply Hs].
Qed.
Lemma kp_lock c : kp (scheduler_lock c).
Proof. unfold scheduler_lock. destruct (core_ok c); [apply kp_acquire|by apply keeps_stop]. Qed.
Lemma kp_unlock c : kp (scheduler_unlock c).
Proof. unfold scheduler_unlock. destruct (core_ok c); [apply kp_release|by apply keeps_stop]. Qed.

#[local] Hint Resolve kp_dm kp_tel kp_enter kp_exit kp_release kp_acquire kp_mtx kp_deref kp_lock kp_unlock : keeps.
#[local] Hint Extern 2 (keeps _ _ (upd_tcb _ _)) =>
  apply kp_tcb; [by intros|first [by left|right; by intros|right; by left|right; by right]] : keeps.

Lemma kp_owner_wakeup n : kp (owner_wakeup n).
Proof. unfold owner_wakeup. keeps. Qed.
#[local] Hint Resolve kp_owner_wakeup : keeps.
Lemma kp_add_ready t : kp (scheduler_add_to_ready_list t).
Proof. unfold scheduler_add_to_ready_list. destruct t; keeps. Qed.
Lemma kp_remove_ready t : kp (scheduler_remove_from_ready_list t).
Proof. unfold scheduler_remove_from_ready_list. destruct t; keeps. Qed.
Lemma kp_walk w n : forall i, kp (blocked_walk n w i).
Proof. induction n as [|n IH]; intros i; cbn [blocked_walk]; [by apply keeps_stop|]. keeps. Qed.
#[local] Hint Resolve kp_walk : keeps.
Lemma kp_add_blocked t w : kp (scheduler_add_to_blocked_list t w).
Proof. unfold scheduler_add_to_blocked_list. destruct t; keeps. Qed.
Lemma kp_remove_blocked t : kp (scheduler_remove_from_blocked_list t).
Proof. unfold scheduler_remove_from_blocked_list. destruct t; keeps. Qed.
#[local] Hint Resolve kp_add_ready kp_remove_ready kp_add_blocked kp_remove_blocked : keeps.
Lemma kp_priority t p : kp (scheduler_change_task_priority t p).
Proof.
  unfold scheduler_change_task_priority. apply keeps_bind; [keeps|]. intros st. cbv zeta. rewrite runnable_bool.
  case_bool_decide as Hr; cbn [when]; keeps.
Qed.
#[local] Hint Resolve kp_priority : keeps.
Lemma kp_locked_priority t p : kp (locked_change_priority t p).
Proof. unfold locked_change_priority. keeps. Qed.
#[local] Hint Resolve kp_locked_priority : keeps.
Lemma kp_tick_count c : kp (scheduler_get_tick_count c).
Proof. unfold scheduler_get_tick_count. keeps. Qed.
Lemma kp_inherit t : kp (mutex_inherit m t).
Proof. unfold mutex_inherit. keeps. Qed.
Lemma kp_leave {A} c b (r : A) : kp (mutex_leave c m b r).
Proof. unfold mutex_leave. keeps. Qed.
Lemma kp_owner_priority n : kp (owner_priority n).
Proof. unfold owner_priority. keeps. Qed.
#[local] Hint Resolve kp_tick_count kp_inherit kp_leave kp_owner_priority : keeps.
Lemma kp_scan n : forall i b s, kp (mutex_scan n i b s).
Proof. induction n as [|n IH]; intros [i|] b s; cbn [mutex_scan]; [by apply keeps_stop|keeps|keeps|keeps]. Qed.
Lemma kp_restore h : kp (mutex_restore_holder m h).
Proof. unfold mutex_restore_holder. keeps. Qed.
Lemma kp_hand_over t : kp (mutex_hand_over m t).
Proof. unfold mutex_hand_over. keeps. Qed.
#[local] Hint Resolve kp_scan kp_restore kp_hand_over : keeps.
Lemma mutex_unlock_touch c : kp (mutex_unlock c m).
Proof. unfold mutex_unlock. keeps. Qed.
Lemma mutex_lock_touch c x : (forall t, B t) -> kp (mutex_lock c m x).
Proof. intros HB. unfold mutex_lock, scheduler_get_current_task, mutex_add_to_blocked_list. keeps. Qed.
Lemma set_inheritance_touch c e : kp (mutex_set_inheritance c m e).
Proof. unfold mutex_set_inheritance. keeps. Qed.
End mtx_frames.

(** ** What a change must respect *)

Lemma base_frame ts k k' Q Q' at_ at_' :
  base_ok ts k Q at_ -> still k k' -> sched_inv [] k' Q' -> k_held k' = [] ->
  (forall t, live k t -> current_state (k_tcbs k' t) = TASK_STATE_BLOCKED -> waits Q' t (at_' t)) -> base_ok ts k' Q' at_'.
Proof.
  intros [] Hst HI Hh Ha. split; try done.
  - intros t Ht. rewrite (still_watermark k k') by done. apply bo_stacks0. by apply (still_live k k').
  - intros c t Ht. destruct (st_current k k' Hst c) as [u Hu]; [by rewrite Ht|].
    destruct (bo_cores0 c u Hu) as [Hi (now & Hc)]. split; [by apply (still_live k k')|by apply (still_ticking k k' c now)].
  - intros t Ht. apply Ha. by apply (still_live k k').
  - destruct bo_timers0 as (Lb & La & Hok & Hin), (st_timers k k' Hst) as (H1 & H2 & H3). exists Lb, La.
    split; [|done]. by apply (timers_ok_ext k).
Qed.

Lemma waits_stay ts k Q Q' at_ t :
  base_ok ts k Q at_ -> live k t -> current_state (k_tcbs k t) = TASK_STATE_BLOCKED ->
  (forall l, sync_list l -> NEvent t ∈ Q l -> NEvent t ∈ Q' l) -> waits Q' t (at_ t).
Proof.
  intros [] Ha Hb Hq. specialize (bo_waits0 t Ha Hb). destruct (at_ t); try done; by apply Hq.
Qed.

(** A task is runnable or BLOCKED. *)
Lemma runnable_or_blocked k Q t : sched_inv [] k Q -> live k t ->
  runnable (current_state (k_tcbs k t)) \/ current_state (k_tcbs k t) = TASK_STATE_BLOCKED.
Proof. intros HI Ha. destruct (si_placed _ _ _ _ _ _ HI t Ha (not_elem_of_nil _)); [by left|by right]. Qed.

Lemma mtx_ok_frame k k' Q Q' m : mtx_ok k Q m -> k_mtx k' m = k_mtx k m -> (forall t, live k t -> live k' t) ->
  (forall n, n ∈ Q' (LMutex m) -> n ∈ Q (LMutex m)) -> mtx_ok k' Q' m.
Proof.
  unfold mtx_ok. intros [Hi Hc] -> Hl Hq. split; [done|]. destruct (mtx_state (k_mtx k m)).
  - destruct Hc as (o & Ho & Hlo & Hno). exists o. split_and!; auto.
  - destruct Hc as [Ho He]. split; [done|]. rewrite He in Hq. destruct (Q' (LMutex m)) as [|n q]; [done|].
    by specialize (Hq n ltac:(by left)); apply elem_of_nil in Hq.
Qed.

Definition same_locks (at_ at_' : tcb -> place) : Prop := forall t m x, at_' t = PLock m x <-> at_ t = PLock m x.

Lemma same_locking at_ at_' t m : same_locks at_ at_' -> locking m (at_' t) <-> locking m (at_ t).
Proof.
  intros Hs. split; intros Hl.
  - destruct (at_' t) as [| | |m' x| |] eqn:Ha; try done. apply Hs in Ha. by rewrite Ha.
  - destruct (at_ t) as [| | |m' x| |] eqn:Ha; try done. apply Hs in Ha. by rewrite Ha.
Qed.

Lemma endless_stays k k' Q Q' t : endless k Q t -> current_state (k_tcbs k' t) = current_state (k_tcbs k t) ->
  (forall c, NState t ∈ Q' (LBlocked c) -> NState t ∈ Q (LBlocked c)) -> endless k' Q' t.
Proof. intros [Hb Hn] Hs Hq. split; [by rewrite Hs|]. intros c Hin%Hq. by apply (Hn c). Qed.

Lemma mutexes_frame ms k k' Q Q' at_ at_' holds :
  mutexes_ok ms k Q at_ holds -> (forall m, m ∈ ms -> k_mtx k' m = k_mtx k m) -> (forall t, live k t -> live k' t) ->
  (forall m n, n ∈ Q' (LMutex m) -> n ∈ Q (LMutex m)) -> same_locks at_ at_' ->
  (forall t m x, at_ t = PLock m x -> endless k Q t -> endless k' Q' t) -> mutexes_ok ms k' Q' at_' holds.
Proof.
  intros [] Hm Hl Hq Ha He. split.
  - intros m Hin. eapply mtx_ok_frame; eauto.
  - intros t m Hin. apply (same_locking at_ at_'); eauto.
  - intros t m Hp%(same_locking at_ at_'); eauto.
  - intros t m Hh. destruct (mo_holds0 t m Hh) as [Hin Ho]. by rewrite Hm.
  - intros t m Hin. rewrite Hm, (same_locking at_ at_') by done. eauto.
  - intros t m x Hp%Ha Hx. rewrite Hm by (apply (mo_at0 t); by rewrite Hp). destruct (mo_forever0 t m x Hp Hx); eauto.
Qed.

(** A change at one mutex. *)
Lemma mutexes_change ms k k' Q Q' at_ at_' holds holds' m :
  mutexes_ok ms k Q at_ holds -> m ∈ ms -> (forall m', m' <> m -> k_mtx k' m' = k_mtx k m') ->
  (forall t, live k t -> live k' t) -> (forall m' n, m' <> m -> n ∈ Q' (LMutex m') -> n ∈ Q (LMutex m')) ->
  (forall t m' x, m' <> m -> at_' t = PLock m' x <-> at_ t = PLock m' x) ->
  (forall t m', m' <> m -> (t, m') ∈ holds' <-> (t, m') ∈ holds) ->
  (forall t m' x, m' <> m -> at_ t = PLock m' x -> endless k Q t -> endless k' Q' t) ->
  mtx_ok k' Q' m -> (forall t, NEvent t ∈ Q' (LMutex m) -> locking m (at_' t)) ->
  (forall t, (t, m) ∈ holds' -> mutex_owner (k_mtx k' m) = Some t) ->
  (forall t, mutex_owner (k_mtx k' m) = Some t -> (t, m) ∈ holds' \/ locking m (at_' t)) ->
  (forall t x, at_' t = PLock m x -> x < 0 -> mutex_owner (k_mtx k' m) = Some t \/ endless k' Q' t) ->
  mutexes_ok ms k' Q' at_' holds'.
Proof.
  intros [] Hin Hm Hl Hq Ha Hh He Hok Hqm Hhm Hom Hfm.
  assert (forall t m', m' <> m -> locking m' (at_' t) <-> locking m' (at_ t)) as Hlk.
  { intros t m' Hne. split; intros Hlk.
    - destruct (at_' t) eqn:Hp; try done. cbn in Hlk. subst. apply Ha in Hp; [|done]. by rewrite Hp.
    - destruct (at_ t) eqn:Hp; try done. cbn in Hlk. subst. apply Ha in Hp; [|done]. by rewrite Hp. }
  split.
  - intros m' Hin'. destruct (decide (m' = m)) as [->|Hne]; [done|]. eapply mtx_ok_frame; eauto.
  - intros t m' Hq'. destruct (decide (m' = m)) as [->|Hne]; [auto|]. apply Hlk; eauto.
  - intros t m' Hp. destruct (decide (m' = m)) as [->|Hne]; [done|]. apply Hlk in Hp; eauto.
  - intros t m' Hp. destruct (decide (m' = m)) as [->|Hne]; [auto|]. apply Hh in Hp; [|done]. rewrite Hm by done. eauto.
  - intros t m' Hin'. destruct (decide (m' = m)) as [->|Hne]; [auto|]. rewrite Hm, Hlk, Hh by done. eauto.
  - intros t m' x Hp Hx. destruct (decide (m' = m)) as [->|Hne]; [eauto|]. apply Ha in Hp; [|done]. rewrite Hm by done.
    destruct (mo_forever0 t m' x Hp Hx); eauto.
Qed.

Lemma in_flight_ext k k' at_ at_' s :
  (forall t, granted k' at_' s t <-> granted k at_ s t) -> in_flight k' at_' s = in_flight k at_ s.
Proof. intros Hg. unfold in_flight. do 2 f_equal. by apply filter_ext_in. Qed.

Lemma sem_ok_frame k k' Q Q' s : sem_ok k Q s -> k_sem k' s = k_sem k s ->
  (forall n, n ∈ Q' (LSem s) -> n ∈ Q (LSem s)) -> sem_ok k' Q' s.
Proof.
  unfold sem_ok. intros (H1 & H2 & H3) -> Hq. split_and!; try lia. intros Hne. apply H3.
  destruct (Q' (LSem s)) as [|n q]; [done|]. specialize (Hq n ltac:(by left)). intros He. rewrite He in Hq. by apply elem_of_nil in Hq.
Qed.

Lemma semaphores_frame ss init k k' Q Q' at_ at_' given taken :
  semaphores_ok ss init k Q at_ given taken -> (forall s, s ∈ ss -> k_sem k' s = k_sem k s) ->
  (forall t, wakeup_reason (k_tcbs k' t) = wakeup_reason (k_tcbs k t)) ->
  (forall s n, n ∈ Q' (LSem s) -> n ∈ Q (LSem s)) -> (forall t s, taking s (at_' t) <-> taking s (at_ t)) ->
  (forall t s x d, at_' t = PTry s x d -> at_ t = PTry s x d \/ s ∈ ss) ->
  semaphores_ok ss init k' Q' at_' given taken.
Proof.
  intros [] Hs Hr Hq Ha Ht. split.
  - intros s Hin. eapply sem_ok_frame; eauto.
  - intros t s Hin. rewrite Ha, Hr. eauto.
  - intros t s [Hp|(x & d & Hp)]; [apply Ha in Hp; eauto|]. destruct (Ht _ _ _ _ Hp); eauto 6.
  - intros t. rewrite Hr. intros (s & Hp)%so_reason0. exists s. by apply Ha.
  - intros s Hin. rewrite Hs by done. eauto.
  - intros s Hin. rewrite Hs by done. rewrite (in_flight_ext k k' at_ at_'); [eauto|]. intros t. unfold granted. by rewrite Hr, Ha.
Qed.

(** A change at one semaphore. *)
Lemma semaphores_change ss init k k' Q Q' at_ at_' given given' taken taken' s :
  semaphores_ok ss init k Q at_ given taken ->
  (forall s', s' <> s -> k_sem k' s' = k_sem k s' /\ given' s' = given s' /\ taken' s' = taken s') ->
  (forall s' n, s' <> s -> n ∈ Q' (LSem s') -> n ∈ Q (LSem s')) ->
  (forall u s', s' <> s -> granted k' at_' s' u <-> granted k at_ s' u) ->
  (forall u s', NEvent u ∈ Q' (LSem s') -> taking s' (at_' u) /\ wakeup_reason (k_tcbs k' u) = WAKEUP_REASON_NONE) ->
  (forall u s', taking s' (at_' u) \/ (exists x d, at_' u = PTry s' x d) -> s' ∈ ss) ->
  (forall u, wakeup_reason (k_tcbs k' u) = WAKEUP_REASON_RESOURCE_ACQUIRED -> exists s', taking s' (at_' u)) ->
  sem_ok k' Q' s -> max_count (k_sem k' s) = max_count (k_sem k s) ->
  (s ∈ ss -> count (k_sem k' s) + in_flight k' at_' s + taken' s - given' s =
     count (k_sem k s) + in_flight k at_ s + taken s - given s) ->
  semaphores_ok ss init k' Q' at_' given' taken'.
Proof.
  intros [] Hs Hq Hg H1 H2 H3 Hok Hmax Hl. split; try done.
  - intros s' Hin. destruct (decide (s' = s)) as [->|Hne]; [done|]. destruct (Hs s' Hne) as (He & _). eapply sem_ok_frame; eauto.
  - intros s' Hin. destruct (decide (s' = s)) as [->|Hne]; [rewrite Hmax; eauto|]. destruct (Hs s' Hne) as (-> & _). eauto.
  - intros s' Hin. specialize (so_ledger0 s' Hin). destruct (decide (s' = s)) as [->|Hne]; [specialize (Hl Hin); lia|].
    destruct (Hs s' Hne) as (-> & -> & ->). rewrite (in_flight_ext k k' at_ at_'); auto.
Qed.

Lemma all_tcbs_nodup : NoDup all_tcbs.
Proof. apply (bool_decide_unpack _). by vm_compute. Qed.

(** ** Tasks at their places *)

Lemma returns_both {S A} (m : M S A) s (P Q : A -> S -> Prop) E : returns m s P -> runs m s Q E -> returns m s (fun a s' => P a s' /\ Q a s').
Proof. unfold returns, runs. by destruct (m s). Qed.

Section places.
Context (ob : objects).
Implicit Types (w : world) (Q : queues).

Definition parts w Q : Prop :=
  base_ok (ob_timers ob) (w_k w) Q (w_at w) /\ mutexes_ok (ob_mtx ob) (w_k w) Q (w_at w) (w_holds w) /\
  semaphores_ok (ob_sem ob) (ob_init ob) (w_k w) Q (w_at w) (w_given w) (w_taken w).

Lemma active_spec w Q c t : parts w Q -> active c w = Some t ->
  can_block (w_k w) c t /\ live (w_k w) t /\ tcb_core t = c /\ exists now, ticking (w_k w) c now.
Proof.
  intros ([HI _ _ Hc _] & _). unfold active. destruct (k_current (w_k w) c) as [[i n|i]|] eqn:Hcur; [|done|done].
  case_decide as Hb; [done|]. intros [= <-]. destruct (si_current _ _ _ _ _ _ HI _ _ Hcur) as [Ha Hcore].
  split_and!; [|done|done|apply (Hc _ _ Hcur)]. split_and!; [done| |done].
  by destruct (si_placed _ _ _ _ _ _ HI _ Ha (not_elem_of_nil _)).
Qed.

(** A task that does not wait is on no waiting list. *)
Lemma awake_not_queued k Q l t : sched_inv [] k Q -> runnable (current_state (k_tcbs k t)) -> sync_list l -> NEvent t ∉ Q l.
Proof.
  intros HI Hr Hl Hin. destruct (member_sync _ _ _ _ _ _ _ _ HI Hl Hin (not_elem_of_nil _)) as (u & [= <-] & _ & Hb).
  by apply (runnable_not_blocked _ Hr).
Qed.

(** A task that does not wait and holds no token goes to a place where it
    does not wait either. *)
Lemma go_ok w Q t p : parts w Q -> live (w_k w) t -> runnable (current_state (k_tcbs (w_k w) t)) ->
  (forall m x, p <> PLock m x) -> (forall s, ~ taking s p) -> (forall s x d, p = PTry s x d -> s ∈ ob_sem ob) ->
  (forall m, locking m (w_at w t) -> mutex_owner (k_mtx (w_k w) m) <> Some t) ->
  wakeup_reason (k_tcbs (w_k w) t) = WAKEUP_REASON_NONE ->
  parts (w <| w_at ::= <[t := p]> |>) Q.
Proof.
  intros ([] & [] & []) Ha Hr Hpl Hpt Hps Hown Hwr.
  assert (forall l, sync_list l -> NEvent t ∉ Q l) as Hnq by (intros l; by apply awake_not_queued with (w_k w)).
  split_and!; split; cbn; try done.
  - intros u Hu Hb. rewrite fn_insert_lookup. case_decide; subst; [by apply (runnable_not_blocked _ Hr) in Hb|auto].
  - intros u m Hq. rewrite fn_lookup_insert_ne; [auto|]. intros <-. by apply Hnq in Hq.
  - intros u m. rewrite fn_insert_lookup. case_decide; subst; [|eauto]. destruct p; try done. by destruct (Hpl m0 timeout_ms).
  - intros u m Hm Ho. rewrite fn_insert_lookup. destruct (mo_owner0 u m Hm Ho) as [|Hat]; [by left|].
    case_decide; subst; [by destruct (Hown m)|by right].
  - intros u m x. rewrite fn_insert_lookup. case_decide; subst; [by intros ?%Hpl|eauto].
  - intros u s Hq. rewrite fn_lookup_insert_ne; [auto|]. intros <-. by apply Hnq in Hq.
  - intros u s. rewrite fn_insert_lookup. case_decide; subst; [|eauto]. intros [?%Hpt|(x & d & ?)]; [done|eauto].
  - intros u Hu. rewrite fn_insert_lookup. case_decide; subst; [congruence|eauto].
  - intros s Hs. rewrite (in_flight_ext (w_k w) (w_k w) (w_at w)); [eauto|]. intros u. unfold granted. rewrite fn_insert_lookup.
    case_decide; subst; [|done]. rewrite Hwr. split; by intros [? _].
Qed.

Lemma parts_awake w Q t : parts w Q -> live (w_k w) t -> awake (w_at w t) -> runnable (current_state (k_tcbs (w_k w) t)).
Proof.
  intros (Hbase & _) Ha Hp. destruct (runnable_or_blocked (w_k w) Q t (bo_sched _ _ _ _ Hbase) Ha) as [|Hb]; [done|].
  apply (bo_waits _ _ _ _ Hbase t Ha) in Hb. by destruct (w_at w t).
Qed.

(** A task that is not in [semaphore_take] holds no token. *)
Lemma no_token w Q t : parts w Q -> (forall s, ~ taking s (w_at w t)) -> wakeup_reason (k_tcbs (w_k w) t) = WAKEUP_REASON_NONE.
Proof.
  intros (_ & _ & []) Hn. destruct (wakeup_reason (k_tcbs (w_k w) t)) eqn:Hr; [done|]. by destruct (so_reason0 t Hr) as [s ?%Hn].
Qed.

Lemma awake_not_taking p s : awake p -> ~ taking s p.
Proof. destruct p; cbn; tauto. Qed.
Lemma awake_not_lock p m x : awake p -> p <> PLock m x.
Proof. by intros Hp ->. Qed.

Lemma move_lock (at_ : tcb -> place) t p : (forall m x, at_ t <> PLock m x) -> (forall m x, p <> PLock m x) -> same_locks at_ (<[t := p]> at_).
Proof. intros H1 H2 u m x. rewrite fn_insert_lookup. case_decide; subst; [|done]. split; intros Hx; [by apply H2 in Hx|by apply H1 in Hx]. Qed.
Lemma move_taking (at_ : tcb -> place) t p u s : (forall s, ~ taking s (at_ t)) -> (forall s, ~ taking s p) -> taking s ((<[t := p]> at_) u) <-> taking s (at_ u).
Proof. intros H1 H2. rewrite fn_insert_lookup. case_decide; subst; [|done]. split; intros Hx; [by apply H2 in Hx|by apply H1 in Hx]. Qed.

(** [block_until]. *)
Lemma block_ok w Q c t wakeup : parts w Q -> active c w = Some t -> w_at w t = PBlock wakeup ->
  returns (resume c t (PBlock wakeup)) w (fun _ w' => exists Q', parts w' Q').
Proof.
  intros Hw Hact Hat. destruct (active_spec w Q c t Hw Hact) as (Hb & Ha & Hc & _). pose proof Hw as (Hbase & Hm & Hs).
  destruct (block_until_eq c wakeup t (w_k w) Q (bo_sched _ _ _ _ Hbase) (bo_locks _ _ _ _ Hbase) Hb) as (d' & te & Heq & HI').
  unfold resume, go. step. apply returns_zoom. unfold returns at 1. rewrite Heq. step. eexists.
  split_and!; cbn.
  - eapply base_frame; [exact Hbase| |exact HI'|exact (bo_locks _ _ _ _ Hbase)|].
    + split; try done. intros u. cbn. rewrite fn_insert_lookup. by case_decide; subst.
    + intros u Hu. cbn. rewrite !fn_insert_lookup. case_decide; subst; [done|]. intros Hbl. apply (waits_stay (ob_timers ob) (w_k w) Q); try done.
      intros l Hl. by rewrite !fn_lookup_insert_ne by (by destruct l).
  - eapply mutexes_frame; [exact Hm|done|done| | |].
    + intros m n. by rewrite !fn_lookup_insert_ne.
    + apply move_lock; [by rewrite Hat|done].
    + intros u m x Hu He. assert (u <> t) as Hut by congruence. apply (endless_stays _ _ _ _ _ He); cbn; [by rewrite fn_lookup_insert_ne|].
      intros c'. rewrite fn_insert_lookup. case_decide as Hl; [|by rewrite fn_lookup_insert_ne].
      injection Hl as ->. rewrite elem_of_blocked_insert. by intros [[= ->]|].
  - eapply semaphores_frame; [exact Hs|done| | | |].
    + intros u. cbn. rewrite fn_insert_lookup. by case_decide; subst.
    + intros s n. by rewrite !fn_lookup_insert_ne.
    + intros u s. apply move_taking; [rewrite Hat|]; by intros ? [].
    + intros u s x d. rewrite fn_insert_lookup. case_decide; [done|by left].
Qed.

Lemma same_k w : w <| w_k := w_k w |> = w.
Proof. by destruct w. Qed.

(** [mutex_lock] when another task holds the mutex... *)
Lemma lock_waits_ok w Q c t m x now o : parts w Q -> active c w = Some t -> w_at w t = PRun -> m ∈ ob_mtx ob -> x <> 0 ->
  s_tick_count (k_cores (w_k w) c) = Some now -> mtx_state (k_mtx (w_k w) m) = MUTEX_STATE_LOCKED ->
  mutex_owner (k_mtx (w_k w) m) = Some o -> o <> t ->
  returns (enter c t (CLock m x)) w (fun _ w' => exists Q', parts w' Q').
Proof.
  intros Hw Hact Hat Hin Hx Hnow Hst How Hot. destruct (active_spec w Q c t Hw Hact) as (Hb & Ha & Hc & _).
  pose proof Hw as (Hbase & Hm & Hs). pose proof (bo_sched _ _ _ _ Hbase) as HI. pose proof (bo_locks _ _ _ _ Hbase) as Hh.
  pose proof (mo_ok _ _ _ _ _ Hm m Hin) as Hok.
  destruct (mutex_lock_waits c m x now t o (w_k w) Q HI Hok Hh Hb Hnow Hst How Hot Hx) as
    (k' & Q' & Heq & HI' & Hok' & Hh' & _ & _ & HQ & Hlb & Hbl & How' & Hqm & Htimed & _ & _ & Hf).
  unfold enter. step. apply returns_zoom. unfold returns at 1. rewrite Heq. unfold go. step. exists Q'.
  pose proof (mutex_lock_touch m (fun _ => True) c x ltac:(done) (w_k w)) as Ht. unfold runs in Ht. rewrite Heq in Ht.
  destruct Ht as [Hstill Hsem Hmtx Hreason _]. split_and!; cbn.
  * apply (base_frame _ (w_k w) k' Q Q' (w_at w)); try done. intros u Hu. rewrite fn_insert_lookup. case_decide as Hd; [intros _; subst; cbn; rewrite Hqm; set_solver|].
    rewrite (proj2 (proj2 (proj2 (Hf u))) (not_eq_sym Hd)). intros Hbu. apply (waits_stay (ob_timers ob) (w_k w) Q); try done. intros l Hl Hq.
    destruct (decide (l = LMutex m)) as [->|]; [rewrite Hqm; set_solver|by rewrite HQ].
  * apply (mutexes_change _ (w_k w) k' Q Q' (w_at w) _ (w_holds w) _ m); try done.
    -- intros u. by apply still_live.
    -- intros m' n Hne. by rewrite HQ by (done || congruence).
    -- intros u m' y Hne. rewrite fn_insert_lookup. case_decide; subst; [|done]. rewrite Hat. split; [by intros [= ->]|done].
    -- intros u m' y _ Hu He. assert (u <> t) as Hut by congruence. apply (endless_stays _ _ _ _ _ He); [by apply Hf|].
       intros c'. apply Hlb. congruence.
    -- intros u. rewrite Hqm, fn_insert_lookup. case_decide; subst; [done|]. intros [Hq|[= ->]%list_elem_of_singleton]%elem_of_app; [|done].
       by apply (mo_queue _ _ _ _ _ Hm).
    -- intros u Hu. rewrite How'. by apply (mo_holds _ _ _ _ _ Hm).
    -- intros u. rewrite How', fn_insert_lookup. case_decide; [by right|]. by apply (mo_owner _ _ _ _ _ Hm).
    -- intros u y. rewrite fn_insert_lookup. case_decide; subst.
       ++ intros [= <-] Hneg. right. split; [done|]. intros c' Hin'.
          destruct (member_blocked _ _ _ _ _ _ _ _ HI' Hin' (not_elem_of_nil _)) as (v & [= <-] & _ & Hc' & _).
          rewrite <- Hc' in Hin'. apply Htimed in Hin'. lia.
       ++ intros Hu Hneg. rewrite How'. destruct (mo_forever _ _ _ _ _ Hm u m y Hu Hneg) as [|He]; [by left|right].
          apply (endless_stays _ _ _ _ _ He); [by apply Hf|]. intros c'. apply Hlb. congruence.
  * eapply semaphores_frame; [exact Hs|by rewrite Hsem|done| | |].
    -- intros s n. by rewrite HQ.
    -- intros u s. apply move_taking; [rewrite Hat|]; by intros ? [].
    -- intros u s y d. rewrite fn_insert_lookup. case_decide; [done|by left].
Qed.

(** ...when it is free... *)
Lemma lock_takes_ok w Q c t m x : parts w Q -> active c w = Some t -> w_at w t = PRun -> m ∈ ob_mtx ob ->
  mtx_state (k_mtx (w_k w) m) = MUTEX_STATE_UNLOCKED ->
  returns (enter c t (CLock m x)) w (fun _ w' => exists Q', parts w' Q').
Proof.
  intros Hw Hact Hat Hin Hst. destruct (active_spec w Q c t Hw Hact) as (Hb & Ha & Hc & _).
  pose proof Hw as (Hbase & Hm & Hs). pose proof (bo_sched _ _ _ _ Hbase) as HI. pose proof (bo_locks _ _ _ _ Hbase) as Hh.
  pose proof (mo_ok _ _ _ _ _ Hm m Hin) as Hok. pose proof Hok as (_ & Hcase). rewrite Hst in Hcase.
  destruct (mutex_lock_takes c m x t (w_k w) Q HI Hok Hh (proj1 Hb) Hst) as (k' & Heq & HI' & Hok' & Hh' & _ & _ & How').
  unfold enter. step. apply returns_zoom. unfold returns at 1. rewrite Heq. unfold acquired. step. exists Q.
  assert (forall u, current_state (k_tcbs k' u) = current_state (k_tcbs (w_k w) u)) as Hf.
  { destruct (mutex_take_eq c m x t (w_k w) Hh (proj1 Hb) Hst) as (te & Heq'). rewrite Heq in Heq'. injection Heq' as ->.
    intros u. cbn. rewrite fn_insert_lookup. case_decide; subst; [|done]. by destruct (_ =? 0). }
  pose proof (mutex_lock_touch m (fun _ => True) c x ltac:(done) (w_k w)) as Ht. unfold runs in Ht. rewrite Heq in Ht.
  destruct Ht as [Hstill Hsem Hmtx Hreason _].
  split_and!; cbn.
  + apply (base_frame _ (w_k w) k' Q Q (w_at w)); try done. intros u Hu. rewrite Hf. by apply (bo_waits _ _ _ _ Hbase).
  + apply (mutexes_change _ (w_k w) k' Q Q (w_at w) _ (w_holds w) _ m); try done.
    * intros u. by apply still_live.
    * intros u m' Hne. rewrite elem_of_cons. split; [intros [[= -> ->]|?]; done|by right].
    * intros u m' y _ _ He. by apply (endless_stays _ _ _ _ _ He).
    * intros u. apply (mo_queue _ _ _ _ _ Hm).
    * intros u [[= ->]|Hu]%elem_of_cons; [done|]. destruct (mo_holds _ _ _ _ _ Hm u m Hu) as [_ Ho]. destruct Hcase as [Hc' _]. congruence.
    * intros u. rewrite How'. intros [= <-]. left. by left.
    * intros u y Hu Hneg. destruct (mo_forever _ _ _ _ _ Hm u m y Hu Hneg) as [Ho|He]; [destruct Hcase; congruence|right].
      by apply (endless_stays _ _ _ _ _ He).
  + eapply semaphores_frame; [exact Hs|by rewrite Hsem|done|done|done|by left].
Qed.

(** ...and up to its return or its spin. *)
Lemma lock_ok w Q c t m x : parts w Q -> active c w = Some t -> w_at w t = PRun -> m ∈ ob_mtx ob -> (t, m) ∉ w_holds w ->
  returns (enter c t (CLock m x)) w (fun _ w' => exists Q', parts w' Q').
Proof.
  intros Hw Hact Hat Hin Hno. destruct (active_spec w Q c t Hw Hact) as (Hb & Ha & Hc & now & _ & _ & _ & Hnow).
  pose proof Hw as (Hbase & Hm & _). pose proof (mo_ok _ _ _ _ _ Hm m Hin) as (_ & Hcase).
  destruct (mtx_state (k_mtx (w_k w) m)) eqn:Hst; [|by apply (lock_takes_ok w Q)].
  destruct Hcase as (o & How & _ & _). assert (o <> t) as Hot.
  { intros ->. destruct (mo_owner _ _ _ _ _ Hm t m Hin How) as [|Hl]; [done|]. by rewrite Hat in Hl. }
  destruct (decide (x = 0)) as [->|Hx]; [|by apply (lock_waits_ok w Q c t m x now o)].
  unfold enter. step. apply returns_zoom. unfold returns at 1. rewrite mutex_busy_eq by (done || apply Hbase || apply Hb).
  step. exists Q. by rewrite same_k.
Qed.

(** What follows the spin of [mutex_lock]. *)
Lemma lock_resume_ok w Q c t m x : parts w Q -> active c w = Some t -> w_at w t = PLock m x ->
  returns (resume c t (PLock m x)) w (fun _ w' => exists Q', parts w' Q').
Proof.
  intros Hw Hact Hat. destruct (active_spec w Q c t Hw Hact) as ((_ & Hr & _) & Ha & _). pose proof Hw as (Hbase & Hm & Hs).
  pose proof (mo_at _ _ _ _ _ Hm t m ltac:(by rewrite Hat)) as Hin. unfold resume. step. apply returns_zoom. unfold returns at 1.
  rewrite mutex_lock_resume_eq by apply Hbase.
  assert (wakeup_reason (k_tcbs (w_k w) t) = WAKEUP_REASON_NONE) as Hwr by (apply (no_token w Q); [done|rewrite Hat; by intros ? []]).
  destruct (decide (mutex_owner (k_mtx (w_k w) m) = Some t)) as [Ho|Ho].
  - rewrite decide_True by done. unfold acquired, go. steps. exists Q. split_and!; cbn.
    + apply (base_frame _ (w_k w) (w_k w) Q Q (w_at w)); try done; [apply Hbase..|]. intros u Hu Hbl. rewrite fn_insert_lookup.
      case_decide; subst; [by apply (runnable_not_blocked _ Hr) in Hbl|]. by apply (bo_waits _ _ _ _ Hbase).
    + apply (mutexes_change _ (w_k w) (w_k w) Q Q (w_at w) _ (w_holds w) _ m); try done.
      * intros u m' y Hne. rewrite fn_insert_lookup. case_decide; subst; [|done]. rewrite Hat. split; [done|by intros [= ->]].
      * intros u m' Hne. rewrite elem_of_cons. split; [intros [[= -> ->]|?]; done|by right].
      * apply Hm, Hin.
      * intros u Hu. rewrite fn_lookup_insert_ne; [by apply (mo_queue _ _ _ _ _ Hm)|]. intros <-.
        by apply (awake_not_queued (w_k w) Q (LMutex m) t) in Hu; [|apply Hbase|..].
      * intros u [[= ->]|Hu]%elem_of_cons; [done|]. by apply (mo_holds _ _ _ _ _ Hm).
      * intros u Hu. assert (u = t) as -> by congruence. left. by left.
      * intros u y. rewrite fn_insert_lookup. case_decide; [done|]. by apply (mo_forever _ _ _ _ _ Hm).
    + eapply semaphores_frame; [exact Hs|done..| |].
      * intros u s. apply move_taking; [rewrite Hat|]; by intros ? [].
      * intros u s y d. rewrite fn_insert_lookup. case_decide; [done|by left].
  - rewrite decide_False by done. unfold go. steps. exists Q.
    replace (w <| w_k := w_k w |> <| w_at ::= <[t := PRun]> |>) with (w <| w_at ::= <[t := PRun]> |>) by (by destruct w).
    apply go_ok; try done; [by intros ? []|]. intros m' Hm'. rewrite Hat in Hm'. cbn in Hm'. by subst.
Qed.

(** [mutex_unlock]. *)
Lemma unlock_ok w Q c t m : parts w Q -> w_at w t = PRun -> (t, m) ∈ w_holds w ->
  returns (enter c t (CUnlock m)) w (fun _ w' => exists Q', parts w' Q').
Proof.
  intros Hw Hat Hhold. pose proof Hw as (Hbase & Hm & Hs).
  destruct (mo_holds _ _ _ _ _ Hm t m Hhold) as [Hin How]. pose proof (bo_sched _ _ _ _ Hbase) as HI. pose proof (bo_locks _ _ _ _ Hbase) as Hh.
  pose proof (mo_ok _ _ _ _ _ Hm m Hin) as Hok. pose proof Hok as [_ Hcase].
  assert (mtx_state (k_mtx (w_k w) m) = MUTEX_STATE_LOCKED) as Hst by (destruct (mtx_state _); [done|]; destruct Hcase; congruence).
  pose proof (mutex_unlock_touch m (fun _ => False) c (w_k w)) as Ht. unfold runs in Ht.
  destruct (mutex_unlock_moves c m t (w_k w) Q HI Hok Hh Hst How) as (k' & Q' & Heq & HI' & Hh' & Hok' & HQ & Hsub & Hnext & Hstay & Hcs & Hlb).
  rewrite Heq in Ht. destruct Ht as [Hstill Hsem Hmtx Hreason Hrun].
  unfold enter, released. step. apply returns_zoom. unfold returns at 1. rewrite Heq. step. exists Q'. split_and!; cbn.
  - apply (base_frame _ (w_k w) k' Q Q' (w_at w)); try done. intros u Hu Hbl. destruct (runnable_or_blocked (w_k w) Q u HI Hu) as [Hr|Hb].
    { apply (Hrun u) in Hr; [by apply (runnable_not_blocked _ Hr) in Hbl|tauto]. }
    apply (waits_stay (ob_timers ob) (w_k w) Q); try done. intros l Hl Hq. destruct (decide (l = LMutex m)) as [->|]; [|by rewrite HQ].
    destruct (Hstay u Hq) as [|Hsu]; [done|congruence].
  - apply (mutexes_change _ (w_k w) k' Q Q' (w_at w) _ (w_holds w) _ m); try done.
    + intros u. by apply still_live.
    + intros m' n Hne. by rewrite HQ by (done || congruence).
    + intros u m' Hne. rewrite list_elem_of_filter. split; [by intros []|]. intros Hu. split; [|done]. by intros [= -> ->].
    + intros u m' y Hne Hu He. apply (endless_stays _ _ _ _ _ He); [|by intros c'; apply Hlb].
      destruct (Hcs u) as [|Ho]; [done|]. apply Hnext, (mo_queue _ _ _ _ _ Hm) in Ho. rewrite Hu in Ho. by cbn in Ho.
    + intros u Hu. by apply (mo_queue _ _ _ _ _ Hm), Hsub.
    + intros u [Hne Hu]%list_elem_of_filter. destruct (mo_holds _ _ _ _ _ Hm u m Hu) as [_ Ho]. congruence.
    + intros u Hu. right. by apply (mo_queue _ _ _ _ _ Hm), Hnext.
    + intros u y Hu Hneg. destruct (Hcs u) as [Hcu|]; [|by left]. destruct (mo_forever _ _ _ _ _ Hm u m y Hu Hneg) as [Ho|He].
      * congruence.
      * right. apply (endless_stays _ _ _ _ _ He); [done|by intros c'; apply Hlb].
  - eapply semaphores_frame; [exact Hs|by rewrite Hsem|done| |done|by left]. intros s n. by rewrite HQ.
Qed.

(** One turn of the loop of [semaphore_take], up to its return or its spin. *)
Lemma try_returns w Q t s x d k' : parts w Q -> live (w_k w) t -> w_at w t = PTry s x d ->
  0 < count (k_sem (w_k w) s) -> k' = (w_k w) <| k_sem ::= fun f => <[s := (f s) <| count := count (k_sem (w_k w) s) - 1 |>]> f |> ->
  parts (w <| w_k := k' |> <| w_taken ::= fun f => <[s := f s + 1]> f |> <| w_at ::= <[t := PRun]> |>) Q.
Proof.
  intros Hw Ha Hat Hpos ->. pose proof Hw as (Hbase & Hm & Hs).
  pose proof (so_at _ _ _ _ _ _ _ Hs t s ltac:(right; eauto)) as Hin. pose proof (so_ok _ _ _ _ _ _ _ Hs s Hin) as (Hc & Hmx & Hq).
  assert (runnable (current_state (k_tcbs (w_k w) t))) as Hrt by (apply (parts_awake w Q t Hw Ha); by rewrite Hat).
  assert (forall u s', taking s' ((<[t := PRun]> (w_at w)) u) <-> taking s' (w_at w u)) as Htk
    by (intros u s'; apply move_taking; [rewrite Hat|]; by intros ? []).
  split_and!; cbn.
  - apply (base_frame _ (w_k w) _ Q Q (w_at w)); try done; [apply Hbase..|]. intros u Hu Hbl. cbn. rewrite fn_insert_lookup.
    case_decide; subst; [by apply (runnable_not_blocked _ Hrt) in Hbl|by apply (bo_waits _ _ _ _ Hbase)].
  - eapply mutexes_frame; [exact Hm|done..| |]; [apply move_lock; [by rewrite Hat|done]|by intros u m y _ He].
  - apply (semaphores_change _ _ (w_k w) _ Q Q (w_at w) _ (w_given w) _ (w_taken w) _ s Hs); cbn; try done.
    + intros s' Hne. by rewrite !fn_lookup_insert_ne.
    + intros u s' Hne. unfold granted. by rewrite Htk.
    + intros u s' Hu. rewrite Htk. by apply (so_queue _ _ _ _ _ _ _ Hs).
    + intros u s'. rewrite Htk, fn_insert_lookup. case_decide; subst; [|apply (so_at _ _ _ _ _ _ _ Hs)].
      intros [Hu|(y & e & Hu)]; [|done]. apply (so_at _ _ _ _ _ _ _ Hs u s'). by left.
    + intros u Hu. setoid_rewrite Htk. by apply (so_reason _ _ _ _ _ _ _ Hs).
    + unfold sem_ok. cbn. rewrite fn_lookup_insert. cbn. split_and!; [lia..|]. intros Hne. specialize (Hq Hne). lia.
    + by rewrite fn_lookup_insert.
    + intros _. rewrite !fn_lookup_insert. cbn. rewrite (in_flight_ext (w_k w) _ (w_at w)); [lia|]. intros u. unfold granted. by rewrite Htk.
Qed.

Lemma try_blocks w Q t s x d k' Q' : parts w Q -> live (w_k w) t -> w_at w t = PTry s x d ->
  k_sem k' = k_sem (w_k w) -> k_mtx k' = k_mtx (w_k w) -> still (w_k w) k' -> sched_inv [] k' Q' -> k_held k' = [] ->
  sem_ok k' Q' s -> (forall u, u <> t -> k_tcbs k' u = k_tcbs (w_k w) u) ->
  wakeup_reason (k_tcbs k' t) = wakeup_reason (k_tcbs (w_k w) t) ->
  (forall l, sync_list l -> Q' l = if decide (l = LSem s) then Q l ++ [NEvent t] else Q l) ->
  (forall c n, n <> NState t -> n ∈ Q' (LBlocked c) -> n ∈ Q (LBlocked c)) ->
  parts (w <| w_k := k' |> <| w_at ::= <[t := PTake s x d]> |>) Q'.
Proof.
  intros Hw Ha Hat Hsem Hmtx Hst HI' Hh' Hok Ht Hr HQ Hlb. pose proof Hw as (Hbase & Hm & Hs).
  pose proof (so_at _ _ _ _ _ _ _ Hs t s ltac:(right; eauto)) as Hin.
  assert (wakeup_reason (k_tcbs (w_k w) t) = WAKEUP_REASON_NONE) as Hwr by (apply (no_token w Q); [done|rewrite Hat; by intros ? []]).
  assert (forall u, wakeup_reason (k_tcbs k' u) = wakeup_reason (k_tcbs (w_k w) u)) as Hreason
    by (intros u; destruct (decide (u = t)) as [->|]; [done|by rewrite Ht]).
  assert (forall u s', granted k' (<[t := PTake s x d]> (w_at w)) s' u <-> granted (w_k w) (w_at w) s' u) as Hg.
  { intros u s'. unfold granted. rewrite Hreason, fn_insert_lookup. case_decide; subst; [|done]. rewrite Hwr. split; by intros []. }
  split_and!; cbn.
  - apply (base_frame _ (w_k w) k' Q Q' (w_at w)); try done. intros u Hu. rewrite fn_insert_lookup. case_decide; subst; [intros _; cbn; rewrite HQ, decide_True by done; set_solver|].
    rewrite Ht by done. intros Hbl. apply (waits_stay (ob_timers ob) (w_k w) Q); try done. intros l Hl Hq. rewrite HQ by done. case_decide; [set_solver|done].
  - eapply mutexes_frame; [exact Hm|by rewrite Hmtx|intros u; by apply still_live| | |].
    + intros m n. by rewrite HQ.
    + apply move_lock; [by rewrite Hat|done].
    + intros u m y Hu He. assert (u <> t) as Hut by congruence. apply (endless_stays _ _ _ _ _ He); [by rewrite Ht|].
      intros c. apply Hlb. congruence.
  - apply (semaphores_change _ _ (w_k w) _ Q Q' (w_at w) _ (w_given w) _ (w_taken w) _ s Hs); cbn; try done.
    + intros s' Hne. by rewrite Hsem.
    + intros s' n Hne. rewrite HQ, decide_False by (done || congruence). done.
    + intros u s'. rewrite HQ, Hreason by done. destruct (decide (t = u)) as [<-|Hu].
      * rewrite fn_lookup_insert. case_decide as Hs'; [by injection Hs' as ->|].
        intros Hq. destruct (so_queue _ _ _ _ _ _ _ Hs t s' Hq) as [Hp _]. by rewrite Hat in Hp.
      * rewrite fn_lookup_insert_ne by done. intros Hq. apply (so_queue _ _ _ _ _ _ _ Hs). case_decide; [|done].
        apply elem_of_app in Hq as [|[= ->]%list_elem_of_singleton]; done.
    + intros u s'. rewrite fn_insert_lookup. case_decide; subst; [|apply (so_at _ _ _ _ _ _ _ Hs)]. by intros [<-|(y & e & Hu)].
    + intros u Hu. rewrite Hreason in Hu. rewrite fn_insert_lookup. case_decide; subst; [congruence|]. by apply (so_reason _ _ _ _ _ _ _ Hs).
    + by rewrite Hsem.
    + intros _. rewrite Hsem, (in_flight_ext (w_k w) k' (w_at w)); [lia|]. intros u. apply Hg.
Qed.

Lemma try_ok w Q c t s x d : parts w Q -> active c w = Some t -> w_at w t = PTry s x d ->
  returns (resume c t (PTry s x d)) w (fun _ w' => exists Q', parts w' Q').
Proof.
  intros Hw Hact Hat. destruct (active_spec w Q c t Hw Hact) as (Hb & Ha & Hc & now & Htick).
  pose proof Hw as (Hbase & Hm & Hs). pose proof Htick as (_ & _ & _ & Hnow).
  pose proof (so_at _ _ _ _ _ _ _ Hs t s ltac:(right; eauto)) as Hin. pose proof (so_ok _ _ _ _ _ _ _ Hs s Hin) as Hok.
  pose proof Hok as (Hcnt & Hmx & Hq). unfold resume. step. apply returns_zoom.
  destruct (Z.ltb_spec 0 (count (k_sem (w_k w) s))) as [Hpos|Hz].
  - unfold returns at 1. rewrite semaphore_return_eq by (apply Hbase || lia). unfold took, go. steps.
    exists Q. exact (try_returns w Q t s x d _ Hw Ha Hat Hpos eq_refl).
  - destruct (patient x d now) eqn:Hpat; unfold patient in Hpat.
    + apply andb_true_iff in Hpat as [H0 Hd].
      destruct (semaphore_block_eq c s x d t (w_k w) Q (bo_sched _ _ _ _ Hbase) (bo_locks _ _ _ _ Hbase) Hb Hz) as (d' & te & Heq & HI').
      { by destruct (Z.eqb_spec x 0). }
      { intros Hp. exists now. split; [done|]. destruct (Z.ltb_spec now d); [done|]. destruct (Z.ltb_spec x 0); [lia|done]. }
      unfold returns at 1. rewrite Heq. unfold go. step. eexists.
      apply (try_blocks w Q t s x d _ _ Hw Ha Hat); [done|done| |exact HI'|exact (bo_locks _ _ _ _ Hbase)|..].
      * split; try done. intros u. cbn. rewrite fn_insert_lookup. case_decide; subst; [|done]. unfold wait_tcb. by destruct (0 <? x).
      * unfold sem_ok. cbn. split_and!; [lia..|]. intros _. lia.
      * intros u Hu. cbn. by rewrite fn_lookup_insert_ne.
      * cbn. rewrite fn_lookup_insert. unfold wait_tcb. by destruct (0 <? x).
      * intros l Hl. unfold wait_queues. destruct (0 <? x); rewrite ?fn_lookup_insert_ne by (by destruct l);
          case_decide as He; subst; by rewrite ?fn_lookup_insert, ?fn_lookup_insert_ne by congruence.
      * intros c' n Hn. unfold wait_queues. rewrite Hc. destruct (0 <? x); [rewrite fn_insert_lookup; case_decide as Hl|];
          rewrite ?fn_lookup_insert_ne by done; [|done..]. injection Hl as ->. rewrite elem_of_blocked_insert. by intros [|].
    + assert (x = 0 \/ 0 < x /\ d <= now) as Hlate.
      { destruct (Z.eqb_spec x 0); [by left|right]. cbn in Hpat. apply orb_false_iff in Hpat as [H1 H2]. apply Z.ltb_ge in H1, H2. lia. }
      unfold returns at 1. rewrite (semaphore_timeout_eq c s x d now t (w_k w) (bo_locks _ _ _ _ Hbase) Hz Hnow Hlate). unfold go. step.
      exists Q. replace (w <| w_k := w_k w |> <| w_at ::= <[t := PRun]> |>) with (w <| w_at ::= <[t := PRun]> |>) by (by destruct w).
      apply go_ok; try done; [apply Hb|by intros ? []|by rewrite Hat|]. apply (no_token w Q); [done|rewrite Hat; by intros ? []].
Qed.

(** What follows the spin of [semaphore_take]. *)
Lemma take_resume_ok w Q c t s x d : parts w Q -> active c w = Some t -> w_at w t = PTake s x d ->
  returns (resume c t (PTake s x d)) w (fun _ w' => exists Q', parts w' Q').
Proof.
  intros Hw Hact Hat. destruct (active_spec w Q c t Hw Hact) as ((Hcur & Hr & Hidle) & Ha & Hc & _). pose proof Hw as (Hbase & Hm & Hs).
  assert (forall s', taking s' (w_at w t) <-> s' = s) as Hts by (intros s'; rewrite Hat; cbn; naive_solver).
  pose proof (so_at _ _ _ _ _ _ _ Hs t s ltac:(left; by apply Hts)) as Hin. pose proof (bo_sched _ _ _ _ Hbase) as HI.
  assert (forall l, sync_list l -> NEvent t ∉ Q l) as Hnq by (intros l; by apply awake_not_queued with (w_k w)).
  unfold resume. step. apply returns_zoom. unfold returns at 1. rewrite semaphore_resume_eq by apply Hbase.
  case_decide as Hwr; unfold took, go; steps; exists Q.
  - set (k' := (w_k w) <| k_tcbs ::= _ |>).
    assert (forall u, u <> t -> k_tcbs k' u = k_tcbs (w_k w) u) as Hoth by (intros u Hu; cbn; by rewrite fn_lookup_insert_ne).
    assert (k_tcbs k' t = (k_tcbs (w_k w) t) <| wakeup_reason := WAKEUP_REASON_NONE |>) as Ht by (cbn; by rewrite fn_lookup_insert).
    assert (forall A (f : TaskControlBlock -> A) u, (forall r v, f (r <| wakeup_reason := v |>) = f r) -> f (k_tcbs k' u) = f (k_tcbs (w_k w) u)) as Hf.
    { intros A f u Hf. destruct (decide (u = t)) as [->|Hu]; [rewrite Ht; apply Hf|by rewrite Hoth]. }
    assert (forall u s', u <> t -> granted k' (<[t := PRun]> (w_at w)) s' u <-> granted (w_k w) (w_at w) s' u) as Hg
      by (intros u s' Hu; unfold granted; by rewrite Hoth, fn_lookup_insert_ne).
    assert (forall s', ~ granted k' (<[t := PRun]> (w_at w)) s' t) as Hng by (intros s' [_ Hp]; by rewrite fn_lookup_insert in Hp).
    split_and!; cbn -[k'].
    + apply (base_frame _ (w_k w) k' Q Q (w_at w)); try done; [| |apply Hbase|].
      * split; try done. intros u. by apply Hf.
      * apply same_fields_inv; [exact HI|]. intros u. split_and!; symmetry; symmetry; by apply (Hf _ _ u).
      * intros u Hu. rewrite (Hf _ current_state) by done. intros Hbl. rewrite fn_insert_lookup.
        case_decide; subst; [by apply (runnable_not_blocked _ Hr) in Hbl|by apply (bo_waits _ _ _ _ Hbase)].
    + eapply mutexes_frame; [exact Hm|done..| |]; [apply move_lock; [by rewrite Hat|done]|].
      intros u m y _ He. apply (endless_stays _ _ _ _ _ He); [by apply (Hf _ current_state)|done].
    + apply (semaphores_change _ _ (w_k w) k' Q Q (w_at w) _ (w_given w) _ (w_taken w) _ s Hs); try done.
      * intros s' Hne. by rewrite fn_lookup_insert_ne.
      * intros u s' Hne. destruct (decide (u = t)) as [->|Hu]; [|by apply Hg]. split; [by intros ?%Hng|].
        intros [_ Hp]. by apply Hts in Hp.
      * intros u s' Hq. assert (u <> t) as Hu by (intros ->; by apply (Hnq (LSem s') I)). rewrite fn_lookup_insert_ne, Hoth by done.
        by apply (so_queue _ _ _ _ _ _ _ Hs).
      * intros u s'. rewrite fn_insert_lookup. case_decide; [intros [[]|(y & e & ?)]; done|]. apply (so_at _ _ _ _ _ _ _ Hs).
      * intros u. destruct (decide (u = t)) as [->|Hu]; [by rewrite Ht|]. rewrite Hoth, fn_lookup_insert_ne by done. apply (so_reason _ _ _ _ _ _ _ Hs).
      * exact (so_ok _ _ _ _ _ _ _ Hs s Hin).
      * intros _. rewrite fn_lookup_insert. unfold in_flight.
        rewrite (filter_change (granted (w_k w) (w_at w) s) (granted k' (<[t := PRun]> (w_at w)) s) all_tcbs t);
          [|apply all_tcbs_nodup|apply valid_tcb_all, (si_valid _ _ _ _ _ _ HI t Ha)|intros u Hu; by apply Hg].
        rewrite decide_False by apply Hng. rewrite decide_True by (split; [done|by apply Hts]). change (k_sem k' s) with (k_sem (w_k w) s). lia.
  - replace (w <| w_k := w_k w |> <| w_at ::= <[t := PTry s x d]> |>) with (w <| w_at ::= <[t := PTry s x d]> |>) by (by destruct w).
    apply go_ok; try done; [by intros ? []|by intros ??? [= <- _ _]|by rewrite Hat|]. by destruct (wakeup_reason _).
Qed.

(** [semaphore_give] with nobody waiting... *)
Lemma give_counts w Q s k' : parts w Q -> s ∈ ob_sem ob -> Q (LSem s) = [] ->
  count (k_sem (w_k w) s) < max_count (k_sem (w_k w) s) ->
  k' = (w_k w) <| k_sem ::= fun f => <[s := (f s) <| count := count (k_sem (w_k w) s) + 1 |>]> f |> ->
  parts (w <| w_k := k' |> <| w_given ::= fun f => <[s := f s + 1]> f |>) Q.
Proof.
  intros Hw Hin Hq Hroom ->. pose proof Hw as (Hbase & Hm & Hs). pose proof (so_ok _ _ _ _ _ _ _ Hs s Hin) as (Hc & Hmx & _).
  split_and!; cbn.
  - apply (base_frame _ (w_k w) _ Q Q (w_at w)); try done; apply Hbase.
  - by eapply mutexes_frame.
  - apply (semaphores_change _ _ (w_k w) _ Q Q (w_at w) _ (w_given w) _ (w_taken w) _ s Hs); cbn; try done; try apply Hs.
    + intros s' Hne. by rewrite !fn_lookup_insert_ne.
    + unfold sem_ok. cbn. rewrite fn_lookup_insert, Hq. cbn. split_and!; [lia..|done].
    + by rewrite fn_lookup_insert.
    + intros _. rewrite !fn_lookup_insert. cbn. rewrite (in_flight_ext (w_k w) _ (w_at w)); [lia|done].
Qed.

(** ...and with [t] waiting longest. *)
Lemma give_wakes w Q s t q k' Q' : parts w Q -> s ∈ ob_sem ob -> Q (LSem s) = NEvent t :: q ->
  still (w_k w) k' -> k_sem k' = k_sem (w_k w) -> k_mtx k' = k_mtx (w_k w) -> sched_inv [] k' Q' -> k_held k' = [] ->
  k_tcbs k' t = given_tcb (k_tcbs (w_k w) t) -> (forall u, u <> t -> k_tcbs k' u = k_tcbs (w_k w) u) ->
  (forall l, sync_list l -> Q' l = if decide (l = LSem s) then q else Q l) ->
  (forall c n, n ∈ Q' (LBlocked c) -> n ∈ Q (LBlocked c)) ->
  parts (w <| w_k := k' |> <| w_given ::= fun f => <[s := f s + 1]> f |>) Q'.
Proof.
  intros Hw Hin Hq Hst Hsem Hmtx HI' Hh' Ht Hoth HQ Hlb. pose proof Hw as (Hbase & Hm & Hs). pose proof (bo_sched _ _ _ _ Hbase) as HI.
  destruct (so_queue _ _ _ _ _ _ _ Hs t s) as [Htk Hwr]; [rewrite Hq; by left|].
  destruct (member_sync _ _ _ _ _ _ (LSem s) (NEvent t) HI I) as (u & [= <-] & Ha & Hbl); [rewrite Hq; by left|apply not_elem_of_nil|].
  assert (forall l, sync_list l -> NEvent t ∉ Q' l) as Hnq by (intros l; apply (awake_not_queued k'); [done|rewrite Ht; by left]).
  assert (forall s', taking s' (w_at w t) <-> s' = s) as Hts by (intros s'; destruct (w_at w t); try done; cbn in *; subst; naive_solver).
  assert (forall u s', u <> t -> granted k' (w_at w) s' u <-> granted (w_k w) (w_at w) s' u) as Hg
    by (intros u s' Hu; unfold granted; by rewrite Hoth).
  split_and!; cbn.
  - apply (base_frame _ (w_k w) k' Q Q' (w_at w)); try done. intros u Hu. destruct (decide (u = t)) as [->|Hne].
    + rewrite Ht. by intros Hbt.
    + rewrite Hoth by done. intros Hbu. apply (waits_stay (ob_timers ob) (w_k w) Q); try done. intros l Hl Hlq. rewrite HQ by done.
      case_decide; [|done]. subst. rewrite Hq in Hlq. apply elem_of_cons in Hlq as [[= ->]|]; done.
  - eapply mutexes_frame; [exact Hm|by rewrite Hmtx|intros u; by apply still_live| |done|]; [intros m n; by rewrite HQ|].
    intros u m y Hu He. assert (u <> t) as Hut by (intros ->; by rewrite Hu in Htk).
    apply (endless_stays _ _ _ _ _ He); [by rewrite Hoth|intros c; apply Hlb].
  - apply (semaphores_change _ _ (w_k w) k' Q Q' (w_at w) _ (w_given w) _ (w_taken w) _ s Hs); try done.
    + intros s' Hne. by rewrite Hsem, fn_lookup_insert_ne.
    + intros s' n Hne. by rewrite HQ, decide_False by (done || congruence).
    + intros u s' Hne. destruct (decide (u = t)) as [->|Hu]; [|by apply Hg]. split; intros [_ ?%Hts]; done.
    + intros u s' Hu. assert (u <> t) as Hne by (intros ->; by apply (Hnq (LSem s') I)). rewrite Hoth by done.
      apply (so_queue _ _ _ _ _ _ _ Hs). rewrite HQ in Hu by done. case_decide as Hs'; [|done]. injection Hs' as ->. rewrite Hq. by right.
    + apply Hs.
    + intros u Hu. destruct (decide (u = t)) as [->|Hne]; [by exists s|]. rewrite Hoth in Hu by done. by apply (so_reason _ _ _ _ _ _ _ Hs).
    + destruct (so_ok _ _ _ _ _ _ _ Hs s Hin) as (H1 & H2 & H3). unfold sem_ok. rewrite Hsem. split_and!; [lia..|]. intros _. apply H3. by rewrite Hq.
    + by rewrite Hsem.
    + intros _. rewrite Hsem, fn_lookup_insert. unfold in_flight.
      rewrite (filter_change (granted (w_k w) (w_at w) s) (granted k' (w_at w) s) all_tcbs t);
        [|apply all_tcbs_nodup|apply valid_tcb_all, (si_valid _ _ _ _ _ _ HI t Ha)|intros u Hu; by apply Hg].
      rewrite decide_True by (split; [by rewrite Ht|done]). rewrite decide_False by (intros [? _]; congruence). lia.
Qed.

Lemma give_ok w Q c s : parts w Q -> s ∈ ob_sem ob -> returns (give c s) w (fun _ w' => exists Q', parts w' Q').
Proof.
  intros Hw Hin. pose proof Hw as (Hbase & Hm & Hs). pose proof (bo_sched _ _ _ _ Hbase) as HI. pose proof (bo_locks _ _ _ _ Hbase) as Hh.
  pose proof (so_ok _ _ _ _ _ _ _ Hs s Hin) as (Hc & Hmx & _). unfold give. step. apply returns_zoom. unfold returns at 1.
  destruct (Q (LSem s)) as [|n q] eqn:Hq.
  - rewrite (semaphore_give_counts c s (w_k w) Q (si_mem _ _ _ _ _ _ HI) Hh Hq (proj1 Hc) Hmx).
    destruct (Z.ltb_spec (count (k_sem (w_k w) s)) (max_count (k_sem (w_k w) s))) as [Hroom|_].
    + rewrite decide_True by done. unfold gave_one. step. exists Q. exact (give_counts w Q s _ Hw Hin Hq Hroom eq_refl).
    + rewrite decide_False by done. step. exists Q. by destruct w.
  - destruct (member_sync _ _ _ _ _ _ (LSem s) n HI I) as (t & -> & _); [rewrite Hq; by left|apply not_elem_of_nil|].
    destruct (semaphore_give_wakes c s t q (w_k w) Q HI Hh Hq) as (d' & te & Heq & HI'). rewrite Heq, decide_True by done.
    unfold gave_one. step. eexists. apply (give_wakes w Q s t q _ _ Hw Hin Hq); [|done|done|exact HI'|exact Hh|..].
    + split; try done. intros u. cbn. rewrite fn_insert_lookup. by case_decide; subst.
    + cbn. by rewrite fn_lookup_insert.
    + intros u Hu. cbn. by rewrite fn_lookup_insert_ne.
    + intros l Hl. by apply handed_sem_queue.
    + intros c' n. unfold handed_queues. rewrite fn_lookup_insert_ne, fn_insert_lookup by done.
      case_decide as Hl; [injection Hl as <-; apply elem_of_del|by rewrite fn_lookup_insert_ne].
Qed.

(** The timer interrupt: the tick, then the switch. *)
Lemma tick_part w Q c cntpct u : parts w Q -> k_current (w_k w) c = Some u ->
  returns (timer_tick_handler (H := weak_hooks) c cntpct) (w_k w) (fun _ k' =>
    k_current k' = k_current (w_k w) /\ exists Q', parts (w <| w_k := k' |>) Q').
Proof.
  intros Hw Hcur. pose proof Hw as (Hbase & Hm & Hs). pose proof (bo_sched _ _ _ _ Hbase) as HI. pose proof (bo_locks _ _ _ _ Hbase) as Hh.
  destruct (bo_cores _ _ _ _ Hbase c u Hcur) as [_ (now & Hc & Hz & Hclk & Hnow)].
  destruct (s_clk_freq (k_cores (w_k w) c)) as [clk|] eqn:Hcf; [|done].
  destruct (timer_tick_eq (H := weak_hooks) c cntpct clk now (w_k w) Q HI Hh Hc Hcf Hz Hnow) as (d' & te & Heq & HI').
  unfold returns. rewrite Heq.
  set (ws := due _ _ _ _) in *. set (k' := (ticked c cntpct clk now (w_k w)) <| k_dm := d' |> <| k_tcbs ::= _ |> <| k_tel := te |>) in *.
  assert ((if c =? 0 then Scheduler.software_timer_tick (Hooks := weak_hooks) c (u64 (now + 1)) else mret tt) k' = Ret tt k') as ->
    by (by destruct (c =? 0)).
  assert (forall A (f : TaskControlBlock -> A) t, (forall r v, f (r <| current_state := v |>) = f r) -> f (k_tcbs k' t) = f (k_tcbs (w_k w) t)) as Hf.
  { intros A f t Hf. unfold k'. cbn. unfold wake_tcbs. case_decide; [apply Hf|done]. }
  split; [done|]. eexists. split_and!; cbn -[k'].
  - apply (base_frame _ (w_k w) k' Q _ (w_at w) _ Hbase); [| exact HI'|exact Hh|].
    + split; try done.
      * intros c'. unfold k'. cbn. rewrite fn_insert_lookup. case_decide; subst; [|done]. cbn. split_and!; try done. by rewrite Hnow.
      * intros t. by apply Hf.
    + intros t Ht. unfold k'. cbn. unfold wake_tcbs. case_decide as Hd; [done|]. intros Hbl. apply (waits_stay (ob_timers ob) (w_k w) Q); try done.
      intros l Hl Hq. destruct l; try done; cbn; by apply list_elem_of_filter.
  - apply (mutexes_frame _ (w_k w) k' Q _ (w_at w) _ _ Hm); try done.
    + intros t. unfold live. cbn. destruct t as [|i]; [done|]. rewrite fn_insert_lookup. case_decide; subst; [|done]. cbn. naive_solver.
    + intros m n. cbn. by intros [_ Hn]%list_elem_of_filter.
    + intros t m x _ [Hb Hn]. split.
      * unfold k'. cbn. unfold wake_tcbs. rewrite decide_False; [done|]. intros (n & -> & [_ Hin]%list_elem_of_filter)%list_elem_of_fmap.
        destruct (member_blocked _ _ _ _ _ _ _ _ HI Hin (not_elem_of_nil _)) as (v & -> & _). by apply (Hn c).
      * intros c'. cbn. case_decide; subst; [|by apply Hn]. by intros [_ Hin%Hn]%list_elem_of_filter.
  - apply (semaphores_frame _ _ (w_k w) k' Q _ (w_at w) _ _ _ Hs); try done.
    + intros t. by apply Hf.
    + intros s n. cbn. by intros [_ Hn]%list_elem_of_filter.
    + by left.
Qed.

Lemma switch_part w Q c u : parts w Q -> k_current (w_k w) c = Some u ->
  returns (scheduler_switch_context c) (w_k w) (fun _ k' => exists Q', parts (w <| w_k := k' |>) Q').
Proof.
  intros Hw Hcur. pose proof Hw as (Hbase & Hm & Hs). pose proof (bo_sched _ _ _ _ Hbase) as HI. pose proof (bo_locks _ _ _ _ Hbase) as Hh.
  destruct (bo_cores _ _ _ _ Hbase c u Hcur) as [Hidle _].
  destruct (switch_context_eq c (w_k w) Q HI Hh Hidle) as (p & t & _ & Hin & _ & Heq & HI').
  { intros v Hv. apply (bo_stacks _ _ _ _ Hbase), (si_current _ _ _ _ _ _ HI c v Hv). }
  set (k1 := (w_k w) <| k_held ::= cons (LkSched c) |>) in *. set (k' := pick c t (requeue c k1)) in *.
  unfold returns. rewrite Heq. exists Q.
  assert (forall A (f : TaskControlBlock -> A) v, (forall r x, f (r <| current_state := x |>) = f r) -> f (k_tcbs k' v) = f (k_tcbs (w_k w) v)) as Hf
    by (intros A f v Hf; exact (switch_tcb_field f c t k1 v Hf)).
  assert (k_mtx k' = k_mtx (w_k w) /\ k_sem k' = k_sem (w_k w) /\ k_heap k' = k_heap (w_k w) /\ k_cores k' = k_cores (w_k w) /\
          k_task_counter k' = k_task_counter (w_k w)) as (Hmtx & Hsem & Hheap & Hcores & Hcnt)
    by (unfold k', requeue; destruct (running_on k1 c); done).
  split_and!; cbn -[k'].
  - apply (base_frame _ (w_k w) k' Q _ (w_at w) _ Hbase); [|exact HI'| |].
    + split; try done; [by rewrite Hcores| |intros v; by apply Hf|unfold k', requeue; by destruct (running_on k1 c)].
      intros c'. unfold k'. rewrite pick_current, requeue_current. case_decide; subst; [by rewrite Hcur|done].
    + change (filter (fun h => h <> LkSched c) (k_held (requeue c k1)) = []).
      assert (k_held (requeue c k1) = [LkSched c]) as -> by (unfold requeue; destruct (running_on k1 c); cbn; by rewrite Hh).
      apply filter_own_lock.
    + intros v Hv. unfold k'. cbn -[requeue]. rewrite fn_insert_lookup. case_decide; [done|].
      unfold requeue. destruct (running_on k1 c); [|by apply (bo_waits _ _ _ _ Hbase)]. cbn. rewrite fn_insert_lookup.
      case_decide; [done|by apply (bo_waits _ _ _ _ Hbase)].
  - apply (mutexes_frame _ (w_k w) k' Q _ (w_at w) _ _ Hm); try done; [by rewrite Hmtx| |].
    + intros v. unfold live. by rewrite Hcores, Hcnt.
    + intros v m x _ He. apply (endless_stays _ _ _ _ _ He); [|done]. destruct He as [Hb _]. unfold k'. cbn -[requeue].
      rewrite fn_insert_lookup. case_decide as Hv; [subst v|].
      { destruct (member_ready _ _ _ _ _ _ _ _ _ HI Hin (not_elem_of_nil _)) as (v & [= <-] & _ & _ & _ & Hr).
        by destruct (runnable_not_blocked _ Hr). }
      unfold requeue. destruct (running_on k1 c) as [v'|] eqn:Hrun; [|done]. cbn. rewrite fn_insert_lookup. case_decide as Hv'; [subst v'|done].
      unfold running_on in Hrun. destruct (k_current k1 c); [|done]. case_decide as Hr; [|done]. injection Hrun as ->.
      change (k_tcbs k1) with (k_tcbs (w_k w)) in Hr. congruence.
  - apply (semaphores_frame _ _ (w_k w) k' Q _ (w_at w) _ _ _ Hs); try done; [by rewrite Hsem|intros v; by apply Hf|by left].
Qed.

(** Lines on the console change nothing else. *)
Lemma console_part w Q l : parts w Q -> parts (w <| w_k := (w_k w) <| k_console := l |> |>) Q.
Proof.
  intros (Hbase & Hm & Hs). split_and!; cbn.
  - apply (base_frame _ (w_k w) _ Q Q (w_at w)); try done; apply Hbase.
  - by eapply mutexes_frame.
  - eapply semaphores_frame; try done. by left.
Qed.

(** A call whose first step only moves the task. *)
Lemma start_ok w Q c t p : parts w Q -> active c w = Some t -> awake (w_at w t) \/ w_at w t = PDelay -> awake p ->
  (forall s x d, p = PTry s x d -> s ∈ ob_sem ob) -> parts (w <| w_at ::= <[t := p]> |>) Q.
Proof.
  intros Hw Hact Hat Hp Hsem. destruct (active_spec w Q c t Hw Hact) as ((_ & Hr & _) & Ha & _).
  apply go_ok; try done; [intros m x; by apply awake_not_lock|intros s; by apply awake_not_taking|by intros m Hm; destruct Hat as [Hat|Hat]; [destruct (w_at w t)|rewrite Hat in Hm]|].
  apply (no_token w Q t Hw). intros s. destruct Hat as [Hat|Hat]; [by apply awake_not_taking|rewrite Hat; by intros []].
Qed.

(** Timers are all a timer operation changes. *)
Lemma timers_changed_ok w Q tm' hb ha Lb La : parts w Q -> timers_ok (timers_changed (w_k w) tm' hb ha) Lb La ->
  (forall t, t ∈ Lb ++ La -> t ∈ ob_timers ob) -> parts (w <| w_k := timers_changed (w_k w) tm' hb ha |>) Q.
Proof. intros ([] & Hm & Hs) Hok Hin. split_and!; [split; try done; by exists Lb, La|by destruct Hm|by destruct Hs]. Qed.

Context (Hfuel : (length (ob_timers ob) <= timer_fuel)%nat).

Lemma timers_bound k Lb La : timers_ok k Lb La -> (forall t, t ∈ Lb ++ La -> t ∈ ob_timers ob) ->
  (length Lb <= timer_fuel)%nat /\ (length La <= timer_fuel)%nat.
Proof.
  intros Hok Hin. pose proof (submseteq_length _ _ (NoDup_submseteq _ _ (tk_nodup _ _ _ Hok) Hin)) as Hl. rewrite length_app in Hl. lia.
Qed.

Lemma untagged k Lb La t : timers_ok k Lb La -> list_id (k_timers k t) = TIMER_LIST_NONE -> (t ∉ Lb) /\ (t ∉ La).
Proof. intros Hok. rewrite (tk_tags _ _ _ Hok). unfold tag. repeat case_decide; done. Qed.

(** Every timer operation returns, and changes the timers only. *)
Lemma run_timer_changes w c t op now Lb La : k_current (w_k w) c = Some t -> s_tick_count (k_cores (w_k w) c) = Some now ->
  timers_ok (w_k w) Lb La -> (forall t, t ∈ Lb ++ La -> t ∈ ob_timers ob) -> allowed ob t (CTimer op) w = true ->
  exists r tm' hb ha Lb' La', run_timer c op (w_k w) = Ret r (timers_changed (w_k w) tm' hb ha) /\
    timers_ok (timers_changed (w_k w) tm' hb ha) Lb' La' /\ (forall t, t ∈ Lb' ++ La' -> t ∈ ob_timers ob).
Proof.
  intros Hcur Hnow Htm Hin Hok. destruct (timers_bound _ _ _ Htm Hin) as [HLb HLa].
  assert (timers_changed (w_k w) (k_timers (w_k w)) (k_blocked_head (w_k w)) (k_active_head (w_k w)) = w_k w) as Hid by (by destruct (w_k w)).
  destruct op as [u p cb mode|u|u| |u]; cbn [run_timer allowed] in *.
  - apply andb_true_iff in Hok as [Hu%bool_decide_eq_true Hn%bool_decide_eq_true]. destruct (untagged _ _ _ u Htm Hn) as [H1 H2].
    destruct (decide (p = 0)) as [->|Hp].
    + exists E_INVALID_ARGS, (k_timers (w_k w)), (k_blocked_head (w_k w)), (k_active_head (w_k w)), Lb, La. rewrite Hid. by split_and!.
    + destruct (create_eq timer_fuel c u p now cb mode t Lb La (w_k w) Htm H1 H2 HLb Hp Hcur Hnow) as (tm' & hb & Heq & Hok & _).
      eexists _, _, _, _, _, _. split; [exact Heq|split; [exact Hok|]]. intros v. rewrite elem_of_app, elem_of_timer_insert. set_solver.
  - apply bool_decide_eq_true in Hok. destruct (stop_eq timer_fuel c u Lb La (w_k w) Htm HLb HLa) as (tm' & hb & ha & Heq & Hok' & _).
    eexists _, _, _, _, _, _. split; [exact Heq|split; [exact Hok'|]]. intros v. rewrite elem_of_app, !list_elem_of_filter. set_solver.
  - apply bool_decide_eq_true in Hok. destruct (reset_eq timer_fuel c u now Lb La (w_k w) Htm HLb HLa Hnow) as (tm' & hb & ha & Heq & Hok' & _).
    eexists _, _, _, _, _, _. split; [exact Heq|split; [exact Hok'|]]. intros v. rewrite elem_of_app, elem_of_timer_insert, !list_elem_of_filter. set_solver.
  - destruct La as [|v La].
    + exists E_OK, (k_timers (w_k w)), (k_blocked_head (w_k w)), (k_active_head (w_k w)), Lb, []. rewrite Hid. split_and!; try done.
      exec_with (service_pop_none c (w_k w) (tk_active _ _ _ Htm)). done.
    + destruct (service_pop_eq c v Lb La (w_k w) Htm) as (tm' & ha & Heq & Hok' & _).
      eexists _, _, _, _, _, _. split; [|split; [exact Hok'|set_solver]]. exec_with Heq. done.
  - apply andb_true_iff in Hok as [Hu%bool_decide_eq_true Hn%bool_decide_eq_true]. destruct (untagged _ _ _ u Htm Hn) as [H1 H2].
    destruct (decide (timer_mode (k_timers (w_k w) u) = TIMER_MODE_PERIODIC)) as [Hm|Hm].
    + destruct (rearm_eq timer_fuel c u Lb La (w_k w) Htm H1 H2 HLb Hm) as (tm' & hb & Heq & Hok & _).
      eexists _, _, _, _, _, _. split; [exec_with Heq; done|split; [exact Hok|]]. intros v. rewrite elem_of_app, elem_of_timer_insert. set_solver.
    + exists E_OK, (k_timers (w_k w)), (k_blocked_head (w_k w)), (k_active_head (w_k w)), Lb, La. rewrite Hid. split_and!; try done.
      exec_with (service_rearm_oneshot timer_fuel c u (w_k w) Hm). done.
Qed.

Lemma timer_call_ok w Q c t op : parts w Q -> active c w = Some t -> allowed ob t (CTimer op) w = true ->
  returns (enter c t (CTimer op)) w (fun _ w' => exists Q', parts w' Q').
Proof.
  intros Hw Hact Hok. destruct (active_spec w Q c t Hw Hact) as ((Hcur & _) & _ & _ & now & _ & _ & _ & Hnow).
  pose proof Hw as (Hbase & _). destruct (bo_timers _ _ _ _ Hbase) as (Lb & La & Htm & Hin).
  destruct (run_timer_changes w c t op now Lb La Hcur Hnow Htm Hin Hok) as (r & tm' & hb & ha & Lb' & La' & Heq & Htm' & Hin').
  cbn [enter]. step. apply returns_zoom. unfold returns at 1. rewrite Heq. step. exists Q. by apply (timers_changed_ok w Q tm' hb ha Lb' La').
Qed.

Lemma call_ok w Q c t o : parts w Q -> active c w = Some t -> w_at w t = PRun -> allowed ob t o w = true ->
  returns (enter c t o) w (fun _ w' => exists Q', parts w' Q').
Proof.
  intros Hw Hact Hat Hok. destruct (active_spec w Q c t Hw Hact) as (_ & _ & _ & now & _ & _ & _ & Hnow).
  pose proof (start_ok w Q c t) as Hstart. rewrite Hat in Hstart.
  assert (scheduler_get_tick_count c (w_k w) = Ret now (w_k w)) as Hcount by (unfold scheduler_get_tick_count; exec; by rewrite Hnow).
  destruct o as [ticks|last period|m x|m|s x|s|op]; [| | | | | |by apply (timer_call_ok w Q)]; cbn [allowed enter] in *.
  - step. apply returns_zoom. unfold returns at 1. rewrite Hcount. unfold go. step. exists Q. rewrite same_k. apply Hstart; [done|done|by left|done|done].
  - cbv zeta. step. apply returns_zoom. step. unfold returns at 1. rewrite Hcount. unfold go.
    destruct (_ <? now); cbn [when]; [unfold console|]; steps; exists Q.
    + apply (start_ok (w <| w_k := _ |>) Q c t); [by apply console_part|done|left; cbn; by rewrite Hat|done..].
    + rewrite same_k. apply Hstart; [done|done|by left|done|done].
  - apply andb_true_iff in Hok as [Hin%bool_decide_eq_true Hno%bool_decide_eq_true]. by apply (lock_ok w Q).
  - apply bool_decide_eq_true in Hok. by apply (unlock_ok w Q c t m).
  - step. apply returns_zoom. unfold semaphore_take_start, scheduler_get_current_task, scheduler_get_tick_count, go.
    destruct (0 <? x); steps; rewrite ?Hnow; steps; exists Q; rewrite same_k; (apply Hstart; [done|done|by left|done|]);
      apply bool_decide_eq_true in Hok; by intros ??? [= <- _ _].
  - apply bool_decide_eq_true in Hok. step. by eapply returns_mono; [by apply (give_ok w Q)|].
Qed.

Lemma resume_ok w Q c t : parts w Q -> active c w = Some t ->
  returns (resume c t (w_at w t)) w (fun _ w' => exists Q', parts w' Q').
Proof.
  intros Hw Hact. destruct (w_at w t) eqn:Hat.
  - by exists Q.
  - by apply (block_ok w Q).
  - unfold resume, go. steps. exists Q. apply (start_ok w Q c t); try done. by right.
  - by apply (lock_resume_ok w Q).
  - by apply (try_ok w Q).
  - by apply (take_resume_ok w Q).
Qed.

(** Giving touches no timer. *)
Lemma give_timers w Q c s : parts w Q -> s ∈ ob_sem ob -> returns (give c s) w (fun _ w' =>
  k_current (w_k w') = k_current (w_k w) /\ k_timers (w_k w') = k_timers (w_k w) /\
  k_blocked_head (w_k w') = k_blocked_head (w_k w) /\ k_active_head (w_k w') = k_active_head (w_k w)).
Proof.
  intros Hw Hin. pose proof Hw as (Hbase & _ & Hs). pose proof (bo_sched _ _ _ _ Hbase) as HI. pose proof (bo_locks _ _ _ _ Hbase) as Hh.
  pose proof (so_ok _ _ _ _ _ _ _ Hs s Hin) as (Hc & Hmx & _). unfold give, gave_one. step. apply returns_zoom. unfold returns at 1.
  destruct (Q (LSem s)) as [|n q] eqn:Hq.
  - rewrite (semaphore_give_counts c s (w_k w) Q (si_mem _ _ _ _ _ _ HI) Hh Hq (proj1 Hc) Hmx).
    destruct (_ <? _); case_decide; by steps.
  - destruct (member_sync _ _ _ _ _ _ (LSem s) n HI I) as (t & -> & _); [rewrite Hq; by left|apply not_elem_of_nil|].
    destruct (semaphore_give_wakes c s t q (w_k w) Q HI Hh Hq) as (d' & te & -> & _). rewrite decide_True by done. by steps.
Qed.

(** What giving and taking a timer off the list leave alone is left alone by
    the whole loop. *)
Lemma expire_keeps (R : world -> world -> Prop) `{!PreOrder R} c now : SemTimer ∈ ob_sem ob ->
  (forall w tm hb ha, R w (w <| w_k := timers_changed (w_k w) tm hb ha |>)) ->
  (forall w Q, parts w Q -> returns (give c SemTimer) w (fun _ w' => R w w')) ->
  forall fuel w Q Lb La, parts w Q -> timers_ok (w_k w) Lb La ->
  (forall t, t ∈ Lb ++ La -> t ∈ ob_timers ob) -> (length Lb <= fuel)%nat ->
  returns (expire fuel c now) w (fun _ w' => R w w' /\ exists Q', parts w' Q').
Proof.
  intros Hsem Hpop Hgive. assert (forall w Q, parts w Q -> returns (mret tt) w (fun _ w' => R w w' /\ exists Q', parts w' Q')) as Hskip
    by (intros w Q Hw; apply returns_ret; split; [reflexivity|by exists Q]).
  induction fuel as [|fuel IH]; intros w Q Lb La Hw Htm Hin Hlen; cbn [expire]; step; apply returns_zoom; step; rewrite same_k.
  - destruct Lb; [|cbn in Hlen; lia]. rewrite (tk_blocked _ _ _ Htm : k_blocked_head (w_k w) = None). by apply (Hskip w Q).
  - destruct Lb as [|t Lb]; [rewrite (tk_blocked _ _ _ Htm : k_blocked_head (w_k w) = None); by apply (Hskip w Q)|].
    destruct (tk_blocked _ _ _ Htm) as [-> _]. step. apply returns_zoom. step. rewrite same_k.
    destruct (_ <=? now); [|by apply (Hskip w Q)]. destruct (pop_eq fuel t Lb La (w_k w) Htm) as [Heq Htm'].
    step. apply returns_zoom. unfold returns at 1. rewrite Heq.
    assert (forall u, u ∈ Lb ++ t :: La -> u ∈ ob_timers ob) as Hin' by (intros u Hu; apply Hin; set_solver).
    pose proof (timers_changed_ok w Q _ _ _ Lb (t :: La) Hw Htm' Hin') as Hw'.
    pose proof (Hpop w _ _ _ : R w (w <| w_k := popped t (w_k w) |>)) as Hpop'.
    change (timers_changed (w_k w) _ _ _) with (popped t (w_k w)) in Hw'. step.
    eapply returns_mono; [eapply returns_both; [eapply returns_both; [by apply (give_ok _ Q c SemTimer Hw')|exact (give_timers _ Q c SemTimer Hw' Hsem)]|exact (Hgive _ Q Hw')]|].
    cbn beta. intros _ w1 [[(Q1 & Hw1) (H1 & H2 & H3 & H4)] HR].
    eapply returns_mono; [apply (IH w1 Q1 Lb (t :: La) Hw1); [by apply (timers_ok_ext (popped t (w_k w)))|done|cbn in Hlen; lia]|].
    cbn beta. intros _ w2 [HR2 HQ2]. split; [|done]. etrans; [exact Hpop'|]. by etrans.
Qed.

#[local] Instance current_preorder : PreOrder (fun w w' => k_current (w_k w') = k_current (w_k w)).
Proof. split; [done|]. intros ?????; congruence. Qed.

Lemma expire_ok c now : SemTimer ∈ ob_sem ob -> forall fuel w Q Lb La, parts w Q -> timers_ok (w_k w) Lb La ->
  (forall t, t ∈ Lb ++ La -> t ∈ ob_timers ob) -> (length Lb <= fuel)%nat ->
  returns (expire fuel c now) w (fun _ w' => k_current (w_k w') = k_current (w_k w) /\ exists Q', parts w' Q').
Proof.
  intros Hsem. apply (expire_keeps (fun w w' => k_current (w_k w') = k_current (w_k w))); [done|done|].
  intros w Q Hw. eapply returns_mono; [by apply (give_timers w Q)|]. by intros _ w' [? _].
Qed.

Context (Htimer : ob_timers ob = [] \/ SemTimer ∈ ob_sem ob).

Lemma interrupt_ok w Q c cntpct u : parts w Q -> k_current (w_k w) c = Some u ->
  returns (timer_interrupt c cntpct) w (fun _ w' => exists Q', parts w' Q').
Proof.
  intros Hw Hcur. unfold timer_interrupt. step. apply returns_zoom. eapply returns_mono; [by apply (tick_part w Q c cntpct u)|].
  cbn beta. intros _ k1 (Hc1 & Q1 & Hw1). rewrite <- Hc1 in Hcur. set (w1 := w <| w_k := k1 |>) in *. change k1 with (w_k w1) in Hcur.
  assert (forall w2 Q2, parts w2 Q2 -> k_current (w_k w2) c = Some u ->
    returns (on_k (scheduler_switch_context c)) w2 (fun _ w' => exists Q', parts w' Q')) as Hswitch.
  { intros w2 Q2 Hw2 Hcur2. apply returns_zoom. exact (switch_part _ Q2 c u Hw2 Hcur2). }
  step. destruct (c =? 0); [|by steps; apply (Hswitch w1 Q1)].
  pose proof Hw1 as (Hbase & _). destruct (bo_cores _ _ _ _ Hbase c u Hcur) as [_ (now & _ & _ & _ & Hnow)].
  step. apply returns_zoom. unfold scheduler_get_tick_count. step. step. rewrite Hnow. apply returns_ret. rewrite same_k.
  destruct (bo_timers _ _ _ _ Hbase) as (Lb & La & Htm & Hin). destruct (timers_bound _ _ _ Htm Hin) as [HLb _].
  destruct Htimer as [He|Hsem].
  - assert (Lb = []) as ->. { destruct Lb as [|t Lb]; [done|]. specialize (Hin t ltac:(by left)). rewrite He in Hin. by apply elem_of_nil in Hin. }
    unfold timer_fuel. cbn [expire]. step. apply returns_zoom. step. rewrite same_k.
    rewrite (tk_blocked _ _ _ Htm : k_blocked_head (w_k w1) = None). steps. by apply (Hswitch w1 Q1).
  - eapply returns_mono; [by apply (expire_ok c now Hsem timer_fuel w1 Q1 Lb La)|]. cbn beta. intros _ w2 [Hc2 [Q2 Hw2]].
    apply (Hswitch w2 Q2 Hw2). by rewrite Hc2.
Qed.

Lemma step_ok w Q e : parts w Q -> returns (step_event ob e) w (fun _ w' => exists Q', parts w' Q').
Proof.
  intros Hw. assert (returns (mret tt) w (fun _ w' => exists Q', parts w' Q')) as Hskip by (by exists Q).
  assert (forall A (m : W A), returns m w (fun _ w' => exists Q', parts w' Q') ->
    returns (m;; mret tt) w (fun _ w' => exists Q', parts w' Q')) as Hdo.
  { intros A m Hm. step. eapply returns_mono; [exact Hm|]. cbv beta. by intros. }
  destruct e as [c o|c|c cntpct|c s]; unfold step_event, returns at 1.
  - destruct (active c w) as [t|] eqn:Hact; [|exact Hskip]. destruct (w_at w t) eqn:Hat; try exact Hskip.
    destruct (allowed ob t o w) eqn:Hok; [|exact Hskip]. by apply Hdo, (call_ok w Q).
  - destruct (active c w) as [t|] eqn:Hact; [|exact Hskip]. by apply Hdo, (resume_ok w Q).
  - destruct (k_current (w_k w) c) as [u|] eqn:Hcur; [|exact Hskip]. by apply (interrupt_ok w Q c cntpct u).
  - case_decide; [by apply Hdo, (give_ok w Q)|exact Hskip].
Qed.

Lemma run_ok es : forall w Q, parts w Q -> returns (run ob es) w (fun _ w' => exists Q', parts w' Q').
Proof.
  induction es as [|e es IH]; intros w Q Hw; cbn [run]; [by exists Q|].
  apply returns_bind. eapply returns_mono; [by apply (step_ok w Q)|]. cbn. intros _ w' (Q' & Hw'). by apply (IH w' Q').
Qed.
End places.

(** ** From the start *)

(** Before the first task runs: no task waits, the mutexes are free and the
    semaphores hold their initial counts.  Timers may be armed already, if the
    semaphore of their service task exists. *)
Record starts (ob : objects) (k : kstate) (Q : queues) : Prop := {
  sr_sched : sched_inv [] k Q;
  sr_locks : k_held k = [];
  sr_stacks : forall t, live k t -> watermark_word k t = Some TASK_WATERMARK;
  sr_cores : forall c t, k_current k c = Some t -> live k (Idle c) /\ exists now, ticking k c now;
  sr_awake : forall t, live k t -> runnable (current_state (k_tcbs k t));
  sr_mtx : forall m, m ∈ ob_mtx ob -> mtx_state (k_mtx k m) = MUTEX_STATE_UNLOCKED /\ mtx_ok k Q m;
  sr_sem : forall s, s ∈ ob_sem ob -> ob_init ob s = (count (k_sem k s), max_count (k_sem k s)) /\ sem_ok k Q s;
  sr_reasons : forall t, wakeup_reason (k_tcbs k t) = WAKEUP_REASON_NONE;
  sr_timers : exists Lb La, timers_ok k Lb La /\ forall t, t ∈ Lb ++ La -> t ∈ ob_timers ob;
  sr_fuel : (length (ob_timers ob) <= timer_fuel)%nat;
  sr_timer_sem : ob_timers ob = [] \/ SemTimer ∈ ob_sem ob
}.

Definition start (k : kstate) : world := mkWorld k (fun _ => PRun) [] (fun _ => 0) (fun _ => 0).

Lemma start_parts ob k Q : starts ob k Q -> parts ob (start k) Q.
Proof.
  intros []. assert (forall l t, sync_list l -> NEvent t ∉ Q l) as Hnq.
  { intros l t Hl Hin. destruct (member_sync _ _ _ _ _ _ _ _ sr_sched0 Hl Hin (not_elem_of_nil _)) as (u & [= <-] & Ha & Hb).
    by apply (runnable_not_blocked _ (sr_awake0 t Ha)). }
  assert (forall m t, m ∈ ob_mtx ob -> mutex_owner (k_mtx k m) <> Some t) as Hno.
  { intros m t Hm. destruct (sr_mtx0 m Hm) as [Hst [_ Hok]]. rewrite Hst in Hok. destruct Hok as [-> _]. done. }
  split_and!; split; cbn; try done.
  - intros t Ha Hb. by apply (runnable_not_blocked _ (sr_awake0 t Ha)).
  - intros m Hm. by apply sr_mtx0.
  - intros t m Hin. by apply (Hnq (LMutex m)) in Hin.
  - intros t m Hin. by apply elem_of_nil in Hin.
  - intros t m Hm Ho. by destruct (Hno m t).
  - intros s Hs. by apply sr_sem0.
  - intros t s Hin. by apply (Hnq (LSem s)) in Hin.
  - by intros t s [|(x & d & ?)].
  - intros t Ht. rewrite sr_reasons0 in Ht. done.
  - intros s Hs. by destruct (sr_sem0 s Hs) as [-> _].
  - intros s Hs. destruct (sr_sem0 s Hs) as [-> _]. cbn. unfold in_flight.
    rewrite (filter_none (granted k (fun _ => PRun) s)); [cbn; lia|]. apply Forall_true. by intros t [].
Qed.

Section systems.
Context (ob : objects) (k : kstate) (Q : queues) (es : list event) (Hstart : starts ob k Q).

Lemma run_parts : returns (run ob es) (start k) (fun _ w => exists Q', parts ob w Q').
Proof. apply (run_ok ob (sr_fuel _ _ _ Hstart) (sr_timer_sem _ _ _ Hstart) es (start k) Q), start_parts, Hstart. Qed.
End systems.

Section consequences.
Context (ob : objects) (w : world) (Q : queues) (Hw : parts ob w Q).

(** A mutex that somebody holds is locked, and its owner is the only holder. *)
Lemma parts_excludes t u m : (t, m) ∈ w_holds w -> (u, m) ∈ w_holds w ->
  t = u /\ mtx_state (k_mtx (w_k w) m) = MUTEX_STATE_LOCKED.
Proof.
  destruct Hw as (_ & Hm & _). intros Ht Hu.
  destruct (mo_holds _ _ _ _ _ Hm t m Ht) as [Hin Hot], (mo_holds _ _ _ _ _ Hm u m Hu) as [_ Hou].
  destruct (mo_ok _ _ _ _ _ Hm m Hin) as [_ Hc]. split; [congruence|]. destruct (mtx_state _); [done|]. destruct Hc; congruence.
Qed.

(** The owner of a mutex whose queue is not empty holds it, or is about to
    come back from [mutex_lock] with it. *)
Lemma parts_owner t m : NEvent t ∈ Q (LMutex m) -> exists o, mutex_owner (k_mtx (w_k w) m) = Some o /\ o <> t /\ live (w_k w) o /\
  ((o, m) ∈ w_holds w \/ locking m (w_at w o) /\ runnable (current_state (k_tcbs (w_k w) o))).
Proof.
  destruct Hw as (Hb & Hm & _). intros Hq. pose proof (mo_at _ _ _ _ _ Hm t m (mo_queue _ _ _ _ _ Hm t m Hq)) as Hin.
  destruct (mo_ok _ _ _ _ _ Hm m Hin) as [_ Hc]. destruct (mtx_state _); [|destruct Hc as [_ Hc]; rewrite Hc in Hq; by apply elem_of_nil in Hq].
  destruct Hc as (o & Ho & Ha & Hno). exists o. split_and!; try done; [by intros ->|].
  destruct (mo_owner _ _ _ _ _ Hm o m Hin Ho) as [|Hl]; [by left|right]. split; [done|].
  destruct (runnable_or_blocked (w_k w) Q o (bo_sched _ _ _ _ Hb) Ha) as [|Hbl]; [done|].
  apply (bo_waits _ _ _ _ Hb o Ha) in Hbl. destruct (w_at w o); try done. cbn in *. by subst.
Qed.

(** A task that waits for no object is on its core's timed list. *)
Lemma parts_delayed t : live (w_k w) t -> current_state (k_tcbs (w_k w) t) = TASK_STATE_BLOCKED -> w_at w t = PDelay ->
  NState t ∈ Q (LBlocked (tcb_core t)).
Proof.
  destruct Hw as (Hb & Hm & Hs). intros Ha Hbl Hat. pose proof (bo_sched _ _ _ _ Hb) as HI.
  destruct (si_placed _ _ _ _ _ _ HI t Ha (not_elem_of_nil _)) as [Hr|cs ce _ Hcs Hce [->| ->] Hsync Hno];
    [by apply (runnable_not_blocked _ Hr) in Hbl| |by apply (wf_container _ _ _ _ (si_mem _ _ _ _ _ _ HI))].
  exfalso. destruct ce as [l|]; [|by apply Hno]. specialize (Hsync l eq_refl).
  apply (wf_container _ _ _ _ (si_mem _ _ _ _ _ _ HI)) in Hce. destruct l as [| |m|s]; try done.
  - apply (mo_queue _ _ _ _ _ Hm) in Hce. by rewrite Hat in Hce.
  - apply (so_queue _ _ _ _ _ _ _ Hs) in Hce as [Hce _]. by rewrite Hat in Hce.
Qed.
End consequences.

(** A call without a timeout does not come back with E_TIMED_OUT. *)
Lemma parts_no_timeout ob w Q c t : parts ob w Q -> active c w = Some t ->
  match w_at w t with
  | PLock m x => x < 0 -> mutex_lock_resume c m t (w_k w) = Ret E_OK (w_k w)
  | PTry s x d => x < 0 -> exists r k', semaphore_try c s x d t (w_k w) = Ret r k' /\ (r = Done E_OK \/ r = Spin)
  | _ => True
  end.
Proof.
  intros Hw Hact. destruct (active_spec ob w Q c t Hw Hact) as (Hb & Ha & Hc & now & _ & _ & _ & Hnow). pose proof Hw as (Hbase & Hm & Hs).
  destruct (w_at w t) as [| | |m x|s x d|] eqn:Hat; try done; intros Hx.
  - rewrite mutex_lock_resume_eq by apply Hbase. rewrite decide_True; [done|].
    destruct (mo_forever _ _ _ _ _ Hm t m x Hat Hx) as [|[Hbl _]]; [done|]. by apply (runnable_not_blocked _ (proj1 (proj2 Hb))) in Hbl.
  - pose proof (so_at _ _ _ _ _ _ _ Hs t s ltac:(right; eauto)) as Hin. destruct (so_ok _ _ _ _ _ _ _ Hs s Hin) as (Hcnt & Hmx & _).
    destruct (Z.ltb_spec 0 (count (k_sem (w_k w) s))) as [Hpos|Hz].
    + eexists _, _. split; [apply semaphore_return_eq; [apply Hbase|lia]|by left].
    + destruct (semaphore_block_eq c s x d t (w_k w) Q (bo_sched _ _ _ _ Hbase) (bo_locks _ _ _ _ Hbase) Hb Hz) as (d' & te & Heq & _);
        [lia..|]. eexists _, _. split; [exact Heq|by right].
Qed.

(** A ledger's flights are not negative. *)
Lemma in_flight_pos k at_ s : 0 <= in_flight k at_ s.
Proof. unfold in_flight. lia. Qed.




(** C13: who waits forever does not time out.  Whatever happened, a task that
    gets to run behind the spin of a [mutex_lock] without timeout returns E_OK,
    as the mutex's owner; and a turn of [semaphore_take] without timeout
    returns E_OK or waits again. *)
Theorem forever_is_forever (ob : objects) (k : kstate) (Q : queues) (es : list event) :
  starts ob k Q ->
  returns (run ob es) (start k) (fun _ w => forall c t, active c w = Some t ->
    match w_at w t with
    | PLock m x => x < 0 -> mutex_lock_resume c m t (w_k w) = Ret E_OK (w_k w)
    | PTry s x d => x < 0 -> exists r k', semaphore_try c s x d t (w_k w) = Ret r k' /\ (r = Done E_OK \/ r = Spin)
    | _ => True
    end).
Proof.
  intros Hs. eapply returns_mono; [by apply (run_parts ob k Q es)|]. cbn. intros _ w (Q' & Hw) c t. by apply (parts_no_timeout ob w Q').
Qed.

(** ** A concrete system: [demo_m1] with an empty semaphore of bound 2 *)

Definition demo_sys : kstate := final (semaphore_init (SemUser 0) 2 0 None) demo_m1.
Definition demo_ob : objects := mkObjects [0] [SemUser 0] (fun _ => (0, 2)) [].

(** Its first task takes the mutex and waits for the semaphore; after a tick
    its second task finds the mutex held, and waits for it; the semaphore is
    given by an interrupt of core 0. *)
Definition demo_events : list event :=
  [ECall 1 (CLock 0 (-1)); ECall 1 (CTake (SemUser 0) (-1)); EStep 1; ETick 1 54000;
   ECall 1 (CLock 0 (-1)); EGive 0 (SemUser 0); ETick 1 108000].

Lemma semaphore_init_still (s : semref) (mx initial : Z) (name : option (list Z)) (k : kstate) (Q : queues) :
  sched_inv [] k Q -> k_held k = [] -> Q (LSem s) = [] -> 0 <= initial <= mx -> mx < 2 ^ 32 ->
  exists k', semaphore_init s mx initial name k = Ret tt k' /\ sched_inv [] k' Q /\ sem_ok k' Q s /\ still k k' /\
    k_tcbs k' = k_tcbs k /\ k_mtx k' = k_mtx k /\ k_held k' = [] /\ k_sem k' s = mkSemaphore mx initial (smph_sync_id (k_sem k' s)) /\ k_current k' = k_current k /\
    k_cores k' = k_cores k.
Proof.
  intros HI Hh Hq Hi Hm. destruct (semaphore_init_eq s mx initial name k Q HI Hh Hq Hi Hm) as (te & id & Heq & HI' & Hok).
  eexists. split; [exact Heq|]. split_and!; try done. cbn. by rewrite fn_lookup_insert.
Qed.

Lemma mutex_init_still (m : Z) (name : option (list Z)) (k : kstate) (Q : queues) :
  sched_inv [] k Q -> k_held k = [] -> Q (LMutex m) = [] ->
  exists k', mutex_init m name k = Ret tt k' /\ still k k' /\ k_tcbs k' = k_tcbs k.
Proof. intros HI Hh Hq. destruct (mutex_init_eq m name k Q HI Hh Hq) as (te & id & Heq & _). eexists. by split; [exact Heq|]. Qed.

Lemma final_keeps {A} R (m : K A) (k : kstate) : keeps ever R m -> R k (final m k).
Proof. intros Hm. specialize (Hm k). unfold runs in Hm. unfold final. destruct (m k); [done|]. apply Hm. Qed.

Lemma demo_m1_still : still demo demo_m1 /\ forall t, wakeup_reason (k_tcbs demo_m1 t) = wakeup_reason (k_tcbs demo t).
Proof.
  destruct (mutex_init_still 0 None demo demo_Q demo_inv demo_held eq_refl) as (k' & Heq & Hst & Ht).
  pose proof (final_keeps _ _ demo_m0 (set_inheritance_touch 0 (fun _ => False) 1 1)) as Htouch. fold demo_m1 in Htouch.
  assert (demo_m0 = k') as He by exact (final_eq _ _ _ _ Heq). rewrite <- He in Hst, Ht.
  split; [etrans; [exact Hst|apply Htouch]|]. intros t. rewrite <- Ht. by apply Htouch.
Qed.

(** No task of [demo] carries a reason to be awake. *)
Lemma demo0_reasons (u : tcb) : wakeup_reason (k_tcbs demo0 u) = WAKEUP_REASON_NONE.
Proof.
  destruct (scheduler_init_eq (H := weak_hooks) 0x8000 1 54000000 1000 7 kernel_zero _ kernel_zero_inv)
    as (d' & st & te & Heq & _); [done..|].
  unfold demo0. erewrite final_eq by exact Heq. cbn. rewrite fn_insert_lookup. by case_decide.
Qed.

Lemma created_reasons (trap me f depth prio params : Z) (name : option (list Z)) (k : kstate) (Q : queues) (u : tcb) :
  sched_inv [] k Q -> k_held k = [] -> heap_ok k -> 0 <= me < COMPANION_CORE_MAX_CORES -> 0 <= k_task_counter k me < MAX_NUM_TASKS ->
  16 <= depth < 2 ^ 16 -> 0 <= prio -> k_heap_offset k + 4 * depth <= HEAP_SIZE_BYTES ->
  (forall t, wakeup_reason (k_tcbs k t) = WAKEUP_REASON_NONE) ->
  wakeup_reason (k_tcbs (final (task_create trap me f depth prio params name) k) u) = WAKEUP_REASON_NONE.
Proof.
  intros HI Hh Hheap Hme Hn Hd Hp Hroom Hk.
  destruct (task_create_eq trap me f depth prio params name k Q HI Hh Hheap Hme Hn Hd Hp Hroom) as (h & d' & te & Heq & _).
  erewrite final_eq by exact Heq. cbn. rewrite fn_insert_lookup. by case_decide.
Qed.

Lemma demo1_reasons (u : tcb) : wakeup_reason (k_tcbs demo1 u) = WAKEUP_REASON_NONE.
Proof.
  unfold demo1. apply (created_reasons 0x9000 1 0x9100 32 2 0 None demo0 _ u demo0_inv);
    [vm_compute; done|by vm_compute|done|by vm_compute|done|done|by vm_compute|apply demo0_reasons].
Qed.

Lemma demo2_reasons (u : tcb) : wakeup_reason (k_tcbs demo2 u) = WAKEUP_REASON_NONE.
Proof.
  unfold demo2. apply (created_reasons 0x9000 1 0x9200 32 2 0 None demo1 _ u demo1_inv);
    [vm_compute; done|by vm_compute|done|by vm_compute|done|done|by vm_compute|apply demo1_reasons].
Qed.

Lemma switched_reason (me : Z) (t u : tcb) (l : lock) (k : kstate) :
  wakeup_reason (k_tcbs (pick me t (requeue me (k <| k_held ::= cons l |>))) u) = wakeup_reason (k_tcbs k u).
Proof. by rewrite switch_tcb_field. Qed.

Lemma demo_reasons (u : tcb) : wakeup_reason (k_tcbs demo u) = WAKEUP_REASON_NONE.
Proof.
  destruct (switch_context_eq 1 demo2 demo_Q demo2_inv) as (p & t & _ & _ & _ & Heq & _);
    [by vm_compute|apply demo2_idle|intros t Ht; by rewrite demo2_current in Ht|].
  unfold demo. rewrite (final_eq _ _ _ _ Heq), switched_reason. apply demo2_reasons.
Qed.

Lemma demo_no_timers : timers_ok demo [] [].
Proof.
  split; [by vm_compute|by vm_compute|apply NoDup_nil_2|apply SSorted_nil|]. intros t. rewrite demo_tags. done.
Qed.

Lemma demo_sys_starts : starts demo_ob demo_sys demo_Q.
Proof.
  assert (0 <= 0 <= 2) as H1 by lia. assert (2 < 2 ^ 32) as H2 by lia.
  destruct (semaphore_init_still (SemUser 0) 2 0 None demo_m1 demo_Q (proj1 demo_m1_ok) demo_m1_held eq_refl H1 H2)
    as (k' & Heq & HI & Hok & Hst & Ht & Hm & Hh & Hn & Hcur & Hco). assert (demo_sys = k') as -> by exact (final_eq _ _ _ _ Heq).
  destruct demo_m1_still as [Hst1 Hr1]. pose proof (transitivity Hst1 Hst) as Hst'. split; [exact HI|exact Hh|..].
  - intros t Ha. rewrite (still_watermark demo k') by done. apply demo_watermark. by apply (still_live demo k').
  - intros c t [Ha Hc]%(si_current _ _ _ _ _ _ HI). apply (still_live demo k' t Hst') in Ha.
    assert (c = 1) as -> by (by destruct (demo_live t Ha) as [->|[->| ->]]).
    split; [by apply (still_live demo k'); [|apply demo_idle]|by apply (still_ticking demo k' 1 0), demo_ticking].
  - intros t Ha. by apply demo_nobody_waits.
  - intros m [->|[]%elem_of_nil]%elem_of_cons. rewrite Hm. split; [exact demo_m1_free|].
    exact (mtx_ok_frame demo_m1 k' demo_Q demo_Q 0 (proj2 demo_m1_ok) (f_equal (fun f => f 0) Hm)
      (fun t => proj2 (still_live demo_m1 k' t Hst)) (fun n Hn => Hn)).
  - intros s [->|[]%elem_of_nil]%elem_of_cons. split; [by rewrite Hn|exact Hok].
  - intros t. rewrite Ht, Hr1. apply demo_reasons.
  - exists [], []. split; [|done]. destruct (st_timers _ _ Hst') as (E1 & E2 & E3). exact (timers_ok_ext demo k' [] [] E1 E2 E3 demo_no_timers).
  - unfold timer_fuel. cbn. lia.
  - by left.
Qed.




Lemma forever_is_forever_witness : returns (run demo_ob demo_events) (start demo_sys) (fun _ w => forall c t x,
  active c w = Some t -> w_at w t = PLock 0 x -> x < 0 -> mutex_lock_resume c 0 t (w_k w) = Ret E_OK (w_k w)).
Proof.
  eapply returns_mono; [exact (forever_is_forever demo_ob demo_sys demo_Q demo_events demo_sys_starts)|].
  cbn. intros _ w Hf c t x Hact Hat. specialize (Hf c t Hact). by rewrite Hat in Hf.
Defined.

(** What becomes of the concrete system: both tasks hold or take what they
    asked for, once the first unlocks. *)
Definition demo_end : option world :=
  match run demo_ob
    (demo_events ++ [EStep 1; ECall 1 (CUnlock 0); ETick 1 162000; EStep 1]) (start demo_sys) with
  | Ret _ w => Some w | Stop _ _ => None
  end.
Example demo_end_shared :
  match demo_end with
  | Some w => w_holds w = [(Pool 1 1, 0)] /\ w_taken w (SemUser 0) = 1 /\ w_given w (SemUser 0) = 1
  | None => False
  end.
Proof. vm_compute. done. Qed.
