(* ===== verification/Program.v ===== *)
(** * Applications as programs over the kernel

    An application is a program per task: at each point a task makes a kernel
    call and goes on with its result, or touches the data the tasks share.
    [turn] runs one step of whatever the scheduler has picked on a core;
    [app_run] any interleaving of turns, timer interrupts and interrupt
    handlers.  [app_run_ok] is the rule by which a property of an application
    is proved: it holds at every moment if each completed call, each access and
    each handler keeps it ([stable]). *)

From S2P Require Import Prelude Types Dll Telemetry Kernel Stack Invariant Scheduler Heap Task SchedulerThm Semaphore Mutex SoftTimer System.

(** ** What a call does to the books *)

Definition under_way (o : call) (p : place) : Prop :=
  match o, p with
  | (CDelay _ | CDelayUntil _ _), (PBlock _ | PDelay) => True
  | CLock m x, PLock m' x' => m' = m /\ x' = x
  | CTake s x, (PTry s' x' _ | PTake s' x' _) => s' = s /\ x' = x
  | _, _ => False
  end.

Definition holds_after (t : tcb) (o : call) (r : option StatusCode) (h : list (tcb * Z)) : list (tcb * Z) :=
  match o, r with
  | CLock m _, Some E_OK => (t, m) :: h
  | CUnlock m, Some _ => filter (fun x => x <> (t, m)) h
  | _, _ => h
  end.
Definition given_after (o : call) (r : option StatusCode) (f : semref -> Z) : semref -> Z :=
  match o, r with CGive s, Some E_OK => <[s := f s + 1]> f | _, _ => f end.
Definition taken_after (o : call) (r : option StatusCode) (f : semref -> Z) : semref -> Z :=
  match o, r with CTake s _, Some E_OK => <[s := f s + 1]> f | _, _ => f end.

Record effect (t : tcb) (o : call) (r : option StatusCode) (w w' : world) : Prop := {
  ef_holds : w_holds w' = holds_after t o r (w_holds w);
  ef_given : w_given w' = given_after o r (w_given w);
  ef_taken : w_taken w' = taken_after o r (w_taken w);
  ef_at : match r with Some _ => w_at w' t = PRun | None => under_way o (w_at w' t) end;
  ef_others : forall u, u <> t -> w_at w' u = w_at w u
}.

Abbreviation anything := (fun _ _ => True).

Lemma runs_on_k {A B} (m : K A) (f : A -> W B) w (Q : B -> world -> Prop) :
  (forall a k, runs (f a) (w <| w_k := k |>) Q anything) -> runs (on_k m ≫= f) w Q anything.
Proof.
  intros Hf. apply runs_bind, runs_zoom. unfold runs at 1. destruct (m (w_k w)) as [a k|s k]; [apply Hf|done].
Qed.

(** What a moved task leaves. *)
Lemma moved_effect t o r p (w w' : world) : w_holds w' = holds_after t o r (w_holds w) -> w_given w' = given_after o r (w_given w) ->
  w_taken w' = taken_after o r (w_taken w) -> w_at w' = <[t := p]> (w_at w) ->
  match r with Some _ => p = PRun | None => under_way o p end -> effect t o r w w'.
Proof.
  intros H1 H2 H3 H4 H5. split; try done; rewrite H4.
  - by rewrite fn_lookup_insert.
  - intros u Hu. by rewrite fn_lookup_insert_ne.
Qed.

Lemma stayed_effect t o r (w w' : world) : w_holds w' = holds_after t o (Some r) (w_holds w) -> w_given w' = given_after o (Some r) (w_given w) ->
  w_taken w' = taken_after o (Some r) (w_taken w) -> w_at w' = w_at w -> w_at w t = PRun -> effect t o (Some r) w w'.
Proof. intros H1 H2 H3 H4 H5. split; try done; by rewrite H4. Qed.

Lemma enter_effect c t o w : w_at w t = PRun -> runs (enter c t o) w (fun r w' => effect t o r w w') anything.
Proof.
  intros Hat. destruct o as [ticks|last period|m x|m|s x|s|op]; cbn [enter]; unfold give, released, acquired, gave_one, go; cbv zeta.
  - apply runs_on_k. intros a k. rsteps. by eapply moved_effect.
  - apply runs_on_k. intros a k. rsteps. by eapply moved_effect.
  - apply runs_on_k. intros [code|] k; [|rsteps; by eapply moved_effect].
    destruct (decide (code = E_OK)) as [->|Hc]; rsteps; apply stayed_effect; try done. cbn. by destruct code.
  - apply runs_on_k. intros a k. rsteps. by apply stayed_effect.
  - apply runs_on_k. intros a k. rsteps. by eapply moved_effect.
  - rstep. apply runs_on_k. intros code k. destruct (decide (code = E_OK)) as [->|Hc]; rsteps; apply stayed_effect; try done.
    cbn. by destruct code.
  - apply runs_on_k. intros a k. rsteps. by apply stayed_effect.
Qed.

Lemma resume_effect c t o w : under_way o (w_at w t) -> runs (resume c t (w_at w t)) w (fun r w' => effect t o r w w') anything.
Proof.
  intros Ho. destruct (w_at w t) as [|u| |m x|s x d|s x d]; destruct o as [ticks|last period|m' x'|m'|s' x'|s'|op]; try done;
    cbn [resume]; unfold took, acquired, go;
    try (apply runs_on_k; intros a k); try (rsteps; by eapply moved_effect); cbn in Ho; destruct Ho as [-> ->].
  - destruct (decide (a = E_OK)) as [->|Hc]; rsteps; eapply moved_effect; try done. cbn. by destruct a.
  - destruct a as [code|]; [|rsteps; by eapply moved_effect].
    destruct (decide (code = E_OK)) as [->|Hc]; rsteps; eapply moved_effect; try done. cbn. by destruct code.
  - destruct a as [code|]; [|rsteps; by eapply moved_effect].
    destruct (decide (code = E_OK)) as [->|Hc]; rsteps; eapply moved_effect; try done. cbn. by destruct code.
Qed.

(** ** What a call may return *)

(** A give fails only when the tokens not taken yet fill the semaphore. *)
Definition may_return (ob : objects) (given taken : semref -> Z) (o : call) (code : StatusCode) : Prop :=
  match o with
  | CDelay _ | CDelayUntil _ _ | CUnlock _ => code = E_OK
  | CLock _ x | CTake _ x => x < 0 -> code = E_OK
  | CTimer _ => True
  | CGive s => code = E_OK \/ (ob_init ob s).2 <= (ob_init ob s).1 + given s - taken s
  end.

Section codes.
Context (ob : objects) (w : world) (Q : queues) (c : Z) (t : tcb).
Context (Hw : parts ob w Q) (Hact : active c w = Some t) (Hfuel : (length (ob_timers ob) <= timer_fuel)%nat).
Abbreviation may := (may_return ob (w_given w) (w_taken w)).

(** [give], with what its result says of the count. *)
Lemma give_code s : s ∈ ob_sem ob -> returns (semaphore_give c s) (w_k w) (fun r _ => may (CGive s) r).
Proof.
  intros Hin. destruct Hw as (Hbase & _ & Hs). destruct (so_ok _ _ _ _ _ _ _ Hs s Hin) as (Hc & Hmx & _).
  pose proof (so_bound _ _ _ _ _ _ _ Hs s Hin) as Hb. pose proof (so_ledger _ _ _ _ _ _ _ Hs s Hin) as Hl.
  pose proof (in_flight_pos (w_k w) (w_at w) s). unfold returns, may_return. destruct (Q (LSem s)) as [|n q] eqn:Hq.
  - rewrite (semaphore_give_counts c s (w_k w) Q (si_mem _ _ _ _ _ _ (bo_sched _ _ _ _ Hbase)) (bo_locks _ _ _ _ Hbase) Hq (proj1 Hc) Hmx).
    destruct (Z.ltb_spec (count (k_sem (w_k w) s)) (max_count (k_sem (w_k w) s))); [by left|right; lia].
  - destruct (member_sync _ _ _ _ _ _ (LSem s) n (bo_sched _ _ _ _ Hbase) I) as (u & -> & _); [rewrite Hq; by left|apply not_elem_of_nil|].
    destruct (semaphore_give_wakes c s u q (w_k w) Q (bo_sched _ _ _ _ Hbase) (bo_locks _ _ _ _ Hbase) Hq) as (d' & te & -> & _). by left.
Qed.

Lemma lock_code m x : m ∈ ob_mtx ob -> w_at w t = PRun -> (t, m) ∉ w_holds w -> x < 0 ->
  returns (mutex_lock c m x) (w_k w) (fun r _ => r = Done E_OK \/ r = Spin).
Proof.
  intros Hin Hat Hno Hx. destruct (active_spec ob w Q c t Hw Hact) as (Hb & _ & _ & now & _ & _ & _ & Hnow).
  destruct Hw as (Hbase & Hm & _). pose proof (bo_sched _ _ _ _ Hbase) as HI. pose proof (bo_locks _ _ _ _ Hbase) as Hh.
  pose proof (mo_ok _ _ _ _ _ Hm m Hin) as Hok. unfold returns. destruct (mtx_state (k_mtx (w_k w) m)) eqn:Hst.
  - pose proof Hok as (_ & Hcase). rewrite Hst in Hcase. destruct Hcase as (o & How & _ & _). assert (o <> t) as Hot.
    { intros ->. destruct (mo_owner _ _ _ _ _ Hm t m Hin How) as [|Hl]; [done|]. by rewrite Hat in Hl. }
    destruct (mutex_lock_waits c m x now t o (w_k w) Q HI Hok Hh Hb Hnow Hst How Hot ltac:(lia)) as (k' & Q' & -> & _). by right.
  - destruct (mutex_lock_takes c m x t (w_k w) Q HI Hok Hh (proj1 Hb) Hst) as (k' & -> & _). by left.
Qed.

Lemma returns_on_k {A B} (m : K A) (f : A -> W B) (P : A -> Prop) (R : B -> world -> Prop) :
  returns m (w_k w) (fun a _ => P a) -> (forall a k, P a -> runs (f a) (w <| w_k := k |>) R anything) -> runs (on_k m ≫= f) w R anything.
Proof.
  intros Hm Hf. apply runs_bind, runs_zoom. unfold runs at 1. unfold returns in Hm. destruct (m (w_k w)) as [a k|s k]; [by apply Hf|done].
Qed.

Lemma enter_code o : w_at w t = PRun -> allowed ob t o w = true ->
  runs (enter c t o) w (fun r _ => forall code, r = Some code -> may o code) anything.
Proof.
  intros Hat Hok. destruct o as [ticks|last period|m x|m|s x|s|op]; cbn [enter allowed] in *; unfold give, released, acquired, gave_one, go; cbv zeta.
  - apply runs_on_k. intros a k. by rsteps.
  - apply runs_on_k. intros a k. by rsteps.
  - apply andb_true_iff in Hok as [Hin%bool_decide_eq_true Hno%bool_decide_eq_true]. destruct (Z.ltb_spec x 0) as [Hx|Hx].
    + apply (returns_on_k _ _ _ _ (lock_code m x Hin Hat Hno Hx)). intros a k [->| ->]; rsteps; [by intros code [= <-]|done].
    + apply runs_on_k. intros [code|] k; [destruct (decide _)|]; rsteps; intros code' _; cbn; lia.
  - apply runs_on_k. intros a k. rsteps. by intros code [= <-].
  - apply runs_on_k. intros a k. by rsteps.
  - apply bool_decide_eq_true in Hok. rstep.
    apply (returns_on_k _ _ _ _ (give_code s Hok)). intros a k Ha. destruct (decide _); rsteps; by intros code [= <-].
  - apply runs_on_k. intros a k. by rsteps.
Qed.

Lemma resume_code o : under_way o (w_at w t) ->
  runs (resume c t (w_at w t)) w (fun r _ => forall code, r = Some code -> may o code) anything.
Proof.
  intros Ho. pose proof (parts_no_timeout ob w Q c t Hw Hact) as Hno. pose proof Hw as (Hbase & _).
  destruct (w_at w t) as [|u| |m x|s x d|s x d]; destruct o as [ticks|last period|m' x'|m'|s' x'|s'|op]; try done; cbn [resume]; unfold took, acquired, go.
  1,2: apply runs_on_k; intros a k; by rsteps.
  1,2: rsteps; by intros code [= <-].
  all: cbn in Ho; destruct Ho as [-> ->].
  - destruct (Z.ltb_spec x' 0) as [Hx|Hx].
    + apply (returns_on_k _ _ (fun r => r = E_OK)); [unfold returns; by rewrite Hno|]. intros a k ->. rsteps. by intros code [= <-].
    + apply runs_on_k. intros a k. destruct (decide _); rsteps; intros code _; cbn; lia.
  - destruct (Z.ltb_spec x' 0) as [Hx|Hx].
    + destruct (Hno Hx) as (r & k' & Heq & Hr). apply (returns_on_k _ _ (fun a => a = r)); [unfold returns; by rewrite Heq|].
      intros a k ->. destruct Hr as [->| ->]; rsteps; [by intros code [= <-]|done].
    + apply runs_on_k. intros [code|] k; [destruct (decide _)|]; rsteps; intros code' _; cbn; lia.
  - apply (returns_on_k _ _ (fun r => r = Done E_OK \/ r = Spin)).
    + unfold returns. rewrite semaphore_resume_eq by apply Hbase. case_decide; [by left|by right].
    + intros a k [->| ->]; rsteps; [by intros code [= <-]|done].
Qed.

(** A turn within a call. *)
Definition good (o : call) (r : option StatusCode) (w' : world) : Prop :=
  (exists Q', parts ob w' Q') /\ effect t o r w w' /\ forall code, r = Some code -> may o code.

Lemma enter_good o : w_at w t = PRun -> allowed ob t o w = true -> returns (enter c t o) w (good o).
Proof.
  intros Hat Hok. eapply returns_mono.
  - eapply returns_both; [eapply returns_both; [by apply (call_ok ob Hfuel w Q)|by apply enter_effect]|by apply enter_code].
  - cbn. intros r w' [[H1 H2] H3]. by split_and!.
Qed.

Lemma resume_good o : under_way o (w_at w t) -> returns (resume c t (w_at w t)) w (good o).
Proof.
  intros Ho. eapply returns_mono.
  - eapply returns_both; [eapply returns_both; [by apply (resume_ok ob w Q)|by apply resume_effect]|by apply resume_code].
  - cbn. intros r w' [[H1 H2] H3]. by split_and!.
Qed.
End codes.

(** ** Applications *)

(** At each point of its program a task calls the kernel and goes on with the
    result, or reads and writes the data it shares with other tasks; such a
    step may look at its core and at the kernel (the tick count, a priority). *)
Inductive action (D L : Type) := Do (o : call) (k : StatusCode -> L) | Mem (f : Z -> kstate -> D -> D * L).
#[global] Arguments Do {_ _}.
#[global] Arguments Mem {_ _}.

Record app (D L : Type) := mkApp { a_w : world; a_data : D; a_loc : tcb -> L }.
#[global] Arguments mkApp {_ _}.
#[global] Arguments a_w {_ _}.
#[global] Arguments a_data {_ _}.
#[global] Arguments a_loc {_ _}.
#[export] Instance eta_app D L : Settable (app D L) := fun r => mkApp (a_w r) (a_data r) (a_loc r).

(** What the properties of an application are about. *)
Record books (D L : Type) := mkBooks {
  b_holds : list (tcb * Z); b_given : semref -> Z; b_taken : semref -> Z; b_data : D; b_loc : tcb -> L
}.
#[global] Arguments mkBooks {_ _}.
#[global] Arguments b_holds {_ _}.
#[global] Arguments b_given {_ _}.
#[global] Arguments b_taken {_ _}.
#[global] Arguments b_data {_ _}.
#[global] Arguments b_loc {_ _}.

Inductive moment := Turn (c : Z) | Tick (c cntpct : Z) | Isr (c : Z) (s : semref) | Timer (c : Z) (op : timer_op).

(** ** What gives of the interrupts do to the books *)

Definition gave_some (s : semref) (w w' : world) : Prop :=
  w_holds w' = w_holds w /\ w_at w' = w_at w /\ w_taken w' = w_taken w /\
  exists n : nat, w_given w' = <[s := w_given w s + Z.of_nat n]> (w_given w).

Lemma gave_none s w k : gave_some s w (w <| w_k := k |>).
Proof. split_and!; try done. exists 0%nat. cbn. rewrite Z.add_0_r. by rewrite fn_insert_id. Qed.

Lemma gave_trans s w1 w2 w3 : gave_some s w1 w2 -> gave_some s w2 w3 -> gave_some s w1 w3.
Proof.
  intros (H1 & H2 & H3 & n & H4) (H1' & H2' & H3' & n' & H4'). split_and!; try congruence. exists (n + n')%nat.
  rewrite H4', H4, fn_insert_insert, fn_lookup_insert. f_equal. lia.
Qed.

Lemma give_effect c s w : runs (give c s) w (fun _ w' => gave_some s w w') anything.
Proof.
  unfold give, gave_one. apply runs_on_k. intros code k. destruct (decide (code = E_OK)) as [->|Hc]; rsteps; [|by apply gave_none].
  split_and!; try done. by exists 1%nat.
Qed.

Lemma on_k_effect {A B} s (m : K A) (f : A -> W B) w :
  (forall a k, runs (f a) (w <| w_k := k |>) (fun _ w' => gave_some s w w') anything) ->
  runs (on_k m ≫= f) w (fun _ w' => gave_some s w w') anything.
Proof. apply runs_on_k. Qed.

Lemma gave_runs {A} s w k (m : W A) : runs m (w <| w_k := k |>) (fun _ w' => gave_some s (w <| w_k := k |>) w') anything ->
  runs m (w <| w_k := k |>) (fun _ w' => gave_some s w w') anything.
Proof. unfold runs. destruct (m _); [|done]. apply gave_trans, gave_none. Qed.

Lemma expire_effect c now : forall fuel w, runs (expire fuel c now) w (fun _ w' => gave_some SemTimer w w') anything.
Proof.
  induction fuel as [|fuel IH]; intros w; cbn [expire]; apply on_k_effect; intros [t|] k; try (rsteps; apply gave_none);
    apply gave_runs, on_k_effect; intros e k2; (destruct (e <=? now); [|rsteps; apply gave_none]).
  - apply runs_zoom. done.
  - apply gave_runs, on_k_effect. intros _ k3. apply gave_runs. rstep. eapply runs_mono; [apply give_effect|cbn beta|done].
    intros _ w1 Hw1. eapply runs_mono; [apply IH|cbn beta|done]. intros _ w2. by apply gave_trans.
Qed.

Lemma interrupt_effect c cntpct w : runs (timer_interrupt c cntpct) w (fun _ w' => gave_some SemTimer w w') anything.
Proof.
  unfold timer_interrupt. apply on_k_effect. intros _ k. apply gave_runs. rstep.
  assert (forall w1, gave_some SemTimer (w <| w_k := k |>) w1 ->
    runs (on_k (scheduler_switch_context c)) w1 (fun _ w' => gave_some SemTimer (w <| w_k := k |>) w') anything) as Hsw.
  { intros w1 Hw1. unfold on_k. apply runs_zoom. unfold runs. destruct (scheduler_switch_context c (w_k w1)) as [[] k'|]; [|done].
    eapply gave_trans; [exact Hw1|apply gave_none]. }
  destruct (c =? 0); [|rsteps; by apply Hsw, (gave_none SemTimer w)].
  apply runs_on_k. intros now k2. eapply runs_mono; [apply expire_effect|cbn beta|done]. intros _ w2 Hw2. apply Hsw.
  eapply gave_trans; [apply gave_none|exact Hw2].
Qed.

Lemma timer_effect c t op w : runs (enter c t (CTimer op)) w (fun _ w' => gave_some SemTimer w w') anything.
Proof. cbn [enter]. apply on_k_effect. intros r k. rsteps. apply gave_none. Qed.

Section programs.
Context {D L : Type} (ob : objects) (isr : list semref) (prog : tcb -> L -> action D L).

Definition on_w {A} (m : W A) : M (app D L) A := zoom a_w (fun w a => a <| a_w := w |>) m.

Definition back (t : tcb) (k : StatusCode -> L) (r : option StatusCode) : M (app D L) unit :=
  match r with Some code => modify (fun a => a <| a_loc ::= <[t := k code]> |>) | None => mret tt end.

(** One step of the task that runs on core [c]. *)
Definition turn (c : Z) : M (app D L) unit := fun a =>
  match active c (a_w a) with
  | None => Ret tt a
  | Some t =>
      match prog t (a_loc a t) with
      | Do o k => (r ← on_w (match w_at (a_w a) t with PRun => enter c t o | p => resume c t p end); back t k r) a
      | Mem f => let '(d, l) := f c (w_k (a_w a)) (a_data a) in Ret tt (a <| a_data := d |> <| a_loc ::= <[t := l]> |>)
      end
  end.

(** The interrupt handlers give the semaphores [isr].  What the timers' service
    task does between its takes, and the creation of timers, is left open: it
    may happen on any core whose task is between two calls. *)
Definition app_step (e : moment) : M (app D L) unit :=
  match e with
  | Turn c => turn c
  | Tick c cntpct => on_w (step_event ob (ETick c cntpct))
  | Isr c s => if decide (s ∈ isr) then on_w (step_event ob (EGive c s)) else mret tt
  | Timer c op => on_w (step_event ob (ECall c (CTimer op)))
  end.

Fixpoint app_run (es : list moment) : M (app D L) unit :=
  match es with [] => mret tt | e :: es' => app_step e;; app_run es' end.

(** *** The rules of the kernel, as conditions on the program

    [held t l] lists the mutexes task [t] holds at point [l]. *)
Context (held : tcb -> L -> list Z).

Definition held_after (o : call) (code : StatusCode) (h : list Z) : list Z :=
  match o, code with
  | CLock m _, E_OK => m :: h
  | CUnlock m, _ => filter (fun m' => m' <> m) h
  | _, _ => h
  end.

Definition permitted (o : call) (h : list Z) : Prop :=
  match o with
  | CDelay _ | CDelayUntil _ _ => True
  | CLock m _ => m ∈ ob_mtx ob /\ m ∉ h
  | CUnlock m => m ∈ h
  | CTake s _ | CGive s => s ∈ ob_sem ob
  | CTimer (TStop t) | CTimer (TReset t) => t ∈ ob_timers ob
  | CTimer _ => False
  end.

Definition obeys : Prop := forall t l,
  match prog t l with
  | Do o k => permitted o (held t l) /\ forall given taken code, may_return ob given taken o code ->
      forall m, m ∈ held t (k code) <-> m ∈ held_after o code (held t l)
  | Mem f => forall c k d m, m ∈ held t (f c k d).2 <-> m ∈ held t l
  end.

Definition books_of (a : app D L) : books D L := mkBooks (w_holds (a_w a)) (w_given (a_w a)) (w_taken (a_w a)) (a_data a) (a_loc a).

Record app_ok (a : app D L) : Prop := {
  ao_parts : exists Q, parts ob (a_w a) Q;
  ao_held : forall t m, (t, m) ∈ w_holds (a_w a) <-> m ∈ held t (a_loc a t);
  ao_at : forall t, w_at (a_w a) t = PRun \/ exists o k, prog t (a_loc a t) = Do o k /\ under_way o (w_at (a_w a) t)
}.

(** *** What a property of the books must withstand *)
Definition called (t : tcb) (o : call) (k : StatusCode -> L) (code : StatusCode) (b : books D L) : books D L :=
  mkBooks (holds_after t o (Some code) (b_holds b)) (given_after o (Some code) (b_given b)) (taken_after o (Some code) (b_taken b))
    (b_data b) (<[t := k code]> (b_loc b)).
Definition touched (t : tcb) (f : D -> D * L) (b : books D L) : books D L :=
  mkBooks (b_holds b) (b_given b) (b_taken b) (f (b_data b)).1 (<[t := (f (b_data b)).2]> (b_loc b)).
Definition isr_gave (s : semref) (b : books D L) : books D L :=
  mkBooks (b_holds b) (<[s := b_given b s + 1]> (b_given b)) (b_taken b) (b_data b) (b_loc b).

(** What the kernel promises of the books: a mutex has one holder, and no
    more tokens are taken than there were. *)
Record lawful (b : books D L) : Prop := {
  lw_excl : forall t u m, m ∈ held t (b_loc b t) -> m ∈ held u (b_loc b u) -> t = u;
  lw_ledger : forall s, s ∈ ob_sem ob -> b_taken b s <= (ob_init ob s).1 + b_given b s
}.

Record stable (J : books D L -> Prop) : Prop := {
  sb_call : forall b t o k code, lawful b -> J b -> prog t (b_loc b t) = Do o k ->
    may_return ob (b_given b) (b_taken b) o code -> lawful (called t o k code b) -> J (called t o k code b);
  sb_mem : forall b t f c k, lawful b -> J b -> prog t (b_loc b t) = Mem f -> J (touched t (f c k) b);
  sb_isr : forall b s, lawful b -> J b -> s ∈ isr -> J (isr_gave s b)
}.

Lemma app_lawful a : app_ok a -> lawful (books_of a).
Proof.
  intros [[Q HQ] Hh _]. split; cbn.
  - intros t u m Ht%Hh Hu%Hh. by destruct (parts_excludes ob (a_w a) Q HQ t u m Ht Hu).
  - intros s Hin. destruct HQ as (_ & _ & Hs). pose proof (so_ledger _ _ _ _ _ _ _ Hs s Hin). destruct (so_ok _ _ _ _ _ _ _ Hs s Hin) as (Hc & _).
    pose proof (in_flight_pos (w_k (a_w a)) (w_at (a_w a)) s). lia.
Qed.

Context (Hobeys : obeys) (Hisr : forall s, s ∈ isr -> s ∈ ob_sem ob).
Context (Hfuel : (length (ob_timers ob) <= timer_fuel)%nat) (Htimer : SemTimer ∈ isr).

Lemma permitted_allowed a t o k : app_ok a -> prog t (a_loc a t) = Do o k -> allowed ob t o (a_w a) = true.
Proof.
  intros [_ Hh _] Hp. pose proof (Hobeys t (a_loc a t)) as Ho. rewrite Hp in Ho. destruct Ho as [Ho _].
  destruct o as [| |m x|m|s x|s|op]; cbn in *; try done; try (by apply bool_decide_eq_true; rewrite ?Hh); [|by destruct op; try done; apply bool_decide_eq_true].
  destruct Ho as [H1 H2]. apply andb_true_iff. split; apply bool_decide_eq_true; by rewrite ?Hh.
Qed.

(** A step of a call that does not return leaves the books as they are. *)
Lemma unfinished_ok a t o k w' : app_ok a -> prog t (a_loc a t) = Do o k -> good ob (a_w a) t o None w' ->
  app_ok (a <| a_w := w' |>) /\ books_of (a <| a_w := w' |>) = books_of a.
Proof.
  intros [HQ Hh Hat] Hp (HQ' & [E1 E2 E3 E4 E5] & _).
  assert (w_holds w' = w_holds (a_w a)) as Hsame by (rewrite E1; by destruct o).
  split; [split; cbn; [done|intros u m; by rewrite Hsame|]|].
  - intros u. destruct (decide (u = t)) as [->|Hu]; [right; by exists o, k|]. rewrite E5 by done. apply Hat.
  - unfold books_of. cbn. f_equal; [done|rewrite E2|rewrite E3]; by destruct o.
Qed.

Lemma finished_ok a t o k code w' : app_ok a -> prog t (a_loc a t) = Do o k -> good ob (a_w a) t o (Some code) w' ->
  let a' := a <| a_w := w' |> <| a_loc ::= <[t := k code]> |> in
  app_ok a' /\ books_of a' = called t o k code (books_of a) /\ may_return ob (w_given (a_w a)) (w_taken (a_w a)) o code.
Proof.
  intros [HQ Hh Hat] Hp (HQ' & [E1 E2 E3 E4 E5] & Hcode). pose proof (Hobeys t (a_loc a t)) as Ho. rewrite Hp in Ho.
  cbv zeta. split; [|split; [unfold books_of, called; cbn; by rewrite E1, E2, E3|by apply Hcode]].
  destruct Ho as [_ Ho]. split; cbn; [done| |].
  - intros u m. rewrite E1. rewrite fn_insert_lookup. case_decide as Hu; [subst u; rewrite (Ho _ _ _ (Hcode code eq_refl))|].
    + destruct o as [| |m' x|m'|s x|s|op]; cbn; try apply Hh.
      * destruct code; try apply Hh. rewrite !elem_of_cons, Hh. split; intros [He|]; auto; [left; congruence|left; congruence].
      * rewrite !list_elem_of_filter, Hh. split; intros [Hne ?]; (split; [|done]); congruence.
    + assert (forall h, (u, m) ∈ holds_after t o (Some code) h <-> (u, m) ∈ h) as ->; [|apply Hh].
      intros h. destruct o as [| |m' x|m'|s x|s|op]; cbn; try done.
      * destruct code; try done. rewrite elem_of_cons. split; [intros [[= -> ->]|]; done|by right].
      * rewrite list_elem_of_filter. split; [by intros []|]. intros. split; [congruence|done].
  - intros u. rewrite fn_insert_lookup. case_decide as Hu; [subst u; by left|]. rewrite E5 by done. apply Hat.
Qed.

(** Interrupts touch nothing but the kernel, and the counts of what a handler
    gives. *)
Lemma interrupted_ok a w' : app_ok a -> (exists Q', parts ob w' Q') -> w_holds w' = w_holds (a_w a) -> w_at w' = w_at (a_w a) ->
  app_ok (a <| a_w := w' |>).
Proof. intros [HQ Hh Hat] HQ' H1 H2. split; cbn; [done|by rewrite H1|by rewrite H2]. Qed.

Context (J : books D L -> Prop) (HJ : stable J).
Definition fine (a : app D L) : Prop := app_ok a /\ J (books_of a).

Lemma turn_ok c a : fine a -> returns (turn c) a (fun _ a' => fine a').
Proof.
  intros [Hok HJa]. unfold turn, returns at 1. destruct (active c (a_w a)) as [t|] eqn:Hact; [|by split].
  pose proof Hok as [[Q HQ] _ Hat]. destruct (prog t (a_loc a t)) as [o k|f] eqn:Hp.
  - match goal with |- match ?m a with _ => _ end => change (returns m a (fun _ a' => fine a')) end.
    apply returns_bind. unfold on_w. apply returns_zoom.
    assert (returns (match w_at (a_w a) t with PRun => enter c t o | p => resume c t p end) (a_w a) (good ob (a_w a) t o)) as Hgood.
    { pose proof (enter_good ob (a_w a) Q c t HQ Hact Hfuel o) as He. pose proof (resume_good ob (a_w a) Q c t HQ Hact Hfuel o) as Hr.
      destruct (Hat t) as [Hrun|(o' & k' & Hp' & Hu)].
      - rewrite Hrun. apply He; [done|]. by eapply permitted_allowed.
      - rewrite Hp in Hp'. injection Hp' as <- <-. specialize (Hr Hu). destruct (w_at (a_w a) t); try done. by destruct o. }
    eapply returns_mono; [exact Hgood|]. intros [code|] w' Hw'.
    + unfold back. apply returns_modify. destruct (finished_ok a t o k code w' Hok Hp Hw') as (H1 & H2 & H3). split; [exact H1|].
      pose proof (app_lawful _ H1) as Hlaw. rewrite H2 in Hlaw.
      pose proof (sb_call J HJ (books_of a) t o k code (app_lawful a Hok) HJa Hp H3 Hlaw) as HJ'. rewrite <- H2 in HJ'. exact HJ'.
    + destruct (unfinished_ok a t o k w' Hok Hp Hw') as [H1 H2]. split; [exact H1|]. rewrite <- H2 in HJa. exact HJa.
  - destruct (f c (w_k (a_w a)) (a_data a)) as [d l] eqn:Hf. pose proof (Hobeys t (a_loc a t)) as Ho. rewrite Hp in Ho.
    pose proof (sb_mem J HJ (books_of a) t f c (w_k (a_w a)) (app_lawful a Hok) HJa Hp) as HJ'. unfold touched in HJ'. cbn in HJ'. rewrite Hf in HJ'. split; [|exact HJ'].
    destruct Hok as [_ Hh _]. split; cbn; [by exists Q|..].
    + intros u m. rewrite fn_insert_lookup. case_decide as Hu; [|done]. subst u. specialize (Ho c (w_k (a_w a)) (a_data a) m). rewrite Hf in Ho. by rewrite Ho.
    + intros u. rewrite fn_insert_lookup. case_decide as Hu; [subst u|done]. left.
      destruct (Hat t) as [|(o & k & Ho' & _)]; [done|congruence].
Qed.

Lemma gave_lawful s n b : lawful b -> J b -> s ∈ isr ->
  J (mkBooks (b_holds b) (<[s := b_given b s + Z.of_nat n]> (b_given b)) (b_taken b) (b_data b) (b_loc b)).
Proof.
  intros Hlaw HJb Hs. assert (forall n, let b' := mkBooks (b_holds b) (<[s := b_given b s + Z.of_nat n]> (b_given b)) (b_taken b) (b_data b) (b_loc b) in
    lawful b' /\ J b') as Hn; [|by apply Hn].
  clear n. induction n as [|n [IHl IHJ]]; cbv zeta.
  - rewrite Z.add_0_r, fn_insert_id by done. by destruct b.
  - pose proof (sb_isr J HJ _ s IHl IHJ Hs) as HJ'. unfold isr_gave in HJ'. cbn in HJ'. rewrite fn_insert_insert, fn_lookup_insert in HJ'.
    replace (b_given b s + Z.of_nat n + 1) with (b_given b s + Z.of_nat (S n)) in HJ' by lia. split; [|exact HJ'].
    split; cbn; [apply Hlaw|]. intros s' Hs'. pose proof (lw_ledger _ Hlaw s' Hs'). rewrite fn_insert_lookup. case_decide; subst; lia.
Qed.

Lemma gave_fine a w' s : fine a -> (exists Q', parts ob w' Q') -> gave_some s (a_w a) w' -> s ∈ isr -> fine (a <| a_w := w' |>).
Proof.
  intros [Hok HJa] HQ' (H1 & H2 & H3 & n & H4) Hs. split; [by apply interrupted_ok|].
  pose proof (gave_lawful s n (books_of a) (app_lawful a Hok) HJa Hs) as HJ'. unfold books_of in *. cbn in *. by rewrite H1, H3, H4.
Qed.

Lemma app_step_ok e a : fine a -> returns (app_step e) a (fun _ a' => fine a').
Proof.
  destruct e as [c|c cntpct|c s|c op]; cbn [app_step]; [by apply turn_ok|..]; intros Hfine; pose proof Hfine as [Hok HJa]; pose proof Hok as [[Q HQ] _ _].
  - unfold on_w. apply returns_zoom. unfold returns at 1. cbn [step_event].
    destruct (k_current (w_k (a_w a)) c) as [u|] eqn:Hcur; [|by destruct a].
    match goal with |- match ?m (a_w a) with _ => _ end => change (returns m (a_w a) (fun _ w' => fine (a <| a_w := w' |>))) end.
    eapply returns_mono; [eapply returns_both; [by apply (interrupt_ok ob Hfuel (or_intror (Hisr _ Htimer)) (a_w a) Q c cntpct u)|apply interrupt_effect]|].
    cbn beta. intros _ w' [HQ' Heff]. by apply (gave_fine a w' SemTimer).
  - case_decide as Hs; [|done]. unfold on_w. apply returns_zoom. unfold returns at 1. cbn [step_event]. rewrite decide_True by auto.
    match goal with |- match ?m (a_w a) with _ => _ end => change (returns m (a_w a) (fun _ w' => fine (a <| a_w := w' |>))) end.
    apply returns_bind. eapply returns_mono; [eapply returns_both; [apply (give_ok ob (a_w a) Q c s HQ); auto|apply give_effect]|].
    cbn beta. intros r w' [HQ' Heff]. apply returns_ret. by apply (gave_fine a w' s).
  - unfold on_w. apply returns_zoom. unfold returns at 1. cbn [step_event].
    destruct (active c (a_w a)) as [t|] eqn:Hact; [|by destruct a]. destruct (w_at (a_w a) t) eqn:Hat; try by destruct a.
    destruct (allowed ob t (CTimer op) (a_w a)) eqn:Hal; [|by destruct a].
    match goal with |- match ?m (a_w a) with _ => _ end => change (returns m (a_w a) (fun _ w' => fine (a <| a_w := w' |>))) end.
    apply returns_bind. eapply returns_mono; [eapply returns_both; [by apply (timer_call_ok ob Hfuel (a_w a) Q c t op)|by apply timer_effect]|].
    cbn beta. intros r w' [HQ' Heff]. apply returns_ret. by apply (gave_fine a w' SemTimer).
Qed.

Lemma app_run_ok es : forall a, fine a -> returns (app_run es) a (fun _ a' => fine a').
Proof.
  induction es as [|e es IH]; intros a Ha; cbn [app_run]; [done|].
  apply returns_bind. eapply returns_mono; [by apply app_step_ok|]. cbn. intros _ a' Ha'. by apply IH.
Qed.

(** The application before its first step. *)
Definition launch (k : kstate) (d : D) (l0 : tcb -> L) : app D L := mkApp (start k) d l0.

Lemma launch_ok k Q d l0 : starts ob k Q -> (forall t m, m ∉ held t (l0 t)) -> app_ok (launch k d l0).
Proof.
  intros Hs Hl. split; cbn; [exists Q; by apply start_parts| |by left]. intros t m. split; [by intros ?%elem_of_nil|]. by intros ?%Hl.
Qed.
End programs.
