(* ===== verification/Inheritance.v ===== *)
(** * Priority inheritance on the whole kernel

    What the priorities of the tasks are while any application runs over
    [System], as long as no task locks a mutex while it holds one: a task that
    holds no mutex runs at its base priority, and the holder of a mutex runs
    at least at the priority of every task that waits for it, so that the tick
    does not let a task of lower priority run instead.  Inheritance is not
    transitive in the code (a holder that waits itself passes no boost on), and
    without the condition the bound does not hold. *)

From S2P Require Import Prelude Types Dll Telemetry Kernel Stack Invariant Scheduler Heap Task SchedulerThm Semaphore Mutex SoftTimer System Program.

(** ** What the calls on semaphores, timers and delays leave alone *)

(** The mutexes and the tasks' priorities; only tasks in [B] may become
    BLOCKED. *)
Record calm (B : tcb -> Prop) (k k' : kstate) : Prop := {
  cm_mtx : k_mtx k' = k_mtx k;
  cm_prio : forall u, priority (k_tcbs k' u) = priority (k_tcbs k u);
  cm_base : forall u, base_priority (k_tcbs k' u) = base_priority (k_tcbs k u);
  cm_held : forall u, mutexes_held (k_tcbs k' u) = mutexes_held (k_tcbs k u);
  cm_live : forall u, live k' u <-> live k u;
  cm_blocked : forall u, ~ B u -> current_state (k_tcbs k' u) = TASK_STATE_BLOCKED -> current_state (k_tcbs k u) = TASK_STATE_BLOCKED
}.
#[export] Instance calm_preorder B : PreOrder (calm B).
Proof.
  split; [done|]. intros k1 k2 k3 [H1 H2 H3 H4 H5 H6] [H1' H2' H3' H4' H5' H6']. split; [congruence|intros u..].
  - by rewrite H2'.
  - by rewrite H3'.
  - by rewrite H4'.
  - by rewrite H5'.
  - auto.
Qed.

Lemma calm_weaken (B B' : tcb -> Prop) k k' : (forall u, B u -> B' u) -> calm B k k' -> calm B' k k'.
Proof. intros HB []. split; auto. Qed.

(** Nobody is scheduled or descheduled. *)
Definition same_current (k k' : kstate) : Prop := k_current k' = k_current k.
#[export] Instance same_current_preorder : PreOrder same_current.
Proof. unfold same_current. split; [done|]. intros ???; congruence. Qed.

(** What both have in common, so that each function is walked through once: a
    change that concerns no task and no mutex is within [R], and so is a change
    of a task that keeps its priority and does not block it, unless it is in
    [B]. *)
Class frame (B : tcb -> Prop) (R : kstate -> kstate -> Prop) := {
  fr_pre :: PreOrder R;
  fr_same k k' : k_mtx k' = k_mtx k -> k_tcbs k' = k_tcbs k -> k_cores k' = k_cores k -> k_task_counter k' = k_task_counter k ->
    k_current k' = k_current k -> R k k';
  fr_tcb t f k : (forall r, priority (f r) = priority r /\ base_priority (f r) = base_priority r /\ mutexes_held (f r) = mutexes_held r) ->
    B t \/ (forall r, current_state (f r) = TASK_STATE_BLOCKED -> current_state r = TASK_STATE_BLOCKED) ->
    R k (k <| k_tcbs ::= fun g => <[t := f (g t)]> g |>)
}.

#[export] Instance calm_frame B : frame B (calm B).
Proof.
  split; [apply _|..].
  - intros k k' H1 H2 H3 H4 _. split; [done|intros u; rewrite ?H2..]; try done. unfold live. by rewrite H3, H4.
  - intros t f k Hf Hs. split; try done; cbn; intros u; rewrite fn_insert_lookup; case_decide as He; subst; try done; try apply Hf.
    intros Hb Hr. destruct Hs as [Hs|Hs]; [done|by apply Hs].
Qed.
#[export] Instance current_frame : frame (fun _ => True) same_current.
Proof. split; [apply _|..]; by intros. Qed.
#[export] Hint Extern 0 (frame _ _) => typeclasses eauto : keeps.

Section calm_frames.
Context (B : tcb -> Prop) (R : kstate -> kstate -> Prop) `{!frame B R}.
Abbreviation kp := (keeps ever R).

#[local] Ltac same := refine (fr_same (R := R) _ _ _ _ _ _ _); reflexivity.

Lemma cp_dm f : kp (on_dm f). Proof. intros k. same. Qed.
Lemma cp_tel f : kp (tel f). Proof. intros k. same. Qed.
Lemma cp_enter c : kp (enter_critical c). Proof. intros k. same. Qed.
Lemma cp_exit c b : kp (exit_critical c b). Proof. intros k. same. Qed.
Lemma cp_release l : kp (spinlock_release l). Proof. intros k. same. Qed.
Lemma cp_acquire l : kp (spinlock_acquire l).
Proof. intros k. unfold runs, spinlock_acquire. destruct (may_acquire l (k_held k)); [same|split; [done|same]]. Qed.
Lemma cp_sem s f : kp (upd_sem s f). Proof. intros k. same. Qed.
Lemma cp_timer t f : kp (upd_timer t f). Proof. intros k. same. Qed.
Lemma cp_head h v : kp (set_head h v). Proof. intros k. destruct h; same. Qed.
Lemma cp_console l a : kp (console l a). Proof. intros k. same. Qed.
Lemma cp_deref {A} (p : option A) : kp (deref p).
Proof. intros k. destruct p; [same|split; [done|same]]. Qed.
Lemma cp_tcb t f : (forall r, priority (f r) = priority r /\ base_priority (f r) = base_priority r /\ mutexes_held (f r) = mutexes_held r) ->
  B t \/ (forall r, current_state (f r) = TASK_STATE_BLOCKED -> current_state r = TASK_STATE_BLOCKED) -> kp (upd_tcb t f).
Proof. intros Hf Hs k. exact (fr_tcb (R := R) t f k Hf Hs). Qed.
Lemma cp_lock c : kp (scheduler_lock c).
Proof. unfold scheduler_lock. destruct (core_ok c); [apply cp_acquire|by apply keeps_stop]. Qed.
Lemma cp_unlock c : kp (scheduler_unlock c).
Proof. unfold scheduler_unlock. destruct (core_ok c); [apply cp_release|by apply keeps_stop]. Qed.

#[local] Hint Resolve cp_dm cp_tel cp_enter cp_exit cp_release cp_acquire cp_sem cp_timer cp_head cp_console cp_deref cp_lock cp_unlock : keeps.
#[local] Hint Extern 2 (keeps _ _ (upd_tcb _ _)) => apply cp_tcb; [by intros|first [by left|right; by intros]] : keeps.
#[local] Hint Extern 1 (keeps _ _ (stop _)) => by apply keeps_stop : keeps.

Lemma cp_owner_wakeup n : kp (owner_wakeup n).
Proof. unfold owner_wakeup. keeps. Qed.
Lemma cp_add_ready t : kp (scheduler_add_to_ready_list t).
Proof. unfold scheduler_add_to_ready_list. destruct t; keeps. Qed.
Lemma cp_remove_ready t : kp (scheduler_remove_from_ready_list t).
Proof. unfold scheduler_remove_from_ready_list. destruct t; keeps. Qed.
#[local] Hint Resolve cp_owner_wakeup cp_add_ready cp_remove_ready : keeps.
Lemma cp_walk w n : forall i, kp (blocked_walk n w i).
Proof. induction n as [|n IH]; intros i; cbn [blocked_walk]; keeps. Qed.
#[local] Hint Resolve cp_walk : keeps.
Lemma cp_add_blocked t w : kp (scheduler_add_to_blocked_list t w).
Proof. unfold scheduler_add_to_blocked_list. destruct t; keeps. Qed.
Lemma cp_remove_blocked t : kp (scheduler_remove_from_blocked_list t).
Proof. unfold scheduler_remove_from_blocked_list. destruct t; keeps. Qed.
Lemma cp_tick_count c : kp (scheduler_get_tick_count c).
Proof. unfold scheduler_get_tick_count. keeps. Qed.
#[local] Hint Resolve cp_add_blocked cp_remove_blocked cp_tick_count : keeps.

Lemma take_start_calm c x : kp (semaphore_take_start c x).
Proof. unfold semaphore_take_start, scheduler_get_current_task. keeps. Qed.
Lemma cp_leave c s b r : kp (semaphore_leave c s b r).
Proof. unfold semaphore_leave. keeps. Qed.
#[local] Hint Resolve cp_leave : keeps.
Lemma try_calm c s x d t : B t -> kp (semaphore_try c s x d t).
Proof. intros Ht. unfold semaphore_try, semaphore_add_to_blocked_list. keeps. Qed.
Lemma semaphore_resume_calm c s t : kp (semaphore_resume c s t).
Proof. unfold semaphore_resume. keeps. Qed.
Lemma semaphore_give_calm c s : kp (semaphore_give c s).
Proof. unfold semaphore_give. keeps. Qed.
Lemma lock_resume_calm c m t : kp (mutex_lock_resume c m t).
Proof. unfold mutex_lock_resume, mutex_leave. keeps. Qed.

Lemma cp_unlink_walk t n : forall i, kp (unlink_walk n i t).
Proof. induction n as [|n IH]; intros [i|]; cbn [unlink_walk]; keeps. Qed.
Lemma cp_insert_walk e n : forall i, kp (insert_walk n i e).
Proof. induction n as [|n IH]; intros i; cbn [insert_walk]; keeps. Qed.
#[local] Hint Resolve cp_unlink_walk cp_insert_walk : keeps.
Lemma cp_unlink n h t : kp (software_timer_unlink n h t).
Proof. unfold software_timer_unlink. keeps. Qed.
Lemma cp_add_timer n t : kp (software_timer_add_to_blocked_list n t).
Proof. unfold software_timer_add_to_blocked_list. keeps. Qed.
#[local] Hint Resolve cp_unlink cp_add_timer : keeps.
Lemma pop_calm n t : kp (software_timer_pop_to_active n t).
Proof. unfold software_timer_pop_to_active. keeps. Qed.
Lemma cp_unlink_tagged n t : kp (unlink_tagged n t).
Proof. unfold unlink_tagged. apply keeps_bind; [keeps|]. intros []; keeps. Qed.
#[local] Hint Resolve cp_unlink_tagged : keeps.
Lemma timer_calm c op : kp (run_timer c op).
Proof.
  unfold run_timer, software_timer_create, software_timer_stop, software_timer_reset, service_pop, service_rearm, scheduler_get_current_task.
  destruct op; keeps.
Qed.
End calm_frames.

(** The calls that change priorities, or block the caller. *)
Section current_frames.
Abbreviation kp := (keeps ever same_current).
#[local] Hint Resolve cp_dm cp_tel cp_enter cp_exit cp_release cp_acquire cp_console cp_deref cp_lock cp_unlock cp_add_ready cp_remove_ready
  cp_add_blocked cp_remove_blocked cp_tick_count : keeps.
#[local] Hint Extern 1 (keeps _ _ (stop _)) => by apply keeps_stop : keeps.

Lemma cc_tcb t f : kp (upd_tcb t f). Proof. by intros k. Qed.
Lemma cc_mtx m f : kp (upd_mtx m f). Proof. by intros k. Qed.
#[local] Hint Resolve cc_tcb cc_mtx : keeps.
Lemma block_current c wakeup : kp (block_until c wakeup).
Proof. unfold block_until. keeps. Qed.
Lemma change_current t p : kp (scheduler_change_task_priority t p).
Proof. unfold scheduler_change_task_priority. keeps. Qed.
#[local] Hint Resolve change_current : keeps.
Lemma locked_change_current t p : kp (locked_change_priority t p).
Proof. unfold locked_change_priority. keeps. Qed.
#[local] Hint Resolve locked_change_current : keeps.
Lemma lock_current c m x : kp (mutex_lock c m x).
Proof. unfold mutex_lock, scheduler_get_current_task, mutex_inherit, mutex_leave, mutex_add_to_blocked_list. keeps. Qed.
Lemma scan_current n : forall i b s, kp (mutex_scan n i b s).
Proof. induction n as [|n IH]; intros [i|] b s; cbn [mutex_scan]; unfold owner_priority; keeps. Qed.
#[local] Hint Resolve scan_current : keeps.
Lemma unlock_current c m : kp (mutex_unlock c m).
Proof. unfold mutex_unlock, mutex_restore_holder, mutex_hand_over, mutex_leave. keeps. Qed.
End current_frames.

(** A task that does not wait is on the ready list of its priority. *)
Lemma ready_member k Q t : sched_inv [] k Q -> live k t -> runnable (current_state (k_tcbs k t)) ->
  0 <= priority (k_tcbs k t) < NUM_TASK_PRIORITIES /\ NState t ∈ Q (LReady (tcb_core t) (priority (k_tcbs k t))).
Proof.
  intros HI Ha Hr. split; [destruct (si_fields _ _ _ _ _ _ HI t Ha) as (_ & Hb & Hp); lia|].
  destruct (si_placed _ _ _ _ _ _ HI t Ha (not_elem_of_nil _)) as [_ Hc _|cs ce Hb]; [|by apply (runnable_not_blocked _ Hr) in Hb].
  by apply (wf_container _ _ _ _ (si_mem _ _ _ _ _ _ HI)).
Qed.

(** The functions that act on a task they look up. *)
Section exact.
Context (ob : objects) (w : world) (Q : queues) (Hw : parts ob w Q).
Abbreviation k := (w_k w).

Lemma block_calm c t wakeup : active c w = Some t -> returns (block_until c wakeup) k (fun _ k' => calm (eq t) k k').
Proof.
  intros Hact. destruct (active_spec ob w Q c t Hw Hact) as (Hb & _). destruct Hw as (Hbase & _).
  destruct (block_until_eq c wakeup t k Q (bo_sched _ _ _ _ Hbase) (bo_locks _ _ _ _ Hbase) Hb) as (d' & te & Heq & _).
  unfold returns. rewrite Heq. split; try done; cbn; intros u; rewrite fn_insert_lookup; by case_decide; subst.
Qed.

Lemma tick_calm c cntpct u : k_current k c = Some u ->
  returns (timer_tick_handler (H := weak_hooks) c cntpct) k (fun _ k' => calm (fun _ => False) k k').
Proof.
  intros Hcur. destruct Hw as (Hbase & _). destruct (bo_cores _ _ _ _ Hbase c u Hcur) as [_ (now & Hc & Hz & Hclk & Hnow)].
  destruct (s_clk_freq (k_cores k c)) as [clk|] eqn:Hcf; [|done].
  destruct (timer_tick_eq (H := weak_hooks) c cntpct clk now k Q (bo_sched _ _ _ _ Hbase) (bo_locks _ _ _ _ Hbase) Hc Hcf Hz Hnow)
    as (d' & te & Heq & _).
  unfold returns. rewrite Heq. set (ws := due _ _ _ _) in *. set (k' := (ticked c cntpct clk now k) <| k_dm := d' |> <| k_tcbs ::= _ |> <| k_tel := te |>) in *.
  assert ((if c =? 0 then Scheduler.software_timer_tick (Hooks := weak_hooks) c (u64 (now + 1)) else mret tt) k' = Ret tt k') as ->
    by (by destruct (c =? 0)).
  split; [done| | | | |]; unfold k'; cbn; intros v; unfold wake_tcbs; try by case_decide.
  unfold live. cbn. destruct v as [|i]; [done|]. rewrite fn_insert_lookup. case_decide; subst; [|done]. cbn. by rewrite Hnow.
Qed.

(** The switch runs a task of the highest priority that is ready. *)
Lemma switch_calm c u : k_current k c = Some u ->
  returns (scheduler_switch_context c) k (fun _ k' => calm (fun _ => False) k k' /\ (forall c', c' <> c -> k_current k' c' = k_current k c') /\
    exists v, k_current k' c = Some v /\ live k v /\ forall o, live k o -> tcb_core o = c -> runnable (current_state (k_tcbs k o)) -> priority (k_tcbs k o) <= priority (k_tcbs k v)).
Proof.
  intros Hcur. destruct Hw as (Hbase & _). pose proof (bo_sched _ _ _ _ Hbase) as HI.
  destruct (bo_cores _ _ _ _ Hbase c u Hcur) as [Hidle _].
  destruct (switch_context_eq c k Q HI (bo_locks _ _ _ _ Hbase) Hidle) as (p & t & Htop & Hin & _ & Heq & _).
  { intros v Hv. apply (bo_stacks _ _ _ _ Hbase), (si_current _ _ _ _ _ _ HI c v Hv). }
  destruct (member_ready _ _ _ _ _ _ _ _ _ HI Hin (not_elem_of_nil _)) as (v & [= <-] & Hlt & _ & Hp & Hr).
  unfold returns. rewrite Heq. set (k1 := k <| k_held ::= cons (LkSched c) |>) in *. split.
  - assert (k_cores (pick c t (requeue c k1)) = k_cores k /\ k_task_counter (pick c t (requeue c k1)) = k_task_counter k /\
      k_mtx (pick c t (requeue c k1)) = k_mtx k) as (Hco & Hct & Hmx) by (unfold requeue; by destruct (running_on k1 c)).
    split; [exact Hmx|intros v..].
    + exact (switch_tcb_field priority c t k1 v (fun _ _ => eq_refl)).
    + exact (switch_tcb_field base_priority c t k1 v (fun _ _ => eq_refl)).
    + exact (switch_tcb_field mutexes_held c t k1 v (fun _ _ => eq_refl)).
    + destruct v as [i n|i]; cbn -[pick requeue]; by rewrite ?Hco, ?Hct.
    + intros _. cbn -[requeue]. rewrite fn_insert_lookup. case_decide; [done|].
      unfold requeue. destruct (running_on k1 c); [|done]. cbn. rewrite fn_insert_lookup. by case_decide.
  - split; [intros c' Hne; rewrite pick_current, requeue_current, decide_False; done|].
    exists t. rewrite pick_current, decide_True by done. split; [done|]. split; [done|]. intros o Ho Hc Hro. rewrite Hp.
    destruct (ready_member k Q o HI Ho Hro) as [Hrange Hq]. rewrite Hc in Hq. destruct (Z.le_gt_cases (priority (k_tcbs k o)) p) as [|Hgt]; [done|].
    destruct Htop as (_ & _ & Htop). rewrite Htop in Hq by lia. by apply elem_of_nil in Hq.
Qed.
End exact.

(** ** The invariant *)

(** [t] is in [mutex_lock], and BLOCKED. *)
Definition waits_for (w : world) (t : tcb) (m : Z) : Prop :=
  live (w_k w) t /\ current_state (k_tcbs (w_k w) t) = TASK_STATE_BLOCKED /\ locking m (w_at w t).

Abbreviation owner w m := (mutex_owner (k_mtx (w_k w) m)).
Abbreviation prio w t := (priority (k_tcbs (w_k w) t)).

Section inheritance.
(** [rank] is the priority each task was created with. *)
Context (ob : objects) (rank : tcb -> Z).
Implicit Types (w : world) (Q : queues).

Record inherits w : Prop := {
  ih_on : forall m, m ∈ ob_mtx ob -> inheritance_enabled (k_mtx (w_k w) m) <> 0;
  ih_one : forall t m m', m ∈ ob_mtx ob -> m' ∈ ob_mtx ob -> owner w m = Some t -> owner w m' = Some t -> m = m';
  ih_free : forall t, live (w_k w) t -> (forall m, m ∈ ob_mtx ob -> owner w m <> Some t) ->
    mutexes_held (k_tcbs (w_k w) t) = 0 /\ prio w t = base_priority (k_tcbs (w_k w) t);
  ih_base : forall t, live (w_k w) t -> base_priority (k_tcbs (w_k w) t) = rank t;
  ih_owner : forall t m, m ∈ ob_mtx ob -> owner w m = Some t -> mutexes_held (k_tcbs (w_k w) t) = 1;
  ih_alone : forall t m m', waits_for w t m -> m' ∈ ob_mtx ob -> owner w m' <> Some t;
  ih_boost : forall t m o, waits_for w t m -> owner w m = Some o -> prio w t <= prio w o
}.

Lemma waits_queued w Q t m : parts ob w Q -> waits_for w t m -> NEvent t ∈ Q (LMutex m) /\ m ∈ ob_mtx ob.
Proof.
  intros (Hb & Hm & _) (Ha & Hbl & Hl). split; [|by apply (mo_at _ _ _ _ _ Hm t)].
  pose proof (bo_waits _ _ _ _ Hb t Ha Hbl) as Hw. destruct (w_at w t); try done. cbn in *. by subst.
Qed.

Lemma queued_waits w Q t m : parts ob w Q -> NEvent t ∈ Q (LMutex m) -> waits_for w t m.
Proof.
  intros (Hb & Hm & _) Hq. destruct (member_sync _ _ _ _ _ _ (LMutex m) (NEvent t) (bo_sched _ _ _ _ Hb) I Hq (not_elem_of_nil _)) as (u & [= <-] & Ha & Hbl).
  split_and!; [done..|by apply (mo_queue _ _ _ _ _ Hm)].
Qed.

(** A step that leaves mutexes and priorities alone, and makes nobody wait for a
    mutex. *)
Lemma calm_inherits B w w' : inherits w -> calm B (w_k w) (w_k w') ->
  (forall u m, locking m (w_at w' u) -> locking m (w_at w u) /\ ~ B u) -> inherits w'.
Proof.
  intros [] [] Hat. assert (forall t m, waits_for w' t m -> waits_for w t m) as Hw.
  { intros t m (Ha & Hb & Hl). destruct (Hat t m Hl) as [Hl' HB]. split_and!; [by apply cm_live0|by apply cm_blocked0|done]. }
  split.
  - intros m. rewrite cm_mtx0. apply ih_on0.
  - intros t m m'. rewrite cm_mtx0. apply ih_one0.
  - intros t Ha%cm_live0. rewrite cm_mtx0, cm_prio0, cm_base0, cm_held0. by apply ih_free0.
  - intros t Ha%cm_live0. rewrite cm_base0. by apply ih_base0.
  - intros t m. rewrite cm_mtx0, cm_held0. apply ih_owner0.
  - intros t m m' Hq%Hw. rewrite cm_mtx0. by apply ih_alone0 with m.
  - intros t m o Hq%Hw. rewrite cm_mtx0, !cm_prio0. by apply ih_boost0.
Qed.

(** *** The calls on semaphores, timers and delays *)

(** A step of [t]. *)
Definition own_step (t : tcb) w w' : Prop := calm (eq t) (w_k w) (w_k w') /\ forall u, u <> t -> w_at w' u = w_at w u.
#[local] Instance own_step_preorder t : PreOrder (own_step t).
Proof.
  split; [done|]. intros w1 w2 w3 [H1 H2] [H1' H2']. split; [by etrans|]. intros u Hu. by rewrite H2', H2.
Qed.

(** A step of an interrupt. *)
Definition no_step w w' : Prop := calm (fun _ => False) (w_k w) (w_k w') /\ w_at w' = w_at w.
#[local] Instance no_step_preorder : PreOrder no_step.
Proof. split; [done|]. intros w1 w2 w3 [H1 H2] [H1' H2']. split; [by etrans|congruence]. Qed.

Lemma own_inherits t w w' : inherits w -> own_step t w w' -> (forall m, ~ locking m (w_at w' t)) -> inherits w'.
Proof.
  intros Hi [Hc Hat] Hn. apply (calm_inherits (eq t) w w' Hi Hc). intros u m Hl.
  assert (u <> t) as Hu by (by intros ->; apply Hn in Hl). by rewrite <- Hat.
Qed.

Lemma no_inherits w w' : inherits w -> no_step w w' -> inherits w'.
Proof. intros Hi [Hc Hat]. apply (calm_inherits _ w w' Hi Hc). rewrite Hat. naive_solver. Qed.

(** Nobody else begins to wait. *)
Lemma own_waits t u w w' m : own_step t w w' -> u <> t -> waits_for w' u m -> waits_for w u m.
Proof. intros [[] Hat] Hne (H1 & H2 & H3). split_and!; [by apply cm_live0|apply cm_blocked0; congruence|by rewrite <- Hat]. Qed.
Lemma no_waits u w w' m : no_step w w' -> waits_for w' u m -> waits_for w u m.
Proof. intros [[] Hat] (H1 & H2 & H3). split_and!; [by apply cm_live0|apply cm_blocked0; auto|by rewrite <- Hat]. Qed.

Section steps.
Context (t : tcb).
Abbreviation own := (keeps ever (own_step t)).
Abbreviation no := (keeps ever no_step).

Lemma own_on_k {A} (m : K A) : keeps ever (calm (eq t)) m -> own (on_k m).
Proof. intros Hm w. apply runs_zoom. eapply runs_mono; [apply Hm|done|]. intros r k [_ Hc]. done. Qed.
Lemma own_go p : own (go t p).
Proof. intros w. split; [done|]. intros u Hu. cbn. by rewrite fn_lookup_insert_ne. Qed.
Lemma own_took s : own (took s). Proof. by intros w. Qed.
Lemma own_gave s : own (gave_one s). Proof. by intros w. Qed.
Lemma own_acquired m : own (acquired t m). Proof. by intros w. Qed.
Lemma no_on_k {A} (m : K A) : keeps ever (calm (fun _ => False)) m -> no (on_k m).
Proof. intros Hm w. apply runs_zoom. eapply runs_mono; [apply Hm|done|]. intros r k [_ Hc]. done. Qed.
Lemma no_gave s : no (gave_one s). Proof. by intros w. Qed.
#[local] Hint Resolve own_go own_took own_gave own_acquired no_gave : keeps.
#[local] Hint Extern 1 (keeps _ (own_step _) (on_k _)) => solve [apply own_on_k; keeps] : keeps.
#[local] Hint Extern 1 (keeps _ no_step (on_k _)) => solve [apply no_on_k; keeps] : keeps.
#[local] Hint Resolve take_start_calm semaphore_resume_calm semaphore_give_calm lock_resume_calm pop_calm timer_calm cp_tick_count cp_console : keeps.
#[local] Hint Extern 1 (keeps _ _ (stop _)) => by apply keeps_stop : keeps.
#[local] Hint Extern 1 (keeps _ _ (semaphore_try _ _ _ _ _)) => solve [apply (try_calm (eq t) (calm (eq t))); reflexivity] : keeps.

Lemma give_no c s : no (give c s).
Proof. unfold give. keeps. Qed.
Lemma give_own c s : own (give c s).
Proof. unfold give. keeps. Qed.
#[local] Hint Resolve give_no give_own : keeps.

Lemma expire_no c now n : no (expire n c now).
Proof. induction n as [|n IH]; cbn [expire]; keeps. Qed.

Definition on_mutex (o : call) : Prop := match o with CLock _ _ | CUnlock _ => True | _ => False end.

Lemma enter_own c o : ~ on_mutex o -> own (enter c t o).
Proof.
  intros Ho. destruct o; cbn [enter]; try (by destruct Ho); keeps.
Qed.

Lemma resume_own c p : (forall wakeup, p <> PBlock wakeup) -> own (resume c t p).
Proof.
  intros Hp. destruct p as [|u| |m x|s x d|s x d]; cbn [resume]; [keeps|by destruct (Hp u)|keeps|keeps|..].
  - apply keeps_bind; [keeps|]. intros [code|]; keeps.
  - apply keeps_bind; [keeps|]. intros [code|]; keeps.
Qed.
End steps.

(** *** The calls on mutexes *)

Ltac after_step x := lazymatch goal with |- inherits ?w => set (x := w) end.

Section at_mutex.
Context (w : world) (Q : queues) (c : Z) (t : tcb) (Hw : parts ob w Q) (Hact : active c w = Some t) (Hin : inherits w).
Abbreviation k := (w_k w).

Lemma lock_takes_inherits m x : w_at w t = PRun -> m ∈ ob_mtx ob -> mtx_state (k_mtx k m) = MUTEX_STATE_UNLOCKED ->
  (forall m', m' ∈ ob_mtx ob -> owner w m' <> Some t) -> runs (enter c t (CLock m x)) w (fun _ w' => inherits w') anything.
Proof.
  intros Hat Hm Hst Hno. destruct (active_spec ob w Q c t Hw Hact) as ((Hcur & _) & Ha & _). destruct Hw as (Hbase & Hmx & _).
  destruct (mutex_take_eq c m x t k (bo_locks _ _ _ _ Hbase) Hcur Hst) as (te & Heq).
  destruct (mo_ok _ _ _ _ _ Hmx m Hm) as [_ Hfree]. rewrite Hst in Hfree. destruct Hfree as [_ Hq].
  pose proof (ih_on w Hin m Hm) as Hon. rewrite (proj2 (Z.eqb_neq _ _) Hon) in Heq.
  cbn [enter]. apply runs_bind, runs_zoom. unfold runs at 1. rewrite Heq. rewrite decide_True by done. unfold acquired. rsteps.
  after_step w'.
  assert (forall m', owner w' m' = if decide (m = m') then Some t else owner w m') as How.
  { intros m'. cbn. rewrite fn_insert_lookup. by case_decide. }
  assert (forall u, u <> t -> k_tcbs (w_k w') u = k_tcbs k u) as Hoth by (intros u Hu; cbn; by rewrite fn_lookup_insert_ne).
  assert (prio w' t = prio w t /\ current_state (k_tcbs (w_k w') t) = current_state (k_tcbs k t) /\
    mutexes_held (k_tcbs (w_k w') t) = u32 (mutexes_held (k_tcbs k t) + 1)) as (Hp & Hs & Hh) by (cbn; by rewrite fn_lookup_insert).
  assert (forall u m', waits_for w' u m' -> waits_for w u m') as Hwf.
  { intros u m' (Hau & Hb & Hl). split_and!; [done| |done]. destruct (decide (u = t)) as [->|Hu]; [by rewrite <- Hs|by rewrite <- Hoth]. }
  assert (forall u, prio w' u = prio w u) as Hpr by (intros u; destruct (decide (u = t)) as [->|]; [done|by rewrite Hoth]).
  split.
  - intros m' Hm'. cbn. rewrite fn_insert_lookup. by case_decide; [|apply ih_on].
  - intros u m1 m2 H1 H2. rewrite !How. repeat case_decide; subst; try done; [intros [= <-] Ho|intros Ho [= <-]|by apply ih_one].
    + by destruct (Hno m2).
    + by destruct (Hno m1).
  - intros u Hau Hn. destruct (decide (u = t)) as [->|Hu]; [destruct (Hn m Hm); rewrite How; by rewrite decide_True|].
    rewrite Hoth by done. apply ih_free; [done..|]. intros m' Hm' Ho. apply (Hn m' Hm'). rewrite How. case_decide; subst; [|done].
    destruct (mo_ok _ _ _ _ _ Hmx m' Hm) as [_ Hf]. rewrite Hst in Hf. destruct Hf as [Hf _]. congruence.
  - intros u Hau. rewrite <- (ih_base w Hin u Hau). cbn. rewrite fn_insert_lookup. by case_decide; subst.
  - intros u m' Hm'. rewrite How. case_decide; subst; [intros [= <-]|intros Ho].
    + rewrite Hh. destruct (ih_free w Hin t Ha Hno) as [-> _]. done.
    + destruct (decide (u = t)) as [->|Hu]; [by destruct (Hno m')|]. rewrite Hoth by done. by apply (ih_owner w Hin u m').
  - intros u m1 m2 Hu%Hwf Hm2. rewrite How. case_decide; subst; [|by apply (ih_alone w Hin u m1)].
    intros [= <-]. destruct Hu as (_ & _ & Hl). by rewrite Hat in Hl.
  - intros u m' o Hu%Hwf. rewrite How, !Hpr. case_decide; subst; [|by apply ih_boost].
    apply (waits_queued w Q) in Hu as [Hu _]; [|done]. rewrite Hq in Hu. by apply elem_of_nil in Hu.
Qed.

Lemma lock_waits_inherits m x o : w_at w t = PRun -> m ∈ ob_mtx ob -> x <> 0 -> mtx_state (k_mtx k m) = MUTEX_STATE_LOCKED ->
  owner w m = Some o -> o <> t -> (forall m', m' ∈ ob_mtx ob -> owner w m' <> Some t) ->
  runs (enter c t (CLock m x)) w (fun _ w' => inherits w') anything.
Proof.
  intros Hat Hm Hx Hst How Hot Hno. destruct (active_spec ob w Q c t Hw Hact) as (Hb & Ha & _ & now & _ & _ & _ & Hnow).
  destruct Hw as (Hbase & Hmx & _). pose proof (mo_ok _ _ _ _ _ Hmx m Hm) as Hok.
  destruct (mutex_lock_waits c m x now t o k Q (bo_sched _ _ _ _ Hbase) Hok (bo_locks _ _ _ _ Hbase) Hb Hnow Hst How Hot Hx) as
    (k' & Q' & Heq & _ & _ & _ & _ & _ & _ & _ & _ & How' & _ & _ & Hboost & Hon & Hf).
  pose proof (mutex_lock_touch m (fun _ => True) c x ltac:(done) k) as Ht. unfold runs in Ht. rewrite Heq in Ht. destruct Ht as [Hstill _ Hmtx _ _].
  specialize (Hboost o How). unfold boosted in Hboost. rewrite (proj2 (Z.eqb_neq _ _) (ih_on w Hin m Hm)) in Hboost.
  cbn [enter]. apply runs_bind, runs_zoom. unfold runs at 1. rewrite Heq. unfold go. rsteps. after_step w'.
  assert (forall m', owner w' m' = owner w m') as Hown.
  { intros m'. destruct (decide (m' = m)) as [->|Hne]; [exact How'|cbn; by rewrite Hmtx]. }
  assert (forall u, o <> u -> prio w' u = prio w u) as Hp by (intros u Hu; apply Hf; rewrite How; congruence).
  assert (forall u m', waits_for w' u m' -> u = t /\ m' = m \/ u <> t /\ waits_for w u m') as Hwf.
  { intros u m' (Hau & Hbu & Hl). cbn in Hl. rewrite fn_insert_lookup in Hl. case_decide as Hd; [by left; cbn in Hl|right].
    split; [done|]. split_and!; [by apply (still_live k k')|by rewrite <- (proj2 (proj2 (proj2 (Hf u))) (not_eq_sym Hd))|done]. }
  split.
  - intros m' Hm'. destruct (decide (m' = m)) as [->|Hne]; [cbn; rewrite Hon|cbn; rewrite Hmtx by done]; by apply ih_on.
  - intros u m1 m2. rewrite !Hown. by apply ih_one.
  - intros u Hau Hn. cbn. destruct (Hf u) as (-> & -> & -> & _); [|rewrite How; intros [= ->]; apply (Hn m Hm); by rewrite Hown].
    apply ih_free; [done|by apply (still_live k k')|]. intros m' Hm'. rewrite <- Hown. by apply Hn.
  - intros u Hau. cbn. destruct (Hf u) as (-> & _). apply (ih_base w Hin). by apply (still_live k k').
  - intros u m'. rewrite Hown. cbn. destruct (Hf u) as (_ & -> & _). by apply ih_owner.
  - intros u m1 m2 [[-> ->]|[Hu Hwt]]%Hwf; rewrite Hown; [by apply Hno|by apply (ih_alone w Hin u m1)].
  - intros u m' o' Hu. rewrite Hown. intros Ho'. destruct (Hwf u m' Hu) as [[-> ->]|[Hut Hwt]].
    + assert (o' = o) as -> by congruence. rewrite Hp by done. cbn. rewrite Hboost. lia.
    + assert (o <> u) as Hou by (intros ->; by apply (ih_alone w Hin u m' m) in How). rewrite Hp by done.
      pose proof (ih_boost w Hin u m' o' Hwt Ho'). destruct (decide (o = o')) as [<-|Hne]; [cbn; rewrite Hboost; lia|by rewrite Hp].
Qed.

Lemma lock_inherits m x : w_at w t = PRun -> m ∈ ob_mtx ob -> (forall m', (t, m') ∉ w_holds w) ->
  runs (enter c t (CLock m x)) w (fun _ w' => inherits w') anything.
Proof.
  intros Hat Hm Hh. destruct Hw as (Hbase & Hmx & _). assert (forall m', m' ∈ ob_mtx ob -> owner w m' <> Some t) as Hno.
  { intros m' Hm' Ho. destruct (mo_owner _ _ _ _ _ Hmx t m' Hm' Ho) as [Hl|Hl]; [by apply Hh in Hl|by rewrite Hat in Hl]. }
  destruct (mo_ok _ _ _ _ _ Hmx m Hm) as [_ Hcase]. destruct (mtx_state (k_mtx k m)) eqn:Hst; [|by apply lock_takes_inherits].
  destruct Hcase as (o & How & _). assert (o <> t) as Hot by (intros ->; by apply (Hno m)).
  destruct (decide (x = 0)) as [->|Hx]; [|by apply (lock_waits_inherits m x o)].
  cbn [enter]. apply runs_bind, runs_zoom. unfold runs at 1. rewrite mutex_busy_eq by (done || apply Hbase). rsteps. by destruct w.
Qed.

(** [t] gives [m] up to [n], one of the waiters of highest priority, if there
    is one. *)
Lemma released_inherits w' m n : w_at w t = PRun -> owner w m = Some t -> m ∈ ob_mtx ob ->
  (forall m', m' <> m -> k_mtx (w_k w') m' = k_mtx k m') -> owner w' m = n ->
  inheritance_enabled (k_mtx (w_k w') m) = inheritance_enabled (k_mtx k m) -> (forall u, live (w_k w') u -> live k u) -> w_at w' = w_at w ->
  mutexes_held (k_tcbs (w_k w') t) = 0 -> prio w' t = base_priority (k_tcbs (w_k w') t) ->
  (forall u, base_priority (k_tcbs (w_k w') u) = base_priority (k_tcbs k u)) ->
  match n with
  | Some b => current_state (k_tcbs (w_k w') b) = TASK_STATE_READY /\ prio w' b = prio w b /\ mutexes_held (k_tcbs (w_k w') b) = u32 (mutexes_held (k_tcbs k b) + 1) /\ waits_for w b m
  | None => True
  end ->
  (forall u, u <> t -> n <> Some u -> k_tcbs (w_k w') u = k_tcbs k u) ->
  (forall u, waits_for w u m -> exists b, n = Some b /\ prio w u <= prio w b) -> inherits w'.
Proof.
  intros Hat How Hm Hmtx Hn Hon Hlive Hpl Hh0 Hp0 Hbase' Hb Hoth Hbest.
  assert (forall m', owner w' m' = if decide (m' = m) then n else owner w m') as Hown
    by (intros m'; case_decide; subst; [done|by rewrite Hmtx]).
  assert (forall u m', n = Some u -> m' ∈ ob_mtx ob -> owner w m' <> Some u) as Hnew.
  { intros u m' -> Hm'. apply (ih_alone w Hin u m); [apply Hb|done]. }
  assert (forall u m', waits_for w' u m' -> u <> t /\ n <> Some u /\ waits_for w u m') as Hwf.
  { intros u m' (Hau & Hbu & Hl). rewrite Hpl in Hl. assert (u <> t) as Hut by (intros ->; by rewrite Hat in Hl).
    assert (n <> Some u) as Hnu by (intros ->; destruct Hb as [Hb _]; congruence).
    split_and!; [done|done|]. split_and!; [by apply Hlive|by rewrite <- Hoth|done]. }
  split.
  - intros m' Hm'. destruct (decide (m' = m)) as [->|Hne]; [rewrite Hon|rewrite Hmtx by done]; by apply (ih_on w Hin).
  - intros u m1 m2 H1 H2. rewrite !Hown. repeat case_decide; subst; try done; [intros Hx Ho|intros Ho Hx|by apply (ih_one w Hin)].
    + by apply (Hnew u m2) in Ho.
    + by apply (Hnew u m1) in Ho.
  - intros u Hau Hno. destruct (decide (u = t)) as [->|Hu]; [done|]. assert (n <> Some u) as Hnu
      by (intros ->; apply (Hno m Hm); by rewrite Hown, decide_True).
    rewrite Hoth by done. apply (ih_free w Hin); [by apply Hlive|]. intros m' Hm' Ho. apply (Hno m' Hm'). rewrite Hown, decide_False; [done|congruence].
  - intros u Hau. rewrite Hbase'. by apply (ih_base w Hin), Hlive.
  - intros u m' Hm'. rewrite Hown. case_decide as Hd; [subst m'; intros ->|intros Ho].
    + destruct Hb as (_ & _ & -> & Hwt & _). destruct (ih_free w Hin u Hwt) as [-> _]; [|done]. intros m'. by apply Hnew.
    + assert (u <> t) as Hut by (intros ->; by apply Hd, (ih_one w Hin t)). rewrite Hoth; [by apply (ih_owner w Hin u m')|done|].
      intros Hx. by apply (Hnew u m') in Ho.
  - intros u m1 m2 (Hut & Hnu & Hwt)%Hwf Hm2. rewrite Hown. case_decide; [done|by apply (ih_alone w Hin u m1)].
  - intros u m' o Hu. rewrite Hown. destruct (Hwf u m' Hu) as (Hut & Hnu & Hwt). rewrite (Hoth u) by done. case_decide as Hd; [subst m'|]; intros Ho.
    + destruct (Hbest u Hwt) as (b & Hbn & Hle). assert (o = b) as -> by congruence. rewrite Hbn in Hb. by destruct Hb as (_ & -> & _).
    + pose proof (waits_queued w Q u m' Hw Hwt) as [_ Hm']. assert (o <> t) as Hot by (intros ->; by apply Hd, (ih_one w Hin t)).
      rewrite Hoth; [by apply (ih_boost w Hin u m')|done|]. intros Hx. by apply (Hnew o m') in Ho.
Qed.

(** What an unlock does to the priorities. *)
Lemma unlock_inherits m : w_at w t = PRun -> (t, m) ∈ w_holds w -> runs (enter c t (CUnlock m)) w (fun _ w' => inherits w') anything.
Proof.
  intros Hat Hhold. destruct (active_spec ob w Q c t Hw Hact) as (_ & Ha & _). pose proof Hw as (Hbase & Hmx & _).
  destruct (mo_holds _ _ _ _ _ Hmx t m Hhold) as [Hm How]. pose proof (bo_sched _ _ _ _ Hbase) as HI. pose proof (bo_locks _ _ _ _ Hbase) as Hh.
  pose proof (mo_ok _ _ _ _ _ Hmx m Hm) as Hok. assert (mtx_state (k_mtx k m) = MUTEX_STATE_LOCKED) as Hst
    by (pose proof Hok as [_ Hcase]; destruct (mtx_state _); [done|]; destruct Hcase; congruence).
  pose proof (mutex_unlock_touch m (fun _ => False) c k) as Ht. unfold runs in Ht.
  assert (restored k m t = base_priority (k_tcbs k t) /\ given_up k m t = 0 /\ forall b, taken_over k m b = u32 (mutexes_held (k_tcbs k b) + 1)) as (Hr & Hg & Hto).
  { unfold restored, given_up, taken_over. rewrite (ih_owner w Hin t m Hm How), (proj2 (Z.eqb_neq _ _) (ih_on w Hin m Hm)). done. }
  cbn [enter]. apply runs_bind, runs_zoom. unfold runs at 1. unfold released.
  destruct (decide (Q (LMutex m) = [])) as [Hq|Hq].
  - destruct (unlock_free_eq c m t k Q HI Hok Hh Hst How Hq) as (k' & Q' & Heq & _ & _ & _ & _ & _ & Ho' & _ & Hp' & Hst' & Hb' & Hm' & Hoth & Hon).
    rewrite Heq in Ht |- *. destruct Ht as [Hstill _ Hmtx _ _]. rsteps. after_step w'.
    apply (released_inherits w' m None Hat How Hm Hmtx Ho' Hon (fun u => proj1 (still_live k k' u Hstill))); try done; cbn; [congruence..| | |].
    + intros u. destruct (decide (u = t)) as [->|Hu]; [done|by rewrite Hoth].
    + intros u Hu _. by apply Hoth.
    + intros u Hu. apply (waits_queued w Q) in Hu as [Hu _]; [|done]. rewrite Hq in Hu. by apply elem_of_nil in Hu.
  - destruct (unlock_hand_eq c m t k Q HI Hok Hh Hst How Hq) as (k' & Q' & q1 & b & q2 & s & Heq & _ & Hqq & Hsc & _ & _ & _ & _ & _ &
      Ho' & _ & Hp' & Hab & Hbs & Hpb & _ & Hb' & Hm' & Hbb & Hbm & Hon & Hoth & _).
    rewrite Heq in Ht |- *. destruct Ht as [Hstill _ Hmtx _ _]. rsteps. after_step w'.
    apply (released_inherits w' m (Some b) Hat How Hm Hmtx Ho' Hon (fun u => proj1 (still_live k k' u Hstill))); try done; cbn; [by rewrite Hm'|by rewrite Hp', Hb'|..].
    + intros u. destruct (decide (u = t)) as [->|Hu]; [done|]. destruct (decide (u = b)) as [->|Hub]; [done|by rewrite Hoth].
    + split_and!; [done|done|by rewrite Hbm|]. apply (queued_waits w Q b m Hw). rewrite Hqq. set_solver.
    + intros u Hu Hne. apply Hoth; [done|congruence].
    + intros u Hu. exists b. split; [done|]. apply (waits_queued w Q) in Hu as [Hu _]; [|done]. rewrite Hqq in Hu. destruct Hsc as (H1 & H2 & _).
      apply elem_of_app in Hu as [Hu|[[= ->]|Hu]%elem_of_cons]; [specialize (H1 _ Hu)|done|specialize (H2 _ Hu)]; unfold waiter_prio in *; cbn in *; lia.
Qed.
End at_mutex.

(** *** Events *)

(** A task locks a mutex only while it holds none. *)
Definition unnested (e : event) w : bool :=
  match e with
  | ECall c (CLock _ _) =>
      match active c w with Some t => bool_decide (Forall (fun h => h.1 <> t) (w_holds w)) | None => true end
  | _ => true
  end.

Lemma call_inherits w Q c t o : parts ob w Q -> active c w = Some t -> inherits w -> w_at w t = PRun -> allowed ob t o w = true ->
  unnested (ECall c o) w = true -> runs (enter c t o) w (fun _ w' => inherits w') anything.
Proof.
  intros Hw Hact Hin Hat Hok Hun. assert (on_mutex o \/ ~ on_mutex o) as [Ho|Ho] by (destruct o; cbn; tauto).
  - destruct o as [| |m x|m| | |]; try done; cbn [allowed unnested] in *.
    + rewrite Hact in Hun. apply bool_decide_eq_true in Hun. rewrite Forall_forall in Hun.
      apply andb_true_iff in Hok as [Hm%bool_decide_eq_true _]. apply (lock_inherits w Q c t Hw Hact Hin m x Hat Hm). by intros m' Hh%Hun.
    + apply bool_decide_eq_true in Hok. by apply (unlock_inherits w Q c t Hw Hact Hin m Hat).
  - eapply runs_mono; [apply runs_and; [apply (enter_own t c o Ho w)|by apply enter_effect]| |done].
    cbn beta. intros r w' [Hown Hef]. apply (own_inherits t w w' Hin Hown). intros m Hl. pose proof (ef_at _ _ _ _ _ Hef) as Hp.
    destruct r; [by rewrite Hp in Hl|]. destruct o; try done; by destruct (w_at w' t).
Qed.

(** No call ends, or goes on, in the spin of [mutex_lock] that did not begin
    there. *)
Lemma resume_place c t w : runs (resume c t (w_at w t)) w (fun _ w' => forall m, ~ locking m (w_at w' t)) anything.
Proof.
  destruct (w_at w t) as [|u| |m x|s x d|s x d] eqn:Hat; cbn [resume]; unfold took, acquired, go.
  - rsteps. rewrite Hat. by intros m [].
  - apply runs_on_k. intros a k. rsteps; cbn; rewrite fn_lookup_insert; by intros ? [].
  - rsteps; cbn; rewrite fn_lookup_insert; by intros ? [].
  - apply runs_on_k. intros a k. destruct (decide (a = E_OK)); rsteps; cbn; rewrite fn_lookup_insert; by intros ? [].
  - apply runs_on_k. intros [code|] k; [destruct (decide (code = E_OK))|]; rsteps; cbn; rewrite fn_lookup_insert; by intros ? [].
  - apply runs_on_k. intros [code|] k; [destruct (decide (code = E_OK))|]; rsteps; cbn; rewrite fn_lookup_insert; by intros ? [].
Qed.

Lemma resume_step w Q c t : parts ob w Q -> active c w = Some t -> runs (resume c t (w_at w t)) w (fun _ w' => own_step t w w') anything.
Proof.
  intros Hw Hact. destruct (w_at w t) as [|wakeup| |m x|s x d|s x d] eqn:Hat;
    try (eapply runs_mono; [by apply (resume_own t c)|done|done]).
  cbn [resume]. apply runs_bind, runs_zoom. eapply (runs_mono _ _ _ _ anything); [apply runs_returns, (block_calm ob w Q Hw c t wakeup Hact)| |by intros ??].
  cbn beta. intros _ k' Hc. unfold go. rsteps. split; [exact Hc|]. intros u Hu. cbn. by rewrite fn_lookup_insert_ne.
Qed.

Lemma resume_inherits w Q c t : parts ob w Q -> active c w = Some t -> inherits w ->
  runs (resume c t (w_at w t)) w (fun _ w' => inherits w') anything.
Proof.
  intros Hw Hact Hin. eapply runs_mono; [apply runs_and; [by apply (resume_step w Q)|apply resume_place]| |done].
  cbn beta. intros r w' [Hown Hp]. by apply (own_inherits t w w').
Qed.

Context (Hfuel : (length (ob_timers ob) <= timer_fuel)%nat) (Htimer : ob_timers ob = [] \/ SemTimer ∈ ob_sem ob).

(** What runs after a timer interrupt: nothing of lower priority than a task of
    the core that is ready. *)
Definition rules_core (w w' : world) (c : Z) : Prop := (forall c', c' <> c -> k_current (w_k w') c' = k_current (w_k w) c') /\
  exists v, k_current (w_k w') c = Some v /\ live (w_k w) v /\ forall o, live (w_k w) o -> tcb_core o = c -> runnable (current_state (k_tcbs (w_k w) o)) -> prio w o <= prio w' v.

Lemma switch_step w w2 Q Q2 c u : parts ob w Q -> parts ob w2 Q2 -> no_step w w2 -> k_current (w_k w2) = k_current (w_k w) ->
  k_current (w_k w2) c = Some u ->
  returns (on_k (scheduler_switch_context c)) w2 (fun _ w' => no_step w w' /\ rules_core w w' c).
Proof.
  intros Hw Hw2 Hno Hsame Hcur. apply returns_zoom. eapply returns_mono; [by apply (switch_calm ob w2 Q2 Hw2 c u)|].
  cbn beta. intros _ k' (Hc & Hother & v & Hv & Hlv & Hmax). pose proof Hno as [Hc2 _].
  assert (no_step w (w2 <| w_k := k' |>)) as Hno' by (etrans; [exact Hno|by split]). split; [exact Hno'|].
  split; [intros c' Hne; cbn; by rewrite Hother, Hsame|]. exists v. split; [exact Hv|]. split; [by apply (cm_live _ _ _ Hc2)|].
  intros o Ho Hco Hr. rewrite <- (cm_prio _ _ _ Hc2 o). cbn. rewrite (cm_prio _ _ _ Hc v). destruct Hw2 as (Hb2 & _). apply (cm_live _ _ _ Hc2) in Ho.
  apply Hmax; [done..|]. destruct (runnable_or_blocked (w_k w2) Q2 o (bo_sched _ _ _ _ Hb2) Ho) as [|Hbl]; [done|].
  apply (cm_blocked _ _ _ Hc2) in Hbl; [|tauto]. by apply (runnable_not_blocked _ Hr) in Hbl.
Qed.

Lemma expire_parts w Q c now Lb La : parts ob w Q -> timers_ok (w_k w) Lb La -> (forall t, t ∈ Lb ++ La -> t ∈ ob_timers ob) ->
  (length Lb <= timer_fuel)%nat ->
  returns (expire timer_fuel c now) w (fun _ w' => k_current (w_k w') = k_current (w_k w) /\ exists Q', parts ob w' Q').
Proof.
  intros Hw Htm Hin Hlen. destruct Htimer as [He|Hsem]; [|by apply (expire_ok ob Hfuel c now Hsem timer_fuel w Q Lb La)].
  assert (Lb = []) as ->. { destruct Lb as [|t Lb]; [done|]. specialize (Hin t ltac:(by left)). rewrite He in Hin. by apply elem_of_nil in Hin. }
  unfold timer_fuel. cbn [expire]. apply returns_bind, returns_zoom, returns_gets. rewrite same_k, (tk_blocked _ _ _ Htm : k_blocked_head (w_k w) = None).
  apply returns_ret. split; [done|by exists Q].
Qed.

Lemma interrupt_step w Q c cntpct u : parts ob w Q -> k_current (w_k w) c = Some u ->
  returns (timer_interrupt c cntpct) w (fun _ w' => no_step w w' /\ rules_core w w' c).
Proof.
  intros Hw Hcur. unfold timer_interrupt. apply returns_bind, returns_zoom.
  eapply returns_mono; [eapply (returns_both _ _ _ _ anything); [by apply (tick_part ob w Q c cntpct u)|by apply runs_returns, (tick_calm ob w Q Hw c cntpct u)]|].
  cbn beta. intros _ k1 [(Hc1 & Q1 & Hw1) Hcalm]. rewrite <- Hc1 in Hcur. set (w1 := w <| w_k := k1 |>) in *.
  assert (no_step w w1) as Hno1 by done. apply returns_bind. destruct (c =? 0); [|by apply returns_ret, (switch_step w w1 Q Q1 c u)].
  pose proof Hw1 as (Hbase & _). destruct (bo_cores _ _ _ _ Hbase c u Hcur) as [_ (now & _ & _ & _ & Hnow)].
  destruct (bo_timers _ _ _ _ Hbase) as (Lb & La & Htm & Hsub). destruct (timers_bound ob Hfuel _ _ _ Htm Hsub) as [HLb _].
  assert (scheduler_get_tick_count c (w_k w1) = Ret now (w_k w1)) as Hcount by (unfold scheduler_get_tick_count; exec; by rewrite Hnow).
  apply returns_bind, returns_zoom. unfold returns at 1. rewrite Hcount, same_k.
  eapply returns_mono; [eapply returns_both; [by apply (expire_parts w1 Q1 c now Lb La)|apply (expire_no c now timer_fuel w1)]|].
  cbn beta. intros _ w2 [(Hc2 & Q2 & Hw2) Hno2]. apply (switch_step w w2 Q Q2 c u Hw Hw2); [by etrans|by rewrite Hc2|by rewrite Hc2].
Qed.

(** Every event keeps both invariants. *)
Lemma step_inherits w Q e : parts ob w Q -> inherits w -> unnested e w = true ->
  returns (step_event ob e) w (fun _ w' => (exists Q', parts ob w' Q') /\ inherits w').
Proof.
  intros Hw Hin Hun. apply (returns_both _ _ _ _ anything); [by apply (step_ok ob Hfuel Htimer w Q)|].
  assert (forall A (m : W A), runs m w (fun _ w' => inherits w') anything -> runs (m;; mret tt) w (fun _ w' => inherits w') anything) as Hdo.
  { intros A m Hm. apply runs_bind. eapply runs_mono; [exact Hm|by intros|done]. }
  destruct e as [c o|c|c cntpct|c s]; unfold runs at 1, step_event.
  - destruct (active c w) as [t|] eqn:Hact; [|done]. destruct (w_at w t) eqn:Hat; try done.
    destruct (allowed ob t o w) eqn:Hok; [|done]. by apply Hdo, (call_inherits w Q).
  - destruct (active c w) as [t|] eqn:Hact; [|done]. by apply Hdo, (resume_inherits w Q).
  - destruct (k_current (w_k w) c) as [u|] eqn:Hcur; [|done].
    apply runs_returns. eapply returns_mono; [by apply (interrupt_step w Q c cntpct u)|]. cbn beta. intros _ w' [Hno _]. by apply (no_inherits w).
  - case_decide; [|done]. apply Hdo. eapply runs_mono; [apply (give_no c s)| |done]. cbn beta. intros r w'. by apply no_inherits.
Qed.

Fixpoint unnested_run (es : list event) w : bool :=
  match es with
  | [] => true
  | e :: es' => unnested e w && match step_event ob e w with Ret _ w' => unnested_run es' w' | Stop _ _ => true end
  end.

Lemma run_inherits es : forall w Q, parts ob w Q -> inherits w -> unnested_run es w = true ->
  returns (run ob es) w (fun _ w' => (exists Q', parts ob w' Q') /\ inherits w').
Proof.
  induction es as [|e es IH]; intros w Q Hw Hin; cbn [run unnested_run]; [by intros _; split; [exists Q|]|].
  intros [Hun Hrest]%andb_true_iff. pose proof (step_inherits w Q e Hw Hin Hun) as Hs. apply returns_bind. unfold returns at 1 in Hs.
  unfold returns at 1. destruct (step_event ob e w) as [[] w'|]; [|done]. destruct Hs as [[Q' Hw'] Hin']. by apply (IH w' Q').
Qed.
End inheritance.

(** No call switches. *)
Definition unswitched (w w' : world) : Prop := same_current (w_k w) (w_k w').
#[export] Instance unswitched_preorder : PreOrder unswitched.
Proof. unfold unswitched. split; [done|]. intros ???; apply transitivity. Qed.

Section unswitched.
Abbreviation un := (keeps ever unswitched).
Lemma un_on_k {A} (m : K A) : keeps ever same_current m -> un (on_k m).
Proof. intros Hm w. apply runs_zoom. eapply runs_mono; [apply Hm|done|]. intros r k [_ Hc]. done. Qed.
Lemma un_go t p : un (go t p). Proof. by intros w. Qed.
Lemma un_took s : un (took s). Proof. by intros w. Qed.
Lemma un_gave s : un (gave_one s). Proof. by intros w. Qed.
Lemma un_acquired t m : un (acquired t m). Proof. by intros w. Qed.
Lemma un_released t m : un (released t m). Proof. by intros w. Qed.
Lemma try_current c s x d t : keeps ever same_current (semaphore_try c s x d t).
Proof. by apply (try_calm (fun _ => True) same_current). Qed.
#[local] Hint Resolve un_go un_took un_gave un_acquired un_released : keeps.
#[local] Hint Extern 1 (keeps _ unswitched (on_k _)) => solve [apply un_on_k; keeps] : keeps.
#[local] Hint Resolve take_start_calm semaphore_resume_calm semaphore_give_calm lock_resume_calm timer_calm cp_tick_count cp_console
  block_current lock_current unlock_current try_current : keeps.
Lemma give_current c s : un (give c s).
Proof. unfold give. keeps. Qed.
#[local] Hint Resolve give_current : keeps.
Lemma enter_current c t o : un (enter c t o).
Proof.
  destruct o as [| |m x| | | |]; cbn [enter]; try (keeps; fail). apply keeps_bind; [keeps|]. intros [code|]; keeps.
Qed.
Lemma resume_current c t p : un (resume c t p).
Proof.
  destruct p as [| | | |s x d|s x d]; cbn [resume]; try (keeps; fail); (apply keeps_bind; [keeps|]); intros [code|]; keeps.
Qed.
End unswitched.

(** *** Applications

    The invariant under [Program]'s steps, for programs that lock no mutex
    while they hold one. *)
Section applications.
Context {D L : Type} (ob : objects) (rank : tcb -> Z) (isr : list semref) (prog : tcb -> L -> action D L) (held : tcb -> L -> list Z).
Context (Hobeys : obeys ob prog held) (Hisr : forall s, s ∈ isr -> s ∈ ob_sem ob).
Context (Hfuel : (length (ob_timers ob) <= timer_fuel)%nat) (Htimer : SemTimer ∈ isr).
Context (Hsingle : forall t l m x k, prog t l = Do (CLock m x) k -> forall m', m' ∉ held t l).
Implicit Types (a : app D L).

Definition app_inherits a : Prop := app_ok ob prog held a /\ inherits ob rank (a_w a).

Lemma app_unnested a c t o k : app_ok ob prog held a -> active c (a_w a) = Some t -> prog t (a_loc a t) = Do o k ->
  unnested (ECall c o) (a_w a) = true.
Proof.
  intros Hok Hact Hp. cbn. destruct o as [| |m x| | | |]; try done. rewrite Hact. apply bool_decide_eq_true, Forall_forall.
  intros [u m'] Hin Hu. cbn in Hu. subst u. apply (ao_held _ _ _ _ Hok) in Hin. by apply (Hsingle _ _ _ _ _ Hp) in Hin.
Qed.

Lemma app_ok_step e a : app_ok ob prog held a -> returns (app_step ob isr prog e) a (fun _ a' => app_ok ob prog held a').
Proof.
  intros Hok. eapply returns_mono; [apply (app_step_ok ob isr prog held Hobeys Hisr Hfuel Htimer (fun _ => True))|]; [by split|by split|].
  by intros _ a' [? _].
Qed.

Lemma turn_inherits c a : app_inherits a -> runs (turn prog c) a (fun _ a' => inherits ob rank (a_w a')) anything.
Proof.
  intros [Hok Hin]. pose proof Hok as [[Q Hw] _ Hat]. unfold turn, runs at 1. destruct (active c (a_w a)) as [t|] eqn:Hact; [|done].
  destruct (prog t (a_loc a t)) as [o k|f] eqn:Hp; [|by destruct (f c (w_k (a_w a)) (a_data a))].
  match goal with |- match ?m a with _ => _ end => change (runs m a (fun _ a' => inherits ob rank (a_w a')) anything) end.
  apply runs_bind. unfold on_w. apply runs_zoom.
  assert (runs (match w_at (a_w a) t with PRun => enter c t o | p => resume c t p end) (a_w a) (fun _ w' => inherits ob rank w') anything) as Hs.
  { pose proof (resume_inherits ob rank (a_w a) Q c t Hw Hact Hin) as Hr.
    destruct (w_at (a_w a) t) eqn:Hpl; try exact Hr.
    apply (call_inherits ob rank (a_w a) Q c t o Hw Hact Hin Hpl); [|by apply (app_unnested a c t o k)].
    by apply (permitted_allowed ob prog held Hobeys a t o k). }
  eapply runs_mono; [exact Hs| |done]. cbv beta. intros [code|] w' Hw'; unfold back; rsteps; exact Hw'.
Qed.

Lemma app_step_inherits e a : app_inherits a -> returns (app_step ob isr prog e) a (fun _ a' => app_inherits a').
Proof.
  intros Hi. pose proof Hi as [Hok Hin]. pose proof Hok as [[Q Hw] _ _]. assert (ob_timers ob = [] \/ SemTimer ∈ ob_sem ob) as Ht by (right; auto).
  apply (returns_both _ _ _ _ anything); [by apply app_ok_step|]. destruct e as [c|c cntpct|c s|c op]; cbn [app_step]; [by apply turn_inherits|..].
  - unfold on_w. apply runs_zoom, runs_returns. eapply returns_mono; [by apply (step_inherits ob rank Hfuel Ht (a_w a) Q)|]. by intros _ w' [_ ?].
  - case_decide; [|by apply runs_ret]. unfold on_w. apply runs_zoom, runs_returns.
    eapply returns_mono; [by apply (step_inherits ob rank Hfuel Ht (a_w a) Q)|]. by intros _ w' [_ ?].
  - unfold on_w. apply runs_zoom, runs_returns. eapply returns_mono; [by apply (step_inherits ob rank Hfuel Ht (a_w a) Q)|]. by intros _ w' [_ ?].
Qed.

(** What else holds throughout, if every step keeps it. *)
Lemma app_run_inherits (J : app D L -> Prop) es : (forall e a, app_inherits a -> J a -> runs (app_step ob isr prog e) a (fun _ a' => J a') anything) ->
  forall a, app_inherits a -> J a -> returns (app_run ob isr prog es) a (fun _ a' => app_inherits a' /\ J a').
Proof.
  intros HJ. induction es as [|e es IH]; intros a Ha Hja; cbn [app_run]; [done|]. apply returns_bind.
  eapply returns_mono; [eapply (returns_both _ _ _ _ anything); [by apply app_step_inherits|by apply HJ]|].
  cbv beta. intros _ a' [Ha' Hja']. by apply IH.
Qed.
End applications.

(** ** From the start *)

(** Inheritance is enabled for every mutex, and no task is boosted yet. *)
Record inheriting (ob : objects) (k : kstate) : Prop := {
  ig_on : forall m, m ∈ ob_mtx ob -> inheritance_enabled (k_mtx k m) <> 0;
  ig_base : forall t, live k t -> mutexes_held (k_tcbs k t) = 0 /\ priority (k_tcbs k t) = base_priority (k_tcbs k t)
}.

Lemma start_inherits ob rank k Q : starts ob k Q -> inheriting ob k -> (forall t, live k t -> base_priority (k_tcbs k t) = rank t) ->
  inherits ob rank (start k).
Proof.
  intros Hs [] Hrank. assert (forall m t, m ∈ ob_mtx ob -> mutex_owner (k_mtx k m) <> Some t) as Hno.
  { intros m t Hm. destruct (sr_mtx _ _ _ Hs m Hm) as [Hst [_ Hok]]. rewrite Hst in Hok. by destruct Hok as [-> _]. }
  split; cbn; try done.
  - intros t m m' Hm _ Ho. by apply Hno in Ho.
  - intros t Ha _. by apply ig_base0.
  - intros t m Hm Ho. by apply Hno in Ho.
  - by intros t m m' (_ & _ & []).
  - by intros t m o (_ & _ & []).
Qed.

(** What bounds the inversion: the owner's priority, and what the next tick of
    its core runs. *)
Definition bounded (ob : objects) (w : world) (t : tcb) (m : Z) : Prop := exists o,
  owner w m = Some o /\ prio w t <= prio w o /\
  (runnable (current_state (k_tcbs (w_k w) o)) -> k_current (w_k w) (tcb_core o) <> None -> forall cntpct,
   returns (step_event ob (ETick (tcb_core o) cntpct)) w (fun _ w' => exists v,
     k_current (w_k w') (tcb_core o) = Some v /\ prio w t <= prio w' v)).

Lemma inherits_bounded ob rank w Q t m : (length (ob_timers ob) <= timer_fuel)%nat -> ob_timers ob = [] \/ SemTimer ∈ ob_sem ob ->
  parts ob w Q -> inherits ob rank w -> waits_for w t m -> bounded ob w t m.
Proof.
  intros Hf Ht Hw Hin Hwt. destruct (waits_queued ob w Q t m Hw Hwt) as [Hq _].
  destruct (parts_owner ob w Q Hw t m Hq) as (o & Ho & _ & Ha & _). pose proof (ih_boost ob rank w Hin t m o Hwt Ho) as Hle.
  exists o. split; [done|]. split; [done|]. intros Hr Hcur cntpct. unfold returns at 1, step_event.
  destruct (k_current (w_k w) (tcb_core o)) as [u|] eqn:Hu; [|done].
  eapply returns_mono; [by apply (interrupt_step ob rank Hf Ht w Q (tcb_core o) cntpct u)|]. cbn beta.
  intros _ w' [_ (_ & v & Hv & _ & Hmax)]. exists v. split; [done|]. specialize (Hmax o Ha eq_refl Hr). lia.
Qed.


(** ** The concrete system of [System] *)

Lemma demo_sys_still : still demo demo_sys.
Proof.
  assert (0 <= 0 <= 2) as H1 by lia. assert (2 < 2 ^ 32) as H2 by lia.
  destruct (semaphore_init_still (SemUser 0) 2 0 None demo_m1 demo_Q (proj1 demo_m1_ok) demo_m1_held eq_refl H1 H2)
    as (k' & Heq & _ & _ & Hst & _). assert (demo_sys = k') as -> by exact (final_eq _ _ _ _ Heq).
  exact (transitivity (proj1 demo_m1_still) Hst).
Qed.

Lemma demo_inheriting : inheriting demo_ob demo_sys.
Proof.
  split; [by intros m [->|[]%elem_of_nil]%elem_of_cons; vm_compute|]. intros t Ha.
  destruct (demo_live t (proj1 (still_live demo demo_sys t demo_sys_still) Ha)) as [->|[->| ->]]; vm_compute; split; exact eq_refl.
Qed.

