(* ===== verification/Delay.v ===== *)
(** * Delays on the whole kernel

    A task that asks for a delay gets it, no less and no more: whatever the
    other tasks do on any core, and whatever the interrupts give, it sleeps
    until its core's tick count has advanced by what it asked for
    ([delay_never_short]), and the timer interrupt that brings the count there
    makes it READY ([delay_ends_in_time]).  A semaphore or a mutex wakes no
    sleeper, since it is on no list but that of the delayed tasks. *)

From S2P Require Import Prelude Types Dll Telemetry Kernel Stack Invariant Scheduler Heap Task SchedulerThm Semaphore Mutex SoftTimer System Program Inheritance.

(** ** What the kernel's calls leave of a sleeper *)

(** Task [t] runs on core [c] and makes a call.  Nobody's tick count changes;
    another task [u] keeps its wakeup time and, unless the call [wakes]
    somebody, its sleep. *)
Definition spares (c : Z) (t u : tcb) (wakes : Prop) (k k' : kstate) : Prop := k_current k c = Some t ->
  k_current k' = k_current k /\ (forall c', s_tick_count (k_cores k' c') = s_tick_count (k_cores k c')) /\
  (t <> u -> wakeup_time (k_tcbs k' u) = wakeup_time (k_tcbs k u) /\
    (wakes \/ (current_state (k_tcbs k u) = TASK_STATE_BLOCKED -> current_state (k_tcbs k' u) = TASK_STATE_BLOCKED))).
#[export] Instance spares_preorder c t u wakes : PreOrder (spares c t u wakes).
Proof.
  split.
  - intros k Hc. split_and!; try done. intros _. split; [done|by right].
  - intros k1 k2 k3 H1 H2 Hc. destruct (H1 Hc) as (Hc1 & Ht1 & Hu1). destruct H2 as (Hc2 & Ht2 & Hu2); [by rewrite Hc1|].
    split_and!; [congruence|intros c'; by rewrite Ht2|]. intros Hne. destruct (Hu1 Hne) as [Hw1 Hs1], (Hu2 Hne) as [Hw2 Hs2].
    split; [congruence|]. destruct Hs1; [by left|]. destruct Hs2; [by left|right; auto].
Qed.

Section spares.
Context (c : Z) (t u : tcb) (wakes : Prop).
Abbreviation kp := (keeps ever (spares c t u wakes)).

Lemma sp_same {A} (m : K A) : (forall k, match m k with Ret _ k' | Stop _ k' => k_tcbs k' = k_tcbs k /\ k_cores k' = k_cores k /\ k_current k' = k_current k end) -> kp m.
Proof.
  intros Hm k. unfold runs. specialize (Hm k). destruct (m k) as [a k'|w k']; destruct Hm as (H1 & H2 & H3); [|split; [done|]];
    intros _; rewrite H1, H2, H3; (split_and!; [done|done|intros _; split; [done|by right]]).
Qed.
#[local] Ltac same := apply sp_same; intros ?; by split_and!.

Lemma sp_dm f : kp (on_dm f). Proof. same. Qed.
Lemma sp_tel f : kp (tel f). Proof. same. Qed.
Lemma sp_enter me : kp (enter_critical me). Proof. same. Qed.
Lemma sp_exit me b : kp (exit_critical me b). Proof. same. Qed.
Lemma sp_release l : kp (spinlock_release l). Proof. same. Qed.
Lemma sp_acquire l : kp (spinlock_acquire l).
Proof. apply sp_same. intros k. unfold spinlock_acquire. by destruct (may_acquire l (k_held k)). Qed.
Lemma sp_sem s f : kp (upd_sem s f). Proof. same. Qed.
Lemma sp_mtx m f : kp (upd_mtx m f). Proof. same. Qed.
Lemma sp_timer i f : kp (upd_timer i f). Proof. same. Qed.
Lemma sp_head h v : kp (set_head h v). Proof. apply sp_same. intros k. by destruct h. Qed.
Lemma sp_console l a : kp (console l a). Proof. same. Qed.
Lemma sp_deref {A} (p : option A) : kp (deref p).
Proof. apply sp_same. intros k. by destruct p. Qed.
Lemma sp_lock me : kp (scheduler_lock me).
Proof. unfold scheduler_lock. destruct (core_ok me); [apply sp_acquire|by apply keeps_stop]. Qed.
Lemma sp_unlock me : kp (scheduler_unlock me).
Proof. unfold scheduler_unlock. destruct (core_ok me); [apply sp_release|by apply keeps_stop]. Qed.

(** A write to the control block of the caller, or one that concerns no
    sleeper. *)
Lemma sp_tcb v f : v = t \/ (forall r, wakeup_time (f r) = wakeup_time r) /\
    (wakes \/ forall r, current_state r = TASK_STATE_BLOCKED -> current_state (f r) = TASK_STATE_BLOCKED) -> kp (upd_tcb v f).
Proof.
  intros Hf k _. split_and!; [done|done|]. intros Hne. cbn. rewrite fn_insert_lookup. case_decide as Hd; [|split; [done|by right]].
  subst v. destruct Hf as [->|[Hw Hs]]; [done|]. split; [apply Hw|]. destruct Hs as [|Hs]; [by left|right; apply Hs].
Qed.

(** Where a call looks up the running task, and where it has it. *)
Lemma sp_current {A} (f : option tcb -> K A) : kp (f (Some t)) -> kp (scheduler_get_current_task c ≫= f).
Proof.
  intros Hf k. apply runs_bind. unfold scheduler_get_current_task. apply runs_gets. destruct (decide (k_current k c = Some t)) as [Hc|Hc].
  - rewrite Hc. apply Hf.
  - unfold runs. destruct (f (k_current k c) k); [|split; [done|]]; by intros ?.
Qed.
Lemma sp_known {A B} (v : B) (f : B -> K A) : kp (f v) -> kp (deref (Some v) ≫= f).
Proof. intros Hf k. exact (Hf k). Qed.

#[local] Hint Resolve sp_dm sp_tel sp_enter sp_exit sp_release sp_acquire sp_sem sp_mtx sp_timer sp_head sp_console sp_deref sp_lock sp_unlock : keeps.
#[local] Hint Extern 2 (keeps _ _ (upd_tcb _ _)) => apply sp_tcb; first [by left|by right; split; [|right]|by right; split; [|left]] : keeps.
#[local] Hint Extern 1 (keeps _ _ (stop _)) => by apply keeps_stop : keeps.

Lemma sp_tick_count me : kp (scheduler_get_tick_count me).
Proof. unfold scheduler_get_tick_count. keeps. Qed.
Lemma sp_owner_wakeup n : kp (owner_wakeup n).
Proof. unfold owner_wakeup. keeps. Qed.
Lemma sp_remove_ready v : kp (scheduler_remove_from_ready_list v).
Proof. unfold scheduler_remove_from_ready_list. destruct v; keeps. Qed.
#[local] Hint Resolve sp_tick_count sp_owner_wakeup sp_remove_ready : keeps.
Lemma sp_walk w n : forall i, kp (blocked_walk n w i).
Proof. induction n as [|n IH]; intros i; cbn [blocked_walk]; keeps. Qed.
#[local] Hint Resolve sp_walk : keeps.
Lemma sp_add_blocked w : kp (scheduler_add_to_blocked_list (Some t) w).
Proof. unfold scheduler_add_to_blocked_list. keeps. Qed.
Lemma sp_remove_blocked v : kp (scheduler_remove_from_blocked_list v).
Proof. unfold scheduler_remove_from_blocked_list. destruct v; keeps. Qed.
#[local] Hint Resolve sp_add_blocked sp_remove_blocked : keeps.

Lemma block_spares wakeup : kp (block_until c wakeup).
Proof. unfold block_until. apply (sp_current (fun my_tcb => _)). keeps. Qed.
Lemma take_start_spares x : kp (semaphore_take_start c x).
Proof. unfold semaphore_take_start, scheduler_get_current_task. keeps. Qed.
Lemma sp_leave s b r : kp (semaphore_leave c s b r).
Proof. unfold semaphore_leave. keeps. Qed.
#[local] Hint Resolve sp_leave : keeps.
Lemma try_spares s x d : kp (semaphore_try c s x d t).
Proof. unfold semaphore_try, semaphore_add_to_blocked_list. keeps. Qed.
Lemma semaphore_resume_spares s : kp (semaphore_resume c s t).
Proof. unfold semaphore_resume. keeps. Qed.
Lemma lock_resume_spares m : kp (mutex_lock_resume c m t).
Proof. unfold mutex_lock_resume, mutex_leave. keeps. Qed.

Lemma sp_unlink_walk i n : forall j, kp (unlink_walk n j i).
Proof. induction n as [|n IH]; intros [j|]; cbn [unlink_walk]; keeps. Qed.
Lemma sp_insert_walk e n : forall i, kp (insert_walk n i e).
Proof. induction n as [|n IH]; intros i; cbn [insert_walk]; keeps. Qed.
#[local] Hint Resolve sp_unlink_walk sp_insert_walk : keeps.
Lemma sp_unlink n h i : kp (software_timer_unlink n h i).
Proof. unfold software_timer_unlink. keeps. Qed.
Lemma sp_add_timer n i : kp (software_timer_add_to_blocked_list n i).
Proof. unfold software_timer_add_to_blocked_list. keeps. Qed.
#[local] Hint Resolve sp_unlink sp_add_timer : keeps.
Lemma sp_unlink_tagged n i : kp (unlink_tagged n i).
Proof. unfold unlink_tagged. apply keeps_bind; [keeps|]. intros []; keeps. Qed.
#[local] Hint Resolve sp_unlink_tagged : keeps.
Lemma timer_spares op : kp (run_timer c op).
Proof.
  unfold run_timer, software_timer_create, software_timer_stop, software_timer_reset, service_pop, service_rearm, scheduler_get_current_task.
  destruct op; keeps.
Qed.

(** The calls on mutexes and [semaphore_give] move tasks they look up, but set
    no wakeup time. *)
Section waking.
Context (Hwakes : wakes).
#[local] Hint Extern 2 (keeps _ _ (upd_tcb _ _)) => apply sp_tcb; first [by left|by right; split; [|left]] : keeps.
Lemma sp_add_ready v : kp (scheduler_add_to_ready_list v).
Proof. unfold scheduler_add_to_ready_list. destruct v; keeps. Qed.
#[local] Hint Resolve sp_add_ready : keeps.
Lemma sp_change v p : kp (scheduler_change_task_priority v p).
Proof. unfold scheduler_change_task_priority. keeps. Qed.
#[local] Hint Resolve sp_change : keeps.
Lemma sp_locked_change v p : kp (locked_change_priority v p).
Proof. unfold locked_change_priority. keeps. Qed.
#[local] Hint Resolve sp_locked_change : keeps.
Lemma lock_spares m x : kp (mutex_lock c m x).
Proof.
  unfold mutex_lock, mutex_inherit, mutex_leave, mutex_add_to_blocked_list. do 2 (apply keeps_bind; [keeps|intros ?]).
  apply (sp_current (fun cur => _)). apply keeps_bind; [keeps|intros s]. case_decide.
  - apply keeps_bind; [keeps|intros ?]. apply keeps_bind; [keeps|intros inh]. apply keeps_bind.
    + destruct (negb (inh =? 0)); [apply (sp_known t)|]; keeps.
    + intros _. apply keeps_bind; [keeps|intros _]. apply (sp_known t). keeps.
  - destruct (x =? 0); [keeps|]. apply (sp_known t). keeps.
Qed.
Lemma sp_scan n : forall i b s, kp (mutex_scan n i b s).
Proof. induction n as [|n IH]; intros [i|] b s; cbn [mutex_scan]; unfold owner_priority; keeps. Qed.
#[local] Hint Resolve sp_scan : keeps.
Lemma unlock_spares m : kp (mutex_unlock c m).
Proof. unfold mutex_unlock, mutex_restore_holder, mutex_hand_over, mutex_leave. keeps. Qed.
Lemma give_spares s : kp (semaphore_give c s).
Proof. unfold semaphore_give. keeps. Qed.
End waking.
End spares.

(** The same of a step of [t] in the world. *)
Definition step_spares (c : Z) (t u : tcb) (wakes : Prop) (w w' : world) : Prop := spares c t u wakes (w_k w) (w_k w').
#[export] Instance step_spares_preorder c t u wakes : PreOrder (step_spares c t u wakes).
Proof. unfold step_spares. split; [by intros w|]. intros w1 w2 w3 H1 H2. by etrans. Qed.

(** The calls that may make another task READY. *)
Definition waking (o : call) : Prop := match o with CLock _ _ | CUnlock _ | CGive _ => True | _ => False end.

Section step_spares.
Context (c : Z) (t u : tcb).
Lemma ws_on_k {A} wakes (m : K A) : keeps ever (spares c t u wakes) m -> keeps ever (step_spares c t u wakes) (on_k m).
Proof. intros Hm w. apply runs_zoom. eapply runs_mono; [apply Hm|done|]. intros r k [_ Hk]. done. Qed.
Lemma ws_books wakes (f : world -> world) : (forall w, w_k (f w) = w_k w) -> keeps ever (step_spares c t u wakes) (modify f).
Proof. intros Hf w. apply runs_modify. unfold step_spares. by rewrite Hf. Qed.
#[local] Hint Extern 1 (keeps _ (step_spares _ _ _ _) (on_k _)) => solve [apply ws_on_k; keeps] : keeps.
#[local] Hint Extern 1 (keeps _ (step_spares _ _ _ _) (modify _)) => by apply ws_books : keeps.
#[local] Hint Resolve block_spares take_start_spares try_spares semaphore_resume_spares lock_resume_spares timer_spares lock_spares unlock_spares
  give_spares sp_tick_count sp_console : keeps.
#[local] Hint Extern 1 (waking _) => exact I : keeps.

Lemma enter_spares o : keeps ever (step_spares c t u (waking o)) (enter c t o).
Proof.
  destruct o as [| |m x| | | |]; cbn [enter]; unfold give, go, gave_one, acquired, released; try (keeps; fail).
  apply keeps_bind; [keeps|]. intros [code|]; keeps.
Qed.
Lemma resume_spares p : keeps ever (step_spares c t u False) (resume c t p).
Proof.
  destruct p as [| | | |s x d|s x d]; cbn [resume]; unfold go, took, acquired; try (keeps; fail); (apply keeps_bind; [keeps|]); intros [code|]; keeps.
Qed.
End step_spares.

(** ** Sleepers *)

Definition tick (w : world) (c : Z) : Z := default 0 (s_tick_count (k_cores (w_k w) c)).

(** No core's tick count overflows its 64 bits within [n] ticks. *)
Definition clocks (n : Z) (w : world) : Prop := forall c, 0 <= c < COMPANION_CORE_MAX_CORES -> 0 <= tick w c /\ tick w c + n < 2 ^ 64.

(** [u] has asked for a delay until the tick [d], and is not back yet. *)
Definition asleep (u : tcb) (d : Z) (w : world) : Prop :=
  w_at w u = PBlock d \/
  w_at w u = PDelay /\ wakeup_time (k_tcbs (w_k w) u) = d /\
    (current_state (k_tcbs (w_k w) u) = TASK_STATE_BLOCKED \/ d <= tick w (tcb_core u)).

(** ...or the tick has come. *)
Definition resting (u : tcb) (d : Z) (w : world) : Prop := d <= tick w (tcb_core u) \/ asleep u d w.

Record spared (u : tcb) (w w' : world) : Prop := {
  sd_tick : forall c, tick w' c = tick w c;
  sd_at : w_at w' u = w_at w u;
  sd_wakeup : wakeup_time (k_tcbs (w_k w') u) = wakeup_time (k_tcbs (w_k w) u);
  sd_blocked : w_at w u = PDelay -> current_state (k_tcbs (w_k w) u) = TASK_STATE_BLOCKED -> current_state (k_tcbs (w_k w') u) = TASK_STATE_BLOCKED
}.
#[export] Instance spared_preorder u : PreOrder (spared u).
Proof.
  split; [done|]. intros w1 w2 w3 [] []. split; try congruence. intros Hat Hb. apply sd_blocked1; [congruence|auto].
Qed.

Lemma spared_asleep u d w w' : asleep u d w -> spared u w w' -> asleep u d w'.
Proof.
  intros Ha []. unfold asleep. rewrite sd_at0, sd_wakeup0, sd_tick0. destruct Ha as [|(Hat & Hw & Hs)]; [by left|right].
  split_and!; [done..|]. destruct Hs; [left; auto|by right].
Qed.
Lemma spared_rests u d w w' : resting u d w -> spared u w w' -> resting u d w'.
Proof. intros [Hd|Ha] Hs; [left; by rewrite (sd_tick _ _ _ Hs)|right; by apply (spared_asleep u d w)]. Qed.

Section sleepers.
Context (ob : objects).
Implicit Types (w : world) (Q : queues).

(** A sleeper is on no waiting list. *)
Lemma sleeper_not_queued w Q u l : parts ob w Q -> w_at w u = PDelay -> sync_list l -> NEvent u ∉ Q l.
Proof.
  intros (_ & Hm & Hs) Hat Hl Hin. destruct l; try done.
  - apply (mo_queue _ _ _ _ _ Hm) in Hin. by rewrite Hat in Hin.
  - apply (so_queue _ _ _ _ _ _ _ Hs) in Hin as [Hin _]. by rewrite Hat in Hin.
Qed.

(** [semaphore_give] wakes no sleeper... *)
Lemma give_spared w Q c s u : parts ob w Q -> s ∈ ob_sem ob -> returns (give c s) w (fun _ w' => spared u w w').
Proof.
  intros Hw Hin. pose proof Hw as (Hbase & _ & Hs). pose proof (bo_sched _ _ _ _ Hbase) as HI. pose proof (bo_locks _ _ _ _ Hbase) as Hh.
  pose proof (so_ok _ _ _ _ _ _ _ Hs s Hin) as (Hc & Hmx & _). unfold give, gave_one. step. apply returns_zoom. unfold returns at 1.
  destruct (Q (LSem s)) as [|n q] eqn:Hq.
  - rewrite (semaphore_give_counts c s (w_k w) Q (si_mem _ _ _ _ _ _ HI) Hh Hq (proj1 Hc) Hmx).
    destruct (_ <? _); case_decide; by steps.
  - destruct (member_sync _ _ _ _ _ _ (LSem s) n HI I) as (t & -> & _); [rewrite Hq; by left|apply not_elem_of_nil|].
    destruct (semaphore_give_wakes c s t q (w_k w) Q HI Hh Hq) as (d' & te & -> & _). rewrite decide_True by done. steps.
    split; cbn; [done|done|..]; rewrite fn_insert_lookup; case_decide as Hd; try done; subst t; [done|]. intros Hat.
    destruct (sleeper_not_queued w Q u (LSem s) Hw Hat I). rewrite Hq. by left.
Qed.

(** ...[mutex_lock] nobody at all, and [mutex_unlock] no sleeper. *)
Lemma lock_blocked w Q c t m x : parts ob w Q -> active c w = Some t -> w_at w t = PRun -> m ∈ ob_mtx ob -> (t, m) ∉ w_holds w ->
  returns (mutex_lock c m x) (w_k w) (fun _ k' => forall u, t <> u -> current_state (k_tcbs k' u) = current_state (k_tcbs (w_k w) u)).
Proof.
  intros Hw Hact Hat Hm Hno. destruct (active_spec ob w Q c t Hw Hact) as (Hb & Ha & _ & now & _ & _ & _ & Hnow).
  destruct Hw as (Hbase & Hmx & _). pose proof (mo_ok _ _ _ _ _ Hmx m Hm) as Hok. pose proof Hok as [_ Hcase]. unfold returns.
  destruct (mtx_state (k_mtx (w_k w) m)) eqn:Hst.
  - destruct Hcase as (o & How & _). assert (o <> t) as Hot.
    { intros ->. destruct (mo_owner _ _ _ _ _ Hmx t m Hm How) as [|Hl]; [done|]. by rewrite Hat in Hl. }
    destruct (decide (x = 0)) as [->|Hx]; [by rewrite mutex_busy_eq by (done || apply Hbase)|].
    destruct (mutex_lock_waits c m x now t o (w_k w) Q (bo_sched _ _ _ _ Hbase) Hok (bo_locks _ _ _ _ Hbase) Hb Hnow Hst How Hot Hx) as
      (k' & Q' & -> & _ & _ & _ & _ & _ & _ & _ & _ & _ & _ & _ & _ & Hf).
    intros u Hu. by apply Hf.
  - destruct (mutex_take_eq c m x t (w_k w) (bo_locks _ _ _ _ Hbase) (proj1 Hb) Hst) as (te & ->).
    intros u Hu. cbn. by rewrite fn_lookup_insert_ne.
Qed.

Lemma unlock_blocked w Q c t m : parts ob w Q -> (t, m) ∈ w_holds w ->
  returns (mutex_unlock c m) (w_k w) (fun _ k' => forall u, w_at w u = PDelay -> current_state (k_tcbs k' u) = current_state (k_tcbs (w_k w) u)).
Proof.
  intros Hw Hhold. pose proof Hw as (Hbase & Hmx & _). destruct (mo_holds _ _ _ _ _ Hmx t m Hhold) as [Hm How].
  pose proof (mo_ok _ _ _ _ _ Hmx m Hm) as Hok. assert (mtx_state (k_mtx (w_k w) m) = MUTEX_STATE_LOCKED) as Hst
    by (pose proof Hok as [_ Hcase]; destruct (mtx_state _); [done|]; destruct Hcase; congruence).
  destruct (mutex_unlock_moves c m t (w_k w) Q (bo_sched _ _ _ _ Hbase) Hok (bo_locks _ _ _ _ Hbase) Hst How) as
    (k' & Q' & Heq & _ & _ & _ & _ & _ & Hnext & _ & Hcs & _).
  unfold returns. rewrite Heq. intros u Hat. destruct (Hcs u) as [|Ho]; [done|]. apply Hnext in Ho.
  by destruct (sleeper_not_queued w Q u (LMutex m) Hw Hat I).
Qed.

(** A step of a task is felt by no other task that sleeps. *)
Lemma enter_spared w Q c t o u : parts ob w Q -> active c w = Some t -> w_at w t = PRun -> allowed ob t o w = true -> t <> u ->
  runs (enter c t o) w (fun _ w' => spared u w w') anything.
Proof.
  intros Hw Hact Hat Hok Hne. destruct (active_spec ob w Q c t Hw Hact) as ((Hcur & _) & _).
  assert (runs (enter c t o) w (fun _ w' => w_at w u = PDelay -> current_state (k_tcbs (w_k w) u) = TASK_STATE_BLOCKED ->
    ~ waking o \/ current_state (k_tcbs (w_k w') u) = TASK_STATE_BLOCKED) anything) as Hstate.
  { destruct o as [| |m x|m|s x|s|op]; try (eapply runs_mono; [apply enter_effect, Hat|cbn; by left; intros []|done]); cbn [allowed enter] in *.
    - apply andb_true_iff in Hok as [Hm%bool_decide_eq_true Hno%bool_decide_eq_true].
      apply runs_bind, runs_zoom. eapply (runs_mono _ _ _ _ anything); [apply runs_returns, (lock_blocked w Q c t m x Hw Hact Hat Hm Hno)| |done].
      cbv beta. intros r k' Hk. unfold acquired, go. destruct r as [code|]; [destruct (decide _)|]; rsteps; intros _ Hb; right; cbn; by rewrite Hk.
    - apply bool_decide_eq_true in Hok. apply runs_bind, runs_zoom.
      eapply (runs_mono _ _ _ _ anything); [apply runs_returns, (unlock_blocked w Q c t m Hw Hok)| |done].
      cbv beta. intros r k' Hk. unfold released. rsteps. intros Hs Hb. right. cbn. by rewrite Hk.
    - apply bool_decide_eq_true in Hok. apply runs_bind. eapply (runs_mono _ _ _ _ anything); [apply runs_returns, (give_spared w Q c s u Hw Hok)| |done].
      cbv beta. intros r w' Hs. rsteps. intros Hd Hb. right. by apply (sd_blocked _ _ _ Hs). }
  eapply runs_mono; [apply runs_and; [apply runs_and; [by apply enter_effect|apply (enter_spares c t u o w)]|exact Hstate]| |done].
  cbv beta. intros r w' [[Hef Hsp] Hst]. destruct (Hsp Hcur) as (_ & Ht & Hu). destruct (Hu Hne) as [Hwk Hb]. split.
  - intros c'. unfold tick. by rewrite Ht.
  - by apply (ef_others _ _ _ _ _ Hef), not_eq_sym.
  - done.
  - intros Hd Hbl. destruct (Hst Hd Hbl) as [Hn|]; [|done]. destruct Hb as [|Hb]; [done|auto].
Qed.

Lemma resume_spared w Q c t u : parts ob w Q -> active c w = Some t -> t <> u ->
  (w_at w t = PRun \/ exists o, under_way o (w_at w t)) -> runs (resume c t (w_at w t)) w (fun _ w' => spared u w w') anything.
Proof.
  intros Hw Hact Hne Hat. destruct (active_spec ob w Q c t Hw Hact) as ((Hcur & _) & _).
  destruct Hat as [Hat|(o & Ho)]; [rewrite Hat; by apply runs_ret|].
  eapply runs_mono; [apply runs_and; [by apply resume_effect|apply (resume_spares c t u (w_at w t) w)]| |done].
  cbv beta. intros r w' [Hef Hsp]. destruct (Hsp Hcur) as (_ & Ht & Hu). destruct (Hu Hne) as [Hwk Hb]. split.
  - intros c'. unfold tick. by rewrite Ht.
  - by apply (ef_others _ _ _ _ _ Hef), not_eq_sym.
  - done.
  - intros _. by destruct Hb.
Qed.

(** Its own steps turn no clock. *)
Lemma enter_ticks w Q c t o : parts ob w Q -> active c w = Some t -> runs (enter c t o) w (fun _ w' => forall c', tick w' c' = tick w c') anything.
Proof.
  intros Hw Hact. destruct (active_spec ob w Q c t Hw Hact) as ((Hcur & _) & _).
  eapply runs_mono; [apply (enter_spares c t t o w)| |done]. cbv beta. intros r w' Hsp. destruct (Hsp Hcur) as (_ & Ht & _). intros c'. unfold tick. by rewrite Ht.
Qed.
Lemma resume_ticks w Q c t p : parts ob w Q -> active c w = Some t -> runs (resume c t p) w (fun _ w' => forall c', tick w' c' = tick w c') anything.
Proof.
  intros Hw Hact. destruct (active_spec ob w Q c t Hw Hact) as ((Hcur & _) & _).
  eapply runs_mono; [apply (resume_spares c t t p w)| |done]. cbv beta. intros r w' Hsp. destruct (Hsp Hcur) as (_ & Ht & _). intros c'. unfold tick. by rewrite Ht.
Qed.

(** A sleeper's own step: it begins to wait, or the tick has come. *)
Lemma resume_rests w Q c t d : parts ob w Q -> active c w = Some t -> resting t d w ->
  runs (resume c t (w_at w t)) w (fun _ w' => resting t d w') anything.
Proof.
  intros Hw Hact Hr. pose proof (resume_ticks w Q c t (w_at w t) Hw Hact) as Ht. destruct (active_spec ob w Q c t Hw Hact) as (Hb & Ha & _).
  destruct Hr as [Hd|[Hat|(Hat & Hwk & Hs)]].
  - eapply runs_mono; [exact Ht| |done]. cbv beta. intros r w' Ht'. left. by rewrite Ht'.
  - rewrite Hat. destruct Hw as (Hbase & _). cbn [resume].
    destruct (block_until_eq c d t (w_k w) Q (bo_sched _ _ _ _ Hbase) (bo_locks _ _ _ _ Hbase) Hb) as (d' & te & Heq & _).
    apply runs_bind, runs_zoom. unfold runs at 1. rewrite Heq. unfold go. rsteps. right. right. cbn. rewrite !fn_lookup_insert. cbn. split_and!; [done..|by left].
  - assert (d <= tick w (tcb_core t)) as Hd.
    { destruct Hs as [Hs|]; [|done]. destruct Hb as (_ & Hrun & _). by apply (runnable_not_blocked _ Hrun) in Hs. }
    eapply runs_mono; [exact Ht| |done]. cbv beta. intros r w' Ht'. left. by rewrite Ht'.
Qed.

(** *** The timer interrupt *)

(** What it does to the clocks, and to whoever rests. *)
Record ticked_on (c : Z) (w w' : world) : Prop := {
  to_tick : forall c', tick w' c' = if decide (c' = c) then tick w c + 1 else tick w c';
  to_rests : forall u d, resting u d w -> resting u d w';
  to_woken : forall u, live (w_k w) u -> tcb_core u = c -> w_at w u = PDelay ->
    current_state (k_tcbs (w_k w') u) = TASK_STATE_BLOCKED -> tick w' c < wakeup_time (k_tcbs (w_k w') u)
}.
#[local] Instance spared_all_preorder : PreOrder (fun w w' => forall u, spared u w w').
Proof. split; [done|]. intros w1 w2 w3 H1 H2 u. exact (transitivity (H1 u) (H2 u)). Qed.

Lemma ticked_spared c w w1 w2 : ticked_on c w w1 -> (forall u, spared u w1 w2) -> no_step w1 w2 -> ticked_on c w w2.
Proof.
  intros [] Hs [Hno _]. split; [intros c'; by rewrite (sd_tick _ _ _ (Hs (Idle 0)))|intros u d Hr; apply (spared_rests u d w1); auto|].
  intros u Ha Hc Hat Hb. rewrite (sd_tick _ _ _ (Hs u)), (sd_wakeup _ _ _ (Hs u)). apply to_woken0; try done. by apply (cm_blocked _ _ _ Hno) in Hb; [|tauto].
Qed.

Lemma tick_rests w Q c cntpct v : parts ob w Q -> k_current (w_k w) c = Some v -> 0 <= tick w c -> tick w c + 1 < 2 ^ 64 ->
  returns (timer_tick_handler (H := weak_hooks) c cntpct) (w_k w) (fun _ k' => ticked_on c w (w <| w_k := k' |>)).
Proof.
  intros Hw Hcur H0 Hb. pose proof Hw as (Hbase & _). pose proof (bo_sched _ _ _ _ Hbase) as HI.
  destruct (bo_cores _ _ _ _ Hbase c v Hcur) as [_ (now & Hc & Hz & Hclk & Hnow)].
  assert (tick w c = now) as Hn by (unfold tick; by rewrite Hnow). rewrite Hn in *.
  destruct (s_clk_freq (k_cores (w_k w) c)) as [clk|] eqn:Hcf; [|done].
  destruct (timer_tick_eq (H := weak_hooks) c cntpct clk now (w_k w) Q HI (bo_locks _ _ _ _ Hbase) Hc Hcf Hz Hnow) as (d' & te & Heq & _).
  rewrite (wrap_small 64 (now + 1)) in Heq by lia. unfold returns. rewrite Heq.
  set (ws := due _ _ _ _) in *. set (k' := (ticked c cntpct clk now (w_k w)) <| k_dm := d' |> <| k_tcbs ::= _ |> <| k_tel := te |>) in *.
  assert ((if c =? 0 then Scheduler.software_timer_tick (Hooks := weak_hooks) c (now + 1) else mret tt) k' = Ret tt k') as -> by (by destruct (c =? 0)).
  assert (forall c', tick (w <| w_k := k' |>) c' = if decide (c' = c) then now + 1 else tick w c') as Htick.
  { intros c'. unfold tick, k'. cbn. rewrite fn_insert_lookup. destruct (decide (c = c')) as [<-|Hne]; [rewrite decide_True by done|by rewrite decide_False by congruence].
    cbn. by rewrite (wrap_small 64 (now + 1)) by lia. }
  split; [by rewrite Hn| |].
  2:{ intros u Ha <- Hat. rewrite Htick, decide_True by done. unfold k'. cbn. unfold wake_tcbs. case_decide as Hdue; [done|]. intros Hbl.
    pose proof (parts_delayed ob w Q Hw u Ha Hbl Hat) as Hin. apply Z.lt_nge. intros Hle. apply Hdue, list_elem_of_fmap. exists (NState u). split; [done|].
    by apply list_elem_of_filter. }
  intros u d Hr. unfold resting, asleep in *. rewrite Htick. cbn -[k'].
  assert (d <= tick w (tcb_core u) -> d <= (if decide (tcb_core u = c) then now + 1 else tick w (tcb_core u))) as Hmono
    by (case_decide as Hcu; [rewrite Hcu, Hn; lia|done]).
  destruct Hr as [Hd|[Hat|(Hat & Hwk & Hs)]]; [left; auto|by right; left|].
  unfold k'. cbn. unfold wake_tcbs. destruct (decide (u ∈ node_tcb <$> ws)) as [Hdue|Hdue];
    [|destruct Hs as [Hs|Hd]; [right; right; split; [exact Hat|split; [exact Hwk|by left]]|left; auto]].
  left. apply list_elem_of_fmap in Hdue as (n & Hun & [Hle Hin]%list_elem_of_filter).
  destruct (member_blocked _ _ _ _ _ _ _ _ HI Hin (not_elem_of_nil _)) as (u' & -> & _ & Hcore & _). cbn in Hun. subst u'.
  rewrite decide_True by done. unfold wake in Hle. cbn in Hle. lia.
Qed.

Lemma switch_spared w Q c v : parts ob w Q -> k_current (w_k w) c = Some v ->
  returns (on_k (scheduler_switch_context c)) w (fun _ w' => forall u, spared u w w').
Proof.
  intros (Hbase & _) Hcur. pose proof (bo_sched _ _ _ _ Hbase) as HI. destruct (bo_cores _ _ _ _ Hbase c v Hcur) as [Hidle _].
  destruct (switch_context_eq c (w_k w) Q HI (bo_locks _ _ _ _ Hbase) Hidle) as (p & t & _ & Hin & _ & Heq & _).
  { intros x Hx. apply (bo_stacks _ _ _ _ Hbase), (si_current _ _ _ _ _ _ HI c x Hx). }
  apply returns_zoom. unfold returns. rewrite Heq. set (k1 := (w_k w) <| k_held ::= cons (LkSched c) |>).
  assert (k_cores (pick c t (requeue c k1)) = k_cores (w_k w)) as Hco by (unfold requeue; by destruct (running_on k1 c)).
  intros u. split; [intros c'; unfold tick; cbn -[pick requeue]; by rewrite Hco|done|exact (switch_tcb_field wakeup_time c t k1 u (fun _ _ => eq_refl))|].
  intros _ Hb. cbn -[requeue]. rewrite fn_insert_lookup. case_decide as Ht; [subst u|].
  { destruct (member_ready _ _ _ _ _ _ _ _ _ HI Hin (not_elem_of_nil _)) as (t' & [= <-] & _ & _ & _ & Hr). by apply (runnable_not_blocked _ Hr) in Hb. }
  unfold requeue. destruct (running_on k1 c) as [r|] eqn:Hrun; [|done]. cbn. rewrite fn_insert_lookup. case_decide as Hd; [subst r|done].
  unfold running_on in Hrun. destruct (k_current k1 c); [|done]. case_decide as Hs; [|done]. injection Hrun as ->.
  change (k_tcbs k1) with (k_tcbs (w_k w)) in Hs. congruence.
Qed.

Lemma enter_delay w Q c t ticks : parts ob w Q -> active c w = Some t -> 0 <= tick w c + ticks < 2 ^ 64 ->
  enter c t (CDelay ticks) w = Ret None (w <| w_at ::= <[t := PBlock (tick w c + ticks)]> |>).
Proof.
  intros Hw Hact Hb. destruct (active_spec ob w Q c t Hw Hact) as (_ & _ & _ & now & _ & _ & _ & Hnow).
  assert (tick w c = now) as Hn by (unfold tick; by rewrite Hnow). rewrite Hn in *. cbn [enter]. unfold go.
  assert (on_k (scheduler_get_tick_count c) w = Ret now w) as Heq by (unfold on_k, zoom; rewrite (get_tick_eq c now (w_k w) Hnow); by destruct w).
  etrans; [eapply bind_ret, Heq|]. cbn -[Z.pow]. rewrite (wrap_small 64) by lia. done.
Qed.

Context (Hfuel : (length (ob_timers ob) <= timer_fuel)%nat) (Htimer : ob_timers ob = [] \/ SemTimer ∈ ob_sem ob).

(** The timers that expire give the semaphore of their service task, which
    wakes no sleeper. *)
Lemma expire_spared w Q c now Lb La : parts ob w Q -> timers_ok (w_k w) Lb La -> (forall t, t ∈ Lb ++ La -> t ∈ ob_timers ob) ->
  (length Lb <= timer_fuel)%nat -> returns (expire timer_fuel c now) w (fun _ w' => forall u, spared u w w').
Proof.
  intros Hw Htm Hin Hlen. destruct Htimer as [He|Hsem].
  - assert (Lb = []) as ->. { destruct Lb as [|t Lb]; [done|]. specialize (Hin t ltac:(by left)). rewrite He in Hin. by apply elem_of_nil in Hin. }
    unfold timer_fuel. cbn [expire]. apply returns_bind, returns_zoom, returns_gets. rewrite same_k, (tk_blocked _ _ _ Htm : k_blocked_head (w_k w) = None).
    by apply returns_ret.
  - eapply returns_mono; [apply (expire_keeps ob Hfuel (fun w w' => forall u, spared u w w') c now Hsem) with (Lb := Lb) (La := La) (Q := Q); try done|].
    + intros w1 Q1 Hw1. pose proof (fun u => give_spared w1 Q1 c SemTimer u Hw1 Hsem) as Hg. unfold returns in *.
      destruct (give c SemTimer w1); [exact Hg|exact (Hg (Idle 0))].
    + by intros _ w' [? _].
Qed.

Lemma interrupt_rests w Q c cntpct v : parts ob w Q -> k_current (w_k w) c = Some v -> 0 <= tick w c -> tick w c + 1 < 2 ^ 64 ->
  returns (timer_interrupt c cntpct) w (fun _ w' => ticked_on c w w').
Proof.
  intros Hw Hcur H0 Hb. unfold timer_interrupt. apply returns_bind, returns_zoom.
  eapply returns_mono; [eapply (returns_both _ _ _ _ anything); [by apply (tick_part ob w Q c cntpct v)|by apply runs_returns, (tick_rests w Q c cntpct v)]|].
  cbn beta. intros _ k1 [(Hc1 & Q1 & Hw1) Ht]. rewrite <- Hc1 in Hcur. set (w1 := w <| w_k := k1 |>) in *.
  assert (forall w2 Q2, parts ob w2 Q2 -> ticked_on c w w2 -> k_current (w_k w2) c = Some v ->
    returns (on_k (scheduler_switch_context c)) w2 (fun _ w' => ticked_on c w w')) as Hswitch.
  { intros w2 Q2 Hw2 Ht2 Hcur2. eapply returns_mono; [eapply (returns_both _ _ _ (fun _ w' => no_step w2 w') anything); [by apply (switch_spared w2 Q2 c v)|]|].
    - apply runs_returns, returns_zoom, (returns_mono _ _ _ _ (switch_calm ob w2 Q2 Hw2 c v Hcur2)). cbn beta. intros r k' [Hcalm _]. by split.
    - cbn beta. intros _ w' [Hs Hno]. by apply (ticked_spared c w w2). }
  apply returns_bind. destruct (c =? 0); [|by apply returns_ret, (Hswitch w1 Q1)].
  pose proof Hw1 as (Hbase & _). destruct (bo_cores _ _ _ _ Hbase c v Hcur) as [_ (now & _ & _ & _ & Hnow)].
  destruct (bo_timers _ _ _ _ Hbase) as (Lb & La & Htm & Hsub). destruct (timers_bound ob Hfuel _ _ _ Htm Hsub) as [HLb _].
  pose proof (get_tick_eq c now (w_k w1) Hnow) as Hcount. apply returns_bind, returns_zoom. unfold returns at 1. rewrite Hcount, same_k.
  eapply returns_mono; [eapply returns_both; [eapply (returns_both _ _ _ _ anything); [by apply (expire_parts ob Hfuel Htimer w1 Q1 c now Lb La)|
    by apply runs_returns, (expire_spared w1 Q1 c now Lb La)]|apply (expire_no c now timer_fuel w1)]|].
  cbn beta. intros _ w2 [[(Hc2 & Q2 & Hw2) Hs2] Hno2]. apply (Hswitch w2 Q2 Hw2); [by apply (ticked_spared c w w1)|by rewrite Hc2].
Qed.

(** *** Any event *)

Lemma place_call p : p = PRun \/ exists o, under_way o p.
Proof.
  destruct p as [|wk| |m x|s x d|s x d]; [by left|right..];
    [exists (CDelay 0)|exists (CDelay 0)|exists (CLock m x)|exists (CTake s x)|exists (CTake s x)]; by cbn.
Qed.

(** No sleep ends early, and every clock advances by one tick at most. *)
Record passes (w w' : world) : Prop := {
  ps_tick : forall c, tick w c <= tick w' c <= tick w c + 1;
  ps_rests : forall u d, resting u d w -> resting u d w'
}.

Lemma spared_passes w w' : (forall u, spared u w w') -> passes w w'.
Proof. intros Hs. split; [intros c; rewrite (sd_tick _ _ _ (Hs (Idle 0))); lia|]. intros u d Hr. by apply (spared_rests u d w). Qed.
Lemma ticked_passes c w w' : ticked_on c w w' -> passes w w'.
Proof. intros [Ht Hr _]. split; [|done]. intros c'. rewrite Ht. case_decide; subst; lia. Qed.

(** One of [t]'s own steps passes if the others are spared. *)
Lemma own_passes {A} (m : W A) t w : runs m w (fun _ w' => forall c, tick w' c = tick w c) anything ->
  (forall u, t <> u -> runs m w (fun _ w' => spared u w w') anything) ->
  (forall d, resting t d w -> runs m w (fun _ w' => resting t d w') anything) -> runs m w (fun _ w' => passes w w') anything.
Proof.
  unfold runs. destruct (m w) as [a w'|]; [|done]. intros Ht Ho Hown. split; [intros c; rewrite Ht; lia|]. intros u d Hr.
  destruct (decide (t = u)) as [<-|Hne]; [auto|]. apply (spared_rests u d w); auto.
Qed.

Lemma event_passes w Q e : parts ob w Q -> clocks 1 w ->
  runs (step_event ob e) w (fun _ w' => passes w w') anything.
Proof.
  intros Hw Hck. assert (passes w w) as Hskip by (by apply spared_passes).
  assert (forall A (m : W A), runs m w (fun _ w' => passes w w') anything -> runs (m;; mret tt) w (fun _ w' => passes w w') anything) as Hdo.
  { intros A m Hm. apply runs_bind. eapply runs_mono; [exact Hm|by intros|done]. }
  destruct e as [c o|c|c cntpct|c s]; unfold runs at 1, step_event.
  - destruct (active c w) as [t|] eqn:Hact; [|done]. destruct (w_at w t) eqn:Hat; try done. destruct (allowed ob t o w) eqn:Hok; [|done].
    apply Hdo, (own_passes _ t); [by apply (enter_ticks w Q)|intros u Hu; by apply (enter_spared w Q)|].
    intros d [Hd|[Ha|[Ha _]]]; [|by rewrite Hat in Ha..]. eapply runs_mono; [by apply (enter_ticks w Q c t o)| |done].
    cbv beta. intros r w' Ht. left. by rewrite Ht.
  - destruct (active c w) as [t|] eqn:Hact; [|done].
    apply Hdo, (own_passes _ t); [by apply (resume_ticks w Q)| |intros d Hd; by apply (resume_rests w Q)].
    intros u Hu. apply (resume_spared w Q c t u); [done..|]. apply place_call.
  - destruct (k_current (w_k w) c) as [v|] eqn:Hcur; [|done]. destruct (Hck c) as [H0 H1]; [destruct Hw as (Hbase & _); by destruct (bo_cores _ _ _ _ Hbase c v Hcur) as [_ (now & Hc & _)]|]. apply runs_returns.
    eapply returns_mono; [by apply (interrupt_rests w Q c cntpct v)|]. cbv beta. intros _ w'. apply ticked_passes.
  - case_decide as Hs; [|done]. apply Hdo, runs_returns. pose proof (fun u => give_spared w Q c s u Hw Hs) as Hg. unfold returns in *.
    destruct (give c s w); [by apply spared_passes|exact (Hg (Idle 0))].
Qed.

(** *** Any run *)

Lemma run_passes es : forall w Q, parts ob w Q -> clocks (Z.of_nat (length es)) w ->
  returns (run ob es) w (fun _ w' => (exists Q', parts ob w' Q') /\ (forall c, tick w c <= tick w' c <= tick w c + Z.of_nat (length es)) /\
    forall t d, resting t d w -> resting t d w').
Proof.
  induction es as [|e es IH]; intros w Q Hw Hck; cbn [run length] in *.
  { apply returns_ret. split_and!; [by exists Q|intros c; lia|done]. }
  apply returns_bind. eapply returns_mono; [eapply (returns_both _ _ _ _ anything); [by apply (step_ok ob Hfuel Htimer w Q)|apply (event_passes w Q e Hw)]|].
  - intros c Hc. destruct (Hck c Hc). lia.
  - cbv beta. intros _ w1 [[Q1 Hw1] [Ht Hd]]. eapply returns_mono; [apply (IH w1 Q1 Hw1); intros c Hc; destruct (Hck c Hc), (Ht c); lia|].
    cbv beta. intros _ w2 (Hw2 & Ht2 & Hd2). split_and!; [done| |auto]. intros c. destruct (Ht c), (Ht2 c). lia.
Qed.
End sleepers.

(** ** The theorems *)

(** [t] is between its call of [task_delay_ms] and the BLOCKED state, or is
    BLOCKED until the tick [d]. *)
Definition sleeping (t : tcb) (d : Z) (w : world) : Prop :=
  w_at w t = PBlock d \/ w_at w t = PDelay /\ wakeup_time (k_tcbs (w_k w) t) = d /\ current_state (k_tcbs (w_k w) t) = TASK_STATE_BLOCKED.

(** C16: a delay is never cut short.  Start any tasks, let them do anything
    ([es], [es']: calls of tasks, timer interrupts and gives of interrupt
    handlers on any core, in any order, a critical section being one step), and
    let a task of core [c] call
    [task_delay_ms]: until the tick count of its core has advanced by what it
    asked for it is on its way into the delay or BLOCKED with that tick as its
    wakeup time, and so it does not run its own code; no give, unlock or timer
    of another task wakes it.  The tick counts do not overflow their 64 bits
    within the run ([clocks]). *)
Theorem delay_never_short (ob : objects) (k : kstate) (Q : queues) (es es' : list event) (c ticks : Z) (t : tcb) :
  starts ob k Q -> 0 <= ticks ->
  clocks (Z.of_nat (length es) + ticks + Z.of_nat (length es')) (start k) ->
  returns (run ob es) (start k) (fun _ w => active c w = Some t -> w_at w t = PRun ->
    returns (run ob (ECall c (CDelay ticks) :: es')) w (fun _ w' => tick w' c < tick w c + ticks -> sleeping t (tick w c + ticks) w')).
Proof.
  intros Hs H0 Hck. pose proof (sr_fuel _ _ _ Hs) as Hf. pose proof (sr_timer_sem _ _ _ Hs) as Htm.
  eapply returns_mono; [apply (run_passes ob Hf Htm es (start k) Q (start_parts ob k Q Hs)); intros c' Hc'; destruct (Hck c' Hc'); lia|].
  cbv beta. intros _ w ((Q1 & Hw) & Ht & _) Hact Hat. destruct (active_spec ob w Q1 c t Hw Hact) as (_ & _ & Hc & now & Hc4 & _). cbn [run].
  assert (0 <= tick w c + ticks < 2 ^ 64) as Hb by (destruct (Hck c Hc4), (Ht c); lia).
  pose proof (step_ok ob Hf Htm w Q1 (ECall c (CDelay ticks)) Hw) as Hstep. apply returns_bind. revert Hstep.
  unfold returns at 1 2, step_event. rewrite Hact, Hat. cbn [allowed]. rewrite (bind_ret _ _ _ _ _ (enter_delay ob w Q1 c t ticks Hw Hact Hb)).
  set (w1 := w <| w_at ::= _ |>). intros [Q2 Hw1].
  eapply returns_mono; [apply (run_passes ob Hf Htm es' w1 Q2 Hw1); intros c' Hc'; destruct (Hck c' Hc'), (Ht c'); unfold tick in *; cbn; lia|].
  cbv beta. intros _ w2 (_ & _ & Hr) Hlt. destruct (Hr t (tick w c + ticks)) as [Hd|[Hp|(Hp & Hwk & [Hbl|Hd])]].
  - right. left. unfold w1. cbn. by rewrite fn_lookup_insert.
  - rewrite Hc in Hd. lia.
  - by left.
  - by right.
  - rewrite Hc in Hd. lia.
Qed.

(** C17: and is over in time.  Whatever happened, the timer interrupt of a core
    leaves no task of the core asleep whose wakeup time has come: it is READY
    or RUNNING when the interrupt returns. *)
Theorem delay_ends_in_time (ob : objects) (k : kstate) (Q : queues) (es : list event) (c cntpct : Z) :
  starts ob k Q -> clocks (Z.of_nat (length es) + 1) (start k) ->
  returns (run ob es) (start k) (fun _ w => k_current (w_k w) c <> None ->
    returns (step_event ob (ETick c cntpct)) w (fun _ w' => tick w' c = tick w c + 1 /\ forall t,
      live (w_k w) t -> tcb_core t = c -> w_at w t = PDelay -> wakeup_time (k_tcbs (w_k w') t) <= tick w' c ->
      runnable (current_state (k_tcbs (w_k w') t)))).
Proof.
  intros Hs Hck. pose proof (sr_fuel _ _ _ Hs) as Hf. pose proof (sr_timer_sem _ _ _ Hs) as Htm.
  eapply returns_mono; [apply (run_passes ob Hf Htm es (start k) Q (start_parts ob k Q Hs)); intros c' Hc'; destruct (Hck c' Hc'); lia|].
  cbv beta. intros _ w ((Q1 & Hw) & Ht & _) Hcur. destruct (k_current (w_k w) c) as [v|] eqn:Hv; [|done].
  pose proof Hw as (Hb & _). destruct (bo_cores _ _ _ _ Hb c v Hv) as [_ (now & Hc4 & _)].
  pose proof (step_ok ob Hf Htm w Q1 (ETick c cntpct) Hw) as Hstep. revert Hstep. unfold returns at 1 2, step_event. rewrite Hv. intros Hstep.
  assert (returns (timer_interrupt c cntpct) w (fun _ w' => ticked_on c w w')) as Hon.
  { apply (interrupt_rests ob Hf Htm w Q1 c cntpct v); [done..| |]; destruct (Hck c Hc4), (Ht c); lia. }
  pose proof (interrupt_step ob (fun _ => 0) Hf Htm w Q1 c cntpct v Hw Hv) as Hno.
  unfold returns in *. destruct (timer_interrupt c cntpct w) as [[] w'|]; [|done]. destruct Hon as [Htk _ Hwk], Hstep as [Q2 [Hb2 _]], Hno as [[Hno _] _].
  split; [by rewrite Htk, decide_True|]. intros t Ha Hc Hat Hle. pose proof (proj2 (cm_live _ _ _ Hno t) Ha) as Ha'.
  destruct (runnable_or_blocked (w_k w') Q2 t (bo_sched _ _ _ _ Hb2) Ha') as [|Hbl]; [done|]. specialize (Hwk t Ha Hc Hat Hbl). lia.
Qed.

(** ** The concrete system of [System] *)

Lemma demo_clocks n : 0 <= n < 2 ^ 64 -> clocks n (start demo_sys).
Proof.
  intros Hn c Hc. assert (tick (start demo_sys) c = 0) as ->; [|lia].
  assert (c = 0 \/ c = 1 \/ c = 2 \/ c = 3) as [->|[->|[->| ->]]] by (unfold COMPANION_CORE_MAX_CORES in Hc; lia); by vm_compute.
Qed.

(** The first task of core 1 asks for a delay of three ticks, an interrupt takes
    it off the core before it has begun to wait, and it goes to sleep when it
    is back on the core. *)
Definition demo_naps : list event :=
  [EStep 1; EGive 0 (SemUser 0); ETick 1 54000].
Lemma delay_never_short_witness :
  returns (run demo_ob (ECall 1 (CDelay 3) :: demo_naps)) (start demo_sys) (fun _ w => tick w 1 = 1 /\ sleeping (Pool 1 0) 3 w).
Proof.
  assert (clocks (Z.of_nat 0 + 3 + Z.of_nat (length demo_naps)) (start demo_sys)) as Hck by (apply demo_clocks; cbn; lia).
  pose proof (delay_never_short demo_ob demo_sys demo_Q [] demo_naps 1 3 (Pool 1 0) demo_sys_starts ltac:(lia) Hck) as H.
  unfold returns at 1 in H. cbn [run] in H. specialize (H ltac:(vm_compute; exact eq_refl) eq_refl).
  assert (returns (run demo_ob (ECall 1 (CDelay 3) :: demo_naps)) (start demo_sys) (fun _ w => tick w 1 = 1)) as Ht by (vm_compute; exact eq_refl).
  eapply returns_mono; [exact (returns_both _ _ _ _ _ Ht (runs_returns _ _ _ anything H))|]. cbn beta. intros _ w [Hw Hs].
  split; [exact Hw|]. apply Hs. rewrite Hw. exact eq_refl.
Defined.

Definition demo_nap : list event := [ECall 1 (CDelay 1); EStep 1].
Lemma demo_nap_sleeps : returns (run demo_ob demo_nap) (start demo_sys) (fun _ w =>
  k_current (w_k w) 1 <> None /\ live (w_k w) (Pool 1 0) /\ w_at w (Pool 1 0) = PDelay /\
  returns (step_event demo_ob (ETick 1 54000)) w (fun _ w' => wakeup_time (k_tcbs (w_k w') (Pool 1 0)) = 1 /\ tick w' 1 = 1)).
Proof. vm_compute. by split_and!. Qed.
Lemma delay_ends_in_time_witness : returns (run demo_ob demo_nap) (start demo_sys) (fun _ w => w_at w (Pool 1 0) = PDelay /\
  returns (step_event demo_ob (ETick 1 54000)) w (fun _ w' => runnable (current_state (k_tcbs (w_k w') (Pool 1 0))))).
Proof.
  assert (clocks (Z.of_nat (length demo_nap) + 1) (start demo_sys)) as Hck by (apply demo_clocks; cbn; lia).
  pose proof (delay_ends_in_time demo_ob demo_sys demo_Q demo_nap 1 54000 demo_sys_starts Hck) as H.
  eapply returns_mono; [exact (returns_both _ _ _ _ _ demo_nap_sleeps (runs_returns _ _ _ anything H))|]. cbn beta.
  intros _ w [(Hcur & Ha & Hat & Hwake) Hend]. split; [exact Hat|].
  eapply returns_mono; [exact (returns_both _ _ _ _ _ Hwake (runs_returns _ _ _ anything (Hend Hcur)))|]. cbn beta.
  intros _ w' [[Hw Ht] [_ Hr]]. apply (Hr (Pool 1 0) Ha eq_refl Hat). rewrite Hw, Ht. exact (Z.le_refl 1).
Defined.
