(* ===== verification/Spinlock.v ===== *)
(** * The spinlock (source/kernel/spinlock/spinlock.c)

    Lamport's bakery lock, one shared-memory access per step.  [bstep c] is
    the next access core [c] makes inside [spinlock_acquire] (or, once it
    holds the lock, [spinlock_release]); a run is any sequence of cores.  The
    accesses are word-sized and separated by barriers, so they are
    interleaved, not reordered.

    Everywhere else in the library a lock is the entry [k_held] of [Kernel],
    acquired in one step: that is what mutual exclusion allows. *)

From S2P Require Import Prelude Types.

(** Where a core is: [BScan i m] reads [ticket[i]] next with [max_ticket = m],
    [BPublish m] writes its ticket, [BClear] its [choosing] flag,
    [BWaitChoosing i] and [BWaitTicket i] spin on core [i]. *)
Inductive bpc :=
  | BOut | BScan (i m : Z) | BPublish (m : Z) | BClear
  | BWaitChoosing (i : Z) | BWaitTicket (i : Z) | BCrit.

Record Spinlock := mkSpinlock {
  choosing : Z -> Z;
  ticket : Z -> Z;
  at_pc : Z -> bpc
}.
#[export] Instance eta_Spinlock : Settable Spinlock :=
  fun r => mkSpinlock (choosing r) (ticket r) (at_pc r).

Definition spinlock_init (s : Spinlock) : Spinlock :=
  s <| choosing := fun i => if (0 <=? i) && (i <? COMPANION_CORE_MAX_CORES) then 0 else choosing s i |>
    <| ticket := fun i => if (0 <=? i) && (i <? COMPANION_CORE_MAX_CORES) then 0 else ticket s i |>.

Definition goto (c : Z) (p : bpc) (s : Spinlock) : Spinlock := s <| at_pc ::= fun f => <[c := p]> f |>.

(** The head of the waiting loop: iteration [me] is skipped. *)
Definition wait_from (me i : Z) : bpc :=
  let i := if i =? me then i + 1 else i in
  if i <? COMPANION_CORE_MAX_CORES then BWaitChoosing i else BCrit.

(** The exit conditions of the inner loop. *)
Definition we_go_first (me i their_ticket my_ticket : Z) : bool :=
  (their_ticket =? 0) || (my_ticket <? their_ticket) || ((their_ticket =? my_ticket) && (me <? i)).

Definition bstep (me : Z) (s : Spinlock) : Spinlock :=
  match at_pc s me with
  | BOut => goto me (BScan 0 0) (s <| choosing ::= fun f => <[me := 1]> f |>)
  | BScan i m =>
      let t := ticket s i in
      let m := if m <? t then t else m in
      goto me (if i + 1 <? COMPANION_CORE_MAX_CORES then BScan (i + 1) m else BPublish m) s
  | BPublish m => goto me BClear (s <| ticket ::= fun f => <[me := u32 (m + 1)]> f |>)
  | BClear => goto me (wait_from me 0) (s <| choosing ::= fun f => <[me := 0]> f |>)
  | BWaitChoosing i => if choosing s i =? 0 then goto me (BWaitTicket i) s else s
  | BWaitTicket i =>
      if we_go_first me i (ticket s i) (ticket s me) then goto me (wait_from me (i + 1)) s else s
  | BCrit => goto me BOut (s <| ticket ::= fun f => <[me := 0]> f |>)
  end.

Fixpoint brun (cores : list Z) (s : Spinlock) : Spinlock :=
  match cores with [] => s | c :: cores' => brun cores' (bstep c s) end.

(** ** Invariant *)

Definition core (c : Z) : Prop := 0 <= c < COMPANION_CORE_MAX_CORES.

(** What [choosing] and [ticket] of a core are at each point. *)
Definition flags_ok (s : Spinlock) (c : Z) : Prop :=
  match at_pc s c with
  | BOut => choosing s c = 0 /\ ticket s c = 0
  | BScan i m => core i /\ 0 <= m /\ choosing s c = 1 /\ ticket s c = 0
  | BPublish m => 0 <= m /\ choosing s c = 1 /\ ticket s c = 0
  | BClear => choosing s c = 1 /\ 0 < ticket s c
  | BWaitChoosing i | BWaitTicket i => core i /\ i <> c /\ choosing s c = 0 /\ 0 < ticket s c
  | BCrit => choosing s c = 0 /\ 0 < ticket s c
  end.

(** The bakery's order on the cores that have a ticket. *)
Definition before (s : Spinlock) (i j : Z) : Prop :=
  ticket s i < ticket s j \/ (ticket s i = ticket s j /\ i < j).

(** Core [i] will go before core [j], as far as [j] has got. *)
Definition ahead (s : Spinlock) (i j : Z) : Prop :=
  match at_pc s j with
  | BOut => True
  | BScan x m => i < x -> ticket s i <= m
  | BPublish m => ticket s i <= m
  | _ => before s i j
  end.

Definition choosing_pc (p : bpc) : bool :=
  match p with BScan _ _ | BPublish _ | BClear => true | _ => false end.

(** Core [i] has finished waiting for core [j]; it has seen [choosing[j]] clear. *)
Definition passed (s : Spinlock) (i j : Z) : Prop :=
  match at_pc s i with
  | BWaitChoosing x | BWaitTicket x => j < x
  | BCrit => True
  | _ => False
  end.
Definition seen_clear (s : Spinlock) (i j : Z) : Prop :=
  passed s i j \/ at_pc s i = BWaitTicket j.

(** [ahead] on a core that has no ticket yet. *)
Definition ahead_unless_ticket (s : Spinlock) (i j : Z) : Prop :=
  match at_pc s j with
  | BScan _ _ | BPublish _ => ahead s i j
  | _ => True
  end.

Record bakery_inv (s : Spinlock) : Prop := {
  bk_flags : forall c, core c -> flags_ok s c;
  bk_clear : forall i j, core i -> core j -> i <> j -> seen_clear s i j -> ahead_unless_ticket s i j;
  bk_passed : forall i j, core i -> core j -> i <> j -> passed s i j -> ahead s i j
}.

(** The next ticket [c] draws fits its 32 bits. *)
Definition ticket_fits (c : Z) (s : Spinlock) : Prop :=
  match at_pc s c with BPublish m => m + 1 < 2 ^ 32 | _ => True end.

Lemma pc_goto (s : Spinlock) (c u : Z) (p : bpc) :
  at_pc (goto c p s) u = if decide (c = u) then p else at_pc s u.
Proof. done. Qed.

(** A step changes only the stepping core's program counter and words. *)
Lemma bstep_other (c u : Z) (s : Spinlock) :
  u <> c -> at_pc (bstep c s) u = at_pc s u /\ ticket (bstep c s) u = ticket s u /\
            choosing (bstep c s) u = choosing s u.
Proof.
  intros Hu. unfold bstep. destruct (at_pc s c); try case_match; unfold goto; cbn;
    rewrite ?fn_lookup_insert_ne by done; done.
Qed.

Ltac zcases :=
  repeat case_match;
  repeat match goal with
  | H : (_ =? _) = true |- _ => apply Z.eqb_eq in H
  | H : (_ =? _) = false |- _ => apply Z.eqb_neq in H
  | H : (_ <? _) = true |- _ => apply Z.ltb_lt in H
  | H : (_ <? _) = false |- _ => apply Z.ltb_ge in H
  end; simplify_eq.

Lemma wait_from_pc (c i : Z) :
  core c -> 0 <= i <= 4 ->
  wait_from c i = BCrit \/ exists x, wait_from c i = BWaitChoosing x /\ core x /\ x <> c /\ i <= x.
Proof.
  unfold wait_from, core, COMPANION_CORE_MAX_CORES. intros Hc Hi.
  zcases; eauto; right; eexists; (split; [done|lia]).
Qed.

(** Waiting for core [j] is over only when iteration [j] is. *)
Lemma wait_from_passed (c i j x : Z) : wait_from c i = BWaitChoosing x -> j < x -> j <> c -> j < i.
Proof.
  unfold wait_from. intros Hw Hj Hne. zcases; lia.
Qed.
Lemma wait_from_crit (c i j : Z) : wait_from c i = BCrit -> core c -> core j -> j <> c -> j < i.
Proof.
  unfold wait_from, core. intros Hw Hc Hj Hne. zcases; lia.
Qed.

Lemma bstep_flags (c : Z) (s : Spinlock) :
  core c -> ticket_fits c s -> flags_ok s c -> (forall u, core u -> 0 <= ticket s u) -> flags_ok (bstep c s) c.
Proof.
  intros Hc Hfit. unfold ticket_fits in Hfit. unfold flags_ok at 1, bstep.
  destruct (at_pc s c) as [|i m|m| |i|i|] eqn:Hp; intros Hf Hpos.
  - destruct Hf as [_ Ht]. unfold flags_ok, goto; cbn. rewrite !fn_lookup_insert. unfold core. by split_and!.
  - destruct Hf as (Hi & Hm & Hch & Ht). pose proof (Hpos i Hi).
    unfold flags_ok. rewrite pc_goto, decide_True by done.
    destruct (Z.ltb_spec (i + 1) COMPANION_CORE_MAX_CORES); destruct (Z.ltb_spec m (ticket s i)); cbn;
      unfold core in *; split_and!; try done; lia.
  - destruct Hf as (Hm & Hch & Ht). unfold flags_ok, goto; cbn. rewrite !fn_lookup_insert.
    rewrite wrap_small by lia. split; [done|lia].
  - destruct Hf as (Hch & Ht).
    destruct (wait_from_pc c 0 Hc ltac:(lia)) as [-> | (x & -> & Hx & Hne & _)];
      unfold flags_ok, goto; cbn; rewrite !fn_lookup_insert; by split_and!.
  - destruct Hf as (Hi & Hne & Hch & Ht). case_match; unfold flags_ok, goto; cbn.
    + rewrite fn_lookup_insert. by split_and!.
    + rewrite Hp. by split_and!.
  - destruct Hf as (Hi & Hne & Hch & Ht). case_match; [|unfold flags_ok; rewrite Hp; by split_and!].
    unfold core, COMPANION_CORE_MAX_CORES in Hi.
    destruct (wait_from_pc c (i + 1) Hc ltac:(lia)) as [-> | (x & -> & Hx & Hxc & _)];
      unfold flags_ok, goto; cbn; rewrite !fn_lookup_insert; by split_and!.
  - unfold flags_ok, goto; cbn. rewrite !fn_lookup_insert. split; [tauto|done].
Qed.

(** [i] stays ahead of [j] through [j]'s own steps. *)
Lemma bstep_ahead (i j : Z) (s : Spinlock) :
  core i -> i <> j -> flags_ok s j -> ticket_fits j s -> ahead s i j -> ahead (bstep j s) i j.
Proof.
  intros Hi Hij Hf Hfit Ha. destruct (bstep_other j i s Hij) as (_ & Ht & _).
  unfold ahead, before in *. rewrite Ht. clear Ht. unfold flags_ok, ticket_fits, bstep in *. revert Ha Hf Hfit.
  destruct (at_pc s j) as [|x m|m| |x|x|] eqn:Hp; intros Ha Hf Hfit.
  - unfold goto. cbn. rewrite fn_lookup_insert. unfold core in Hi. lia.
  - rewrite pc_goto, decide_True by done. unfold core in *.
    destruct (Z.ltb_spec (x + 1) COMPANION_CORE_MAX_CORES); destruct (Z.ltb_spec m (ticket s x));
      destruct (Z.eq_dec i x); subst; lia.
  - unfold goto. cbn. rewrite !fn_lookup_insert. rewrite wrap_small by lia. lia.
  - rewrite pc_goto, decide_True by done. unfold wait_from. by destruct (_ <? _).
  - destruct (choosing s x =? 0); [by rewrite pc_goto, decide_True|by rewrite Hp].
  - destruct (we_go_first _ _ _ _); [|by rewrite Hp]. rewrite pc_goto, decide_True by done. unfold wait_from. by destruct (_ <? _).
  - unfold goto. cbn. by rewrite fn_lookup_insert.
Qed.

Lemma bstep_unless (i j : Z) (s : Spinlock) :
  core i -> i <> j -> flags_ok s j -> ahead_unless_ticket s i j -> ahead_unless_ticket (bstep j s) i j.
Proof.
  intros Hi Hij Hf Ha. destruct (bstep_other j i s Hij) as (_ & Ht & _).
  unfold ahead_unless_ticket, ahead, before in *. rewrite Ht. clear Ht. unfold flags_ok, bstep in *. revert Ha Hf.
  destruct (at_pc s j) as [|x m|m| |x|x|] eqn:Hp; intros Ha Hf.
  - unfold goto. cbn. rewrite fn_lookup_insert. unfold core in Hi. lia.
  - rewrite pc_goto, decide_True by done. unfold core in *.
    destruct (Z.ltb_spec (x + 1) COMPANION_CORE_MAX_CORES); destruct (Z.ltb_spec m (ticket s x));
      destruct (Z.eq_dec i x); subst; lia.
  - unfold goto. cbn. by rewrite !fn_lookup_insert.
  - rewrite pc_goto, decide_True by done. unfold wait_from. by destruct (_ <? _).
  - destruct (choosing s x =? 0); [by rewrite pc_goto, decide_True|by rewrite Hp].
  - destruct (we_go_first _ _ _ _); [|by rewrite Hp]. rewrite pc_goto, decide_True by done. unfold wait_from. by destruct (_ <? _).
  - unfold goto. cbn. by rewrite fn_lookup_insert.
Qed.

(** What core [i]'s own step adds to what it has passed and seen. *)
Lemma bstep_own_seen (i j : Z) (s : Spinlock) :
  core i -> core j -> i <> j -> flags_ok s i -> flags_ok s j -> ~ seen_clear s i j -> seen_clear (bstep i s) i j ->
  choosing s j = 0.
Proof.
  unfold seen_clear, passed, flags_ok, bstep. intros Hi Hj Hij Hfi Hfj Hno.
  destruct (at_pc s i) as [|x m|m| |x|x|] eqn:Hp.
  - rewrite pc_goto, decide_True by done. naive_solver.
  - rewrite pc_goto, decide_True by done. destruct (_ <? _); naive_solver.
  - rewrite pc_goto, decide_True by done. naive_solver.
  - rewrite pc_goto, decide_True by done. destruct (wait_from i 0) eqn:Hw; try naive_solver.
    + intros [Hlt|]; [|done]. pose proof (wait_from_passed i 0 j _ Hw Hlt ltac:(done)).
      unfold core in Hj. lia.
    + exfalso. revert Hw. unfold wait_from. zcases; done.
    + pose proof (wait_from_crit i 0 j Hw Hi Hj ltac:(done)). unfold core in Hj. lia.
  - destruct (Z.eqb_spec (choosing s x) 0) as [Hc|Hc]; [|rewrite Hp; naive_solver].
    rewrite pc_goto, decide_True by done. intros [Hlt|[= ->]]; [|done]. exfalso. apply Hno. by left.
  - destruct (we_go_first _ _ _ _) eqn:Hg; [|rewrite Hp; naive_solver].
    rewrite pc_goto, decide_True by done. destruct (wait_from i (x + 1)) eqn:Hw; try naive_solver.
    + intros [Hlt|]; [|done]. pose proof (wait_from_passed i (x + 1) j _ Hw Hlt ltac:(done)).
      exfalso. apply Hno. destruct (Z.eq_dec j x); [by right; subst|left; lia].
    + exfalso. revert Hw. unfold wait_from. zcases; done.
    + intros _. pose proof (wait_from_crit i (x + 1) j Hw Hi Hj ltac:(done)).
      exfalso. apply Hno. destruct (Z.eq_dec j x); [by right; subst|left; lia].
  - rewrite pc_goto, decide_True by done. naive_solver.
Qed.

Lemma bstep_own_passed (i j : Z) (s : Spinlock) :
  core i -> core j -> i <> j -> flags_ok s j -> ahead_unless_ticket s i j \/ ~ seen_clear s i j ->
  ~ passed s i j -> passed (bstep i s) i j -> ahead s i j.
Proof.
  unfold seen_clear, passed, bstep. intros Hi Hj Hij Hfj Hu Hno.
  destruct (at_pc s i) as [|x m|m| |x|x|] eqn:Hp.
  - by rewrite pc_goto, decide_True.
  - rewrite pc_goto, decide_True by done. by destruct (_ <? _).
  - by rewrite pc_goto, decide_True.
  - rewrite pc_goto, decide_True by done. destruct (wait_from i 0) eqn:Hw; try done.
    + intros Hlt. pose proof (wait_from_passed i 0 j _ Hw Hlt ltac:(done)). unfold core in Hj. lia.
    + exfalso. revert Hw. unfold wait_from. zcases; done.
    + pose proof (wait_from_crit i 0 j Hw Hi Hj ltac:(done)). unfold core in Hj. lia.
  - destruct (Z.eqb_spec (choosing s x) 0) as [Hc|Hc]; [|by rewrite Hp].
    by rewrite pc_goto, decide_True.
  - destruct (we_go_first _ _ _ _) eqn:Hg; [|by rewrite Hp].
    rewrite pc_goto, decide_True by done. intros Hpass.
    assert (j = x) as ->.
    { destruct (wait_from i (x + 1)) eqn:Hw; try done.
      - pose proof (wait_from_passed i (x + 1) j _ Hw Hpass ltac:(done)). lia.
      - exfalso. revert Hw. unfold wait_from. zcases; done.
      - pose proof (wait_from_crit i (x + 1) j Hw Hi Hj ltac:(done)). lia. }
    destruct Hu as [Hu|Hn]; [|exfalso; apply Hn; by right].
    unfold we_go_first in Hg. unfold ahead_unless_ticket, ahead, before, flags_ok in *.
    destruct (at_pc s x); try done;
      apply orb_true_iff in Hg as [[Hg|Hg]%orb_true_iff|[Hg1 Hg2]%andb_true_iff];
      rewrite ?Z.eqb_eq, ?Z.ltb_lt in *; try lia.
  - by rewrite pc_goto, decide_True.
Qed.

(** The ticket of a core that has passed another does not move while it
    waits. *)
Lemma bstep_own_ticket (i j : Z) (s : Spinlock) :
  passed (bstep i s) i j \/ seen_clear (bstep i s) i j -> ticket (bstep i s) i = ticket s i.
Proof.
  unfold seen_clear, passed, bstep. destruct (at_pc s i) as [|x m|m| |x|x|] eqn:Hp; try done.
  - rewrite !pc_goto, !decide_True by done. naive_solver.
  - intros _. by destruct (choosing s x =? 0).
  - intros _. by destruct (we_go_first _ _ _ _).
  - rewrite !pc_goto, !decide_True by done. naive_solver.
Qed.

(** [ahead] depends on the other core and one's own ticket only. *)
Lemma ahead_ext (s s' : Spinlock) (i j : Z) :
  at_pc s' j = at_pc s j -> ticket s' j = ticket s j -> ticket s' i = ticket s i -> ahead s i j -> ahead s' i j.
Proof. unfold ahead, before. by intros -> -> ->. Qed.
Lemma unless_ext (s s' : Spinlock) (i j : Z) :
  at_pc s' j = at_pc s j -> ticket s' j = ticket s j -> ticket s' i = ticket s i ->
  ahead_unless_ticket s i j -> ahead_unless_ticket s' i j.
Proof. unfold ahead_unless_ticket, ahead. intros -> _ ->. by destruct (at_pc s j). Qed.

#[export] Instance passed_dec (s : Spinlock) (i j : Z) : Decision (passed s i j).
Proof. unfold passed. destruct (at_pc s i); apply _. Defined.
#[export] Instance bpc_eq_dec : EqDecision bpc.
Proof. solve_decision. Defined.
#[export] Instance seen_clear_dec (s : Spinlock) (i j : Z) : Decision (seen_clear s i j).
Proof. unfold seen_clear. apply _. Defined.

Lemma bakery_step (c : Z) (s : Spinlock) :
  core c -> ticket_fits c s -> bakery_inv s -> bakery_inv (bstep c s).
Proof.
  intros Hc Hfit [Hfl Hcl Hpa].
  assert (forall u, core u -> 0 <= ticket s u) as Hpos.
  { intros u Hu. specialize (Hfl u Hu). unfold flags_ok in Hfl. destruct (at_pc s u); lia. }
  assert (forall i j, core i -> core j -> i <> j -> i <> c -> seen_clear (bstep c s) i j = seen_clear s i j /\
    passed (bstep c s) i j = passed s i j) as Hsame.
  { intros i j Hi Hj Hij Hic. unfold seen_clear, passed. by rewrite (proj1 (bstep_other c i s Hic)). }
  split.
  - intros u Hu. destruct (decide (u = c)) as [->|Hne]; [by apply bstep_flags; auto|].
    destruct (bstep_other c u s Hne) as (H1 & H2 & H3). unfold flags_ok. rewrite H1, H2, H3. by apply Hfl.
  - intros i j Hi Hj Hij Hsee. destruct (decide (i = c)) as [->|Hic].
    + destruct (bstep_other c j s ltac:(congruence)) as (H1 & H2 & H3).
      pose proof (bstep_own_ticket c j s ltac:(by right)) as Hown.
      apply (unless_ext s); [done|done|done|].
      destruct (decide (seen_clear s c j)) as [Hold|Hold]; [by apply Hcl|].
      pose proof (bstep_own_seen c j s Hi Hj Hij (Hfl c Hi) (Hfl j Hj) Hold Hsee) as Hz.
      specialize (Hfl j Hj). unfold ahead_unless_ticket, flags_ok in *. destruct (at_pc s j); try done; lia.
    + rewrite (proj1 (Hsame i j Hi Hj Hij Hic)) in Hsee. specialize (Hcl i j Hi Hj Hij Hsee).
      destruct (decide (j = c)) as [->|Hjc]; [by apply bstep_unless; auto|].
      destruct (bstep_other c j s Hjc) as (H1 & H2 & _). destruct (bstep_other c i s Hic) as (_ & H4 & _).
      by apply (unless_ext s).
  - intros i j Hi Hj Hij Hpass. destruct (decide (i = c)) as [->|Hic].
    + destruct (bstep_other c j s ltac:(congruence)) as (H1 & H2 & H3).
      pose proof (bstep_own_ticket c j s ltac:(by left)) as Hown.
      apply (ahead_ext s); [done|done|done|].
      destruct (decide (passed s c j)) as [Hold|Hold]; [by apply Hpa|].
      apply (bstep_own_passed c j s); auto. destruct (decide (seen_clear s c j)); auto.
    + rewrite (proj2 (Hsame i j Hi Hj Hij Hic)) in Hpass. specialize (Hpa i j Hi Hj Hij Hpass).
      destruct (decide (j = c)) as [->|Hjc]; [by apply bstep_ahead; auto|].
      destruct (bstep_other c j s Hjc) as (H1 & H2 & _). destruct (bstep_other c i s Hic) as (_ & H4 & _).
      by apply (ahead_ext s).
Qed.

(** ** Runs *)

(** A run in which no drawn ticket overflows. *)
Fixpoint run_fits (cores : list Z) (s : Spinlock) : Prop :=
  match cores with
  | [] => True
  | c :: cores' => core c /\ ticket_fits c s /\ run_fits cores' (bstep c s)
  end.

Lemma bakery_run (cores : list Z) : forall s, bakery_inv s -> run_fits cores s -> bakery_inv (brun cores s).
Proof.
  induction cores as [|c cores IH]; intros s Hs; [done|]. intros (Hc & Hfit & Hr). cbn.
  apply IH; [by apply bakery_step|done].
Qed.

(** Every core outside, over whatever the lock's memory held. *)
Definition idle_lock (s : Spinlock) : Spinlock := spinlock_init (s <| at_pc := fun _ => BOut |>).

Lemma idle_lock_inv (s : Spinlock) : bakery_inv (idle_lock s).
Proof.
  unfold idle_lock, spinlock_init. split.
  - intros c [H1 H2]. unfold flags_ok. cbn.
    by rewrite (proj2 (Z.leb_le 0 c)), (proj2 (Z.ltb_lt c _)) by done.
  - intros i j _ _ _ [[]|[=]].
  - intros i j _ _ _ [].
Qed.

Lemma exclusive (s : Spinlock) (i j : Z) :
  bakery_inv s -> core i -> core j -> at_pc s i = BCrit -> at_pc s j = BCrit -> i = j.
Proof.
  intros [_ _ Hp] Hi Hj Hci Hcj. destruct (decide (i = j)) as [|Hne]; [done|].
  pose proof (Hp i j Hi Hj Hne ltac:(unfold passed; by rewrite Hci)) as H1.
  pose proof (Hp j i Hj Hi ltac:(congruence) ltac:(unfold passed; by rewrite Hcj)) as H2.
  unfold ahead, before in *. rewrite Hci in H2. rewrite Hcj in H1. lia.
Qed.

(** C10: mutual exclusion.  From an initialised lock, whatever the order in
    which the four cores' memory accesses interleave, two cores never hold the
    lock at the same time, as long as no drawn ticket exceeds 32 bits. *)
Theorem bakery_mutual_exclusion (s : Spinlock) (cores : list Z) (i j : Z) :
  run_fits cores (idle_lock s) -> core i -> core j ->
  at_pc (brun cores (idle_lock s)) i = BCrit -> at_pc (brun cores (idle_lock s)) j = BCrit -> i = j.
Proof. intros Hr. apply exclusive. apply bakery_run; [apply idle_lock_inv|done]. Qed.

(** ** First come, first served *)

(** Core [i] has drawn its ticket and not yet released. *)
Definition in_line (s : Spinlock) (i : Z) : Prop :=
  match at_pc s i with BClear | BWaitChoosing _ | BWaitTicket _ | BCrit => True | _ => False end.

(** A run in which [i] does not leave: no step of [i] releases the lock. *)
Fixpoint stays (i : Z) (cores : list Z) (s : Spinlock) : Prop :=
  match cores with
  | [] => True
  | c :: cores' => (c = i -> at_pc s i <> BCrit) /\ stays i cores' (bstep c s)
  end.

Lemma in_line_step (c i : Z) (s : Spinlock) :
  in_line s i -> (c = i -> at_pc s i <> BCrit) -> in_line (bstep c s) i /\ ticket (bstep c s) i = ticket s i.
Proof.
  intros Hl Hs. destruct (decide (c = i)) as [->|Hne].
  - specialize (Hs eq_refl). unfold in_line, bstep in *. destruct (at_pc s i) as [|x m|m| |x|x|] eqn:Hp; try done.
    + rewrite pc_goto, decide_True by done. split; [|done]. unfold wait_from. by destruct (_ <? _).
    + destruct (choosing s x =? 0); [by rewrite pc_goto, decide_True|by rewrite Hp].
    + destruct (we_go_first _ _ _ _); [|by rewrite Hp]. rewrite pc_goto, decide_True by done. split; [|done].
      unfold wait_from. by destruct (_ <? _).
  - destruct (bstep_other c i s ltac:(done)) as (H1 & H2 & _). unfold in_line. by rewrite H1, H2.
Qed.

Lemma stay_ahead (i j : Z) (cores : list Z) : forall s,
  bakery_inv s -> core i -> core j -> i <> j -> run_fits cores s -> stays i cores s -> in_line s i ->
  ahead s i j -> bakery_inv (brun cores s) /\ ahead (brun cores s) i j.
Proof.
  induction cores as [|c cores IH]; intros s Hs Hi Hj Hij; [done|].
  intros (Hc & Hfit & Hr) [Hst Hsts] Hl Ha. destruct (in_line_step c i s Hl Hst) as [Hl' Ht].
  cbn. apply IH; try done; [by apply bakery_step|].
  destruct (decide (j = c)) as [->|Hjc]; [apply bstep_ahead; auto; by apply Hs|].
  destruct (bstep_other c j s Hjc) as (H1 & H2 & _). by apply (ahead_ext s).
Qed.

(** C30: first come, first served.  A core that starts [spinlock_acquire]
    after another has drawn its ticket does not get the lock before it,
    however the accesses interleave: until core [i] has released the lock,
    core [j] does not hold it. *)
Theorem bakery_first_come_first_served (s : Spinlock) (before_run after_run : list Z) (i j : Z) :
  let s1 := brun before_run (idle_lock s) in
  run_fits before_run (idle_lock s) -> core i -> core j -> i <> j -> in_line s1 i -> at_pc s1 j = BOut ->
  run_fits after_run s1 -> stays i after_run s1 ->
  at_pc (brun after_run s1) j <> BCrit.
Proof.
  intros s1 Hr1 Hi Hj Hij Hl Hout Hr2 Hst Hcrit.
  assert (bakery_inv s1) as Hs1 by (apply bakery_run; [apply idle_lock_inv|done]).
  destruct (stay_ahead i j after_run s1 Hs1 Hi Hj Hij Hr2 Hst Hl) as [[_ _ Hp] Ha].
  { unfold ahead. by rewrite Hout. }
  pose proof (Hp j i Hj Hi ltac:(congruence) ltac:(unfold passed; by rewrite Hcrit)) as H2.
  unfold ahead, before in Ha. rewrite Hcrit in Ha. unfold ahead, before in H2.
  assert (in_line (brun after_run s1) i) as Hl'.
  { clear - Hl Hst. revert Hl Hst. generalize s1. induction after_run as [|c l IH]; intros s9 Hl; [done|].
    intros [H1 H2]. cbn. apply IH; [by apply in_line_step|done]. }
  unfold in_line in Hl'. destruct (at_pc (brun after_run s1) i); try done; lia.
Qed.

(** ** Concrete runs *)

Definition spin0 : Spinlock := mkSpinlock (fun _ => 7) (fun _ => 7) (fun _ => BOut).

(** Core 0 takes the lock, then core 1 tries to. *)
Definition run01 : list Z := repeat 0 13 ++ repeat 1 20.

Lemma run01_fits : run_fits run01 (idle_lock spin0).
Proof. vm_compute. repeat split; intros; discriminate. Qed.

Lemma bakery_mutual_exclusion_witness :
  at_pc (brun run01 (idle_lock spin0)) 0 = BCrit /\
  at_pc (brun run01 (idle_lock spin0)) 1 = BWaitTicket 0 /\ (0 : Z) = 0.
Proof.
  split; [reflexivity|split; [reflexivity|]].
  apply (bakery_mutual_exclusion spin0 run01 0 0 run01_fits); [by split|by split|reflexivity|reflexivity].
Defined.

(** Core 0 has published its ticket but not yet cleared its flag when core 1
    starts; core 2 was there before both. *)
Definition run_before : list Z := repeat 2 6 ++ repeat 0 6.
Definition run_after : list Z := repeat 1 30 ++ repeat 2 10 ++ repeat 0 4 ++ repeat 1 9.

Lemma bakery_first_come_first_served_witness :
  at_pc (brun run_after (brun run_before (idle_lock spin0))) 1 <> BCrit.
Proof.
  apply (bakery_first_come_first_served spin0 run_before run_after 0 1);
    [vm_compute; repeat split; intros; discriminate|by split|by split|done|exact I|reflexivity| |].
  - vm_compute. repeat split; intros; discriminate.
  - vm_compute. repeat split; intros; discriminate.
Defined.

(** The bound on tickets is needed: the ticket after 2^32 - 1 is 0, which says
    "not competing", and a core that draws it walks in. *)
Definition spin_last : Spinlock :=
  mkSpinlock (fun _ => 0) (fun i => if i =? 0 then 2 ^ 32 - 1 else 0)
    (fun i => if i =? 0 then BCrit else BOut).

Lemma bakery_ticket_overflow :
  bakery_inv spin_last /\
  at_pc (brun (repeat 1 13) spin_last) 0 = BCrit /\ at_pc (brun (repeat 1 13) spin_last) 1 = BCrit.
Proof.
  split; [|by vm_compute].
  assert (forall c, at_pc spin_last c = BCrit \/ at_pc spin_last c = BOut) as Hpc.
  { intros c. cbn. destruct (c =? 0); auto. }
  split.
  - intros c _. unfold flags_ok. cbn. by destruct (c =? 0).
  - intros i j Hi Hj Hij _. unfold ahead_unless_ticket. by destruct (Hpc j) as [-> | ->].
  - intros i j Hi Hj Hij. unfold passed, ahead. cbn. destruct (Z.eqb_spec i 0), (Z.eqb_spec j 0); try done. lia.
Qed.

(** ** Progress *)

(** With the other cores outside, [spinlock_acquire] is thirteen accesses. *)
Lemma solo_acquire : forall c, core c -> at_pc (brun (repeat c 13) (idle_lock spin0)) c = BCrit.
Proof.
  intros c Hc. unfold core, COMPANION_CORE_MAX_CORES in Hc.
  assert (c = 0 \/ c = 1 \/ c = 2 \/ c = 3) as [-> | [-> | [-> | ->]]] by lia; by vm_compute.
Qed.
