(* ===== verification/Board.v ===== *)
(** * The boot stages' machine

    The state the bootstrap and the bootloader work on: the eMMC, the two
    UARTs, the RAM an image is loaded into, the flags and the metadata that
    survive a reset, and the static variables of the boot components.  The
    eMMC driver is an interface, the class [BlockDevice]; what its clients rely
    on is [BlockLaws].  Both are met here by an ideal disk, [ram_disk].

    Modelled here as well: boot_flags.c, and the trigger matcher of
    dfu_trigger.c. *)

From Stdlib Require String.
From S2P Require Import Prelude Types Crc Telemetry.

(** ** emmc.h *)

Definition SECTOR_SIZE : Z := 512.
(** [BYTES_TO_SECTORS(x)], on a [uint32_t]. *)
Definition BYTES_TO_SECTORS (x : Z) : Z := u32 (x + SECTOR_SIZE - 1) / SECTOR_SIZE.

Definition EMMC_FW_BASE : Z := 1064960.
Definition EMMC_SECTOR_BOOTLOADER : Z := EMMC_FW_BASE.
Definition EMMC_SECTOR_METADATA : Z := EMMC_FW_BASE + 1024.
Definition EMMC_SECTOR_APP_A : Z := EMMC_FW_BASE + 2048.
Definition EMMC_SECTOR_APP_B : Z := EMMC_FW_BASE + 18432.
Definition EMMC_SECTOR_SIZE_APP : Z := 16384.
Definition EMMC_FIRMWARE_FLOOR : Z := EMMC_SECTOR_BOOTLOADER.

Definition APP_SLOT_A : Z := 0xAAAAAAAA.
Definition APP_SLOT_B : Z := 0xBBBBBBBB.
Definition APP_SLOT_TO_SECTOR (slot : Z) : Z := if slot =? APP_SLOT_B then EMMC_SECTOR_APP_B else EMMC_SECTOR_APP_A.
Definition APP_SLOT_OTHER (slot : Z) : Z := if slot =? APP_SLOT_B then APP_SLOT_A else APP_SLOT_B.

(** The driver: [dev_read sector count] gives a status and the bytes that
    reached the buffer; [dev_write sector bytes] writes whole sectors. *)
Class BlockDevice (D : Type) := {
  dev_init : D -> StatusCode * D;
  dev_read : Z -> Z -> D -> StatusCode * list Z * D;
  dev_write : Z -> list Z -> D -> StatusCode * D
}.

Fixpoint sectors_of (contents : Z -> list Z) (s : Z) (n : nat) : list Z :=
  match n with O => [] | S n' => contents s ++ sectors_of contents (s + 1) n' end.

(** Its contract: a read of fewer than 65536 sectors that succeeds gives what
    they hold, one that fails gives at most as many bytes; neither changes the
    sectors.  A one-sector write that succeeds stores the bytes; whatever its
    outcome it touches no other sector, and below the firmware floor none at
    all.  [EmmcDevice] proves it of the driver. *)
Class BlockLaws (D : Type) `{BlockDevice D} := {
  contents : D -> Z -> list Z;
  contents_bytes : forall d s, length (contents d s) = 512%nat /\ Forall is_byte (contents d s);
  init_contents : forall d s, contents (dev_init d).2 s = contents d s;
  read_contents : forall s n d s', contents (dev_read s n d).2 s' = contents d s';
  read_ok : forall s n d bytes d', 0 <= n < 65536 -> dev_read s n d = (E_OK, bytes, d') ->
    bytes = sectors_of (contents d) s (Z.to_nat n);
  read_bytes : forall s n d code bytes d', dev_read s n d = (code, bytes, d') ->
    (length bytes <= Z.to_nat (512 * n))%nat /\ Forall is_byte bytes;
  write_other : forall s bytes d s', length bytes = 512%nat -> s' <> s ->
    contents (dev_write s bytes d).2 s' = contents d s';
  write_ok : forall s bytes d d', length bytes = 512%nat -> Forall is_byte bytes ->
    dev_write s bytes d = (E_OK, d') -> contents d' s = bytes;
  write_floor : forall s bytes d, s < EMMC_FIRMWARE_FLOOR -> length bytes = 512%nat ->
    (dev_write s bytes d).1 = E_INVALID_ARGS /\ forall s', contents (dev_write s bytes d).2 s' = contents d s'
}.

(** ** boot_flags.h *)

Definition BOOT_FLAGS_MAGIC : Z := 0xB007F1A6.
Definition DFU_REQUEST : Z := 0xB007AB1E.
Definition RESET_REASON_COLD : Z := 0.
Definition RESET_REASON_WATCHDOG : Z := 1.
Definition RESET_REASON_SOFTWARE : Z := 2.

Record BootFlags := mkBootFlags {
  bf_magic : Z;
  reset_reason : Z;
  dfu_requested : Z;
  fw_crc_ok : Z
}.
#[export] Instance eta_BootFlags : Settable BootFlags :=
  fun r => mkBootFlags (bf_magic r) (reset_reason r) (dfu_requested r) (fw_crc_ok r).

(** ** memory_map.h *)

Definition BOOTLOADER_START_ADDR : Z := 0x10000.
Definition APP_START_ADDR : Z := 0x88400.
Definition CORE_MAILBOX_ADDR : Z := 0x88300.

(** ** watchdog.h *)

Record WdtMeta := mkWdtMeta {
  wm_magic : Z;
  wdt_reset_count : Z;
  wdt_reset_tolerance : Z;      (* int32_t *)
  wdt_reset_policy : Z;
  wdt_reset_reason : Z;
  active_app_slot : Z;
  app_slot_trial : Z;
  trial_boot_count : Z;
  wm_crc : Z
}.
#[export] Instance eta_WdtMeta : Settable WdtMeta :=
  fun r => mkWdtMeta (wm_magic r) (wdt_reset_count r) (wdt_reset_tolerance r) (wdt_reset_policy r)
             (wdt_reset_reason r) (active_app_slot r) (app_slot_trial r) (trial_boot_count r) (wm_crc r).

(** [WatchdogResetPolicy], stored as its number. *)
Definition WATCHDOG_RESET_POLICY_FORCE_UPDATE : Z := 0.
Definition WATCHDOG_RESET_POLICY_JUMP_SLOT_B : Z := 1.
Definition WATCHDOG_RESET_POLICY_ROLLBACK : Z := 2.

(** The configuration the caller owns; the context it points to is named by
    its address. *)
Record WatchdogConfig := mkWatchdogConfig {
  timeout_s : Z;
  policy : Z;
  tolerance : Z;
  confirm_delay_ms : Z;
  multicore_mode : bool;
  companion_core_ctx : option Z
}.
#[export] Instance eta_WatchdogConfig : Settable WatchdogConfig :=
  fun r => mkWatchdogConfig (timeout_s r) (policy r) (tolerance r) (confirm_delay_ms r)
             (multicore_mode r) (companion_core_ctx r).

(** watchdog.c's static variables, the three registers of the power-management
    block, and every write to them, as (offset, value), oldest first. *)
Record WdtVars := mkWdtVars {
  pm_rstc : Z;
  pm_wdog : Z;
  pm_rsts : Z;
  pm_log : list (Z * Z);
  s_timeout_ticks : Z;
  s_config : option Z;
  wdt_configs : Z -> WatchdogConfig;
  s_watchdog_kick_count : Z
}.
#[export] Instance eta_WdtVars : Settable WdtVars :=
  fun r => mkWdtVars (pm_rstc r) (pm_wdog r) (pm_rsts r) (pm_log r) (s_timeout_ticks r) (s_config r)
             (wdt_configs r) (s_watchdog_kick_count r).

(** ** companion_core.h, and companion_core.c's static variables *)

Record CompanionCoreContext := mkCompanionCoreContext {
  expected_mask : Z;
  core_kicked : Z -> Z
}.
#[export] Instance eta_CompanionCoreContext : Settable CompanionCoreContext :=
  fun r => mkCompanionCoreContext (expected_mask r) (core_kicked r).

Record CoresVars := mkCoresVars {
  g_core_mailbox : Z -> Z;
  g_core_alive_mask : Z;
  s_context : option Z;
  core_contexts : Z -> CompanionCoreContext
}.
#[export] Instance eta_CoresVars : Settable CoresVars :=
  fun r => mkCoresVars (g_core_mailbox r) (g_core_alive_mask r) (s_context r) (core_contexts r).

(** ** dfu_receive.c's static variables *)

Record DfuVars := mkDfuVars {
  sectors_written : Z;
  dfu_sector : list Z;               (* current_sector[SECTOR_SIZE] *)
  current_sector_counter : Z;
  unwritten_sector : bool;
  started : bool;
  is_self_update : bool;
  dfu_base_sector : Z;
  dfu_telemetry_target : Z;
  dfu_telemetry_last_pct : Z
}.
#[export] Instance eta_DfuVars : Settable DfuVars :=
  fun r => mkDfuVars (sectors_written r) (dfu_sector r) (current_sector_counter r) (unwritten_sector r)
             (started r) (is_self_update r) (dfu_base_sector r) (dfu_telemetry_target r)
             (dfu_telemetry_last_pct r).

(** ** The board

    What arrives on the UART: a byte, or a gap long enough for a timed
    receive to give up. *)
Inductive rx_event := RxByte (b : Z) | RxSilence.

(** Calls into the other drivers, recorded in order. *)
Inductive hw_call :=
  | HwUartInit | HwTelemetryUartInit | HwUartDrain | HwUartDeinit | HwJtagInit
  | HwIrqOff | HwBarrier | HwWakeCores | HwMailboxIpi (core : Z).

Record board (D : Type) := mkBoard {
  b_dev : D;
  b_meta : WdtMeta;                  (* wdt_meta *)
  b_sector_buf : list Z;             (* watchdog.c's s_sector_buf *)
  b_boot_sector : list Z;            (* boot.c's current_sector *)
  b_boot_counter : Z;                (* boot.c's current_sector_counter *)
  b_app_ram_offset : Z;
  b_flags : BootFlags;
  b_shift : Z;                       (* dfu_trigger.c's shift_reg *)
  b_dfu : DfuVars;
  b_wdt : WdtVars;
  b_cores : CoresVars;
  b_rx : list rx_event;
  b_tx : list Z;                     (* uart_tx_raw *)
  b_ram : Z -> Z;
  b_counter : list Z;                (* what CNTPCT will read *)
  b_frq : Z;                         (* CNTFRQ *)
  b_tel : telemetry;
  b_console : list (String.string * list Z);
  b_hw : list hw_call
}.
Arguments mkBoard {D}.
Arguments b_dev {D}. Arguments b_meta {D}. Arguments b_sector_buf {D}. Arguments b_boot_sector {D}. Arguments b_boot_counter {D}. Arguments b_app_ram_offset {D}.
Arguments b_flags {D}. Arguments b_shift {D}. Arguments b_dfu {D}. Arguments b_wdt {D}. Arguments b_cores {D}.
Arguments b_rx {D}. Arguments b_tx {D}. Arguments b_ram {D}. Arguments b_counter {D}. Arguments b_frq {D}.
Arguments b_tel {D}. Arguments b_console {D}. Arguments b_hw {D}.
#[export] Instance eta_board D : Settable (board D) :=
  fun r => mkBoard (b_dev r) (b_meta r) (b_sector_buf r) (b_boot_sector r) (b_boot_counter r) (b_app_ram_offset r) (b_flags r) (b_shift r)
             (b_dfu r) (b_wdt r) (b_cores r) (b_rx r) (b_tx r) (b_ram r) (b_counter r) (b_frq r) (b_tel r)
             (b_console r) (b_hw r).

(** Bytes and little-endian words of a buffer. *)
Definition byte_at (buf : list Z) (i : Z) : Z := default 0 (buf !! Z.to_nat i).
Definition word_at (buf : list Z) (i : Z) : Z :=
  of_le32 (byte_at buf i) (byte_at buf (i + 1)) (byte_at buf (i + 2)) (byte_at buf (i + 3)).

Section prims.
Context {D : Type} `{BlockDevice D}.

Abbreviation B := (M (board D)).

Definition emmc_init : B StatusCode := fun b =>
  let '(r, d) := dev_init (b_dev b) in Ret r (b <| b_dev := d |>).
Definition emmc_read (sector count : Z) : B (StatusCode * list Z) := fun b =>
  let '(r, bytes, d) := dev_read sector count (b_dev b) in Ret (r, bytes) (b <| b_dev := d |>).
Definition emmc_write (sector : Z) (bytes : list Z) : B StatusCode := fun b =>
  let '(r, d) := dev_write sector bytes (b_dev b) in Ret r (b <| b_dev := d |>).

(** The bytes of a buffer after a transfer of [bytes] to its start. *)
Definition overlay (bytes buf : list Z) : list Z := bytes ++ drop (length bytes) buf.

Definition say (fmt : String.string) (args : list Z) : B unit :=
  modify (fun b => b <| b_console ::= fun c => c ++ [(fmt, args)] |>).
Definition btel (f : telemetry -> telemetry) : B unit := modify (fun b => b <| b_tel ::= f |>).

(** uart.h, in blocking mode: [uart_rx] waits for a byte, for ever if none
    comes; [uart_rx_timed] gives up at a gap. *)
Fixpoint next_byte (rx : list rx_event) : option (Z * list rx_event) :=
  match rx with
  | [] => None
  | RxByte v :: rx' => Some (u8 v, rx')
  | RxSilence :: rx' => next_byte rx'
  end.
Definition uart_rx : B Z := fun b =>
  match next_byte (b_rx b) with
  | Some (v, rx) => Ret v (b <| b_rx := rx |>)
  | None => Stop Hang (b <| b_rx := [] |>)
  end.
Definition uart_rx_timed : B (option Z) := fun b =>
  match b_rx b with
  | RxByte v :: rx => Ret (Some (u8 v)) (b <| b_rx := rx |>)
  | RxSilence :: rx => Ret None (b <| b_rx := rx |>)
  | [] => Ret None b
  end.
Definition uart_tx_raw (v : Z) : B unit := modify (fun b => b <| b_tx ::= fun t => t ++ [v] |>).
Definition hw (c : hw_call) : B unit := modify (fun b => b <| b_hw ::= fun l => l ++ [c] |>).

(** A transfer into RAM. *)
Definition ram_copy (addr : Z) (bytes : list Z) : B unit :=
  modify (fun b => b <| b_ram ::= fun r a =>
    if (addr <=? a) && (a <? addr + Z.of_nat (length bytes)) then byte_at bytes (a - addr) else r a |>).

(** MRRC p15,0 <lo>,<hi>,c14: the system counter. *)
Definition read_counter : B Z := fun b =>
  match b_counter b with
  | [] => Ret 0 b
  | t :: ts => Ret t (b <| b_counter := ts |>)
  end.

Definition upd_meta (f : WdtMeta -> WdtMeta) : B unit := modify (fun b => b <| b_meta ::= f |>).
Definition upd_flags (f : BootFlags -> BootFlags) : B unit := modify (fun b => b <| b_flags ::= f |>).
Definition upd_dfu (f : DfuVars -> DfuVars) : B unit := modify (fun b => b <| b_dfu ::= f |>).
Definition upd_wdt (f : WdtVars -> WdtVars) : B unit := modify (fun b => b <| b_wdt ::= f |>).
Definition upd_cores (f : CoresVars -> CoresVars) : B unit := modify (fun b => b <| b_cores ::= f |>).

(** [STATUS_OK_OR_WARN] *)
Definition status_ok_or_warn (warning : String.string) (m : B StatusCode) : B unit :=
  r ← m; when (bool_decide (r <> E_OK)) (say warning []).

(** ** boot_flags.c *)

Definition boot_flags_valid (f : BootFlags) : bool := bf_magic f =? BOOT_FLAGS_MAGIC.

Definition boot_flags_init : B unit :=
  f ← gets b_flags;
  when (negb (boot_flags_valid f))
    (upd_flags (fun f => f <| reset_reason := RESET_REASON_COLD |> <| dfu_requested := 0 |>
                           <| fw_crc_ok := 0 |> <| bf_magic := BOOT_FLAGS_MAGIC |>)).

(** ** dfu_trigger.c *)

Definition DFU_TRIGGER_KEY : Z := 0xDF00DF00.

Definition dfu_trigger_reset : B unit := modify (fun b => b <| b_shift := 0 |>).
Definition dfu_trigger_get_val : B Z := gets (fun b => s32 (b_shift b)).
Definition dfu_trigger_feed (byte : Z) : B bool :=
  s ← gets b_shift;
  let s' := Z.lor (u32 (Z.shiftl s 8)) byte in
  modify (fun b => b <| b_shift := s' |>);;
  mret (s' =? DFU_TRIGGER_KEY).
End prims.

Abbreviation Bd D := (M (board D)).

(** [exec] that keeps the state a flat record. *)
Ltac bsimpl :=
  cbn [b_dev b_meta b_sector_buf b_boot_sector b_boot_counter b_app_ram_offset b_flags b_shift b_dfu b_wdt b_cores b_rx b_tx b_ram b_counter
       b_frq b_tel b_console b_hw field_update fst snd].
Ltac bexec := exec; bsimpl.
Ltac bexec_with H := exec_with H; bsimpl.

(** What the startup code leaves: the .data initialisers, the rest of .bss
    zero. *)
Definition board_start {D} (d : D) (m : WdtMeta) (f : BootFlags) (rx : list rx_event) : board D :=
  mkBoard d m (replicate 512 0) (replicate 512 0) 0 0 f 0
    (mkDfuVars 0 (replicate 512 0) 0 false false false 0 0 0)
    (mkWdtVars 0 0 0 [] 0 None (fun _ => mkWatchdogConfig 0 0 0 0 false None) 0)
    (mkCoresVars (fun _ => 0) 0 None (fun _ => mkCompanionCoreContext 0 (fun _ => 0)))
    rx [] (fun _ => 0) [] 0 telemetry_zero [] [].

(** ** The ideal disk *)

Record ram_disk := mkDisk { disk_sectors : Z -> list Z }.

Definition pad_sector (bytes : list Z) : list Z :=
  map (fun i => u8 (default 0 (bytes !! Z.to_nat i))) (seqZ 0 512).

#[export] Instance ram_device : BlockDevice ram_disk := {
  dev_init := fun d => (E_OK, d);
  dev_read := fun s n d => (E_OK, sectors_of (fun s => pad_sector (disk_sectors d s)) s (Z.to_nat n), d);
  dev_write := fun s bytes d =>
    if s <? EMMC_FIRMWARE_FLOOR then (E_INVALID_ARGS, d)
    else (E_OK, mkDisk (<[s := bytes]> (disk_sectors d)))
}.

Lemma pad_sector_bytes (bytes : list Z) : length (pad_sector bytes) = 512%nat /\ Forall is_byte (pad_sector bytes).
Proof.
  unfold pad_sector. split; [by rewrite length_fmap, length_seqZ|].
  apply Forall_fmap, Forall_true. intros i. apply (wrap_range 8). lia.
Qed.

Lemma pad_sector_id (bytes : list Z) : length bytes = 512%nat -> Forall is_byte bytes -> pad_sector bytes = bytes.
Proof.
  intros Hl Hb. apply list_eq. intros i. unfold pad_sector. rewrite list_lookup_fmap.
  destruct (decide (i < 512)%nat) as [Hi|Hi].
  - rewrite lookup_seqZ_lt by lia. cbn [fmap option_fmap option_map]. replace (Z.to_nat (0 + Z.of_nat i)) with i by lia.
    destruct (lookup_lt_is_Some_2 bytes i ltac:(lia)) as [v Hv]. rewrite Hv. cbn.
    rewrite wrap_small; [done|]. exact (Forall_lookup_1 _ _ _ _ Hb Hv).
  - rewrite lookup_seqZ_ge by lia. symmetry. apply lookup_ge_None. lia.
Qed.

Lemma length_sectors (c : Z -> list Z) (n : nat) : forall s,
  (forall s, length (c s) = 512%nat) -> length (sectors_of c s n) = (512 * n)%nat.
Proof. induction n as [|n IH]; intros s Hc; cbn [sectors_of]; [done|]. rewrite length_app, Hc, IH by done. lia. Qed.

Lemma sectors_bytes (c : Z -> list Z) (n : nat) : forall s,
  (forall s, Forall is_byte (c s)) -> Forall is_byte (sectors_of c s n).
Proof. induction n as [|n IH]; intros s Hc; cbn [sectors_of]; [done|]. apply Forall_app. by split; [|apply IH]. Qed.

#[export] Program Instance ram_laws : BlockLaws ram_disk := {
  contents := fun d s => pad_sector (disk_sectors d s)
}.
Next Obligation. intros d s. apply pad_sector_bytes. Qed.
Next Obligation. done. Qed.
Next Obligation. done. Qed.
Next Obligation. by intros s n d bytes d' _ [= <- <-]. Qed.
Next Obligation.
  intros s n d code bytes d' [= <- <- <-]. split.
  - rewrite length_sectors by (intros; apply pad_sector_bytes). lia.
  - apply sectors_bytes. intros. apply pad_sector_bytes.
Qed.
Next Obligation.
  intros s bytes d s' _ Hne. cbn. destruct (_ <? _); [done|]. cbn. by rewrite fn_lookup_insert_ne.
Qed.
Next Obligation.
  intros s bytes d d' Hl Hb. cbn. destruct (_ <? _); [done|]. intros [= <-]. cbn.
  rewrite fn_lookup_insert. by apply pad_sector_id.
Qed.
Next Obligation. intros s bytes d Hs _. cbn. by rewrite (proj2 (Z.ltb_lt _ _)). Qed.

(** ** The matcher

    After any bytes, the register holds the last four: the trigger fires
    exactly when those are the key. *)
Definition last4 (bytes : list Z) : Z :=
  foldl (fun s b => Z.lor (u32 (Z.shiftl s 8)) b) 0 bytes.

Lemma trigger_shift (s b : Z) : 0 <= s < 2 ^ 32 -> is_byte b ->
  Z.lor (u32 (Z.shiftl s 8)) b = (s mod 2 ^ 24) * 256 + b /\ 0 <= Z.lor (u32 (Z.shiftl s 8)) b < 2 ^ 32.
Proof.
  unfold is_byte. intros Hs Hb.
  assert (u32 (Z.shiftl s 8) = Z.shiftl (s mod 2 ^ 24) 8) as ->.
  { unfold wrap. rewrite !Z.shiftl_mul_pow2 by lia. change (2 ^ 32) with (2 ^ 24 * 2 ^ 8).
    by rewrite Z.mul_mod_distr_r by lia. }
  pose proof (Z.mod_pos_bound s (2 ^ 24) ltac:(lia)).
  rewrite Z.lor_comm, lor_disjoint_add by lia. change (2 ^ 8) with 256. change (2 ^ 32) with (2 ^ 24 * 256). lia.
Qed.

Lemma last4_range (bytes : list Z) : Forall is_byte bytes -> 0 <= last4 bytes < 2 ^ 32.
Proof.
  unfold last4. assert (forall s, 0 <= s < 2 ^ 32 -> Forall is_byte bytes ->
    0 <= foldl (fun s b => Z.lor (u32 (Z.shiftl s 8)) b) s bytes < 2 ^ 32) as Hg.
  { induction bytes as [|b bytes IH]; intros s Hs Hb; [done|]. apply Forall_cons_iff in Hb as [Hb Hbs].
    cbn. apply IH; [|done]. by apply trigger_shift. }
  intros Hb. by apply Hg.
Qed.

Lemma last4_snoc4 (bytes : list Z) (b1 b2 b3 b4 : Z) :
  Forall is_byte bytes -> is_byte b1 -> is_byte b2 -> is_byte b3 -> is_byte b4 ->
  last4 (bytes ++ [b1; b2; b3; b4]) = ((b1 * 256 + b2) * 256 + b3) * 256 + b4.
Proof.
  intros Hb H1 H2 H3 H4. unfold last4. rewrite foldl_app. fold (last4 bytes). cbn [foldl].
  pose proof (last4_range bytes Hb) as Hr0.
  destruct (trigger_shift (last4 bytes) b1 Hr0 H1) as [E1 R1].
  destruct (trigger_shift _ b2 R1 H2) as [E2 R2]. destruct (trigger_shift _ b3 R2 H3) as [E3 R3].
  destruct (trigger_shift _ b4 R3 H4) as [E4 _]. rewrite E4, E3, E2, E1. unfold is_byte in *.
  change (2 ^ 24) with 16777216. Z.div_mod_to_equations. lia.
Qed.
