(* ===== verification/Companion.v ===== *)
(** * Companion cores (source/kernel/companion_core)

    Releasing the cores the bootstrap parked, the bookkeeping shared with the
    multicore watchdog, and re-parking before a software reboot.  The mailbox
    page, the alive mask and the contexts are [b_cores] of the board. *)

From S2P Require Import Prelude Types Telemetry Board.

Section companion.
Context {D : Type}.

Definition upd_context (x : Z) (f : CompanionCoreContext -> CompanionCoreContext) : Bd D unit :=
  upd_cores (fun v => v <| core_contexts ::= fun g => <[x := f (g x)]> g |>).

(** [1U << i] in a 32-bit mask. *)
Definition bit (i : Z) : Z := u32 (Z.shiftl 1 i).

Definition companion_core_start (core_id entry : Z) : Bd D StatusCode :=
  if (core_id =? 0) || (COMPANION_CORE_MAX_CORES <=? core_id) then mret E_INVALID_ARGS else
  upd_cores (fun v => v <| g_core_mailbox ::= fun f => <[core_id := entry]> f |>);;
  hw HwBarrier;;
  hw HwWakeCores;;
  upd_cores (fun v => v <| g_core_alive_mask ::= fun m => Z.lor m (bit core_id) |>);;
  ctx ← gets (fun b => s_context (b_cores b));
  match ctx with
  | Some x => upd_context x (fun r => r <| expected_mask ::= fun m => Z.lor m (bit core_id) |>)
  | None => mret tt
  end;;
  btel (telemetry_report_boot_milestone BOOT_MS_CORE_RELEASED BOOT_STAGE_APP core_id);;
  mret E_OK.

Definition companion_core_init (context : option Z) : Bd D StatusCode :=
  match context with
  | None => mret E_INVALID_ARGS
  | Some x =>
      upd_context x (fun r => r <| expected_mask := bit 0 |>);;
      for_ (Z.to_nat COMPANION_CORE_MAX_CORES) 0
        (fun i => upd_context x (fun r => r <| core_kicked ::= fun f => <[i := 0]> f |>));;
      upd_cores (fun v => v <| s_context := Some x |>);;
      mret E_OK
  end.

Definition companion_core_reset_active : Bd D unit :=
  for_ (Z.to_nat COMPANION_CORE_MAX_CORES - 1) 1 (fun core_id =>
    m ← gets (fun b => g_core_alive_mask (b_cores b));
    when (negb (Z.land m (bit core_id) =? 0)) (hw (HwMailboxIpi core_id)));;
  upd_cores (fun v => v <| g_core_alive_mask := 0 |>).

(** A sequence of releases. *)
Fixpoint start_all (starts : list (Z * Z)) : Bd D unit :=
  match starts with
  | [] => mret tt
  | (c, e) :: rest => companion_core_start c e;; start_all rest
  end.
End companion.

(** ** Masks *)

Lemma bit_testbit (i j : Z) : 0 <= i < 32 -> 0 <= j -> Z.testbit (bit i) j = (j =? i).
Proof.
  intros Hi Hj. unfold bit. rewrite wrap_small.
  - rewrite Z.shiftl_1_l, Z.pow2_bits_eqb by lia. destruct (Z.eqb_spec i j), (Z.eqb_spec j i); lia || done.
  - rewrite Z.shiftl_1_l. split; [lia|]. apply Z.pow_lt_mono_r; lia.
Qed.

Lemma land_bit (m i : Z) : 0 <= i < 32 -> negb (Z.land m (bit i) =? 0) = Z.testbit m i.
Proof.
  intros Hi. destruct (Z.eqb_spec (Z.land m (bit i)) 0) as [Hz|Hz]; cbn; symmetry.
  - apply (f_equal (fun x => Z.testbit x i)) in Hz. rewrite Z.land_spec, bit_testbit, Z.bits_0 in Hz by lia.
    by rewrite Z.eqb_refl, andb_true_r in Hz.
  - apply not_false_iff_true. intros Hf. apply Hz. apply Z.bits_inj'. intros j Hj.
    rewrite Z.land_spec, bit_testbit, Z.bits_0 by lia. destruct (Z.eqb_spec j i) as [->|]; [by rewrite Hf|].
    apply andb_false_r.
Qed.

(** ** What is parked and what is expected *)

Section cores.
Context {D : Type}.

Definition released (starts : list (Z * Z)) (c : Z) : bool :=
  existsb (fun s => (s.1 =? c) && (1 <=? c) && (c <? COMPANION_CORE_MAX_CORES)) starts.
Definition start_ok (s : Z * Z) : Prop := 0 <= s.1.

Definition masks_after (starts : list (Z * Z)) (v v' : CoresVars) (x : Z) : Prop :=
  s_context v' = s_context v /\
  forall c, 0 <= c < 32 ->
    Z.testbit (g_core_alive_mask v') c = Z.testbit (g_core_alive_mask v) c || released starts c /\
    Z.testbit (expected_mask (core_contexts v' x)) c =
      Z.testbit (expected_mask (core_contexts v x)) c || released starts c.

Lemma started_one (c e i : Z) : released [(c, e)] i = (c =? i) && (1 <=? i) && (i <? 4).
Proof. unfold released. cbn [existsb fst]. apply orb_false_r. Qed.

Ltac bool_lia :=
  repeat match goal with
  | |- context [?a =? ?b] => destruct (Z.eqb_spec a b)
  | |- context [?a <? ?b] => destruct (Z.ltb_spec a b)
  | |- context [?a <=? ?b] => destruct (Z.leb_spec a b)
  end; cbn; done || lia.

Lemma companion_core_start_masks (c e x : Z) (b : board D) : 0 <= c -> s_context (b_cores b) = Some x ->
  returns (companion_core_start c e) b (fun _ k => masks_after [(c, e)] (b_cores b) (b_cores k) x).
Proof.
  intros Hc Hx. unfold companion_core_start, COMPANION_CORE_MAX_CORES.
  destruct (Z.eqb_spec c 0) as [->|Hne]; [|destruct (Z.leb_spec 4 c) as [Hge|Hlt]]; cbn [orb].
  - apply returns_ret. split; [done|]. intros i Hi. rewrite started_one.
    replace ((0 =? i) && (1 <=? i) && (i <? 4)) with false by bool_lia. by rewrite !orb_false_r.
  - apply returns_ret. split; [done|]. intros i Hi. rewrite started_one.
    replace ((c =? i) && (1 <=? i) && (i <? 4)) with false by bool_lia. by rewrite !orb_false_r.
  - steps. cbn -[bit released]. rewrite Hx. steps. split; [by cbn|]. intros i Hi. cbn -[bit released].
    rewrite fn_lookup_insert. cbn -[bit released]. rewrite !Z.lor_spec, bit_testbit, started_one by lia.
    by replace ((c =? i) && (1 <=? i) && (i <? 4)) with (i =? c) by bool_lia.
Qed.

Lemma start_all_masks (starts : list (Z * Z)) (x : Z) : forall b : board D,
  Forall start_ok starts -> s_context (b_cores b) = Some x ->
  returns (start_all starts) b (fun _ k => masks_after starts (b_cores b) (b_cores k) x).
Proof.
  induction starts as [|[c e] starts IH]; intros b Hs Hx; cbn [start_all].
  - apply returns_ret. split; [done|]. intros i Hi. by rewrite !orb_false_r.
  - apply Forall_cons_iff in Hs as [Hc Hs]. step. call companion_core_start_masks; [exact Hc|exact Hx|].
    intros r k [Hk Hm]. rewrite Hx in Hk. eapply returns_mono; [by apply IH|]. intros [] k' [Hk' Hm'].
    split; [by rewrite Hk', Hk|]. intros i Hi. destruct (Hm i Hi) as [Ha He], (Hm' i Hi) as [Ha' He'].
    rewrite Ha', He', Ha, He. unfold released. cbn. rewrite orb_false_r. by rewrite !orb_assoc.
Qed.

Lemma companion_core_init_masks (x : Z) (b : board D) :
  returns (companion_core_init (Some x)) b (fun _ k =>
    s_context (b_cores k) = Some x /\ g_core_alive_mask (b_cores k) = g_core_alive_mask (b_cores b) /\
    forall c, 0 <= c < 32 -> Z.testbit (expected_mask (core_contexts (b_cores k) x)) c = (c =? 0)).
Proof.
  unfold companion_core_init. change (Z.to_nat COMPANION_CORE_MAX_CORES) with 4%nat. cbn [for_].
  unfold upd_context, upd_cores. steps.
  cbn -[bit]. rewrite !fn_lookup_insert. split_and!; [done|done|]. intros c Hc. cbn -[bit]. by rewrite bit_testbit by lia.
Qed.

Lemma reset_active_sends (b : board D) :
  returns companion_core_reset_active b (fun _ k =>
    b_hw k = b_hw b ++ map HwMailboxIpi (filter (fun c => Z.testbit (g_core_alive_mask (b_cores b)) c = true) [1; 2; 3]) /\
    g_core_alive_mask (b_cores k) = 0).
Proof.
  unfold companion_core_reset_active. change (Z.to_nat COMPANION_CORE_MAX_CORES - 1)%nat with 3%nat. cbn [for_].
  rewrite !filter_cons, filter_nil. unfold returns, when, hw, upd_cores, modify, gets, mbind, M_mbind, mret, M_mret.
  rewrite land_bit by lia. destruct (Z.testbit (g_core_alive_mask (b_cores b)) 1); cbv iota; bsimpl;
    rewrite land_bit by lia; change (1 + 1) with 2; destruct (Z.testbit (g_core_alive_mask (b_cores b)) 2); cbv iota; bsimpl;
    rewrite land_bit by lia; change (2 + 1) with 3; destruct (Z.testbit (g_core_alive_mask (b_cores b)) 3); cbv iota; bsimpl;
    rewrite <- ?app_assoc, ?app_nil_r; done.
Qed.

(** A core that is commanded to start is expected to report from that
    moment, and is re-parked by the next reboot.  After [companion_core_init]
    and any sequence of releases, valid and invalid ids mixed, the expected
    mask is core 0 plus exactly the valid cores released, and
    [companion_core_reset_active] sends one park request to each of those,
    lowest first, and to no other core; a second call sends none. *)
Theorem companion_cores_tracked (x : Z) (starts : list (Z * Z)) (b : board D) :
  Forall start_ok starts -> g_core_alive_mask (b_cores b) = 0 ->
  returns (companion_core_init (Some x);; start_all starts) b (fun _ k =>
    (forall c, 0 <= c < 32 ->
       Z.testbit (expected_mask (core_contexts (b_cores k) x)) c = (c =? 0) || released starts c) /\
    returns companion_core_reset_active k (fun _ k' =>
      b_hw k' = b_hw k ++ map HwMailboxIpi (filter (fun c => released starts c = true) [1; 2; 3]) /\
      returns companion_core_reset_active k' (fun _ k'' => b_hw k'' = b_hw k'))).
Proof.
  intros Hs Hz. step. call companion_core_init_masks. intros r b1 (Hx & Hal & He).
  rewrite Hz in Hal. call start_all_masks; [exact Hs|exact Hx|]. intros [] k [_ Hk]. split.
  - intros c Hc. destruct (Hk c Hc) as [_ ->]. by rewrite He.
  - assert (forall c, 0 <= c < 32 -> Z.testbit (g_core_alive_mask (b_cores k)) c = released starts c) as Ha.
    { intros c Hc. destruct (Hk c Hc) as [-> _]. by rewrite Hal, Z.bits_0. }
    call reset_active_sends. intros [] k' [Hh Hm]. split.
    + rewrite Hh. f_equal. f_equal. apply filter_ext_in. intros c Hc.
      rewrite Ha; [done|]. repeat apply elem_of_cons in Hc as [->|Hc]; [lia..|by apply elem_of_nil in Hc].
    + call reset_active_sends. intros [] k'' [Hh' _]. rewrite Hh'. rewrite Hm. by rewrite app_nil_r.
Qed.

End cores.

Definition demo_cores : board unit := board_start tt (mkWdtMeta 0 0 0 0 0 0 0 0 0) (mkBootFlags 0 0 0 0) [].
Definition demo_starts : list (Z * Z) := [(2, 0x90000); (4, 0x90000); (1, 0x91000)].

Lemma demo_starts_ok : Forall start_ok demo_starts.
Proof. repeat constructor; unfold start_ok; cbn; lia. Qed.

Lemma companion_cores_tracked_witness :
  returns (companion_core_init (Some 7);; start_all demo_starts) demo_cores (fun _ k =>
    returns companion_core_reset_active k (fun _ k' => b_hw k' = b_hw k ++ [HwMailboxIpi 1; HwMailboxIpi 2])).
Proof.
  pose proof (companion_cores_tracked 7 demo_starts demo_cores demo_starts_ok eq_refl) as H.
  eapply returns_mono; [exact H|]. intros r k [_ Hr]. eapply returns_mono; [exact Hr|]. by intros [] k' [-> _].
Defined.
