(* ===== verification/Watchdog.v ===== *)
(** * The watchdog driver and its metadata (source/drivers/watchdog)

    The record the boot stages keep in the eMMC, with its magic and CRC; the
    power-management registers; the report of each core that gates the kick of
    a multicore image.  Where the sources compile two versions, [MINIMAL] is
    the bootloader's. *)

From Stdlib Require String.
From S2P Require Import Prelude Types Crc Telemetry Board Companion.

Definition PM_PASSWORD : Z := 0x5A000000.
Definition PM_RSTC_OFFSET : Z := 0x1c.
Definition PM_WDOG_OFFSET : Z := 0x24.
Definition PM_RSTC_WRCFG_FULL_RESET : Z := 0x020.
Definition PM_RSTC_WRCFG_MASK : Z := 0x030.
Definition PM_RSTS_HADWRQ : Z := Z.shiftl 1 6.
Definition PM_WDOG_COUNT_MASK : Z := 0x000FFFFF.
Definition PM_WDOG_TICKS_PER_S : Z := 65536.
Definition PM_WDOG_MAX_TIMEOUT : Z := 15.

Definition WDT_META_MAGIC : Z := 0xB007DA7A.
Definition WDT_KICK_PERIOD : Z := 2000.
Definition WDT_CORE_KICK_PERIOD : Z := 1000.
Definition APP_SLOT_TRIAL_MAX_ATTEMPTS : Z := 3.
Definition WATCHDOG_RESET_TOLERANCE_INFINITE : Z := -1.
Definition WATCHDOG_CONFIRM_MANUAL : Z := -1.

(** The struct as its 36 bytes in memory. *)
Definition meta_bytes (m : WdtMeta) : list Z :=
  le32 (wm_magic m) ++ le32 (wdt_reset_count m) ++ le32 (wdt_reset_tolerance m) ++ le32 (wdt_reset_policy m) ++
  le32 (wdt_reset_reason m) ++ le32 (active_app_slot m) ++ le32 (app_slot_trial m) ++ le32 (trial_boot_count m) ++
  le32 (wm_crc m).
Definition meta_of (buf : list Z) : WdtMeta :=
  mkWdtMeta (word_at buf 0) (word_at buf 4) (s32 (word_at buf 8)) (word_at buf 12) (word_at buf 16)
    (word_at buf 20) (word_at buf 24) (word_at buf 28) (word_at buf 32).

Definition wdt_meta_initial : WdtMeta :=
  mkWdtMeta 0 0 WATCHDOG_RESET_TOLERANCE_INFINITE 0 0 APP_SLOT_A 0 0 0.
Definition wdt_meta_defaults : WdtMeta :=
  mkWdtMeta WDT_META_MAGIC 0 WATCHDOG_RESET_TOLERANCE_INFINITE 0 0 APP_SLOT_A 0 0 0.

(** [wdt_meta_compute_crc(m)], on the bytes [m] points to. *)
Definition wdt_meta_compute_crc (m : list Z) : Z := crc32_of (take 32 m).

Section meta.
Context {D : Type} `{BlockDevice D}.

Definition wdt_meta_set_defaults : Bd D unit := upd_meta (fun _ => wdt_meta_defaults).

Definition wdt_meta_read : Bd D StatusCode :=
  rd ← emmc_read EMMC_SECTOR_METADATA 1;
  modify (fun b => b <| b_sector_buf ::= overlay rd.2 |>);;
  if decide (rd.1 <> E_OK) then mret rd.1 else
  buf ← gets b_sector_buf;
  let src := meta_of buf in
  if negb (wm_magic src =? WDT_META_MAGIC) || negb (wm_crc src =? wdt_meta_compute_crc buf)
  then wdt_meta_set_defaults;; mret E_OK
  else upd_meta (fun _ => src);; mret E_OK.

Definition wdt_meta_write : Bd D StatusCode :=
  modify (fun b => b <| b_sector_buf := replicate 512 0 |>);;
  upd_meta (fun m => m <| wm_magic := WDT_META_MAGIC |>);;
  upd_meta (fun m => m <| wm_crc := wdt_meta_compute_crc (meta_bytes m) |>);;
  m ← gets b_meta;
  modify (fun b => b <| b_sector_buf ::= overlay (meta_bytes m) |>);;
  buf ← gets b_sector_buf;
  emmc_write EMMC_SECTOR_METADATA buf.

Definition wdt_meta_confirm_slot : Bd D StatusCode :=
  ret ← wdt_meta_read;
  if decide (ret <> E_OK) then mret ret else
  upd_meta (fun m => m <| app_slot_trial := 0 |> <| trial_boot_count := 0 |> <| wdt_reset_count := 0 |>);;
  wdt_meta_write.

(** ** The power-management block

    It ignores a write that does not carry the password. *)
Definition pm_store (v old : Z) : Z :=
  if Z.land v 0xFF000000 =? PM_PASSWORD then Z.land v 0x00FFFFFF else old.
Definition pm_write_wdog (v : Z) : Bd D unit :=
  upd_wdt (fun w => w <| pm_wdog ::= pm_store v |> <| pm_log ::= fun l => l ++ [(PM_WDOG_OFFSET, v)] |>).
Definition pm_write_rstc (v : Z) : Bd D unit :=
  upd_wdt (fun w => w <| pm_rstc ::= pm_store v |> <| pm_log ::= fun l => l ++ [(PM_RSTC_OFFSET, v)] |>).

Definition watchdog_was_wdt_reset : Bd D bool :=
  r ← gets (fun b => pm_rsts (b_wdt b)); mret (negb (Z.land r PM_RSTS_HADWRQ =? 0)).

Definition upd_config (c : Z) (f : WatchdogConfig -> WatchdogConfig) : Bd D unit :=
  upd_wdt (fun w => w <| wdt_configs ::= fun g => <[c := f (g c)]> g |>).

Definition watchdog_init (config : option Z) : Bd D StatusCode :=
  match config with
  | None => mret E_INVALID_ARGS
  | Some c =>
      t ← gets (fun b => timeout_s (wdt_configs (b_wdt b) c));
      if t =? 0 then mret E_INVALID_ARGS else
      when (PM_WDOG_MAX_TIMEOUT <? t) (upd_config c (fun r => r <| timeout_s := PM_WDOG_MAX_TIMEOUT |>));;
      t ← gets (fun b => timeout_s (wdt_configs (b_wdt b) c));
      upd_wdt (fun w => w <| s_timeout_ticks := Z.land (u32 (t * PM_WDOG_TICKS_PER_S)) PM_WDOG_COUNT_MASK |>);;
      upd_wdt (fun w => w <| s_config := Some c |>);;
      ticks ← gets (fun b => s_timeout_ticks (b_wdt b));
      pm_write_wdog (Z.lor PM_PASSWORD ticks);;
      pm_write_rstc (Z.lor PM_PASSWORD PM_RSTC_WRCFG_FULL_RESET);;
      emmc_init;;
      r ← wdt_meta_read;
      if decide (r = E_OK) then
        cfg ← gets (fun b => wdt_configs (b_wdt b) c);
        upd_meta (fun m => m <| wdt_reset_tolerance := tolerance cfg |>);;
        upd_meta (fun m => m <| wdt_reset_policy := policy cfg |>);;
        wdt_meta_write;;
        mret E_OK
      else mret E_OK
  end.

Definition watchdog_kick : Bd D unit :=
  ticks ← gets (fun b => s_timeout_ticks (b_wdt b));
  pm_write_wdog (Z.lor PM_PASSWORD ticks).

Definition watchdog_disable : Bd D unit :=
  rstc ← gets (fun b => pm_rstc (b_wdt b));
  pm_write_rstc (Z.lor PM_PASSWORD (Z.land rstc (Z.lxor 0xFFFFFFFF PM_RSTC_WRCFG_MASK))).

(** [while (1) {}] until the countdown ends. *)
Definition watchdog_trigger_reset {A} : Bd D A :=
  pm_write_wdog (Z.lor PM_PASSWORD 10);;
  pm_write_rstc (Z.lor PM_PASSWORD PM_RSTC_WRCFG_FULL_RESET);;
  stop ChipReset.

End meta.

Module MINIMAL.
Definition watchdog_core_kick {D : Type} : Bd D StatusCode :=
  cfg ← gets (fun b => s_config (b_wdt b));
  match cfg with
  | None => mret E_NOT_INITIALIZED
  | Some _ => watchdog_kick;; mret E_OK
  end.
End MINIMAL.

Section kick.
Context {D : Type}.

(** Some core of [i, i+1, ...] the mask names has not reported. *)
Fixpoint missing_report (n : nat) (i : Z) (x : CompanionCoreContext) (mask : Z) : bool :=
  match n with
  | O => false
  | S n' => (Z.testbit mask i && (core_kicked x i =? 0)) || missing_report n' (i + 1) x mask
  end.

Definition watchdog_core_kick (me : Z) : Bd D StatusCode :=
  cfg ← gets (fun b => s_config (b_wdt b));
  match cfg with
  | None => mret E_NOT_INITIALIZED
  | Some c =>
      cf ← gets (fun b => wdt_configs (b_wdt b) c);
      match (if multicore_mode cf then companion_core_ctx cf else None) with
      | None => watchdog_kick;; mret E_OK
      | Some x =>
          upd_context x (fun r => r <| core_kicked ::= fun f => <[me := 1]> f |>);;
          mask ← gets (fun b => expected_mask (core_contexts (b_cores b) x));
          r ← gets (fun b => core_contexts (b_cores b) x);
          if missing_report (Z.to_nat COMPANION_CORE_MAX_CORES) 0 r mask then mret E_OK else
          for_ (Z.to_nat COMPANION_CORE_MAX_CORES) 0
            (fun i => upd_context x (fun r => r <| core_kicked ::= fun f => <[i := 0]> f |>));;
          watchdog_kick;;
          mret E_OK
      end
  end.

Definition watchdog_kick_cb (me : Z) : Bd D unit :=
  watchdog_core_kick me;;
  upd_wdt (fun w => w <| s_watchdog_kick_count ::= fun n => u32 (n + 1) |>).
End kick.

(** ** The record's layout *)

#[local] Opaque crc32_of.

Definition meta_ok (m : WdtMeta) : Prop :=
  0 <= wm_magic m < 2 ^ 32 /\ 0 <= wdt_reset_count m < 2 ^ 32 /\ -2 ^ 31 <= wdt_reset_tolerance m < 2 ^ 31 /\
  0 <= wdt_reset_policy m < 2 ^ 32 /\ 0 <= wdt_reset_reason m < 2 ^ 32 /\ 0 <= active_app_slot m < 2 ^ 32 /\
  0 <= app_slot_trial m < 2 ^ 32 /\ 0 <= trial_boot_count m < 2 ^ 32 /\ 0 <= wm_crc m < 2 ^ 32.

(** What [wdt_meta_write] makes of the shadow, and the sector it writes. *)
Definition seal (m : WdtMeta) : WdtMeta :=
  let m' := m <| wm_magic := WDT_META_MAGIC |> in
  m' <| wm_crc := wdt_meta_compute_crc (meta_bytes m') |>.
Definition meta_sector (m : WdtMeta) : list Z := meta_bytes m ++ replicate 476 0.

Lemma meta_bytes_bytes (m : WdtMeta) : Forall is_byte (meta_bytes m).
Proof. unfold meta_bytes. rewrite !Forall_app. split_and!; repeat constructor; try apply byte_range. Qed.

Lemma meta_sector_bytes (m : WdtMeta) : length (meta_sector m) = 512%nat /\ Forall is_byte (meta_sector m).
Proof.
  split; [done|]. apply Forall_app. split; [apply meta_bytes_bytes|]. apply Forall_replicate. done.
Qed.

Lemma s32_u32 (x : Z) : -2 ^ 31 <= x < 2 ^ 31 -> s32 (u32 x) = x.
Proof.
  intros Hx. unfold s32. rewrite wrap_wrap by lia. unfold wrap.
  change (2 ^ 31) with 2147483648 in *. change (2 ^ 32) with 4294967296 in *.
  destruct (Z.ltb_spec (x mod 4294967296) 2147483648); Z.div_mod_to_equations; lia.
Qed.

Lemma meta_of_sector (m : WdtMeta) : meta_ok m -> meta_of (meta_sector m) = m.
Proof.
  intros (H1 & H2 & H3 & H4 & H5 & H6 & H7 & H8 & H9). destruct m as [a1 a2 a3 a4 a5 a6 a7 a8 a9].
  cbn [wm_magic wdt_reset_count wdt_reset_tolerance wdt_reset_policy wdt_reset_reason active_app_slot
       app_slot_trial trial_boot_count wm_crc] in *.
  transitivity (mkWdtMeta (u32 a1) (u32 a2) (s32 (u32 a3)) (u32 a4) (u32 a5) (u32 a6) (u32 a7) (u32 a8) (u32 a9)).
  - rewrite <- !of_le32_le32. reflexivity.
  - rewrite s32_u32 by lia. by rewrite !wrap_small by lia.
Qed.

Lemma le32_inj (x y : Z) : le32 x = le32 y -> u32 x = u32 y.
Proof. intros [= H0 H1 H2 H3]. rewrite <- !of_le32_le32. by rewrite H0, H1, H2, H3. Qed.

Lemma seal_crc (m : WdtMeta) : 0 <= wm_crc (seal m) < 2 ^ 32.
Proof.
  apply crc32_of_range. apply Forall_take, meta_bytes_bytes.
Qed.

Lemma seal_ok (m : WdtMeta) : meta_ok m -> meta_ok (seal m).
Proof.
  intros Hm. pose proof (seal_crc m). unfold meta_ok, seal in *. cbn -[wdt_meta_compute_crc] in *.
  unfold WDT_META_MAGIC. intuition lia.
Qed.

(** The CRC field is not part of what it covers. *)
Lemma seal_valid (m : WdtMeta) : wdt_meta_compute_crc (meta_sector (seal m)) = wm_crc (seal m).
Proof. reflexivity. Qed.

(** ** Reading and writing the record *)

Section meta_spec.
Context {D : Type} `{BlockLaws D}.

Lemma overlay_meta (m : WdtMeta) : overlay (meta_bytes m) (replicate 512 0) = meta_sector m.
Proof. reflexivity. Qed.

Lemma wdt_meta_write_eq (b : board D) :
  wdt_meta_write b =
  let '(r, d) := dev_write EMMC_SECTOR_METADATA (meta_sector (seal (b_meta b))) (b_dev b) in
  Ret r (b <| b_sector_buf := meta_sector (seal (b_meta b)) |> <| b_meta := seal (b_meta b) |> <| b_dev := d |>).
Proof.
  unfold wdt_meta_write. do 3 bexec.
  change (mkWdtMeta _ _ _ _ _ _ _ _ _) with (seal (b_meta b)).
  do 3 bexec. unfold emmc_write. bsimpl. rewrite overlay_meta. by destruct (dev_write _ _ _).
Qed.

Definition accepted (buf : list Z) : bool :=
  (word_at buf 0 =? WDT_META_MAGIC) && (word_at buf 32 =? wdt_meta_compute_crc buf).

Lemma accepted_sector (m : WdtMeta) : meta_ok m -> accepted (meta_sector (seal m)) = true.
Proof.
  intros Hm. unfold accepted.
  change (wdt_meta_compute_crc (meta_sector ?m)) with (wdt_meta_compute_crc (meta_bytes m)).
  pose proof (f_equal wm_crc (meta_of_sector _ (seal_ok _ Hm))) as Hcrc. cbn [wm_crc meta_of] in Hcrc.
  rewrite Hcrc, <- seal_valid. change (word_at (meta_sector ?m) 0) with (of_le32 (byte (wm_magic m) 0) (byte (wm_magic m) 1)
    (byte (wm_magic m) 2) (byte (wm_magic m) 3)). rewrite of_le32_le32.
  apply andb_true_iff. split; [done|apply Z.eqb_refl].
Qed.

(** A read that the driver completes takes the record of the sector if it is
    valid, the defaults otherwise. *)
Lemma wdt_meta_read_eq (b : board D) :
  exists r d buf, wdt_meta_read b = Ret r (b <| b_dev := d |> <| b_sector_buf := buf |> <| b_meta :=
      if decide (r <> E_OK) then b_meta b
      else if accepted (contents (b_dev b) EMMC_SECTOR_METADATA)
           then meta_of (contents (b_dev b) EMMC_SECTOR_METADATA) else wdt_meta_defaults |>) /\
    (forall s, contents d s = contents (b_dev b) s) /\
    ((exists bytes, dev_read EMMC_SECTOR_METADATA 1 (b_dev b) = (r, bytes, d))) /\
    (length (b_sector_buf b) = 512%nat -> length buf = 512%nat).
Proof.
  destruct (dev_read EMMC_SECTOR_METADATA 1 (b_dev b)) as [[r bytes] d] eqn:Hrd.
  assert (forall s, contents d s = contents (b_dev b) s) as Hd.
  { intros s. pose proof (read_contents EMMC_SECTOR_METADATA 1 (b_dev b) s) as Hc. by rewrite Hrd in Hc. }
  exists r, d. exists (overlay bytes (b_sector_buf b)).
  split; [|split; [done|split; [by exists bytes|]]].
  - unfold wdt_meta_read. etrans; [apply (bind_ret _ _ _ (r, bytes) (b <| b_dev := d |>)); unfold emmc_read; by rewrite Hrd|].
    exec. cbn [fst snd]. destruct (decide (r <> E_OK)) as [Hr|Hr]; [by destruct b|]. exec.
    assert (r = E_OK) as -> by (by destruct (decide (r = E_OK))).
    pose proof (read_ok _ 1 _ _ _ ltac:(lia) Hrd) as Hb. cbn [sectors_of] in Hb. change (Z.to_nat 1) with 1%nat in Hb.
    cbn [sectors_of] in Hb. rewrite app_nil_r in Hb. subst bytes.
    set (c := contents (b_dev b) EMMC_SECTOR_METADATA). set (buf := overlay c (b_sector_buf b)).
    assert (forall i, 0 <= i < 512 -> byte_at buf i = byte_at c i) as Hbyte.
    { intros i Hi. unfold byte_at, buf, overlay. rewrite lookup_app_l; [done|].
      destruct (contents_bytes (b_dev b) EMMC_SECTOR_METADATA) as [Hl _]. unfold c. rewrite Hl. lia. }
    assert (forall i, 0 <= i < 509 -> word_at buf i = word_at c i) as Hword.
    { intros i Hi. unfold word_at. by rewrite !Hbyte by lia. }
    assert (wdt_meta_compute_crc buf = wdt_meta_compute_crc c) as Hcrc.
    { unfold wdt_meta_compute_crc, buf, overlay. rewrite take_app_le; [done|].
      destruct (contents_bytes (b_dev b) EMMC_SECTOR_METADATA) as [Hl _]. unfold c. rewrite Hl. lia. }
    assert (meta_of buf = meta_of c) as Hmeta by (unfold meta_of; by rewrite !Hword by lia).
    cbn [b_sector_buf field_update]. fold buf. rewrite Hmeta, Hcrc.
    unfold accepted. fold c. rewrite <- negb_andb. cbn [wm_magic wm_crc meta_of].
    by destruct ((word_at c 0 =? WDT_META_MAGIC) && (word_at c 32 =? wdt_meta_compute_crc c)).
  - intros Hl. unfold overlay. rewrite length_app, length_drop.
    destruct (read_bytes _ _ _ _ _ _ Hrd) as [Hle _]. change (Z.to_nat (512 * 1)) with 512%nat in Hle. lia.
Qed.

(** The record survives a reset.  If [wdt_meta_write] succeeds, then on any
    later boot that finds the same metadata sector, whatever its RAM holds,
    [wdt_meta_read] returns; when it returns E_OK the shadow is again what was
    written, field by field, and otherwise it is left alone. *)
Theorem wdt_meta_roundtrip (b k b' : board D) :
  meta_ok (b_meta b) -> wdt_meta_write b = Ret E_OK k ->
  contents (b_dev b') EMMC_SECTOR_METADATA = contents (b_dev k) EMMC_SECTOR_METADATA ->
  returns wdt_meta_read b' (fun r k' =>
    b_meta k' = if decide (r = E_OK) then (b_meta b) <| wm_magic := WDT_META_MAGIC |> <| wm_crc := wm_crc (b_meta k) |>
                else b_meta b').
Proof.
  intros Hm Hw Hc. rewrite wdt_meta_write_eq in Hw.
  destruct (dev_write _ _ _) as [r d] eqn:Hd. injection Hw as -> <-. cbn [b_dev b_meta field_update] in *.
  destruct (meta_sector_bytes (seal (b_meta b))) as [Hl Hb]. rewrite (write_ok _ _ _ _ Hl Hb Hd) in Hc.
  destruct (wdt_meta_read_eq b') as (r & d' & buf & Heq & _). unfold returns. rewrite Heq. bsimpl. clear Heq.
  rewrite Hc, meta_of_sector by (by apply seal_ok).
  rewrite accepted_sector by done.
  destruct (decide (r <> E_OK)), (decide (r = E_OK)); done.
Qed.

(** C21: a metadata sector whose record was damaged in one byte (any of its 36,
    the magic and the CRC included) is not believed: a successful read leaves
    the safe defaults, active slot A and no trial, in the shadow. *)
Theorem wdt_meta_torn_write (m : WdtMeta) (i : nat) (v : Z) (b : board D) :
  (i < 36)%nat -> is_byte v -> meta_sector (seal m) !! i <> Some v ->
  contents (b_dev b) EMMC_SECTOR_METADATA = <[i := v]> (meta_sector (seal m)) ->
  returns wdt_meta_read b (fun r k => r = E_OK -> b_meta k = wdt_meta_defaults).
Proof.
  intros Hi Hv Hne Hc. destruct (wdt_meta_read_eq b) as (r & d & buf & Heq & _). unfold returns. rewrite Heq. bsimpl. clear Heq.
  intros ->. rewrite decide_False by tauto. rewrite Hc.
  enough (accepted (<[i := v]> (meta_sector (seal m))) = false) as -> by done.
  unfold accepted. apply andb_false_iff. right. apply Z.eqb_neq.
  pose proof (meta_bytes_bytes (seal m)) as Hb. set (s := meta_bytes (seal m)) in *.
  change (meta_sector (seal m)) with (s ++ replicate 476 0) in *.
  rewrite lookup_app_l in Hne by (change (length s) with 36%nat; lia).
  rewrite insert_app_l by (change (length s) with 36%nat; lia).
  unfold wdt_meta_compute_crc. rewrite take_app_le by (rewrite length_insert; change (length s) with 36%nat; lia).
  assert (forall l : list Z, length l = 36%nat -> Forall is_byte l ->
            le32 (word_at (l ++ replicate 476 0) 32) = drop 32 l) as Hw.
  { intros l Hl Hlb. apply (Forall_drop _ 32) in Hlb. do 36 (destruct l as [|? l]; [discriminate Hl|]).
    destruct l as [|? l]; [|discriminate Hl]. cbn [drop] in Hlb. split_Forall. cbn [drop].
    unfold word_at, byte_at. cbn -[le32 of_le32]. by rewrite byte_of_le32. }
  set (s' := <[i := v]> s). assert (length s' = 36%nat) as Hl' by (unfold s'; by rewrite length_insert).
  assert (Forall is_byte s') as Hb' by (by apply Forall_insert).
  intros Heq. pose proof (Hw s' Hl' Hb') as Hd. rewrite Heq in Hd.
  assert (drop 32 s = le32 (crc32_of (take 32 s))) as Hs by reflexivity.
  destruct (decide (i < 32)%nat) as [Hlt|Hge].
  - destruct (lookup_lt_is_Some_2 s i ltac:(change (length s) with 36%nat; lia)) as [old Hold].
    assert (take 32 s = take i s ++ old :: drop (S i) (take 32 s)) as Hsp.
    { rewrite <- (take_drop_middle (take 32 s) i old) at 1 by (by rewrite lookup_take_lt by lia).
      by rewrite take_take, Nat.min_l by lia. }
    assert (take 32 s' = take i s ++ v :: drop (S i) (take 32 s)) as Hsp'.
    { unfold s'. rewrite take_insert_lt by lia. rewrite insert_take_drop by (rewrite length_take; change (length s) with 36%nat; lia).
      by rewrite take_take, Nat.min_l by lia. }
    assert (drop 32 s' = drop 32 s) as Hdr by (unfold s'; by rewrite drop_insert_lt by lia).
    rewrite Hdr, Hs in Hd. apply le32_inj in Hd.
    rewrite !wrap_small in Hd by (apply crc32_of_range; by apply Forall_take). rewrite Hsp, Hsp' in Hd.
    eapply crc32_of_differs; [| | | | |exact Hd].
    + by apply Forall_take.
    + by apply Forall_drop, Forall_take.
    + by eapply (Forall_lookup_1 _ s).
    + done.
    + intros ->. exact (Hne Hold).
  - assert (take 32 s' = take 32 s) as Ht by (unfold s'; by rewrite take_insert_ge by lia).
    assert (drop 32 s' = drop 32 s) as Hdr by (rewrite Hs, <- Ht; by symmetry).
    assert (s' = s) as He.
    { transitivity (take 32 s' ++ drop 32 s'); [by rewrite take_drop|]. rewrite Ht, Hdr. apply take_drop. }
    apply Hne. rewrite <- He. unfold s'. apply list_lookup_insert_eq. change (length s) with 36%nat. lia.
Qed.

End meta_spec.

(** ** The gate of a multicore image *)

Section gate.
Context {D : Type}.

Definition context_of (b : board D) (x : Z) : CompanionCoreContext := core_contexts (b_cores b) x.
Definition gated (b : board D) (x : Z) : Prop :=
  exists c, s_config (b_wdt b) = Some c /\ multicore_mode (wdt_configs (b_wdt b) c) = true /\
    companion_core_ctx (wdt_configs (b_wdt b) c) = Some x.

Lemma missing_report_spec (x : CompanionCoreContext) (mask : Z) (n : nat) : forall i,
  missing_report n i x mask = false <->
  forall j, i <= j < i + Z.of_nat n -> Z.testbit mask j = true -> core_kicked x j <> 0.
Proof.
  induction n as [|n IH]; intros i; cbn [missing_report].
  - split; [intros _ j Hj; lia|intros _; reflexivity].
  - rewrite orb_false_iff, andb_false_iff, IH, Z.eqb_neq. split.
    + intros [Hi Hn] j Hj Hb. destruct (decide (j = i)) as [->|]; [destruct Hi; congruence|].
      by apply Hn; [lia|].
    + intros Hj. split.
      * destruct (Z.testbit mask i) eqn:Hb; [right|by left]. apply Hj; [lia|done].
      * intros j Hl. apply Hj. lia.
Qed.

(** One report, by whether it completes the round. *)
Lemma core_kick_eq (me x : Z) (b : board D) : gated b x ->
  let r := (context_of b x) <| core_kicked ::= fun f => <[me := 1]> f |> in
  if missing_report 4 0 r (expected_mask r) then
    watchdog_core_kick me b = Ret E_OK (b <| b_cores ::= fun v => v <| core_contexts ::= <[x := r]> |> |>)
  else exists k, watchdog_core_kick me b = Ret E_OK k /\
    expected_mask (context_of k x) = expected_mask r /\
    (forall i, 0 <= i < 4 -> core_kicked (context_of k x) i = 0) /\
    s_config (b_wdt k) = s_config (b_wdt b) /\ wdt_configs (b_wdt k) = wdt_configs (b_wdt b) /\
    pm_wdog (b_wdt k) = pm_store (Z.lor PM_PASSWORD (s_timeout_ticks (b_wdt b))) (pm_wdog (b_wdt b)) /\
    pm_log (b_wdt k) = pm_log (b_wdt b) ++ [(PM_WDOG_OFFSET, Z.lor PM_PASSWORD (s_timeout_ticks (b_wdt b)))].
Proof.
  intros (c & Hc & Hm & Hx). cbv zeta.
  set (r := (context_of b x) <| core_kicked ::= fun f => <[me := 1]> f |>).
  set (b1 := b <| b_cores ::= fun v => v <| core_contexts ::= <[x := r]> |> |>).
  assert (core_contexts (b_cores b1) x = r) as Hr by (unfold b1; bsimpl; cbn; by rewrite fn_lookup_insert).
  assert (watchdog_core_kick me b =
    (if missing_report 4 0 r (expected_mask r) then mret E_OK else
     for_ 4 0 (fun i => upd_context x (fun r => r <| core_kicked ::= fun f => <[i := 0]> f |>));;
     watchdog_kick;; mret E_OK) b1) as ->.
  { unfold watchdog_core_kick. exec. rewrite Hc. exec. rewrite Hm, Hx.
    etrans; [apply (bind_ret _ _ _ tt b1); reflexivity|]. exec. exec. by rewrite Hr. }
  destruct (missing_report 4 0 r (expected_mask r)) eqn:Hmiss; [done|].
  eexists. split; [reflexivity|]. unfold context_of. cbn -[Z.lor]. rewrite !fn_lookup_insert.
  split_and!; try done. intros i Hi. cbn [core_kicked]. rewrite !fn_insert_lookup. repeat case_decide; done || lia.
Qed.

(** C24: the gate.  In a multicore image a core's report makes the hardware kick
    exactly when, with it, every core of [expected_mask] has reported since the
    last kick; the kick reloads the full timeout and opens a new round, and
    otherwise the report is only noted. *)
Theorem core_kick_gate (me x : Z) (b : board D) : gated b x -> 0 <= me < 4 ->
  let all := forall i, 0 <= i < 4 -> i <> me -> Z.testbit (expected_mask (context_of b x)) i = true ->
               core_kicked (context_of b x) i <> 0 in
  returns (watchdog_core_kick me) b (fun ret k =>
    ret = E_OK /\
    (all -> (forall i, 0 <= i < 4 -> core_kicked (context_of k x) i = 0) /\
            pm_log (b_wdt k) = pm_log (b_wdt b) ++ [(PM_WDOG_OFFSET, Z.lor PM_PASSWORD (s_timeout_ticks (b_wdt b)))]) /\
    (~ all -> core_kicked (context_of k x) = <[me := 1]> (core_kicked (context_of b x)) /\ b_wdt k = b_wdt b)).
Proof.
  intros Hg Hme all. pose proof (core_kick_eq me x b Hg) as Hk. cbv zeta in Hk.
  set (r := (context_of b x) <| core_kicked ::= fun f => <[me := 1]> f |>) in *.
  assert (all <-> missing_report 4 0 r (expected_mask r) = false) as Hall.
  { rewrite missing_report_spec. unfold all, r. cbn. split.
    - intros Ha j Hj Hb. rewrite fn_insert_lookup. case_decide; [done|]. by apply Ha.
    - intros Ha i Hi Hne Hb. specialize (Ha i ltac:(lia) Hb). rewrite fn_insert_lookup in Ha.
      by rewrite decide_False in Ha by done. }
  clearbody all. unfold returns. destruct (missing_report 4 0 r (expected_mask r)).
  - rewrite Hk. split; [done|]. split; [intros [=]%Hall|]. intros _. split; [|done].
    unfold context_of at 1. cbn. by rewrite fn_lookup_insert.
  - destruct Hk as (k & -> & _ & Hz & _ & _ & _ & Hl). split; [done|]. split; [by split|]. intros Hn. destruct Hn. by apply Hall.
Qed.

(** Reports by a sequence of cores. *)
Fixpoint core_kicks (cores : list Z) : Bd D unit :=
  match cores with [] => mret tt | me :: cores' => watchdog_core_kick me;; core_kicks cores' end.

(** A dead core starves the watchdog.  While an expected core that has not
    reported in this round stays silent, no sequence of reports of the other
    cores, however long and in whatever order, touches the watchdog
    registers: the countdown that is running ends in a reset. *)
Theorem dead_core_starves (x dead : Z) (cores : list Z) (b : board D) :
  gated b x -> 0 <= dead < 4 -> Z.testbit (expected_mask (context_of b x)) dead = true ->
  core_kicked (context_of b x) dead = 0 -> dead ∉ cores ->
  returns (core_kicks cores) b (fun _ k => b_wdt k = b_wdt b /\ core_kicked (context_of k x) dead = 0).
Proof.
  revert b. induction cores as [|me cores IH]; intros b Hg Hd Hb Hz Hn; cbn [core_kicks]; [done|].
  apply not_elem_of_cons in Hn as [Hne Hn]. pose proof (core_kick_eq me x b Hg) as Hk. cbv zeta in Hk.
  set (r := (context_of b x) <| core_kicked ::= fun f => <[me := 1]> f |>) in *.
  assert (missing_report 4 0 r (expected_mask r) = true) as Hm.
  { apply not_false_iff_true. rewrite missing_report_spec. intros Ha. apply (Ha dead); [lia|done|].
    unfold r. cbn. by rewrite fn_lookup_insert_ne. }
  rewrite Hm in Hk. set (k := b <| b_cores ::= fun v => v <| core_contexts ::= <[x := r]> |> |>) in *.
  assert (context_of k x = r) as Hr by (unfold context_of, k; cbn; by rewrite fn_lookup_insert).
  apply returns_bind. unfold returns at 1. rewrite Hk. eapply returns_mono; [apply (IH k); [exact Hg|done| | |done]|].
  - by rewrite Hr.
  - rewrite Hr. unfold r. cbn. by rewrite fn_lookup_insert_ne.
  - by intros [] k' [-> ->].
Qed.
End gate.

(** ** Arming *)

Lemma pm_store_password (x old : Z) : 0 <= x < 2 ^ 24 -> pm_store (Z.lor PM_PASSWORD x) old = x.
Proof.
  intros Hx. unfold pm_store. rewrite !Z.land_lor_distr_l.
  assert (Z.land x 0xFF000000 = 0) as -> by (apply (land_shiftl_low x 0xFF 24); lia).
  change (Z.land x 0x00FFFFFF) with (Z.land x (Z.ones 24)). rewrite Z.land_ones, Z.mod_small by lia. reflexivity.
Qed.

Lemma clamped_ticks (t : Z) : 0 < t ->
  Z.land (u32 (Z.min t 15 * PM_WDOG_TICKS_PER_S)) PM_WDOG_COUNT_MASK = Z.min t 15 * 65536.
Proof.
  intros Ht. unfold PM_WDOG_TICKS_PER_S, PM_WDOG_COUNT_MASK. rewrite wrap_small by lia.
  change 0x000FFFFF with (Z.ones 20). rewrite Z.land_ones by lia. apply Z.mod_small. lia.
Qed.

Ltac wsimpl :=
  cbn [pm_rstc pm_wdog pm_rsts pm_log s_timeout_ticks s_config wdt_configs s_watchdog_kick_count field_update].

Section arming.
Context {D : Type} `{BlockLaws D}.

Lemma wdt_meta_write_wdt (b : board D) : exists r k, wdt_meta_write b = Ret r k /\ b_wdt k = b_wdt b.
Proof. rewrite wdt_meta_write_eq. destruct (dev_write _ _ _) as [r d]. by do 2 eexists. Qed.

(** The registers and the configuration when the metadata work starts. *)
Definition armed (c : Z) (w : WdtVars) : WdtVars :=
  let t := Z.min (timeout_s (wdt_configs w c)) 15 in
  w <| wdt_configs ::= fun g => <[c := (g c) <| timeout_s := t |>]> g |> <| s_timeout_ticks := t * 65536 |>
    <| s_config := Some c |> <| pm_wdog := t * 65536 |> <| pm_rstc := PM_RSTC_WRCFG_FULL_RESET |>
    <| pm_log ::= fun l => l ++ [(PM_WDOG_OFFSET, Z.lor PM_PASSWORD (t * 65536))] ++
                               [(PM_RSTC_OFFSET, Z.lor PM_PASSWORD PM_RSTC_WRCFG_FULL_RESET)] |>.

Lemma watchdog_init_eq (c : Z) (b : board D) : 0 < timeout_s (wdt_configs (b_wdt b) c) ->
  exists k, watchdog_init (Some c) b = Ret E_OK k /\ b_wdt k = armed c (b_wdt b).
Proof.
  intros Ht. set (t := timeout_s (wdt_configs (b_wdt b) c)) in *.
  set (d := (dev_init (b_dev b)).2).
  set (b1 := b <| b_wdt := armed c (b_wdt b) |> <| b_dev := d |>).
  enough (exists k, (r ← wdt_meta_read;
      if decide (r = E_OK) then
        cfg ← gets (fun b => wdt_configs (b_wdt b) c);
        upd_meta (fun m => m <| wdt_reset_tolerance := tolerance cfg |>);;
        upd_meta (fun m => m <| wdt_reset_policy := policy cfg |>);;
        wdt_meta_write;;
        mret E_OK
      else mret E_OK) b1 = Ret E_OK k /\ b_wdt k = armed c (b_wdt b)) as (k & Hk & Hw).
  { exists k. split; [|done]. rewrite <- Hk. unfold watchdog_init. exec. fold t.
    rewrite (proj2 (Z.eqb_neq t 0)) by lia.
    set (b2 := b <| b_wdt ::= fun w => w <| wdt_configs ::= fun g => <[c := (g c) <| timeout_s := Z.min t 15 |>]> g |> |>).
    etrans; [apply (bind_ret _ _ _ tt b2)|].
    { unfold when, PM_WDOG_MAX_TIMEOUT. destruct (Z.ltb_spec 15 t); unfold b2.
      - by rewrite Z.min_r by lia.
      - rewrite Z.min_l by lia. unfold t. destruct b as [? ? ? ? ? ? ? ? ? w]. destruct w. cbn.
        rewrite fn_insert_id; [done|]. by destruct (wdt_configs c). }
    exec. assert (timeout_s (wdt_configs (b_wdt b2) c) = Z.min t 15) as ->
      by (unfold b2; cbn; by rewrite fn_lookup_insert).
    rewrite clamped_ticks by done. unfold b2, b1, d, armed. fold t. clearbody t. clear - Ht.
    destruct b as [dv me sb bs bc ao fl sh df w co rx tx ram ct fq te cs hc]. destruct w. bsimpl. wsimpl.
    do 5 (exec; bsimpl; wsimpl). rewrite 2 pm_store_password by (unfold PM_RSTC_WRCFG_FULL_RESET; lia).
    rewrite <- app_assoc. unfold emmc_init, mbind at 1, M_mbind at 1. bsimpl. by destruct (dev_init dv). }
  destruct (wdt_meta_read_eq b1) as (r & d' & buf & Hrd & _). rewrite (bind_ret _ _ _ _ _ Hrd).
  destruct (decide (r = E_OK)); [|by eexists].
  set (b2 := b1 <| b_dev := d' |> <| b_sector_buf := buf |> <| b_meta := _ |>).
  set (b3 := b2 <| b_meta ::= fun m => m <| wdt_reset_tolerance := tolerance (wdt_configs (b_wdt b2) c) |>
                    <| wdt_reset_policy := policy (wdt_configs (b_wdt b2) c) |> |>).
  destruct (wdt_meta_write_wdt b3) as (r2 & k & Hwr & Hw). exists k. split; [|by rewrite Hw].
  etrans; [|exact (bind_ret _ (fun _ => mret E_OK) _ _ _ Hwr)]. reflexivity.
Qed.

(** Arming and disarming.  [watchdog_init] refuses a NULL configuration and
    a zero timeout without touching the hardware.  Otherwise it succeeds with
    the timeout clamped, in the caller's struct, to 15 s; the countdown is that
    many seconds of 65536 ticks and fits its 20 bits, and expiry means a full
    reset.  [watchdog_disable] then leaves the block in a configuration in
    which expiry does nothing. *)
Theorem watchdog_init_correct (config : option Z) (b : board D) :
  match config with
  | Some c =>
      let t := Z.min (timeout_s (wdt_configs (b_wdt b) c)) 15 in
      (t = 0 -> watchdog_init config b = Ret E_INVALID_ARGS b) /\
      (0 < t -> returns (watchdog_init config) b (fun ret k =>
        ret = E_OK /\ s_config (b_wdt k) = Some c /\ timeout_s (wdt_configs (b_wdt k) c) = t /\
        pm_wdog (b_wdt k) = t * 65536 /\ pm_wdog (b_wdt k) < 2 ^ 20 /\
        Z.land (pm_rstc (b_wdt k)) PM_RSTC_WRCFG_MASK = PM_RSTC_WRCFG_FULL_RESET /\
        returns watchdog_disable k (fun _ k' => Z.land (pm_rstc (b_wdt k')) PM_RSTC_WRCFG_MASK = 0)))
  | None => watchdog_init config b = Ret E_INVALID_ARGS b
  end.
Proof.
  destruct config as [c|]; [|done]. cbv zeta. set (t := timeout_s (wdt_configs (b_wdt b) c)) in *. split; intros Hz.
  { unfold watchdog_init. exec. fold t. by rewrite (proj2 (Z.eqb_eq t 0)) by lia. }
  destruct (watchdog_init_eq c b ltac:(fold t; lia)) as (k & Hk & Hw). unfold returns at 1. rewrite Hk, Hw.
  unfold armed. fold t. cbn -[Z.min Z.mul]. rewrite fn_lookup_insert. split_and!; try done; [lia|].
  unfold watchdog_disable. steps. rewrite Hw. reflexivity.
Qed.
End arming.

(** ** Examples *)

Definition demo_meta : WdtMeta := mkWdtMeta 0 7 (-3) 2 0 APP_SLOT_B 1 1 0.
Definition demo_board : board ram_disk := board_start (mkDisk (fun _ => [])) demo_meta (mkBootFlags 0 0 0 0) [].
Definition demo_disk : ram_disk := mkDisk (<[EMMC_SECTOR_METADATA := meta_sector (seal demo_meta)]> (fun _ => [])).
Definition demo_saved : board ram_disk :=
  demo_board <| b_sector_buf := meta_sector (seal demo_meta) |> <| b_meta := seal demo_meta |> <| b_dev := demo_disk |>.
Definition demo_reboot : board ram_disk := board_start demo_disk wdt_meta_initial (mkBootFlags 0 0 0 0) [].

Lemma demo_meta_ok : meta_ok demo_meta.
Proof. vm_compute. repeat split; discriminate. Qed.

Lemma demo_write : wdt_meta_write demo_board = Ret E_OK demo_saved.
Proof. by rewrite wdt_meta_write_eq. Qed.

Lemma wdt_meta_roundtrip_witness :
  returns wdt_meta_read demo_reboot (fun r k' =>
    b_meta k' = if decide (r = E_OK)
                then demo_meta <| wm_magic := WDT_META_MAGIC |> <| wm_crc := wm_crc (b_meta demo_saved) |>
                else wdt_meta_initial).
Proof. exact (wdt_meta_roundtrip demo_board demo_saved demo_reboot demo_meta_ok demo_write eq_refl). Defined.

(** One bit of the active slot's field flipped. *)
Definition torn_reboot : board ram_disk :=
  board_start (mkDisk (fun _ => <[20%nat := 0xBA]> (meta_sector (seal demo_meta)))) wdt_meta_initial (mkBootFlags 0 0 0 0) [].

Lemma torn_contents : contents (b_dev torn_reboot) EMMC_SECTOR_METADATA = <[20%nat := 0xBA]> (meta_sector (seal demo_meta)).
Proof.
  apply pad_sector_id; [by rewrite length_insert|]. destruct (meta_sector_bytes (seal demo_meta)) as [_ Hb].
  by apply Forall_insert.
Qed.

Lemma wdt_meta_torn_write_witness :
  returns wdt_meta_read torn_reboot (fun r k => r = E_OK -> b_meta k = wdt_meta_defaults).
Proof.
  apply (wdt_meta_torn_write demo_meta 20 0xBA); [lia|done| |exact torn_contents]. intros [=].
Defined.

(** Cores 0 and 1 expected, one of them has reported. *)
Definition demo_gate (first : Z) : board ram_disk :=
  demo_board
    <| b_wdt := mkWdtVars 0 0 0 [] 196608 (Some 1) (fun _ => mkWatchdogConfig 3 0 (-1) 0 true (Some 5)) 0 |>
    <| b_cores := mkCoresVars (fun _ => 0) 2 (Some 5)
                    (fun _ => mkCompanionCoreContext 3 (fun i => if i =? first then 1 else 0)) |>.

Lemma demo_gated (first : Z) : gated (demo_gate first) 5.
Proof. by exists 1. Qed.

Lemma core_kick_gate_witness :
  returns (watchdog_core_kick 1) (demo_gate 0) (fun ret k =>
    ret = E_OK /\ pm_log (b_wdt k) = [(PM_WDOG_OFFSET, Z.lor PM_PASSWORD 196608)]).
Proof.
  eapply returns_mono; [apply (core_kick_gate 1 5 (demo_gate 0)); [apply demo_gated|lia]|].
  intros r k (-> & Ha & _). split; [done|]. apply Ha. intros i Hi Hne Hb.
  assert (i = 0 \/ i = 2 \/ i = 3) as [-> | [-> | ->]] by lia; discriminate.
Defined.

Lemma dead_core_starves_witness :
  returns (core_kicks [0; 0; 0]) (demo_gate 0) (fun _ k =>
    b_wdt k = b_wdt (demo_gate 0) /\ core_kicked (context_of k 5) 1 = 0).
Proof.
  apply (dead_core_starves 5 1 [0; 0; 0] (demo_gate 0)); [apply demo_gated|lia|done|done|].
  rewrite !not_elem_of_cons. split_and!; [lia..|apply not_elem_of_nil].
Defined.
