(* ===== verification/Boot.v ===== *)
(** * Validating, loading and entering an image (source/boot/boot/boot.c)

    An image is a header sector, then its bytes from the next sector on.  The
    theorems about what a validation accepts are for a disk whose reads
    succeed: boot.c does not look at the status of its reads. *)

From Stdlib Require String.
From S2P Require Import Prelude Types Crc Telemetry Board.

(** dfu_receive.h *)
Record StartPacket := mkStartPacket { version_num : Z; fw_length : Z; sp_crc : Z }.
Definition start_packet_of (buf : list Z) : StartPacket :=
  mkStartPacket (word_at buf 0) (word_at buf 4) (word_at buf 8).

Module Messages.
Import String.
Definition validate : string := "boot_validate_app CRC | Expected: 0x%08X | Actual: 0x%08X\r\n".
Definition loading : string := "Loading app".
Definition details : string := "App details: version: %u length: %uB\r\n".
Definition loaded : string := "boot: loaded %u sectors (%uB) in %u us (%u KB/s)\r\n".
Definition jumping : string := "boot: jumping to app\r\n".
End Messages.

Section boot.
Context {D : Type} `{BlockDevice D}.

Definition boot_init : Bd D StatusCode :=
  modify (fun b => b <| b_boot_counter := 0 |> <| b_app_ram_offset := 0 |>);; mret E_OK.

(** [emmc_read_blocks(sector, current_sector, 1U)], its status dropped. *)
Definition fill_sector (sector : Z) : Bd D unit :=
  rd ← emmc_read sector 1;
  modify (fun b => b <| b_boot_sector ::= overlay rd.2 |>).

(** The [while (remaining > 0)] loop. *)
Fixpoint validate_loop (fuel : nat) (sector remaining : Z) (ctx : CRC32) : Bd D CRC32 :=
  if remaining =? 0 then mret ctx else
  match fuel with
  | O => stop NoFuel
  | S fuel' =>
      fill_sector sector;;
      let chunk := if remaining <? SECTOR_SIZE then remaining else SECTOR_SIZE in
      buf ← gets b_boot_sector;
      validate_loop fuel' (u32 (sector + 1)) (remaining - chunk) (crc32_update ctx (take (Z.to_nat chunk) buf))
  end.

(** One turn per sector. *)
Definition validate_fuel (len : Z) : nat := S (Z.to_nat (len / SECTOR_SIZE)).

Definition boot_validate_app (app_sector : Z) : Bd D StatusCode :=
  fill_sector app_sector;;
  pkt ← gets (fun b => start_packet_of (b_boot_sector b));
  if negb (version_num pkt =? 1) || (fw_length pkt =? 0) then
    btel (Telemetry.Boot.telemetry_report_boot_info_image_header BOOT_STAGE_BOOTLOADER (version_num pkt)
            (fw_length pkt) (sp_crc pkt) 0 0);;
    mret E_CORRUPTED
  else
    ctx ← validate_loop (validate_fuel (fw_length pkt)) (u32 (app_sector + 1)) (fw_length pkt) crc32_start;
    let actual_crc := crc32_finish ctx in
    say Messages.validate [sp_crc pkt; actual_crc];;
    btel (Telemetry.Boot.telemetry_report_boot_info_image_header BOOT_STAGE_BOOTLOADER (version_num pkt)
            (fw_length pkt) (sp_crc pkt) actual_crc (if actual_crc =? sp_crc pkt then 1 else 0));;
    mret (if actual_crc =? sp_crc pkt then E_OK else E_CORRUPTED).

Definition boot_load_app (app_sector : Z) : Bd D StatusCode :=
  say Messages.loading [];;
  fill_sector app_sector;;
  pkt ← gets (fun b => start_packet_of (b_boot_sector b));
  say Messages.details [version_num pkt; fw_length pkt];;
  let sectors := BYTES_TO_SECTORS (fw_length pkt) in
  frq ← gets b_frq;
  t_start ← read_counter;
  rd ← emmc_read (u32 (app_sector + 1)) sectors;
  ram_copy APP_START_ADDR rd.2;;
  t_end ← read_counter;
  let bytes := u64 (sectors * SECTOR_SIZE) in
  let us := if frq =? 0 then 0 else u32 (u64 ((t_end - t_start) * 1000000) / frq) in
  let kbps := if us =? 0 then 0 else u32 (u64 (bytes * 1000000) / (us * 1024)) in
  say Messages.loaded [sectors; u32 bytes; us; kbps];;
  btel (Telemetry.Boot.telemetry_report_boot_milestone BOOT_MS_APP_LOAD_DONE BOOT_STAGE_BOOTLOADER 0);;
  mret E_OK.

Definition boot_jump_to_app {A} : Bd D A :=
  say Messages.jumping [];;
  btel (Telemetry.Boot.telemetry_report_boot_milestone BOOT_MS_JUMPING_TO_APP BOOT_STAGE_BOOTLOADER 0);;
  hw HwUartDrain;;
  hw HwIrqOff;;
  hw HwBarrier;;
  stop (Jump APP_START_ADDR).
End boot.

(** ** Images *)

(** The firmware of an image: [len] bytes from the sector after the header. *)
Definition firmware (c : Z -> list Z) (app_sector len : Z) : list Z :=
  take (Z.to_nat len) (sectors_of c (app_sector + 1) (validate_fuel len)).
Definition header (c : Z -> list Z) (app_sector : Z) : StartPacket := start_packet_of (c app_sector).

Definition image_valid (c : Z -> list Z) (app_sector : Z) : Prop :=
  let h := header c app_sector in
  version_num h = 1 /\ fw_length h <> 0 /\ crc32_of (firmware c app_sector (fw_length h)) = sp_crc h.

(** ** What a validation looks at and leaves alone *)

Definition sector_ok (buf : list Z) : Prop := length buf = 512%nat /\ Forall is_byte buf.

Lemma overlay_ok (bytes buf : list Z) : (length bytes <= 512)%nat -> Forall is_byte bytes -> sector_ok buf ->
  sector_ok (overlay bytes buf).
Proof.
  intros Hle Hb [Hl Hf]. unfold overlay. split; [rewrite length_app, length_drop; lia|].
  apply Forall_app. split; [done|]. by apply Forall_drop.
Qed.

Lemma byte_at_range (buf : list Z) (i : Z) : Forall is_byte buf -> is_byte (byte_at buf i).
Proof.
  intros Hb. unfold byte_at. destruct (buf !! Z.to_nat i) eqn:Hi; [|done]. exact (Forall_lookup_1 _ _ _ _ Hb Hi).
Qed.

Lemma word_at_range (buf : list Z) (i : Z) : Forall is_byte buf -> 0 <= word_at buf i < 2 ^ 32.
Proof. intros Hb. apply of_le32_range; by apply byte_at_range. Qed.

Record boot_frame {D} `{BlockLaws D} (b k : board D) : Prop := {
  bf_contents : forall s, contents (b_dev k) s = contents (b_dev b) s;
  bf_meta : b_meta k = b_meta b;
  bf_flags : b_flags k = b_flags b;
  bf_dfu : b_dfu k = b_dfu b;
  bf_wdt : b_wdt k = b_wdt b;
  bf_rx : b_rx k = b_rx b;
  bf_tx : b_tx k = b_tx b;
  bf_ram : b_ram k = b_ram b;
  bf_hw : b_hw k = b_hw b;
  bf_buf : sector_ok (b_boot_sector b) -> sector_ok (b_boot_sector k)
}.

Section boot_spec.
Context {D : Type} `{BlockLaws D}.

#[export] Instance boot_frame_preorder : PreOrder boot_frame.
Proof.
  split; [by constructor|]. intros b1 b2 b3 [] []. constructor; try congruence; auto.
Qed.

Lemma fill_sector_frame (s : Z) (b : board D) : returns (fill_sector s) b (fun _ k => boot_frame b k).
Proof.
  unfold returns, fill_sector, mbind, M_mbind, emmc_read, modify.
  pose proof (read_contents s 1 (b_dev b)) as Hc. destruct (dev_read s 1 (b_dev b)) as [[r bytes] d] eqn:Hrd.
  bsimpl. constructor; try done. bsimpl. destruct (read_bytes _ _ _ _ _ _ Hrd) as [Hle Hb]. by apply overlay_ok.
Qed.

Lemma validate_loop_frame (fuel : nat) : forall (sector remaining : Z) (ctx : CRC32) (b : board D),
  0 <= remaining -> (Z.to_nat (remaining / 512) < fuel)%nat ->
  returns (validate_loop fuel sector remaining ctx) b (fun _ k => boot_frame b k).
Proof.
  induction fuel as [|fuel IH]; intros sector remaining ctx b Hr Hf; cbn [validate_loop];
    destruct (Z.eqb_spec remaining 0); [by apply returns_ret|lia|by apply returns_ret|].
  step. call fill_sector_frame. intros [] k Hk. steps. unfold SECTOR_SIZE.
  destruct (Z.ltb_spec remaining 512).
  - rewrite Z.sub_diag. destruct fuel; by apply returns_ret.
  - eapply returns_mono; [apply IH; [lia|]|].
    + pose proof (Z.div_le_lower_bound remaining 512 1 ltac:(lia) ltac:(lia)). replace (remaining - 512) with (remaining + (-1) * 512) by lia. rewrite Z.div_add by lia. lia.
    + intros c' k' Hk'. by transitivity k.
Qed.

Lemma validate_fuel_enough (len : Z) : 0 <= len -> (Z.to_nat (len / 512) < validate_fuel len)%nat.
Proof. intros. unfold validate_fuel, SECTOR_SIZE. lia. Qed.

Lemma btel_frame (f : telemetry -> telemetry) (b : board D) : boot_frame b (b <| b_tel ::= f |>).
Proof. by constructor. Qed.
Lemma say_frame fmt (args : list Z) (b : board D) : boot_frame b (b <| b_console ::= fun c => c ++ [(fmt, args)] |>).
Proof. by constructor. Qed.

(** Whatever the device does, a validation comes back, and changes nothing of
    the machine but its own sector buffer and what it reports. *)
Lemma boot_validate_frame (s : Z) (b : board D) : sector_ok (b_boot_sector b) ->
  returns (boot_validate_app s) b (fun r k => boot_frame b k /\ (r = E_OK \/ r = E_CORRUPTED)).
Proof.
  intros Hok. unfold boot_validate_app. step. call fill_sector_frame. intros [] k Hk. step. step.
  destruct (bf_buf _ _ Hk Hok) as [_ Hb].
  set (pkt := start_packet_of (b_boot_sector k)). destruct (negb (version_num pkt =? 1) || (fw_length pkt =? 0)).
  - unfold btel. steps. split; [|by right]. etrans; [exact Hk|]. apply btel_frame.
  - assert (0 <= fw_length pkt) as Hlen by (apply word_at_range, Hb).
    step. call validate_loop_frame; [exact Hlen|by apply validate_fuel_enough|]. intros c k' Hk'.
    unfold say, btel. steps. split; [|by destruct (_ =? _); [left|right]].
    etrans; [exact Hk|]. etrans; [exact Hk'|]. etrans; [apply say_frame|apply btel_frame].
Qed.

(** What a load leaves alone. *)
Definition load_frame (b k : board D) : Prop :=
  (forall s, contents (b_dev k) s = contents (b_dev b) s) /\ b_meta k = b_meta b /\ b_flags k = b_flags b /\
  b_dfu k = b_dfu b /\ b_wdt k = b_wdt b /\ b_rx k = b_rx b /\ b_tx k = b_tx b /\
  sector_ok (b_boot_sector k).

Lemma returns_counter (b : board D) Q : (forall t l, Q t (b <| b_counter := l |>)) -> returns read_counter b Q.
Proof.
  intros HQ. unfold returns, read_counter. destruct (b_counter b) as [|t l] eqn:Hb; [|apply HQ].
  specialize (HQ 0 []). rewrite <- Hb in HQ. by destruct b.
Qed.

(** A load comes back on any device, and always with E_OK. *)
Lemma boot_load_frame (s : Z) (b : board D) : sector_ok (b_boot_sector b) ->
  returns (boot_load_app s) b (fun r k => r = E_OK /\ load_frame b k).
Proof.
  intros Hok. unfold boot_load_app, say, btel, ram_copy. do 3 step.
  eapply returns_mono; [apply fill_sector_frame|]. intros [] k Hk.
  assert (load_frame b k) as Hf.
  { destruct Hk. by split_and!; auto. }
  clear Hk. destruct Hf as (Hc & Hf). clear Hok. steps. apply returns_counter. intros t1 l1. bsimpl. step.
  unfold returns at 1, emmc_read. bsimpl.
  pose proof (fun s' => read_contents (u32 (s + 1)) (BYTES_TO_SECTORS (fw_length (start_packet_of (b_boot_sector k)))) (b_dev k) s') as Hrd.
  destruct (dev_read _ _ (b_dev k)) as [[r bytes] d]. bsimpl. steps. apply returns_counter. intros t2 l2. bsimpl. steps. bsimpl.
  split; [done|]. split; [|exact Hf]. bsimpl. intros s'. by rewrite Hrd, Hc.
Qed.

(** ** What it accepts, on a disk whose reads succeed *)

Definition reads_succeed : Prop := forall s n (d : D), 0 <= n < 65536 -> exists bytes d', dev_read s n d = (E_OK, bytes, d').
Context (Hreads : reads_succeed).

Lemma fill_sector_ok (s : Z) (b : board D) : length (b_boot_sector b) = 512%nat ->
  exists d, fill_sector s b = Ret tt (b <| b_dev := d |> <| b_boot_sector := contents (b_dev b) s |>) /\
    forall s', contents d s' = contents (b_dev b) s'.
Proof.
  intros Hl. destruct (Hreads s 1 (b_dev b) ltac:(lia)) as (bytes & d & Hrd). exists d.
  pose proof (read_ok _ 1 _ _ _ ltac:(lia) Hrd) as Hb. change (Z.to_nat 1) with 1%nat in Hb. cbn [sectors_of] in Hb.
  rewrite app_nil_r in Hb. split.
  - unfold fill_sector, mbind, M_mbind, emmc_read, modify. rewrite Hrd. bsimpl. unfold overlay.
    rewrite Hb at 2. destruct (contents_bytes (b_dev b) s) as [-> _]. rewrite drop_ge by lia.
    by rewrite app_nil_r, Hb.
  - intros s'. pose proof (read_contents s 1 (b_dev b) s') as Hc. by rewrite Hrd in Hc.
Qed.

Lemma validate_loop_ok (c : Z -> list Z) (fuel : nat) : forall (sector remaining : Z) (ctx : CRC32) (b : board D),
  (forall s, contents (b_dev b) s = c s) -> length (b_boot_sector b) = 512%nat ->
  0 <= remaining -> (Z.to_nat (remaining / 512) < fuel)%nat -> 0 <= sector -> sector + remaining / 512 + 1 < 2 ^ 32 ->
  returns (validate_loop fuel sector remaining ctx) b (fun ctx' _ =>
    ctx' = crc32_update ctx (take (Z.to_nat remaining) (sectors_of c sector fuel))).
Proof.
  induction fuel as [|fuel IH]; intros sector remaining ctx b Hc Hl Hr Hf Hs Hw; cbn [validate_loop]; [lia|].
  destruct (Z.eqb_spec remaining 0) as [->|Hne].
  { apply returns_ret. cbn [Z.to_nat take]. by destruct ctx. }
  assert (forall s, length (c s) = 512%nat /\ Forall is_byte (c s)) as Hcb
    by (intros s; rewrite <- Hc; apply contents_bytes).
  destruct (Hcb sector) as [Hcl Hcf].
  step. destruct (fill_sector_ok sector b Hl) as (d & Hfill & Hd). unfold returns at 1. rewrite Hfill. steps. bsimpl.
  rewrite Hc. cbn [sectors_of]. unfold SECTOR_SIZE. destruct (Z.ltb_spec remaining 512).
  - rewrite Z.sub_diag. rewrite take_app_le by lia. by destruct fuel; apply returns_ret.
  - pose proof (Z.div_le_lower_bound remaining 512 1 ltac:(lia) ltac:(lia)).
    assert ((remaining - 512) / 512 = remaining / 512 - 1) as Hdiv.
    { replace (remaining - 512) with (remaining + (-1) * 512) by lia. rewrite Z.div_add by lia. lia. }
    rewrite wrap_small by lia.
    eapply returns_mono; [apply IH; [intros s; bsimpl; by rewrite Hd, Hc|by bsimpl|lia|rewrite Hdiv; lia|lia|rewrite Hdiv; lia]|].
    intros ctx' k ->. change (Z.to_nat 512) with 512%nat. rewrite (take_ge (c sector)) by lia.
    rewrite crc32_update_app; [|done|by apply Forall_take, sectors_bytes; intros s; apply Hcb].
    f_equal. rewrite take_app_ge by lia. f_equal. f_equal. lia.
Qed.

Lemma boot_validate_exact (s : Z) (b : board D) :
  sector_ok (b_boot_sector b) -> 0 <= s < 2 ^ 31 ->
  returns (boot_validate_app s) b (fun r k =>
    (r = E_OK <-> image_valid (contents (b_dev b)) s) /\ (r = E_OK \/ r = E_CORRUPTED) /\ boot_frame b k).
Proof.
  intros Hok Hs. pose proof (boot_validate_frame s b Hok) as Hfr.
  enough (returns (boot_validate_app s) b (fun r _ => r = E_OK <-> image_valid (contents (b_dev b)) s)) as Hex.
  { unfold returns in *. destruct (boot_validate_app s b); [tauto|done]. }
  clear Hfr. destruct Hok as [Hl Hf]. set (c := contents (b_dev b)).
  destruct (fill_sector_ok s b Hl) as (d & Hfill & Hd). destruct (contents_bytes (b_dev b) s) as [Hcl Hcb].
  unfold boot_validate_app. step. unfold returns at 1. rewrite Hfill. step. step. bsimpl. fold c.
  unfold image_valid. fold (header c s). cbv zeta. set (h := header c s).
  assert (0 <= fw_length h < 2 ^ 32) as Hlen by apply (word_at_range (c s) 4 Hcb).
  destruct (Z.eqb_spec (version_num h) 1) as [Hv|Hv]; [|cbn [negb orb]; unfold btel; steps; split; [done|tauto]].
  destruct (Z.eqb_spec (fw_length h) 0) as [Hz|Hz]; [unfold btel; cbn [negb orb]; steps; split; [done|tauto]|].
  cbn [negb orb]. assert (fw_length h / 512 <= 2 ^ 23) by (apply Z.div_le_upper_bound; lia).
  rewrite wrap_small by lia. step.
  call (validate_loop_ok c); [intros s'; bsimpl; by rewrite Hd|done|lia|by apply validate_fuel_enough; lia|lia|lia|].
  intros ctx k ->. unfold say, btel. steps.
  change (crc32_finish _) with (crc32_of (firmware c s (fw_length h))).
  destruct (Z.eqb_spec (crc32_of (firmware c s (fw_length h))) (sp_crc h)); split; done || tauto.
Qed.

Lemma sectors_more (c : Z -> list Z) (n m : nat) : forall s, (n <= m)%nat ->
  exists rest, sectors_of c s m = sectors_of c s n ++ rest.
Proof.
  revert m. induction n as [|n IH]; intros m s Hle; cbn [sectors_of]; [by exists (sectors_of c s m)|].
  destruct m as [|m]; [lia|]. cbn [sectors_of]. destruct (IH m (s + 1) ltac:(lia)) as [rest ->].
  exists rest. by rewrite app_assoc.
Qed.

Lemma sectors_ext (c c' : Z -> list Z) (n : nat) : forall s, (forall x, s <= x -> c' x = c x) ->
  sectors_of c' s n = sectors_of c s n.
Proof.
  induction n as [|n IH]; intros s He; cbn [sectors_of]; [done|]. rewrite He, IH; [done| |lia].
  intros x Hx. apply He. lia.
Qed.

(** An image is the sectors from its header on. *)
Lemma image_valid_ext (c c' : Z -> list Z) (s : Z) : (forall x, s <= x -> c' x = c x) ->
  image_valid c s -> image_valid c' s.
Proof.
  intros He. unfold image_valid, header, firmware. rewrite (He s) by lia. rewrite (sectors_ext c c'); [done|].
  intros x Hx. apply He. lia.
Qed.

(** A longer run of sectors starts with the same bytes. *)
Lemma sectors_prefix (c : Z -> list Z) (s : Z) (n m k : nat) :
  (forall s, length (c s) = 512%nat) -> (k <= 512 * n)%nat -> (k <= 512 * m)%nat ->
  take k (sectors_of c s n) = take k (sectors_of c s m).
Proof.
  intros Hc Hn Hm. destruct (decide (n <= m)%nat) as [Hle|Hle].
  - destruct (sectors_more c n m s Hle) as [rest ->]. by rewrite take_app_le by (rewrite length_sectors by done; lia).
  - destruct (sectors_more c m n s ltac:(lia)) as [rest ->]. by rewrite take_app_le by (rewrite length_sectors by done; lia).
Qed.

(** The RAM from [addr] on holds [bytes]. *)
Definition ram_holds (ram : Z -> Z) (addr : Z) (bytes : list Z) : Prop :=
  forall i, 0 <= i < Z.of_nat (length bytes) -> ram (addr + i) = byte_at bytes i.

(** A validation is exact.  On a disk whose reads succeed,
    [boot_validate_app] returns E_OK if and only if the header sector says
    version 1 and a non-zero length and carries the CRC of that many bytes of
    the following sectors; it returns E_CORRUPTED otherwise, and in both cases
    the disk, the metadata, the boot flags and the DFU state are as before. *)
Theorem boot_validate_app_correct (s : Z) (b : board D) :
  sector_ok (b_boot_sector b) -> 0 <= s < 2 ^ 31 ->
  returns (boot_validate_app s) b (fun r k =>
    (r = E_OK <-> image_valid (contents (b_dev b)) s) /\ (r = E_OK \/ r = E_CORRUPTED) /\ boot_frame b k).
Proof. apply boot_validate_exact. Qed.

Lemma byte_at_take (l : list Z) (k : nat) (i : Z) : 0 <= i < Z.of_nat k -> byte_at (take k l) i = byte_at l i.
Proof. intros Hi. unfold byte_at. by rewrite lookup_take_lt by lia. Qed.

Lemma length_firmware (c : Z -> list Z) (s len : Z) : (forall s, length (c s) = 512%nat) -> 0 <= len ->
  length (firmware c s len) = Z.to_nat len.
Proof.
  intros Hc Hl. unfold firmware. rewrite length_take, length_sectors by done.
  unfold validate_fuel, SECTOR_SIZE. pose proof (Z.div_mod len 512 ltac:(lia)).
  pose proof (Z.mod_pos_bound len 512 ltac:(lia)). lia.
Qed.

Lemma ram_holds_load (addr : Z) (c : Z -> list Z) (s len : Z) (c' : Z -> list Z) (ram : Z -> Z) :
  (forall s, length (c s) = 512%nat) -> (forall s, c' s = c s) -> 0 <= len <= 512 * 65535 ->
  let bytes := sectors_of c' (s + 1) (Z.to_nat (BYTES_TO_SECTORS len)) in
  ram_holds (fun a => if (addr <=? a) && (a <? addr + Z.of_nat (length bytes))
                      then byte_at bytes (a - addr) else ram a) addr (firmware c s len).
Proof.
  intros Hc He Hl. assert (c' = c) as -> by (by apply functional_extensionality).
  assert (BYTES_TO_SECTORS len = (len + 512 - 1) / 512) as ->
    by (unfold BYTES_TO_SECTORS, SECTOR_SIZE; by rewrite wrap_small by lia).
  intros bytes.
  set (n := Z.to_nat ((len + 512 - 1) / 512)) in *.
  assert (Z.to_nat len <= 512 * n)%nat as Hn.
  { unfold n. pose proof (Z.div_mod (len + 512 - 1) 512 ltac:(lia)). pose proof (Z.mod_pos_bound (len + 512 - 1) 512 ltac:(lia)).
    pose proof (Z.div_pos (len + 512 - 1) 512 ltac:(lia) ltac:(lia)). lia. }
  assert (firmware c s len = take (Z.to_nat len) bytes) as Hf.
  { unfold firmware. apply sectors_prefix; [done| |done]. rewrite <- (length_firmware c s len Hc ltac:(lia)).
    unfold firmware. rewrite length_take, length_sectors by done. lia. }
  intros i Hi. rewrite length_firmware in Hi by (done || lia).
  assert (length bytes = (512 * n)%nat) as Hb by (apply length_sectors; done).
  rewrite (proj2 (Z.leb_le _ _)), (proj2 (Z.ltb_lt _ _)) by lia. cbn [andb].
  rewrite Hf, byte_at_take by lia. f_equal. lia.
Qed.

Lemma returns_emmc_read (s n : Z) (b : board D) Q : 0 <= n < 65536 ->
  (forall d, (forall s', contents d s' = contents (b_dev b) s') ->
     Q (E_OK, sectors_of (contents (b_dev b)) s (Z.to_nat n)) (b <| b_dev := d |>)) ->
  returns (emmc_read s n) b Q.
Proof.
  intros Hn HQ. unfold returns, emmc_read. destruct (Hreads s n (b_dev b) Hn) as (bytes & d & Hrd). rewrite Hrd.
  rewrite (read_ok _ _ _ _ _ Hn Hrd). apply HQ. intros s'. pose proof (read_contents s n (b_dev b) s') as Hc. by rewrite Hrd in Hc.
Qed.

Lemma returns_fill (s : Z) (b : board D) Q : length (b_boot_sector b) = 512%nat ->
  (forall d, (forall s', contents d s' = contents (b_dev b) s') ->
     Q tt (b <| b_dev := d |> <| b_boot_sector := contents (b_dev b) s |>)) ->
  returns (fill_sector s) b Q.
Proof. intros Hl HQ. destruct (fill_sector_ok s b Hl) as (d & Hf & Hd). unfold returns. rewrite Hf. by apply HQ. Qed.

(** A load is faithful.  For an image of fewer than 65536 sectors,
    [boot_load_app] puts the firmware the header of the slot announces at
    APP_START_ADDR, every byte in its place. *)
Theorem boot_load_app_loads (s : Z) (b : board D) :
  sector_ok (b_boot_sector b) -> 0 <= s < 2 ^ 31 -> fw_length (header (contents (b_dev b)) s) <= 512 * 65535 ->
  returns (boot_load_app s) b (fun r k =>
    r = E_OK /\
    ram_holds (b_ram k) APP_START_ADDR
      (firmware (contents (b_dev b)) s (fw_length (header (contents (b_dev b)) s))) /\
    load_frame b k).
Proof.
  set (c := contents (b_dev b)). intros Hok Hs Hlen. destruct (contents_bytes (b_dev b) s) as [Hcl Hcb].
  assert (0 <= fw_length (header c s) < 2 ^ 32) as Hl by apply (word_at_range (c s) 4 Hcb).
  unfold boot_load_app, say, btel, ram_copy. step. step. step. apply returns_fill; [apply Hok|]. intros d Hd. bsimpl.
  fold c in Hd |- *. do 4 step. fold (header c s). set (h := header c s) in *. bsimpl. do 2 step. bsimpl. step.
  apply returns_counter. intros t1 l1. bsimpl. step.
  apply returns_emmc_read; [change (start_packet_of (c s)) with h; unfold BYTES_TO_SECTORS, SECTOR_SIZE; rewrite wrap_small by lia; split; [apply Z.div_pos|apply Z.div_lt_upper_bound]; lia|].
  intros d2 Hd2. bsimpl. steps.
  apply returns_counter. intros t2 l2. bsimpl. steps. bsimpl.
  split; [done|]. split; [|by split_and!; try done; intros s'; rewrite Hd2, Hd].
  change (start_packet_of (c s)) with h. rewrite wrap_small by lia.
  assert (forall s', length (c s') = 512%nat) as Hc by (intros s'; apply contents_bytes).
  apply (ram_holds_load APP_START_ADDR c s (fw_length h) (contents d)); [done|done|lia].
Qed.

End boot_spec.

(** Both at once, for clients that do not know how the device behaves. *)
Lemma boot_validate_spec {D} `{BlockLaws D} (s : Z) (b : board D) : sector_ok (b_boot_sector b) -> 0 <= s < 2 ^ 31 ->
  returns (boot_validate_app s) b (fun r k => boot_frame b k /\ (r = E_OK \/ r = E_CORRUPTED) /\
    (reads_succeed (D := D) -> r = E_OK <-> image_valid (contents (b_dev b)) s)).
Proof.
  intros Hok Hs. pose proof (boot_validate_frame s b Hok) as Hfr.
  assert (reads_succeed (D := D) -> returns (boot_validate_app s) b (fun r _ =>
    r = E_OK <-> image_valid (contents (b_dev b)) s)) as Hex.
  { intros Hrd. eapply returns_mono; [by apply (boot_validate_exact Hrd)|]. by intros r k [Hiff _]. }
  unfold returns in *. destruct (boot_validate_app s b); [|done]. destruct Hfr. by split_and!.
Qed.

(** ** Example: a four-byte image in slot A *)

Lemma ram_reads s n (d : ram_disk) : 0 <= n < 65536 -> exists bytes d', dev_read s n d = (E_OK, bytes, d').
Proof. intros _. by do 2 eexists. Qed.

Definition demo_fw : list Z := [0xDE; 0xAD; 0xBE; 0xEF].
Definition demo_header : list Z := le32 1 ++ le32 4 ++ le32 (crc32_of demo_fw).
Definition image_disk (s : Z) : ram_disk := mkDisk (<[s := demo_header]> (<[s + 1 := demo_fw]> (fun _ => []))).
Definition image_board : board ram_disk :=
  board_start (image_disk EMMC_SECTOR_APP_A) (mkWdtMeta 0 0 0 0 0 0 0 0 0) (mkBootFlags 0 0 0 0) [].

Lemma zero_sector_ok : sector_ok (replicate 512 0).
Proof. split; [done|]. by apply Forall_replicate. Qed.

Lemma image_board_valid : image_valid (contents (b_dev image_board)) EMMC_SECTOR_APP_A.
Proof. vm_compute. split_and!; [done|discriminate|done]. Qed.

Lemma slot_a_range : 0 <= EMMC_SECTOR_APP_A < 2 ^ 31.
Proof. by vm_compute. Qed.

Lemma demo_short : fw_length (header (contents (b_dev image_board)) EMMC_SECTOR_APP_A) <= 512 * 65535.
Proof. by vm_compute. Qed.

Lemma boot_validate_app_correct_witness :
  returns (boot_validate_app EMMC_SECTOR_APP_A) image_board (fun r k => r = E_OK /\ b_meta k = b_meta image_board).
Proof.
  eapply returns_mono; [exact (boot_validate_app_correct ram_reads EMMC_SECTOR_APP_A image_board zero_sector_ok slot_a_range)|].
  intros r k (Hr & _ & Hf). split; [apply Hr, image_board_valid|apply (bf_meta _ _ Hf)].
Defined.

Lemma boot_load_app_loads_witness :
  returns (boot_load_app EMMC_SECTOR_APP_A) image_board (fun r k => b_ram k (APP_START_ADDR + 2) = 0xBE).
Proof.
  pose proof (boot_load_app_loads ram_reads EMMC_SECTOR_APP_A image_board zero_sector_ok slot_a_range demo_short) as H.
  eapply returns_mono; [exact H|].
  intros r k (_ & Hram & _). rewrite (Hram 2); vm_compute; done.
Defined.
