(* ===== verification/Dfu.v ===== *)
(** * Receiving a firmware image (source/boot/dfu_receive/dfu_receive.c)

    The packet parser, the session state machine over the inactive slot, and
    the commit.  Received data are the events of [b_rx]; each loop's fuel is
    their number, which is enough because every turn consumes one.  A local
    the C code reads before it is assigned is [None], and reading it [Unset]; a
    store past the end of the packet's DATA is [Overrun], one outside the
    sector buffer [Fault]. *)

From Stdlib Require String.
From S2P Require Import Prelude Types Crc Telemetry Board Companion Watchdog Boot.

Definition MAX_DATA_SIZE_BYTES : Z := 256.
Definition DFU_ACK : Z := 0x06.
Definition DFU_NACK : Z := 0x15.
Definition PACKET_SOF : Z := 0xAA.
Definition DFU_APP_MAGIC : Z := 0x44465521.
Definition DFU_APP_MARKER_OFFSET : Z := 0x20.

(** [Commands] *)
Definition CMD_REQ : Z := 1.
Definition CMD_START : Z := 2.
Definition CMD_START_SELF_UPDATE : Z := 3.
Definition CMD_DATA : Z := 4.
Definition CMD_FINISH : Z := 5.
Definition CMD_ABORT : Z := 6.
Definition CMD_GET_STATUS : Z := 7.
Definition CMD_RECOVER : Z := 8.
Definition NUM_CMDS : Z := 9.

Inductive PacketState :=
  | PACKET_STATE_START | PACKET_STATE_CMD | PACKET_STATE_LENGTH | PACKET_STATE_PAYLOAD
  | PACKET_STATE_CRC | PACKET_STATE_END | PACKET_STATE_SUCCESS | PACKET_STATE_ERROR.

Inductive DfuState := DFU_STATE_START | DFU_STATE_RECIEVE_DATA | DFU_STATE_DONE | DFU_STATE_ABORT.
#[export] Instance DfuState_eq_dec : EqDecision DfuState.
Proof. solve_decision. Defined.

(** [DATA] is the bytes stored so far. *)
Record DFU_Packet := mkPacket { CMD : Z; LEN : Z; DATA : list Z; PCRC : Z }.
#[export] Instance eta_DFU_Packet : Settable DFU_Packet :=
  fun r => mkPacket (CMD r) (LEN r) (DATA r) (PCRC r).

(** The locals of [dfu_receive]. *)
Record session := mkSession {
  ss_state : DfuState;
  img_expected_crc : option Z;
  img_length : Z;
  bytes_hashed : Z;
  crc_ctx : option CRC32
}.
#[export] Instance eta_session : Settable session :=
  fun r => mkSession (ss_state r) (img_expected_crc r) (img_length r) (bytes_hashed r) (crc_ctx r).

Module Messages.
Import String.
Definition timed_out : string := "DFU: session timed out\r\n".
Definition crcs : string := "DFU CRC | Expected: 0x%08X | Actual: 0x%08X\r\n".
Definition self_done : string := "DFU: bootloader update complete, resetting\r\n".
Definition readback : string := "DFU: new slot failed read-back validation, not committing\r\n".
Definition no_marker : string := "DFU: image missing DFU-support marker, refusing to commit\r\n".
Definition committed : string := "DFU: slot %s written & validated, now active (trial)\r\n".
End Messages.

Section dfu.
Context {D : Type} `{BlockDevice D}.

(** ** The packet parser *)

(** The [while (remaining < packet->LEN)] loop, [n] turns from its end. *)
Fixpoint payload_loop (n : nat) (data : list Z) : Bd D (option (list Z)) :=
  match n with
  | O => mret (Some data)
  | S n' =>
      r ← uart_rx_timed;
      match r with
      | None => mret None
      | Some v => if Z.of_nat (length data) <? MAX_DATA_SIZE_BYTES then payload_loop n' (data ++ [v]) else stop Overrun
      end
  end.

Fixpoint dfu_packet_loop (fuel : nat) (state : PacketState) (p : DFU_Packet) : Bd D (StatusCode * DFU_Packet) :=
  match state with
  | PACKET_STATE_SUCCESS => mret (E_OK, p)
  | _ =>
      match fuel with
      | O => stop NoFuel
      | S fuel' =>
          byte ← uart_rx;
          match state with
          | PACKET_STATE_START =>
              dfu_packet_loop fuel' (if byte =? 0xAA then PACKET_STATE_CMD else PACKET_STATE_START) p
          | PACKET_STATE_CMD =>
              if (CMD_REQ <=? byte) && (byte <? NUM_CMDS)
              then dfu_packet_loop fuel' PACKET_STATE_LENGTH (p <| CMD := byte |>)
              else dfu_packet_loop fuel' PACKET_STATE_ERROR p
          | PACKET_STATE_LENGTH =>
              lsb ← uart_rx_timed;
              match lsb with
              | None => mret (E_TIMED_OUT, p)
              | Some byte_lsb =>
                  dfu_packet_loop fuel' PACKET_STATE_PAYLOAD
                    (p <| LEN := u16 (Z.lor (u16 (Z.shiftl byte 8)) byte_lsb) |>)
              end
          | PACKET_STATE_PAYLOAD =>
              data ← payload_loop (Z.to_nat (LEN p - 1)) [byte];
              match data with
              | None => mret (E_TIMED_OUT, p)
              | Some d => dfu_packet_loop fuel' PACKET_STATE_CRC (p <| DATA := d |>)
              end
          | PACKET_STATE_CRC =>
              b2 ← uart_rx_timed;
              match b2 with None => mret (E_TIMED_OUT, p) | Some crc_b2 =>
              b3 ← uart_rx_timed;
              match b3 with None => mret (E_TIMED_OUT, p) | Some crc_b3 =>
              b4 ← uart_rx_timed;
              match b4 with None => mret (E_TIMED_OUT, p) | Some crc_b4 =>
              dfu_packet_loop fuel' PACKET_STATE_END
                (p <| PCRC := Z.lor (Z.lor (Z.lor (u32 (Z.shiftl byte 24)) (u32 (Z.shiftl crc_b2 16)))
                                            (u32 (Z.shiftl crc_b3 8))) crc_b4 |>)
              end end end
          | PACKET_STATE_END =>
              dfu_packet_loop fuel' (if byte =? 0xBB then PACKET_STATE_SUCCESS else PACKET_STATE_END) p
          | PACKET_STATE_ERROR =>
              dfu_packet_loop fuel' PACKET_STATE_START (p <| CMD := 0 |> <| PCRC := 0 |> <| LEN := 0 |>)
          | PACKET_STATE_SUCCESS => mret (E_OK, p)
          end
      end
  end.

(** No field of the packet is read before it is assigned. *)
Definition dfu_packet_receive : Bd D (StatusCode * DFU_Packet) :=
  n ← gets (fun b => length (b_rx b));
  dfu_packet_loop (S n) PACKET_STATE_START (mkPacket 0 0 [] 0).

(** ** The session *)

Definition dfu_init : Bd D StatusCode :=
  upd_dfu (fun v => mkDfuVars 0 (dfu_sector v) 0 false false false 0 DFU_TARGET_UNKNOWN 0);;
  mret E_OK.

Definition dfu_event (phase : TelemetryDfuEventPhase) (target extra : Z) : Bd D unit :=
  btel (Telemetry.Boot.telemetry_report_dfu_event phase target extra).

Definition telemetry_target : Bd D Z := gets (fun b => dfu_telemetry_target (b_dfu b)).

(** NACK, state ABORT, and the event that says why. *)
Definition refuse (target : Bd D Z) (reason : TelemetryDfuAbortReason) (s : session) : Bd D session :=
  uart_tx_raw DFU_NACK;;
  t ← target;
  dfu_event DFU_EVT_ABORTED t (dfu_abort_code reason);;
  mret (s <| ss_state := DFU_STATE_ABORT |>).

(** Storing [bytes] in [current_sector] from [off]. *)
Definition sector_store (off : Z) (bytes : list Z) : Bd D unit :=
  if off + Z.of_nat (length bytes) <=? SECTOR_SIZE then
    upd_dfu (fun v => v <| dfu_sector ::= fun buf =>
      take (Z.to_nat off) buf ++ bytes ++ drop (Z.to_nat off + length bytes) buf |>)
  else stop Fault.

(** CMD_START and CMD_START_SELF_UPDATE *)
Definition dfu_start (self : bool) (p : DFU_Packet) (s : session) : Bd D session :=
  st ← gets (fun b => started (b_dfu b));
  if st : bool then refuse telemetry_target DFU_ABORT_ALREADY_STARTED s else
  if negb (LEN p =? 12) then refuse (mret DFU_TARGET_UNKNOWN) DFU_ABORT_BAD_START_LEN s else
  sector_store 0 (take 12 (DATA p));;
  let pkt := start_packet_of (DATA p) in
  active ← gets (fun b => active_app_slot (b_meta b));
  let base := if self then EMMC_SECTOR_BOOTLOADER else APP_SLOT_TO_SECTOR (APP_SLOT_OTHER active) in
  upd_dfu (fun v => v <| dfu_base_sector := base |>);;
  buf ← gets (fun b => dfu_sector (b_dfu b));
  emmc_write base buf;;
  upd_dfu (fun v => v <| sectors_written := 1 |> <| is_self_update := self |> <| started := true |>);;
  let target := if self then DFU_TARGET_BOOTLOADER else DFU_TARGET_APP in
  upd_dfu (fun v => v <| dfu_telemetry_target := target |>);;
  dfu_event DFU_EVT_START_RECEIVED target (fw_length pkt);;
  uart_tx_raw DFU_ACK;;
  mret (s <| ss_state := DFU_STATE_RECIEVE_DATA |> <| img_expected_crc := Some (sp_crc pkt) |>
          <| img_length := fw_length pkt |> <| crc_ctx := Some crc32_start |>).

(** CMD_DATA: the bytes into the sector buffer, a full one to the disk... *)
Definition dfu_store (p : DFU_Packet) : Bd D unit :=
  v ← gets b_dfu;
  let base_sector := dfu_base_sector v in
  let counter := current_sector_counter v in
  if SECTOR_SIZE <=? u32 (counter + LEN p) then
    let diff := u32 (counter + LEN p - SECTOR_SIZE) in
    sector_store counter (take (Z.to_nat (LEN p - diff)) (DATA p));;
    buf ← gets (fun b => dfu_sector (b_dfu b));
    emmc_write (u32 (base_sector + sectors_written v)) buf;;
    sector_store 0 (take (Z.to_nat diff) (drop (Z.to_nat (LEN p - diff)) (DATA p)));;
    upd_dfu (fun v => v <| sectors_written ::= fun n => u32 (n + 1) |> <| unwritten_sector := negb (diff =? 0) |>
                        <| current_sector_counter := diff |>)
  else
    when (negb (unwritten_sector v)) (upd_dfu (fun v => v <| unwritten_sector := true |>));;
    sector_store counter (take (Z.to_nat (LEN p)) (DATA p));;
    upd_dfu (fun v => v <| current_sector_counter ::= fun n => u32 (n + LEN p) |>).

(** ...and into the CRC, up to the announced length. *)
Definition dfu_hash (p : DFU_Packet) (s : session) : Bd D session :=
  let to_hash :=
    if img_length s <? u32 (bytes_hashed s + LEN p)
    then (if bytes_hashed s <? img_length s then img_length s - bytes_hashed s else 0)
    else LEN p in
  if 0 <? to_hash then
    ctx ← read_local (crc_ctx s);
    mret (s <| crc_ctx := Some (crc32_update ctx (take (Z.to_nat to_hash) (DATA p))) |>
            <| bytes_hashed ::= fun n => u32 (n + to_hash) |>)
  else mret s.

Definition dfu_progress (s : session) : Bd D unit :=
  when (0 <? img_length s) (
    let pct := u32 (bytes_hashed s * 100) / img_length s in
    last ← gets (fun b => dfu_telemetry_last_pct (b_dfu b));
    when (last <? pct) (
      upd_dfu (fun v => v <| dfu_telemetry_last_pct := pct |>);;
      t ← telemetry_target;
      dfu_event DFU_EVT_DATA_PROGRESS t (bytes_hashed s))).

Definition dfu_data (p : DFU_Packet) (s : session) : Bd D session :=
  if negb (LEN p mod 4 =? 0) then refuse telemetry_target DFU_ABORT_BAD_DATA_LEN s else
  if decide (ss_state s = DFU_STATE_RECIEVE_DATA) then
    dfu_store p;;
    s' ← dfu_hash p s;
    dfu_progress s';;
    uart_tx_raw DFU_ACK;;
    mret s'
  else mret s.

(** The commit, once the transfer, the read-back and the marker are good. *)
Definition dfu_commit (new_slot : Z) (s : session) : Bd D session :=
  upd_meta (fun m => m <| active_app_slot := new_slot |> <| app_slot_trial := 1 |> <| trial_boot_count := 0 |>);;
  wdt_meta_write;;
  upd_flags (fun f => f <| fw_crc_ok := 1 |>);;
  uart_tx_raw DFU_ACK;;
  say Messages.committed [new_slot];;
  dfu_event DFU_EVT_COMMITTED DFU_TARGET_APP (if new_slot =? APP_SLOT_B then 1 else 0);;
  mret (s <| ss_state := DFU_STATE_DONE |>).

(** [marker_ok] *)
Definition dfu_marker (new_slot : Z) : Bd D bool :=
  rd ← emmc_read (u32 (APP_SLOT_TO_SECTOR new_slot + 1)) 1;
  mret (bool_decide (rd.1 = E_OK) && (word_at rd.2 DFU_APP_MARKER_OFFSET =? DFU_APP_MAGIC)).

(** CMD_FINISH *)
Definition dfu_finish (s : session) : Bd D session :=
  ctx ← read_local (crc_ctx s);
  expected ← read_local (img_expected_crc s);
  let img_actual_crc := crc32_finish ctx in
  say Messages.crcs [expected; img_actual_crc];;
  t ← telemetry_target;
  dfu_event DFU_EVT_CRC_CHECK_RESULT t (if img_actual_crc =? expected then 1 else 0);;
  if negb (img_actual_crc =? expected) then refuse telemetry_target DFU_ABORT_CRC_MISMATCH s else
  v ← gets b_dfu;
  when (unwritten_sector v) (
    sector_store (current_sector_counter v) (replicate (Z.to_nat (SECTOR_SIZE - current_sector_counter v)) 0);;
    buf ← gets (fun b => dfu_sector (b_dfu b));
    emmc_write (u32 (dfu_base_sector v + sectors_written v)) buf;;
    mret tt);;
  when (is_self_update v) (
    uart_tx_raw DFU_ACK;;
    say Messages.self_done [];;
    dfu_event DFU_EVT_COMMITTED DFU_TARGET_BOOTLOADER 0;;
    hw HwUartDeinit;;
    watchdog_trigger_reset);;
  active ← gets (fun b => active_app_slot (b_meta b));
  let new_slot := APP_SLOT_OTHER active in
  r ← boot_validate_app (APP_SLOT_TO_SECTOR new_slot);
  dfu_event DFU_EVT_READBACK_VALIDATE DFU_TARGET_APP (if decide (r = E_OK) then 1 else 0);;
  if decide (r <> E_OK) then
    say Messages.readback [];; refuse (mret DFU_TARGET_APP) DFU_ABORT_READBACK_FAILED s
  else
  marker_ok ← dfu_marker new_slot;
  dfu_event DFU_EVT_MARKER_CHECK DFU_TARGET_APP (if marker_ok : bool then 1 else 0);;
  if negb marker_ok then
    say Messages.no_marker [];; refuse (mret DFU_TARGET_APP) DFU_ABORT_MARKER_MISSING s
  else dfu_commit new_slot s.

(** [switch (packet.CMD)] *)
Definition dfu_command (p : DFU_Packet) (s : session) : Bd D session :=
  if CMD p =? CMD_START then dfu_start false p s
  else if CMD p =? CMD_START_SELF_UPDATE then dfu_start true p s
  else if CMD p =? CMD_DATA then dfu_data p s
  else if CMD p =? CMD_ABORT then refuse telemetry_target DFU_ABORT_HOST_ABORT s
  else if CMD p =? CMD_FINISH then dfu_finish s
  else mret s.

Fixpoint dfu_loop (fuel : nat) (s : session) : Bd D StatusCode :=
  match ss_state s with
  | DFU_STATE_DONE => mret E_OK
  | DFU_STATE_ABORT => mret E_ABORTED
  | _ =>
      match fuel with
      | O => stop NoFuel
      | S fuel' =>
          rp ← dfu_packet_receive;
          if decide (rp.1 <> E_OK) then
            say Messages.timed_out [];;
            t ← telemetry_target;
            dfu_event DFU_EVT_ABORTED t (dfu_abort_code DFU_ABORT_TIMEOUT);;
            mret E_TIMED_OUT
          else
            s' ← dfu_command rp.2 s;
            dfu_loop fuel' s'
      end
  end.

(** Waiting for the trigger key. *)
Fixpoint await_trigger (fuel : nat) : Bd D unit :=
  match fuel with
  | O => stop NoFuel
  | S fuel' =>
      byte ← uart_rx;
      hit ← dfu_trigger_feed byte;
      if hit : bool then
        uart_tx_raw DFU_ACK;;
        dfu_trigger_reset;;
        dfu_event DFU_EVT_TRIGGER_MATCHED DFU_TARGET_UNKNOWN 0
      else await_trigger fuel'
  end.

Definition dfu_receive : Bd D StatusCode :=
  dfu_init;;
  dfu_trigger_reset;;
  dfu_event DFU_EVT_WAITING_TRIGGER DFU_TARGET_UNKNOWN 0;;
  n ← gets (fun b => length (b_rx b));
  await_trigger (S n);;
  n ← gets (fun b => length (b_rx b));
  dfu_loop (S n) (mkSession DFU_STATE_START None 0 0 None).
End dfu.

(** ** The parser's contract *)

Section parser.
Context {D : Type} `{BlockDevice D}.

Definition rx_len (b : board D) : Z := Z.of_nat (length (b_rx b)).

(** Only input was consumed. *)
Definition rx_only (b k : board D) : Prop := k = b <| b_rx := b_rx k |> /\ rx_len k <= rx_len b.

Lemma rx_only_refl (b : board D) : rx_only b b.
Proof. split; [by destruct b|lia]. Qed.
Lemma rx_only_trans (b1 b2 b3 : board D) : rx_only b1 b2 -> rx_only b2 b3 -> rx_only b1 b3.
Proof. intros [E1 H1] [E2 H2]. split; [|lia]. rewrite E2. by rewrite E1. Qed.

Lemma next_byte_spec (rx : list rx_event) (v : Z) (rx' : list rx_event) :
  next_byte rx = Some (v, rx') -> is_byte v /\ (length rx' < length rx)%nat.
Proof.
  induction rx as [|[b|] rx IH]; cbn [next_byte]; [done| |].
  - intros [= <- <-]. split; [apply (wrap_range 8); lia|cbn; lia].
  - intros Hn. destruct (IH Hn) as [? ?]. split; [done|cbn; lia].
Qed.

Lemma uart_rx_spec (b : board D) :
  runs uart_rx b (fun v k => is_byte v /\ rx_only b k /\ rx_len k < rx_len b)
                 (fun w k => w = Hang /\ b_rx k = [] /\ rx_only b k).
Proof.
  unfold runs, uart_rx. destruct (next_byte (b_rx b)) as [[v rx']|] eqn:Hn.
  - destruct (next_byte_spec _ _ _ Hn) as [Hv Hl]. unfold rx_only, rx_len. bsimpl. split_and!; done || lia.
  - unfold rx_only, rx_len. bsimpl. split_and!; done || (cbn; lia).
Qed.

Lemma uart_rx_timed_spec (b : board D) :
  runs uart_rx_timed b (fun r k => rx_only b k /\
      match r with Some v => is_byte v /\ rx_len k < rx_len b | None => True end) (fun _ _ => False).
Proof.
  unfold runs, uart_rx_timed, rx_only, rx_len. destruct (b_rx b) as [|[v|] rx] eqn:Hrx; bsimpl; cbn [length].
  - rewrite Hrx. split_and!; [|cbn; lia|done]. rewrite <- Hrx. by destruct b.
  - split_and!; [done|lia|apply (wrap_range 8); lia|lia].
  - split_and!; done || lia.
Qed.

(** What the parser stops with. *)
Definition rx_stop (b : board D) (w : stop_reason) (k : board D) : Prop := (w = Hang /\ b_rx k = [] \/ w = Overrun) /\ rx_only b k.

Lemma rx_stop_trans (b k : board D) w k' : rx_only b k -> rx_stop k w k' -> rx_stop b w k'.
Proof. intros Hb [Hw Hk]. split; [done|by eapply rx_only_trans]. Qed.

Lemma payload_loop_spec (n : nat) : forall (data : list Z) (b : board D),
  (1 <= length data <= 256)%nat -> Forall is_byte data ->
  runs (payload_loop n data) b (fun r k => rx_only b k /\
      match r with
      | Some d => Forall is_byte d /\ length d = (length data + n)%nat /\ (length d <= 256)%nat /\
                  rx_len k + Z.of_nat n <= rx_len b
      | None => True
      end) (rx_stop b).
Proof.
  induction n as [|n IH]; intros data b Hl Hd; cbn [payload_loop].
  - apply runs_ret. split; [apply rx_only_refl|]. split_and!; [done|lia|lia|lia].
  - rstep. rcall uart_rx_timed_spec; [|done]. intros [v|] k [Hk Hv]; [|by apply runs_ret].
    destruct Hv as [Hv Hlt]. unfold MAX_DATA_SIZE_BYTES. destruct (Z.ltb_spec (Z.of_nat (length data)) 256).
    + rcall IH.
      * rewrite length_app. cbn [length]. lia.
      * apply Forall_app. split; [done|]. by apply Forall_singleton.
      * intros r k' [Hk' Hr]. split; [by eapply rx_only_trans|]. destruct r as [d|]; [|done].
        rewrite length_app in Hr. cbn [length] in Hr. intuition lia.
      * intros w k'. by apply rx_stop_trans.
    + apply runs_stop. split; [by right|done].
Qed.

Definition packet_ok (p : DFU_Packet) : Prop :=
  0 <= LEN p <= 256 /\ LEN p <= Z.of_nat (length (DATA p)) /\ Forall is_byte (DATA p).

(** What is known of the packet in each state, when [L] events were there at
    the start. *)
Definition parse_inv (L : Z) (state : PacketState) (p : DFU_Packet) (b : board D) : Prop :=
  match state with
  | PACKET_STATE_PAYLOAD => 0 <= LEN p < 2 ^ 16 /\ rx_len b <= L
  | PACKET_STATE_CRC | PACKET_STATE_END => packet_ok p /\ rx_len b + LEN p <= L
  | PACKET_STATE_SUCCESS => packet_ok p /\ rx_len b + LEN p < L
  | _ => rx_len b <= L
  end.

Definition packet_received (L : Z) (b : board D) (rp : StatusCode * DFU_Packet) (k : board D) : Prop :=
  rx_only b k /\ ((rp.1 = E_OK /\ packet_ok rp.2 /\ rx_len k + LEN rp.2 < L) \/ rp.1 = E_TIMED_OUT).

Lemma packet_received_trans (L : Z) (b k : board D) rp k' :
  rx_only b k -> packet_received L k rp k' -> packet_received L b rp k'.
Proof. intros Hb [Hk Hr]. split; [by eapply rx_only_trans|done]. Qed.

Lemma dfu_packet_loop_spec (L : Z) (fuel : nat) : forall (state : PacketState) (p : DFU_Packet) (b : board D),
  parse_inv L state p b -> state = PACKET_STATE_SUCCESS \/ rx_len b < Z.of_nat fuel ->
  runs (dfu_packet_loop fuel state p) b (packet_received L b) (rx_stop b).
Proof.
  induction fuel as [|fuel IH]; intros state p b Hi Hf.
  - destruct Hf as [->|Hf]; [|unfold rx_len in Hf; lia]. cbn [dfu_packet_loop]. destruct Hi. apply runs_ret. split; [apply rx_only_refl|left; by split_and!].
  - assert (forall state' p' k, rx_only b k -> rx_len k < rx_len b -> state <> PACKET_STATE_SUCCESS -> parse_inv L state' p' k ->
      runs (dfu_packet_loop fuel state' p') k (packet_received L b) (rx_stop b)) as Hgo.
    { intros state' p' k Hk Hlt Hne Hi'. destruct Hf as [Hf|Hf]; [done|].
      rcall (IH state' p' k Hi'); [right; lia| |].
      - intros rp k'. by apply packet_received_trans.
      - intros w k'. by apply rx_stop_trans. }
    assert (forall p' k, rx_only b k -> packet_received L b (E_TIMED_OUT, p') k) as Hto by (intros; split; [done|by right]).
    cbn [dfu_packet_loop]. destruct state.
    7: { destruct Hi. apply runs_ret. split; [apply rx_only_refl|left; by split_and!]. }
    all: rstep; rcall uart_rx_spec; [intros v k (Hv & Hk & Hlt)|intros w k (-> & Hrx & Hk); split; [by left|done]].
    + apply Hgo; [done|done|done|]. cbn in Hi. destruct (v =? 0xAA); cbn; lia.
    + cbn in Hi. destruct (_ && _); apply Hgo; try done; cbn; lia.
    + cbn in Hi. rstep. rcall uart_rx_timed_spec; [|done]. intros [lsb|] k' [Hk' Hl]; [|apply runs_ret, Hto; by eapply rx_only_trans].
      apply Hgo; [by eapply rx_only_trans|lia|done|]. cbn. split; [apply (wrap_range 16); lia|lia].
    + destruct Hi as [Hlen Hi]. rstep. rcall payload_loop_spec; [cbn; lia|by apply Forall_singleton| |].
      * intros [d|] k' [Hk' Hd]; [|apply runs_ret, Hto; by eapply rx_only_trans].
        destruct Hd as (Hdb & Hdl & Hd256 & Hleft). cbn [length] in Hdl.
        apply Hgo; [by eapply rx_only_trans|lia|done|]. split; [split_and!; cbn; done || lia|cbn; lia].
      * intros w k'. by apply rx_stop_trans.
    + destruct Hi as [Hp Hi]. rstep. rcall uart_rx_timed_spec; [|done].
      intros [b2|] k2 [Hk2 H2]; [|apply runs_ret, Hto; by eapply rx_only_trans]. rstep. rcall uart_rx_timed_spec; [|done].
      intros [b3|] k3 [Hk3 H3]; [|apply runs_ret, Hto; do 2 (eapply rx_only_trans; [eassumption|]); done].
      rstep. rcall uart_rx_timed_spec; [|done].
      intros [b4|] k4 [Hk4 H4]; [|apply runs_ret, Hto; do 3 (eapply rx_only_trans; [eassumption|]); done].
      apply Hgo; [do 3 (eapply rx_only_trans; [eassumption|]); done|lia|done|]. split; [exact Hp|cbn; lia].
    + destruct Hi as [Hp Hi]. destruct (v =? 0xBB); apply Hgo; try done; split; done || lia.
    + cbn in Hi. apply Hgo; [done|done|done|]. cbn. lia.
Qed.

(** A packet, a timeout, or an endless wait; never out of fuel, and a fault
    only for a payload that overruns DATA. *)
Lemma dfu_packet_receive_spec (b : board D) :
  runs dfu_packet_receive b (packet_received (rx_len b) b) (rx_stop b).
Proof.
  unfold dfu_packet_receive. rsteps. apply dfu_packet_loop_spec; [cbn; lia|right; unfold rx_len; lia].
Qed.
End parser.

(** ** The session's invariant *)

Definition inactive_base (m : WdtMeta) : Z := APP_SLOT_TO_SECTOR (APP_SLOT_OTHER (active_app_slot m)).
Definition session_base (m : WdtMeta) (self : bool) : Z := if self then EMMC_SECTOR_BOOTLOADER else inactive_base m.

(** The sectors a session may write after [L] received events. *)
Definition in_region (m : WdtMeta) (L : Z) (self : bool) (s : Z) : Prop :=
  session_base m self <= s < session_base m self + 2 + L / 512.

(** The two sector buffers hold a sector. *)
Definition buffers_ok {D} (b : board D) : Prop := sector_ok (dfu_sector (b_dfu b)) /\ sector_ok (b_boot_sector b).

(** How a session ends that does not return: it waits for a byte when the input
    is over; a payload runs past the end of the packet's array; CMD_FINISH comes
    before any CMD_START, and reads two locals never assigned; or the chip is
    reset after an update of the bootloader. *)
Definition session_stop {D} (w : stop_reason) (k : board D) : Prop :=
  w = Hang /\ b_rx k = [] \/ w = Overrun \/ (w = Unset /\ started (b_dfu k) = false) \/
  (w = ChipReset /\ is_self_update (b_dfu k) = true).

(** The DFU state without what only telemetry reads. *)
Definition dfu_core (v : DfuVars) : DfuVars := v <| dfu_telemetry_target := 0 |> <| dfu_telemetry_last_pct := 0 |>.

Ltac vsimpl :=
  cbn [sectors_written dfu_sector current_sector_counter unwritten_sector started is_self_update dfu_base_sector
       dfu_telemetry_target dfu_telemetry_last_pct field_update].

Ltac dstep :=
  lazymatch goal with
  | |- runs (_ ≫= _) _ _ _ => apply runs_bind
  | |- runs (say _ _) _ _ _ => apply runs_modify
  | |- runs (dfu_event _ _ _) _ _ _ => apply runs_modify
  | |- runs (uart_tx_raw _) _ _ _ => apply runs_modify
  | |- runs telemetry_target _ _ _ => apply runs_gets
  end; cbv beta.
Ltac dsteps := repeat dstep.

Section session.
Context {D : Type} `{BlockLaws D}.
(** The disk, the metadata and the flags before the session, and the number of
    events that were waiting. *)
Context (c : Z -> list Z) (m : WdtMeta) (f : BootFlags) (L : Z).

Record dfu_inv (k : board D) : Prop := {
  di_meta : b_meta k = m;
  di_flags : b_flags k = f;
  di_buf : sector_ok (dfu_sector (b_dfu k));
  di_boot : sector_ok (b_boot_sector k);
  di_counter : 0 <= current_sector_counter (b_dfu k) < 512;
  di_spent : 512 * sectors_written (b_dfu k) + current_sector_counter (b_dfu k) + rx_len k <= 512 + L;
  di_disk :
    let base := session_base m (is_self_update (b_dfu k)) in
    if started (b_dfu k) then
      dfu_base_sector (b_dfu k) = base /\ 1 <= sectors_written (b_dfu k) /\
      forall s, ~ (base <= s < base + sectors_written (b_dfu k)) -> contents (b_dev k) s = c s
    else sectors_written (b_dfu k) = 0 /\ current_sector_counter (b_dfu k) = 0 /\ is_self_update (b_dfu k) = false /\
      rx_len k <= L /\ forall s, contents (b_dev k) s = c s
}.

(** An ended session that did not commit. *)
Record dfu_closed (k : board D) : Prop := {
  dc_meta : b_meta k = m;
  dc_flags : b_flags k = f;
  dc_bufs : buffers_ok k;
  dc_disk : forall s, ~ in_region m L (is_self_update (b_dfu k)) s -> contents (b_dev k) s = c s
}.

Definition committed_meta : WdtMeta :=
  seal (m <| active_app_slot := APP_SLOT_OTHER (active_app_slot m) |> <| app_slot_trial := 1 |> <| trial_boot_count := 0 |>).

(** The inactive slot holds a valid image with the DFU marker. *)
Definition bootable (disk : Z -> list Z) : Prop :=
  image_valid disk (inactive_base m) /\ word_at (disk (inactive_base m + 1)) DFU_APP_MARKER_OFFSET = DFU_APP_MAGIC.

Lemma bootable_ext (disk disk' : Z -> list Z) :
  (forall x, x <> EMMC_SECTOR_METADATA -> disk' x = disk x) -> bootable disk -> bootable disk'.
Proof.
  intros He [Hi Hm]. assert (forall x, inactive_base m <= x -> disk' x = disk x) as He'.
  { intros x Hx. apply He. intros ->. revert Hx. unfold inactive_base, APP_SLOT_TO_SECTOR. destruct (_ =? _); by vm_compute. }
  split; [by eapply image_valid_ext|]. by rewrite He' by lia.
Qed.

(** The new metadata are in their sector, unless the device refused the very
    write: the code does not look at its status. *)
Definition metadata_written (k : board D) : Prop :=
  contents (b_dev k) EMMC_SECTOR_METADATA = meta_sector committed_meta \/
  exists d, let '(r, d') := dev_write EMMC_SECTOR_METADATA (meta_sector committed_meta) d in r <> E_OK /\ b_dev k = d'.

(** One that did. *)
Record dfu_committed (k : board D) : Prop := {
  dk_meta : b_meta k = committed_meta;
  dk_flags : b_flags k = f <| fw_crc_ok := 1 |>;
  dk_bufs : buffers_ok k;
  dk_disk : forall s, ~ in_region m L false s -> s <> EMMC_SECTOR_METADATA -> contents (b_dev k) s = c s;
  dk_image : reads_succeed (D := D) -> bootable (contents (b_dev k));
  dk_stored : metadata_written k
}.

Lemma dfu_inv_ext (k k' : board D) : dfu_inv k ->
  (forall s, contents (b_dev k') s = contents (b_dev k) s) -> b_meta k' = b_meta k -> b_flags k' = b_flags k ->
  dfu_core (b_dfu k') = dfu_core (b_dfu k) -> (sector_ok (b_boot_sector k) -> sector_ok (b_boot_sector k')) ->
  rx_len k' <= rx_len k -> dfu_inv k'.
Proof.
  intros [H1 H2 H3 H4 H5 H6 H7] Hc Hm Hf Hd Hb Hr.
  injection Hd as E1 E2 E3 E4 E5 E6 E7. constructor; rewrite ?E1, ?E2, ?E3, ?E5, ?E6, ?E7; try congruence; auto; [lia|].
  cbv zeta in *. destruct (started (b_dfu k)).
  - destruct H7 as (? & ? & H7). split_and!; [done|done|]. intros s Hs. by rewrite Hc, H7.
  - destruct H7 as (? & ? & ? & ? & H7). split_and!; [done|done|done|lia|]. intros s. by rewrite Hc, H7.
Qed.

Lemma dfu_inv_frame (k k' : board D) : dfu_inv k -> boot_frame k k' -> dfu_inv k'.
Proof.
  intros Hi []. eapply dfu_inv_ext; [exact Hi|done|done|done|congruence|done|].
  unfold rx_len. by rewrite bf_rx.
Qed.

Lemma dfu_inv_rx (k k' : board D) : dfu_inv k -> rx_only k k' -> dfu_inv k'.
Proof. intros Hi [E Hr]. rewrite E in *. by apply (dfu_inv_ext k). Qed.

Lemma dfu_closed_inv (k : board D) : dfu_inv k -> dfu_closed k.
Proof.
  intros [H1 H2 H3 H4 H5 H6 H7]. constructor; [done|done|done|]. intros s Hs. cbv zeta in H7.
  pose proof (Zle_0_nat (length (b_rx k))) as Hrx. fold (rx_len k) in Hrx.
  destruct (started (b_dfu k)); [|by apply H7].
  destruct H7 as (_ & Hw & H7). apply H7. intros Hin. apply Hs. unfold in_region.
  assert (sectors_written (b_dfu k) <= 1 + L / 512); [|lia].
  enough (sectors_written (b_dfu k) - 1 <= L / 512) by lia. apply Z.div_le_lower_bound; lia.
Qed.

(** What the session's locals say about the board. *)
Definition sess_inv (s : session) (k : board D) : Prop :=
  match ss_state s with
  | DFU_STATE_START => dfu_inv k /\ started (b_dfu k) = false /\ crc_ctx s = None
  | DFU_STATE_RECIEVE_DATA => dfu_inv k /\ started (b_dfu k) = true /\ is_Some (crc_ctx s) /\ is_Some (img_expected_crc s)
  | DFU_STATE_ABORT => dfu_closed k
  | DFU_STATE_DONE => dfu_committed k
  end.

Definition dfu_stop (w : stop_reason) (k : board D) : Prop := session_stop w k /\ dfu_closed k.

Lemma dfu_closed_ext (k k' : board D) : dfu_closed k ->
  (forall s, contents (b_dev k') s = contents (b_dev k) s) -> b_meta k' = b_meta k -> b_flags k' = b_flags k ->
  dfu_core (b_dfu k') = dfu_core (b_dfu k) -> (sector_ok (b_boot_sector k) -> sector_ok (b_boot_sector k')) ->
  dfu_closed k'.
Proof.
  intros [H1 H2 [H3 H4] H5] Hc Hm Hf Hd Hb. injection Hd as E1 E2 E3 E4 E5 E6 E7.
  constructor; [congruence|congruence|split; [by rewrite E2|by apply Hb]|]. intros s. rewrite E6, Hc. apply H5.
Qed.

Lemma refuse_spec (target : Bd D Z) (reason : TelemetryDfuAbortReason) (s : session) (k : board D) :
  (target = telemetry_target \/ exists t, target = mret t) -> dfu_closed k ->
  runs (refuse target reason s) k (fun s' k' => sess_inv s' k' /\ rx_len k' = rx_len k) dfu_stop.
Proof.
  intros Ht Hc. unfold refuse, uart_tx_raw, dfu_event, btel, telemetry_target in *. rsteps.
  destruct Ht as [-> | [t ->]]; rsteps; (split; [|done]); cbn; by apply (dfu_closed_ext k).
Qed.

Lemma sector_store_spec (off : Z) (bytes : list Z) (k : board D) :
  0 <= off -> off + Z.of_nat (length bytes) <= 512 -> sector_ok (dfu_sector (b_dfu k)) -> Forall is_byte bytes ->
  exists buf, sector_store off bytes k = Ret tt (k <| b_dfu ::= fun v => v <| dfu_sector := buf |> |>) /\ sector_ok buf /\
    buf = take (Z.to_nat off) (dfu_sector (b_dfu k)) ++ bytes ++ drop (Z.to_nat off + length bytes) (dfu_sector (b_dfu k)).
Proof.
  intros Ho Hl [Hb Hf] Hbytes. eexists. unfold sector_store, SECTOR_SIZE. rewrite (proj2 (Z.leb_le _ _)) by lia.
  split; [by destruct k|]. split; [|done]. split.
  - rewrite !length_app, length_take, length_drop. lia.
  - rewrite !Forall_app. split_and!; [by apply Forall_take|done|by apply Forall_drop].
Qed.
Lemma returns_store (off : Z) (bytes : list Z) (k : board D) Q :
  0 <= off -> off + Z.of_nat (length bytes) <= 512 -> sector_ok (dfu_sector (b_dfu k)) -> Forall is_byte bytes ->
  (forall buf, sector_ok buf ->
     buf = take (Z.to_nat off) (dfu_sector (b_dfu k)) ++ bytes ++ drop (Z.to_nat off + length bytes) (dfu_sector (b_dfu k)) ->
     Q tt (k <| b_dfu ::= fun v => v <| dfu_sector := buf |> |>)) ->
  returns (sector_store off bytes) k Q.
Proof.
  intros Ho Hl Hb Hf HQ. destruct (sector_store_spec off bytes k Ho Hl Hb Hf) as (buf & He & Hok & Hbuf).
  unfold returns. rewrite He. by apply HQ.
Qed.

Lemma returns_write (s : Z) (bytes : list Z) (k : board D) Q : length bytes = 512%nat ->
  (forall r d, (forall s', s' <> s -> contents d s' = contents (b_dev k) s') -> Q r (k <| b_dev := d |>)) ->
  returns (emmc_write s bytes) k Q.
Proof.
  intros Hl HQ. unfold returns, emmc_write. pose proof (fun s' => write_other s bytes (b_dev k) s' Hl) as Hw.
  destruct (dev_write s bytes (b_dev k)) as [r d]. apply HQ. intros s' Hne. by rewrite <- Hw.
Qed.

Lemma session_base_range (self : bool) : 0 <= session_base m self < 2 ^ 30.
Proof.
  unfold session_base, inactive_base, APP_SLOT_TO_SECTOR. destruct self; [by vm_compute|]. destruct (_ =? _); by vm_compute.
Qed.

Context (HL : 0 <= L < 2 ^ 31).

(** A packet's bytes, once received, are in the sectors or in the buffer. *)
Lemma dfu_store_spec (p : DFU_Packet) (k : board D) :
  dfu_inv k -> started (b_dfu k) = true -> packet_ok p ->
  512 * sectors_written (b_dfu k) + current_sector_counter (b_dfu k) + (rx_len k + LEN p) <= 512 + L ->
  returns (dfu_store p) k (fun _ k' => dfu_inv k' /\ started (b_dfu k') = true /\ rx_len k' = rx_len k).
Proof.
  intros [H1 H2 H3 H4 H5 H6 H7] Hs (Hlen & Hdata & Hbytes) Hroom. rewrite Hs in H7. destruct H7 as (Hbase & Hsw & Hdisk).
  pose proof (Zle_0_nat (length (b_rx k))) as Hrx. fold (rx_len k) in Hrx. pose proof (session_base_range (is_self_update (b_dfu k))).
  unfold dfu_store. step. step. unfold SECTOR_SIZE. set (v := b_dfu k) in *. set (cnt := current_sector_counter v) in *.
  rewrite wrap_small by lia. destruct (Z.leb_spec 512 (cnt + LEN p)).
  - rewrite wrap_small by lia. set (diff := cnt + LEN p - 512). step.
    apply returns_store; [lia|rewrite length_take; lia|done|by apply Forall_take|]. intros buf Hbuf _. step. step. bsimpl.
    cbn [dfu_sector field_update]. rewrite wrap_small by lia. step. apply returns_write; [apply Hbuf|].
    intros r d Hd. step.
    apply returns_store; [lia|rewrite length_take, length_drop; lia|done|by apply Forall_take, Forall_drop|].
    intros buf2 Hbuf2 _. unfold upd_dfu. steps. fold v. split; [|done].
    assert (u32 (sectors_written v + 1) = sectors_written v + 1) as Hu by (apply wrap_small; lia).
    constructor; bsimpl; vsimpl; rewrite ?Hu; [done|done|done|done|lia|unfold rx_len in *; bsimpl; lia|].
    rewrite Hs. split_and!; [done|lia|]. intros s Hsx. rewrite Hd by lia. apply Hdisk. lia.
  - assert (exists k', (when (negb (unwritten_sector v)) (upd_dfu (fun v => v <| unwritten_sector := true |>))) k = Ret tt k' /\
       k' = k <| b_dfu := v <| unwritten_sector := true |> |>) as (k' & Hk' & ->).
    { eexists. split; [|done]. unfold v. destruct (unwritten_sector (b_dfu k)) eqn:Hu; [|done]. cbn. rewrite <- Hu.
      destruct k as [? ? ? ? ? ? ? ? w]. by destruct w. }
    step. unfold returns at 1. rewrite Hk'. step.
    apply returns_store; [lia|rewrite length_take; lia|done|by apply Forall_take|]. intros buf Hbuf _.
    unfold upd_dfu. steps. split; [|done].
    assert (u32 (cnt + LEN p) = cnt + LEN p) as Hu by (apply wrap_small; lia). unfold cnt in *.
    constructor; bsimpl; vsimpl; rewrite ?Hu; [done|done|done|done|lia|unfold rx_len in *; bsimpl; lia|].
    by rewrite Hs.
Qed.
(** Commands that only talk. *)
Lemma dfu_progress_spec (s : session) (k : board D) :
  returns (dfu_progress s) k (fun _ k' => (dfu_inv k -> dfu_inv k') /\ started (b_dfu k') = started (b_dfu k) /\
    rx_len k' = rx_len k).
Proof.
  unfold dfu_progress, when. destruct (0 <? img_length s); [|by apply returns_ret]. steps.
  destruct (_ <? _); [|by apply returns_ret]. unfold upd_dfu, telemetry_target, dfu_event, btel. steps. split; [|done].
  intros Hi. by apply (dfu_inv_ext k).
Qed.

Lemma dfu_hash_spec (p : DFU_Packet) (s : session) (k : board D) : is_Some (crc_ctx s) ->
  returns (dfu_hash p s) k (fun s' k' => k' = k /\ ss_state s' = ss_state s /\ is_Some (crc_ctx s') /\
    img_expected_crc s' = img_expected_crc s).
Proof.
  intros [ctx Hc]. unfold dfu_hash. case_match; [|apply returns_ret; by rewrite Hc]. rewrite Hc. step. cbn [read_local]. steps. done.
Qed.

Definition room (p : DFU_Packet) (k : board D) : Prop :=
  512 * sectors_written (b_dfu k) + current_sector_counter (b_dfu k) + (rx_len k + LEN p) <= 512 + L /\
  (started (b_dfu k) = false -> rx_len k <= L).

Definition next_inv (k : board D) (s' : session) (k' : board D) : Prop := sess_inv s' k' /\ rx_len k' <= rx_len k.

Definition live (s : session) : Prop := ss_state s = DFU_STATE_START \/ ss_state s = DFU_STATE_RECIEVE_DATA.

Lemma sess_inv_live (s : session) (k : board D) : live s -> sess_inv s k -> dfu_inv k.
Proof. unfold sess_inv. intros [-> | ->]; tauto. Qed.

Lemma refuse_next (target : Bd D Z) (reason : TelemetryDfuAbortReason) (s : session) (k0 k : board D) :
  (target = telemetry_target \/ exists t, target = mret t) -> dfu_closed k -> rx_len k <= rx_len k0 ->
  runs (refuse target reason s) k (next_inv k0) dfu_stop.
Proof. intros Ht Hc Hr. rcall refuse_spec; [done|done| |done]. intros s' k' [Hs Hr']. split; [done|]. by rewrite Hr'. Qed.

Lemma dfu_data_spec (p : DFU_Packet) (s : session) (k : board D) :
  live s -> sess_inv s k -> packet_ok p -> room p k -> runs (dfu_data p s) k (next_inv k) dfu_stop.
Proof.
  intros Hlive Hs Hp [Hroom _]. unfold dfu_data. case_match.
  { apply refuse_next; [by left|by eapply dfu_closed_inv, sess_inv_live|done]. }
  destruct (decide (ss_state s = DFU_STATE_RECIEVE_DATA)) as [Hst|Hst]; [|by apply runs_ret].
  unfold sess_inv in Hs. rewrite Hst in Hs. destruct Hs as (Hi & Hstart & Hctx & Hexp).
  apply runs_returns. step. call dfu_store_spec; [done..|]. intros [] k1 (Hi1 & Hst1 & Hrx1).
  step. call dfu_hash_spec; [done|]. intros s' k2 (-> & Hst2 & Hctx2 & Hexp2).
  step. call dfu_progress_spec. intros [] k3 (Hi3 & Hst3 & Hrx3). unfold uart_tx_raw. steps. split.
  - unfold sess_inv. rewrite Hst2, Hst. split; [|bsimpl; by rewrite Hst3, Hexp2].
    apply (dfu_inv_ext k3); [by apply Hi3|done..].
  - change (rx_len k3 <= rx_len k). lia.
Qed.

Lemma dfu_start_spec (self : bool) (p : DFU_Packet) (s : session) (k : board D) :
  live s -> sess_inv s k -> packet_ok p -> room p k -> runs (dfu_start self p s) k (next_inv k) dfu_stop.
Proof.
  intros Hlive Hs Hp [_ Hroom]. pose proof (sess_inv_live _ _ Hlive Hs) as Hi. unfold dfu_start. rstep. rstep.
  destruct (started (b_dfu k)) eqn:Hst; [apply refuse_next; [by left|by apply dfu_closed_inv|done]|].
  destruct (Z.eqb_spec (LEN p) 12) as [Hlen|Hlen]; cbn [negb];
    [|apply refuse_next; [right; by eexists|by apply dfu_closed_inv|done]].
  destruct Hi as [H1 H2 H3 H4 H5 H6 H7]. rewrite Hst in H7. destruct H7 as (Hsw & Hcnt & Hself & _ & Hdisk).
  destruct Hp as (_ & Hdata & Hbytes). specialize (Hroom eq_refl).
  apply runs_returns. step. apply returns_store; [lia|rewrite length_take; lia|done|by apply Forall_take|].
  intros buf Hbuf _. unfold upd_dfu. steps. bsimpl. vsimpl. apply returns_write; [apply Hbuf|]. intros r d Hd.
  unfold upd_dfu, dfu_event, btel, uart_tx_raw. steps.
  bsimpl. vsimpl.
  split; [|unfold rx_len; bsimpl; lia]. unfold sess_inv. cbn [ss_state field_update].
  split; [|bsimpl; vsimpl; repeat split; by eexists].
  constructor; bsimpl; vsimpl; [done|done|done|done|lia|unfold rx_len in *; bsimpl; lia|].
  split_and!; [unfold session_base, inactive_base; by rewrite H1|lia|]. intros x Hx. rewrite Hd; [apply Hdisk|].
  unfold session_base, inactive_base in Hx. rewrite H1. destruct self; lia.
Qed.
(** ** The end of a session *)

Lemma dfu_closed_frame (k k' : board D) : dfu_closed k -> boot_frame k k' -> dfu_closed k'.
Proof.
  intros Hc Hf. apply (dfu_closed_ext k); [done|apply Hf..|by rewrite (bf_dfu _ _ Hf)|apply (bf_buf _ _ Hf)].
Qed.

Lemma dfu_commit_spec (s : session) (k : board D) : dfu_closed k -> is_self_update (b_dfu k) = false ->
  (reads_succeed (D := D) -> bootable (contents (b_dev k))) ->
  returns (dfu_commit (APP_SLOT_OTHER (active_app_slot m)) s) k (next_inv k).
Proof.
  intros [H1 H2 Hb H3] Hself Him. rewrite Hself in H3. unfold dfu_commit, upd_meta. step. step. step.
  unfold returns at 1. rewrite wdt_meta_write_eq. bsimpl.
  match goal with |- context [dev_write ?s ?bytes ?d] => pose proof (fun s' => write_other s bytes d s' eq_refl) as Hw;
    destruct (dev_write s bytes d) as [r d'] eqn:Hwr end.
  unfold upd_flags, uart_tx_raw, say, dfu_event, btel. steps. bsimpl. split; [|unfold rx_len; bsimpl; lia].
  unfold sess_inv. cbn [ss_state field_update]. constructor; bsimpl.
  - unfold committed_meta. by rewrite H1.
  - by rewrite H2.
  - exact Hb.
  - intros x Hx Hne. rewrite <- H3 by done. by rewrite <- Hw.
  - intros Hrd. apply (bootable_ext (contents (b_dev k))); [|by apply Him]. intros x Hx. by rewrite <- Hw.
  - unfold metadata_written, committed_meta. rewrite <- H1. bsimpl.
    destruct (decide (r = E_OK)) as [->|Hne]; [left|right; exists (b_dev k); rewrite <- H1 in Hwr; by rewrite Hwr].
    apply (write_ok _ _ (b_dev k)); [exact (proj1 (meta_sector_bytes _))|exact (proj2 (meta_sector_bytes _))|]. by rewrite <- H1 in Hwr.
Qed.

Lemma dfu_marker_spec (slot : Z) (k : board D) :
  returns (dfu_marker slot) k (fun ok k' => boot_frame k k' /\
    (ok = true -> word_at (contents (b_dev k) (APP_SLOT_TO_SECTOR slot + 1)) DFU_APP_MARKER_OFFSET = DFU_APP_MAGIC)).
Proof.
  unfold dfu_marker. step. unfold returns at 1, emmc_read.
  assert (u32 (APP_SLOT_TO_SECTOR slot + 1) = APP_SLOT_TO_SECTOR slot + 1) as ->
    by (apply wrap_small; unfold APP_SLOT_TO_SECTOR; destruct (_ =? _); by vm_compute).
  pose proof (fun s' => read_contents (APP_SLOT_TO_SECTOR slot + 1) 1 (b_dev k) s') as Hc.
  destruct (dev_read _ 1 (b_dev k)) as [[r bytes] d] eqn:Hrd. steps. split; [by constructor|].
  intros [Hr%bool_decide_eq_true Hm%Z.eqb_eq]%andb_true_iff. cbn [fst snd] in *. subst r.
  pose proof (read_ok _ 1 _ _ _ ltac:(lia) Hrd) as Hb. change (Z.to_nat 1) with 1%nat in Hb. cbn [sectors_of] in Hb.
  by rewrite app_nil_r in Hb; subst bytes.
Qed.

Lemma readback_spec (k : board D) : dfu_closed k ->
  returns (boot_validate_app (inactive_base m)) k (fun r k' => boot_frame k k' /\
    (reads_succeed (D := D) -> r = E_OK -> image_valid (contents (b_dev k)) (inactive_base m))).
Proof.
  intros Hcl. eapply returns_mono; [apply boot_validate_spec; [apply (dc_bufs _ Hcl)|]|].
  - pose proof (session_base_range false) as Hr. unfold session_base in Hr. lia.
  - intros r k' (Hf & _ & Hiff). split; [done|]. intros Hrd. by apply Hiff.
Qed.

(** From the read-back on. *)
Lemma dfu_verify_spec (s : session) (k : board D) : dfu_closed k -> is_self_update (b_dfu k) = false ->
  runs (active ← gets (fun b => active_app_slot (b_meta b));
    let new_slot := APP_SLOT_OTHER active in
    r ← boot_validate_app (APP_SLOT_TO_SECTOR new_slot);
    dfu_event DFU_EVT_READBACK_VALIDATE DFU_TARGET_APP (if decide (r = E_OK) then 1 else 0);;
    if decide (r <> E_OK) then
      say Messages.readback [];; refuse (mret DFU_TARGET_APP) DFU_ABORT_READBACK_FAILED s
    else
    marker_ok ← dfu_marker new_slot;
    dfu_event DFU_EVT_MARKER_CHECK DFU_TARGET_APP (if marker_ok : bool then 1 else 0);;
    if negb marker_ok then
      say Messages.no_marker [];; refuse (mret DFU_TARGET_APP) DFU_ABORT_MARKER_MISSING s
    else dfu_commit new_slot s) k (next_inv k) dfu_stop.
Proof.
  intros Hk Hself. rstep. rstep. rewrite (dc_meta _ Hk). cbv zeta. unfold dfu_event, btel, say.
  assert (forall k1, boot_frame k k1 -> forall s' k', next_inv k1 s' k' -> next_inv k s' k') as Hnext.
  { intros k1 Hf s' k' [Hs Hr]. split; [done|]. unfold rx_len in *. by rewrite (bf_rx _ _ Hf) in Hr. }
  rstep. eapply runs_mono; [apply runs_returns, readback_spec, Hk| |done]. intros r k1 [Hf1 Hval]. rstep. rstep.
  set (k2 := k1 <| b_tel ::= _ |>). assert (boot_frame k k2) as Hf2 by (etrans; [exact Hf1|apply btel_frame]).
  destruct (decide (r <> E_OK)).
  - rstep. rstep. set (k3 := k2 <| b_console ::= _ |>).
    assert (boot_frame k k3) as Hf3 by (etrans; [exact Hf2|apply say_frame]).
    eapply runs_mono; [apply (refuse_next _ _ s k3); [right; by eexists|apply (dfu_closed_frame k); done|done]| |done].
    intros s' k'. by apply Hnext.
  - rstep. eapply runs_mono; [apply runs_returns, dfu_marker_spec| |done]. intros ok k3 [Hf3 Hmark]. rstep. rstep.
    set (k4 := k3 <| b_tel ::= _ |>).
    assert (boot_frame k k4) as Hf4 by (etrans; [exact Hf2|]; etrans; [exact Hf3|apply btel_frame]).
    destruct ok; cbn [negb].
    + eapply runs_mono; [apply runs_returns, (dfu_commit_spec s k4); [by apply (dfu_closed_frame k)|by rewrite (bf_dfu _ _ Hf4)|]| |done].
      * intros Hrd. split; [|rewrite (bf_contents _ _ Hf4); rewrite <- (bf_contents _ _ Hf2); by apply Hmark].
        apply (image_valid_ext (contents (b_dev k))); [intros x _; apply (bf_contents _ _ Hf4)|]. apply Hval; [done|].
        by destruct (decide (r = E_OK)).
      * intros s' k'. by apply Hnext.
    + rstep. rstep. set (k5 := k4 <| b_console ::= _ |>).
      assert (boot_frame k k5) as Hf5 by (etrans; [exact Hf4|apply say_frame]).
      eapply runs_mono; [apply (refuse_next _ _ s k5); [right; by eexists|apply (dfu_closed_frame k); done|done]| |done].
      intros s' k'. by apply Hnext.
Qed.
(** The last, partial sector. *)
Lemma dfu_flush_spec (k : board D) : dfu_inv k -> started (b_dfu k) = true ->
  returns (v ← gets b_dfu;
    when (unwritten_sector v) (
      sector_store (current_sector_counter v) (replicate (Z.to_nat (SECTOR_SIZE - current_sector_counter v)) 0);;
      buf ← gets (fun b => dfu_sector (b_dfu b));
      emmc_write (u32 (dfu_base_sector v + sectors_written v)) buf;;
      mret tt)) k (fun _ k' => dfu_closed k' /\ is_self_update (b_dfu k') = is_self_update (b_dfu k) /\ rx_len k' = rx_len k).
Proof.
  intros Hi Hst. pose proof (dfu_closed_inv k Hi) as Hcl. destruct Hi as [H1 H2 H3 H4 H5 H6 H7]. rewrite Hst in H7.
  destruct H7 as (Hbase & Hsw & Hdisk). pose proof (session_base_range (is_self_update (b_dfu k))).
  pose proof (Zle_0_nat (length (b_rx k))) as Hrx. fold (rx_len k) in Hrx.
  steps. unfold when. destruct (unwritten_sector (b_dfu k)); [|by apply returns_ret].
  assert (sectors_written (b_dfu k) <= 1 + L / 512) as Hle.
  { enough (sectors_written (b_dfu k) - 1 <= L / 512) by lia. apply Z.div_le_lower_bound; lia. }
  assert (L / 512 < 2 ^ 22) by (apply Z.div_lt_upper_bound; lia).
  step. apply returns_store; [lia|rewrite length_replicate; unfold SECTOR_SIZE; lia|done|by apply Forall_replicate|].
  intros buf Hbuf _. steps. bsimpl. vsimpl. rewrite wrap_small by lia. apply returns_write; [apply Hbuf|].
  intros r d Hd. steps. split; [|done]. constructor; bsimpl; vsimpl; [done|done|by split|].
  intros x Hx. unfold in_region in Hx. rewrite Hd by lia. apply Hdisk. lia.
Qed.

Lemma dfu_finish_spec (s : session) (k : board D) :
  live s -> sess_inv s k -> runs (dfu_finish s) k (next_inv k) dfu_stop.
Proof.
  intros Hlive Hs. pose proof (sess_inv_live _ _ Hlive Hs) as Hi. pose proof (dfu_closed_inv _ Hi) as Hcl.
  unfold dfu_finish. rstep. destruct Hlive as [Hst | Hst]; unfold sess_inv in Hs; rewrite Hst in Hs.
  { destruct Hs as (_ & Hns & ->). cbn [read_local]. apply runs_stop. split; [by right; right; left|done]. }
  destruct Hs as (_ & Hstart & [ctx ->] & [expected ->]). cbn [read_local]. rstep. rstep. cbn [read_local]. rstep.
  dsteps.
  match goal with |- runs _ ?x _ _ => set (k1 := x) end.
  assert (dfu_inv k1) as Hi1 by (by apply (dfu_inv_ext k)).
  assert (rx_len k1 = rx_len k) as Hr1 by done.
  destruct (negb _); [apply refuse_next; [by left|exact (dfu_closed_inv _ Hi1)|by rewrite Hr1]|].
  assert (started (b_dfu k1) = true) as Hst1 by done. pose proof (dfu_flush_spec k1 Hi1 Hst1) as Hfl. clearbody k1. rstep. rstep.
  rstep. eapply runs_mono; [apply runs_returns; exact Hfl| |done]. intros [] k2 (Hf2 & Hself & Hr2).
  rstep. apply runs_when; intros Hw.
  - unfold uart_tx_raw, say, dfu_event, btel, hw, watchdog_trigger_reset, pm_write_wdog, pm_write_rstc, upd_wdt. rsteps.
    split; [right; right; right; split; [done|]; bsimpl; by rewrite Hself|]. by apply (dfu_closed_ext k2).
  - eapply runs_mono; [apply (dfu_verify_spec s k2 Hf2); by rewrite Hself| |done].
    intros s' k' [Hs' Hr']. split; [done|]. by rewrite <- Hr1, <- Hr2.
Qed.

Lemma dfu_command_spec (p : DFU_Packet) (s : session) (k : board D) :
  live s -> sess_inv s k -> packet_ok p -> room p k -> runs (dfu_command p s) k (next_inv k) dfu_stop.
Proof.
  intros Hlive Hs Hp Hr. unfold dfu_command. repeat case_match.
  - by apply dfu_start_spec.
  - by apply dfu_start_spec.
  - by apply dfu_data_spec.
  - apply refuse_next; [by left|by eapply dfu_closed_inv, sess_inv_live|done].
  - by apply dfu_finish_spec.
  - by apply runs_ret.
Qed.

(** How a session may end. *)
Definition dfu_result (r : StatusCode) (k : board D) : Prop :=
  (r = E_OK /\ dfu_committed k) \/ ((r = E_ABORTED \/ r = E_TIMED_OUT) /\ dfu_closed k).

Lemma dfu_loop_spec (fuel : nat) : forall (s : session) (k : board D),
  sess_inv s k -> rx_len k < Z.of_nat fuel ->
  runs (dfu_loop fuel s) k (fun r k' => dfu_result r k' /\ rx_len k' <= rx_len k) dfu_stop.
Proof.
  induction fuel as [|fuel IH]; intros s k Hs Hf; [unfold rx_len in Hf; lia|].
  assert (live s -> runs (rp ← dfu_packet_receive;
    if decide (rp.1 <> E_OK) then
      say Messages.timed_out [];;
      t ← telemetry_target;
      dfu_event DFU_EVT_ABORTED t (dfu_abort_code DFU_ABORT_TIMEOUT);;
      mret E_TIMED_OUT
    else s' ← dfu_command rp.2 s; dfu_loop fuel s') k
    (fun r k' => dfu_result r k' /\ rx_len k' <= rx_len k) dfu_stop) as Hgo.
  { intros Hlive. pose proof (sess_inv_live _ _ Hlive Hs) as Hi. rstep.
    eapply runs_mono; [apply dfu_packet_receive_spec| |].
    2: { intros w k' [Hw Hk']. split; [unfold session_stop; tauto|]. apply dfu_closed_inv. by apply (dfu_inv_rx k). }
    intros [r p] k' [Hk' Hr]. cbn [fst snd] in *. pose proof (dfu_inv_rx _ _ Hi Hk') as Hi'.
    destruct (decide (r <> E_OK)) as [Hne|Hne].
    - unfold say, telemetry_target, dfu_event, btel. rsteps. split; [right; split; [by right|]|apply Hk'].
      by apply (dfu_closed_ext k'); [apply dfu_closed_inv|..].
    - destruct Hr as [(_ & Hp & Hlen)|Hto]; [|destruct Hne; by rewrite Hto]. rstep.
      assert (b_dfu k' = b_dfu k) as Ed by (destruct Hk' as [E _]; by rewrite E).
      assert (sess_inv s k') as Hs'.
      { unfold sess_inv in *. destruct Hlive as [Hst | Hst]; rewrite Hst in Hs |- *; destruct Hs as [_ Hs];
          (split; [exact Hi'|by rewrite Ed]). }
      assert (room p k') as Hroom.
      { unfold room. rewrite Ed.
        pose proof (di_spent _ Hi). split; [lia|]. intros Hns. pose proof (di_disk _ Hi) as Hd. cbv zeta in Hd.
        rewrite Hns in Hd. destruct Hp. lia. }
      eapply runs_mono; [by apply dfu_command_spec| |done]. intros s' k2 [Hs2 Hr2].
      destruct Hp. rcall (IH s' k2 Hs2); [lia| |done]. intros r' k3 [Hr3 Hle]. split; [done|]. lia. }
  cbn [dfu_loop]. unfold live in Hgo. unfold sess_inv in Hs.
  destruct (ss_state s); [by apply Hgo; left|by apply Hgo; right| |].
  - apply runs_ret. split; [left; by split|lia].
  - apply runs_ret. split; [right; split; [by left|done]|lia].
Qed.
End session.

(** ** A whole session *)

Section receive.
Context {D : Type} `{BlockLaws D}.

(** Waiting for the trigger touches nothing a session protects. *)
Record waits (b k : board D) : Prop := {
  wt_contents : forall s, contents (b_dev k) s = contents (b_dev b) s;
  wt_meta : b_meta k = b_meta b;
  wt_flags : b_flags k = b_flags b;
  wt_dfu : b_dfu k = b_dfu b;
  wt_boot : b_boot_sector k = b_boot_sector b;
  wt_rx : rx_len k <= rx_len b
}.
#[local] Instance waits_preorder : PreOrder waits.
Proof. split; [by constructor|]. intros b1 b2 b3 [] []. constructor; congruence || lia. Qed.

Lemma waits_rx (b k : board D) : rx_only b k -> waits b k.
Proof. intros [E Hr]. constructor; try done; by rewrite E. Qed.

Lemma await_trigger_spec (fuel : nat) : forall b : board D, rx_len b < Z.of_nat fuel ->
  runs (await_trigger fuel) b (fun _ k => waits b k /\ rx_len k < rx_len b) (fun w k => w = Hang /\ b_rx k = [] /\ waits b k).
Proof.
  induction fuel as [|fuel IH]; intros b Hf; [unfold rx_len in Hf; lia|]. cbn [await_trigger]. rstep.
  rcall (uart_rx_spec b); [|intros w k (-> & Hrx & Hk); split_and!; [done..|by apply waits_rx]].
  intros v k (_ & Hk & Hlt). apply waits_rx in Hk. unfold dfu_trigger_feed, dfu_trigger_reset. rsteps.
  set (k1 := k <| b_shift := _ |>). assert (waits b k1) as Hk1 by (etrans; [exact Hk|by constructor]).
  destruct (_ =? _).
  - dstep. dstep. rstep. rstep. dstep. split; [etrans; [exact Hk1|by constructor]|exact Hlt].
  - rcall (IH k1); [change (rx_len k1) with (rx_len k); lia| |].
    + intros [] k' [Hk' Hlt']. split; [by etrans|]. change (rx_len k1) with (rx_len k) in Hlt'. lia.
    + intros w k' (-> & Hrx & Hk'). split_and!; [done..|by etrans].
Qed.

Lemma dfu_receive_spec (b : board D) : buffers_ok b -> rx_len b < 2 ^ 31 ->
  runs dfu_receive b
    (fun r k => dfu_result (contents (b_dev b)) (b_meta b) (b_flags b) (rx_len b) r k /\ rx_len k < rx_len b)
    (dfu_stop (contents (b_dev b)) (b_meta b) (b_flags b) (rx_len b)).
Proof.
  intros [Hbuf Hboot] HL. assert (0 <= rx_len b) as Hpos by (unfold rx_len; lia).
  unfold dfu_receive, dfu_init, upd_dfu, dfu_trigger_reset, dfu_event, btel. rsteps. bsimpl. vsimpl.
  match goal with |- runs _ ?x _ _ => set (b1 := x) end.
  assert (dfu_inv (contents (b_dev b)) (b_meta b) (b_flags b) (rx_len b) b1) as Hi1.
  { constructor; unfold b1; bsimpl; vsimpl; [done..|lia|unfold rx_len; bsimpl; lia|]. split_and!; done || lia. }
  assert (started (b_dfu b1) = false) as Hs1 by done. assert (rx_len b1 = rx_len b) as Hr1 by done. clearbody b1.
  rcall await_trigger_spec; [rewrite Hr1; unfold rx_len; lia| |].
  - intros [] k [[Wc Wm Wf Wd Wb Wr] Hlt]. rsteps. eapply runs_mono; [apply (dfu_loop_spec (contents (b_dev b)) (b_meta b) (b_flags b) (rx_len b)); [lia| |unfold rx_len; lia]| |done].
    2: { intros r k' [Hr Hle]. split; [done|]. lia. }
    unfold sess_inv. cbn [ss_state crc_ctx]. rewrite Wd. split; [|done].
    eapply dfu_inv_ext; [exact Hi1|done|done|done|by rewrite Wd|by rewrite Wb|done].
  - intros w k (-> & Hrx & [Wc Wm Wf Wd Wb Wr]). split; [by left|]. apply dfu_closed_inv.
    eapply dfu_inv_ext; [exact Hi1|done|done|done|by rewrite Wd|by rewrite Wb|done].
Qed.

(** C2: what a DFU session does, however it ends.  For any eMMC, any metadata
    and any input of fewer than 2^31 events, [dfu_receive] never runs for ever
    without waiting for a byte.  It returns E_OK only with the other slot
    active and on trial in the metadata, [fw_crc_ok] set, and the metadata
    sector written, unless the device refused that very write (the code ignores
    its status).  In every other case metadata and boot flags are as before:
    when it returns E_ABORTED or E_TIMED_OUT, when it waits for a byte that
    never comes, at the reset after a bootloader update, and at its two
    accesses outside C (a payload longer than the packet's array, and a
    CMD_FINISH before any CMD_START, which reads two locals never assigned).
    The sectors outside the image being received, a region of two sectors more
    than the input could fill, at the inactive slot or at the bootloader's own
    image, are never written, the metadata sector of a commit excepted. *)
Theorem dfu_receive_safe (b : board D) : buffers_ok b -> rx_len b < 2 ^ 31 ->
  runs dfu_receive b
    (fun r k =>
       if decide (r = E_OK) then dfu_committed (contents (b_dev b)) (b_meta b) (b_flags b) (rx_len b) k
       else (r = E_ABORTED \/ r = E_TIMED_OUT) /\ dfu_closed (contents (b_dev b)) (b_meta b) (b_flags b) (rx_len b) k)
    (fun w k =>
       session_stop w k /\ dfu_closed (contents (b_dev b)) (b_meta b) (b_flags b) (rx_len b) k).
Proof.
  intros Hb HL. rcall dfu_receive_spec; [done|done| |done]. intros r k [[[-> Hk]|[Hr Hk]] _].
  - by rewrite decide_True.
  - rewrite decide_False; [by split|]. by destruct Hr as [-> | ->].
Qed.

(** The slot that runs. *)
Definition active_base (m : WdtMeta) : Z := APP_SLOT_TO_SECTOR (active_app_slot m).
Definition slot_untouched (m : WdtMeta) (b k : board D) : Prop :=
  forall s, active_base m <= s < active_base m + EMMC_SECTOR_SIZE_APP -> contents (b_dev k) s = contents (b_dev b) s.

Definition slot_kept (b k : board D) : Prop := is_self_update (b_dfu k) = true \/ slot_untouched (b_meta b) b k.

Lemma region_misses_active (m : WdtMeta) (L s : Z) : L <= 512 * (EMMC_SECTOR_SIZE_APP - 2) ->
  active_base m <= s < active_base m + EMMC_SECTOR_SIZE_APP -> ~ in_region m L false s /\ s <> EMMC_SECTOR_METADATA.
Proof.
  intros HL Hs. assert (L / 512 <= 16382) as Hq by (apply Z.div_le_upper_bound; unfold EMMC_SECTOR_SIZE_APP in HL; lia).
  unfold in_region, session_base, inactive_base, active_base, APP_SLOT_TO_SECTOR, APP_SLOT_OTHER in *.
  unfold EMMC_SECTOR_METADATA, EMMC_SECTOR_APP_A, EMMC_SECTOR_APP_B, EMMC_FW_BASE, EMMC_SECTOR_SIZE_APP in *.
  destruct (active_app_slot m =? APP_SLOT_B); cbn -[Z.add Z.div] in *; lia.
Qed.

(** C14: an update never damages the application that is running.  If at most
    8 MiB less 1 KiB arrive, so that the image fits its slot, then however the
    session ends, and at whatever byte it is cut off, every sector of the
    active slot is untouched, unless the session updated the bootloader. *)
Theorem dfu_keeps_active_slot (b : board D) :
  buffers_ok b -> rx_len b <= 512 * (EMMC_SECTOR_SIZE_APP - 2) ->
  runs dfu_receive b (fun r k => r = E_OK \/ slot_kept b k) (fun _ k => slot_kept b k) /\
  runs dfu_receive b (fun r k => r = E_OK -> slot_untouched (b_meta b) b k) (fun _ _ => True).
Proof.
  intros Hb HL. assert (rx_len b < 2 ^ 31) as HL' by (unfold EMMC_SECTOR_SIZE_APP in HL; lia).
  assert (forall k, dfu_closed (contents (b_dev b)) (b_meta b) (b_flags b) (rx_len b) k -> slot_kept b k) as Hk.
  { intros k [_ _ _ Hd]. unfold slot_kept. destruct (is_self_update (b_dfu k)); [by left|right].
    intros s Hs. apply Hd. by apply region_misses_active. }
  split; (rcall dfu_receive_spec; [done|done| |]).
  - intros r k [[[-> _]|[_ Hc]] _]; [by left|right; by apply Hk].
  - intros w k [_ Hc]. by apply Hk.
  - intros r k [[[_ Hc]|[Hr _]] _] ->; [|by destruct Hr]. intros s Hs.
    apply (dk_disk _ _ _ _ _ Hc); by eapply region_misses_active.
  - done.
Qed.

(** C18: only a bootable image is committed.  On a disk whose reads succeed, a
    session of fewer than 2^31 events that returns E_OK leaves in the slot it
    made active (in the metadata in RAM) an image that the validation of the
    next boot accepts, with the marker of an application that can itself be
    recovered into DFU. *)
Theorem dfu_commits_bootable (b : board D) :
  reads_succeed (D := D) -> buffers_ok b -> rx_len b < 2 ^ 31 ->
  runs dfu_receive b (fun r k => r = E_OK ->
    active_app_slot (b_meta k) = APP_SLOT_OTHER (active_app_slot (b_meta b)) /\ app_slot_trial (b_meta k) = 1 /\
    trial_boot_count (b_meta k) = 0 /\ fw_crc_ok (b_flags k) = 1 /\
    image_valid (contents (b_dev k)) (APP_SLOT_TO_SECTOR (active_app_slot (b_meta k))) /\
    word_at (contents (b_dev k) (APP_SLOT_TO_SECTOR (active_app_slot (b_meta k)) + 1)) DFU_APP_MARKER_OFFSET = DFU_APP_MAGIC) (fun _ _ => True).
Proof.
  intros Hrd Hb HL. rcall dfu_receive_spec; [done|done| |done]. intros r k [[[_ Hc]|[Hr _]] _] ->; [|by destruct Hr].
  destruct Hc as [Hm Hf _ _ Him _]. destruct (Him Hrd) as [Hi Hmk]. rewrite Hm, Hf. by split_and!.
Qed.
End receive.

(** ** Example: a 36-byte image for slot B *)

(** What dfu_flash.py sends; the packet CRC is not checked. *)
Definition packet_bytes (cmd : Z) (data : list Z) : list Z :=
  [PACKET_SOF; cmd; byte (Z.of_nat (length data)) 1; byte (Z.of_nat (length data)) 0] ++ data ++ [0; 0; 0; 0; 0xBB].
Definition trigger_bytes : list Z := [0xDF; 0x00; 0xDF; 0x00].

Definition tiny_fw : list Z := replicate 32 0 ++ le32 DFU_APP_MAGIC.
Definition tiny_header : list Z := le32 1 ++ le32 36 ++ le32 (crc32_of tiny_fw).
Definition tiny_upload : list rx_event :=
  map RxByte (trigger_bytes ++ packet_bytes CMD_START tiny_header ++ packet_bytes CMD_DATA tiny_fw ++
              packet_bytes CMD_FINISH [0]).
Definition tiny_meta : WdtMeta := mkWdtMeta WDT_META_MAGIC 0 (-1) 0 0 APP_SLOT_A 0 0 0.
Definition tiny_board (rx : list rx_event) : board ram_disk :=
  board_start (mkDisk (fun _ => [])) tiny_meta (mkBootFlags BOOT_FLAGS_MAGIC 0 0 0) rx.

Lemma tiny_buffers (rx : list rx_event) : buffers_ok (tiny_board rx).
Proof. split; apply zero_sector_ok. Qed.

(** It is accepted... *)
Example tiny_upload_ok :
  match dfu_receive (tiny_board tiny_upload) with
  | Ret r k => (r, active_app_slot (b_meta k), b_tx k)
  | Stop _ _ => (E_ABORTED, 0, [])
  end = (E_OK, APP_SLOT_B, [DFU_ACK; DFU_ACK; DFU_ACK; DFU_ACK]).
Proof. vm_compute. reflexivity. Qed.

(** ...and cut off after any byte it times out or waits, harmlessly. *)
Definition cut_board : board ram_disk := tiny_board (take 60 tiny_upload).

Lemma cut_times_out : runs dfu_receive cut_board (fun r _ => r = E_TIMED_OUT) (fun _ _ => False).
Proof. vm_compute. reflexivity. Qed.

Lemma cut_short : rx_len cut_board < 2 ^ 31.
Proof. vm_compute. reflexivity. Qed.

Lemma dfu_receive_safe_witness :
  runs dfu_receive cut_board (fun r k => r = E_TIMED_OUT /\ b_meta k = tiny_meta) (fun _ _ => False).
Proof.
  eapply runs_mono; [exact (runs_and _ _ _ _ _ _ cut_times_out (dfu_receive_safe cut_board (tiny_buffers _) cut_short))| |].
  - intros r k [-> [_ Hc]]. split; [done|]. exact (dc_meta _ _ _ _ _ Hc).
  - by intros w k [Hf _].
Defined.

Definition tiny_session : board ram_disk := tiny_board tiny_upload.

Lemma tiny_short : rx_len tiny_session <= 512 * (EMMC_SECTOR_SIZE_APP - 2) /\ rx_len tiny_session < 2 ^ 31.
Proof. vm_compute. split; [discriminate|reflexivity]. Qed.

Lemma dfu_keeps_active_slot_witness :
  runs dfu_receive tiny_session (fun r k => r = E_OK -> slot_untouched (b_meta tiny_session) tiny_session k)
    (fun _ _ => True).
Proof. exact (proj2 (dfu_keeps_active_slot tiny_session (tiny_buffers _) (proj1 tiny_short))). Defined.

Lemma dfu_commits_bootable_witness :
  runs dfu_receive tiny_session (fun r k => r = E_OK -> app_slot_trial (b_meta k) = 1) (fun _ _ => True).
Proof.
  eapply runs_mono; [exact (dfu_commits_bootable tiny_session ram_reads (tiny_buffers _) (proj2 tiny_short))| |done].
  intros r k Hk Hr. exact (proj1 (proj2 (Hk Hr))).
Defined.

(** A CMD_FINISH before any CMD_START uses a CRC context that was never
    started. *)
Example finish_before_start_unset :
  match dfu_receive (tiny_board (map RxByte (trigger_bytes ++ packet_bytes CMD_FINISH [0]))) with
  | Ret _ _ => False | Stop w _ => w = Unset
  end.
Proof. vm_compute. reflexivity. Qed.

(** A length field over 256 makes the parser write past DATA. *)
Example long_packet_overruns :
  match dfu_receive (tiny_board (map RxByte (trigger_bytes ++ packet_bytes CMD_DATA (replicate 260 0)))) with
  | Ret _ _ => False | Stop w _ => w = Overrun
  end.
Proof. vm_compute. reflexivity. Qed.

(** A packet whose CRC field is wrong is accepted like any other. *)
Example packet_crc_ignored :
  match dfu_receive (tiny_board (map RxByte (trigger_bytes ++ packet_bytes CMD_START tiny_header ++
      [PACKET_SOF; CMD_DATA; 0; 36] ++ tiny_fw ++ [1; 2; 3; 4; 0xBB] ++ packet_bytes CMD_FINISH [0]))) with
  | Ret r _ => r = E_OK | Stop _ _ => False
  end.
Proof. vm_compute. reflexivity. Qed.
