(* ===== verification/Bootloader.v ===== *)
(** * The bootloader (source/samples/boot/bootloader/main.c)

    Its [kmain]: the boot flags and the metadata, the trial and tolerance
    policies, the DFU loop, and the jump.  The recovery window is modelled too
    ([kmain] does not call it); its loop ends when the system counter says so,
    hence the fuel it takes. *)

From Stdlib Require String.
From S2P Require Import Prelude Types Crc Telemetry Board Companion Watchdog Boot Dfu.

Definition NUM_RETRIES : Z := 10.

Module Messages.
Import String.
Definition window : string := "boot: recovery window open (100ms) - send DFU trigger to override\r\n".
Definition window_closed : string := "boot: recovery window closed\r\n".
Definition window_hit : string := "boot: DFU trigger received in recovery window\r\n".
Definition start : string := "\r\n\n-------------------Bootloader start, initializing components-------------------\r\n".
Definition uart_up : string := "uart initialized\r\n".
Definition jtag_up : string := "jtag initialized\r\n".
Definition flags_up : string := "boot flags initialized\r\n".
Definition emmc_failed : string := "emmc module initialization failed with exit code: (%d)\r\n".
Definition emmc_up : string := "emmc module initialized\r\n".
Definition warn_boot : string := "WARN: boot_init() returned non-OK\r\n".
Definition warn_dfu : string := "WARN: dfu_init() returned non-OK\r\n".
Definition warn_read : string := "WARN: wdt_meta_read() returned non-OK\r\n".
Definition warn_write : string := "WARN: wdt_meta_write() returned non-OK\r\n".
Definition boot_up : string := "boot module initialized\r\n".
Definition dfu_up : string := "dfu module initialized\r\n".
Definition init_done : string := "-------------------Done initializing components-------------------\r\n\n\n".
Definition checking : string := "\r\n\n-------------------Checking boot flags and WDG metadata-------------------\r\n".
Definition meta_loaded : string := "wdt meta loaded - active app slot %s%s\r\n".
Definition rollback : string := "boot: trial slot %s unconfirmed after %u boots - rolling back to %s\r\n".
Definition on_trial : string := "boot: active slot %s on trial, attempt %u/%u\r\n".
Definition wdt_reset : string := "boot: WDT reset #%u (tolerance=%d, policy=%u)\r\n".
Definition forcing : string := "boot: tolerance exceeded, forcing DFU\r\n".
Definition tol_rollback : string := "boot: tolerance exceeded, rolling back to slot %s\r\n".
Definition validated : string := "boot: validated active slot %s -> %s\r\n".
Definition warm : string := "warm boot: trusting preserved boot flags\r\n".
Definition check_done : string := "-------------------Done checking metadata-------------------\r\n".
Definition executing : string := "\r\n\n-------------------Bootloader executing-------------------\r\n".
Definition dfu_requested : string := "DFU requested! entering DFU recv loop...\r\n".
Definition no_app : string := "No valid app in active slot, entering DFU recv loop...\r\n".
Definition found : string := "Valid app found, loading active slot...\r\n".
Definition attempt : string := "boot: attempt failed (%d), %u retries left\r\n".
Definition exhausted : string := "boot: all retries exhausted, entering DFU recovery loop\r\n".
Definition retrying : string := "boot: DFU recovery failed, retrying\r\n".
End Messages.

Section bootloader.
Context {D : Type} `{BlockDevice D}.

Definition milestone (id : TelemetryBootMilestoneId) : Bd D unit :=
  btel (Telemetry.Boot.telemetry_report_boot_milestone id BOOT_STAGE_BOOTLOADER 0).

(** [uart_rx_nonblocking]: like a timed receive, it may find nothing. *)
Definition uart_rx_nonblocking : Bd D (option Z) := uart_rx_timed.

Fixpoint window_loop (fuel : nat) (start ticks : Z) : Bd D unit :=
  match fuel with
  | O => stop NoFuel
  | S fuel' =>
      now ← read_counter;
      if ticks <=? u64 (now - start) then
        upd_flags (fun f => f <| dfu_requested := DFU_REQUEST |>);;
        say Messages.window_closed []
      else
        r ← uart_rx_nonblocking;
        hit ← match r with Some byte => dfu_trigger_feed byte | None => mret false end;
        if hit : bool then
          say Messages.window_hit [];;
          upd_flags (fun f => f <| dfu_requested := DFU_REQUEST |>);;
          upd_flags (fun f => f <| reset_reason := RESET_REASON_SOFTWARE |>);;
          dfu_trigger_reset
        else window_loop fuel' start ticks
  end.

Definition bootloader_recovery_window (fuel : nat) : Bd D unit :=
  f ← gets b_flags;
  if dfu_requested f =? DFU_REQUEST then mret tt else
  say Messages.window [];;
  frq ← gets b_frq;
  start ← read_counter;
  let ticks := u64 (frq * 1000) / 1000 in
  dfu_trigger_reset;;
  window_loop fuel start ticks.

(** The bring-up at the start of [bootloader_init]. *)
Definition init_components : Bd D unit :=
  hw HwUartInit;;
  say Messages.start [];;
  say Messages.uart_up [];;
  hw HwTelemetryUartInit;;
  btel (Telemetry.Boot.telemetry_report_boot_stage_enter BOOT_STAGE_BOOTLOADER);;
  hw HwJtagInit;;
  say Messages.jtag_up [];;
  milestone BOOT_MS_JTAG_INIT_DONE;;
  boot_flags_init;;
  say Messages.flags_up [];;
  status ← emmc_init;
  (if decide (status <> E_OK) then
     say Messages.emmc_failed [status_code status];; milestone BOOT_MS_EMMC_INIT_FAILED
   else
     say Messages.emmc_up [];; milestone BOOT_MS_EMMC_INIT_DONE);;
  status_ok_or_warn Messages.warn_boot boot_init;;
  say Messages.boot_up [];;
  milestone BOOT_MS_BOOT_MODULE_INIT_DONE;;
  status_ok_or_warn Messages.warn_dfu dfu_init;;
  say Messages.dfu_up [];;
  milestone BOOT_MS_DFU_MODULE_INIT_DONE;;
  say Messages.init_done [].

Definition report_slot_state : Bd D unit :=
  m ← gets b_meta;
  btel (Telemetry.Boot.telemetry_report_boot_info_slot_state (if active_app_slot m =? APP_SLOT_B then 1 else 0)
          (u8 (app_slot_trial m)) (trial_boot_count m) (wdt_reset_count m) (wdt_reset_tolerance m)
          (u8 (wdt_reset_policy m)) (u8 (wdt_reset_reason m))).

(** The A/B trial resolution; the result says whether to revalidate. *)
Definition trial_resolution : Bd D bool :=
  m ← gets b_meta;
  if app_slot_trial m =? 0 then mret false else
  upd_meta (fun m => m <| trial_boot_count ::= fun n => u32 (n + 1) |>);;
  m ← gets b_meta;
  if APP_SLOT_TRIAL_MAX_ATTEMPTS <=? trial_boot_count m then
    let prev := APP_SLOT_OTHER (active_app_slot m) in
    say Messages.rollback [active_app_slot m; trial_boot_count m; prev];;
    milestone BOOT_MS_TRIAL_ROLLBACK;;
    upd_meta (fun m => m <| active_app_slot := prev |> <| app_slot_trial := 0 |> <| trial_boot_count := 0 |>);;
    mret true
  else
    say Messages.on_trial [active_app_slot m; trial_boot_count m; APP_SLOT_TRIAL_MAX_ATTEMPTS];;
    mret false.

(** The reset-tolerance policy. *)
Definition tolerance_policy : Bd D bool :=
  m ← gets b_meta;
  if (0 <=? wdt_reset_tolerance m) && (wdt_reset_tolerance m <? s32 (wdt_reset_count m)) then
    if wdt_reset_policy m =? WATCHDOG_RESET_POLICY_FORCE_UPDATE then
      say Messages.forcing [];;
      milestone BOOT_MS_TOLERANCE_EXCEEDED_FORCE_DFU;;
      upd_meta (fun m => m <| wdt_reset_count := 0 |>);;
      upd_flags (fun f => f <| dfu_requested := DFU_REQUEST |>);;
      upd_flags (fun f => f <| reset_reason := RESET_REASON_SOFTWARE |>);;
      mret false
    else if wdt_reset_policy m =? WATCHDOG_RESET_POLICY_ROLLBACK then
      let prev := APP_SLOT_OTHER (active_app_slot m) in
      say Messages.tol_rollback [prev];;
      milestone BOOT_MS_TOLERANCE_EXCEEDED_ROLLBACK;;
      upd_meta (fun m => m <| active_app_slot := prev |> <| app_slot_trial := 0 |> <| trial_boot_count := 0 |>
                           <| wdt_reset_count := 0 |>);;
      mret true
    else mret false
  else mret false.

(** Validating the active slot, or trusting the flags. *)
Definition revalidation (rv : bool) (slot : Z) : Bd D unit :=
  if rv then
    r ← boot_validate_app (APP_SLOT_TO_SECTOR slot);
    upd_flags (fun f => f <| fw_crc_ok := if decide (r = E_OK) then 1 else 0 |>);;
    f ← gets b_flags;
    say Messages.validated [slot; fw_crc_ok f]
  else say Messages.warm [].

Definition bootloader_init : Bd D unit :=
  init_components;;
  say Messages.checking [];;
  status_ok_or_warn Messages.warn_read wdt_meta_read;;
  m ← gets b_meta;
  say Messages.meta_loaded [active_app_slot m; app_slot_trial m];;
  report_slot_state;;
  reason ← gets (fun b => reset_reason (b_flags b));
  let revalidate := reason =? RESET_REASON_COLD in
  r1 ← trial_resolution;
  upd_meta (fun m => m <| wdt_reset_count ::= fun n => u32 (n + 1) |>);;
  m ← gets b_meta;
  say Messages.wdt_reset [wdt_reset_count m; wdt_reset_tolerance m; wdt_reset_policy m];;
  r2 ← tolerance_policy;
  slot ← gets (fun b => active_app_slot (b_meta b));
  revalidation (revalidate || r1 || r2) slot;;
  status_ok_or_warn Messages.warn_write wdt_meta_write;;
  f ← gets b_flags;
  btel (Telemetry.Boot.telemetry_report_boot_info_boot_flags (u8 (reset_reason f))
          (if dfu_requested f =? DFU_REQUEST then 1 else 0) (u8 (fw_crc_ok f)));;
  say Messages.check_done [].

(** After a DFU that returned E_OK. *)
Definition clear_reset_count : Bd D unit :=
  upd_meta (fun m => m <| wdt_reset_count := 0 |>);;
  status_ok_or_warn Messages.warn_write wdt_meta_write.

Definition bootloader_execute : Bd D StatusCode :=
  say Messages.executing [];;
  f ← gets b_flags;
  did_dfu ←
    (if dfu_requested f =? DFU_REQUEST then
       say Messages.dfu_requested [];;
       r ← dfu_receive;
       mret (if decide (r <> E_OK) then None else Some true)
     else if fw_crc_ok f =? 0 then
       say Messages.no_app [];;
       r ← dfu_receive;
       mret (if decide (r <> E_OK) then None else Some true)
     else
       say Messages.found [];;
       mret (Some false));
  match did_dfu with
  | None => mret E_ABORTED
  | Some did =>
      when did clear_reset_count;;
      slot ← gets (fun b => active_app_slot (b_meta b));
      ret ← boot_load_app (APP_SLOT_TO_SECTOR slot);
      if decide (ret <> E_OK) then mret ret else
      boot_jump_to_app (A := unit);;
      mret E_OK
  end.

(** The [while (1)] at the end of [kmain]. *)
Fixpoint recovery_loop (fuel : nat) : Bd D unit :=
  match fuel with
  | O => stop NoFuel
  | S fuel' =>
      r ← dfu_receive;
      (if decide (r = E_OK) then
         clear_reset_count;;
         slot ← gets (fun b => active_app_slot (b_meta b));
         boot_load_app (APP_SLOT_TO_SECTOR slot);;
         boot_jump_to_app (A := unit)
       else mret tt);;
      say Messages.retrying [];;
      recovery_loop fuel'
  end.

(** The [for] over the retries. *)
Fixpoint attempts (n : nat) : Bd D unit :=
  match n with
  | O => mret tt
  | S n' =>
      ret ← bootloader_execute;
      say Messages.attempt [status_code ret; Z.of_nat n'];;
      attempts n'
  end.

Definition kmain : Bd D unit :=
  bootloader_init;;
  attempts (Z.to_nat NUM_RETRIES);;
  say Messages.exhausted [];;
  milestone BOOT_MS_ALL_RETRIES_EXHAUSTED;;
  n ← gets (fun b => length (b_rx b));
  recovery_loop (S n).
End bootloader.

(** ** What [bootloader_init] decides, as a function of the metadata and the flags

    This is main.c's trial and tolerance code without its reports and without
    the disk; [bootloader_init_spec] proves the code equal to it.  The ROLLBACK
    branch is in the code, though watchdog.h (line 25) and watchdog/docs.md call
    that policy reserved and not implemented. *)

Definition flags_init (f : BootFlags) : BootFlags :=
  if boot_flags_valid f then f else mkBootFlags BOOT_FLAGS_MAGIC RESET_REASON_COLD 0 0.

Definition after_trial (m : WdtMeta) : WdtMeta * bool :=
  if app_slot_trial m =? 0 then (m, false) else
  let m1 := m <| trial_boot_count := u32 (trial_boot_count m + 1) |> in
  if APP_SLOT_TRIAL_MAX_ATTEMPTS <=? trial_boot_count m1
  then (m1 <| active_app_slot := APP_SLOT_OTHER (active_app_slot m) |> <| app_slot_trial := 0 |> <| trial_boot_count := 0 |>, true)
  else (m1, false).

Definition count_boot (m : WdtMeta) : WdtMeta := m <| wdt_reset_count := u32 (wdt_reset_count m + 1) |>.

Definition after_tolerance (m : WdtMeta) (f : BootFlags) : WdtMeta * BootFlags * bool :=
  if (0 <=? wdt_reset_tolerance m) && (wdt_reset_tolerance m <? s32 (wdt_reset_count m)) then
    if wdt_reset_policy m =? WATCHDOG_RESET_POLICY_FORCE_UPDATE then
      (m <| wdt_reset_count := 0 |>, f <| dfu_requested := DFU_REQUEST |> <| reset_reason := RESET_REASON_SOFTWARE |>, false)
    else if wdt_reset_policy m =? WATCHDOG_RESET_POLICY_ROLLBACK then
      (m <| active_app_slot := APP_SLOT_OTHER (active_app_slot m) |> <| app_slot_trial := 0 |> <| trial_boot_count := 0 |>
         <| wdt_reset_count := 0 |>, f, true)
    else (m, f, false)
  else (m, f, false).

(** Metadata, flags, and whether the active slot is validated again. *)
Definition boot_policy (m : WdtMeta) (f : BootFlags) : WdtMeta * BootFlags * bool :=
  let '(m1, r1) := after_trial m in
  let '(m3, f3, r3) := after_tolerance (count_boot m1) f in
  (m3, f3, (reset_reason f =? RESET_REASON_COLD) || r1 || r3).

(** What the metadata sector says. *)
Definition stored_meta (c : Z -> list Z) : WdtMeta :=
  if accepted (c EMMC_SECTOR_METADATA) then meta_of (c EMMC_SECTOR_METADATA) else wdt_meta_defaults.

(** ** The steps of [bootloader_init] *)

Section reports.
Context {D : Type}.

(** Only reports and calls to the other drivers were made. *)
Definition reported (b k : board D) : Prop :=
  exists t c h, k = b <| b_tel := t |> <| b_console := c |> <| b_hw := h |>.

Lemma reported_refl (b : board D) : reported b b.
Proof. exists (b_tel b), (b_console b), (b_hw b). by destruct b. Qed.

Lemma returns_say fmt (args : list Z) (b : board D) Q :
  (forall c, Q tt (b <| b_console := c |>)) -> returns (say fmt args) b Q.
Proof. intros HQ. apply HQ. Qed.
Lemma returns_btel f (b : board D) Q : (forall t, Q tt (b <| b_tel := t |>)) -> returns (btel f) b Q.
Proof. intros HQ. apply HQ. Qed.
Lemma returns_hw c (b : board D) Q : (forall h, Q tt (b <| b_hw := h |>)) -> returns (hw c) b Q.
Proof. intros HQ. apply HQ. Qed.
End reports.

(** One report or driver call; its effect is forgotten. *)
Ltac quiet :=
  lazymatch goal with
  | |- returns (_ ≫= _) _ _ => apply returns_bind
  | |- returns (say _ _) _ _ => apply returns_say; let c := fresh "c" in intros c
  | |- returns (btel _) _ _ => apply returns_btel; let t := fresh "t" in intros t
  | |- returns (milestone _) _ _ => apply returns_btel; let t := fresh "t" in intros t
  | |- returns (hw _) _ _ => apply returns_hw; let h := fresh "h" in intros h
  | |- returns (mret _) _ _ => apply returns_ret
  | |- returns (gets _) _ _ => apply returns_gets
  | |- returns (upd_meta _) _ _ => apply returns_modify
  | |- returns (upd_flags _) _ _ => apply returns_modify
  end; cbv beta; bsimpl.
Ltac quiets := repeat quiet.
Ltac msimpl :=
  cbn [wm_magic wdt_reset_count wdt_reset_tolerance wdt_reset_policy wdt_reset_reason active_app_slot app_slot_trial
       trial_boot_count wm_crc field_update].

Section steps.
Context {D : Type} `{BlockLaws D}.

Lemma trial_resolution_spec (b : board D) :
  returns trial_resolution b (fun rv k =>
    rv = (after_trial (b_meta b)).2 /\ reported (b <| b_meta := (after_trial (b_meta b)).1 |>) k).
Proof.
  unfold trial_resolution, after_trial. quiets. destruct (app_slot_trial (b_meta b) =? 0).
  { quiet. split; [done|]. destruct b. apply reported_refl. }
  quiets. msimpl. destruct (_ <=? _); quiets; (split; [done|by do 3 eexists]).
Qed.

Lemma tolerance_policy_spec (b : board D) :
  returns tolerance_policy b (fun rv k =>
    let r := after_tolerance (b_meta b) (b_flags b) in
    rv = r.2 /\ reported (b <| b_meta := r.1.1 |> <| b_flags := r.1.2 |>) k).
Proof.
  unfold tolerance_policy, after_tolerance. quiets. destruct (_ && _).
  2: { quiets. split; [done|]. destruct b. apply reported_refl. }
  destruct (_ =? _); [|destruct (_ =? _)]; quiets; (split; [done|]); [by do 3 eexists..|].
  destruct b. apply reported_refl.
Qed.

Lemma status_ok_or_warn_spec (w : String.string) (m : Bd D StatusCode) (b : board D) Q :
  returns m b (fun _ k => forall c, Q tt (k <| b_console := c |>)) -> returns (status_ok_or_warn w m) b Q.
Proof.
  intros Hm. unfold status_ok_or_warn. step. eapply returns_mono; [exact Hm|]. intros r k Hk. unfold when.
  case_match; [by apply returns_say|]. apply returns_ret. specialize (Hk (b_console k)). by destruct k.
Qed.

Lemma boot_flags_init_spec (b : board D) Q :
  Q tt (b <| b_flags := flags_init (b_flags b) |>) -> returns boot_flags_init b Q.
Proof.
  intros HQ. unfold boot_flags_init. step. step. unfold flags_init in HQ. unfold when.
  destruct (boot_flags_valid (b_flags b)); cbn [negb]; [apply returns_ret; by destruct b|].
  apply returns_modify. by destruct b as [? ? ? ? ? ? []].
Qed.

(** The bring-up: flags made valid, buffers and metadata alone. *)
Lemma init_components_spec (b : board D) :
  returns init_components b (fun _ k =>
    b_flags k = flags_init (b_flags b) /\ b_meta k = b_meta b /\ b_rx k = b_rx b /\
    (buffers_ok b -> buffers_ok k) /\ forall s, contents (b_dev k) s = contents (b_dev b) s).
Proof.
  unfold init_components. quiets. apply boot_flags_init_spec. bsimpl. quiets. unfold returns at 1, emmc_init. bsimpl.
  pose proof (init_contents (b_dev b)) as Hc. destruct (dev_init (b_dev b)) as [r d]. cbn [snd] in Hc.
  quiet. match goal with |- returns _ _ ?Q => assert (forall t c, Q tt (b <| b_dev := d |> <| b_flags := flags_init (b_flags b) |>
    <| b_tel := t |> <| b_console := c |> <| b_hw := h1 |>)) as HQ end.
  - intros t' c'. bsimpl. quiet. apply status_ok_or_warn_spec. unfold boot_init. step. step. step. intros c''. bsimpl.
    quiets. apply status_ok_or_warn_spec. unfold dfu_init, upd_dfu. step. step. step. intros cc. bsimpl. quiets.
    split_and!; [done|done|done|by intros [? ?]|exact Hc].
  - destruct (decide (r <> E_OK)); quiets; apply HQ.
Qed.
Definition writes_succeed : Prop := forall s bytes (d : D), EMMC_FIRMWARE_FLOOR <= s ->
  exists d', dev_write s bytes d = (E_OK, d').

(** What [bootloader_init] does to metadata, flags and disk. *)
Record init_result (b k : board D) (m0 : WdtMeta) : Prop := {
  ir_policy := boot_policy m0 (flags_init (b_flags b));
  ir_read : reads_succeed (D := D) -> m0 = stored_meta (contents (b_dev b));
  ir_meta : b_meta k = seal ir_policy.1.1;
  ir_flags : if ir_policy.2
             then exists ok, b_flags k = ir_policy.1.2 <| fw_crc_ok := ok |> /\ (ok = 0 \/ ok = 1) /\
                    (reads_succeed (D := D) -> ok = 1 <-> image_valid (contents (b_dev b)) (active_base ir_policy.1.1))
             else b_flags k = ir_policy.1.2;
  ir_rx : b_rx k = b_rx b;
  ir_bufs : buffers_ok k;
  ir_disk : forall s, s <> EMMC_SECTOR_METADATA -> contents (b_dev k) s = contents (b_dev b) s;
  ir_saved : writes_succeed -> contents (b_dev k) EMMC_SECTOR_METADATA = meta_sector (b_meta k)
}.

Lemma active_base_range (m : WdtMeta) : 0 <= active_base m < 2 ^ 31.
Proof. unfold active_base, APP_SLOT_TO_SECTOR. destruct (_ =? _); by vm_compute. Qed.

Lemma revalidation_spec (rv : bool) (b : board D) : buffers_ok b ->
  returns (revalidation rv (active_app_slot (b_meta b))) b (fun _ k =>
    b_meta k = b_meta b /\ b_rx k = b_rx b /\ buffers_ok k /\ (forall s, contents (b_dev k) s = contents (b_dev b) s) /\
    if rv then exists ok, b_flags k = (b_flags b) <| fw_crc_ok := ok |> /\ (ok = 0 \/ ok = 1) /\
                 (reads_succeed (D := D) -> ok = 1 <-> image_valid (contents (b_dev b)) (active_base (b_meta b)))
    else b_flags k = b_flags b).
Proof.
  intros [Hb1 Hb2]. unfold revalidation. destruct rv; [|by quiets].
  quiet. eapply returns_mono; [apply boot_validate_spec; [done|apply active_base_range]|].
  intros r k (Hf & _ & Hiff). quiets. destruct Hf. split_and!; [done|done| |done|].
  - split; bsimpl; [by rewrite bf_dfu|by apply bf_buf].
  - eexists. split; [by rewrite bf_flags|]. split; [destruct (decide (r = E_OK)); tauto|].
    intros Hrd. rewrite <- (Hiff Hrd). destruct (decide (r = E_OK)); split; done || lia.
Qed.

Lemma bootloader_init_spec (b : board D) : buffers_ok b ->
  returns bootloader_init b (fun _ k => exists m0, init_result b k m0).
Proof.
  intros Hbuf. unfold bootloader_init. step. eapply returns_mono; [apply init_components_spec|].
  intros [] k1 (Hf1 & Hm1 & Hr1 & Hb1 & Hc1). specialize (Hb1 Hbuf). quiets.
  apply status_ok_or_warn_spec.
  match goal with |- returns wdt_meta_read ?x _ => destruct (wdt_meta_read_eq x) as (r & d & buf & Hrd & Hcd & [bytes Hbytes] & _) end.
  unfold returns at 1. rewrite Hrd. clear Hrd. bsimpl.
  set (m0 := if decide (r <> E_OK) then _ else _). intros c0. quiets.
  unfold report_slot_state. quiets. eapply returns_mono; [apply trial_resolution_spec|]. bsimpl.
  intros r1 k2 [-> (tt2 & cc2 & hh2 & ->)]. bsimpl. quiets. eapply returns_mono; [apply tolerance_policy_spec|].
  bsimpl. cbv zeta. intros r3 k3 [-> (t3 & cc & hh & ->)]. bsimpl. quiets.
  change (mkWdtMeta _ _ _ _ _ _ _ _ _) with (count_boot (after_trial m0).1). rewrite Hf1.
  set (f0 := flags_init (b_flags b)) in *. set (tol := after_tolerance (count_boot (after_trial m0).1) f0).
  set (rv := _ || _ || _).
  assert (boot_policy m0 f0 = (tol.1.1, tol.1.2, rv)) as Hpol.
  { unfold boot_policy, rv, tol. destruct (after_trial m0) as [m1 b1]. cbn [fst snd].
    by destruct (after_tolerance (count_boot m1) f0) as [[? ?] ?]. }
  assert (reads_succeed (D := D) -> m0 = stored_meta (contents (b_dev b))) as Hm0.
  { intros Hrd. destruct (Hrd EMMC_SECTOR_METADATA 1 (b_dev k1) ltac:(lia)) as (bytes' & d' & Hrd').
    cbn [b_dev] in Hbytes. rewrite Hrd' in Hbytes. injection Hbytes as <- _ _. unfold m0. rewrite decide_False by tauto.
    unfold stored_meta. by rewrite Hc1. }
  assert (forall s, contents d s = contents (b_dev b) s) as Hd by (intros s; rewrite Hcd; apply Hc1).
  clearbody m0 tol rv. clear Hcd Hbytes.
  match goal with |- returns _ ?x _ => set (k4 := x) end.
  eapply returns_mono; [apply (revalidation_spec rv k4); exact Hb1|].
  intros [] k5 (Hm5 & Hr5 & Hb5 & Hc5 & Hf5). quiet. apply status_ok_or_warn_spec.
  unfold returns at 1. rewrite wdt_meta_write_eq. destruct (meta_sector_bytes (seal (b_meta k5))) as [Hsl Hsb].
  pose proof (fun s' => write_other EMMC_SECTOR_METADATA _ (b_dev k5) s' Hsl) as Hwo.
  pose proof (fun d' => write_ok EMMC_SECTOR_METADATA _ (b_dev k5) d' Hsl Hsb) as Hwr.
  destruct (dev_write _ _ (b_dev k5)) as [wr d5] eqn:Hdw. bsimpl. intros c5. quiets. exists m0.
  unfold f0 in Hpol. constructor; rewrite ?Hpol; cbn [fst snd]; bsimpl; try done.
  - by rewrite Hm5.
  - destruct rv; [|by rewrite Hf5]. destruct Hf5 as (ok & -> & Hok & Hv). exists ok. split; [done|]. split; [done|].
    intros Hrd. rewrite (Hv Hrd). unfold k4. bsimpl. split; apply image_valid_ext; intros x _; bsimpl; by rewrite Hd.
  - by rewrite Hr5.
  - intros s Hs. cbn [snd] in Hwo. rewrite Hwo by done. rewrite Hc5. unfold k4. bsimpl. by rewrite Hd.
  - intros Hws. destruct (Hws EMMC_SECTOR_METADATA (meta_sector (seal (b_meta k5))) (b_dev k5)) as [d6 Hd6]; [by vm_compute|].
    rewrite Hdw in Hd6. injection Hd6 as -> ->. by apply Hwr.
Qed.
(** What [bootloader_init] decides, as one function.  On a disk that works,
    [bootloader_init] reads the stored metadata (the defaults if the sector is
    not a valid record), applies [boot_policy] to them and to the boot flags
    (cold ones if the magic is lost), writes the result out under a fresh CRC
    and touches no other sector.  The active slot's image is validated exactly
    on a cold boot or after a rollback, and fw_crc_ok then says whether it is
    valid; otherwise the flag is kept. *)
Theorem bootloader_init_policy (b : board D) :
  reads_succeed (D := D) -> writes_succeed -> buffers_ok b ->
  returns bootloader_init b (fun _ k =>
    let '(m, f, rv) := boot_policy (stored_meta (contents (b_dev b))) (flags_init (b_flags b)) in
    b_meta k = seal m /\ contents (b_dev k) EMMC_SECTOR_METADATA = meta_sector (seal m) /\
    (forall s, s <> EMMC_SECTOR_METADATA -> contents (b_dev k) s = contents (b_dev b) s) /\
    if rv : bool then
      (fw_crc_ok (b_flags k) = 1 <-> image_valid (contents (b_dev b)) (active_base m)) /\
      (fw_crc_ok (b_flags k) = 0 \/ fw_crc_ok (b_flags k) = 1) /\
      dfu_requested (b_flags k) = dfu_requested f /\ reset_reason (b_flags k) = reset_reason f
    else b_flags k = f).
Proof.
  intros Hrd Hws Hb. eapply returns_mono; [by apply bootloader_init_spec|]. intros [] k [m0 Hr].
  destruct Hr as [pol Hm0 Hm Hf _ _ Hd Hs]. specialize (Hm0 Hrd). unfold pol in *. clear pol. subst m0.
  destruct (boot_policy (stored_meta (contents (b_dev b))) (flags_init (b_flags b))) as [[m f] rv]. cbn [fst snd] in *.
  split_and!; [done|rewrite <- Hm; by apply Hs|done|].
  destruct rv; [|done]. destruct Hf as (ok & -> & Hok & Hv). cbn. split_and!; [by apply Hv|done|done|done].
Qed.

(** ** Trial boots *)

Lemma stored_sealed (c : Z -> list Z) (m : WdtMeta) : meta_ok m -> c EMMC_SECTOR_METADATA = meta_sector (seal m) ->
  stored_meta c = seal m.
Proof. intros Hm Hc. unfold stored_meta. rewrite Hc, accepted_sector by done. by apply meta_of_sector, seal_ok. Qed.

(** What the trial logic looks at. *)
Definition trial_state (m : WdtMeta) (slot trial count : Z) : Prop :=
  meta_ok m /\ active_app_slot m = slot /\ app_slot_trial m = trial /\ trial_boot_count m = count /\
  wdt_reset_tolerance m < 0.

Lemma trial_state_seal (m : WdtMeta) slot trial count : trial_state m slot trial count -> trial_state (seal m) slot trial count.
Proof. intros (Hm & H1). split; [by apply seal_ok|exact H1]. Qed.

Lemma slot_other_range (slot : Z) : 0 <= APP_SLOT_OTHER slot < 2 ^ 32.
Proof. unfold APP_SLOT_OTHER. destruct (_ =? _); by vm_compute. Qed.

Lemma policy_on_trial (m : WdtMeta) (f : BootFlags) (slot trial count : Z) :
  trial_state m slot trial count -> trial <> 0 -> 0 <= count < 3 ->
  let m' := (boot_policy m f).1.1 in
  if decide (count = 2) then trial_state m' (APP_SLOT_OTHER slot) 0 0 else trial_state m' slot trial (count + 1).
Proof.
  intros (Hm & Ha & Ht & Hc & Htol) Hne Hcount. unfold boot_policy, after_trial, APP_SLOT_TRIAL_MAX_ATTEMPTS.
  rewrite (proj2 (Z.eqb_neq _ _)) by lia. rewrite Hc, wrap_small by lia. msimpl.
  unfold after_tolerance. pose proof (slot_other_range slot). pose proof (wrap_range 32 (wdt_reset_count m + 1) ltac:(lia)).
  unfold meta_ok in Hm.
  destruct (Z.leb_spec 3 (count + 1)); unfold count_boot; msimpl; (rewrite (proj2 (Z.leb_gt _ _)) by lia); cbn [andb fst];
    [rewrite decide_True by lia|rewrite decide_False by lia]; unfold trial_state, meta_ok; msimpl; rewrite ?Ha in *; intuition lia.
Qed.

Definition same_metadata (k b : board D) : Prop :=
  contents (b_dev b) EMMC_SECTOR_METADATA = contents (b_dev k) EMMC_SECTOR_METADATA.

Lemma boot_on_trial (b : board D) (m : WdtMeta) (slot trial count : Z) :
  reads_succeed (D := D) -> writes_succeed -> buffers_ok b ->
  contents (b_dev b) EMMC_SECTOR_METADATA = meta_sector (seal m) -> trial_state m slot trial count -> trial <> 0 -> 0 <= count < 3 ->
  returns bootloader_init b (fun _ k => exists m',
    contents (b_dev k) EMMC_SECTOR_METADATA = meta_sector (seal m') /\ b_meta k = seal m' /\
    if decide (count = 2) then trial_state m' (APP_SLOT_OTHER slot) 0 0 else trial_state m' slot trial (count + 1)).
Proof.
  intros Hrd Hws Hb Hc Hst Hne Hcount. eapply returns_mono; [by apply bootloader_init_spec|]. intros [] k [m0 Hr].
  destruct Hr as [pol Hm0 Hm _ _ _ _ Hs]. specialize (Hm0 Hrd). rewrite (stored_sealed _ m) in Hm0 by (done || apply Hst).
  exists pol.1.1. split_and!; [rewrite <- Hm; by apply Hs|done|]. unfold pol. rewrite Hm0.
  by apply policy_on_trial; [apply trial_state_seal| |].
Qed.

(** C29: an application that never confirms itself is given three boots, the
    third of which rolls back.  On a device whose reads and writes succeed, from
    stored metadata that put a slot on trial (and no tolerance policy), any first and second boot keep the slot, and
    the third one, whatever happened to the RAM in between, makes the other
    slot active and ends the trial. *)
Theorem unconfirmed_trial_rolls_back (b1 : board D) (m : WdtMeta) (slot trial : Z) :
  reads_succeed (D := D) -> writes_succeed -> buffers_ok b1 ->
  contents (b_dev b1) EMMC_SECTOR_METADATA = meta_sector (seal m) -> trial_state m slot trial 0 -> trial <> 0 ->
  returns bootloader_init b1 (fun _ k1 => active_app_slot (b_meta k1) = slot /\
    forall b2, same_metadata k1 b2 -> buffers_ok b2 -> returns bootloader_init b2 (fun _ k2 =>
      active_app_slot (b_meta k2) = slot /\
      forall b3, same_metadata k2 b3 -> buffers_ok b3 -> returns bootloader_init b3 (fun _ k3 =>
        active_app_slot (b_meta k3) = APP_SLOT_OTHER slot /\ app_slot_trial (b_meta k3) = 0))).
Proof.
  intros Hrd Hws Hb Hc Hst Hne. eapply returns_mono; [apply (boot_on_trial b1 m slot trial 0); (done || lia)|].
  intros [] k1 (m1 & Hc1 & Hm1 & Hst1). rewrite decide_False in Hst1 by lia. split; [rewrite Hm1; apply Hst1|].
  intros b2 Hb2 Hbuf2. eapply returns_mono; [eapply (boot_on_trial b2 m1 slot trial 1); [done|done|done|by rewrite Hb2|exact Hst1|done|lia]|].
  intros [] k2 (m2 & Hc2 & Hm2 & Hst2). rewrite decide_False in Hst2 by lia. split; [rewrite Hm2; apply Hst2|].
  intros b3 Hb3 Hbuf3. eapply returns_mono; [eapply (boot_on_trial b3 m2 slot trial 2); [done|done|done|by rewrite Hb3|exact Hst2|done|lia]|].
  intros [] k3 (m3 & _ & Hm3 & Hst3). rewrite decide_True in Hst3 by lia. rewrite Hm3. destruct Hst3 as (_ & ? & ? & _).
  by split.
Qed.

(** ** To the application

    The state of a board that has just jumped: the RAM holds the image of the
    active slot, and that image is valid. *)
Definition booted (k : board D) : Prop :=
  reads_succeed (D := D) ->
  let c := contents (b_dev k) in let s := active_base (b_meta k) in
  image_valid c s /\
  (fw_length (header c s) <= 512 * 65535 -> ram_holds (b_ram k) APP_START_ADDR (firmware c s (fw_length (header c s)))).
Definition boot_stop (w : stop_reason) (k : board D) : Prop :=
  session_stop w k \/ (w = Jump APP_START_ADDR /\ booted k).

Lemma jump_spec {A} (b : board D) : booted b ->
  runs (boot_jump_to_app (A := A)) b (fun _ _ => False) boot_stop.
Proof.
  intros Hb. unfold boot_jump_to_app, say, btel, hw. rsteps. right. split; [done|]. exact Hb.
Qed.

Lemma boot_load_spec (s : Z) (b : board D) : sector_ok (b_boot_sector b) -> 0 <= s < 2 ^ 31 ->
  returns (boot_load_app s) b (fun r k => r = E_OK /\ load_frame b k /\
    (reads_succeed (D := D) -> let h := header (contents (b_dev b)) s in fw_length h <= 512 * 65535 ->
     ram_holds (b_ram k) APP_START_ADDR (firmware (contents (b_dev b)) s (fw_length h)))).
Proof.
  intros Hok Hs. pose proof (boot_load_frame s b Hok) as Hfr.
  assert (reads_succeed (D := D) -> fw_length (header (contents (b_dev b)) s) <= 512 * 65535 ->
    returns (boot_load_app s) b (fun _ k =>
      ram_holds (b_ram k) APP_START_ADDR (firmware (contents (b_dev b)) s (fw_length (header (contents (b_dev b)) s))))) as Hld.
  { intros Hrd Hl. eapply returns_mono; [by apply (boot_load_app_loads Hrd)|]. by intros r k (_ & Hram & _). }
  unfold returns in *. destruct (boot_load_app s b); [|done]. destruct Hfr. by split_and!.
Qed.

Definition image_good (b : board D) : Prop :=
  reads_succeed (D := D) -> image_valid (contents (b_dev b)) (active_base (b_meta b)).

Lemma image_header_ext (c c' : Z -> list Z) (s len : Z) : (forall x, c' x = c x) ->
  header c' s = header c s /\ firmware c' s len = firmware c s len.
Proof. intros He. unfold header, firmware. rewrite He. by rewrite (sectors_ext c c'). Qed.

Lemma load_booted (b : board D) : buffers_ok b -> image_good b ->
  returns (boot_load_app (APP_SLOT_TO_SECTOR (active_app_slot (b_meta b)))) b (fun r k => r = E_OK /\ booted k).
Proof.
  intros [_ Hb] Hg. eapply returns_mono; [apply boot_load_spec; [done|apply (active_base_range (b_meta b))]|].
  intros r k' (-> & (Hc & Hm & _) & Hram). split; [done|]. intros Hrd. cbv zeta. rewrite Hm.
  set (s := active_base (b_meta b)) in *. split; [apply (image_valid_ext (contents (b_dev b))); [done|by apply Hg]|].
  destruct (image_header_ext _ _ s (fw_length (header (contents (b_dev b)) s)) Hc) as [-> ->]. by apply Hram.
Qed.

Lemma clear_reset_count_spec (b : board D) : returns clear_reset_count b (fun _ k =>
  b_flags k = b_flags b /\ b_rx k = b_rx b /\ (buffers_ok b -> buffers_ok k) /\
  active_app_slot (b_meta k) = active_app_slot (b_meta b) /\
  forall s, s <> EMMC_SECTOR_METADATA -> contents (b_dev k) s = contents (b_dev b) s).
Proof.
  unfold clear_reset_count. quiets. apply status_ok_or_warn_spec. unfold returns at 1. rewrite wdt_meta_write_eq. bsimpl.
  match goal with |- context [meta_sector (seal ?m)] => set (sm := seal m) end.
  assert (active_app_slot sm = active_app_slot (b_meta b)) as Hs by done. clearbody sm.
  destruct (meta_sector_bytes sm) as [Hsl Hsb]. pose proof (fun s' => write_other EMMC_SECTOR_METADATA _ (b_dev b) s' Hsl) as Hwo.
  destruct (dev_write _ _ (b_dev b)) as [wr d]. bsimpl. intros c. by split_and!.
Qed.

Lemma metadata_below (m : WdtMeta) (s : Z) : active_base m <= s -> s <> EMMC_SECTOR_METADATA.
Proof. intros Hs ->. revert Hs. unfold active_base, APP_SLOT_TO_SECTOR. destruct (_ =? _); by vm_compute. Qed.

(** A session a boot runs, and the booting of what it committed. *)
Definition kept (b k : board D) : Prop := b_flags k = b_flags b /\ buffers_ok k /\ rx_len k < rx_len b.

Lemma session_spec (b : board D) : buffers_ok b -> rx_len b < 2 ^ 31 ->
  runs dfu_receive b (fun r k => if decide (r = E_OK) then buffers_ok k /\ image_good k else kept b k) boot_stop.
Proof.
  intros Hb HL. rcall dfu_receive_spec; [done|done| |].
  - intros r k [[[-> Hk]|[Hr Hk]] Hlt].
    + rewrite decide_True by done. destruct Hk as [Hm _ Hbk _ Him _]. split; [done|]. intros Hrd. unfold active_base. rewrite Hm.
      by destruct (Him Hrd).
    + rewrite decide_False by (by destruct Hr as [-> | ->]). destruct Hk. by split_and!.
  - intros w k [Hw _]. by left.
Qed.

Lemma image_good_ext (b k : board D) : active_app_slot (b_meta k) = active_app_slot (b_meta b) ->
  (forall s, s <> EMMC_SECTOR_METADATA -> contents (b_dev k) s = contents (b_dev b) s) -> image_good b -> image_good k.
Proof.
  intros Ha Hc Hg Hrd. assert (active_base (b_meta k) = active_base (b_meta b)) as -> by (unfold active_base; by rewrite Ha).
  apply (image_valid_ext (contents (b_dev b))); [|by apply Hg]. intros x Hx. apply Hc. by eapply metadata_below.
Qed.

(** After a session that returned E_OK. *)
Lemma boot_committed {A} (b : board D) (m : StatusCode -> Bd D A) Q : buffers_ok b -> image_good b ->
  (forall k, booted k -> runs (m E_OK) k Q boot_stop) ->
  runs (clear_reset_count;; slot ← gets (fun b => active_app_slot (b_meta b)); ret ← boot_load_app (APP_SLOT_TO_SECTOR slot); m ret)
    b Q boot_stop.
Proof.
  intros Hb Hg Hm. rstep. apply runs_returns. eapply returns_mono; [apply clear_reset_count_spec|].
  intros [] k (_ & _ & Hbk & Ha & Hc). rsteps. apply runs_returns.
  eapply returns_mono; [apply load_booted; [by apply Hbk|by eapply image_good_ext]|]. intros r k' [-> Hk']. by apply Hm.
Qed.

(** Every attempt but the first finds the flags that send it to DFU. *)
Definition needs_dfu (b : board D) : Prop := dfu_requested (b_flags b) = DFU_REQUEST \/ fw_crc_ok (b_flags b) = 0.

Lemma execute_spec (b : board D) : buffers_ok b -> rx_len b < 2 ^ 31 -> (needs_dfu b \/ image_good b) ->
  runs bootloader_execute b (fun _ k => needs_dfu k /\ buffers_ok k /\ rx_len k < rx_len b) boot_stop.
Proof.
  intros Hb HL Hh. unfold bootloader_execute. rstep. apply runs_returns, returns_say. intros c. bsimpl. rsteps. bsimpl.
  match goal with |- runs _ ?x _ _ => set (b1 := x) end.
  assert (buffers_ok b1) as Hb1 by exact Hb.
  match goal with |- runs _ _ ?post _ => set (Q := post) end.
  assert (forall w : String.string, needs_dfu b ->
    runs (say w [];; r ← dfu_receive; mret (if decide (r <> E_OK) then None else Some true)) b1 Q boot_stop) as Hdfu.
  { intros w Hn. rstep. apply runs_returns, returns_say. intros c2. bsimpl. rstep.
    rcall session_spec; [exact Hb|exact HL| |done]. intros r k Hk. rstep. unfold Q. destruct (decide (r = E_OK)) as [->|Hr].
    - rewrite decide_False by tauto. destruct Hk as [Hk1 Hk2]. cbn [when]. apply (boot_committed k
        (fun ret => if decide (ret <> E_OK) then mret ret else boot_jump_to_app (A := unit);; mret E_OK)); [done|done|].
      intros k' Hk'. rewrite decide_False by tauto. rstep. eapply runs_mono; [by apply jump_spec|by intros ? ?|done].
    - rewrite decide_True by done. rsteps. destruct Hk as (Hf & Hbk & Hlt). unfold needs_dfu. rewrite Hf. by split_and!. }
  destruct (Z.eqb_spec (dfu_requested (b_flags b)) DFU_REQUEST) as [He|Hne]; [apply Hdfu; by left|].
  destruct (Z.eqb_spec (fw_crc_ok (b_flags b)) 0) as [He|Hne2]; [apply Hdfu; by right|]. clear Hdfu.
  destruct Hh as [[?|?]|Hg]; [done|done|]. rstep. apply runs_returns, returns_say. intros c2. bsimpl. rstep. unfold Q. cbn [when].
  rsteps. apply runs_returns. eapply returns_mono; [apply load_booted; done|]. intros r k [-> Hk].
  rewrite decide_False by tauto. rstep. eapply runs_mono; [by apply jump_spec|by intros ? ?|done].
Qed.

Lemma attempts_spec (n : nat) : forall b, buffers_ok b -> rx_len b < 2 ^ 31 -> (needs_dfu b \/ image_good b) ->
  runs (attempts n) b (fun _ k => buffers_ok k /\ rx_len k <= rx_len b) boot_stop.
Proof.
  induction n as [|n IH]; intros b Hb HL Hh; cbn [attempts]; [by apply runs_ret|].
  rstep. rcall execute_spec; [done|done|done| |done]. intros r k (Hn & Hbk & Hlt). rstep.
  apply runs_returns, returns_say. intros c. bsimpl.
  rcall IH; [exact Hbk|unfold rx_len in *; bsimpl; lia|by left| |done]. intros [] k' [? Hle]. split; [done|].
  unfold rx_len in *. revert Hle. bsimpl. lia.
Qed.

Lemma recovery_spec (fuel : nat) : forall b, buffers_ok b -> rx_len b < 2 ^ 31 -> rx_len b < Z.of_nat fuel ->
  runs (recovery_loop fuel) b (fun _ _ => False) boot_stop.
Proof.
  induction fuel as [|fuel IH]; intros b Hb HL Hf; cbn [recovery_loop]; [unfold rx_len in Hf; lia|].
  rstep. rcall session_spec; [done|done| |done]. intros r k Hk. rstep. destruct (decide (r = E_OK)) as [->|Hr].
  - destruct Hk as [Hk1 Hk2]. apply (boot_committed k (fun _ => boot_jump_to_app (A := unit))); [done|done|].
    intros k' Hk'. eapply runs_mono; [by apply jump_spec|by intros ? ?|done].
  - destruct Hk as (_ & Hbk & Hlt). rstep. rstep. apply runs_returns, returns_say. intros c. bsimpl.
    apply IH; [exact Hbk|unfold rx_len in *; bsimpl; lia|unfold rx_len in *; bsimpl; lia].
Qed.

(** What a warm boot takes on trust: the flag the last boot (or DFU) left. *)
Definition flags_honest (b : board D) : Prop :=
  reads_succeed (D := D) -> boot_flags_valid (b_flags b) = true -> reset_reason (b_flags b) <> RESET_REASON_COLD ->
  fw_crc_ok (b_flags b) <> 0 -> image_valid (contents (b_dev b)) (active_base (stored_meta (contents (b_dev b)))).

(** Without a revalidation the slot and the verdict are the stored ones. *)
Lemma policy_trusts (m : WdtMeta) (f : BootFlags) : let '(m', f', rv) := boot_policy m f in
  rv = false -> reset_reason f <> RESET_REASON_COLD /\ active_app_slot m' = active_app_slot m /\ fw_crc_ok f' = fw_crc_ok f.
Proof.
  unfold boot_policy, after_trial, after_tolerance, count_boot. destruct m, f. msimpl.
  repeat case_match; simplify_eq; msimpl; rewrite ?orb_true_r, ?orb_false_r; try done; intros Hr; apply Z.eqb_neq in Hr; done.
Qed.

Lemma init_honest (b k : board D) (m0 : WdtMeta) : init_result b k m0 -> flags_honest b -> needs_dfu k \/ image_good k.
Proof.
  intros [pol Hm0 Hm Hf _ _ Hd _] Hh. pose proof (policy_trusts m0 (flags_init (b_flags b))) as Ht. unfold pol in *. clear pol.
  destruct (boot_policy m0 (flags_init (b_flags b))) as [[m f] rv]. cbn [fst snd] in *.
  assert (active_base (b_meta k) = active_base m) as Ha by (unfold active_base; by rewrite Hm).
  assert (image_valid (contents (b_dev b)) (active_base m) -> image_valid (contents (b_dev k)) (active_base (b_meta k))) as Hext.
  { rewrite Ha. apply image_valid_ext. intros x Hx. apply Hd. by eapply metadata_below. }
  destruct rv.
  - destruct Hf as (ok & Hk & [-> | ->] & Hv); [left; right; by rewrite Hk|right]. intros Hrd. apply Hext. by apply Hv.
  - destruct Ht as (Hr & Hs & Hok); [done|]. destruct (decide (fw_crc_ok (b_flags k) = 0)); [left; by right|right].
    intros Hrd. apply Hext. unfold active_base. rewrite Hs, (Hm0 Hrd). unfold flags_init in *.
    rewrite Hf, Hok in n. destruct (boot_flags_valid (b_flags b)) eqn:Hv; [by apply Hh|done].
Qed.

Lemma kmain_spec (b : board D) :
  buffers_ok b -> rx_len b < 2 ^ 31 -> flags_honest b ->
  runs kmain b (fun _ _ => False) boot_stop.
Proof.
  intros Hb HL Hh. unfold kmain. rstep. apply runs_returns. eapply returns_mono; [by apply bootloader_init_spec|].
  intros [] k [m0 Hr]. pose proof (init_honest _ _ _ Hr Hh) as Hn. destruct Hr as [_ _ _ _ Hrx Hbk _ _].
  assert (rx_len k = rx_len b) as Hrl by (unfold rx_len; by rewrite Hrx).
  rstep. rcall attempts_spec; [done|lia|done| |done]. intros [] k2 [Hb2 Hle]. rstep.
  apply runs_returns, returns_say. intros c. rstep. apply runs_returns, returns_btel. intros t. bsimpl. rsteps.
  apply recovery_spec; [exact Hb2|unfold rx_len in *; bsimpl; lia|unfold rx_len; bsimpl; lia].
Qed.

(** C1: the bootloader boots only what is valid, and never stops trying.
    From any board whose warm-boot verdict is true ([flags_honest]: [fw_crc_ok]
    is set in RAM only if the stored active slot is valid), any eMMC and any
    input of fewer than 2^31 events, [kmain] does not return and does not spin.
    It jumps, waits for a byte when the input is over, or ends inside an upload
    in one of the three ways [session_stop] lists: the reset after a bootloader
    update, a payload that runs past the packet's array, or a CMD_FINISH before
    any CMD_START, the two accesses outside C that an upload can provoke.  If it
    jumps, it is to APP_START_ADDR, and then, if every read of the eMMC
    succeeds, the metadata name a slot with a valid image, whose bytes are in
    RAM from there on if they are at most 512 * 65535 (a slot is 8 MiB). *)
Theorem kmain_boots_valid (b : board D) :
  buffers_ok b -> rx_len b < 2 ^ 31 -> flags_honest b ->
  runs kmain b (fun _ _ => False) boot_stop.
Proof. apply kmain_spec. Qed.
End steps.

(** ** Examples *)

Lemma ram_writes : writes_succeed (D := ram_disk).
Proof.
  intros s bytes d Hs. exists (mkDisk (<[s := bytes]> (disk_sectors d))). cbn. by rewrite (proj2 (Z.ltb_ge _ _)) by lia.
Qed.

Lemma image_buffers : buffers_ok image_board.
Proof. split; apply zero_sector_ok. Qed.

Lemma image_rx : rx_len image_board < 2 ^ 31.
Proof. vm_compute. reflexivity. Qed.

(** A cold board: there is no verdict to trust. *)
Lemma image_honest : flags_honest image_board.
Proof. intros _ Hv. discriminate Hv. Qed.

Lemma image_jumps : runs kmain image_board (fun _ _ => False) (fun w _ => w = Jump APP_START_ADDR).
Proof. vm_compute. reflexivity. Qed.

Lemma kmain_boots_valid_witness : runs kmain image_board (fun _ _ => False) (fun w k => w = Jump APP_START_ADDR /\ booted k).
Proof.
  eapply runs_mono; [exact (runs_and _ _ _ _ _ _ image_jumps (kmain_boots_valid image_board image_buffers image_rx image_honest))| |].
  - intros a k [[] _].
  - intros w k [Hw Hk]. split; [exact Hw|]. destruct Hk as [[[Hk _]|[Hk|[[Hk _]|[Hk _]]]]|[_ Hk]]; [congruence..|exact Hk].
Defined.

Lemma bootloader_init_policy_witness :
  returns bootloader_init image_board (fun _ k => b_meta k = seal (count_boot wdt_meta_defaults)).
Proof.
  pose proof (bootloader_init_policy image_board ram_reads ram_writes image_buffers) as H.
  eapply returns_mono; [exact H|]. intros a k Hk. exact (proj1 Hk).
Defined.

(** Slot B has just been committed. *)
Definition trial_meta : WdtMeta := mkWdtMeta WDT_META_MAGIC 0 (-1) 0 0 APP_SLOT_B 1 0 0.
Definition trial_board : board ram_disk :=
  board_start (mkDisk (<[EMMC_SECTOR_METADATA := meta_sector (seal trial_meta)]> (fun _ => []))) trial_meta
    (mkBootFlags 0 0 0 0) [].

Lemma trial_board_meta : contents (b_dev trial_board) EMMC_SECTOR_METADATA = meta_sector (seal trial_meta).
Proof. destruct (meta_sector_bytes (seal trial_meta)). by apply pad_sector_id. Qed.

Lemma trial_meta_state : trial_state trial_meta APP_SLOT_B 1 0.
Proof. vm_compute. split_and!; done. Qed.

Lemma trial_buffers : buffers_ok trial_board.
Proof. split; apply zero_sector_ok. Qed.

Lemma unconfirmed_trial_rolls_back_witness :
  returns bootloader_init trial_board (fun _ k1 => active_app_slot (b_meta k1) = APP_SLOT_B).
Proof.
  pose proof (unconfirmed_trial_rolls_back trial_board trial_meta APP_SLOT_B 1 ram_reads ram_writes trial_buffers
    trial_board_meta trial_meta_state ltac:(discriminate)) as H.
  eapply returns_mono; [exact H|]. intros a k1 Hk. exact (proj1 Hk).
Defined.
