(* ===== verification/Bootstrap.v ===== *)
(** * The first boot stages (source/samples/boot/bootstrap, source/samples/boot/wiper)

    The bootstrap is what the GPU loads at 0x8000: it reads the bootloader's
    image off the eMMC to 0x10000, checks its CRC and enters it.  The wiper
    is a bootstrap that first erases both slots, the metadata and the flags,
    so that the bootloader waits for an upload.  Both hang on any failure.
    Neither bounds the length in the header; an image that would reach the
    shared flags at 0x88000 leaves the model ([Fault]). *)

From Stdlib Require String.
From S2P Require Import Prelude Types Crc Telemetry Board Watchdog Boot Dfu Bootloader.

Definition BOOTLOADER_LOAD_ADDR : Z := 0x10000.
Definition BOOT_FLAGS_START_ADDR : Z := 0x88000.

Module BootstrapMessages.
Import String.
Definition starting : string := "bootstrap: starting\r\n".
Definition emmc_failed : string := "bootstrap: emmc init failed (%d), hanging\r\n".
Definition emmc_up : string := "emmc successfully initialized\r\n".
Definition header_failed : string := "bootstrap: header read failed (%d), hanging\r\n".
Definition found : string := "bootstrap: bootloader v%u, %u bytes\r\n".
Definition bad_header : string := "bootstrap: invalid header (fw_length=0), hanging\r\n".
Definition binary_failed : string := "bootstrap: binary read failed (%d), hanging\r\n".
Definition mismatch : string := "bootstrap: CRC mismatch — expected 0x%08X got 0x%08X, hanging\r\n".
Definition jumping : string := "bootstrap: CRC OK, jumping to bootloader\r\n".
End BootstrapMessages.

Module WiperMessages.
Import String.
Definition starting : string := "wiper: starting\r\n".
Definition emmc_failed : string := "wiper: emmc init failed (%d), hanging\r\n".
Definition emmc_up : string := "wiper: emmc initialized\r\n".
Definition write_failed : string := "wiper: sector %u write failed (%d), hanging\r\n".
Definition slots_wiped : string := "wiper: app slot A/B headers + metadata zeroed\r\n".
Definition flags_cleared : string := "wiper: boot_flags cleared\r\n".
Definition header_failed : string := "wiper: bootloader header read failed (%d), hanging\r\n".
Definition found : string := "wiper: bootloader v%u, %u bytes\r\n".
Definition bad_header : string := "wiper: invalid bootloader header, hanging\r\n".
Definition binary_failed : string := "wiper: bootloader binary read failed (%d), hanging\r\n".
Definition mismatch : string := "wiper: bootloader CRC mismatch — expected 0x%08X got 0x%08X, hanging\r\n".
Definition jumping : string := "wiper: CRC OK, jumping to bootloader — expect DFU mode\r\n".
End WiperMessages.

Section stages.
Context {D : Type} `{BlockDevice D}.

Definition boot_milestone (id : TelemetryBootMilestoneId) : Bd D unit :=
  btel (Telemetry.Boot.telemetry_report_boot_milestone id BOOT_STAGE_BOOTSTRAP 0).
(** [while (1) {}] *)
Definition hang {A} : Bd D A := stop Hang.

(** [crc32_start]; [crc32_update] over [len] bytes of the loaded image;
    [crc32_finish]. *)
Definition ram_crc (addr len : Z) : Bd D Z := gets (fun b => crc32_finish (crc32_update crc32_start (map (b_ram b) (seqZ addr len)))).

(** Reading the image of [len] bytes behind the header, to the load address. *)
Definition load_bootloader (len : Z) : Bd D StatusCode :=
  if BOOT_FLAGS_START_ADDR <? BOOTLOADER_LOAD_ADDR + len then stop Fault else
  let sectors := BYTES_TO_SECTORS len in
  rd ← emmc_read (u32 (EMMC_SECTOR_BOOTLOADER + 1)) sectors;
  ram_copy BOOTLOADER_LOAD_ADDR rd.2;;
  mret rd.1.

Definition bootstrap_kmain : Bd D unit :=
  hw HwUartInit;;
  say BootstrapMessages.starting [];;
  hw HwTelemetryUartInit;;
  btel (Telemetry.Boot.telemetry_report_boot_stage_enter BOOT_STAGE_BOOTSTRAP);;
  ret ← emmc_init;
  if decide (ret <> E_OK) then
    say BootstrapMessages.emmc_failed [status_code ret];; boot_milestone BOOT_MS_EMMC_INIT_FAILED;; hang
  else
  say BootstrapMessages.emmc_up [];;
  boot_milestone BOOT_MS_EMMC_INIT_DONE;;
  rd ← emmc_read EMMC_SECTOR_BOOTLOADER 1;
  if decide (rd.1 <> E_OK) then
    say BootstrapMessages.header_failed [status_code rd.1];; boot_milestone BOOT_MS_HEADER_READ_FAILED;; hang
  else
  let hdr := start_packet_of rd.2 in
  say BootstrapMessages.found [version_num hdr; fw_length hdr];;
  if fw_length hdr =? 0 then
    say BootstrapMessages.bad_header [];; boot_milestone BOOT_MS_BAD_HEADER;; hang
  else
  ret ← load_bootloader (fw_length hdr);
  if decide (ret <> E_OK) then
    say BootstrapMessages.binary_failed [status_code ret];; boot_milestone BOOT_MS_BINARY_READ_FAILED;; hang
  else
  actual_crc ← ram_crc BOOTLOADER_LOAD_ADDR (fw_length hdr);
  btel (Telemetry.Boot.telemetry_report_boot_info_image_header BOOT_STAGE_BOOTSTRAP (version_num hdr)
          (fw_length hdr) (sp_crc hdr) actual_crc (if actual_crc =? sp_crc hdr then 1 else 0));;
  if negb (actual_crc =? sp_crc hdr) then
    say BootstrapMessages.mismatch [sp_crc hdr; actual_crc];; hang
  else
  say BootstrapMessages.jumping [];;
  boot_milestone BOOT_MS_JUMPING_TO_BOOTLOADER;;
  hw HwUartDrain;;
  hw HwBarrier;;
  stop (Jump BOOTLOADER_LOAD_ADDR).

(** *** The wiper *)

Fixpoint wipe_sectors (l : list Z) : Bd D unit :=
  match l with
  | [] => mret tt
  | s :: l' =>
      ret ← emmc_write s (replicate 512 0);
      if decide (ret <> E_OK) then say WiperMessages.write_failed [s; status_code ret];; hang else wipe_sectors l'
  end.

(** The 64 words from BOOT_FLAGS_START_ADDR on, of which the flags are the
    first four and nothing else uses the rest. *)
Definition clear_flags : Bd D unit := upd_flags (fun _ => mkBootFlags 0 0 0 0).

Definition wiper_kmain : Bd D unit :=
  hw HwUartInit;;
  say WiperMessages.starting [];;
  ret ← emmc_init;
  if decide (ret <> E_OK) then say WiperMessages.emmc_failed [status_code ret];; hang else
  say WiperMessages.emmc_up [];;
  wipe_sectors [EMMC_SECTOR_APP_A; EMMC_SECTOR_APP_B; EMMC_SECTOR_METADATA];;
  say WiperMessages.slots_wiped [];;
  clear_flags;;
  say WiperMessages.flags_cleared [];;
  rd ← emmc_read EMMC_SECTOR_BOOTLOADER 1;
  if decide (rd.1 <> E_OK) then say WiperMessages.header_failed [status_code rd.1];; hang else
  let hdr := start_packet_of rd.2 in
  say WiperMessages.found [version_num hdr; fw_length hdr];;
  if fw_length hdr =? 0 then say WiperMessages.bad_header [];; hang else
  ret ← load_bootloader (fw_length hdr);
  if decide (ret <> E_OK) then say WiperMessages.binary_failed [status_code ret];; hang else
  actual_crc ← ram_crc BOOTLOADER_LOAD_ADDR (fw_length hdr);
  if negb (actual_crc =? sp_crc hdr) then say WiperMessages.mismatch [sp_crc hdr; actual_crc];; hang else
  say WiperMessages.jumping [];;
  hw HwUartDrain;;
  hw HwBarrier;;
  stop (Jump BOOTLOADER_LOAD_ADDR).
End stages.

(** ** What the stages guarantee *)

Section theorems.
Context {D : Type} `{BlockLaws D}.
Implicit Types (b k : board D).

(** The bootloader's image on the card, and the RAM that holds it. *)
Definition bootloader_ready (c : Z -> list Z) k : Prop :=
  let h := header c EMMC_SECTOR_BOOTLOADER in
  fw_length h <> 0 /\ crc32_of (firmware c EMMC_SECTOR_BOOTLOADER (fw_length h)) = sp_crc h /\
  ram_holds (b_ram k) BOOTLOADER_LOAD_ADDR (firmware c EMMC_SECTOR_BOOTLOADER (fw_length h)).

(** What a stage leaves as it was: the card and what survives a reset. *)
Record stage_frame b k : Prop := {
  sf_contents : forall s, contents (b_dev k) s = contents (b_dev b) s;
  sf_meta : b_meta k = b_meta b;
  sf_flags : b_flags k = b_flags b;
  sf_rx : b_rx k = b_rx b
}.
#[export] Instance stage_frame_preorder : PreOrder stage_frame.
Proof. split; [by constructor|]. intros b1 b2 b3 [] []. constructor; congruence || (intros s; congruence). Qed.

(** A read whose status is E_OK gives what the sectors hold. *)
Lemma runs_emmc_read (s n : Z) b Q E : 0 <= n < 65536 ->
  (forall r bytes d, (forall s', contents d s' = contents (b_dev b) s') ->
     (r = E_OK -> bytes = sectors_of (contents (b_dev b)) s (Z.to_nat n)) -> (reads_succeed (D := D) -> r = E_OK) -> Q (r, bytes) (b <| b_dev := d |>)) ->
  runs (emmc_read s n) b Q E.
Proof.
  intros Hn HQ. unfold runs, emmc_read. pose proof (read_contents s n (b_dev b)) as Hc. pose proof (read_ok s n (b_dev b)) as Hk.
  destruct (dev_read s n (b_dev b)) as [[r bytes] d] eqn:Hrd. apply HQ; [exact Hc|intros ->; by apply (Hk bytes d)|].
  intros Hw. destruct (Hw s n (b_dev b) Hn) as (? & ? & Hw'). rewrite Hrd in Hw'. by injection Hw'.
Qed.

Lemma load_bootloader_spec (c : Z -> list Z) (len : Z) b : (forall s, contents (b_dev b) s = c s) -> 0 <= len < 2 ^ 32 ->
  runs (load_bootloader len) b
    (fun r k => stage_frame b k /\ (reads_succeed (D := D) -> r = E_OK) /\ (r = E_OK -> ram_holds (b_ram k) BOOTLOADER_LOAD_ADDR (firmware c EMMC_SECTOR_BOOTLOADER len)))
    (fun w k => w = Fault /\ BOOT_FLAGS_START_ADDR < BOOTLOADER_LOAD_ADDR + len /\ k = b).
Proof.
  intros Hc Hl. unfold load_bootloader. destruct (Z.ltb_spec BOOT_FLAGS_START_ADDR (BOOTLOADER_LOAD_ADDR + len)) as [Hb|Hb]; [by rsteps|].
  unfold BOOT_FLAGS_START_ADDR, BOOTLOADER_LOAD_ADDR in Hb. rstep. apply runs_emmc_read.
  { unfold BYTES_TO_SECTORS, SECTOR_SIZE. rewrite wrap_small by lia. split; [apply Z.div_pos|apply Z.div_lt_upper_bound]; lia. }
  intros r bytes d Hd Hr Hw. unfold ram_copy. rsteps. split; [by constructor|]. cbn [fst]. split; [done|]. intros ->. cbn [snd]. rewrite Hr by done.
  rewrite wrap_small by (vm_compute; split; congruence). cbn [b_ram field_update].
  apply (ram_holds_load BOOTLOADER_LOAD_ADDR c EMMC_SECTOR_BOOTLOADER len (contents (b_dev b))); [intros s; rewrite <- Hc; apply contents_bytes|done|lia].
Qed.

Lemma ram_crc_eq (addr : Z) (bytes : list Z) b : ram_holds (b_ram b) addr bytes -> Forall is_byte bytes ->
  ram_crc addr (Z.of_nat (length bytes)) b = Ret (crc32_of bytes) b.
Proof.
  intros Hr Hb. unfold ram_crc, gets, crc32_of. do 4 f_equal. apply list_eq. intros i. rewrite list_lookup_fmap.
  destruct (decide (i < length bytes)%nat) as [Hi|Hi].
  - rewrite lookup_seqZ_lt by lia. cbn. rewrite Hr by lia. unfold byte_at. rewrite Nat2Z.id.
    destruct (lookup_lt_is_Some_2 bytes i Hi) as [x Hx]. by rewrite Hx.
  - rewrite lookup_seqZ_ge by lia. symmetry. apply lookup_ge_None. lia.
Qed.


(** The image on the card is one the stage can load and enter. *)
Definition bootloader_good (c : Z -> list Z) : Prop :=
  let h := header c EMMC_SECTOR_BOOTLOADER in
  0 < fw_length h <= BOOT_FLAGS_START_ADDR - BOOTLOADER_LOAD_ADDR /\ crc32_of (firmware c EMMC_SECTOR_BOOTLOADER (fw_length h)) = sp_crc h.
(** The device works: it initialises, and its reads succeed. *)
Definition device_works : Prop := reads_succeed (D := D) /\ forall d : D, (dev_init d).1 = E_OK.

(** How a stage that works on a card [c] may end, in state [k]. *)
Inductive stage_end (c : Z -> list Z) : stop_reason -> board D -> Prop :=
  | end_hang k : (device_works -> ~ bootloader_good c) -> stage_end c Hang k
  | end_large k : BOOT_FLAGS_START_ADDR < BOOTLOADER_LOAD_ADDR + fw_length (header c EMMC_SECTOR_BOOTLOADER) -> stage_end c Fault k
  | end_jump k : bootloader_ready c k -> stage_end c (Jump BOOTLOADER_LOAD_ADDR) k.

Lemma header_length (c : Z -> list Z) b : (forall s, contents (b_dev b) s = c s) -> 0 <= fw_length (header c EMMC_SECTOR_BOOTLOADER) < 2 ^ 32.
Proof. intros Hc. apply word_at_range. rewrite <- Hc. apply contents_bytes. Qed.

Lemma loaded_crc (c : Z -> list Z) b : (forall s, contents (b_dev b) s = c s) ->
  let h := header c EMMC_SECTOR_BOOTLOADER in
  ram_holds (b_ram b) BOOTLOADER_LOAD_ADDR (firmware c EMMC_SECTOR_BOOTLOADER (fw_length h)) ->
  ram_crc BOOTLOADER_LOAD_ADDR (fw_length h) b = Ret (crc32_of (firmware c EMMC_SECTOR_BOOTLOADER (fw_length h))) b.
Proof.
  intros Hc h Hr. pose proof (header_length c b Hc) as Hl. fold h in Hl.
  assert (forall s, length (c s) = 512%nat /\ Forall is_byte (c s)) as Hcb by (intros s; rewrite <- Hc; apply contents_bytes).
  etrans; [|apply ram_crc_eq; [exact Hr|]].
  - rewrite length_firmware by (try lia; intros s; apply Hcb). by rewrite Z2Nat.id by lia.
  - apply Forall_take, sectors_bytes. intros s. apply Hcb.
Qed.

(** Only reports were made, as far as the stages are concerned. *)
Ltac tell1 := rstep; apply runs_returns; first [apply returns_say|apply returns_btel|apply returns_hw]; intros ?; cbv beta.

(** A stage that hangs here could not have gone on. *)
Ltac framed := first [solve [constructor; bsimpl; first [done|assumption]]|etrans; [eassumption|by constructor]].
Ltac hangs := repeat tell1; rstep; split; [framed|apply end_hang].

(** From the read of the header on, both stages run alike: [b0] is the board
    they run from, [Hc0] says what its card holds. *)
Ltac enters b0 Hc0 :=
  rstep; apply runs_emmc_read; [lia|]; bsimpl; intros r1 bytes d1 Hd1 Hok Hw1; cbn [fst snd];
  assert (forall s, contents d1 s = contents (b_dev b0) s) as Hc1 by (intros s; by rewrite Hd1);
  destruct (decide (r1 <> E_OK)) as [Hr1|Hr1]; [hangs; intros [Hrd _] _; by apply Hr1, Hw1|];
  assert (start_packet_of bytes = header (contents (b_dev b0)) EMMC_SECTOR_BOOTLOADER) as -> by
    (rewrite Hok by (by destruct (decide (r1 = E_OK))); change (Z.to_nat 1) with 1%nat; cbn [sectors_of]; rewrite app_nil_r; first [done|by rewrite Hc0]);
  clear Hr1 Hok Hw1 bytes; set (hd := header (contents (b_dev b0)) EMMC_SECTOR_BOOTLOADER); tell1;
  destruct (Z.eqb_spec (fw_length hd) 0) as [Hz|Hz]; [hangs; intros _ [? _]; subst hd; lia|];
  rstep; rcall (load_bootloader_spec (contents (b_dev b0)) (fw_length hd));
  [exact Hc1|by eapply header_length| |intros w k (-> & Hbig & ->); split; [framed|by apply end_large]];
  intros r2 k [Hk [Hw2 Hr2]];
  assert (stage_frame b0 k) as Hkb by (etrans; [|exact Hk]; framed); clear Hk;
  destruct (decide (r2 <> E_OK)) as [Hn2|Hn2]; [hangs; intros [Hrd _] _; by apply Hn2, Hw2|];
  rstep; unfold runs at 1; assert (r2 = E_OK) as Heq by (by destruct (decide (r2 = E_OK)));
  pose proof (loaded_crc (contents (b_dev b0)) k (sf_contents _ _ Hkb) (Hr2 Heq)) as Hcrc; cbv zeta in Hcrc; fold hd in Hcrc; rewrite Hcrc;
  try tell1;
  destruct (Z.eqb_spec (crc32_of (firmware (contents (b_dev b0)) EMMC_SECTOR_BOOTLOADER (fw_length hd))) (sp_crc hd)) as [Hgood|Hbad]; cbn [negb];
  [repeat tell1; rstep; split; [framed|]; apply end_jump; split_and!; [done|done|]; by apply Hr2|hangs; by intros _ [_ ?]].

Lemma bootstrap_spec b :
  runs bootstrap_kmain b (fun _ _ => False) (fun w k => stage_frame b k /\ stage_end (contents (b_dev b)) w k).
Proof.
  unfold bootstrap_kmain, boot_milestone, hang. do 4 tell1. rstep. unfold runs at 1, emmc_init. bsimpl.
  pose proof (init_contents (b_dev b)) as Hc0. destruct (dev_init (b_dev b)) as [r d0] eqn:Hi. cbn [snd] in Hc0.
  destruct (decide (r <> E_OK)) as [Hr|Hr]; [hangs; intros [_ Hinit]; specialize (Hinit (b_dev b)); by rewrite Hi in Hinit|].
  do 2 tell1. enters b Hc0.
Qed.

(** *** Wiping *)

Definition WIPED : list Z := [EMMC_SECTOR_APP_A; EMMC_SECTOR_APP_B; EMMC_SECTOR_METADATA].
Definition wiped (l : list Z) (c c' : Z -> list Z) : Prop := forall s, c' s = if decide (s ∈ l) then replicate 512 0 else c s.

Record wipe_frame b k : Prop := {
  wf_meta : b_meta k = b_meta b;
  wf_flags : b_flags k = b_flags b;
  wf_rx : b_rx k = b_rx b
}.

Lemma wipe_sectors_spec (l : list Z) : forall b,
  runs (wipe_sectors l) b (fun _ k => wiped l (contents (b_dev b)) (contents (b_dev k)) /\ wipe_frame b k)
    (fun w _ => w = Hang /\ exists s (d : D), s ∈ l /\ (dev_write s (replicate 512 0) d).1 <> E_OK).
Proof.
  induction l as [|s l IH]; intros b; cbn [wipe_sectors].
  { rstep. split; [|done]. intros s. by rewrite decide_False by apply not_elem_of_nil. }
  assert (length (replicate 512 0) = 512%nat /\ Forall is_byte (replicate 512 0)) as [Hl Hb] by (split; [done|by apply Forall_replicate]).
  rstep. unfold runs at 1, emmc_write. pose proof (fun s' => write_other s _ (b_dev b) s' Hl) as Hother.
  pose proof (fun d' => write_ok s _ (b_dev b) d' Hl Hb) as Hok. destruct (dev_write s (replicate 512 0) (b_dev b)) as [r d] eqn:Hw. cbn [snd] in Hother.
  destruct (decide (r <> E_OK)) as [Hr|Hr].
  { tell1. rsteps. split; [done|]. exists s, (b_dev b). rewrite Hw. split; [by left|done]. }
  assert (r = E_OK) as -> by by destruct (decide (r = E_OK)). specialize (Hok d eq_refl).
  rcall IH.
  - intros [] k [Hk [Hm Hf Hrx]]. split; [|by constructor]. intros s'. rewrite Hk. bsimpl. destruct (decide (s' = s)) as [->|Hne].
    + rewrite (decide_True (P := s ∈ s :: l)) by by left. rewrite Hok. by destruct (decide (s ∈ l)).
    + rewrite Hother by done. destruct (decide (s' ∈ l)); [rewrite decide_True by by right|rewrite decide_False by (rewrite elem_of_cons; tauto)]; done.
  - intros w _ (-> & x & d' & Hx & Hf). split; [done|]. exists x, d'. split; [by right|done].
Qed.

(** What the wiper leaves behind when it enters the bootloader. *)
Record wiped_board b k : Prop := {
  wb_contents : wiped WIPED (contents (b_dev b)) (contents (b_dev k));
  wb_flags : b_flags k = mkBootFlags 0 0 0 0;
  wb_meta : b_meta k = b_meta b;
  wb_rx : b_rx k = b_rx b;
  wb_ready : bootloader_ready (contents (b_dev k)) k
}.

Lemma bootloader_ready_ext (c c' : Z -> list Z) k : (forall s, c' s = c s) -> bootloader_ready c k -> bootloader_ready c' k.
Proof. intros He. by assert (c' = c) as -> by by apply functional_extensionality. Qed.

Lemma wiper_spec b :
  runs wiper_kmain b (fun _ _ => False) (fun w k =>
    w = Hang \/ w = Fault /\ BOOT_FLAGS_START_ADDR < BOOTLOADER_LOAD_ADDR + fw_length (header (contents (b_dev b)) EMMC_SECTOR_BOOTLOADER) \/
    w = Jump BOOTLOADER_LOAD_ADDR /\ wiped_board b k).
Proof.
  unfold wiper_kmain, hang. do 2 tell1. rstep. unfold runs at 1, emmc_init. bsimpl.
  pose proof (init_contents (b_dev b)) as Hi. destruct (dev_init (b_dev b)) as [r d0]. cbn [snd] in Hi.
  destruct (decide (r <> E_OK)) as [Hr|Hr]; [repeat tell1; rsteps; by left|].
  tell1. rstep. rcall wipe_sectors_spec; [|intros w k [-> _]; by left].
  intros [] k [Hk [Hm Hf Hrx]]. tell1. rstep. unfold clear_flags, upd_flags. rstep. tell1.
  match goal with |- runs _ ?x _ _ => set (b1 := x) end.
  eapply (runs_mono _ _ (fun _ _ => False) _ (fun w k' => stage_frame b1 k' /\ stage_end (contents (b_dev b1)) w k')).
  - clearbody b1. clear. assert (forall s, contents (b_dev b1) s = contents (b_dev b1) s) as Hc0 by done. enters b1 Hc0.
  - done.
  - assert (wiped WIPED (contents (b_dev b)) (contents (b_dev b1))) as Hw.
    { intros s. change (b_dev b1) with (b_dev k). rewrite Hk. bsimpl. by rewrite Hi. }
    intros w k' [[Hc Hm' Hf' Hrx'] He]. inversion He as [k2 _|k2 Hbig|k2 Hready]; subst; [by left|right; left|right; right; split; [done|]].
    + split; [done|]. revert Hbig. unfold header. by replace (contents (b_dev b1) EMMC_SECTOR_BOOTLOADER) with (contents (b_dev b) EMMC_SECTOR_BOOTLOADER) by by rewrite (Hw _).
    + constructor; [|by rewrite Hf'|by rewrite Hm'; cbn; rewrite Hm|by rewrite Hrx'; cbn; rewrite Hrx|by eapply bootloader_ready_ext].
      intros s. by rewrite Hc, Hw.
Qed.

(** C37: the bootstrap enters only a bootloader whose CRC it has checked.  On
    any device and any card [bootstrap_kmain] does not return.  If it jumps it
    is to 0x10000, where the RAM then holds the image the card's header
    announces, byte for byte and with the announced CRC; an image too long
    for the region below the shared flags leaves the model; and it hangs only
    if the device failed or the card holds no good image.  Nothing on the
    card, in the metadata or in the boot flags changes. *)
Theorem bootstrap_enters_verified b :
  runs bootstrap_kmain b (fun _ _ => False) (fun w k => stage_frame b k /\ stage_end (contents (b_dev b)) w k).
Proof. apply bootstrap_spec. Qed.

Lemma wiped_policy : boot_policy wdt_meta_defaults (flags_init (mkBootFlags 0 0 0 0)) =
  (wdt_meta_defaults <| wdt_reset_count := 1 |>, mkBootFlags BOOT_FLAGS_MAGIC RESET_REASON_COLD 0 0, true).
Proof. by vm_compute. Qed.

(** Wiping forces an upload.  If the wiper gets as far as entering the
    bootloader, then the bootloader, started on that card and those flags with
    a device that works, falls back to default metadata with slot A active,
    trusts nothing and finds no valid image: [fw_crc_ok] is 0, the flag on which
    [bootloader_execute] receives an upload.  Only the metadata sector is
    written. *)
Theorem wiper_forces_upload b :
  runs wiper_kmain b (fun _ _ => False) (fun w k => w = Jump BOOTLOADER_LOAD_ADDR ->
    forall b2, reads_succeed (D := D) -> writes_succeed (D := D) -> buffers_ok b2 ->
      (forall s, contents (b_dev b2) s = contents (b_dev k) s) -> b_flags b2 = b_flags k ->
      returns bootloader_init b2 (fun _ k2 =>
        active_app_slot (b_meta k2) = APP_SLOT_A /\ app_slot_trial (b_meta k2) = 0 /\
        b_flags k2 = mkBootFlags BOOT_FLAGS_MAGIC RESET_REASON_COLD 0 0 /\
        forall s, s <> EMMC_SECTOR_METADATA -> contents (b_dev k2) s = contents (b_dev k) s)).
Proof.
  rcall wiper_spec; [done|]. intros w k Hw -> b2 Hrd Hws Hb Hc Hf.
  destruct Hw as [?|[[? _]|[_ [Hwc Hfl _ _ _]]]]; [done..|].
  eapply returns_mono; [by apply bootloader_init_spec|]. intros [] k2 [m0 [pol Hm0 Hm Hfs _ _ Hd _]].
  specialize (Hm0 Hrd). assert (m0 = wdt_meta_defaults) as ->.
  { rewrite Hm0. unfold stored_meta. rewrite Hc, (Hwc _), decide_True by (unfold WIPED; set_solver).
    replace (accepted (replicate 512 0)) with false by (by vm_compute). done. }
  unfold pol in *. clear pol. rewrite Hf, Hfl, wiped_policy in *. cbn [fst snd] in *. rewrite Hm. split_and!; [done|done| |].
  - destruct Hfs as (ok & -> & Hok & Hv). destruct Hok as [->| ->]; [done|]. exfalso.
    destruct (Hv Hrd) as [Himg _]. specialize (Himg eq_refl). destruct Himg as [Hver _]. revert Hver. unfold header.
    change (active_base _) with EMMC_SECTOR_APP_A. rewrite Hc, (Hwc _), decide_True by (unfold WIPED; set_solver). by vm_compute.
  - intros s Hs. rewrite Hd by done. apply Hc.
Qed.
End theorems.

(** ** Examples: a four-byte bootloader *)

Definition stage_board : board ram_disk :=
  board_start (image_disk EMMC_SECTOR_BOOTLOADER) (mkWdtMeta 0 0 0 0 0 0 0 0 0) (mkBootFlags BOOT_FLAGS_MAGIC 1 1 1) [].
Definition reason_of {S A} (m : M S A) (s : S) : option stop_reason := match m s with Ret _ _ => None | Stop w _ => Some w end.

Lemma reason_runs {S A} (m : M S A) (s : S) (w : stop_reason) : reason_of m s = Some w -> runs m s (fun _ _ => False) (fun w' _ => w' = w).
Proof. unfold reason_of, runs. destruct (m s); [done|]. by intros [= ->]. Qed.

Lemma stage_jumps : reason_of bootstrap_kmain stage_board = Some (Jump BOOTLOADER_LOAD_ADDR).
Proof. vm_compute. reflexivity. Qed.
Lemma wiper_jumps : reason_of wiper_kmain stage_board = Some (Jump BOOTLOADER_LOAD_ADDR).
Proof. vm_compute. reflexivity. Qed.

(** The flags say a boot is warm and its image verified; the board after the
    bootstrap still says so, and holds the image. *)
Lemma bootstrap_enters_verified_witness :
  runs bootstrap_kmain stage_board (fun _ _ => False) (fun w k => w = Jump BOOTLOADER_LOAD_ADDR /\ fw_crc_ok (b_flags k) = 1 /\ b_ram k (BOOTLOADER_LOAD_ADDR + 1) = 0xAD).
Proof.
  eapply runs_mono; [exact (runs_and _ _ _ _ _ _ (reason_runs _ _ _ stage_jumps) (bootstrap_enters_verified stage_board))|intros a k [[] _]|].
  intros w k [-> [Hf He]]. split_and!; [done|by rewrite (sf_flags _ _ Hf)|].
  inversion He as [| |? (_ & _ & Hr)]; subst. rewrite (Hr 1); vm_compute; done.
Defined.

(** A card that holds what the wiper left. *)
Lemma wiper_forces_upload_witness :
  runs wiper_kmain stage_board (fun _ _ => False) (fun w k => w = Jump BOOTLOADER_LOAD_ADDR /\
    returns bootloader_init (board_start (b_dev k) (mkWdtMeta 0 0 0 0 0 0 0 0 0) (b_flags k) []) (fun _ k2 =>
      active_app_slot (b_meta k2) = APP_SLOT_A /\ fw_crc_ok (b_flags k2) = 0)).
Proof.
  eapply runs_mono; [exact (runs_and _ _ _ _ _ _ (reason_runs _ _ _ wiper_jumps) (wiper_forces_upload stage_board))|intros a k [[] _]|].
  intros w k [-> Hup]. split; [done|].
  eapply returns_mono; [apply (Hup eq_refl); [exact ram_reads|exact ram_writes|by split; apply zero_sector_ok|done|done]|].
  cbv beta. intros [] k2 (Ha & _ & -> & _). by split.
Defined.
