(* ===== verification/Mmio.v ===== *)
(** * Drivers of memory-mapped devices

    A driver runs on [io D V]: a device [D] behind 32-bit registers, the RAM
    both of them see, the driver's static variables [V], and what it printed.
    The device is a parameter, known by what its registers answer; an access
    may change it, and (a controller with DMA) the RAM too. *)

From Stdlib Require String.
From S2P Require Import Prelude Types.

Definition ram : Type := Z -> Z.

Class Mmio (D : Type) := {
  io_read : Z -> D * ram -> Z * (D * ram);
  io_write : Z -> Z -> D * ram -> D * ram
}.

Record io (D V : Type) := mkIo {
  io_dev : D;
  io_ram : ram;
  io_vars : V;
  io_console : list (String.string * list Z);
  io_delay : Z;                     (* turns of the busy-wait loops *)
  io_barriers : Z                   (* DSB SY executed *)
}.
Arguments mkIo {D V}. Arguments io_dev {D V}. Arguments io_ram {D V}. Arguments io_vars {D V}.
Arguments io_console {D V}. Arguments io_delay {D V}. Arguments io_barriers {D V}.
#[export] Instance eta_io D V : Settable (io D V) :=
  fun r => mkIo (io_dev r) (io_ram r) (io_vars r) (io_console r) (io_delay r) (io_barriers r).

Abbreviation Io D V := (M (io D V)).

(** ** Bits of a 32-bit register *)

(** [~x], [(v & mask) != 0], [x << n] *)
Definition bnot (x : Z) : Z := Z.lxor 0xFFFFFFFF x.
Definition has (v mask : Z) : bool := negb (Z.land v mask =? 0).
Definition shl (x n : Z) : Z := u32 (Z.shiftl x n).

(** ** Accesses *)

Section accesses.
Context {D V : Type} `{Mmio D}.

Definition rd (r : Z) : Io D V Z := fun s =>
  let '(v, (d, m)) := io_read r (io_dev s, io_ram s) in Ret (u32 v) (s <| io_dev := d |> <| io_ram := m |>).
Definition wr (r v : Z) : Io D V unit := fun s =>
  let '(d, m) := io_write r v (io_dev s, io_ram s) in Ret tt (s <| io_dev := d |> <| io_ram := m |>).
(** Read, modify, write. *)
Definition rmw (r : Z) (f : Z -> Z) : Io D V unit := v ← rd r; wr r (f v).

Definition var {A} (f : V -> A) : Io D V A := gets (fun s => f (io_vars s)).
Definition set_vars (f : V -> V) : Io D V unit := modify (fun s => s <| io_vars ::= f |>).
Definition print (fmt : String.string) (args : list Z) : Io D V unit :=
  modify (fun s => s <| io_console ::= fun c => c ++ [(fmt, args)] |>).
Definition dsb : Io D V unit := modify (fun s => s <| io_barriers ::= fun n => n + 1 |>).

(** Words of the RAM are little-endian. *)
Definition ram_word (m : ram) (a : Z) : Z := of_le32 (m a) (m (a + 1)) (m (a + 2)) (m (a + 3)).
Definition ram_put (m : ram) (a : Z) (bytes : list Z) : ram :=
  fun x => if (a <=? x) && (x <? a + Z.of_nat (length bytes)) then default 0 (bytes !! Z.to_nat (x - a)) else m x.
Definition ram_get (m : ram) (a : Z) (n : nat) : list Z := map m (seqZ a (Z.of_nat n)).

Definition load32 (a : Z) : Io D V Z := gets (fun s => ram_word (io_ram s) a).
Definition store32 (a v : Z) : Io D V unit := modify (fun s => s <| io_ram ::= fun m => ram_put m a (le32 v) |>).
End accesses.

(** [uint32_t count = c; ... if (--count == 0)]: the number of turns. *)
Definition countdown (c : Z) : nat := Z.to_nat (if c =? 0 then 2 ^ 32 else c).

(** ** RAM *)

Lemma ram_put_out (m : ram) (a : Z) (bytes : list Z) (x : Z) :
  ~ a <= x < a + Z.of_nat (length bytes) -> ram_put m a bytes x = m x.
Proof.
  intros Hx. unfold ram_put. destruct (Z.leb_spec a x); cbn [andb]; [|done].
  destruct (Z.ltb_spec x (a + Z.of_nat (length bytes))); [lia|done].
Qed.

Lemma ram_put_in (m : ram) (a : Z) (bytes : list Z) (i : nat) (v : Z) :
  bytes !! i = Some v -> ram_put m a bytes (a + Z.of_nat i) = v.
Proof.
  intros Hi. pose proof (lookup_lt_Some _ _ _ Hi). unfold ram_put.
  rewrite (proj2 (Z.leb_le _ _)), (proj2 (Z.ltb_lt _ _)) by lia. cbn [andb].
  replace (Z.to_nat (a + Z.of_nat i - a)) with i by lia. by rewrite Hi.
Qed.

Lemma length_ram_get (m : ram) (a : Z) (n : nat) : length (ram_get m a n) = n.
Proof. unfold ram_get. rewrite length_fmap, length_seqZ. lia. Qed.

Lemma ram_get_app (m : ram) (a : Z) (n1 n2 : nat) :
  ram_get m a (n1 + n2) = ram_get m a n1 ++ ram_get m (a + Z.of_nat n1) n2.
Proof. unfold ram_get. rewrite Nat2Z.inj_add, seqZ_app by lia. by rewrite map_app. Qed.

Lemma ram_get_ext (m m' : ram) (a : Z) (n : nat) : (forall x, a <= x < a + Z.of_nat n -> m' x = m x) ->
  ram_get m' a n = ram_get m a n.
Proof.
  intros He. unfold ram_get. apply map_ext_in. intros x Hx. apply He. apply list_elem_of_In, elem_of_seqZ in Hx. lia.
Qed.

Lemma ram_get_put (m : ram) (a : Z) (bytes : list Z) : ram_get (ram_put m a bytes) a (length bytes) = bytes.
Proof.
  apply list_eq. intros i. unfold ram_get. rewrite list_lookup_fmap. destruct (decide (i < length bytes)%nat) as [Hi|Hi].
  - rewrite lookup_seqZ_lt by lia. cbn. destruct (lookup_lt_is_Some_2 bytes i Hi) as [v Hv]. rewrite Hv.
    by rewrite (ram_put_in _ _ _ _ _ Hv).
  - rewrite lookup_seqZ_ge by lia. symmetry. apply lookup_ge_None. lia.
Qed.

Lemma length_le32 (v : Z) : length (le32 v) = 4%nat.
Proof. done. Qed.

Lemma ram_word_put (m : ram) (a v : Z) : 0 <= v < 2 ^ 32 -> ram_word (ram_put m a (le32 v)) a = v.
Proof.
  intros Hv. unfold ram_word. assert (forall i b, le32 v !! i = Some b -> ram_put m a (le32 v) (a + Z.of_nat i) = b) as Hi
    by (intros i b; apply ram_put_in).
  pose proof (Hi 0%nat _ eq_refl) as H0. pose proof (Hi 1%nat _ eq_refl) as H1.
  pose proof (Hi 2%nat _ eq_refl) as H2. pose proof (Hi 3%nat _ eq_refl) as H3.
  change (Z.of_nat 0) with 0 in H0. change (Z.of_nat 1) with 1 in H1. change (Z.of_nat 2) with 2 in H2. change (Z.of_nat 3) with 3 in H3.
  rewrite Z.add_0_r in H0. rewrite H0, H1, H2, H3, of_le32_le32. by apply wrap_small.
Qed.

Lemma ram_word_ext (m m' : ram) (a : Z) : (forall x, a <= x < a + 4 -> m' x = m x) -> ram_word m' a = ram_word m a.
Proof. intros He. unfold ram_word. by rewrite !He by lia. Qed.

Lemma u8_bytes (bytes : list Z) : Forall is_byte bytes -> map u8 bytes = bytes.
Proof. induction 1 as [|x l Hx _ IH]; cbn; [done|]. by rewrite IH, wrap_small by done. Qed.

(** ** A concrete run *)

Definition answers {S A} (m : M S A) (s : S) (P : A -> bool) : bool := match m s with Ret a _ => P a | Stop _ _ => false end.
Definition is_ok (r : StatusCode) : bool := bool_decide (r = E_OK).

Lemma answers_returns {S A} (m : M S A) (P : A -> bool) s (Q : A -> S -> Prop) : returns m s Q -> answers m s P = true ->
  returns m s (fun a s' => P a = true /\ Q a s').
Proof. unfold returns, answers. destruct (m s); auto. Qed.
