(* ===== verification/Emmc.v ===== *)
(** * The eMMC driver (source/drivers/emmc/emmc.c)

    Every function of the driver, over an SDHCI controller that is a parameter
    (class [Mmio]).  What the transfers rely on of the controller and the card
    is the class [SdHost], after the SD host controller specification: which
    sectors a data command is about, what the data port gives and takes, what
    a DMA does to the RAM, and that "transfer complete" is not signalled of a
    transfer that failed.  It says nothing of when, or whether, the controller
    answers: every wait of the driver is bounded, and the theorems ([EmmcThm])
    hold whatever the controller does. *)

From Stdlib Require String.
From S2P Require Import Prelude Types Crc Telemetry Board Mmio.

(** ** emmc.h *)

Module EMMC2Regs.
Definition BLKSIZECNT : Z := 0x04.
Definition ARG1 : Z := 0x08.
Definition CMDTM : Z := 0x0C.
Definition RESP0 : Z := 0x10.
Definition DATA : Z := 0x20.
Definition STATUS : Z := 0x24.
Definition CONTROL0 : Z := 0x28.
Definition CONTROL1 : Z := 0x2C.
Definition INTERRUPT : Z := 0x30.
Definition IRPT_MASK : Z := 0x34.
Definition IRPT_EN : Z := 0x38.
Definition CAPABILITIES0 : Z := 0x40.
Definition ADMA_ERROR : Z := 0x54.
Definition ADMA_ADDRESS : Z := 0x58.
End EMMC2Regs.
Import EMMC2Regs.

Definition CTRL1_CLK_INTLEN : Z := Z.shiftl 1 0.
Definition CTRL1_CLK_STABLE : Z := Z.shiftl 1 1.
Definition CTRL1_CLK_EN : Z := Z.shiftl 1 2.
Definition CTRL1_DATA_TOUNIT : Z := Z.shiftl 0xF 16.
Definition CTRL1_SRST_HC : Z := Z.shiftl 1 24.
Definition CTRL1_SRST_CMD : Z := Z.shiftl 1 25.
Definition CTRL1_SRST_DATA : Z := Z.shiftl 1 26.

Definition STATUS_CMD_INHIBIT : Z := Z.shiftl 1 0.
Definition STATUS_DAT_INHIBIT : Z := Z.shiftl 1 1.
Definition STATUS_DAT_ACTIVE : Z := Z.shiftl 1 2.

Definition INT_CMD_DONE : Z := Z.shiftl 1 0.
Definition INT_DATA_DONE : Z := Z.shiftl 1 1.
Definition INT_WRITE_RDY : Z := Z.shiftl 1 4.
Definition INT_READ_RDY : Z := Z.shiftl 1 5.

Definition CTRL0_4BIT : Z := Z.shiftl 1 1.
Definition CTRL0_HS_EN : Z := Z.shiftl 1 2.
Definition CTRL0_8BIT : Z := Z.shiftl 1 5.
Definition CTRL0_DMA_SELECT_MASK : Z := Z.shiftl 3 3.
Definition CTRL0_DMA_SELECT_ADMA2 : Z := Z.shiftl 2 3.
Definition CAP0_ADMA2_SUPPORT : Z := Z.shiftl 1 19.

Definition ADMA2_DESC_VALID : Z := Z.shiftl 1 0.
Definition ADMA2_DESC_END : Z := Z.shiftl 1 1.
Definition ADMA2_DESC_INT : Z := Z.shiftl 1 2.
Definition ADMA2_DESC_ACT_TRAN : Z := Z.shiftl 2 4.

Definition DEVICE_TYPE_HS26 : Z := Z.shiftl 1 0.
Definition DEVICE_TYPE_HS52 : Z := Z.shiftl 1 1.
Definition DEVICE_TYPE_DDR52_18V : Z := Z.shiftl 1 2.
Definition DEVICE_TYPE_HS200_18V : Z := Z.shiftl 1 4.
Definition DEVICE_TYPE_HS400_18V : Z := Z.shiftl 1 6.

(** Bits 15 to 22, 24 and 25. *)
Definition INT_ERROR_MASK : Z := 0x37F8000.

Definition CMD_INDEX (x : Z) : Z := Z.shiftl x 24.
Definition CMD_ISDATA : Z := Z.shiftl 1 21.
Definition CMD_IXCHK_EN : Z := Z.shiftl 1 20.
Definition CMD_CRCCHK_EN : Z := Z.shiftl 1 19.
Definition CMD_RESP_NONE : Z := Z.shiftl 0 16.
Definition CMD_RESP_136 : Z := Z.shiftl 1 16.
Definition CMD_RESP_48 : Z := Z.shiftl 2 16.
Definition CMD_RESP_48B : Z := Z.shiftl 3 16.
Definition TM_MULTI_BLOCK : Z := Z.shiftl 1 5.
Definition TM_DAT_DIR_RD : Z := Z.shiftl 1 4.
Definition TM_AUTO_CMD12 : Z := Z.shiftl 1 2.
Definition TM_BLKCNT_EN : Z := Z.shiftl 1 1.
Definition TM_DMA_EN : Z := Z.shiftl 1 0.

Definition bits (l : list Z) : Z := foldr Z.lor 0 l.
Definition CMD0 : Z := bits [CMD_INDEX 0; CMD_RESP_NONE].
Definition CMD1 : Z := bits [CMD_INDEX 1; CMD_RESP_48].
Definition CMD2 : Z := bits [CMD_INDEX 2; CMD_RESP_136; CMD_CRCCHK_EN].
Definition CMD3 : Z := bits [CMD_INDEX 3; CMD_RESP_48; CMD_CRCCHK_EN; CMD_IXCHK_EN].
Definition CMD6_SWITCH : Z := bits [CMD_INDEX 6; CMD_RESP_48B; CMD_CRCCHK_EN; CMD_IXCHK_EN].
Definition CMD7 : Z := bits [CMD_INDEX 7; CMD_RESP_48B; CMD_CRCCHK_EN; CMD_IXCHK_EN].
Definition CMD8 : Z := bits [CMD_INDEX 8; CMD_RESP_48; CMD_CRCCHK_EN; CMD_IXCHK_EN; CMD_ISDATA; TM_DAT_DIR_RD].
Definition CMD17 : Z := bits [CMD_INDEX 17; CMD_RESP_48; CMD_CRCCHK_EN; CMD_IXCHK_EN; CMD_ISDATA; TM_DAT_DIR_RD].
Definition CMD18 : Z := bits [CMD_INDEX 18; CMD_RESP_48; CMD_CRCCHK_EN; CMD_IXCHK_EN; CMD_ISDATA; TM_DAT_DIR_RD;
                              TM_MULTI_BLOCK; TM_BLKCNT_EN; TM_AUTO_CMD12].
Definition CMD24 : Z := bits [CMD_INDEX 24; CMD_RESP_48; CMD_CRCCHK_EN; CMD_IXCHK_EN; CMD_ISDATA].
Definition CMD25 : Z := bits [CMD_INDEX 25; CMD_RESP_48; CMD_CRCCHK_EN; CMD_IXCHK_EN; CMD_ISDATA;
                              TM_MULTI_BLOCK; TM_BLKCNT_EN; TM_AUTO_CMD12].

Definition SWITCH_ARG (index value : Z) : Z := bits [Z.shiftl 3 24; Z.shiftl index 16; Z.shiftl value 8].
Definition EXT_CSD_BUS_WIDTH : Z := 183.
Definition EXT_CSD_BUS_WIDTH_4BIT : Z := 1.
Definition EXT_CSD_BUS_WIDTH_8BIT : Z := 2.
Definition EXT_CSD_HS_TIMING : Z := 185.
Definition EXT_CSD_HS_TIMING_HS : Z := 1.
Definition EXT_CSD_REV : Z := 192.
Definition EXT_CSD_DEVICE_TYPE : Z := 196.
Definition EXT_CSD_SEC_COUNT : Z := 212.

Definition EMMC2_BASE_CLOCK : Z := 200000000.
Definition ADMA2_MAX_CHUNK : Z := 65536.
Definition ADMA2_MAX_XFER_BYTES : Z := EMMC_SECTOR_SIZE_APP * SECTOR_SIZE.
Definition ADMA2_MAX_DESCRIPTORS : Z := ADMA2_MAX_XFER_BYTES / ADMA2_MAX_CHUNK + 2.

(** The driver's static variables; the descriptor table is in RAM. *)
Record EmmcVars := mkEmmcVars {
  rca : Z;
  is_high_capacity : Z;
  s_emmc_initialized : Z;
  s_adma2_supported : Z;
  s_device_type : Z;
  s_sec_count : Z
}.
#[export] Instance eta_EmmcVars : Settable EmmcVars :=
  fun r => mkEmmcVars (rca r) (is_high_capacity r) (s_emmc_initialized r) (s_adma2_supported r) (s_device_type r) (s_sec_count r).
Definition emmc_vars_initial : EmmcVars := mkEmmcVars 1 1 0 0 0 0.

Module Messages.
Import String.
Definition int_error : string := "emmc: int error 0x%08X (waiting 0x%08X)\r\n".
Definition int_timeout : string := "emmc: int timeout mask=0x%08X INT=0x%08X STATUS=0x%08X\r\n".
Definition int_error_after : string := "emmc: int error 0x%08X (after mask=0x%08X)\r\n".
Definition cmd_stuck : string := "emmc: CMD_INHIBIT stuck STATUS=0x%08X\r\n".
Definition dat_stuck : string := "emmc: DAT_INHIBIT stuck STATUS=0x%08X\r\n".
Definition busy : string := "emmc: R1b busy timeout STATUS=0x%08X\r\n".
Definition caps : string := "emmc: CAPABILITIES0=0x%08X ADMA2=%s\r\n".
Definition ext_csd : string := "emmc: EXT_CSD rev=%u DEVICE_TYPE=0x%02X bus_width=%u hs_timing=%u\r\n".
Definition supports : string := "emmc: supports%s%s%s%s%s | %u sectors (~%u MB)\r\n".
Definition ext_csd_failed : string := "emmc: EXT_CSD read failed\r\n".
Definition hs_failed : string := "emmc: HS52 verify failed, staying 25MHz\r\n".
Definition hs_nak : string := "emmc: HS_TIMING switch NAK\r\n".
Definition width_failed : string := "emmc: 8-bit verify failed, reverted to 4-bit\r\n".
Definition mode : string := "emmc: mode = %s, %u-bit\r\n".
Definition reset_timeout : string := "emmc: reset timeout\r\n".
Definition clock_failed : string := "emmc: clock 400KHz failed\r\n".
Definition cmd1_fail : string := "emmc: CMD1 fail INT=0x%08X\r\n".
Definition cmd1_timeout : string := "emmc: CMD1 timeout\r\n".
Definition cmd6_failed : string := "emmc: CMD6 failed\r\n".
Definition clock25_failed : string := "emmc: 25MHz clock failed\r\n".
Definition init : string := "emmc: init\r\n".
Definition adma_failed : string := "emmc: ADMA2 xfer failed st=%d ADMA_ERR=0x%08X\r\n".
Definition read_fallback : string := "emmc: ADMA2 read -> PIO fallback\r\n".
Definition write_fallback : string := "emmc: ADMA2 write -> PIO fallback\r\n".
Definition blocked : string := "emmc: BLOCKED write to reserved sector %u (floor %u)\r\n".
End Messages.

Section emmc.
Context {D : Type} `{Mmio D}.
Abbreviation E := (Io D EmmcVars).

Definition emmc_delay_us (us : Z) : E unit := modify (fun s => s <| io_delay ::= fun n => n + u32 (us * 100) |>).

(** The [while (!(emmc_regs->INTERRUPT & mask))] loop; [None] when it ended
    because the flag came. *)
Fixpoint wait_interrupt_loop (count : nat) (mask : Z) : E (option StatusCode) :=
  match count with
  | O => stop NoFuel
  | S count' =>
      v ← rd INTERRUPT;
      if has v mask then mret None else
      e ← rd INTERRUPT;
      if has e INT_ERROR_MASK then
        e' ← rd INTERRUPT;
        print Messages.int_error [e'; mask];;
        wr INTERRUPT 0xFFFFFFFF;;
        mret (Some E_CMD)
      else if bool_decide (count' = O) then
        i ← rd INTERRUPT;
        st ← rd STATUS;
        print Messages.int_timeout [mask; i; st];;
        mret (Some E_TIMED_OUT)
      else
        emmc_delay_us 1;;
        wait_interrupt_loop count' mask
  end.

Definition emmc_wait_interrupt (mask timeout_ms : Z) : E StatusCode :=
  r ← wait_interrupt_loop (countdown (u32 (timeout_ms * 1000))) mask;
  match r with
  | Some code => mret code
  | None =>
      e ← rd INTERRUPT;
      if has e INT_ERROR_MASK then
        e' ← rd INTERRUPT;
        print Messages.int_error_after [e'; mask];;
        wr INTERRUPT 0xFFFFFFFF;;
        mret E_CMD
      else
        wr INTERRUPT mask;;
        mret E_OK
  end.

(** Polling [reg] until none, or all, of [mask] is set, as [until] says. *)
Fixpoint poll_loop (count : nat) (reg : Z) (until : Z -> bool) : E StatusCode :=
  match count with
  | O => stop NoFuel
  | S count' =>
      v ← rd reg;
      if until v then mret E_OK
      else if bool_decide (count' = O) then mret E_TIMED_OUT
      else emmc_delay_us 1;; poll_loop count' reg until
  end.

Definition emmc_wait_status (mask timeout_ms : Z) : E StatusCode :=
  poll_loop (countdown (u32 (timeout_ms * 1000))) STATUS (fun v => negb (has v mask)).

Definition resp (cmd : Z) : Z := Z.land cmd (Z.shiftl 3 16).

Definition emmc_send_command (cmd arg : Z) : E StatusCode :=
  r ← emmc_wait_status STATUS_CMD_INHIBIT 2000;
  if decide (r <> E_OK) then st ← rd STATUS; print Messages.cmd_stuck [st];; mret E_TIMED_OUT else
  r ← (if resp cmd =? CMD_RESP_48B then emmc_wait_status STATUS_DAT_INHIBIT 2000 else mret E_OK);
  if decide (r <> E_OK) then st ← rd STATUS; print Messages.dat_stuck [st];; mret E_TIMED_OUT else
  wr INTERRUPT 0xFFFFFFFF;;
  wr ARG1 arg;;
  wr CMDTM cmd;;
  if resp cmd =? CMD_RESP_NONE then
    emmc_delay_us 200;;
    wr INTERRUPT 0xFFFFFFFF;;
    emmc_wait_status STATUS_CMD_INHIBIT 100
  else
    ret ← emmc_wait_interrupt INT_CMD_DONE 2000;
    if decide (ret <> E_OK) then mret ret else
    if resp cmd =? CMD_RESP_48B then
      emmc_delay_us 100;;
      r ← emmc_wait_status STATUS_DAT_ACTIVE 5000;
      if decide (r <> E_OK) then st ← rd STATUS; print Messages.busy [st];; mret E_TIMED_OUT else
      mret E_OK
    else mret E_OK.

Definition emmc_set_clock (hz : Z) : E StatusCode :=
  r ← emmc_wait_status (Z.lor STATUS_CMD_INHIBIT STATUS_DAT_INHIBIT) 2000;
  if decide (r <> E_OK) then mret E_TIMED_OUT else
  rmw CONTROL1 (fun v => Z.land v (bnot CTRL1_CLK_EN));;
  emmc_delay_us 10;;
  let div := EMMC2_BASE_CLOCK / u32 (2 * hz) in
  let div := if div <? 1 then 1 else div in
  let div := if 0x3FF <? div then 0x3FF else div in
  ctrl1 ← rd CONTROL1;
  wr CONTROL1 (bits [Z.land ctrl1 (bnot 0xFFE0); Z.shiftl (Z.land div 0xFF) 8;
                     Z.shiftl (Z.land (Z.shiftr div 8) 0x3) 6; CTRL1_CLK_INTLEN]);;
  emmc_delay_us 20;;
  r ← poll_loop (countdown 10000) CONTROL1 (fun v => has v CTRL1_CLK_STABLE);
  if decide (r <> E_OK) then mret E_TIMED_OUT else
  rmw CONTROL1 (fun v => Z.lor v CTRL1_CLK_EN);;
  emmc_delay_us 20;;
  mret E_OK.

(** [n] words from the data port. *)
Fixpoint data_in (n : nat) : E (list Z) :=
  match n with
  | O => mret []
  | S n' => w ← rd DATA; ws ← data_in n'; mret (le32 w ++ ws)
  end.

(** The 512 bytes, if they all came. *)
Definition emmc_read_ext_csd : E (StatusCode * list Z) :=
  wr BLKSIZECNT (Z.lor (Z.shiftl 1 16) SECTOR_SIZE);;
  r ← emmc_send_command CMD8 0;
  if decide (r <> E_OK) then mret (E_CMD, []) else
  r ← emmc_wait_interrupt INT_READ_RDY 2000;
  if decide (r <> E_OK) then mret (E_TIMED_OUT, []) else
  buf ← data_in (Z.to_nat (SECTOR_SIZE / 4));
  r ← emmc_wait_interrupt INT_DATA_DONE 2000;
  mret (r, buf).

Definition flag (b : bool) : Z := if b then 1 else 0.

Definition emmc_probe_capabilities : E unit :=
  cap0 ← rd CAPABILITIES0;
  set_vars (fun v => v <| s_adma2_supported := flag (has cap0 CAP0_ADMA2_SUPPORT) |>);;
  print Messages.caps [cap0; flag (has cap0 CAP0_ADMA2_SUPPORT)];;
  x ← emmc_read_ext_csd;
  if decide (x.1 = E_OK) then
    let t := byte_at x.2 EXT_CSD_DEVICE_TYPE in
    let n := word_at x.2 EXT_CSD_SEC_COUNT in
    set_vars (fun v => v <| s_device_type := t |> <| s_sec_count := n |>);;
    print Messages.ext_csd [byte_at x.2 EXT_CSD_REV; t; byte_at x.2 EXT_CSD_BUS_WIDTH; byte_at x.2 EXT_CSD_HS_TIMING];;
    print Messages.supports [flag (has t DEVICE_TYPE_HS26); flag (has t DEVICE_TYPE_HS52); flag (has t DEVICE_TYPE_DDR52_18V);
                             flag (has t DEVICE_TYPE_HS200_18V); flag (has t DEVICE_TYPE_HS400_18V); n; n / 2048]
  else print Messages.ext_csd_failed [].

Definition emmc_bus_ok : E bool :=
  x ← emmc_read_ext_csd;
  if decide (x.1 <> E_OK) then mret false else
  n ← var s_sec_count;
  mret (negb (n =? 0) && (word_at x.2 EXT_CSD_SEC_COUNT =? n)).

(** High Speed, 50 MHz; the result is [hs]. *)
Definition negotiate_hs : E bool :=
  t ← var s_device_type;
  if has t DEVICE_TYPE_HS52 then
    r ← emmc_send_command CMD6_SWITCH (SWITCH_ARG EXT_CSD_HS_TIMING EXT_CSD_HS_TIMING_HS);
    if decide (r = E_OK) then
      rmw CONTROL0 (fun v => Z.lor v CTRL0_HS_EN);;
      r ← emmc_set_clock 50000000;
      ok ← (if decide (r = E_OK) then emmc_bus_ok else mret false);
      if ok : bool then mret true
      else
        emmc_set_clock 25000000;;
        rmw CONTROL0 (fun v => Z.land v (bnot CTRL0_HS_EN));;
        emmc_send_command CMD6_SWITCH (SWITCH_ARG EXT_CSD_HS_TIMING 0);;
        print Messages.hs_failed [];;
        mret false
    else print Messages.hs_nak [];; mret false
  else mret false.

(** 8-bit width; the result is [width]. *)
Definition negotiate_width : E Z :=
  r ← emmc_send_command CMD6_SWITCH (SWITCH_ARG EXT_CSD_BUS_WIDTH EXT_CSD_BUS_WIDTH_8BIT);
  if decide (r = E_OK) then
    rmw CONTROL0 (fun v => Z.lor (Z.land v (bnot CTRL0_4BIT)) CTRL0_8BIT);;
    ok ← emmc_bus_ok;
    if ok : bool then mret 8
    else
      rmw CONTROL0 (fun v => Z.lor (Z.land v (bnot CTRL0_8BIT)) CTRL0_4BIT);;
      emmc_send_command CMD6_SWITCH (SWITCH_ARG EXT_CSD_BUS_WIDTH EXT_CSD_BUS_WIDTH_4BIT);;
      print Messages.width_failed [];;
      mret 4
  else mret 4.

Definition emmc_negotiate_speed : E unit :=
  hs ← negotiate_hs;
  width ← negotiate_width;
  print Messages.mode [flag hs; width].

Definition emmc_already_running : E bool :=
  v ← rd CONTROL1;
  let both := Z.lor CTRL1_CLK_EN CTRL1_CLK_STABLE in
  mret (Z.land v both =? both).

Definition emmc_host_reset : E StatusCode :=
  let srst := bits [CTRL1_SRST_HC; CTRL1_SRST_CMD; CTRL1_SRST_DATA] in
  wr CONTROL0 0;;
  wr CONTROL1 0;;
  rmw CONTROL1 (fun v => Z.lor v srst);;
  r ← poll_loop (countdown 10000) CONTROL1 (fun v => negb (has v srst));
  if decide (r <> E_OK) then print Messages.reset_timeout [];; mret E_TIMED_OUT else
  rmw CONTROL1 (fun v => Z.lor (Z.land v (bnot CTRL1_DATA_TOUNIT)) (Z.shiftl 0xE 16));;
  wr IRPT_MASK 0xFFFFFFFF;;
  wr IRPT_EN 0;;
  mret E_OK.

Definition emmc_power_on : E StatusCode :=
  r ← emmc_set_clock 400000;
  if decide (r <> E_OK) then print Messages.clock_failed [];; mret E_TIMED_OUT else
  rmw CONTROL0 (fun v => bits [v; Z.shiftl 7 9; Z.shiftl 1 8]);;
  emmc_delay_us 10000;;
  mret E_OK.

(** The [do ... while] that repeats CMD1 until the card is ready; the result
    is a status to return, or the OCR. *)
Fixpoint op_cond_loop (count : nat) : E (StatusCode + Z) :=
  match count with
  | O => stop NoFuel
  | S count' =>
      r ← emmc_send_command CMD1 0x40FF8080;
      if decide (r <> E_OK) then i ← rd INTERRUPT; print Messages.cmd1_fail [i];; mret (inl E_CMD) else
      ocr ← rd RESP0;
      if bool_decide (count' = O) then print Messages.cmd1_timeout [];; mret (inl E_TIMED_OUT) else
      emmc_delay_us 1000;;
      if has ocr (Z.shiftl 1 31) then mret (inr ocr) else op_cond_loop count'
  end.

Definition emmc_card_identify : E StatusCode :=
  emmc_send_command CMD0 0;;
  emmc_delay_us 2000;;
  x ← op_cond_loop (countdown 1000);
  match x with
  | inl code => mret code
  | inr ocr =>
      set_vars (fun v => v <| is_high_capacity := flag (has ocr (Z.shiftl 1 30)) |>);;
      r ← emmc_send_command CMD2 0;
      if decide (r <> E_OK) then mret E_CMD else
      set_vars (fun v => v <| rca := 1 |>);;
      a ← var rca;
      r ← emmc_send_command CMD3 (shl a 16);
      if decide (r <> E_OK) then mret E_CMD else
      a ← var rca;
      r ← emmc_send_command CMD7 (shl a 16);
      if decide (r <> E_OK) then mret E_CMD else
      mret E_OK
  end.

Definition emmc_bus_baseline : E StatusCode :=
  r ← emmc_send_command CMD6_SWITCH (SWITCH_ARG EXT_CSD_BUS_WIDTH EXT_CSD_BUS_WIDTH_4BIT);
  if decide (r <> E_OK) then print Messages.cmd6_failed [];; mret E_CMD else
  rmw CONTROL0 (fun v => Z.lor v CTRL0_4BIT);;
  r ← emmc_set_clock 25000000;
  if decide (r <> E_OK) then print Messages.clock25_failed [];; mret E_TIMED_OUT else
  mret E_OK.

Definition emmc_init : E StatusCode :=
  ready ← var s_emmc_initialized;
  if negb (ready =? 0) then mret E_OK else
  running ← emmc_already_running;
  if running : bool then
    emmc_probe_capabilities;;
    set_vars (fun v => v <| s_emmc_initialized := 1 |>);;
    mret E_OK
  else
  print Messages.init [];;
  ret ← emmc_host_reset;
  if decide (ret <> E_OK) then mret ret else
  ret ← emmc_power_on;
  if decide (ret <> E_OK) then mret ret else
  ret ← emmc_card_identify;
  if decide (ret <> E_OK) then mret ret else
  ret ← emmc_bus_baseline;
  if decide (ret <> E_OK) then mret ret else
  emmc_probe_capabilities;;
  emmc_negotiate_speed;;
  set_vars (fun v => v <| s_emmc_initialized := 1 |>);;
  mret E_OK.

(** ** ADMA2 *)

Definition emmc_reset_cmd_data : E unit :=
  let srst := Z.lor CTRL1_SRST_CMD CTRL1_SRST_DATA in
  rmw CONTROL1 (fun v => Z.lor v srst);;
  poll_loop (countdown 10000) CONTROL1 (fun v => negb (has v srst));;
  mret tt.

(** [s_adma2_table]; an entry is two words, [attr_len] and [address]. *)
Variable s_adma2_table : Z.

(** The loop; one turn per entry. *)
Fixpoint build_loop (fuel : nat) (addr remaining n : Z) : E Z :=
  if remaining =? 0 then
    if n =? 0 then stop Fault else
    w ← load32 (s_adma2_table + 8 * (n - 1));
    store32 (s_adma2_table + 8 * (n - 1)) (bits [w; ADMA2_DESC_END; ADMA2_DESC_INT]);;
    mret n
  else if ADMA2_MAX_DESCRIPTORS <=? n then mret 0
  else
    match fuel with
    | O => stop NoFuel
    | S fuel' =>
        let chunk := if ADMA2_MAX_CHUNK <? remaining then ADMA2_MAX_CHUNK else remaining in
        let len16 := if chunk =? ADMA2_MAX_CHUNK then 0 else chunk in
        store32 (s_adma2_table + 8 * n) (bits [shl len16 16; ADMA2_DESC_VALID; ADMA2_DESC_ACT_TRAN]);;
        store32 (s_adma2_table + 8 * n + 4) addr;;
        build_loop fuel' (u32 (addr + chunk)) (remaining - chunk) (n + 1)
    end.

Definition emmc_build_adma2_table (buf total_bytes : Z) : E Z :=
  build_loop (Z.to_nat ADMA2_MAX_DESCRIPTORS) buf total_bytes 0.

Definition xfer_arg (sector : Z) : E Z :=
  hc ← var is_high_capacity; mret (if hc =? 0 then u32 (sector * SECTOR_SIZE) else sector).

Definition emmc_xfer_adma2 (cmd sector buf count : Z) (is_write : bool) : E StatusCode :=
  n ← emmc_build_adma2_table buf (u32 (count * SECTOR_SIZE));
  if n =? 0 then mret E_INVALID_ARGS else
  dsb;;
  rmw CONTROL0 (fun v => Z.lor (Z.land v (bnot CTRL0_DMA_SELECT_MASK)) CTRL0_DMA_SELECT_ADMA2);;
  wr ADMA_ADDRESS s_adma2_table;;
  arg ← xfer_arg sector;
  wr BLKSIZECNT (Z.lor (shl count 16) SECTOR_SIZE);;
  r ← emmc_send_command (Z.lor cmd TM_DMA_EN) arg;
  if decide (r <> E_OK) then mret E_CMD else
  st ← emmc_wait_interrupt INT_DATA_DONE (u32 (2000 + count * 2));
  if decide (st <> E_OK) then e ← rd ADMA_ERROR; print Messages.adma_failed [status_code st; e];; mret st else
  r ← (if is_write then emmc_wait_status STATUS_DAT_ACTIVE 5000 else mret E_OK);
  if decide (r <> E_OK) then mret E_TIMED_OUT else
  dsb;;
  mret E_OK.

(** ** Transfers *)

(** [words[i] = emmc_regs->DATA], [n] times, from address [a]. *)
Fixpoint words_in (n : nat) (a : Z) : E unit :=
  match n with
  | O => mret tt
  | S n' => w ← rd DATA; store32 a w;; words_in n' (a + 4)
  end.
Fixpoint words_out (n : nat) (a : Z) : E unit :=
  match n with
  | O => mret tt
  | S n' => w ← load32 a; wr DATA w;; words_out n' (a + 4)
  end.

(** [count] blocks through the data port; [ready] announces each. *)
Fixpoint blocks_pio (ready : Z) (move : nat -> Z -> E unit) (count : nat) (a : Z) : E StatusCode :=
  match count with
  | O => mret E_OK
  | S count' =>
      r ← emmc_wait_interrupt ready 2000;
      if decide (r <> E_OK) then mret E_TIMED_OUT else
      move (Z.to_nat (SECTOR_SIZE / 4)) a;;
      blocks_pio ready move count' (a + SECTOR_SIZE)
  end.

(** A transfer by DMA if it can be and works, else by PIO. *)
Definition emmc_read_blocks (sector buf count : Z) : E StatusCode :=
  if count =? 0 then mret E_OK else
  adma ← var s_adma2_supported;
  done ← (if negb (adma =? 0) && (1 <? count) then
            r ← emmc_xfer_adma2 CMD18 sector buf count false;
            if decide (r = E_OK) then mret true
            else emmc_reset_cmd_data;; print Messages.read_fallback [];; mret false
          else mret false);
  if done : bool then mret E_OK else
  arg ← xfer_arg sector;
  wr BLKSIZECNT (Z.lor (shl count 16) SECTOR_SIZE);;
  r ← emmc_send_command (if count =? 1 then CMD17 else CMD18) arg;
  if decide (r <> E_OK) then mret E_CMD else
  r ← blocks_pio INT_READ_RDY words_in (Z.to_nat count) buf;
  if decide (r <> E_OK) then mret E_TIMED_OUT else
  r ← emmc_wait_interrupt INT_DATA_DONE 2000;
  mret (if decide (r <> E_OK) then E_TIMED_OUT else E_OK).

Definition emmc_write_blocks (sector buf count : Z) : E StatusCode :=
  if count =? 0 then mret E_OK else
  if sector <? EMMC_FIRMWARE_FLOOR then
    print Messages.blocked [sector; EMMC_FIRMWARE_FLOOR];; mret E_INVALID_ARGS
  else
  adma ← var s_adma2_supported;
  done ← (if negb (adma =? 0) && (1 <? count) then
            r ← emmc_xfer_adma2 CMD25 sector buf count true;
            if decide (r = E_OK) then mret true
            else emmc_reset_cmd_data;; print Messages.write_fallback [];; mret false
          else mret false);
  if done : bool then mret E_OK else
  arg ← xfer_arg sector;
  wr BLKSIZECNT (Z.lor (shl count 16) SECTOR_SIZE);;
  r ← emmc_send_command (if count =? 1 then CMD24 else CMD25) arg;
  if decide (r <> E_OK) then mret E_CMD else
  r ← blocks_pio INT_WRITE_RDY words_out (Z.to_nat count) buf;
  if decide (r <> E_OK) then mret E_TIMED_OUT else
  r ← emmc_wait_interrupt INT_DATA_DONE 5000;
  if decide (r <> E_OK) then mret E_TIMED_OUT else
  r ← emmc_wait_status STATUS_DAT_ACTIVE 5000;
  mret (if decide (r <> E_OK) then E_TIMED_OUT else E_OK).
End emmc.

(** ** The controller and the card *)

(** What the data port is in the middle of: words of sectors [s, s+n) to come
    after the first [k], bytes of them received so far, or a DMA. *)
Inductive xfer := XNone | XRead (s n : Z) (k : nat) | XWrite (s n : Z) (got : list Z) | XDma.

(** [h_avail]: a block is ready to be moved; [h_seen] and [h_done]: the flags
    that announce a block and the end are latched; [h_good]: no error will be
    signalled of this transfer. *)
Record host_view := mkHost {
  h_card : Z -> list Z;
  h_arg : Z;
  h_blk : Z;
  h_adma : Z;
  h_xfer : xfer;
  h_good : bool;
  h_avail : bool;
  h_seen : bool;
  h_done : bool
}.
#[export] Instance eta_host_view : Settable host_view :=
  fun r => mkHost (h_card r) (h_arg r) (h_blk r) (h_adma r) (h_xfer r) (h_good r) (h_avail r) (h_seen r) (h_done r).

Definition ready_flag (x : xfer) : Z := match x with XWrite _ _ _ => INT_WRITE_RDY | _ => INT_READ_RDY end.
Definition finished (x : xfer) : Prop :=
  match x with
  | XNone => False
  | XRead s n k => (128 * Z.to_nat n <= k)%nat
  | XWrite s n got => (512 * Z.to_nat n <= length got)%nat
  | XDma => True
  end.

(** A descriptor table in RAM, as the segments it names. *)
Inductive adma_lines (m : ram) : Z -> list (Z * Z) -> Prop :=
  | adma_last a addr len : adma_line m a addr len true -> adma_lines m a [(addr, len)]
  | adma_more a addr len segs : adma_line m a addr len false -> adma_lines m (a + 8) segs ->
      adma_lines m a ((addr, len) :: segs)
with adma_line (m : ram) : Z -> Z -> Z -> bool -> Prop :=
  | adma_line_intro a w (last : bool) :
      w = ram_word m a -> has w ADMA2_DESC_VALID = true -> Z.land w 0x30 = ADMA2_DESC_ACT_TRAN ->
      has w ADMA2_DESC_END = last ->
      adma_line m a (ram_word m (a + 4)) (if Z.shiftr w 16 =? 0 then 65536 else Z.shiftr w 16) last.

Definition gather (m : ram) (segs : list (Z * Z)) : list Z :=
  concat (map (fun sg => ram_get m sg.1 (Z.to_nat sg.2)) segs).
Definition in_segs (segs : list (Z * Z)) (x : Z) : Prop := exists sg, sg ∈ segs /\ sg.1 <= x < sg.1 + sg.2.

Definition ram_bytes (m : ram) : Prop := forall a, is_byte (m a).
Definition write_cmd (c : Z) : bool := (Z.shiftr c 24 =? 24) || (Z.shiftr c 24 =? 25).
Definition cmd_blocks (c : Z) (h : host_view) : Z := if has c TM_BLKCNT_EN then Z.shiftr (h_blk h) 16 else 1.
Definition outside (s n x : Z) : Prop := ~ s <= x < s + n.

(** What moving one word does to the port. *)
Definition word_moved (h h' : host_view) (x : xfer) (k : nat) : Prop :=
  h_arg h' = h_arg h /\ h_blk h' = h_blk h /\ h_adma h' = h_adma h /\ h_xfer h' = x /\ h_good h' = h_good h /\
  h_avail h' = negb (bool_decide (k mod 128 = 0)%nat) /\ h_seen h' = h_seen h /\ h_done h' = h_done h.

(** The last command the controller was given is [c]. *)
Inductive answering {D} `{Mmio D} (c : Z) : D -> Prop :=
  | answering_cmd d m d' m' : io_write CMDTM c (d, m) = (d', m') -> answering c d'
  | answering_read r d m v d' m' : answering c d -> io_read r (d, m) = (v, (d', m')) -> answering c d'
  | answering_write r v d m d' m' : answering c d -> r <> CMDTM -> io_write r v (d, m) = (d', m') -> answering c d'.

Class SdHost (D : Type) `{Mmio D} := {
  host : D -> host_view;
  card_bytes : forall d s, length (h_card (host d) s) = 512%nat /\ Forall is_byte (h_card (host d) s);

  (* Reads *)
  read_quiet : forall r d m v d' m', io_read r (d, m) = (v, (d', m')) -> r <> DATA -> r <> INTERRUPT ->
    host d' = host d /\ m' = m;
  ocr_sectors : forall d m v s', answering CMD1 d -> io_read RESP0 (d, m) = (v, s') -> has (u32 v) (Z.shiftl 1 31) = true ->
    has (u32 v) (Z.shiftl 1 30) = true;
  read_flags : forall d m v d' m', io_read INTERRUPT (d, m) = (v, (d', m')) ->
    exists a f e, host d' = (host d) <| h_avail := a |> <| h_seen := f |> <| h_done := e |> /\ m' = m /\
    (has (u32 v) (ready_flag (h_xfer (host d))) = f) /\ has (u32 v) INT_DATA_DONE = e /\
    (h_avail (host d) = true -> a = true) /\
    (f = true -> h_seen (host d) = true \/ a = true) /\
    (e = true -> h_done (host d) = true \/ finished (h_xfer (host d))) /\
    (h_done (host d) = true -> finished (h_xfer (host d)) -> has (u32 v) INT_ERROR_MASK = false ->
     h_good (host d) = true);
  read_data : forall d m v d' m', io_read DATA (d, m) = (v, (d', m')) ->
    m' = m /\ (forall x, h_card (host d') x = h_card (host d) x) /\
    forall s n k, h_xfer (host d) = XRead s n k -> (k < 128 * Z.to_nat n)%nat -> h_avail (host d) = true ->
      word_moved (host d) (host d') (XRead s n (S k)) (S k) /\
      (h_good (host d) = true -> le32 (u32 v) = take 4 (drop (4 * k) (sectors_of (h_card (host d)) s (Z.to_nat n))));

  (* Writes *)
  write_quiet : forall r v d m d' m', io_write r v (d, m) = (d', m') -> r = CONTROL0 \/ r = IRPT_MASK \/ r = IRPT_EN ->
    host d' = host d /\ m' = m;
  write_control1 : forall v d m d' m', io_write CONTROL1 v (d, m) = (d', m') ->
    (forall x, h_card (host d') x = h_card (host d) x) /\ m' = m;
  write_arg : forall v d m d' m', io_write ARG1 v (d, m) = (d', m') -> host d' = (host d) <| h_arg := v |> /\ m' = m;
  write_blk : forall v d m d' m', io_write BLKSIZECNT v (d, m) = (d', m') -> host d' = (host d) <| h_blk := v |> /\ m' = m;
  write_adma : forall v d m d' m', io_write ADMA_ADDRESS v (d, m) = (d', m') -> host d' = (host d) <| h_adma := v |> /\ m' = m;
  write_flags : forall v d m d' m', io_write INTERRUPT v (d, m) = (d', m') ->
    host d' = (host d) <| h_seen := h_seen (host d) && negb (has v (ready_flag (h_xfer (host d)))) |>
                     <| h_done := h_done (host d) && negb (has v INT_DATA_DONE) |> /\ m' = m;
  write_data : forall v d m d' m' s n got, io_write DATA v (d, m) = (d', m') ->
    h_xfer (host d) = XWrite s n got -> (length got < 512 * Z.to_nat n)%nat -> h_avail (host d) = true ->
    let got' := got ++ le32 v in
    m' = m /\ word_moved (host d) (host d') (XWrite s n got') (length got' / 4) /\
    (forall x, outside s n x -> h_card (host d') x = h_card (host d) x) /\
    (length got' = (512 * Z.to_nat n)%nat -> h_good (host d) = true -> sectors_of (h_card (host d')) s (Z.to_nat n) = got');

  (* Commands *)
  cmd_card : forall c d m d' m', io_write CMDTM c (d, m) = (d', m') -> write_cmd c = false ->
    (forall x, h_card (host d') x = h_card (host d) x) /\ (ram_bytes m -> ram_bytes m') /\
    (has c TM_DMA_EN = false -> m' = m);
  cmd_read : forall c d m d' m', io_write CMDTM c (d, m) = (d', m') -> c = CMD17 \/ c = CMD18 ->
    h_seen (host d) = false -> h_done (host d) = false ->
    h_xfer (host d') = XRead (h_arg (host d)) (cmd_blocks c (host d)) 0 /\
    h_avail (host d') = false /\ h_seen (host d') = false /\ h_done (host d') = false;
  cmd_write : forall c d m d' m', io_write CMDTM c (d, m) = (d', m') -> c = CMD24 \/ c = CMD25 ->
    h_seen (host d) = false -> h_done (host d) = false ->
    h_xfer (host d') = XWrite (h_arg (host d)) (cmd_blocks c (host d)) [] /\
    h_avail (host d') = false /\ h_seen (host d') = false /\ h_done (host d') = false /\
    (forall x, h_card (host d') x = h_card (host d) x) /\ m' = m;
  cmd_dma_read : forall d m d' m' segs, io_write CMDTM (Z.lor CMD18 TM_DMA_EN) (d, m) = (d', m') ->
    h_seen (host d) = false -> h_done (host d) = false -> adma_lines m (h_adma (host d)) segs ->
    let s := h_arg (host d) in let n := cmd_blocks CMD18 (host d) in
    h_xfer (host d') = XDma /\ h_avail (host d') = false /\ h_seen (host d') = false /\ h_done (host d') = false /\
    (forall x, ~ in_segs segs x -> m' x = m x) /\
    (sum_list_with (fun sg => Z.to_nat sg.2) segs = (512 * Z.to_nat n)%nat -> h_good (host d') = true ->
     gather m' segs = sectors_of (h_card (host d)) s (Z.to_nat n));
  cmd_dma_write : forall d m d' m' segs, io_write CMDTM (Z.lor CMD25 TM_DMA_EN) (d, m) = (d', m') ->
    h_seen (host d) = false -> h_done (host d) = false -> adma_lines m (h_adma (host d)) segs ->
    let s := h_arg (host d) in let n := cmd_blocks CMD25 (host d) in
    h_xfer (host d') = XDma /\ h_avail (host d') = false /\ h_seen (host d') = false /\ h_done (host d') = false /\
    m' = m /\ (forall x, outside s n x -> h_card (host d') x = h_card (host d) x) /\
    (sum_list_with (fun sg => Z.to_nat sg.2) segs = (512 * Z.to_nat n)%nat -> h_good (host d') = true ->
     sectors_of (h_card (host d')) s (Z.to_nat n) = gather m segs)
}.
