(* ===== verification/EmmcThm.v ===== *)
(** * The eMMC driver is right

    Over any controller and card that obey [SdHost]: bringing them up comes
    back; the waits, the data port and the DMA do what the transfers need; a
    read reads, a write writes above the floor.  The proofs follow the abstract
    view of the controller ([view]) through the driver: [calm] is what passing
    time may change, [moved] what a transfer may change, [transferred] what it
    has then done. *)

From Stdlib Require String.
From S2P Require Import Prelude Types Crc Telemetry Board Mmio Emmc.
Import EMMC2Regs.

(** ** Waiting *)

Section waiting.
Context {D : Type} `{SdHost D}.
Abbreviation St := (io D EmmcVars).
Implicit Types s : St.

Definition view (s : St) : host_view := host (io_dev s).

(** No flag is stale. *)
Definition tracked (s : St) : Prop :=
  (h_seen (view s) = true -> h_avail (view s) = true) /\ (h_done (view s) = true -> finished (h_xfer (view s))).

(** Only the controller's own progress. *)
Record calm (s s' : St) : Prop := {
  cm_view : exists a f e, view s' = (view s) <| h_avail := a |> <| h_seen := f |> <| h_done := e |> /\
              (h_avail (view s) = true -> a = true);
  cm_ram : io_ram s' = io_ram s;
  cm_vars : io_vars s' = io_vars s;
  cm_tracked : tracked s -> tracked s'
}.

#[export] Instance calm_preorder : PreOrder calm.
Proof.
  split.
  - intros s. constructor; [|done..]. exists (h_avail (view s)), (h_seen (view s)), (h_done (view s)).
    split; [by destruct (view s)|done].
  - intros s1 s2 s3 [(a & f & e & E1 & Ha) ? ? ?] [(a' & f' & e' & E2 & Ha') ? ? ?].
    constructor; [|congruence..|auto]. exists a', f', e'. rewrite E2, E1. split; [by destruct (view s1)|].
    intros Hs. apply Ha'. rewrite E1. by apply Ha.
Qed.

Lemma calm_view_eq s s' : view s' = view s -> io_ram s' = io_ram s -> io_vars s' = io_vars s -> calm s s'.
Proof.
  intros Hv Hr Hm. constructor; [|done..|unfold tracked; by rewrite Hv].
  exists (h_avail (view s)), (h_seen (view s)), (h_done (view s)). rewrite Hv. split; [by destruct (view s)|done].
Qed.

(** The fields a controller's progress does not touch. *)
Lemma calm_fields s s' : calm s s' ->
  h_card (view s') = h_card (view s) /\ h_arg (view s') = h_arg (view s) /\ h_blk (view s') = h_blk (view s) /\
  h_adma (view s') = h_adma (view s) /\ h_xfer (view s') = h_xfer (view s) /\ h_good (view s') = h_good (view s) /\
  (h_avail (view s) = true -> h_avail (view s') = true).
Proof. intros [(a & f & e & -> & Ha) _ _ _]. by split_and!. Qed.

Lemma rd_interrupt s : returns (rd INTERRUPT) s (fun v s' =>
  calm s s' /\ has v (ready_flag (h_xfer (view s))) = h_seen (view s') /\ has v INT_DATA_DONE = h_done (view s') /\
  (h_done (view s) = true -> finished (h_xfer (view s)) -> has v INT_ERROR_MASK = false -> h_good (view s) = true)).
Proof.
  unfold returns, rd. destruct (io_read INTERRUPT (io_dev s, io_ram s)) as [v [d m]] eqn:Hrd.
  destruct (read_flags _ _ _ _ _ Hrd) as (a & f & e & Hh & -> & Hf & He & Ha & Hs & Hd & Hg).
  assert (view (s <| io_dev := d |> <| io_ram := io_ram s |>) = (view s) <| h_avail := a |> <| h_seen := f |> <| h_done := e |>)
    as Hv by exact Hh.
  rewrite Hv. split_and!; try done. constructor; [by exists a, f, e|done|done|].
  unfold tracked. rewrite Hv. unfold view. cbn. intros [Ht1 Ht2]. split.
  - intros Hf'. destruct (Hs Hf'); auto.
  - intros He'. destruct (Hd He'); auto.
Qed.

Lemma rd_calm (r : Z) E : r <> DATA -> keeps E calm (rd (V := EmmcVars) r).
Proof.
  intros Hr. apply returns_keeps. intros s. destruct (decide (r = INTERRUPT)) as [->|Hi].
  { eapply returns_mono; [apply rd_interrupt|]. by intros v s' [? _]. }
  unfold returns, rd. destruct (io_read r (io_dev s, io_ram s)) as [v [d m]] eqn:Hrd.
  destruct (read_quiet _ _ _ _ _ _ Hrd Hr Hi) as [Hh ->]. by apply calm_view_eq.
Qed.

Lemma print_calm fmt args E : keeps E calm (print fmt args).
Proof. apply returns_keeps. intros s. by apply calm_view_eq. Qed.
Lemma delay_calm us E : keeps E calm (emmc_delay_us us).
Proof. apply returns_keeps. intros s. by apply calm_view_eq. Qed.
Lemma dsb_calm E : keeps E calm dsb.
Proof. apply returns_keeps. intros s. by apply calm_view_eq. Qed.
Lemma var_calm {A} (f : EmmcVars -> A) E : keeps E calm (var (D := D) f).
Proof. apply returns_keeps. intros s. by apply calm_view_eq. Qed.

Lemma wr_flags (v : Z) s : returns (wr INTERRUPT v) s (fun _ s' =>
  calm s s' /\ h_seen (view s') = h_seen (view s) && negb (has v (ready_flag (h_xfer (view s)))) /\
  h_done (view s') = h_done (view s) && negb (has v INT_DATA_DONE)).
Proof.
  unfold returns, wr. destruct (io_write INTERRUPT v (io_dev s, io_ram s)) as [d m] eqn:Hw.
  destruct (write_flags _ _ _ _ _ Hw) as [Hh ->].
  match goal with |- calm _ ?x /\ _ => assert (view x = host d) as Hv by done end. rewrite Hv, Hh. split_and!; [|done|done].
  constructor; [|done..|].
  - eexists (h_avail (view s)), _, _. rewrite Hv. split; [exact Hh|done].
  - unfold tracked. rewrite Hv, Hh. cbn. intros [H1 H2]. rewrite !andb_true_iff. unfold view in *. tauto.
Qed.

Lemma wr_flags_calm v E : keeps E calm (wr (V := EmmcVars) INTERRUPT v).
Proof. apply returns_keeps. intros s. eapply returns_mono; [apply wr_flags|]. by intros [] s' [? _]. Qed.

Lemma wr_control0_calm v E : keeps E calm (wr (V := EmmcVars) CONTROL0 v).
Proof.
  apply returns_keeps. intros s. unfold returns, wr. destruct (io_write CONTROL0 v (io_dev s, io_ram s)) as [d m] eqn:Hw.
  destruct (write_quiet _ _ _ _ _ _ Hw) as [Hh ->]; [by left|]. by apply calm_view_eq.
Qed.

Lemma poll_calm (reg : Z) (until : Z -> bool) E (n : nat) : reg <> DATA -> n <> O -> keeps E calm (poll_loop n reg until).
Proof.
  intros Hr Hn. induction n as [|n IH]; [done|]. cbn [poll_loop].
  apply keeps_bind; [by apply rd_calm|]. intros v. destruct (until v); [apply keeps_ret|].
  case_bool_decide; [apply keeps_ret|]. apply keeps_bind; [apply delay_calm|]. intros _. by apply IH.
Qed.

Lemma countdown_pos (c : Z) : 0 <= c -> countdown c <> O.
Proof. intros Hc. unfold countdown. destruct (Z.eqb_spec c 0); lia. Qed.

Lemma wait_status_calm (mask t : Z) E : keeps E calm (emmc_wait_status mask t).
Proof. apply poll_calm; [done|]. apply countdown_pos, wrap_range. lia. Qed.
End waiting.
#[export] Hint Resolve rd_calm print_calm delay_calm dsb_calm var_calm wr_flags_calm wr_control0_calm wait_status_calm : keeps.

Section interrupts.
Context {D : Type} `{SdHost D}.
Abbreviation St := (io D EmmcVars).
Implicit Types s : St.

Lemma returns_calm {A} (m : M St A) s (Q : A -> St -> Prop) : keeps never calm m ->
  (forall a s', calm s s' -> Q a s') -> returns m s Q.
Proof. intros Hm HQ. eapply returns_mono; [by apply keeps_returns|]. intros a s' Hs. by apply HQ. Qed.

(** The loop ends with the flag latched, or with an error to return. *)
Lemma wait_interrupt_loop_spec (mask : Z) (n : nat) : forall s, n <> O ->
  returns (wait_interrupt_loop n mask) s (fun r s' => calm s s' /\
    match r with
    | Some code => code = E_CMD \/ code = E_TIMED_OUT
    | None => (mask = ready_flag (h_xfer (view s)) -> h_seen (view s') = true) /\
              (mask = INT_DATA_DONE -> h_done (view s') = true)
    end).
Proof.
  induction n as [|n IH]; intros s Hn; [done|]. cbn [wait_interrupt_loop]. step.
  eapply returns_mono; [apply rd_interrupt|]. intros v s1 (Hc1 & Hs & Hd & _).
  destruct (has v mask) eqn:Hm.
  { step. split; [done|]. split; intros ->; congruence. }
  step. apply returns_calm; [by apply rd_calm|]. intros e s2 Hc2. assert (calm s s2) as Hc by by etrans.
  destruct (has e INT_ERROR_MASK).
  - step. apply returns_calm; [by apply rd_calm|]. intros e' s3 Hc3. step. apply returns_calm; [apply print_calm|]. intros [] s4 Hc4.
    step. apply returns_calm; [apply wr_flags_calm|]. intros [] s5 Hc5. step. split; [|by left].
    by do 3 (etrans; [|eassumption]).
  - case_bool_decide.
    + step. apply returns_calm; [by apply rd_calm|]. intros i s3 Hc3. step. apply returns_calm; [by apply rd_calm|]. intros st s4 Hc4.
      step. apply returns_calm; [apply print_calm|]. intros [] s5 Hc5. step. split; [|by right].
      by do 3 (etrans; [|eassumption]).
    + step. apply returns_calm; [apply delay_calm|]. intros [] s3 Hc3. assert (calm s s3) as Hc' by by etrans.
      eapply returns_mono; [by apply IH|]. intros r s4 [Hc4 Hr]. split; [by etrans|].
      destruct (calm_fields _ _ Hc') as (_ & _ & _ & _ & Hx & _). by rewrite Hx in Hr.
Qed.

Lemma emmc_wait_interrupt_spec (mask t : Z) s :
  returns (emmc_wait_interrupt mask t) s (fun r s' => calm s s' /\ (r = E_OK \/ r = E_CMD \/ r = E_TIMED_OUT) /\
    (r = E_OK -> tracked s ->
     (mask = ready_flag (h_xfer (view s)) -> h_avail (view s') = true /\ h_seen (view s') = false) /\
     (mask = INT_DATA_DONE -> finished (h_xfer (view s)) /\ h_good (view s) = true))).
Proof.
  unfold emmc_wait_interrupt. step. eapply returns_mono.
  { apply wait_interrupt_loop_spec, countdown_pos, wrap_range. lia. }
  intros [code|] s1 [Hc1 H1].
  { step. split_and!; [done|tauto|]. intros ->. by destruct H1. }
  step. eapply returns_mono; [apply rd_interrupt|]. intros e s2 (Hc2 & _ & _ & Hg).
  destruct (has e INT_ERROR_MASK).
  - step. apply returns_calm; [by apply rd_calm|]. intros e' s3 Hc3. step. apply returns_calm; [apply print_calm|]. intros [] s4 Hc4.
    step. apply returns_calm; [apply wr_flags_calm|]. intros [] s5 Hc5. step. split_and!; [|tauto|done].
    by do 4 (etrans; [|eassumption]).
  - step. eapply returns_mono; [apply wr_flags|]. intros [] s3 (Hc3 & Hs3 & _). step.
    split_and!; [by do 2 (etrans; [|eassumption])|tauto|]. intros _ Ht.
    destruct (calm_fields _ _ Hc1) as (_ & _ & _ & _ & Hx1 & Hg1 & _). destruct (calm_fields _ _ Hc2) as (_ & _ & _ & _ & Hx2 & _ & Ha2).
    destruct (calm_fields _ _ Hc3) as (_ & _ & _ & _ & _ & _ & Ha3).
    pose proof (cm_tracked _ _ Hc1 Ht) as [Ht1 Ht2]. split.
    + intros Hm. destruct H1 as [H1 _]. rewrite Hs3, Hx2, Hx1, <- Hm. split; [by apply Ha3, Ha2, Ht1, H1|].
      apply andb_false_iff. right. rewrite Hm. by destruct (h_xfer (view s)).
    + intros Hm. destruct H1 as [_ H1]. specialize (H1 Hm). rewrite <- Hx1, <- Hg1. auto.
Qed.

Lemma wait_interrupt_calm (mask t : Z) E : keeps E calm (emmc_wait_interrupt mask t).
Proof. apply returns_keeps. intros s. eapply returns_mono; [apply emmc_wait_interrupt_spec|]. by intros r s' [? _]. Qed.
End interrupts.
#[export] Hint Resolve wait_interrupt_calm : keeps.

(** ** What no command but a write changes *)

Section frames.
Context {D : Type} `{SdHost D}.
Abbreviation St := (io D EmmcVars).
Implicit Types s : St.

Definition sectors_addressed (s : St) : Prop := is_high_capacity (io_vars s) <> 0.

(** The card and the RAM... *)
Record quiet (s s' : St) : Prop := {
  qt_card : h_card (view s') = h_card (view s);
  qt_ram : io_ram s' = io_ram s;
  qt_mode : sectors_addressed s -> sectors_addressed s'
}.
(** ...or the card alone. *)
Record card_kept (s s' : St) : Prop := {
  ck_card : h_card (view s') = h_card (view s);
  ck_ram : ram_bytes (io_ram s) -> ram_bytes (io_ram s');
  ck_mode : sectors_addressed s -> sectors_addressed s'
}.
#[export] Instance quiet_preorder : PreOrder quiet.
Proof. split; [by constructor|]. intros s1 s2 s3 [] []. constructor; [congruence..|auto]. Qed.
#[export] Instance card_kept_preorder : PreOrder card_kept.
Proof. split; [by constructor|]. intros s1 s2 s3 [] []. constructor; [congruence|auto..]. Qed.

Lemma calm_quiet s s' : calm s s' -> quiet s s'.
Proof. intros Hc. destruct (calm_fields _ _ Hc) as [Hcd _], Hc. constructor; [done..|unfold sectors_addressed; by rewrite cm_vars0]. Qed.
Lemma quiet_kept s s' : quiet s s' -> card_kept s s'.
Proof. intros []. constructor; [done|by rewrite qt_ram0|done]. Qed.

Lemma keeps_quiet {A} E (m : M St A) : keeps E calm m -> keeps E quiet m.
Proof. apply keeps_weaken; [done|apply calm_quiet]. Qed.
Lemma keeps_kept {A} E (m : M St A) : keeps never quiet m -> keeps E card_kept m.
Proof. apply keeps_weaken; [by intros ? []|apply quiet_kept]. Qed.

(** Writes to the other registers. *)
Definition plain_write (r : Z) : Prop := r ∈ [CONTROL0; CONTROL1; ARG1; BLKSIZECNT; ADMA_ADDRESS; IRPT_MASK; IRPT_EN; INTERRUPT].

Lemma wr_quiet (r v : Z) E : plain_write r -> keeps E quiet (wr (V := EmmcVars) r v).
Proof.
  intros Hr. apply returns_keeps. intros s. unfold returns, wr.
  destruct (io_write r v (io_dev s, io_ram s)) as [d m] eqn:Hw.
  assert (h_card (host d) = h_card (view s) /\ m = io_ram s) as [Hc ->]; [|by constructor].
  unfold plain_write in Hr. rewrite !elem_of_cons in Hr. destruct Hr as [->|[->|[->|[->|[->|[->|[->|[->|Hr]]]]]]]].
  - destruct (write_quiet _ _ _ _ _ _ Hw) as [Hh ->]; [tauto|]. by rewrite Hh.
  - destruct (write_control1 _ _ _ _ _ Hw) as [Hh ->]. split; [by apply functional_extensionality|done].
  - destruct (write_arg _ _ _ _ _ Hw) as [Hh ->]. by rewrite Hh.
  - destruct (write_blk _ _ _ _ _ Hw) as [Hh ->]. by rewrite Hh.
  - destruct (write_adma _ _ _ _ _ Hw) as [Hh ->]. by rewrite Hh.
  - destruct (write_quiet _ _ _ _ _ _ Hw) as [Hh ->]; [tauto|]. by rewrite Hh.
  - destruct (write_quiet _ _ _ _ _ _ Hw) as [Hh ->]; [tauto|]. by rewrite Hh.
  - destruct (write_flags _ _ _ _ _ Hw) as [Hh ->]. by rewrite Hh.
  - by apply elem_of_nil in Hr.
Qed.

Lemma rd_data_quiet E : keeps E quiet (rd (V := EmmcVars) DATA).
Proof.
  apply returns_keeps. intros s. unfold returns, rd. destruct (io_read DATA (io_dev s, io_ram s)) as [v [d m]] eqn:Hr.
  destruct (read_data _ _ _ _ _ Hr) as (-> & Hc & _). constructor; [by apply functional_extensionality|done..].
Qed.

Lemma wr_cmd_quiet (c : Z) E : write_cmd c = false -> has c TM_DMA_EN = false -> keeps E quiet (wr (V := EmmcVars) CMDTM c).
Proof.
  intros Hw Hd. apply returns_keeps. intros s. unfold returns, wr.
  destruct (io_write CMDTM c (io_dev s, io_ram s)) as [d m] eqn:Hc.
  destruct (cmd_card _ _ _ _ _ Hc Hw) as (Hk & _ & Hm). rewrite (Hm Hd).
  constructor; [by apply functional_extensionality|done..].
Qed.

Lemma wr_cmd_kept (c : Z) E : write_cmd c = false -> keeps E card_kept (wr (V := EmmcVars) CMDTM c).
Proof.
  intros Hw. apply returns_keeps. intros s. unfold returns, wr.
  destruct (io_write CMDTM c (io_dev s, io_ram s)) as [d m] eqn:Hc.
  destruct (cmd_card _ _ _ _ _ Hc Hw) as (Hk & Hm & _). constructor; [by apply functional_extensionality|done..].
Qed.

Lemma vars_quiet (f : EmmcVars -> EmmcVars) E :
  (forall v, is_high_capacity v <> 0 -> is_high_capacity (f v) <> 0) -> keeps E quiet (set_vars (D := D) f).
Proof. intros Hf. apply returns_keeps. intros s. constructor; [done..|apply Hf]. Qed.

Lemma plain_in (r : Z) : bool_decide (plain_write r) = true -> plain_write r.
Proof. apply bool_decide_eq_true. Qed.
End frames.
#[export] Hint Extern 2 (keeps _ quiet (wr _ _)) => apply wr_quiet, plain_in; reflexivity : keeps.
#[export] Hint Extern 1 (keeps _ quiet (set_vars _)) => apply vars_quiet; by intros : keeps.
#[export] Hint Extern 3 (keeps _ quiet _) => apply keeps_quiet; solve [eauto 2 with keeps] : keeps.
#[export] Hint Resolve rd_data_quiet : keeps.

Section commands.
Context {D : Type} `{SdHost D}.
Abbreviation St := (io D EmmcVars).
Implicit Types s : St.

Definition plain_cmd (c : Z) : bool := negb (write_cmd c) && negb (has c TM_DMA_EN).

Lemma send_command_quiet (c a : Z) E : plain_cmd c = true -> keeps E (quiet (D := D)) (emmc_send_command c a).
Proof.
  intros Hp. apply andb_true_iff in Hp as [H1%negb_true_iff H2%negb_true_iff].
  pose proof (fun E => wr_cmd_quiet (D := D) c E H1 H2). unfold emmc_send_command. keeps.
Qed.

Lemma rmw_quiet (r : Z) (f : Z -> Z) E : r <> DATA -> plain_write r -> keeps E (quiet (D := D)) (rmw r f).
Proof. intros Hd Hr. unfold rmw. apply keeps_bind; [by apply keeps_quiet, rd_calm|]. intros v. by apply wr_quiet. Qed.

Lemma poll_quiet (reg : Z) (until : Z -> bool) E (c : Z) : reg <> DATA -> 0 <= c ->
  keeps E (quiet (D := D)) (poll_loop (countdown c) reg until).
Proof. intros Hr Hc. apply keeps_quiet, poll_calm; [done|by apply countdown_pos]. Qed.
End commands.
#[export] Hint Extern 1 (keeps _ quiet (emmc_send_command _ _)) => apply send_command_quiet; reflexivity : keeps.
#[export] Hint Extern 1 (keeps _ quiet (rmw _ _)) => apply rmw_quiet; [discriminate|apply plain_in; reflexivity] : keeps.
#[export] Hint Extern 1 (keeps _ quiet (poll_loop _ _ _)) => apply poll_quiet; [discriminate|lia] : keeps.

Section init.
Context {D : Type} `{SdHost D}.
Abbreviation St := (io D EmmcVars).
Implicit Types s : St.
Abbreviation Quiet := (keeps never (quiet (D := D))).

Lemma data_in_quiet (n : nat) : Quiet (data_in n).
Proof. induction n as [|n IH]; cbn [data_in]; keeps. Qed.
Lemma set_clock_quiet (hz : Z) : Quiet (emmc_set_clock hz).
Proof. unfold emmc_set_clock. keeps. Qed.
#[local] Hint Resolve data_in_quiet set_clock_quiet : keeps.

Lemma ext_csd_quiet : Quiet emmc_read_ext_csd.
Proof. unfold emmc_read_ext_csd. keeps. Qed.
#[local] Hint Resolve ext_csd_quiet : keeps.

Lemma probe_quiet : Quiet emmc_probe_capabilities.
Proof. unfold emmc_probe_capabilities. keeps. Qed.
Lemma bus_ok_quiet : Quiet emmc_bus_ok.
Proof. unfold emmc_bus_ok. keeps. Qed.
#[local] Hint Resolve probe_quiet bus_ok_quiet : keeps.

Lemma negotiate_hs_quiet : Quiet negotiate_hs.
Proof. unfold negotiate_hs. keeps. Qed.
Lemma negotiate_width_quiet : Quiet negotiate_width.
Proof. unfold negotiate_width. keeps. Qed.
#[local] Hint Resolve negotiate_hs_quiet negotiate_width_quiet : keeps.

Lemma negotiate_quiet : Quiet emmc_negotiate_speed.
Proof. unfold emmc_negotiate_speed. keeps. Qed.
Lemma running_quiet : Quiet emmc_already_running.
Proof. unfold emmc_already_running. keeps. Qed.
Lemma host_reset_quiet : Quiet emmc_host_reset.
Proof. unfold emmc_host_reset. keeps. Qed.
Lemma power_on_quiet : Quiet emmc_power_on.
Proof. unfold emmc_power_on. keeps. Qed.
Lemma baseline_quiet : Quiet emmc_bus_baseline.
Proof. unfold emmc_bus_baseline. keeps. Qed.
#[local] Hint Resolve negotiate_quiet running_quiet host_reset_quiet power_on_quiet baseline_quiet : keeps.

Lemma returns_quiet {A} (m : M St A) s (Q : A -> St -> Prop) : Quiet m ->
  (forall a s', quiet s s' -> Q a s') -> returns m s Q.
Proof. intros Hm HQ. eapply returns_mono; [by apply keeps_returns|]. intros a s' Hs. by apply HQ. Qed.

(** What follows a command leaves it the last one. *)
Definition still_answering (c : Z) (s s' : St) : Prop := answering c (io_dev s) -> answering c (io_dev s').
#[local] Instance still_answering_preorder c : PreOrder (still_answering c).
Proof. unfold still_answering. split; [by intros s|]. intros s1 s2 s3; auto. Qed.
Lemma rd_answering c r : keeps ever (still_answering c) (rd r : M St Z).
Proof. intros s. unfold runs, rd. destruct (io_read _ _) as [v [d m]] eqn:Hr. intros Ha. by eapply answering_read. Qed.
Lemma wr_answering c r v : r <> CMDTM -> keeps ever (still_answering c) (wr r v : M St unit).
Proof. intros Hr s. unfold runs, wr. destruct (io_write _ _ _) as [d m] eqn:Hw. intros Ha. by eapply answering_write. Qed.
Lemma delay_answering c us : keeps ever (still_answering c) (emmc_delay_us us : M St unit).
Proof. intros s. exact (fun Ha => Ha). Qed.
Lemma print_answering c fmt args : keeps ever (still_answering c) (print fmt args : M St unit).
Proof. intros s. exact (fun Ha => Ha). Qed.
Lemma stop_answering {A} c w : keeps ever (still_answering c) (stop w : M St A).
Proof. intros s. exact (conj I (fun Ha => Ha)). Qed.
#[local] Hint Resolve rd_answering delay_answering print_answering stop_answering : keeps.
#[local] Hint Extern 1 (keeps _ (still_answering _) (wr _ _)) => (apply wr_answering; discriminate) : keeps.
Lemma poll_answering c n r until : keeps ever (still_answering c) (poll_loop n r until : M St StatusCode).
Proof. induction n as [|n IH]; cbn [poll_loop]; keeps. Qed.
Lemma wait_interrupt_answering c n mask : keeps ever (still_answering c) (wait_interrupt_loop n mask : M St (option StatusCode)).
Proof. induction n as [|n IH]; cbn [wait_interrupt_loop]; keeps. Qed.
#[local] Hint Resolve poll_answering wait_interrupt_answering : keeps.

(** CMD1 that came back with E_OK has been given, and nothing after it. *)
Lemma runs_any {S A} (m : M S A) (s : S) : runs m s (fun _ _ => True) (fun _ _ => True).
Proof. unfold runs. by destruct (m s). Qed.
Lemma returns_and_runs {S A} (m : M S A) (s : S) (P Q : A -> S -> Prop) : runs m s P (fun _ _ => True) ->
  returns m s (fun a (s' : S) => P a s' -> Q a s') -> returns m s Q.
Proof. unfold runs, returns. destruct (m s); auto. Qed.
Lemma cmd1_answered arg s : runs (emmc_send_command CMD1 arg) s (fun r s' => r = E_OK -> answering CMD1 (io_dev s')) (fun _ _ => True).
Proof.
  assert (forall s1, runs (st ← rd STATUS; print Messages.cmd_stuck [st];; mret E_TIMED_OUT : M St StatusCode) s1
    (fun r s' => r = E_OK -> answering CMD1 (io_dev s')) (fun _ _ => True)) as Hstuck.
  { intros s1. rstep. eapply runs_mono; [apply runs_any|intros st s2 _|done]. rstep. eapply runs_mono; [apply runs_any|intros [] s3 _|done]. by rstep. }
  unfold emmc_send_command. rstep. eapply runs_mono; [apply runs_any|intros r s1 _|done]. destruct (decide (r <> E_OK)); [apply Hstuck|].
  change (resp CMD1 =? CMD_RESP_48B) with false. change (resp CMD1 =? CMD_RESP_NONE) with false. cbv iota. do 2 rstep. rewrite decide_False by tauto.
  do 2 (rstep; eapply runs_mono; [apply runs_any|intros [] ? _|done]). rstep. unfold runs at 1, wr. destruct (io_write _ _ _) as [d m] eqn:Hw.
  assert (keeps ever (still_answering CMD1) (ret ← emmc_wait_interrupt INT_CMD_DONE 2000; if decide (ret <> E_OK) then mret ret else mret E_OK : M St StatusCode)) as Hk
    by (unfold emmc_wait_interrupt; keeps).
  eapply runs_mono; [apply Hk| |done]. cbv beta. intros r2 s2 Ha _. apply Ha. by apply answering_cmd in Hw.
Qed.

(** The card is ready when it says so, and then says how it is addressed. *)
Lemma op_cond_spec (n : nat) : forall s, n <> O ->
  returns (op_cond_loop n) s (fun r s' => quiet s s' /\ forall ocr, r = inr ocr -> has ocr (Z.shiftl 1 30) = true).
Proof.
  induction n as [|n IH]; intros s Hn; [done|]. cbn [op_cond_loop]. step.
  apply (returns_and_runs _ _ (fun r s1 => r = E_OK -> answering CMD1 (io_dev s1))); [apply cmd1_answered|].
  apply returns_quiet; [eauto with keeps|]. intros r s1 Q1 Hans. destruct (decide (r <> E_OK)).
  { step. apply returns_quiet; [eauto with keeps|]. intros i s2 Q2. step. apply returns_quiet; [eauto with keeps|]. intros [] s3 Q3.
    step. split; [by do 2 (etrans; [|eassumption])|done]. }
  step. unfold returns at 1, rd. destruct (io_read RESP0 (io_dev s1, io_ram s1)) as [ocr [d m]] eqn:Hr.
  destruct (read_quiet _ _ _ _ _ _ Hr) as [Hh ->]; [done..|]. pose proof (fun Ha => ocr_sectors _ _ _ _ Ha Hr) as Hocr.
  match goal with |- returns _ ?x _ => set (s2 := x); assert (quiet s1 s2) as Q2 by (constructor; [unfold view, s2; cbn; by rewrite Hh|done..]) end.
  clearbody s2. assert (quiet s s2) as Q by by etrans. case_bool_decide.
  { step. apply returns_quiet; [eauto with keeps|]. intros [] s3 Q3. step. split; [by etrans|done]. }
  step. apply returns_quiet; [eauto with keeps|]. intros [] s3 Q3. assert (quiet s s3) as Q' by by etrans.
  destruct (has (u32 ocr) (Z.shiftl 1 31)) eqn:H31.
  - step. split; [done|]. intros o [= <-]. apply Hocr; [|done]. apply Hans. by destruct (decide (r = E_OK)).
  - eapply returns_mono; [by apply IH|]. intros r' s4 [Q4 ?]. split; [by etrans|done].
Qed.

Lemma identify_quiet : Quiet emmc_card_identify.
Proof.
  unfold emmc_card_identify. apply keeps_bind; [eauto with keeps|]. intros _. apply keeps_bind; [eauto with keeps|]. intros _ s.
  apply runs_bind, runs_returns. eapply returns_mono; [by apply op_cond_spec|]. intros [code|ocr] s1 [Q1 Ho]; [by apply runs_ret|].
  specialize (Ho ocr eq_refl).
  match goal with |- runs ?m s1 _ _ => enough (Quiet m) as Hk end.
  { eapply runs_mono; [apply Hk|intros; by etrans|by intros ? ? []]. }
  apply keeps_bind; [apply vars_quiet; intros v _; cbn; by rewrite Ho|]. intros _. keeps.
Qed.
#[local] Hint Resolve identify_quiet : keeps.

Lemma emmc_init_quiet s : returns emmc_init s (fun _ s' => quiet s s').
Proof. apply keeps_returns. unfold emmc_init. keeps. Qed.

(** C31: bringing the controller up always ends.  Whatever the controller
    answers, or does not, [emmc_init] comes back; it has not touched the card's
    sectors nor the RAM; and the driver addresses the card by sectors if it
    did before, on a card that is a sector-addressed one (the contract's
    [ocr_sectors]: a card that answers CMD1 with bit 31 also sets bit 30). *)
Theorem emmc_init_returns s : returns emmc_init s (fun _ s' => quiet s s').
Proof. apply emmc_init_quiet. Qed.
End init.

(** ** Data commands and the data port *)

Section port.
Context {D : Type} `{SdHost D}.
Abbreviation St := (io D EmmcVars).
Implicit Types s : St.

(** The state a command is issued from: argument set, flags clear. *)
Record issuing (a : Z) (s s' : St) : Prop := {
  is_card : h_card (view s') = h_card (view s);
  is_blk : h_blk (view s') = h_blk (view s);
  is_adma : h_adma (view s') = h_adma (view s);
  is_arg : h_arg (view s') = a;
  is_seen : h_seen (view s') = false;
  is_done : h_done (view s') = false;
  is_ram : io_ram s' = io_ram s;
  is_vars : io_vars s' = io_vars s
}.

Lemma wr_arg (a : Z) s : returns (wr ARG1 a) s (fun _ s' =>
  view s' = (view s) <| h_arg := a |> /\ io_ram s' = io_ram s /\ io_vars s' = io_vars s).
Proof.
  unfold returns, wr. destruct (io_write ARG1 a (io_dev s, io_ram s)) as [d m] eqn:Hw.
  by destruct (write_arg _ _ _ _ _ Hw) as [Hh ->].
Qed.
Lemma wr_blk (v : Z) s : returns (wr BLKSIZECNT v) s (fun _ s' =>
  view s' = (view s) <| h_blk := v |> /\ io_ram s' = io_ram s /\ io_vars s' = io_vars s).
Proof.
  unfold returns, wr. destruct (io_write BLKSIZECNT v (io_dev s, io_ram s)) as [d m] eqn:Hw.
  by destruct (write_blk _ _ _ _ _ Hw) as [Hh ->].
Qed.
Lemma wr_adma (v : Z) s : returns (wr ADMA_ADDRESS v) s (fun _ s' =>
  view s' = (view s) <| h_adma := v |> /\ io_ram s' = io_ram s /\ io_vars s' = io_vars s).
Proof.
  unfold returns, wr. destruct (io_write ADMA_ADDRESS v (io_dev s, io_ram s)) as [d m] eqn:Hw.
  by destruct (write_adma _ _ _ _ _ Hw) as [Hh ->].
Qed.

(** [R] is what the command sets off; the controller's progress keeps it. *)
Lemma send_data_command (c a : Z) s (R : St -> Prop) :
  resp c = CMD_RESP_48 -> (forall s1 s2, calm s1 s2 -> R s1 -> R s2) ->
  (forall s1, issuing a s s1 -> returns (wr CMDTM c) s1 (fun _ s2 => R s2)) ->
  returns (emmc_send_command c a) s (fun r s' => if decide (r = E_OK) then R s' else (r = E_CMD \/ r = E_TIMED_OUT) /\ (calm s s' \/ R s')).
Proof.
  intros Hresp Hst Hcmd. unfold emmc_send_command. rewrite Hresp. step. apply returns_calm; [eauto with keeps|]. intros r1 s1 C1.
  destruct (decide (r1 <> E_OK)).
  { step. apply returns_calm; [eauto with keeps|]. intros st s2 C2. step. apply returns_calm; [eauto with keeps|]. intros [] s3 C3.
    step. cbn. split; [tauto|]. left. by do 2 (etrans; [|eassumption]). }
  cbn [Z.eqb]. change (CMD_RESP_48 =? CMD_RESP_48B) with false. change (CMD_RESP_48 =? CMD_RESP_NONE) with false. cbv iota.
  step. step. rewrite decide_False by tauto. step. eapply returns_mono; [apply wr_flags|]. intros [] s2 (C2 & Hs2 & Hd2).
  step. eapply returns_mono; [apply wr_arg|]. intros [] s3 (V3 & M3 & X3). step.
  assert (issuing a s s3) as Hi.
  { assert (calm s s2) as C by by etrans. destruct (calm_fields _ _ C) as (Hc & _ & Hb & Ha & _), C.
    constructor; rewrite ?V3, ?M3, ?X3; cbn; try done.
    - rewrite Hs2. apply andb_false_iff. right. by destruct (h_xfer (view s1)).
    - rewrite Hd2. apply andb_false_iff. by right. }
  eapply returns_mono; [by apply Hcmd|]. intros [] s4 R4. step.
  eapply returns_mono; [apply emmc_wait_interrupt_spec|]. intros r s5 (C5 & Hr & _).
  pose proof (Hst _ _ C5 R4) as R5. destruct (decide (r <> E_OK)) as [Hne|]; step.
  - rewrite decide_False by done. split; [tauto|by right].
  - by rewrite decide_True by done.
Qed.

(** ** Words in *)

Lemma rd_data_word s (sec n : Z) (k : nat) : h_xfer (view s) = XRead sec n k -> (k < 128 * Z.to_nat n)%nat ->
  h_avail (view s) = true ->
  returns (rd DATA) s (fun w s' => word_moved (view s) (view s') (XRead sec n (S k)) (S k) /\
    h_card (view s') = h_card (view s) /\ io_ram s' = io_ram s /\ io_vars s' = io_vars s /\
    (h_good (view s) = true -> le32 w = take 4 (drop (4 * k) (sectors_of (h_card (view s)) sec (Z.to_nat n))))).
Proof.
  intros Hx Hk Ha. unfold returns, rd. destruct (io_read DATA (io_dev s, io_ram s)) as [v [d m]] eqn:Hr.
  destruct (read_data _ _ _ _ _ Hr) as (-> & Hc & Hw). destruct (Hw _ _ _ Hx Hk Ha) as [Hm Hv].
  split_and!; [exact Hm|by apply functional_extensionality|done|done|exact Hv].
Qed.

(** Part of a transfer: the card, the variables and the fate as before, the
    RAM outside [a, a+len) too. *)
Record moving (a len : Z) (s s' : St) : Prop := {
  mv_card : h_card (view s') = h_card (view s);
  mv_good : h_good (view s') = h_good (view s);
  mv_vars : io_vars s' = io_vars s;
  mv_ram : forall x, ~ a <= x < a + len -> io_ram s' x = io_ram s x;
  mv_bytes : ram_bytes (io_ram s) -> ram_bytes (io_ram s')
}.

Lemma moving_refl a s : moving a 0 s s.
Proof. by constructor. Qed.
Lemma moving_calm a len s1 s2 s3 : calm s1 s2 -> moving a len s2 s3 -> moving a len s1 s3.
Proof.
  intros C []. destruct (calm_fields _ _ C) as (? & _ & _ & _ & _ & ? & _), C.
  constructor; try congruence; intros; rewrite ?mv_ram0, ?cm_ram0 by done; [done|]. apply mv_bytes0. by rewrite cm_ram0.
Qed.
Lemma moving_app a l1 l2 s1 s2 s3 : 0 <= l1 -> 0 <= l2 -> moving a l1 s1 s2 -> moving (a + l1) l2 s2 s3 -> moving a (l1 + l2) s1 s3.
Proof.
  intros H1 H2 [] []. constructor; try congruence; [|auto]. intros x Hx. rewrite mv_ram1 by lia. apply mv_ram0. lia.
Qed.

Lemma ram_put_bytes (m : ram) (a : Z) (bytes : list Z) : Forall is_byte bytes -> ram_bytes m -> ram_bytes (ram_put m a bytes).
Proof.
  intros Hb Hm x. unfold ram_put. destruct (_ && _); [|apply Hm].
  destruct (bytes !! _) eqn:Hx; [exact (Forall_lookup_1 _ _ _ _ Hb Hx)|done].
Qed.
Lemma le32_bytes (w : Z) : Forall is_byte (le32 w).
Proof. repeat constructor; apply byte_range. Qed.

Lemma take_drop_snoc {A} (l : list A) (i j k : nat) : take (j + k) (drop i l) = take j (drop i l) ++ take k (drop (i + j) l).
Proof. rewrite <- (take_take_drop (drop i l) j k), drop_drop. do 3 f_equal; lia. Qed.

Lemma words_in_spec (sec n : Z) (w : nat) : forall s (k : nat) (a : Z),
  h_xfer (view s) = XRead sec n k -> h_seen (view s) = false -> tracked s ->
  (w <> O -> h_avail (view s) = true) -> (k mod 128 + w <= 128)%nat -> (k + w <= 128 * Z.to_nat n)%nat ->
  returns (words_in w a) s (fun _ s' => h_xfer (view s') = XRead sec n (k + w) /\ tracked s' /\ moving a (4 * Z.of_nat w) s s' /\
    (h_good (view s) = true ->
     ram_get (io_ram s') a (4 * w) = take (4 * w) (drop (4 * k) (sectors_of (h_card (view s)) sec (Z.to_nat n))))).
Proof.
  induction w as [|w IH]; intros s k a Hx Hs Ht Ha Hblk Hk; cbn [words_in].
  { step. rewrite Nat.add_0_r. split_and!; [done|done|apply moving_refl|done]. }
  specialize (Ha ltac:(lia)). step. eapply returns_mono; [by apply rd_data_word; [exact Hx|lia|]|].
  intros v s1 ((_ & _ & _ & Hx1 & Hg1 & Ha1 & Hs1 & Hd1) & Hc1 & Hm1 & Hv1 & Hw1). unfold store32. do 2 step.
  set (s2 := s1 <| io_ram ::= _ |>). assert (view s2 = view s1) as V2 by done. assert (io_vars s2 = io_vars s) as X2 by exact Hv1.
  assert (io_ram s2 = ram_put (io_ram s) a (le32 v)) as M2 by (unfold s2; cbn; by rewrite Hm1).
  assert (moving a 4 s s2) as Hmv.
  { constructor; [congruence..| |]; rewrite M2; [intros x Hx'; by apply ram_put_out|apply ram_put_bytes, le32_bytes]. }
  assert (tracked s2) as Ht2.
  { destruct Ht as [_ Ht]. unfold tracked. rewrite V2, Hx1, Hd1, Hs1, Hs. split; [done|]. intros Hd. specialize (Ht Hd).
    rewrite Hx in Ht. cbn in *. lia. }
  clearbody s2. eapply returns_mono; [apply (IH s2 (S k)); rewrite ?V2; try done|].
  - by rewrite Hs1.
  - intros Hw. rewrite Ha1. apply negb_true_iff, bool_decide_eq_false. rewrite Nat.Div0.mod_eq in Hblk. intros Hmod.
    pose proof (Nat.Div0.div_mod k 128). pose proof (Nat.mod_upper_bound k 128 ltac:(lia)).
    rewrite <- Nat.add_1_r, <- Nat.Div0.add_mod_idemp_l in Hmod. rewrite Nat.mod_small in Hmod; lia.
  - pose proof (Nat.Div0.div_mod k 128). pose proof (Nat.mod_upper_bound k 128 ltac:(lia)).
    destruct w as [|w]; [pose proof (Nat.mod_upper_bound (S k) 128 ltac:(lia)); lia|].
    rewrite <- (Nat.add_1_r k), <- Nat.Div0.add_mod_idemp_l, Nat.mod_small; lia.
  - lia.
  - intros [] s3 (Hx3 & Ht3 & Hm3 & Hg3). rewrite V2 in Hg3. split_and!; [by rewrite Hx3, Nat.add_succ_r|done| |].
    + replace (4 * Z.of_nat (S w)) with (4 + 4 * Z.of_nat w) by lia. by apply (moving_app _ _ _ _ s2); [lia..| |].
    + intros Hg. rewrite Hg1, Hc1 in Hg3. specialize (Hg3 Hg). replace (4 * S w)%nat with (4 + 4 * w)%nat by lia.
      rewrite ram_get_app, take_drop_snoc. change (a + Z.of_nat 4) with (a + 4). rewrite Hg3. f_equal.
      * rewrite (ram_get_ext (io_ram s2)) by (intros x Hx'; apply (mv_ram _ _ _ _ Hm3); lia). rewrite M2.
        change 4%nat with (length (le32 v)) at 1. rewrite ram_get_put. by apply Hw1.
      * do 2 f_equal. lia.
Qed.

Lemma moving_weaken a len len' s s' : len <= len' -> moving a len s s' -> moving a len' s s'.
Proof. intros Hl []. constructor; [done..| |done]. intros x Hx. apply mv_ram0. lia. Qed.

(** ** Blocks in *)

Lemma blocks_in_spec (sec n : Z) (cnt : nat) : forall s (b : nat) (a : Z),
  h_xfer (view s) = XRead sec n (128 * b) -> tracked s -> (b + cnt)%nat = Z.to_nat n ->
  returns (blocks_pio INT_READ_RDY words_in cnt a) s (fun r s' =>
    (r = E_OK \/ r = E_TIMED_OUT) /\ moving a (512 * Z.of_nat cnt) s s' /\ tracked s' /\
    (r = E_OK -> h_xfer (view s') = XRead sec n (128 * Z.to_nat n) /\
      (h_good (view s) = true -> ram_get (io_ram s') a (512 * cnt) =
        take (512 * cnt) (drop (512 * b) (sectors_of (h_card (view s)) sec (Z.to_nat n)))))).
Proof.
  induction cnt as [|cnt IH]; intros s b a Hx Ht Hb; cbn [blocks_pio].
  { step. split_and!; [by left|apply moving_refl|done|]. intros _. split; [by rewrite Hx, <- Hb, Nat.add_0_r|done]. }
  step. eapply returns_mono; [apply emmc_wait_interrupt_spec|]. intros r s1 (C1 & _ & Hok).
  destruct (calm_fields _ _ C1) as (Hc1 & _ & _ & _ & Hx1 & Hg1 & _). pose proof (cm_tracked _ _ C1 Ht) as Ht1.
  destruct (decide (r <> E_OK)) as [Hne|He].
  { step. split_and!; [by right| |done|done]. apply (moving_weaken a 0); [lia|]. by eapply moving_calm, moving_refl. }
  apply dec_stable in He as ->. destruct (Hok eq_refl Ht) as [Hrdy _]. rewrite Hx in Hrdy. destruct (Hrdy eq_refl) as [Ha1 Hs1].
  change (Z.to_nat (SECTOR_SIZE / 4)) with 128%nat. step.
  eapply returns_mono; [apply (words_in_spec sec n 128 s1 (128 * b) a); rewrite ?Hx1; try done|].
  - rewrite Nat.mul_comm, Nat.Div0.mod_mul. lia.
  - lia.
  - intros [] s2 (Hx2 & Ht2 & Hm2 & Hg2). change (4 * Z.of_nat 128) with 512 in Hm2. change (4 * 128)%nat with 512%nat in Hg2.
    eapply returns_mono; [apply (IH s2 (S b)); [rewrite Hx2; f_equal; lia|done|lia]|].
    intros r3 s3 (Hr3 & Hm3 & Ht3 & Hg3). split_and!; [done| |done|].
    + replace (512 * Z.of_nat (S cnt)) with (512 + 512 * Z.of_nat cnt) by lia.
      eapply moving_calm; [exact C1|]. by apply (moving_app _ _ _ _ s2); [lia..| |].
    + intros Hr. destruct (Hg3 Hr) as [Hx3 Hg3']. split; [done|]. intros Hg. rewrite <- Hg1 in Hg. specialize (Hg2 Hg).
      rewrite <- (mv_good _ _ _ _ Hm2) in Hg. specialize (Hg3' Hg). rewrite (mv_card _ _ _ _ Hm2), Hc1 in Hg3'. rewrite Hc1 in Hg2.
      replace (512 * S cnt)%nat with (512 + 512 * cnt)%nat by lia. rewrite ram_get_app, take_drop_snoc.
      change (a + Z.of_nat 512) with (a + SECTOR_SIZE). rewrite Hg3'. f_equal.
      * rewrite (ram_get_ext (io_ram s2)) by (intros x Hx'; apply (mv_ram _ _ _ _ Hm3); unfold SECTOR_SIZE; lia).
        rewrite Hg2. do 2 f_equal. lia.
      * do 2 f_equal. lia.
Qed.

(** ** Reading by PIO *)

Lemma blk_count (count : Z) : 0 <= count < 65536 -> Z.shiftr (Z.lor (shl count 16) SECTOR_SIZE) 16 = count.
Proof.
  intros Hc. unfold shl, SECTOR_SIZE. rewrite Z.shiftr_lor, wrap_small.
  - rewrite Z.shiftr_shiftl_l by lia. change (16 - 16) with 0. rewrite Z.shiftl_0_r. by rewrite Z.lor_0_r.
  - rewrite Z.shiftl_mul_pow2 by lia. lia.
Qed.

Definition result_ok (r : StatusCode) : Prop := r = E_OK \/ r = E_CMD \/ r = E_TIMED_OUT.

Definition pio_read (sector buf count : Z) : M St StatusCode :=
  arg ← xfer_arg sector;
  wr BLKSIZECNT (Z.lor (shl count 16) SECTOR_SIZE);;
  r ← emmc_send_command (if count =? 1 then CMD17 else CMD18) arg;
  if decide (r <> E_OK) then mret E_CMD else
  r ← blocks_pio INT_READ_RDY words_in (Z.to_nat count) buf;
  if decide (r <> E_OK) then mret E_TIMED_OUT else
  r ← emmc_wait_interrupt INT_DATA_DONE 2000;
  mret (if decide (r <> E_OK) then E_TIMED_OUT else E_OK).

(** A read command under way. *)
Definition reading (sector count : Z) (s s' : St) : Prop :=
  h_xfer (view s') = XRead sector count 0 /\ tracked s' /\ h_card (view s') = h_card (view s) /\
  io_ram s' = io_ram s /\ io_vars s' = io_vars s.

Lemma read_command (sector count : Z) s : 0 < count < 65536 ->
  h_blk (view s) = Z.lor (shl count 16) SECTOR_SIZE ->
  returns (emmc_send_command (if count =? 1 then CMD17 else CMD18) sector) s (fun r s' =>
    if decide (r = E_OK) then reading sector count s s' else (r = E_CMD \/ r = E_TIMED_OUT) /\ (calm s s' \/ reading sector count s s')).
Proof.
  intros Hc Hb. apply send_data_command.
  - by destruct (count =? 1).
  - intros s1 s2 C (Hx & Ht & Hcd & Hm & Hv). destruct (calm_fields _ _ C) as (Hcd' & _ & _ & _ & Hx' & _), C.
    unfold reading. rewrite Hx', Hcd', cm_ram0, cm_vars0. by split_and!; auto.
  - intros s1 []. unfold returns, wr.
    destruct (io_write CMDTM (if count =? 1 then CMD17 else CMD18) (io_dev s1, io_ram s1)) as [d m] eqn:Hw.
    destruct (cmd_read _ _ _ _ _ Hw) as (Hx & Ha & Hs & Hd); [destruct (count =? 1); tauto|done|done|].
    destruct (cmd_card _ _ _ _ _ Hw) as (Hk & _ & Hm); [by destruct (count =? 1)|]. specialize (Hm ltac:(by destruct (count =? 1))).
    change (reading sector count s (s1 <| io_dev := d |> <| io_ram := m |>)). set (s2 := s1 <| io_dev := d |> <| io_ram := m |>).
    unfold reading, tracked. change (view s2) with (host d). rewrite Hs, Hd. split_and!; [|done|done| | |].
    + rewrite Hx. f_equal; [exact is_arg0|]. unfold cmd_blocks. destruct (Z.eqb_spec count 1) as [->|]; [done|].
      change (has CMD18 TM_BLKCNT_EN) with true. cbv iota. change (host (io_dev s1)) with (view s1). rewrite is_blk0, Hb. apply blk_count. lia.
    + rewrite <- is_card0. by apply functional_extensionality.
    + unfold s2. cbn. by rewrite Hm.
    + done.
Qed.

Lemma pio_read_spec (sector buf count : Z) s : sectors_addressed s -> 0 < count < 65536 ->
  returns (pio_read sector buf count) s (fun r s' => result_ok r /\ h_card (view s') = h_card (view s) /\ io_vars s' = io_vars s /\
    (forall x, ~ buf <= x < buf + 512 * count -> io_ram s' x = io_ram s x) /\ (ram_bytes (io_ram s) -> ram_bytes (io_ram s')) /\
    (r = E_OK -> ram_get (io_ram s') buf (512 * Z.to_nat count) = sectors_of (h_card (view s)) sector (Z.to_nat count))).
Proof.
  intros Hsa Hc. unfold pio_read, xfer_arg, var. do 3 step. rewrite (proj2 (Z.eqb_neq _ 0) Hsa). step. step.
  eapply returns_mono; [apply wr_blk|]. intros [] s1 (V1 & M1 & X1). step.
  eapply returns_mono; [apply read_command; [done|by rewrite V1]|]. cbv beta.
  intros r s2. destruct (decide (r = E_OK)) as [->|Hne]; intros Hr2.
  2: { rewrite decide_True by done. step. split; [right; by left|]. destruct Hr2 as [_ [C|(_ & _ & Hcd & Hm & Hv)]].
    - destruct (calm_fields _ _ C) as [Hcd _], C. rewrite Hcd, cm_vars0, cm_ram0, V1, M1. by split_and!.
    - rewrite Hcd, Hv, Hm, V1, M1. by split_and!. }
  rewrite decide_False by tauto. destruct Hr2 as (Hx2 & Ht2 & Hc2 & Hm2 & Hv2). step.
  eapply returns_mono; [apply (blocks_in_spec sector count (Z.to_nat count) s2 0 buf); [done..|lia]|].
  intros r3 s3 (_ & Hm3 & Ht3 & Hok3). rewrite Z2Nat.id in Hm3 by lia.
  assert (h_card (view s3) = h_card (view s) /\ io_vars s3 = io_vars s /\
    (forall x, ~ buf <= x < buf + 512 * count -> io_ram s3 x = io_ram s x) /\ (ram_bytes (io_ram s) -> ram_bytes (io_ram s3))) as (Hc3 & Hv3 & Hr3 & Hrb3).
  { destruct Hm3. split_and!; [by rewrite mv_card0, Hc2, V1|congruence| |].
    { intros x Hx. rewrite mv_ram0 by done. by rewrite Hm2, M1. }
    by rewrite <- M1, <- Hm2. }
  destruct (decide (r3 <> E_OK)) as [Hne|He]; step.
  { split; [right; by right|]. by split_and!. }
  apply dec_stable in He. destruct (Hok3 He) as [Hx3 Hg3]. eapply returns_mono; [apply emmc_wait_interrupt_spec|].
  intros r4 s4 (C4 & _ & Hok4). destruct (calm_fields _ _ C4) as (Hc4 & _ & _ & _ & _ & _ & _). step.
  rewrite Hc4, Hc3, (cm_vars _ _ C4), Hv3, (cm_ram _ _ C4). destruct (decide (r4 <> E_OK)) as [Hne|He4].
  { split; [right; by right|]. by split_and!. }
  split; [by left|]. split_and!; [done..|]. intros _. apply dec_stable in He4. destruct (Hok4 He4 Ht3) as [_ Hd].
  destruct (Hd eq_refl) as [_ Hg]. rewrite (mv_good _ _ _ _ Hm3) in Hg. rewrite (Hg3 Hg), Hc2, V1. cbn [h_card].
  rewrite drop_0, take_ge; [done|]. rewrite length_sectors by (intros; apply card_bytes). lia.
Qed.
End port.

(** ** The descriptor table *)

(** An attribute word: the length above bit 16, attributes below. *)
Definition attr_word (len16 attr : Z) : Z := Z.lor (Z.shiftl len16 16) attr.

Lemma attr_land (l a k : Z) : 0 <= l -> 0 <= k < 65536 -> Z.land (attr_word l a) k = Z.land a k.
Proof.
  intros Hl Hk. unfold attr_word. rewrite Z.land_lor_distr_l, (Z.land_comm (Z.shiftl l 16)).
  by rewrite (land_shiftl_low k l 16) by lia.
Qed.
Lemma attr_shiftr (l a : Z) : 0 <= a < 65536 -> Z.shiftr (attr_word l a) 16 = l.
Proof.
  intros Ha. unfold attr_word. rewrite Z.shiftr_lor, Z.shiftr_shiftl_l by lia. change (16 - 16) with 0. rewrite Z.shiftl_0_r.
  rewrite (Z.shiftr_div_pow2 a), Z.div_small by lia. apply Z.lor_0_r.
Qed.
Lemma attr_range (l a : Z) : 0 <= l < 65536 -> 0 <= a < 65536 -> 0 <= attr_word l a < 2 ^ 32.
Proof. intros Hl Ha. unfold attr_word. rewrite Z.lor_comm, lor_disjoint_add by lia. lia. Qed.

Definition chunk_len (len16 : Z) : Z := if len16 =? 0 then 65536 else len16.

Lemma attr_line (m : ram) (a addr len16 attr : Z) (last : bool) : 0 <= len16 < 65536 ->
  (attr = 33 /\ last = false) \/ (attr = 39 /\ last = true) ->
  ram_word m a = attr_word len16 attr -> ram_word m (a + 4) = addr -> adma_line m a addr (chunk_len len16) last.
Proof.
  intros Hl Hattr Hw <-. assert (0 <= attr < 65536) as Ha by lia.
  assert (chunk_len len16 = if Z.shiftr (attr_word len16 attr) 16 =? 0 then 65536 else Z.shiftr (attr_word len16 attr) 16) as ->
    by (unfold chunk_len; by rewrite attr_shiftr).
  assert (Z.land (attr_word len16 attr) ADMA2_DESC_VALID = Z.land attr ADMA2_DESC_VALID) as H1 by (apply attr_land; [lia|by vm_compute]).
  assert (Z.land (attr_word len16 attr) 0x30 = Z.land attr 0x30) as H2 by (apply attr_land; lia).
  assert (Z.land (attr_word len16 attr) ADMA2_DESC_END = Z.land attr ADMA2_DESC_END) as H3 by (apply attr_land; [lia|by vm_compute]).
  constructor; [done|unfold has; rewrite H1|rewrite H2|unfold has; rewrite H3]; by destruct Hattr as [[-> ->]|[-> ->]].
Qed.

(** Segments that follow one another. *)
Inductive contiguous : Z -> Z -> list (Z * Z) -> Prop :=
  | ctg_one a len : 0 < len -> contiguous a len [(a, len)]
  | ctg_more a len rest segs : 0 < len -> contiguous (a + len) rest segs -> contiguous a (len + rest) ((a, len) :: segs).

Lemma contiguous_sum a total segs : contiguous a total segs ->
  0 < total /\ sum_list_with (fun sg => Z.to_nat sg.2) segs = Z.to_nat total.
Proof.
  induction 1 as [|? ? ? ? ? ? [? IH]]; cbn -[Z.to_nat]; [lia|]. rewrite IH. lia.
Qed.

Lemma contiguous_in a total segs x : contiguous a total segs -> in_segs segs x -> a <= x < a + total.
Proof.
  induction 1 as [a len Hl|a len rest segs Hl Hc IH]; intros ([b l] & Hin & Hx); cbn in Hx.
  - apply list_elem_of_singleton in Hin as [= -> ->]. lia.
  - pose proof (contiguous_sum _ _ _ Hc) as [? _]. apply elem_of_cons in Hin as [[= -> ->]|Hin]; [lia|].
    destruct IH; [by exists (b, l)|]. lia.
Qed.

Lemma contiguous_gather m a total segs : contiguous a total segs -> gather m segs = ram_get m a (Z.to_nat total).
Proof.
  induction 1 as [a len Hl|a len rest segs Hl Hc IH]; unfold gather in *; cbn; [apply app_nil_r|].
  pose proof (contiguous_sum _ _ _ Hc) as [? _]. rewrite IH, Z2Nat.inj_add, ram_get_app by lia.
  by rewrite Z2Nat.id by lia.
Qed.

Lemma adma_lines_ext (m m' : ram) a segs : (forall x, a <= x -> m' x = m x) -> adma_lines m a segs -> adma_lines m' a segs.
Proof.
  intros He Hl. revert He. induction Hl as [a addr len Hl|a addr len segs Hl Hls IH]; intros He.
  - apply adma_last. inversion Hl; subst. rewrite <- !(ram_word_ext m m') by (intros; apply He; lia). by constructor; rewrite ?(ram_word_ext m m') by (intros; apply He; lia).
  - apply adma_more; [|apply IH; intros; apply He; lia].
    inversion Hl; subst. rewrite <- !(ram_word_ext m m') by (intros; apply He; lia). by constructor; rewrite ?(ram_word_ext m m') by (intros; apply He; lia).
Qed.

Section table.
Context {D : Type} `{SdHost D}.
Abbreviation St := (io D EmmcVars).
Implicit Types s : St.
Variable T : Z.   (* s_adma2_table *)

Definition table_end : Z := T + 8 * ADMA2_MAX_DESCRIPTORS.

(** Only the RAM changed, and there only from [a] to the table's end. *)
Record table_written (a : Z) (s s' : St) : Prop := {
  tw_dev : io_dev s' = io_dev s;
  tw_vars : io_vars s' = io_vars s;
  tw_ram : forall x, ~ a <= x < table_end -> io_ram s' x = io_ram s x;
  tw_bytes : ram_bytes (io_ram s) -> ram_bytes (io_ram s')
}.

Lemma table_written_trans a a' s1 s2 s3 : a <= a' -> table_written a s1 s2 -> table_written a' s2 s3 -> table_written a s1 s3.
Proof. intros Ha [] []. constructor; [congruence..| |auto]. intros x Hx. rewrite tw_ram1 by lia. by apply tw_ram0. Qed.

(** One line, and what the next test reads of it. *)
Lemma line_words (m : ram) (a w addr : Z) : 0 <= w < 2 ^ 32 -> 0 <= addr < 2 ^ 32 ->
  ram_word (ram_put (ram_put m a (le32 w)) (a + 4) (le32 addr)) a = w /\
  ram_word (ram_put (ram_put m a (le32 w)) (a + 4) (le32 addr)) (a + 4) = addr.
Proof.
  intros Hw Ha. split; [|by apply ram_word_put]. rewrite (ram_word_ext (ram_put m a (le32 w))); [by apply ram_word_put|].
  intros x Hx. apply ram_put_out. rewrite length_le32. lia.
Qed.

Lemma build_loop_spec (fuel : nat) : forall addr remaining n s,
  0 < remaining -> 0 <= addr -> addr + remaining <= 2 ^ 32 -> 0 <= n -> n + Z.of_nat fuel = ADMA2_MAX_DESCRIPTORS ->
  returns (build_loop T fuel addr remaining n) s (fun r s' => table_written (T + 8 * n) s s' /\
    (r = 0 <-> 65536 * Z.of_nat fuel < remaining) /\
    (r <> 0 -> exists segs, adma_lines (io_ram s') (T + 8 * n) segs /\ contiguous addr remaining segs)).
Proof.
  induction fuel as [|fuel IH]; intros addr remaining n s Hr Ha Hmax Hn Hf; cbn [build_loop];
    rewrite (proj2 (Z.eqb_neq _ _)) by lia.
  { rewrite (proj2 (Z.leb_le _ _)) by lia. step. split; [by constructor|]. split; [split; [intros _; cbn; lia|done]|done]. }
  rewrite (proj2 (Z.leb_gt _ _)) by lia. unfold ADMA2_MAX_CHUNK. cbv zeta.
  set (chunk := if 65536 <? remaining then 65536 else remaining). set (len16 := if chunk =? 65536 then 0 else chunk).
  assert (0 < chunk <= 65536 /\ chunk <= remaining /\ (chunk <> remaining -> chunk = 65536)) as Hchunk by (unfold chunk; destruct (Z.ltb_spec 65536 remaining); lia).
  assert (0 <= len16 < 65536 /\ chunk_len len16 = chunk) as [Hl16 Hcl].
  { unfold len16, chunk_len. destruct (Z.eqb_spec chunk 65536); [by rewrite Z.eqb_refl|]. rewrite (proj2 (Z.eqb_neq _ _)) by lia. lia. }
  clearbody chunk len16. assert (bits [shl len16 16; ADMA2_DESC_VALID; ADMA2_DESC_ACT_TRAN] = attr_word len16 33) as ->.
  { unfold bits, shl, attr_word. cbn [foldr]. rewrite wrap_small by (rewrite Z.shiftl_mul_pow2; lia). done. }
  unfold store32. do 4 step. set (s1 := (s <| io_ram ::= _ |>) <| io_ram ::= _ |>).
  destruct (line_words (io_ram s) (T + 8 * n) (attr_word len16 33) addr) as [Hw0 Hw1]; [apply attr_range; lia|lia|].
  assert (io_ram s1 = ram_put (ram_put (io_ram s) (T + 8 * n) (le32 (attr_word len16 33))) (T + 8 * n + 4) (le32 addr)) as M1 by done.
  rewrite <- M1 in Hw0, Hw1.
  assert (table_written (T + 8 * n) s s1) as Htw1.
  { constructor; [done..| |]; rewrite M1.
    - intros x Hx. unfold table_end in Hx. rewrite !ram_put_out; [done|rewrite length_le32; lia..].
    - intros Hb. by apply ram_put_bytes, ram_put_bytes; try apply le32_bytes. }
  clearbody s1. destruct (decide (remaining = chunk)) as [->|Hne].
  - (* the last line *)
    rewrite Z.sub_diag. destruct fuel; cbn [build_loop]; rewrite Z.eqb_refl, (proj2 (Z.eqb_neq _ _)) by lia; unfold load32, store32;
      replace (n + 1 - 1) with n by lia; do 3 step; rewrite Hw0;
      (assert (bits [attr_word len16 33; ADMA2_DESC_END; ADMA2_DESC_INT] = attr_word len16 39) as ->
        by (unfold bits, attr_word; cbn [foldr]; by rewrite <- Z.lor_assoc)); step.
    all: set (s2 := s1 <| io_ram ::= _ |>).
    all: assert (io_ram s2 = ram_put (io_ram s1) (T + 8 * n) (le32 (attr_word len16 39))) as M2 by done.
    all: split.
    all: try (eapply (table_written_trans _ (T + 8 * n)); [lia|exact Htw1|]; constructor; [done..| |]; rewrite M2;
      [intros x Hx; unfold table_end in Hx; rewrite ram_put_out; [done|rewrite length_le32; lia]
      |intros Hb; by apply ram_put_bytes; [apply le32_bytes|]]).
    all: split; [lia|]; intros _; exists [(addr, chunk)]; split; [|constructor; lia]; apply adma_last; rewrite <- Hcl at 1;
      apply (attr_line _ _ _ _ 39); [lia|by right|rewrite M2; apply ram_word_put, attr_range; lia|];
      rewrite M2, (ram_word_ext (io_ram s1)); [done|]; intros x Hx; apply ram_put_out; rewrite length_le32; lia.
  - rewrite wrap_small by lia. eapply returns_mono; [apply (IH _ _ (n + 1)); lia|]. intros r s2 (Htw2 & Hz2 & Hr2).
    split; [by eapply (table_written_trans _ (T + 8 * (n + 1))); [lia| |]|]. split; [rewrite Hz2; lia|]. intros Hr0.
    destruct (Hr2 Hr0) as (segs & Hls & Hct). exists ((addr, chunk) :: segs). split.
    + apply adma_more; [|by replace (T + 8 * n + 8) with (T + 8 * (n + 1)) by lia]. rewrite <- Hcl at 1.
      apply (attr_line _ _ _ _ 33); [lia|by left| |].
      * rewrite (ram_word_ext (io_ram s1)); [done|]. intros x Hx. apply (tw_ram _ _ _ Htw2). lia.
      * rewrite (ram_word_ext (io_ram s1)); [done|]. intros x Hx. apply (tw_ram _ _ _ Htw2). lia.
    + replace remaining with (chunk + (remaining - chunk)) by lia. constructor; [lia|done].
Qed.

Lemma build_table_spec (buf total : Z) s :
  0 < total -> 0 <= buf -> buf + total <= 2 ^ 32 ->
  returns (emmc_build_adma2_table T buf total) s (fun r s' => table_written T s s' /\
    (r = 0 <-> ADMA2_MAX_DESCRIPTORS * ADMA2_MAX_CHUNK < total) /\
    (r <> 0 -> exists segs, adma_lines (io_ram s') T segs /\ contiguous buf total segs)).
Proof.
  intros Ht Hb Hm. unfold emmc_build_adma2_table. eapply returns_mono; [apply build_loop_spec; [done..|]|].
  - by vm_compute.
  - intros r s'. replace (T + 8 * 0) with T by lia.
    by replace (65536 * Z.of_nat (Z.to_nat ADMA2_MAX_DESCRIPTORS)) with (ADMA2_MAX_DESCRIPTORS * ADMA2_MAX_CHUNK).
Qed.

(** The descriptor table is right.  For a buffer of [total] bytes below
    4 GiB, [emmc_build_adma2_table] writes only the table; it refuses (result
    0) exactly the buffers of more than 130 chunks of 64 KiB, and otherwise the
    table names segments that are the buffer, in order, without gap or
    overlap. *)
Theorem build_adma2_table_correct (buf total : Z) s :
  0 < total -> 0 <= buf -> buf + total <= 2 ^ 32 ->
  returns (emmc_build_adma2_table T buf total) s (fun r s' => table_written T s s' /\
    (r = 0 <-> ADMA2_MAX_DESCRIPTORS * ADMA2_MAX_CHUNK < total) /\
    (r <> 0 -> exists segs, adma_lines (io_ram s') T segs /\ contiguous buf total segs)).
Proof. apply build_table_spec. Qed.
End table.

(** ** Transfers by DMA *)

Section dma.
Context {D : Type} `{SdHost D}.
Abbreviation St := (io D EmmcVars).
Implicit Types s : St.
Variable T : Z.   (* s_adma2_table *)

(** Where a transfer may write: its buffer, and the table. *)
Definition scratch (buf count x : Z) : Prop := buf <= x < buf + 512 * count \/ T <= x < table_end T.
Definition buffer_ok (buf count : Z) : Prop :=
  0 <= buf /\ buf + 512 * count <= 2 ^ 32 /\ (buf + 512 * count <= T \/ table_end T <= buf).

(** What a DMA command is issued from, and sets off. *)
Definition dma_ready (sector count : Z) (segs : list (Z * Z)) s : Prop :=
  h_blk (view s) = Z.lor (shl count 16) SECTOR_SIZE /\ h_adma (view s) = T /\ adma_lines (io_ram s) T segs.

Definition dma_reading (sector count : Z) (segs : list (Z * Z)) (s s' : St) : Prop :=
  h_xfer (view s') = XDma /\ tracked s' /\ h_card (view s') = h_card (view s) /\ io_vars s' = io_vars s /\
  (forall x, ~ in_segs segs x -> io_ram s' x = io_ram s x) /\ (ram_bytes (io_ram s) -> ram_bytes (io_ram s')) /\
  (sum_list_with (fun sg => Z.to_nat sg.2) segs = (512 * Z.to_nat count)%nat -> h_good (view s') = true ->
   gather (io_ram s') segs = sectors_of (h_card (view s)) sector (Z.to_nat count)).

Definition dma_writing (sector count : Z) (segs : list (Z * Z)) (s s' : St) : Prop :=
  h_xfer (view s') = XDma /\ tracked s' /\ io_vars s' = io_vars s /\ io_ram s' = io_ram s /\
  (forall x, outside sector count x -> h_card (view s') x = h_card (view s) x) /\
  (sum_list_with (fun sg => Z.to_nat sg.2) segs = (512 * Z.to_nat count)%nat -> h_good (view s') = true ->
   sectors_of (h_card (view s')) sector (Z.to_nat count) = gather (io_ram s) segs).

Lemma dma_read_command (sector count : Z) segs s : 0 <= count < 65536 -> dma_ready sector count segs s ->
  returns (emmc_send_command (Z.lor CMD18 TM_DMA_EN) sector) s (fun r s' =>
    if decide (r = E_OK) then dma_reading sector count segs s s'
    else (r = E_CMD \/ r = E_TIMED_OUT) /\ (calm s s' \/ dma_reading sector count segs s s')).
Proof.
  intros Hc (Hb & Ha & Hl). apply send_data_command; [done| |].
  - intros s1 s2 C (Hx & Ht & Hcd & Hv & Hm & Hrb & Hg). destruct (calm_fields _ _ C) as (Hcd' & _ & _ & _ & Hx' & Hg' & _), C.
    unfold dma_reading. rewrite Hx', Hcd', Hg', cm_ram0, cm_vars0. by split_and!; auto.
  - intros s1 []. unfold returns, wr. destruct (io_write CMDTM (Z.lor CMD18 TM_DMA_EN) (io_dev s1, io_ram s1)) as [d m] eqn:Hw.
    assert (adma_lines (io_ram s1) (h_adma (host (io_dev s1))) segs) as Hl1.
    { change (host (io_dev s1)) with (view s1). by rewrite is_adma0, Ha, is_ram0. }
    destruct (cmd_dma_read _ _ _ _ _ Hw is_seen0 is_done0 Hl1) as (Hx & Hav & Hs & Hd & Hm & Hg).
    destruct (cmd_card _ _ _ _ _ Hw) as (Hk & Hrb & _); [done|].
    change (dma_reading sector count segs s (s1 <| io_dev := d |> <| io_ram := m |>)).
    set (s2 := s1 <| io_dev := d |> <| io_ram := m |>). unfold dma_reading, tracked. change (view s2) with (host d). change (io_ram s2) with m.
    rewrite Hs, Hd. split_and!; [done|done|done| |done| | |].
    + rewrite <- is_card0. by apply functional_extensionality.
    + intros x Hx'. by rewrite Hm, is_ram0.
    + by rewrite <- is_ram0.
    + intros Hsum Hgood. change (host (io_dev s1)) with (view s1) in Hg. rewrite is_arg0, is_card0 in Hg.
      unfold cmd_blocks in Hg. change (has CMD18 TM_BLKCNT_EN) with true in Hg. cbv iota in Hg.
      rewrite is_blk0, Hb, blk_count in Hg by done. by apply Hg.
Qed.

Lemma dma_write_command (sector count : Z) segs s : 0 <= count < 65536 -> dma_ready sector count segs s ->
  returns (emmc_send_command (Z.lor CMD25 TM_DMA_EN) sector) s (fun r s' =>
    if decide (r = E_OK) then dma_writing sector count segs s s'
    else (r = E_CMD \/ r = E_TIMED_OUT) /\ (calm s s' \/ dma_writing sector count segs s s')).
Proof.
  intros Hc (Hb & Ha & Hl). apply send_data_command; [done| |].
  - intros s1 s2 C (Hx & Ht & Hv & Hm & Hcd & Hg). destruct (calm_fields _ _ C) as (Hcd' & _ & _ & _ & Hx' & Hg' & _), C.
    unfold dma_writing. rewrite Hx', Hcd', Hg', cm_ram0, cm_vars0. by split_and!; auto.
  - intros s1 []. unfold returns, wr. destruct (io_write CMDTM (Z.lor CMD25 TM_DMA_EN) (io_dev s1, io_ram s1)) as [d m] eqn:Hw.
    assert (adma_lines (io_ram s1) (h_adma (host (io_dev s1))) segs) as Hl1.
    { change (host (io_dev s1)) with (view s1). by rewrite is_adma0, Ha, is_ram0. }
    destruct (cmd_dma_write _ _ _ _ _ Hw is_seen0 is_done0 Hl1) as (Hx & Hav & Hs & Hd & Hm & Hk & Hg).
    change (host (io_dev s1)) with (view s1) in Hk, Hg. rewrite is_arg0, is_card0 in Hk. rewrite is_arg0 in Hg.
    unfold cmd_blocks in Hk, Hg. change (has CMD25 TM_BLKCNT_EN) with true in Hk, Hg. cbv iota in Hk, Hg.
    rewrite is_blk0, Hb, blk_count in Hk, Hg by done.
    change (dma_writing sector count segs s (s1 <| io_dev := d |> <| io_ram := m |>)).
    set (s2 := s1 <| io_dev := d |> <| io_ram := m |>). unfold dma_writing, tracked. change (view s2) with (host d). change (io_ram s2) with m.
    rewrite Hs, Hd. split_and!; [done|done|done|done|by rewrite Hm|done|]. intros Hsum Hgood. rewrite <- is_ram0. by apply Hg.
Qed.
End dma.

Section transfers.
Context {D : Type} `{SdHost D}.
Abbreviation St := (io D EmmcVars).
Implicit Types s : St.
Variable T : Z.   (* s_adma2_table *)

(** What a transfer may change: a read the buffer and the table, a write the
    table and the sectors it is about. *)
Record moved (w : bool) (sector buf count : Z) (s s' : St) : Prop := {
  md_ram : forall x, ~ (w = false /\ buf <= x < buf + 512 * count) -> ~ T <= x < table_end T -> io_ram s' x = io_ram s x;
  md_bytes : ram_bytes (io_ram s) -> ram_bytes (io_ram s');
  md_card : forall x, (w = true -> outside sector count x) -> h_card (view s') x = h_card (view s) x;
  md_mode : sectors_addressed s -> sectors_addressed s'
}.
(** What it has then done. *)
Definition transferred (w : bool) (sector buf count : Z) (s s' : St) : Prop :=
  if w then sectors_of (h_card (view s')) sector (Z.to_nat count) = ram_get (io_ram s) buf (512 * Z.to_nat count)
  else ram_get (io_ram s') buf (512 * Z.to_nat count) = sectors_of (h_card (view s)) sector (Z.to_nat count).

Context (w : bool) (sector buf count : Z).
Abbreviation Moved := (moved w sector buf count).
Abbreviation Transferred := (transferred w sector buf count).

#[export] Instance moved_preorder : PreOrder Moved.
Proof.
  split; [by constructor|]. intros s1 s2 s3 [] []. constructor; [|auto| |auto]; intros x Hx.
  - intros Hx'. rewrite md_ram1 by done. by apply md_ram0.
  - rewrite md_card1 by done. by apply md_card0.
Qed.
Lemma quiet_moved s s' : quiet s s' -> Moved s s'.
Proof. intros [Hc Hm Hs]. constructor; rewrite ?Hc, ?Hm; auto. Qed.
Lemma calm_moved s s' : calm s s' -> Moved s s'.
Proof. intros C. by apply quiet_moved, calm_quiet. Qed.

Lemma transferred_calm s s1 s2 : calm s1 s2 -> Transferred s s1 -> Transferred s s2.
Proof. intros C. destruct (calm_fields _ _ C) as [Hc _], C. unfold transferred. by rewrite Hc, cm_ram0. Qed.

(** The buffer's bytes are not in the table. *)
Lemma transferred_after s s1 s2 : buffer_ok T buf count -> Moved s s1 -> Transferred s1 s2 -> Transferred s s2.
Proof.
  intros Hb [Hr _ Hc _]. unfold transferred. destruct w.
  - intros ->. apply ram_get_ext. intros x Hx. apply Hr; [by intros [? _]|]. destruct Hb as (_ & _ & Hd). lia.
  - intros ->. f_equal. apply functional_extensionality. intros x. by apply Hc.
Qed.

Definition dma_started (segs : list (Z * Z)) (s s' : St) : Prop :=
  if w then dma_writing sector count segs s s' else dma_reading sector count segs s s'.

Lemma dma_command segs s : 0 <= count < 65536 -> dma_ready T sector count segs s ->
  returns (emmc_send_command (Z.lor (if w then CMD25 else CMD18) TM_DMA_EN) sector) s (fun r s' =>
    if decide (r = E_OK) then dma_started segs s s'
    else (r = E_CMD \/ r = E_TIMED_OUT) /\ (calm s s' \/ dma_started segs s s')).
Proof. intros Hc Hr. unfold dma_started. destruct w; [by eapply dma_write_command|by eapply dma_read_command]. Qed.

Lemma dma_started_facts segs s s' : 0 < count -> contiguous buf (512 * count) segs -> dma_started segs s s' ->
  Moved s s' /\ tracked s' /\ h_xfer (view s') = XDma /\ (h_good (view s') = true -> Transferred s s').
Proof.
  intros Hc Hseg. pose proof (contiguous_sum _ _ _ Hseg) as [_ Hsum].
  replace (Z.to_nat (512 * count)) with (512 * Z.to_nat count)%nat in Hsum by lia.
  unfold dma_started, transferred. destruct w.
  - intros (Hx & Ht & Hv & Hm & Hk & Hg). split_and!; [|done|done|].
    + constructor; [by rewrite Hm|by rewrite Hm|auto|unfold sectors_addressed; by rewrite Hv].
    + intros Hgood. rewrite Hg by done. rewrite (contiguous_gather _ _ _ _ Hseg). f_equal. lia.
  - intros (Hx & Ht & Hk & Hv & Hm & Hb & Hg). split_and!; [|done|done|].
    + constructor; [|done|by rewrite Hk|unfold sectors_addressed; by rewrite Hv]. intros x Hx' _. apply Hm. intros Hin.
      apply Hx'. split; [done|]. by eapply contiguous_in.
    + intros Hgood. rewrite <- Hg by done. rewrite (contiguous_gather _ _ _ _ Hseg). f_equal. lia.
Qed.

Lemma xfer_adma2_spec s : sectors_addressed s -> 0 < count < 65536 -> buffer_ok T buf count ->
  returns (emmc_xfer_adma2 T (if w then CMD25 else CMD18) sector buf count w) s (fun r s' =>
    Moved s s' /\ (r = E_OK -> Transferred s s')).
Proof.
  intros Hsa Hc Hb. pose proof Hb as (Hb0 & Hb1 & _). unfold emmc_xfer_adma2. assert (u32 (count * SECTOR_SIZE) = 512 * count) as -> by (unfold SECTOR_SIZE; rewrite wrap_small; lia). step.
  eapply returns_mono; [apply build_table_spec; lia|]. intros n s1 (Htw & _ & Hn).
  assert (Moved s s1) as Hm1.
  { destruct Htw. constructor; [intros x _ Hx; by apply tw_ram0|done|unfold view; by rewrite tw_dev0|unfold sectors_addressed; by rewrite tw_vars0]. }
  destruct (Z.eqb_spec n 0) as [->|Hn0]; [step; by split|]. destruct (Hn Hn0) as (segs & Hls & Hseg). clear Hn.
  step. apply returns_calm; [eauto with keeps|]. intros [] s2 C2. unfold rmw. do 2 step. apply returns_calm; [eauto with keeps|]. intros v s3 C3.
  apply returns_calm; [eauto with keeps|]. intros [] s4 C4. assert (calm s1 s4) as C by by do 2 (etrans; [|eassumption]). clear C2 C3 C4.
  assert (sectors_addressed s4) as Hsa4 by (eapply md_mode; [by apply calm_moved|]; by apply (md_mode _ _ _ _ _ _ Hm1)).
  step. eapply returns_mono; [apply wr_adma|]. intros [] s5 (V5 & M5 & X5). unfold xfer_arg, var. do 3 step.
  assert (sectors_addressed s5) as Hsa5 by (unfold sectors_addressed; by rewrite X5). rewrite (proj2 (Z.eqb_neq _ 0) Hsa5). step. step.
  eapply returns_mono; [apply wr_blk|]. intros [] s6 (V6 & M6 & X6).
  assert (Moved s s6 /\ io_ram s6 = io_ram s1) as [Hm6 Hr6].
  { destruct (calm_fields _ _ C) as [Hcd _], C. split; [|congruence]. etrans; [exact Hm1|]. constructor; rewrite ?M6, ?M5, ?cm_ram0; try done.
    - intros x _. rewrite V6, V5. cbn. by rewrite Hcd.
    - unfold sectors_addressed. by rewrite X6, X5, cm_vars0. }
  step. eapply returns_mono; [apply (dma_command segs); [lia|]|].
  { split_and!; [by rewrite V6|by rewrite V6, V5|by rewrite Hr6]. }
  cbv beta. intros r s7. destruct (decide (r = E_OK)) as [->|Hne].
  2: { rewrite decide_True by done. intros [_ [C7|Hd]]; step; (split; [etrans; [exact Hm6|]|done]).
    - by apply calm_moved.
    - by destruct (dma_started_facts segs _ _ ltac:(lia) Hseg Hd). }
  rewrite decide_False by tauto. intros Hd. eapply dma_started_facts in Hd as (Hm7 & Ht7 & Hx7 & Hg7); [|lia|exact Hseg].
  step. eapply returns_mono; [apply emmc_wait_interrupt_spec|]. intros st s8 (C8 & _ & Hok8).
  assert (Moved s s8) as Hm8 by (do 2 (etrans; [|by apply calm_moved]); by etrans).
  destruct (decide (st <> E_OK)) as [Hne|He].
  { step. apply returns_calm; [eauto with keeps|]. intros e s9 C9. step. apply returns_calm; [eauto with keeps|]. intros [] s10 C10.
    step. split; [|done]. etrans; [exact Hm8|]. apply calm_moved. by etrans. }
  apply dec_stable in He. destruct (Hok8 He Ht7) as [_ Hdone]. destruct (Hdone eq_refl) as [_ Hgood].
  assert (Transferred s s8) as Htr by (eapply transferred_calm, transferred_after; [exact C8|done|exact Hm6|by apply Hg7]).
  step. eapply (returns_mono _ _ (fun _ s9 => calm s8 s9)).
  { destruct w; [by apply keeps_returns; eauto with keeps|by apply returns_ret]. }
  intros r9 s9 C9. destruct (decide (r9 <> E_OK)).
  { step. split; [|done]. etrans; [exact Hm8|by apply calm_moved]. }
  step. apply returns_calm; [eauto with keeps|]. intros [] s10 C10. step. assert (calm s8 s10) as C' by by etrans.
  split; [etrans; [exact Hm8|by apply calm_moved]|]. intros _. by eapply transferred_calm.
Qed.
End transfers.

(** ** Writing by PIO *)

Section pio_out.
Context {D : Type} `{SdHost D}.
Abbreviation St := (io D EmmcVars).
Implicit Types s : St.

Lemma wr_data_word s (sec n : Z) (got : list Z) (v : Z) : h_xfer (view s) = XWrite sec n got ->
  (length got < 512 * Z.to_nat n)%nat -> h_avail (view s) = true ->
  returns (wr DATA v) s (fun _ s' => let got' := got ++ le32 v in
    word_moved (view s) (view s') (XWrite sec n got') (length got' / 4) /\ io_ram s' = io_ram s /\ io_vars s' = io_vars s /\
    (forall x, outside sec n x -> h_card (view s') x = h_card (view s) x) /\
    (length got' = (512 * Z.to_nat n)%nat -> h_good (view s) = true -> sectors_of (h_card (view s')) sec (Z.to_nat n) = got')).
Proof.
  intros Hx Hl Ha. unfold returns, wr. destruct (io_write DATA v (io_dev s, io_ram s)) as [d m] eqn:Hw.
  destruct (write_data _ _ _ _ _ _ _ _ Hw Hx Hl Ha) as (-> & Hm & Ho & Hg). by split_and!.
Qed.

(** A write command under way: [got] is with the controller, and on the card
    if it is all. *)
Record writing (sec n : Z) (got : list Z) (s0 s : St) : Prop := {
  wg_xfer : h_xfer (view s) = XWrite sec n got;
  wg_tracked : tracked s;
  wg_ram : io_ram s = io_ram s0;
  wg_vars : io_vars s = io_vars s0;
  wg_card : forall x, outside sec n x -> h_card (view s) x = h_card (view s0) x;
  wg_done : length got = (512 * Z.to_nat n)%nat -> h_good (view s) = true -> sectors_of (h_card (view s)) sec (Z.to_nat n) = got
}.

Lemma writing_calm sec n got s0 s1 s2 : calm s1 s2 -> writing sec n got s0 s1 -> writing sec n got s0 s2.
Proof.
  intros C []. destruct (calm_fields _ _ C) as (Hc & _ & _ & _ & Hx & Hg & _), C.
  constructor; rewrite ?Hc, ?Hx, ?Hg, ?cm_ram0, ?cm_vars0; auto.
Qed.

Lemma word_bytes (m : ram) (a : Z) : ram_bytes m -> le32 (ram_word m a) = ram_get m a 4.
Proof.
  intros Hm. unfold ram_word. rewrite byte_of_le32 by apply Hm. 
  change (ram_get m a 4) with [m (Z.of_nat 0 + a); m (Z.of_nat 1 + a); m (Z.of_nat 2 + a); m (Z.of_nat 3 + a)].
  change (Z.of_nat 0) with 0. by rewrite Z.add_0_l, !(Z.add_comm _ a).
Qed.

Lemma words_out_spec (sec n : Z) (w : nat) : forall s0 s (got : list Z) (k : nat) (a : Z),
  writing sec n got s0 s -> ram_bytes (io_ram s0) -> h_seen (view s) = false -> length got = (4 * k)%nat ->
  (w <> O -> h_avail (view s) = true) -> (k mod 128 + w <= 128)%nat -> (k + w <= 128 * Z.to_nat n)%nat ->
  returns (words_out w a) s (fun _ s' => writing sec n (got ++ ram_get (io_ram s0) a (4 * w)) s0 s' /\
    h_good (view s') = h_good (view s)).
Proof.
  induction w as [|w IH]; intros s0 s got k a Hw Hb Hs Hl Ha Hblk Hk; cbn [words_out].
  { step. by rewrite app_nil_r. }
  specialize (Ha ltac:(lia)). unfold load32. step. step. rewrite (wg_ram _ _ _ _ _ Hw). step.
  eapply returns_mono; [apply (wr_data_word _ sec n got); [apply Hw|lia|done]|].
  intros [] s1 ((_ & _ & _ & Hx1 & Hg1 & Ha1 & Hs1 & Hd1) & Hm1 & Hv1 & Hc1 & Hok1). rewrite word_bytes in * by done.
  set (got1 := got ++ ram_get (io_ram s0) a 4) in *. assert (length got1 = (4 * S k)%nat) as Hl1
    by (unfold got1; rewrite length_app, length_ram_get; lia).
  assert (writing sec n got1 s0 s1) as Hw1.
  { destruct Hw. constructor; [done| |congruence|congruence| |].
    - destruct wg_tracked0 as [_ Ht]. unfold tracked. rewrite Hs1, Hs, Hd1, Hx1. split; [done|]. intros Hd. specialize (Ht Hd).
      rewrite wg_xfer0 in Ht. cbn in *. lia.
    - intros x Hx. rewrite Hc1 by done. by apply wg_card0.
    - intros Hlen Hg. apply Hok1; [done|]. by rewrite <- Hg1. }
  assert (ram_get (io_ram s0) a (4 * S w) = ram_get (io_ram s0) a 4 ++ ram_get (io_ram s0) (a + 4) (4 * w)) as ->.
  { replace (4 * S w)%nat with (4 + 4 * w)%nat by lia. by rewrite ram_get_app. }
  rewrite app_assoc. fold got1. rewrite <- Hg1. pose proof (Nat.mod_upper_bound k 128 ltac:(lia)). pose proof (Nat.mod_upper_bound (S k) 128 ltac:(lia)).
  apply (IH s0 s1 got1 (S k)); [done|done|by rewrite Hs1|done| | |lia].
  - intros Hw0. rewrite Ha1, Hl1. replace (4 * S k)%nat with (S k * 4)%nat by lia. rewrite Nat.div_mul by lia.
    apply negb_true_iff, bool_decide_eq_false. rewrite <- Nat.add_1_r, <- Nat.Div0.add_mod_idemp_l, Nat.mod_small; lia.
  - destruct w as [|w]; [lia|]. rewrite <- (Nat.add_1_r k), <- Nat.Div0.add_mod_idemp_l, Nat.mod_small; lia.
Qed.

Lemma blocks_out_spec (sec n : Z) (cnt : nat) : forall s0 s (got : list Z) (b : nat) (a : Z),
  writing sec n got s0 s -> ram_bytes (io_ram s0) -> length got = (512 * b)%nat -> (b + cnt)%nat = Z.to_nat n ->
  returns (blocks_pio INT_WRITE_RDY words_out cnt a) s (fun r s' => (r = E_OK \/ r = E_TIMED_OUT) /\
    h_good (view s') = h_good (view s) /\
    if decide (r = E_OK) then writing sec n (got ++ ram_get (io_ram s0) a (512 * cnt)) s0 s'
    else exists got', writing sec n got' s0 s').
Proof.
  induction cnt as [|cnt IH]; intros s0 s got b a Hw Hbytes Hl Hb; cbn [blocks_pio].
  { step. split_and!; [by left|done|]. by rewrite decide_True, app_nil_r by done. }
  step. eapply returns_mono; [apply emmc_wait_interrupt_spec|]. intros r s1 (C1 & _ & Hok).
  destruct (calm_fields _ _ C1) as (_ & _ & _ & _ & Hx1 & Hg1 & _). pose proof (writing_calm _ _ _ _ _ _ C1 Hw) as Hw1.
  destruct (decide (r <> E_OK)) as [Hne|He].
  { step. split_and!; [by right|done|]. rewrite decide_False by done. by exists got. }
  apply dec_stable in He as ->. destruct (Hok eq_refl (wg_tracked _ _ _ _ _ Hw)) as [Hrdy _]. rewrite (wg_xfer _ _ _ _ _ Hw) in Hrdy.
  destruct (Hrdy eq_refl) as [Ha1 Hs1]. change (Z.to_nat (SECTOR_SIZE / 4)) with 128%nat. step.
  eapply returns_mono; [apply (words_out_spec sec n 128 s0 s1 got (128 * b)); [done|done|done|lia|done| |lia]|].
  { rewrite Nat.mul_comm, Nat.Div0.mod_mul. lia. }
  change (4 * 128)%nat with 512%nat. intros [] s2 [Hw2 Hg2].
  eapply returns_mono; [apply (IH s0 s2 (got ++ ram_get (io_ram s0) a 512) (S b)); [done|done| |lia]|].
  { rewrite length_app, length_ram_get. lia. }
  intros r3 s3 (Hr3 & Hg3 & Hw3). split_and!; [done|congruence|].
  replace (512 * S cnt)%nat with (512 + 512 * cnt)%nat by lia. rewrite ram_get_app, app_assoc.
  by change (a + Z.of_nat 512) with (a + SECTOR_SIZE).
Qed.

Definition pio_write (sector buf count : Z) : M St StatusCode :=
  arg ← xfer_arg sector;
  wr BLKSIZECNT (Z.lor (shl count 16) SECTOR_SIZE);;
  r ← emmc_send_command (if count =? 1 then CMD24 else CMD25) arg;
  if decide (r <> E_OK) then mret E_CMD else
  r ← blocks_pio INT_WRITE_RDY words_out (Z.to_nat count) buf;
  if decide (r <> E_OK) then mret E_TIMED_OUT else
  r ← emmc_wait_interrupt INT_DATA_DONE 5000;
  if decide (r <> E_OK) then mret E_TIMED_OUT else
  r ← emmc_wait_status STATUS_DAT_ACTIVE 5000;
  mret (if decide (r <> E_OK) then E_TIMED_OUT else E_OK).

Lemma write_command (sector count : Z) s : 0 < count < 65536 ->
  h_blk (view s) = Z.lor (shl count 16) SECTOR_SIZE ->
  returns (emmc_send_command (if count =? 1 then CMD24 else CMD25) sector) s (fun r s' =>
    if decide (r = E_OK) then writing sector count [] s s'
    else (r = E_CMD \/ r = E_TIMED_OUT) /\ (calm s s' \/ writing sector count [] s s')).
Proof.
  intros Hc Hb. apply send_data_command.
  - by destruct (count =? 1).
  - intros s1 s2. apply writing_calm.
  - intros s1 []. unfold returns, wr.
    destruct (io_write CMDTM (if count =? 1 then CMD24 else CMD25) (io_dev s1, io_ram s1)) as [d m] eqn:Hw.
    destruct (cmd_write _ _ _ _ _ Hw) as (Hx & Ha & Hs & Hd & Hk & Hm); [destruct (count =? 1); tauto|done|done|].
    change (writing sector count [] s (s1 <| io_dev := d |> <| io_ram := m |>)). set (s2 := s1 <| io_dev := d |> <| io_ram := m |>).
    constructor; unfold tracked; change (view s2) with (host d); change (io_ram s2) with m; rewrite ?Hs, ?Hd.
    + rewrite Hx. f_equal; [exact is_arg0|]. unfold cmd_blocks. destruct (Z.eqb_spec count 1) as [->|]; [done|].
      change (has CMD25 TM_BLKCNT_EN) with true. cbv iota. change (host (io_dev s1)) with (view s1). rewrite is_blk0, Hb. apply blk_count. lia.
    + done.
    + congruence.
    + done.
    + intros x _. by rewrite Hk, <- is_card0.
    + cbn [length]. intros Hl. lia.
Qed.
End pio_out.

Section blocks.
Context {D : Type} `{SdHost D}.
Abbreviation St := (io D EmmcVars).
Implicit Types s : St.
Variable T : Z.   (* s_adma2_table *)

Lemma pio_write_spec (sector buf count : Z) s : sectors_addressed s -> ram_bytes (io_ram s) -> 0 < count < 65536 ->
  returns (pio_write sector buf count) s (fun r s' => result_ok r /\ moved T true sector buf count s s' /\
    (r = E_OK -> transferred true sector buf count s s')).
Proof.
  intros Hsa Hb Hc. unfold pio_write, xfer_arg, var. do 3 step. rewrite (proj2 (Z.eqb_neq _ 0) Hsa). step. step.
  eapply returns_mono; [apply wr_blk|]. intros [] s1 (V1 & M1 & X1). step.
  assert (forall got s', writing sector count got s1 s' -> moved T true sector buf count s s') as Hwm.
  { intros got s' []. constructor; [by intros; rewrite wg_ram0, M1|by rewrite wg_ram0, M1| |unfold sectors_addressed; by rewrite wg_vars0, X1].
    intros x Hx. rewrite wg_card0 by auto. by rewrite V1. }
  assert (moved T true sector buf count s s1) as Hm1.
  { constructor; [by intros; rewrite M1|by rewrite M1|by intros; rewrite V1|unfold sectors_addressed; by rewrite X1]. }
  eapply returns_mono; [apply write_command; [done|by rewrite V1]|]. cbv beta. intros r s2. destruct (decide (r = E_OK)) as [->|Hne].
  2: { rewrite decide_True by done. intros [_ [C|Hw]]; step; (split; [right; by left|split; [|done]]).
    - etrans; [exact Hm1|by apply calm_moved].
    - by eapply Hwm. }
  rewrite decide_False by tauto. intros Hw2. step. rewrite <- M1 in Hb.
  eapply returns_mono; [apply (blocks_out_spec sector count (Z.to_nat count) s1 s2 [] 0 buf); [done|done|done|lia]|].
  cbv beta. intros r3 s3 (_ & _ & Hw3). destruct (decide (r3 = E_OK)) as [->|Hne].
  2: { rewrite decide_True by done. step. destruct Hw3 as [got' Hw3]. split; [right; by right|]. split; [by eapply Hwm|done]. }
  rewrite decide_False by tauto. step. eapply returns_mono; [apply emmc_wait_interrupt_spec|].
  intros r4 s4 (C4 & _ & Hok4). pose proof (Hwm _ _ (writing_calm _ _ _ _ _ _ C4 Hw3)) as Hm4. destruct (decide (r4 <> E_OK)) as [Hne|He4]; step.
  { split; [right; by right|]. by split. }
  apply dec_stable in He4. destruct (Hok4 He4 (wg_tracked _ _ _ _ _ Hw3)) as [_ Hd]. destruct (Hd eq_refl) as [_ Hg].
  apply returns_calm; [eauto with keeps|]. intros r5 s5 C5. step. assert (calm s3 s5) as C by by etrans.
  assert (moved T true sector buf count s s5) as Hm5 by (by eapply Hwm, writing_calm).
  destruct (decide (r5 <> E_OK)); [split; [right; by right|by split]|]. split; [by left|]. split; [done|]. intros _.
  eapply transferred_calm; [exact C|]. unfold transferred. rewrite (wg_done _ _ _ _ _ Hw3); [by rewrite M1| |done].
  cbn [app]. by rewrite length_ram_get.
Qed.

Lemma pio_read_moved (sector buf count : Z) s : sectors_addressed s -> ram_bytes (io_ram s) -> 0 < count < 65536 ->
  returns (pio_read sector buf count) s (fun r s' => result_ok r /\ moved T false sector buf count s s' /\
    (r = E_OK -> transferred false sector buf count s s')).
Proof.
  intros Hsa Hb Hc. eapply returns_mono; [by apply pio_read_spec|]. intros r s' (Hr & Hcd & Hv & Hm & Hmb & Hok).
  split; [done|]. split; [|done]. constructor; [|done|by rewrite Hcd|unfold sectors_addressed; by rewrite Hv].
  intros x Hx _. apply Hm. tauto.
Qed.

Lemma reset_quiet : keeps never (quiet (D := D)) emmc_reset_cmd_data.
Proof. unfold emmc_reset_cmd_data. keeps. Qed.

(** DMA first, PIO after it failed. *)
Lemma fallback_spec (w : bool) (sector buf count : Z) (msg : String.string) (pio : M St StatusCode) s :
  sectors_addressed s -> ram_bytes (io_ram s) -> 0 < count < 65536 -> buffer_ok T buf count ->
  (forall s, sectors_addressed s -> ram_bytes (io_ram s) -> returns pio s (fun r s' => result_ok r /\ moved T w sector buf count s s' /\
    (r = E_OK -> transferred w sector buf count s s'))) ->
  returns (adma ← var s_adma2_supported;
    done ← (if negb (adma =? 0) && (1 <? count) then
              r ← emmc_xfer_adma2 T (if w then CMD25 else CMD18) sector buf count w;
              if decide (r = E_OK) then mret true
              else emmc_reset_cmd_data;; print msg [];; mret false
            else mret false);
    if done : bool then mret E_OK else pio) s
    (fun r s' => result_ok r /\ moved T w sector buf count s s' /\ (r = E_OK -> transferred w sector buf count s s')).
Proof.
  intros Hsa Hrb Hc Hb Hpio. unfold var. step. step. step. destruct (_ && _).
  2: { step. by apply Hpio. }
  step. eapply returns_mono; [by apply xfer_adma2_spec|]. intros r s1 [Hm1 Ht1]. destruct (decide (r = E_OK)) as [He|Hne].
  { step. step. split; [by left|]. split; [done|]. intros _. by apply Ht1. }
  step. apply returns_quiet; [apply reset_quiet|]. intros [] s2 Q2. step. apply returns_calm; [eauto with keeps|]. intros [] s3 C3. step.
  assert (moved T w sector buf count s s3) as Hm3.
  { etrans; [exact Hm1|]. etrans; [apply quiet_moved; exact Q2|apply calm_moved; exact C3]. }
  eapply returns_mono; [apply Hpio; [by eapply md_mode|by eapply md_bytes]|].
  intros r4 s4 (Hr4 & Hm4 & Ht4). split; [done|]. split; [by etrans|]. intros Hr. by eapply transferred_after; [..|apply Ht4].
Qed.

Lemma emmc_read_blocks_spec (sector buf count : Z) s :
  sectors_addressed s -> ram_bytes (io_ram s) -> 0 <= count < 65536 -> buffer_ok T buf count ->
  returns (emmc_read_blocks T sector buf count) s (fun r s' => result_ok r /\ moved T false sector buf count s s' /\
    (r = E_OK -> transferred false sector buf count s s')).
Proof.
  intros Hsa Hrb Hc Hb. unfold emmc_read_blocks. destruct (Z.eqb_spec count 0) as [->|Hne].
  { step. split; [by left|]. by split. }
  apply (fallback_spec false sector buf count Messages.read_fallback (pio_read sector buf count)); [done|done|lia|done|].
  intros s' H1 H2. by apply pio_read_moved; [..|lia].
Qed.

(** C32: a read reads.  For a buffer of [count] < 65536 sectors below 4 GiB,
    off the descriptor table, whatever the controller does [emmc_read_blocks]
    comes back with E_OK, E_CMD or E_TIMED_OUT; the card is untouched and so is
    the RAM but for the buffer and the table; and if it says E_OK, by DMA or by
    PIO, the buffer holds exactly the sectors asked for. *)
Theorem emmc_read_blocks_correct (sector buf count : Z) s :
  sectors_addressed s -> ram_bytes (io_ram s) -> 0 <= count < 65536 -> buffer_ok T buf count ->
  returns (emmc_read_blocks T sector buf count) s (fun r s' => result_ok r /\ moved T false sector buf count s s' /\
    (r = E_OK -> transferred false sector buf count s s')).
Proof. apply emmc_read_blocks_spec. Qed.

Lemma emmc_write_blocks_spec (sector buf count : Z) s :
  sectors_addressed s -> ram_bytes (io_ram s) -> 0 <= count < 65536 -> buffer_ok T buf count ->
  returns (emmc_write_blocks T sector buf count) s (fun r s' =>
    if (negb (count =? 0) && (sector <? EMMC_FIRMWARE_FLOOR))%bool then r = E_INVALID_ARGS /\ calm s s'
    else result_ok r /\ moved T true sector buf count s s' /\ (r = E_OK -> transferred true sector buf count s s')).
Proof.
  intros Hsa Hrb Hc Hb. unfold emmc_write_blocks. destruct (Z.eqb_spec count 0) as [->|Hne]; cbn [negb andb].
  { step. split; [by left|]. by split. }
  destruct (sector <? EMMC_FIRMWARE_FLOOR).
  { step. apply returns_calm; [eauto with keeps|]. intros [] s1 C1. by step. }
  apply (fallback_spec true sector buf count Messages.write_fallback (pio_write sector buf count)); [done|done|lia|done|].
  intros s' H1 H2. by apply pio_write_spec; [..|lia].
Qed.

(** C33: a write writes, above the floor.  Whatever the controller does,
    [emmc_write_blocks] comes back.  Below EMMC_FIRMWARE_FLOOR it refuses with
    E_INVALID_ARGS and sends no command.  Otherwise no sector but those asked
    for changes, nor the RAM but for the descriptor table; and if it says
    E_OK, the sectors hold exactly the bytes of the buffer. *)
Theorem emmc_write_blocks_correct (sector buf count : Z) s :
  sectors_addressed s -> ram_bytes (io_ram s) -> 0 <= count < 65536 -> buffer_ok T buf count ->
  returns (emmc_write_blocks T sector buf count) s (fun r s' =>
    if (negb (count =? 0) && (sector <? EMMC_FIRMWARE_FLOOR))%bool then r = E_INVALID_ARGS /\ calm s s'
    else result_ok r /\ moved T true sector buf count s s' /\ (r = E_OK -> transferred true sector buf count s s')).
Proof. apply emmc_write_blocks_spec. Qed.

(** ** Any read at all leaves the card alone *)

Lemma kept_quiet {A} E (m : M St A) : keeps E quiet m -> keeps E card_kept m.
Proof. apply keeps_weaken; [done|apply quiet_kept]. Qed.

Lemma store_kept (a v : Z) E : keeps E (card_kept (D := D)) (store32 a v).
Proof. apply returns_keeps. intros s. constructor; [done| |done]. intros Hb. apply ram_put_bytes; [apply le32_bytes|done]. Qed.
End blocks.
#[export] Hint Resolve store_kept : keeps.
#[export] Hint Extern 3 (keeps _ card_kept _) => apply kept_quiet; solve [eauto 4 with keeps] : keeps.

Section read_frame.
Context {D : Type} `{SdHost D}.
Abbreviation St := (io D EmmcVars).
Abbreviation Kept := (keeps ever (card_kept (D := D))).

Lemma load_kept (a : Z) : Kept (load32 a).
Proof. apply keeps_gets. Qed.
Lemma send_command_kept (c a : Z) : write_cmd c = false -> Kept (emmc_send_command c a).
Proof. intros Hc. pose proof (wr_cmd_kept (D := D) c ever Hc). unfold emmc_send_command. keeps. Qed.
#[local] Hint Resolve load_kept : keeps.
#[local] Hint Extern 1 (keeps _ card_kept (emmc_send_command _ _)) => apply send_command_kept; reflexivity : keeps.

Lemma build_kept (T : Z) (fuel : nat) : forall addr remaining n, Kept (build_loop T fuel addr remaining n).
Proof.
  induction fuel as [|fuel IH]; intros addr remaining n; cbn [build_loop].
  - destruct (_ =? _); [destruct (_ =? _); [by apply keeps_stop|keeps]|]. destruct (_ <=? _); [apply keeps_ret|by apply keeps_stop].
  - destruct (_ =? _); [destruct (_ =? _); [by apply keeps_stop|keeps]|]. destruct (_ <=? _); [apply keeps_ret|].
    cbv zeta. apply keeps_bind; [eauto with keeps|]. intros _. apply keeps_bind; [eauto with keeps|]. intros _. apply IH.
Qed.

Lemma xfer_read_kept (T sector buf count : Z) : Kept (emmc_xfer_adma2 T CMD18 sector buf count false).
Proof.
  pose proof (build_kept T (Z.to_nat ADMA2_MAX_DESCRIPTORS)). unfold emmc_xfer_adma2, emmc_build_adma2_table, xfer_arg. keeps.
Qed.

Lemma words_in_kept (n : nat) : forall a, Kept (words_in n a).
Proof. induction n as [|n IH]; intros a; cbn [words_in]; keeps. Qed.
Lemma blocks_in_kept (ready : Z) (n : nat) : forall a, Kept (blocks_pio ready words_in n a).
Proof. pose proof words_in_kept. induction n as [|n IH]; intros a; cbn [blocks_pio]; keeps. Qed.
Lemma reset_kept : Kept emmc_reset_cmd_data.
Proof. apply kept_quiet. unfold emmc_reset_cmd_data. keeps. Qed.

Lemma read_blocks_kept (T sector buf count : Z) : Kept (emmc_read_blocks T sector buf count).
Proof.
  pose proof xfer_read_kept. pose proof blocks_in_kept. pose proof reset_kept. unfold emmc_read_blocks, xfer_arg.
  do 6 (keeps_step || solve [eauto with keeps]). all: keeps.
  all: destruct (count =? 1); eauto with keeps.
Qed.
End read_frame.
