(* ===== verification/EmmcDevice.v ===== *)
(** * The eMMC driver as the boot stages' disk

    [emmc_device] is the driver behind the interface [BlockDevice], over any
    controller that obeys [SdHost]; [emmc_laws] proves the contract
    [BlockLaws] of it, so the theorems of the boot stages hold of the driver.
    [sd_card] is a controller with a card that obeys [SdHost]. *)

From Stdlib Require String.
From S2P Require Import Prelude Types Crc Telemetry Board Watchdog Boot Dfu Bootloader Mmio Emmc EmmcThm.
Import EMMC2Regs.

(** ** The driver as a block device

    The boot stages see the driver through [BlockDevice]: a buffer of theirs
    is the RAM from [DEV_BUF] on.  A state of the device is one where the card
    is addressed by sectors, as the driver's initial values say. *)

Section device.
Context {D : Type} `{SdHost D}.
Abbreviation St := (io D EmmcVars).

Definition DEV_BUF : Z := 0x10000000.
Definition DEV_TABLE : Z := 0x80000.

Definition driver_ok (s : St) : Prop := sectors_addressed s /\ ram_bytes (io_ram s).
Record driven := mkDriven { dr_state : St; dr_ok : driver_ok dr_state }.

Definition keeps_ok {A} (m : M St A) : Prop :=
  forall s, driver_ok s -> runs m s (fun _ s' => driver_ok s') (fun _ s' => driver_ok s').

Lemma driven_ok {A} (m : M St A) s : driver_ok s -> keeps_ok m ->
  driver_ok (match m s with Ret _ s' => s' | Stop _ s' => s' end).
Proof. intros Hs Hm. specialize (Hm s Hs). unfold runs in Hm. by destruct (m s). Qed.

(** Running a function of the driver; [dflt] stands for the answer of one
    that does not come back. *)
Definition drive {A} (m : M St A) (Hm : keeps_ok m) (dflt : A) (d : driven) : A * driven :=
  (match m (dr_state d) with Ret a _ => a | Stop _ _ => dflt end,
   mkDriven (match m (dr_state d) with Ret _ s' => s' | Stop _ s' => s' end) (driven_ok m (dr_state d) (dr_ok d) Hm)).

Lemma drive_returns {A} (m : M St A) Hm dflt d (Q : A -> St -> Prop) :
  returns m (dr_state d) Q -> Q (drive m Hm dflt d).1 (dr_state (drive m Hm dflt d).2).
Proof. unfold returns, drive. cbn. by destruct (m (dr_state d)). Qed.
Lemma drive_runs {A} (m : M St A) Hm dflt d (R : St -> St -> Prop) :
  keeps ever R m -> R (dr_state d) (dr_state (drive m Hm dflt d).2).
Proof. intros HR. specialize (HR (dr_state d)). unfold runs, drive in *. cbn. destruct (m (dr_state d)); [done|by destruct HR]. Qed.

Lemma init_ok : keeps_ok emmc_init.
Proof. intros s [H1 H2]. apply runs_returns. eapply returns_mono; [apply emmc_init_quiet|]. intros r s' [_ Hm Hs]. split; [auto|by rewrite Hm]. Qed.

Lemma read_blocks_ok (sector count : Z) : keeps_ok (emmc_read_blocks DEV_TABLE sector DEV_BUF count).
Proof.
  intros s [H1 H2]. eapply runs_mono; [apply read_blocks_kept| |].
  - intros r s' []. split; auto.
  - intros w s' [_ []]. split; auto.
Qed.

Lemma dev_buffer (count : Z) : 0 <= count < 65536 -> buffer_ok DEV_TABLE DEV_BUF count.
Proof.
  intros Hc. assert (table_end DEV_TABLE <= DEV_BUF) as Ht by (vm_compute; discriminate). unfold buffer_ok.
  unfold DEV_BUF in *. split_and!; [lia|lia|by right].
Qed.

(** One sector, from a buffer with these bytes. *)
Definition write_sector (sector : Z) (bytes : list Z) : M St StatusCode :=
  modify (fun s => s <| io_ram ::= fun m => ram_put m DEV_BUF (map u8 bytes) |>);;
  emmc_write_blocks DEV_TABLE sector DEV_BUF 1.

Lemma bytes_u8 (bytes : list Z) : Forall is_byte (map u8 bytes).
Proof. apply Forall_fmap, Forall_true. intros x. apply (wrap_range 8). lia. Qed.

Definition buffer_set (bytes : list Z) (s : St) : St := s <| io_ram ::= fun m => ram_put m DEV_BUF (map u8 bytes) |>.

Lemma buffer_set_ok (bytes : list Z) s : driver_ok s -> driver_ok (buffer_set bytes s).
Proof. intros [H1 H2]. split; [done|]. apply ram_put_bytes; [apply bytes_u8|done]. Qed.

Lemma write_sector_spec (sector : Z) (bytes : list Z) s : driver_ok s ->
  returns (write_sector sector bytes) s (fun r s' =>
    if sector <? EMMC_FIRMWARE_FLOOR then r = E_INVALID_ARGS /\ calm (buffer_set bytes s) s'
    else result_ok r /\ moved DEV_TABLE true sector DEV_BUF 1 (buffer_set bytes s) s' /\
      (r = E_OK -> transferred true sector DEV_BUF 1 (buffer_set bytes s) s')).
Proof.
  intros Hs. destruct (buffer_set_ok bytes s Hs) as [H1 H2]. unfold write_sector. do 2 step.
  apply (emmc_write_blocks_spec DEV_TABLE sector DEV_BUF 1 (buffer_set bytes s)); [done|done|lia|by apply dev_buffer].
Qed.

Lemma write_sector_ok (sector : Z) (bytes : list Z) : keeps_ok (write_sector sector bytes).
Proof.
  intros s Hs. destruct (buffer_set_ok bytes s Hs) as [H1 H2]. apply runs_returns.
  eapply returns_mono; [by apply write_sector_spec|]. intros r s'. cbv beta. destruct (_ <? _).
  - intros [_ C]. split; [unfold sectors_addressed; by rewrite (cm_vars _ _ C)|by rewrite (cm_ram _ _ C)].
  - intros (_ & [] & _). split; auto.
Qed.

#[export] Instance emmc_device : BlockDevice driven := {
  dev_init := fun d => drive emmc_init init_ok E_TIMED_OUT d;
  dev_read := fun s n d =>
    let rd := drive (emmc_read_blocks DEV_TABLE s DEV_BUF n) (read_blocks_ok s n) E_TIMED_OUT d in
    (rd.1, ram_get (io_ram (dr_state rd.2)) DEV_BUF (Z.to_nat (512 * n)), rd.2);
  dev_write := fun s bytes d =>
    if decide (length bytes = 512%nat) then drive (write_sector s bytes) (write_sector_ok s bytes) E_TIMED_OUT d
    else (E_INVALID_ARGS, d)
}.

Lemma buffer_set_view bytes s : view (buffer_set bytes s) = view s.
Proof. done. Qed.

Lemma dev_write_sector (s : Z) (bytes : list Z) (d : driven) : length bytes = 512%nat ->
  let w := dev_write s bytes d in let b := buffer_set bytes (dr_state d) in
  if s <? EMMC_FIRMWARE_FLOOR then w.1 = E_INVALID_ARGS /\ calm b (dr_state w.2)
  else result_ok w.1 /\ moved DEV_TABLE true s DEV_BUF 1 b (dr_state w.2) /\ (w.1 = E_OK -> transferred true s DEV_BUF 1 b (dr_state w.2)).
Proof.
  intros Hl. cbn [dev_write emmc_device]. rewrite decide_True by done. cbv zeta.
  exact (drive_returns _ (write_sector_ok s bytes) E_TIMED_OUT d _ (write_sector_spec s bytes _ (dr_ok d))).
Qed.

#[export] Program Instance emmc_laws : BlockLaws driven := { contents := fun d => h_card (view (dr_state d)) }.
Next Obligation. intros d s. apply card_bytes. Qed.
Next Obligation.
  intros d s. pose proof (drive_returns emmc_init init_ok E_TIMED_OUT d _ (emmc_init_quiet _)) as [Hc _ _]. cbn [dev_init emmc_device]. by rewrite Hc.
Qed.
Next Obligation.
  intros s n d s'. pose proof (drive_runs _ (read_blocks_ok s n) E_TIMED_OUT d _ (read_blocks_kept DEV_TABLE s DEV_BUF n)) as [Hc _ _].
  cbn [dev_read emmc_device snd]. by rewrite Hc.
Qed.
Next Obligation.
  intros s n d bytes d' Hn. cbn [dev_read emmc_device]. intros [= Hr <- <-]. destruct (dr_ok d) as [H1 H2].
  pose proof (drive_returns _ (read_blocks_ok s n) E_TIMED_OUT d _
    (emmc_read_blocks_spec DEV_TABLE s DEV_BUF n (dr_state d) H1 H2 Hn (dev_buffer n Hn))) as (_ & _ & Ht).
  rewrite <- (Ht Hr). f_equal. lia.
Qed.
Next Obligation.
  intros s n d code bytes d'. cbn [dev_read emmc_device]. intros [= _ <- _]. split; [by rewrite length_ram_get|].
  pose proof (dr_ok (drive (emmc_read_blocks DEV_TABLE s DEV_BUF n) (read_blocks_ok s n) E_TIMED_OUT d).2) as [_ Hb].
  apply Forall_fmap, Forall_true. intros x. apply Hb.
Qed.
Next Obligation.
  intros s bytes d s' Hl Hne. pose proof (dev_write_sector s bytes d Hl) as Hw. cbv zeta in Hw. destruct (_ <? _).
  - destruct Hw as [_ C]. destruct (calm_fields _ _ C) as [Hc _]. by rewrite Hc.
  - destruct Hw as (_ & Hm & _). rewrite (md_card _ _ _ _ _ _ _ Hm); [done|]. intros _. unfold outside. lia.
Qed.
Next Obligation.
  intros s bytes d d' Hl Hb Hd. pose proof (dev_write_sector s bytes d Hl) as Hw. cbv zeta in Hw. rewrite Hd in Hw. destruct (_ <? _).
  - by destruct Hw.
  - destruct Hw as (_ & _ & Ht). specialize (Ht eq_refl). unfold transferred in Ht. change (Z.to_nat 1) with 1%nat in Ht.
    cbn [sectors_of snd] in Ht. rewrite app_nil_r in Ht. rewrite Ht. change (512 * 1)%nat with 512%nat.
    unfold buffer_set. cbn [io_ram field_update]. rewrite u8_bytes, <- Hl by done. apply ram_get_put.
Qed.
Next Obligation.
  intros s bytes d Hs Hl. pose proof (dev_write_sector s bytes d Hl) as Hw. cbv zeta in Hw. rewrite (proj2 (Z.ltb_lt _ _) Hs) in Hw.
  destruct Hw as [Hr C]. split; [exact Hr|]. intros s'. destruct (calm_fields _ _ C) as [Hc _]. by rewrite Hc.
Qed.

(** The bootloader over the driver: on every controller that obeys the contract
    [kmain], run on the real driver, ends as it does on a disk.  What it jumps
    to is then an image on the card, provided that the driver's reads succeed,
    which is for the controller and the card to say. *)
Theorem kmain_boots_from_card (b : board driven) :
  buffers_ok b -> rx_len b < 2 ^ 31 -> flags_honest b ->
  runs kmain b (fun _ _ => False) (fun w k => session_stop w k \/
    (w = Jump APP_START_ADDR /\ (reads_succeed (D := driven) ->
       let card := h_card (view (dr_state (b_dev k))) in
       image_valid card (active_base (b_meta k)) /\
       (fw_length (header card (active_base (b_meta k))) <= 512 * 65535 ->
        ram_holds (b_ram k) APP_START_ADDR (firmware card (active_base (b_meta k)) (fw_length (header card (active_base (b_meta k))))))))).
Proof.
  intros Hb Hr Hf. eapply runs_mono; [exact (kmain_spec b Hb Hr Hf)|done|].
  intros w k [H1|[H1 Hk]]; [by left|right]. split; [exact H1|]. intros Hrd card. exact (Hk Hrd).
Qed.
End device.

(** ** A controller with a card

    It answers at once, supports ADMA2 and makes no errors, except that it
    flags a DMA whose descriptor table is too long for it or does not add up. *)

Record sd_card := mkSdCard { sd_view : host_view; sd_regs : Z -> Z }.
#[export] Instance eta_sd_card : Settable sd_card := fun r => mkSdCard (sd_view r) (sd_regs r).

Definition sd_xfer (x : xfer) : xfer := match x with XWrite s n got => XWrite s n (map u8 got) | _ => x end.
Definition sd_host (d : sd_card) : host_view :=
  let h := sd_view d in
  mkHost (fun s => pad_sector (h_card h s)) (h_arg h) (h_blk h) (h_adma h) (sd_xfer (h_xfer h)) (h_good h) (h_avail h) (h_seen h) (h_done h).

Definition sd_ready (h : host_view) : bool :=
  h_avail h || match h_xfer h with
               | XRead s n k => (k <? 128 * Z.to_nat n)%nat
               | XWrite s n got => (length got <? 512 * Z.to_nat n)%nat
               | _ => false
               end.
Definition sd_finished (x : xfer) : bool :=
  match x with
  | XNone => false
  | XRead s n k => (128 * Z.to_nat n <=? k)%nat
  | XWrite s n got => (512 * Z.to_nat n <=? length got)%nat
  | XDma => true
  end.

Lemma sd_finished_spec x : sd_finished x = true <-> finished x.
Proof. destruct x; cbn; rewrite ?Nat.leb_le; done. Qed.

Definition sd_flags (a e good : bool) (x : xfer) : Z :=
  bits [INT_CMD_DONE; if a then ready_flag x else 0; if e then INT_DATA_DONE else 0; if good then 0 else Z.shiftl 1 15].

Definition word_of (bytes : list Z) (k : nat) : Z := word_at (drop (4 * k) bytes) 0.

Definition sd_read (r : Z) (st : sd_card * ram) : Z * (sd_card * ram) :=
  let '(d, m) := st in
  let h := sd_view d in
  if r =? DATA then
    match h_xfer h with
    | XRead s n k =>
        (word_of (sectors_of (h_card (sd_host d)) s (Z.to_nat n)) k,
         (d <| sd_view := mkHost (h_card h) (h_arg h) (h_blk h) (h_adma h) (XRead s n (S k)) (h_good h)
                            (negb (bool_decide (S k mod 128 = 0)%nat)) (h_seen h) (h_done h) |>, m))
    | _ => (0, (d, m))
    end
  else if r =? INTERRUPT then
    let a := sd_ready h in
    let e := sd_finished (h_xfer h) in
    (sd_flags a e (h_good h) (h_xfer h),
     (d <| sd_view := h <| h_avail := a |> <| h_seen := a |> <| h_done := e |> |>, m))
  else if r =? RESP0 then (0xC0FF8080, (d, m))
  else if r =? STATUS then (0, (d, m))
  else if r =? CONTROL1 then (Z.lor CTRL1_CLK_STABLE (Z.land (sd_regs d CONTROL1) 0xFFFFFF), (d, m))
  else if r =? CAPABILITIES0 then (CAP0_ADMA2_SUPPORT, (d, m))
  else (sd_regs d r, (d, m)).

(** The table, if it has at most [fuel] lines. *)
Fixpoint walk_table (fuel : nat) (m : ram) (a : Z) : option (list (Z * Z)) :=
  match fuel with
  | O => None
  | S fuel' =>
      let w := ram_word m a in
      let sg := (ram_word m (a + 4), if Z.shiftr w 16 =? 0 then 65536 else Z.shiftr w 16) in
      if has w ADMA2_DESC_VALID && (Z.land w 0x30 =? ADMA2_DESC_ACT_TRAN) then
        if has w ADMA2_DESC_END then Some [sg] else option_map (cons sg) (walk_table fuel' m (a + 8))
      else None
  end.

Fixpoint scatter (m : ram) (segs : list (Z * Z)) (bytes : list Z) : ram :=
  match segs with
  | [] => m
  | (a, len) :: segs' => scatter (ram_put m a (take (Z.to_nat len) bytes)) segs' (drop (Z.to_nat len) bytes)
  end.

(** The sectors from [s] on, overwritten. *)
Definition put_sectors (c : Z -> list Z) (s : Z) (n : nat) (bytes : list Z) : Z -> list Z :=
  fun x => if (s <=? x) && (x <? s + Z.of_nat n) then take 512 (drop (512 * Z.to_nat (x - s)) bytes) else c x.

Definition started_xfer (h : host_view) (x : xfer) (good : bool) : host_view :=
  mkHost (h_card h) (h_arg h) (h_blk h) (h_adma h) x good false false false.

Definition sd_command (c : Z) (d : sd_card) (m : ram) : sd_card * ram :=
  let h := sd_view d in
  let n := cmd_blocks c h in
  let data := sectors_of (h_card (sd_host d)) (h_arg h) (Z.to_nat n) in
  if bool_decide (c = CMD17 \/ c = CMD18) then (d <| sd_view := started_xfer h (XRead (h_arg h) n 0) true |>, m)
  else if bool_decide (c = CMD24 \/ c = CMD25) then (d <| sd_view := started_xfer h (XWrite (h_arg h) n []) true |>, m)
  else if c =? Z.lor CMD18 TM_DMA_EN then
    match walk_table 200 m (h_adma h) with
    | Some segs =>
        let m' := scatter m segs data in
        (d <| sd_view := started_xfer h XDma (bool_decide (gather m' segs = data)) |>, m')
    | None => (d <| sd_view := started_xfer h XDma false |>, m)
    end
  else if c =? Z.lor CMD25 TM_DMA_EN then
    match walk_table 200 m (h_adma h) with
    | Some segs =>
        let h' := h <| h_card := put_sectors (h_card h) (h_arg h) (Z.to_nat n) (gather m segs) |> in
        let d' := d <| sd_view := h' |> in
        (d <| sd_view := started_xfer h' XDma
                (bool_decide (sectors_of (h_card (sd_host d')) (h_arg h) (Z.to_nat n) = gather m segs)) |>, m)
    | None => (d <| sd_view := started_xfer h XDma false |>, m)
    end
  else (d <| sd_view := started_xfer h XNone true |>, m).

Definition sd_write (r v : Z) (st : sd_card * ram) : sd_card * ram :=
  let '(d, m) := st in
  let h := sd_view d in
  if r =? ARG1 then (d <| sd_view := h <| h_arg := v |> |>, m)
  else if r =? BLKSIZECNT then (d <| sd_view := h <| h_blk := v |> |>, m)
  else if r =? ADMA_ADDRESS then (d <| sd_view := h <| h_adma := v |> |>, m)
  else if r =? INTERRUPT then
    (d <| sd_view := h <| h_seen := h_seen h && negb (has v (ready_flag (h_xfer h))) |>
                       <| h_done := h_done h && negb (has v INT_DATA_DONE) |> |>, m)
  else if r =? DATA then
    match h_xfer h with
    | XWrite s n got =>
        let got' := map u8 (got ++ le32 v) in
        let c := if bool_decide (length got' = 512 * Z.to_nat n)%nat then put_sectors (h_card h) s (Z.to_nat n) got' else h_card h in
        (d <| sd_view := mkHost c (h_arg h) (h_blk h) (h_adma h) (XWrite s n got')
                           (h_good h)
                           (negb (bool_decide (length got' / 4 mod 128 = 0)%nat)) (h_seen h) (h_done h) |>, m)
    | _ => (d, m)
    end
  else if r =? CMDTM then sd_command v d m
  else (d <| sd_regs ::= fun f => <[r := v]> f |>, m).

#[export] Instance sd_mmio : Mmio sd_card := { io_read := sd_read; io_write := sd_write }.

(** *** It obeys the contract *)

Lemma ready_flag_sd x : ready_flag (sd_xfer x) = ready_flag x.
Proof. by destruct x. Qed.

Lemma word_of_spec (l : list Z) (k : nat) : Forall is_byte l -> (4 * k + 4 <= length l)%nat ->
  le32 (u32 (word_of l k)) = take 4 (drop (4 * k) l).
Proof.
  intros Hb Hl. unfold word_of, word_at, byte_at. set (l' := drop (4 * k) l).
  assert (Forall is_byte l') as Hb' by by apply Forall_drop.
  assert (4 <= length l')%nat as Hl' by (unfold l'; rewrite length_drop; lia). clearbody l'.
  destruct l' as [|b0 [|b1 [|b2 [|b3 l']]]]; cbn in Hl'; try lia. split_Forall.
  change (Z.to_nat 0) with 0%nat. change (Z.to_nat (0 + 1)) with 1%nat. change (Z.to_nat (0 + 2)) with 2%nat.
  change (Z.to_nat (0 + 3)) with 3%nat. cbn [lookup list_lookup default from_option].
  change (le32 (u32 (of_le32 b0 b1 b2 b3)) = [b0; b1; b2; b3]).
  rewrite wrap_small by (by apply of_le32_range). by apply byte_of_le32.
Qed.

Lemma put_sectors_of (c : Z -> list Z) (n : nat) : forall s (bytes : list Z), length bytes = (512 * n)%nat ->
  Forall is_byte bytes -> sectors_of (fun x => pad_sector (put_sectors c s n bytes x)) s n = bytes.
Proof.
  intros s bytes Hl Hb.
  enough (forall m i, (i + m = n)%nat -> sectors_of (fun x => pad_sector (put_sectors c s n bytes x)) (s + Z.of_nat i) m = drop (512 * i) bytes) as He.
  { specialize (He n 0%nat ltac:(lia)). by rewrite Z.add_0_r, Nat.mul_0_r, drop_0 in He. }
  induction m as [|m IH]; intros i Hi; cbn [sectors_of]; [symmetry; apply drop_ge; lia|].
  replace (s + Z.of_nat i + 1) with (s + Z.of_nat (S i)) by lia. rewrite IH by lia.
  unfold put_sectors. rewrite (proj2 (Z.leb_le _ _)), (proj2 (Z.ltb_lt _ _)) by lia. cbn [andb].
  replace (Z.to_nat (s + Z.of_nat i - s)) with i by lia. rewrite pad_sector_id.
  - rewrite <- (take_drop 512 (drop (512 * i) bytes)) at 2. rewrite drop_drop. f_equal. f_equal. lia.
  - rewrite length_take, length_drop. lia.
  - by apply Forall_take, Forall_drop.
Qed.

Lemma put_sectors_out (c : Z -> list Z) (s n : Z) (bytes : list Z) (x : Z) : outside s n x ->
  put_sectors c s (Z.to_nat n) bytes x = c x.
Proof.
  intros Hx. unfold outside in Hx. unfold put_sectors. destruct (Z.leb_spec s x); cbn [andb]; [|done].
  destruct (Z.ltb_spec x (s + Z.of_nat (Z.to_nat n))); [lia|done].
Qed.

Lemma walk_table_spec (fuel : nat) : forall m a segs segs', walk_table fuel m a = Some segs' -> adma_lines m a segs -> segs = segs'.
Proof.
  induction fuel as [|fuel IH]; intros m a segs segs'; cbn [walk_table]; [done|].
  intros Hw Hl. inversion Hl as [? ? ? Hln|? ? ? segs0 Hln Hls]; subst; inversion Hln as [? w ? -> Hv Ht He]; subst;
    rewrite Hv, Ht, He in Hw; cbn [andb] in Hw; rewrite Z.eqb_refl in Hw; cbn [andb] in Hw.
  - by apply (inj Some) in Hw.
  - destruct (walk_table fuel m (a + 8)) as [segs1|] eqn:Hw1; [|done]. cbn [option_map] in Hw. apply (inj Some) in Hw as <-. f_equal. by eapply IH.
Qed.

Lemma scatter_out (segs : list (Z * Z)) : forall m bytes x, ~ in_segs segs x -> scatter m segs bytes x = m x.
Proof.
  induction segs as [|[a len] segs IH]; intros m bytes x Hx; cbn [scatter]; [done|]. rewrite IH.
  - apply ram_put_out. rewrite length_take. intros Hin. apply Hx. exists (a, len). split; [by left|]. cbn. lia.
  - intros (sg & Hsg & Hin). apply Hx. exists sg. split; [by right|done].
Qed.

Lemma scatter_bytes (segs : list (Z * Z)) : forall m bytes, Forall is_byte bytes -> ram_bytes m -> ram_bytes (scatter m segs bytes).
Proof.
  induction segs as [|[a len] segs IH]; intros m bytes Hb Hm; cbn [scatter]; [done|]. apply IH; [by apply Forall_drop|].
  apply ram_put_bytes; [by apply Forall_take|done].
Qed.

Lemma sd_sectors_bytes (d : sd_card) s n : Forall is_byte (sectors_of (h_card (sd_host d)) s n).
Proof. apply sectors_bytes. intros x. apply pad_sector_bytes. Qed.

Lemma sd_command_card (c : Z) (d : sd_card) (m : ram) d' m' : sd_command c d m = (d', m') -> c <> Z.lor CMD25 TM_DMA_EN ->
  forall x, h_card (sd_host d') x = h_card (sd_host d) x.
Proof.
  unfold sd_command. intros Hc Hne. case_bool_decide; [by simplify_eq|]. case_bool_decide; [by simplify_eq|].
  destruct (c =? _); [destruct (walk_table _ _ _); by simplify_eq|].
  destruct (Z.eqb_spec c (Z.lor CMD25 TM_DMA_EN)) as [?|_]; [done|]. by simplify_eq.
Qed.

Lemma sd_command_ram (c : Z) (d : sd_card) (m : ram) d' m' : sd_command c d m = (d', m') -> c <> Z.lor CMD18 TM_DMA_EN -> m' = m.
Proof.
  unfold sd_command. intros Hc Hne. case_bool_decide; [by simplify_eq|]. case_bool_decide; [by simplify_eq|].
  destruct (Z.eqb_spec c (Z.lor CMD18 TM_DMA_EN)) as [?|_]; [done|].
  destruct (c =? _); [destruct (walk_table _ _ _); by simplify_eq|]. by simplify_eq.
Qed.

Lemma sd_command_bytes (c : Z) (d : sd_card) (m : ram) d' m' : sd_command c d m = (d', m') -> ram_bytes m -> ram_bytes m'.
Proof.
  unfold sd_command. intros Hc Hb. case_bool_decide; [by simplify_eq|]. case_bool_decide; [by simplify_eq|].
  destruct (c =? _).
  - destruct (walk_table _ _ _); simplify_eq; [apply scatter_bytes; [apply sd_sectors_bytes|done]|done].
  - destruct (c =? _); [destruct (walk_table _ _ _); by simplify_eq|]. by simplify_eq.
Qed.

Lemma sd_flags_spec (a e g : bool) (x : xfer) : let v := u32 (sd_flags a e g x) in
  has v (ready_flag x) = a /\ has v INT_DATA_DONE = e /\ (has v INT_ERROR_MASK = false -> g = true).
Proof. destruct a, e, g, x; split_and!; try (intros ?); vm_compute in *; congruence. Qed.

Lemma map_u8_app (l l' : list Z) : Forall is_byte l' -> map u8 (l ++ l') = map u8 l ++ l'.
Proof. intros Hl. by rewrite map_app, (u8_bytes l'). Qed.
Lemma map_u8_twice (l : list Z) : map u8 (map u8 l) = map u8 l.
Proof. apply u8_bytes, bytes_u8. Qed.

#[export] Program Instance sd_laws : SdHost sd_card := { host := sd_host }.
Next Obligation. intros d s. apply pad_sector_bytes. Qed.
Next Obligation.
  intros r d m v d' m' He Hd Hi. cbn [io_read sd_mmio] in He. unfold sd_read in He.
  destruct (Z.eqb_spec r DATA); [done|]. destruct (Z.eqb_spec r INTERRUPT); [done|].
  repeat case_match; by simplify_eq.
Qed.
Next Obligation.
  intros d m v s' _ He _. cbn [io_read sd_mmio] in He. unfold sd_read in He. change (RESP0 =? DATA) with false in He.
  change (RESP0 =? INTERRUPT) with false in He. rewrite Z.eqb_refl in He. injection He as <- _. reflexivity.
Qed.
Next Obligation.
  intros d m v d' m' He. cbn [io_read sd_mmio] in He. unfold sd_read in He. change (INTERRUPT =? DATA) with false in He.
  rewrite Z.eqb_refl in He. cbv iota zeta in He. injection He as <- <- <-.
  set (h := sd_view d). destruct (sd_flags_spec (sd_ready h) (sd_finished (h_xfer h)) (h_good h) (h_xfer h)) as (H1 & H2 & H3).
  exists (sd_ready h), (sd_ready h), (sd_finished (h_xfer h)).
  change (h_xfer (sd_host d)) with (sd_xfer (h_xfer h)). rewrite ready_flag_sd. split_and!; try done.
  - intros Ha. unfold sd_ready. change (h_avail (sd_host d)) with (h_avail h) in Ha. by rewrite Ha.
  - by right.
  - intros Hf. right. apply sd_finished_spec in Hf. destruct (h_xfer h); cbn in *; rewrite ?length_map; done.
Qed.
Next Obligation.
  intros d m v d' m' He. cbn [io_read sd_mmio] in He. unfold sd_read in He. rewrite Z.eqb_refl in He. cbv iota zeta in He.
  destruct d as [h regs]. cbn [sd_view] in He.
  destruct (h_xfer h) as [|s0 n0 k0|s0 n0 got0|] eqn:Hx; simplify_eq; (split_and!; [done|done|]); intros s n k;
    cbn [sd_host h_xfer sd_view field_update]; rewrite ?Hx; cbn [sd_xfer]; try done.
  intros [= -> -> ->] Hk _. split; [by repeat split|]. intros _. apply word_of_spec.
  - apply sectors_bytes. intros x. apply pad_sector_bytes.
  - rewrite length_sectors by (intros x; apply pad_sector_bytes). lia.
Qed.
Next Obligation. intros r v d m d' m' He Hr. cbn [io_write sd_mmio] in He. destruct Hr as [-> | [-> | ->]]; by injection He as <- <-. Qed.
Next Obligation. intros v d m d' m' He. by injection He as <- <-. Qed.
Next Obligation. intros v d m d' m' He. by injection He as <- <-. Qed.
Next Obligation. intros v d m d' m' He. by injection He as <- <-. Qed.
Next Obligation. intros v d m d' m' He. by injection He as <- <-. Qed.
Next Obligation.
  intros v d m d' m' He. injection He as <- <-. split; [|done].
  change (h_xfer (sd_host d)) with (sd_xfer (h_xfer (sd_view d))). by rewrite ready_flag_sd.
Qed.
Next Obligation.
  intros v d m d' m' s n got He. cbn [io_write sd_mmio] in He. unfold sd_write in He.
  change (DATA =? ARG1) with false in He. change (DATA =? BLKSIZECNT) with false in He. change (DATA =? ADMA_ADDRESS) with false in He.
  change (DATA =? INTERRUPT) with false in He. rewrite Z.eqb_refl in He. cbv iota zeta in He.
  destruct d as [h regs]. cbn [sd_view sd_host h_xfer] in *.
  destruct (h_xfer h) as [|s0 n0 k0|s0 n0 got0|] eqn:Hx; cbn [sd_xfer]; try done.
  intros [= -> -> <-] Hlen Ha. injection He as <- <-.
  assert (map u8 (got0 ++ le32 v) = map u8 got0 ++ le32 v) as Hm by (apply map_u8_app, le32_bytes).
  set (got' := map u8 got0 ++ le32 v) in *. rewrite !Hm. split_and!; try done.
  - cbn. unfold word_moved. cbn. by rewrite <- Hm, map_u8_twice.
  - intros x Hx'. cbn. case_bool_decide; [|done]. by rewrite put_sectors_out.
  - intros Hl _. cbn. rewrite bool_decide_true by done. apply put_sectors_of; [done|].
    rewrite <- Hm. apply bytes_u8.
Qed.
Next Obligation.
  intros c d m d' m' He Hw. change (sd_command c d m = (d', m')) in He. split_and!.
  - eapply sd_command_card; [done|]. intros ->. discriminate Hw.
  - by eapply sd_command_bytes.
  - intros Hd. eapply sd_command_ram; [done|]. intros ->. discriminate Hd.
Qed.
Next Obligation.
  intros c d m d' m' He Hc _ _. change (sd_command c d m = (d', m')) in He. unfold sd_command in He.
  rewrite bool_decide_true in He by done. by injection He as <- <-.
Qed.
Next Obligation.
  intros c d m d' m' He Hc _ _. change (sd_command c d m = (d', m')) in He. unfold sd_command in He.
  rewrite bool_decide_false in He by (destruct Hc as [-> | ->]; vm_compute; intros [? | ?]; discriminate).
  rewrite bool_decide_true in He by done. by injection He as <- <-.
Qed.
Next Obligation.
  intros d m d' m' segs He _ _ Hl. change (sd_command (Z.lor CMD18 TM_DMA_EN) d m = (d', m')) in He. unfold sd_command in He.
  rewrite !bool_decide_false in He by (vm_compute; intros [? | ?]; discriminate). rewrite Z.eqb_refl in He.
  change (cmd_blocks (Z.lor CMD18 TM_DMA_EN) (sd_view d)) with (cmd_blocks CMD18 (sd_host d)) in He.
  destruct (walk_table 200 m (h_adma (sd_view d))) as [segs'|] eqn:Hw; apply pair_equal_spec in He as [<- <-]; [|by split_and!].
  rewrite (walk_table_spec _ _ _ _ _ Hw Hl). split_and!; try done.
  - intros x Hx. by apply scatter_out.
  - intros _ Hg. cbn in Hg. by apply bool_decide_eq_true in Hg.
Qed.
Next Obligation.
  intros d m d' m' segs He _ _ Hl. change (sd_command (Z.lor CMD25 TM_DMA_EN) d m = (d', m')) in He. unfold sd_command in He.
  rewrite !bool_decide_false in He by (vm_compute; intros [? | ?]; discriminate). rewrite Z.eqb_refl in He.
  change (Z.lor CMD25 TM_DMA_EN =? Z.lor CMD18 TM_DMA_EN) with false in He. cbv iota in He.
  change (cmd_blocks (Z.lor CMD25 TM_DMA_EN) (sd_view d)) with (cmd_blocks CMD25 (sd_host d)) in He.
  destruct (walk_table 200 m (h_adma (sd_view d))) as [segs'|] eqn:Hw; apply pair_equal_spec in He as [<- <-]; [|by split_and!].
  rewrite (walk_table_spec _ _ _ _ _ Hw Hl). split_and!; try done.
  - intros x Hx. cbn. by rewrite put_sectors_out.
  - intros _ Hg. cbn in Hg. by apply bool_decide_eq_true in Hg.
Qed.

(** ** The driver on this card *)

Definition demo_view : host_view := mkHost (fun s => [u8 s; 7]) 0 0 0 XNone true false false false.
Definition demo : io sd_card EmmcVars := mkIo (mkSdCard demo_view (fun _ => 0)) (fun a => u8 a) emmc_vars_initial [] 0 0.

Lemma demo_ok : driver_ok demo.
Proof. split; [done|]. intros a. apply (wrap_range 8). lia. Qed.

(** Two blocks by DMA, one by the data port, and two to a slot. *)
Lemma demo_reads : answers (emmc_read_blocks DEV_TABLE 5 DEV_BUF 2) demo is_ok = true /\
  answers (emmc_read_blocks DEV_TABLE 5 DEV_BUF 1) demo is_ok = true.
Proof. split; lazy; reflexivity. Qed.
Lemma demo_writes : answers (emmc_write_blocks DEV_TABLE 1179648 DEV_BUF 2) demo is_ok = true.
Proof. lazy. reflexivity. Qed.
Lemma demo_table : answers (emmc_build_adma2_table DEV_TABLE DEV_BUF 70000) demo (fun r => negb (r =? 0)) = true.
Proof. lazy. reflexivity. Qed.

Lemma build_adma2_table_correct_witness : returns (emmc_build_adma2_table DEV_TABLE DEV_BUF 70000) demo (fun _ s' =>
  exists segs, adma_lines (io_ram s') DEV_TABLE segs /\ contiguous DEV_BUF 70000 segs).
Proof.
  pose proof (build_adma2_table_correct DEV_TABLE DEV_BUF 70000 demo ltac:(lia) ltac:(done) ltac:(done)) as H.
  eapply returns_mono; [exact (answers_returns _ _ _ _ H demo_table)|]. cbv beta. intros r s' (Hr & _ & _ & Hs).
  apply Hs. intros ->. discriminate Hr.
Defined.

Lemma emmc_read_blocks_correct_witness :
  returns (emmc_read_blocks DEV_TABLE 5 DEV_BUF 2) demo (fun _ s' => transferred false 5 DEV_BUF 2 demo s') /\
  returns (emmc_read_blocks DEV_TABLE 5 DEV_BUF 1) demo (fun _ s' => transferred false 5 DEV_BUF 1 demo s').
Proof.
  destruct demo_ok as [Hs Hb].
  pose proof (emmc_read_blocks_correct DEV_TABLE 5 DEV_BUF 2 demo Hs Hb ltac:(lia) (dev_buffer 2 ltac:(lia))) as H2.
  pose proof (emmc_read_blocks_correct DEV_TABLE 5 DEV_BUF 1 demo Hs Hb ltac:(lia) (dev_buffer 1 ltac:(lia))) as H1.
  split.
  - eapply returns_mono; [exact (answers_returns _ _ _ _ H2 (proj1 demo_reads))|]. cbv beta. intros r s' (Hr & _ & _ & Ht).
    apply Ht. by apply bool_decide_eq_true in Hr.
  - eapply returns_mono; [exact (answers_returns _ _ _ _ H1 (proj2 demo_reads))|]. cbv beta. intros r s' (Hr & _ & _ & Ht).
    apply Ht. by apply bool_decide_eq_true in Hr.
Defined.

Lemma emmc_write_blocks_correct_witness :
  returns (emmc_write_blocks DEV_TABLE 1179648 DEV_BUF 2) demo (fun _ s' => transferred true 1179648 DEV_BUF 2 demo s').
Proof.
  destruct demo_ok as [Hs Hb].
  pose proof (emmc_write_blocks_correct DEV_TABLE 1179648 DEV_BUF 2 demo Hs Hb ltac:(lia) (dev_buffer 2 ltac:(lia))) as H.
  eapply returns_mono; [exact (answers_returns _ _ _ _ H demo_writes)|]. cbv beta. intros r s' (Hr & _ & _ & Ht).
  apply Ht. by apply bool_decide_eq_true in Hr.
Defined.

Lemma emmc_init_returns_witness : returns emmc_init demo (fun _ s' => h_card (view s') = h_card (view demo)).
Proof. eapply returns_mono; [exact (emmc_init_returns demo)|]. intros r s' []. done. Defined.
