(* ===== verification/Printf.v ===== *)
(** * Formatted output (source/drivers/uart/uart.c, the part all builds share)

    The number formatter, the chunked sink and [uart_vprintf], and the fault
    report, over any routine that prints a string on the channel (or sends a
    byte).  Characters are their codes; a C string is the list of them before
    the terminator.  [render] says what a format string and its arguments
    denote; [uart_vprintf_chunks] shows that the sink hands exactly that to
    the channel, in pieces of at most 31 characters. *)

From Stdlib Require String Ascii.
From S2P Require Import Prelude.

(** ** Characters *)

Definition ch (c : Ascii.ascii) : Z := Z.of_N (Ascii.N_of_ascii c).
Definition chars (s : String.string) : list Z := map ch (String.list_ascii_of_string s).

Module Chars.
Import Ascii String.
Local Open Scope char_scope.
Definition PERCENT : Z := ch "%".
Definition ZERO : Z := ch "0".
Definition NINE : Z := ch "9".
Definition SPACE : Z := ch " ".
Definition MINUS : Z := ch "-".
Definition EQUALS : Z := ch "=".
Definition c_ : Z := ch "c".
Definition s_ : Z := ch "s".
Definition d_ : Z := ch "d".
Definition u_ : Z := ch "u".
Definition x_ : Z := ch "x".
Definition X_ : Z := ch "X".
Definition P_ : Z := ch "P".
Definition C_ : Z := ch "C".
Definition A_ : Z := ch "A".
Definition S_ : Z := ch "S".
Definition K_ : Z := ch "K".
Definition DECIMAL : list Z := chars "0123456789".
Definition LOWER : list Z := chars "0123456789abcdef".
Definition UPPER : list Z := chars "0123456789ABCDEF".
Definition NULL_TEXT : list Z := chars "(null)".
End Chars.
Import Chars.

Definition is_digit (c : Z) : bool := (ZERO <=? c) && (c <=? NINE).

(** What a function that is given a string sees of a buffer. *)
Fixpoint until_nul (l : list Z) : list Z :=
  match l with
  | [] => []
  | c :: l' => if c =? 0 then [] else c :: until_nul l'
  end.

(** ** Numbers *)

Definition PRINTF_CHUNK_SIZE : Z := 32.
Definition PRINTF_NUM_BUF_SIZE : Z := 16.

(** [while (n > 0) { tmp[i++] = digits[n % base]; n /= base; }]: [tmp] is a
    stack with [room] free slots; [None] is a store beyond it, or a digit
    outside the table. *)
Fixpoint fill_digits (room : nat) (n base : Z) (digits tmp : list Z) : option (list Z) :=
  if n =? 0 then Some tmp else
  match room with
  | O => None
  | S room' =>
      match digits !! Z.to_nat (n mod base) with
      | Some d => fill_digits room' (n / base) base digits (d :: tmp)
      | None => None
      end
  end.

Definition format_uint (n base : Z) (digits : list Z) (width pad : Z) : option (list Z) :=
  tmp ← (if n =? 0 then Some [ZERO] else fill_digits 10 n base digits []);
  Some (replicate (Z.to_nat (width - Z.of_nat (length tmp))) pad ++ tmp).

(** ** The sink and the formatter *)

Inductive arg := AInt (word : Z) | AStr (s : option (list Z)).

Section printf.
Context {S : Type}.
Variable channel_print : list Z -> M S unit.   (* uart_channel_print(channel, .) *)

(** The sink is the used part of its buffer. *)
Definition sink_flush (buf : list Z) : M S (list Z) :=
  match buf with
  | [] => mret []
  | _ => channel_print (until_nul buf);; mret []
  end.

Definition sink_putc (c : Z) (buf : list Z) : M S (list Z) :=
  buf ← (if PRINTF_CHUNK_SIZE - 1 <=? Z.of_nat (length buf) then sink_flush buf else mret buf);
  mret (buf ++ [c]).

Fixpoint sink_puts (s buf : list Z) : M S (list Z) :=
  match s with
  | [] => mret buf
  | c :: s' => buf ← sink_putc c buf; sink_puts s' buf
  end.

Definition sink_put_uint (n base : Z) (digits : list Z) (width pad : Z) (buf : list Z) : M S (list Z) :=
  let width := if PRINTF_NUM_BUF_SIZE <? width then PRINTF_NUM_BUF_SIZE else width in
  out ← deref (format_uint n base digits width pad);
  sink_puts out buf.

(** The digits of a width, in an [int]. *)
Fixpoint scan_width (fmt : list Z) (width : Z) : option (Z * list Z) :=
  match fmt with
  | c :: fmt' =>
      if is_digit c then
        let w := width * 10 + (c - ZERO) in
        if w <? 2 ^ 31 then scan_width fmt' w else None
      else Some (width, fmt)
  | [] => Some (width, [])
  end.

Definition int_arg (args : list arg) : M S (Z * list arg) :=
  match args with AInt n :: args' => mret (n, args') | _ => stop Fault end.
Definition str_arg (args : list arg) : M S (option (list Z) * list arg) :=
  match args with AStr s :: args' => mret (s, args') | _ => stop Fault end.

(** One conversion [c], its padding and width read. *)
Definition convert (c width pad : Z) (args : list arg) (buf : list Z) : M S (list arg * list Z) :=
  if c =? c_ then
    p ← int_arg args; buf ← sink_putc (u8 p.1) buf; mret (p.2, buf)
  else if c =? s_ then
    p ← str_arg args; buf ← sink_puts (default NULL_TEXT p.1) buf; mret (p.2, buf)
  else if c =? d_ then
    p ← int_arg args;
    let n := s32 p.1 in
    if n <? 0 then
      buf ← sink_putc MINUS buf;
      (if n =? - 2 ^ 31 then stop Fault else
       buf ← sink_put_uint (- n) 10 DECIMAL (if 0 <? width then width - 1 else 0) pad buf;
       mret (p.2, buf))
    else
      buf ← sink_put_uint n 10 DECIMAL width pad buf; mret (p.2, buf)
  else if c =? u_ then
    p ← int_arg args; buf ← sink_put_uint (u32 p.1) 10 DECIMAL width pad buf; mret (p.2, buf)
  else if c =? x_ then
    p ← int_arg args; buf ← sink_put_uint (u32 p.1) 16 LOWER width pad buf; mret (p.2, buf)
  else if c =? X_ then
    p ← int_arg args; buf ← sink_put_uint (u32 p.1) 16 UPPER width pad buf; mret (p.2, buf)
  else if c =? PERCENT then
    buf ← sink_putc PERCENT buf; mret (args, buf)
  else
    buf ← sink_putc PERCENT buf; buf ← sink_putc c buf; mret (args, buf).

(** The loop over the format.  A format that ends inside a conversion makes it
    step over its terminator. *)
Fixpoint vprintf_loop (fuel : nat) (fmt : list Z) (args : list arg) (buf : list Z) : M S (list Z) :=
  match fuel with
  | O => stop NoFuel
  | Datatypes.S fuel' =>
      match fmt with
      | [] => mret buf
      | c :: fmt' =>
          if negb (c =? PERCENT) then
            buf ← sink_putc c buf; vprintf_loop fuel' fmt' args buf
          else
            let '(pad, fmt1) := match fmt' with
                                | c1 :: fmt'' => if c1 =? ZERO then (ZERO, fmt'') else (SPACE, fmt')
                                | [] => (SPACE, [])
                                end in
            w ← deref (scan_width fmt1 0);
            match w.2 with
            | [] => buf ← sink_putc PERCENT buf; sink_putc 0 buf;; stop Fault
            | c2 :: fmt2 =>
                p ← convert c2 w.1 pad args buf;
                vprintf_loop fuel' fmt2 p.1 p.2
            end
      end
  end.

Definition uart_vprintf (fmt : list Z) (args : list arg) : M S unit :=
  buf ← vprintf_loop (length fmt + 1) fmt args [];
  sink_flush buf;; mret tt.
End printf.

(** ** The fault report *)

Section fault.
Context {S : Type}.
Variable uart_tx_raw : Z -> M S unit.

Fixpoint tx_all (l : list Z) : M S unit :=
  match l with
  | [] => mret tt
  | c :: l' => uart_tx_raw c;; tx_all l'
  end.

Definition fault_puthex (v : Z) : M S unit :=
  digits ← deref (format_uint v 16 UPPER 8 ZERO);
  uart_tx_raw ZERO;;
  uart_tx_raw x_;;
  for_ 8 0 (fun i => d ← deref (digits !! Z.to_nat i); uart_tx_raw d).

Definition uart_fault_report (kind pc addr status : Z) : M S unit :=
  uart_tx_raw 13;; uart_tx_raw 10;;
  uart_tx_raw P_;; uart_tx_raw C_;; uart_tx_raw EQUALS;;
  fault_puthex pc;;
  uart_tx_raw SPACE;; uart_tx_raw A_;; uart_tx_raw EQUALS;;
  fault_puthex addr;;
  uart_tx_raw SPACE;; uart_tx_raw S_;; uart_tx_raw EQUALS;;
  fault_puthex status;;
  uart_tx_raw SPACE;; uart_tx_raw K_;; uart_tx_raw EQUALS;;
  fault_puthex kind;;
  uart_tx_raw 13;; uart_tx_raw 10.
End fault.

(** ** What a format denotes *)

Inductive conv := CChar | CStr | CInt | CUInt | CHex | CHEX | CPercent | COther (c : Z).
Inductive item := Lit (c : Z) | Conv (zero : bool) (width : list Z) (k : conv).

Definition conv_char (k : conv) : Z :=
  match k with
  | CChar => c_ | CStr => s_ | CInt => d_ | CUInt => u_ | CHex => x_ | CHEX => X_ | CPercent => PERCENT
  | COther c => c
  end.
Definition show_item (i : item) : list Z :=
  match i with
  | Lit c => [c]
  | Conv zero width k => PERCENT :: (if zero then [ZERO] else []) ++ width ++ [conv_char k]
  end.

Definition width_value (w : list Z) (start : Z) : Z := fold_left (fun acc c => acc * 10 + (c - ZERO)) w start.
Definition item_ok (i : item) : Prop :=
  match i with
  | Lit c => c <> PERCENT
  | Conv zero width k =>
      Forall (fun c => is_digit c = true) width /\ (zero = false -> head width <> Some ZERO) /\
      width_value width 0 < 2 ^ 31 /\
      match k with COther c => is_digit c = false /\ c ∉ [c_; s_; d_; u_; x_; X_; PERCENT] | _ => True end
  end.

(** The digits of [n], most significant first, as long as [fuel] allows. *)
Fixpoint numeral (fuel : nat) (base : Z) (digits : list Z) (n : Z) : list Z :=
  match fuel with
  | O => []
  | S fuel' => (if n <? base then [] else numeral fuel' base digits (n / base)) ++ [default 0 (digits !! Z.to_nat (n mod base))]
  end.
Definition padded (width pad : Z) (l : list Z) : list Z := replicate (Z.to_nat (width - Z.of_nat (length l))) pad ++ l.
Definition render_uint (n base : Z) (digits : list Z) (width pad : Z) : list Z :=
  padded (Z.min width PRINTF_NUM_BUF_SIZE) pad (numeral 10 base digits n).

Definition render_conv (k : conv) (width pad : Z) (args : list arg) : option (list Z * list arg) :=
  match k, args with
  | CChar, AInt n :: args' => Some ([u8 n], args')
  | CStr, AStr s :: args' => Some (default NULL_TEXT s, args')
  | CInt, AInt n :: args' =>
      if s32 n =? - 2 ^ 31 then None
      else if s32 n <? 0 then Some (MINUS :: render_uint (- s32 n) 10 DECIMAL (Z.max 0 (width - 1)) pad, args')
      else Some (render_uint (s32 n) 10 DECIMAL width pad, args')
  | CUInt, AInt n :: args' => Some (render_uint (u32 n) 10 DECIMAL width pad, args')
  | CHex, AInt n :: args' => Some (render_uint (u32 n) 16 LOWER width pad, args')
  | CHEX, AInt n :: args' => Some (render_uint (u32 n) 16 UPPER width pad, args')
  | CPercent, _ => Some ([PERCENT], args)
  | COther c, _ => Some ([PERCENT; c], args)
  | _, _ => None
  end.
Definition render_item (i : item) (args : list arg) : option (list Z * list arg) :=
  match i with
  | Lit c => Some ([c], args)
  | Conv zero width k => render_conv k (width_value width 0) (if zero then ZERO else SPACE) args
  end.
Fixpoint render (l : list item) (args : list arg) : option (list Z) :=
  match l with
  | [] => Some []
  | i :: l' => p ← render_item i args; out ← render l' p.2; Some (p.1 ++ out)
  end.

Fixpoint chunks_from (fuel : nat) (l : list Z) : list (list Z) :=
  match fuel, l with
  | _, [] => []
  | O, _ => []
  | S fuel', _ => take 31 l :: chunks_from fuel' (drop 31 l)
  end.
Definition chunks (l : list Z) : list (list Z) := chunks_from (length l) l.

(** Reading a number back; a character that is no digit counts as a zero. *)
Definition digit_of (c : Z) : Z :=
  if is_digit c then c - ZERO else if (97 <=? c) && (c <=? 102) then c - 87 else if (65 <=? c) && (c <=? 70) then c - 55 else 0.
Definition read_uint (base : Z) (l : list Z) : Z := fold_left (fun acc c => acc * base + digit_of c) l 0.

(** ** The number formatter *)

Definition digit_table (base : Z) (digits : list Z) : Prop :=
  base = 10 /\ digits = DECIMAL \/ base = 16 /\ (digits = LOWER \/ digits = UPPER).

Lemma table_lookup (base : Z) (digits : list Z) (d : Z) : digit_table base digits -> 0 <= d < base ->
  exists c, digits !! Z.to_nat d = Some c /\ digit_of c = d /\ c <> 0.
Proof.
  intros Ht Hd.
  assert (d ∈ seqZ 0 base) as Hin by (apply elem_of_seqZ; lia).
  assert (forallb (fun d => match digits !! Z.to_nat d with Some c => (digit_of c =? d) && negb (c =? 0) | None => false end) (seqZ 0 base) = true) as Ha.
  { destruct Ht as [[-> ->] | [-> [-> | ->]]]; by vm_compute. }
  apply forallb_forall with (x := d) in Ha; [|by apply list_elem_of_In].
  destruct (digits !! Z.to_nat d) as [c|]; [|done]. exists c. apply andb_true_iff in Ha as [H1 H2].
  split_and!; [done|lia|]. intros ->. discriminate H2.
Qed.

Lemma base_pos (base : Z) (digits : list Z) : digit_table base digits -> 10 <= base <= 16.
Proof. intros [[-> _] | [-> _]]; lia. Qed.

(** A number below [base ^ room] fits. *)
Lemma fill_numeral (base : Z) (digits : list Z) : digit_table base digits -> forall room n tmp,
  0 < n < base ^ Z.of_nat room -> fill_digits room n base digits tmp = Some (numeral room base digits n ++ tmp).
Proof.
  intros Ht. pose proof (base_pos _ _ Ht) as Hb. induction room as [|room IH]; intros n tmp Hn; [cbn in Hn; lia|].
  rewrite Nat2Z.inj_succ, Z.pow_succ_r in Hn by lia.
  destruct (table_lookup base digits (n mod base) Ht ltac:(apply Z.mod_pos_bound; lia)) as (c & Hc & _).
  cbn [fill_digits numeral]. rewrite (proj2 (Z.eqb_neq n 0)), Hc by lia. cbn [default from_option id].
  destruct (Z.ltb_spec n base).
  - rewrite Z.div_small by lia. by destruct room.
  - rewrite IH; [by rewrite <- app_assoc|]. split; [apply Z.div_str_pos; lia|]. apply Z.div_lt_upper_bound; lia.
Qed.

Lemma format_uint_spec (n base : Z) (digits : list Z) (width pad : Z) : digit_table base digits -> 0 <= n < 2 ^ 32 ->
  format_uint n base digits width pad = Some (padded width pad (numeral 10 base digits n)).
Proof.
  intros Ht Hn. unfold format_uint, padded. destruct (Z.eqb_spec n 0) as [->|Hz].
  - destruct Ht as [[-> ->] | [-> [-> | ->]]]; done.
  - rewrite fill_numeral; [cbn; by rewrite app_nil_r|done|]. split; [lia|].
    pose proof (base_pos _ _ Ht). eapply Z.lt_le_trans; [apply Hn|]. transitivity (10 ^ Z.of_nat 10); [by vm_compute|].
    apply Z.pow_le_mono_l. lia.
Qed.

Lemma read_app (base : Z) (l l' : list Z) (acc : Z) :
  fold_left (fun acc c => acc * base + digit_of c) (l ++ l') acc =
  fold_left (fun acc c => acc * base + digit_of c) l' (fold_left (fun acc c => acc * base + digit_of c) l acc).
Proof. apply fold_left_app. Qed.

Lemma numeral_read (base : Z) (digits : list Z) : digit_table base digits -> forall room n,
  0 <= n < base ^ Z.of_nat room -> read_uint base (numeral room base digits n) = n.
Proof.
  intros Ht. pose proof (base_pos _ _ Ht) as Hb. unfold read_uint. induction room as [|room IH]; intros n Hn; [cbn in *; lia|].
  rewrite Nat2Z.inj_succ, Z.pow_succ_r in Hn by lia.
  destruct (table_lookup base digits (n mod base) Ht ltac:(apply Z.mod_pos_bound; lia)) as (c & Hc & Hd & _).
  cbn [numeral]. rewrite Hc. cbn [default from_option id]. rewrite read_app. cbn [fold_left]. rewrite Hd.
  destruct (Z.ltb_spec n base).
  - cbn [fold_left]. rewrite Z.mod_small by lia. lia.
  - rewrite IH; [pose proof (Z.div_mod n base); lia|]. split; [apply Z.div_pos; lia|]. apply Z.div_lt_upper_bound; lia.
Qed.

Lemma read_pad (base pad : Z) (k : nat) (l : list Z) : digit_of pad = 0 -> read_uint base (replicate k pad ++ l) = read_uint base l.
Proof.
  intros Hp. unfold read_uint. rewrite read_app. f_equal. induction k as [|k IH]; [done|].
  cbn [replicate fold_left]. by rewrite Hp.
Qed.

Lemma numeral_length (base : Z) (digits : list Z) (room : nat) : forall n, (length (numeral room base digits n) <= room)%nat.
Proof.
  induction room as [|room IH]; intros n; cbn [numeral]; [done|]. rewrite length_app. cbn [length].
  destruct (n <? base); cbn [length]; [lia|]. specialize (IH (n / base)). lia.
Qed.

Lemma u32_below_base (base : Z) (digits : list Z) (n : Z) : digit_table base digits -> 0 <= n < 2 ^ 32 -> 0 <= n < base ^ Z.of_nat 10.
Proof.
  intros Ht Hn. pose proof (base_pos _ _ Ht). split; [lia|]. eapply Z.lt_le_trans; [apply Hn|].
  transitivity (10 ^ Z.of_nat 10); [by vm_compute|]. apply Z.pow_le_mono_l. lia.
Qed.

(** ** The sink and the format *)

Lemma bind_assoc {S A B C} (m : M S A) (f : A -> M S B) (g : B -> M S C) :
  ((m ≫= f) ≫= g) = (m ≫= fun a => f a ≫= g).
Proof. apply functional_extensionality. intros s. unfold mbind, M_mbind. by destruct (m s). Qed.
Lemma bind_mret_l {S A B} (a : A) (f : A -> M S B) : (mret a ≫= f) = f a.
Proof. done. Qed.
Lemma bind_mret_r {S A} (m : M S A) : (m ≫= mret) = m.
Proof. apply functional_extensionality. intros s. unfold mbind, M_mbind. by destruct (m s). Qed.
Lemma bind_ext {S A B} (m : M S A) (f g : A -> M S B) : (forall a, f a = g a) -> (m ≫= f) = (m ≫= g).
Proof. intros Hfg. f_equal. apply functional_extensionality, Hfg. Qed.

Section sink.
Context {S : Type}.
Variable channel_print : list Z -> M S unit.
Abbreviation puts := (sink_puts channel_print).
Implicit Types (buf : list Z).

Fixpoint print_all (l : list (list Z)) : M S unit :=
  match l with
  | [] => mret tt
  | c :: l' => channel_print (until_nul c);; print_all l'
  end.

Lemma puts_app (l l' : list Z) : forall buf, puts (l ++ l') buf = (puts l buf ≫= puts l').
Proof.
  induction l as [|c l IH]; intros buf; cbn [app sink_puts]; [done|].
  rewrite bind_assoc. apply bind_ext. intros buf'. apply IH.
Qed.

Lemma puts_one (c : Z) buf : sink_putc channel_print c buf = puts [c] buf.
Proof. cbn [sink_puts]. by rewrite bind_mret_r. Qed.

Lemma chunks_more (fuel : nat) : forall l, (length l <= fuel)%nat -> chunks_from fuel l = chunks_from (length l) l.
Proof.
  enough (forall fuel fuel' l, (length l <= fuel)%nat -> (length l <= fuel')%nat -> chunks_from fuel l = chunks_from fuel' l) as He.
  { intros l Hl. by apply He. }
  clear fuel. induction fuel as [|fuel IH]; intros fuel' l H1 H2.
  - destruct l; [by destruct fuel'|cbn in H1; lia].
  - destruct l as [|c l]; [by destruct fuel'|]. destruct fuel' as [|fuel']; [cbn in H2; lia|].
    cbn [chunks_from]. f_equal. apply IH; rewrite length_drop; cbn in *; lia.
Qed.

Lemma chunks_cons (l : list Z) : l <> [] -> chunks l = take 31 l :: chunks (drop 31 l).
Proof.
  intros Hl. unfold chunks. destruct l as [|c l]; [done|]. cbn [length]. cbn [chunks_from]. f_equal.
  rewrite chunks_more; [done|]. rewrite length_drop. cbn. lia.
Qed.

(** Putting and flushing is printing chunk by chunk. *)
Lemma puts_flush (l : list Z) : forall buf, (length buf <= 31)%nat ->
  (b ← puts l buf; sink_flush channel_print b;; mret tt) = print_all (chunks (buf ++ l)).
Proof.
  induction l as [|c l IH]; intros buf Hb; cbn [sink_puts].
  - rewrite bind_mret_l, app_nil_r. destruct buf as [|c buf]; [done|]. rewrite chunks_cons by done.
    rewrite take_ge, drop_ge by (cbn in *; lia). cbn [sink_flush print_all chunks chunks_from length].
    by rewrite bind_assoc.
  - rewrite bind_assoc. unfold sink_putc. rewrite bind_assoc. destruct (Z.leb_spec (PRINTF_CHUNK_SIZE - 1) (Z.of_nat (length buf))) as [Hf|Hf];
      unfold PRINTF_CHUNK_SIZE in Hf.
    + destruct buf as [|c0 buf]; [cbn in Hf; lia|]. set (b := c0 :: buf) in *.
      assert (sink_flush channel_print b = (channel_print (until_nul b);; mret [])) as -> by done.
      rewrite bind_assoc. rewrite chunks_cons by (unfold b; done). assert (length b = 31%nat) as Hl by lia.
      rewrite take_app_length', drop_app_length' by done.
      cbn [print_all]. apply bind_ext. intros []. rewrite !bind_mret_l. cbn [app]. by rewrite (IH [c]) by (cbn; lia).
    + rewrite !bind_mret_l. rewrite IH by (rewrite length_app; cbn; lia). by rewrite <- app_assoc.
Qed.

Lemma put_uint (n base : Z) (digits : list Z) (width pad : Z) buf : digit_table base digits -> 0 <= n < 2 ^ 32 ->
  sink_put_uint channel_print n base digits width pad buf = puts (render_uint n base digits width pad) buf.
Proof.
  intros Ht Hn. unfold sink_put_uint, render_uint. rewrite format_uint_spec by done.
  replace (if PRINTF_NUM_BUF_SIZE <? width then PRINTF_NUM_BUF_SIZE else width) with (Z.min width PRINTF_NUM_BUF_SIZE).
  { done. }
  destruct (Z.ltb_spec PRINTF_NUM_BUF_SIZE width); lia.
Qed.

Lemma decimal : digit_table 10 DECIMAL.
Proof. by left. Qed.
Lemma hexadecimal (digits : list Z) : digits = LOWER \/ digits = UPPER -> digit_table 16 digits.
Proof. by right. Qed.

Lemma convert_render (k : conv) (width pad : Z) (args args' : list arg) (out buf : list Z) :
  match k with COther c => c ∉ [c_; s_; d_; u_; x_; X_; PERCENT] | _ => True end ->
  render_conv k width pad args = Some (out, args') ->
  convert channel_print (conv_char k) width pad args buf = (b ← puts out buf; mret (args', b)).
Proof.
  intros Hk Hr.
  assert (forall n, 0 <= u32 n < 2 ^ 32) as Hu by (intros n; apply wrap_range; lia).
  destruct k as [| | | | | | |c]; cbn [render_conv] in Hr; try (destruct args as [|[n|s] args0]; [done| |]; try done);
    try (apply (inj Some), pair_equal_spec in Hr as [<- <-]); unfold convert; cbn [conv_char].
  - change (c_ =? c_) with true. cbn [int_arg]. cbv iota. rewrite bind_mret_l. cbn [fst snd]. by rewrite puts_one.
  - change (s_ =? c_) with false. change (s_ =? s_) with true. cbn [str_arg]. cbv iota. by rewrite bind_mret_l.
  - change (d_ =? c_) with false. change (d_ =? s_) with false. change (d_ =? d_) with true. cbn [int_arg]. cbv iota.
    rewrite bind_mret_l. cbn [fst snd]. cbv zeta. pose proof (Hu n).
    assert (- 2 ^ 31 <= s32 n < 2 ^ 31) as Hs by (unfold s32; destruct (Z.ltb_spec (u32 n) (2 ^ 31)); lia).
    destruct (Z.eqb_spec (s32 n) (- 2 ^ 31)); [done|]. destruct (Z.ltb_spec (s32 n) 0); apply (inj Some), pair_equal_spec in Hr as [<- <-].
    + rewrite (puts_app [MINUS] _ buf : puts (MINUS :: _) buf = _), bind_assoc, puts_one. apply bind_ext. intros b.
      rewrite put_uint by (apply decimal || lia).
      replace (if 0 <? width then width - 1 else 0) with (Z.max 0 (width - 1)); [done|]. destruct (Z.ltb_spec 0 width); lia.
    + by rewrite put_uint by (apply decimal || lia).
  - change (u_ =? c_) with false. change (u_ =? s_) with false. change (u_ =? d_) with false. change (u_ =? u_) with true.
    cbn [int_arg]. cbv iota. rewrite bind_mret_l. cbn [fst snd]. by rewrite put_uint by (apply decimal || apply Hu).
  - change (x_ =? c_) with false. change (x_ =? s_) with false. change (x_ =? d_) with false. change (x_ =? u_) with false.
    change (x_ =? x_) with true. cbn [int_arg]. cbv iota. rewrite bind_mret_l. cbn [fst snd].
    by rewrite put_uint by (apply hexadecimal, or_introl, eq_refl || apply Hu).
  - change (X_ =? c_) with false. change (X_ =? s_) with false. change (X_ =? d_) with false. change (X_ =? u_) with false.
    change (X_ =? x_) with false. change (X_ =? X_) with true. cbn [int_arg]. cbv iota. rewrite bind_mret_l. cbn [fst snd].
    by rewrite put_uint by (apply hexadecimal, or_intror, eq_refl || apply Hu).
  - cbn [conv_char]. by rewrite <- puts_one.
  - rewrite !not_elem_of_cons in Hk. destruct Hk as (?&?&?&?&?&?&?&_).
    rewrite !(proj2 (Z.eqb_neq c _)) by done. rewrite (puts_app [PERCENT] [c] buf : puts [PERCENT; c] buf = _), bind_assoc, puts_one.
    apply bind_ext. intros b. by rewrite puts_one.
Qed.

Lemma width_grows (w : list Z) : forall start, 0 <= start -> Forall (fun c => is_digit c = true) w -> start <= width_value w start.
Proof.
  induction w as [|c w IH]; intros start Hs Hw; cbn [width_value fold_left]; [done|]. apply Forall_cons in Hw as [Hc Hw].
  unfold is_digit in Hc. specialize (IH (start * 10 + (c - ZERO)) ltac:(lia) Hw). unfold width_value in IH. lia.
Qed.

Lemma scan_width_spec (w : list Z) (c : Z) (rest : list Z) : Forall (fun c => is_digit c = true) w -> is_digit c = false ->
  forall start, 0 <= start -> width_value w start < 2 ^ 31 -> scan_width (w ++ c :: rest) start = Some (width_value w start, c :: rest).
Proof.
  intros Hw Hc. induction Hw as [|d w Hd Hw IH]; intros start Hs Hv; cbn [app scan_width]; [by rewrite Hc|].
  rewrite Hd. cbv zeta. assert (0 <= start * 10 + (d - ZERO)) as Hp by (unfold is_digit in Hd; lia).
  pose proof (width_grows w _ Hp Hw) as Hg. cbn [width_value fold_left] in Hv. unfold width_value in Hg.
  rewrite (proj2 (Z.ltb_lt _ _)) by lia. by rewrite IH.
Qed.

Lemma conv_not_digit (k : conv) : match k with COther c => is_digit c = false | _ => True end -> is_digit (conv_char k) = false.
Proof. by destruct k. Qed.

(** One turn of the loop, at a literal and at a conversion. *)
Lemma loop_lit (fuel : nat) (c : Z) (rest : list Z) (args : list arg) buf : c <> PERCENT ->
  vprintf_loop channel_print (Datatypes.S fuel) (c :: rest) args buf =
  (b ← puts [c] buf; vprintf_loop channel_print fuel rest args b).
Proof. intros Hc. cbn [vprintf_loop]. rewrite (proj2 (Z.eqb_neq _ _)) by done. cbn [negb]. by rewrite puts_one. Qed.

Lemma loop_conv (fuel : nat) (zero : bool) (w : list Z) (k : conv) (rest : list Z) (args : list arg) buf :
  item_ok (Conv zero w k) ->
  vprintf_loop channel_print (Datatypes.S fuel) (show_item (Conv zero w k) ++ rest) args buf =
  (p ← convert channel_print (conv_char k) (width_value w 0) (if zero then ZERO else SPACE) args buf;
   vprintf_loop channel_print fuel rest p.1 p.2).
Proof.
  intros (Hw & Hz & Hv & Hk). assert (is_digit (conv_char k) = false) as Hd by (apply conv_not_digit; by destruct k; try apply Hk).
  cbn [show_item app]. rewrite <- !app_assoc. cbn [app]. cbn [vprintf_loop]. rewrite Z.eqb_refl. cbn [negb].
  assert (match (if zero then [ZERO] else []) ++ w ++ conv_char k :: rest with
          | c1 :: fmt'' => if c1 =? ZERO then (ZERO, fmt'') else (SPACE, (if zero then [ZERO] else []) ++ w ++ conv_char k :: rest)
          | [] => (SPACE, []) end = (if zero then ZERO else SPACE, w ++ conv_char k :: rest)) as ->.
  { destruct zero; cbn [app]; [by rewrite Z.eqb_refl|]. destruct w as [|c w]; cbn [app].
    - rewrite (proj2 (Z.eqb_neq _ _)); [done|]. intros He. by rewrite He in Hd.
    - rewrite (proj2 (Z.eqb_neq _ _)); [done|]. intros ->. by apply Hz. }
  by rewrite scan_width_spec.
Qed.

Lemma loop_render (items : list item) : forall fuel args out buf,
  Forall item_ok items -> render items args = Some out -> (length (concat (map show_item items)) < fuel)%nat ->
  vprintf_loop channel_print fuel (concat (map show_item items)) args buf = puts out buf.
Proof.
  induction items as [|i items IH]; intros fuel args out buf Hok Hr Hf; (destruct fuel as [|fuel]; [cbn in Hf; lia|]).
  - by injection Hr as <-.
  - apply Forall_cons in Hok as [Hi Hok]. cbn [render] in Hr. apply bind_Some in Hr as ([o args1] & Hi1 & Hr).
    apply bind_Some in Hr as (out' & Hr & Ho). injection Ho as <-. cbn [fst snd] in *. cbn [map concat] in *. rewrite puts_app.
    rewrite length_app in Hf. destruct i as [c|zero w k].
    + injection Hi1 as <- <-. cbn [show_item app] in *. rewrite loop_lit by done. apply bind_ext. intros b. apply IH; [done|done|cbn in Hf; lia].
    + rewrite loop_conv by done. cbn [render_item] in Hi1.
      assert (match k with COther c => c ∉ [c_; s_; d_; u_; x_; X_; PERCENT] | _ => True end) as Hk.
      { destruct Hi as (_ & _ & _ & Hk). destruct k; [done..|apply Hk]. }
      rewrite (convert_render _ _ _ _ _ _ buf Hk Hi1), bind_assoc. apply bind_ext. intros b.
      rewrite bind_mret_l. apply IH; [done|done|]. cbn [show_item length] in Hf. lia.
Qed.

(** C34: formatted output is what the format says.  For every format built of
    literals and conversions, with arguments of the types it asks for,
    [uart_vprintf] prints exactly the text it denotes ([render]; %d of
    INT32_MIN, whose negation overflows, denotes none), in consecutive pieces of
    31 characters (each cut at a NUL, if the text has one), in that order and
    nothing else. *)
Theorem uart_vprintf_chunks (items : list item) (args : list arg) (out : list Z) (s : S) :
  Forall item_ok items -> render items args = Some out ->
  uart_vprintf channel_print (concat (map show_item items)) args s = print_all (chunks out) s.
Proof.
  intros Hok Hr. unfold uart_vprintf. rewrite (loop_render items _ _ out) by (done || lia).
  by rewrite puts_flush by (cbn; lia).
Qed.
End sink.

(** Numbers are printed so that they can be read back, and fit.  A 32-bit
    number formatted in base 10 or 16 and padded to any width with blanks or
    zeros reads back as itself; it is as wide as asked, or at most ten
    characters; so it always fits the formatter's and the caller's buffers. *)
Theorem format_uint_roundtrip (n base : Z) (digits : list Z) (width pad : Z) :
  digit_table base digits -> 0 <= n < 2 ^ 32 -> pad = SPACE \/ pad = ZERO ->
  exists out, format_uint n base digits width pad = Some out /\ read_uint base out = n /\
    Z.of_nat (length out) = Z.max width (Z.of_nat (length (numeral 10 base digits n))) /\
    (width <= PRINTF_NUM_BUF_SIZE -> Z.of_nat (length out) <= PRINTF_NUM_BUF_SIZE).
Proof.
  intros Ht Hn Hp. eexists. split; [by apply format_uint_spec|]. unfold padded.
  pose proof (numeral_length base digits 10 n). split_and!.
  - rewrite read_pad by (by destruct Hp as [-> | ->]). apply numeral_read; [done|]. by eapply u32_below_base.
  - rewrite length_app, length_replicate. lia.
  - rewrite length_app, length_replicate. unfold PRINTF_NUM_BUF_SIZE. lia.
Qed.

(** ** The fault report *)

Definition hex8 (v : Z) : list Z := padded 8 ZERO (numeral 10 16 UPPER v).
Definition report_field (name : list Z) (v : Z) : list Z := name ++ [EQUALS; ZERO; x_] ++ hex8 v.
Definition report (kind pc addr status : Z) : list Z :=
  [13; 10] ++ report_field [P_; C_] pc ++ report_field [SPACE; A_] addr ++ report_field [SPACE; S_] status ++
  report_field [SPACE; K_] kind ++ [13; 10].

Lemma hex_numeral_short (v : Z) : 0 <= v < 2 ^ 32 -> forall room : nat, (8 <= room)%nat -> (length (numeral room 16 UPPER v) <= 8)%nat.
Proof.
  intros Hv. enough (forall k room v, (k <= 8)%nat -> 0 <= v < 16 ^ Z.of_nat (Datatypes.S k) -> (length (numeral room 16 UPPER v) <= Datatypes.S k)%nat) as He.
  { intros room _. apply (He 7%nat); [lia|]. exact Hv. }
  clear v Hv. induction k as [|k IH]; intros room v Hk Hv; (destruct room as [|room]; [cbn; lia|]); cbn [numeral]; rewrite length_app; cbn [length].
  - rewrite (proj2 (Z.ltb_lt _ _)) by (cbn in Hv; lia). done.
  - destruct (v <? 16); [cbn; lia|]. specialize (IH room (v / 16) ltac:(lia)).
    enough (0 <= v / 16 < 16 ^ Z.of_nat (Datatypes.S k)) as Hd by (specialize (IH Hd); lia).
    rewrite (Nat2Z.inj_succ (Datatypes.S k)), Z.pow_succ_r in Hv by lia. split; [apply Z.div_pos; lia|]. apply Z.div_lt_upper_bound; lia.
Qed.

Lemma length_hex8 (v : Z) : 0 <= v < 2 ^ 32 -> length (hex8 v) = 8%nat.
Proof.
  intros Hv. pose proof (hex_numeral_short v Hv 10 ltac:(lia)). unfold hex8, padded. rewrite length_app, length_replicate. lia.
Qed.

Lemma hex8_reads (v : Z) : 0 <= v < 2 ^ 32 -> read_uint 16 (hex8 v) = v /\ length (hex8 v) = 8%nat.
Proof.
  intros Hv. split; [|by apply length_hex8]. unfold hex8, padded. rewrite read_pad by done.
  apply numeral_read; [apply hexadecimal; by right|]. split; [lia|]. eapply Z.lt_trans; [apply Hv|]. by vm_compute.
Qed.

(** Names the eight digits of [v]. *)
Ltac destruct_hex v :=
  match goal with H : _ /\ length (hex8 v) = _ |- _ =>
    let l := fresh "l" in
    destruct H as [? ?]; set (l := hex8 v) in *; clearbody l;
    do 8 (destruct l as [|? l]; [discriminate|]); destruct l; [|discriminate]
  end.

Section report.
Context {S : Type}.
Variable uart_tx_raw : Z -> M S unit.
Abbreviation send := (tx_all uart_tx_raw).

Lemma send_app (l l' : list Z) : send (l ++ l') = (send l;; send l').
Proof. induction l as [|c l IH]; cbn [app tx_all]; [done|]. rewrite bind_assoc. apply bind_ext. intros []. apply IH. Qed.

Lemma send_cons (c : Z) (l : list Z) : (uart_tx_raw c;; send l) = send (c :: l).
Proof. done. Qed.

Lemma puthex_sends (v : Z) (k : M S unit) : 0 <= v < 2 ^ 32 ->
  (fault_puthex uart_tx_raw v;; k) = (send (ZERO :: x_ :: hex8 v);; k).
Proof.
  intros Hv. f_equal. unfold fault_puthex. rewrite format_uint_spec by (done || apply hexadecimal; by right).
  change (padded 8 ZERO (numeral 10 16 UPPER v)) with (hex8 v). pose proof (length_hex8 v Hv) as Hl.
  cbn [deref]. rewrite bind_mret_l. cbn [tx_all]. do 2 (apply bind_ext; intros []).
  destruct (hex8 v) as [|d0 [|d1 [|d2 [|d3 [|d4 [|d5 [|d6 [|d7 [|? ?]]]]]]]]]; try (cbn in Hl; lia). reflexivity.
Qed.

Lemma tx_one (c : Z) : send [c] = uart_tx_raw c.
Proof.
  cbn [tx_all]. apply functional_extensionality. intros s. unfold mbind, M_mbind. by destruct (uart_tx_raw c s) as [[]|].
Qed.

(** The fault report is exact.  It sends, byte by byte and whatever
    sending does, the line that names PC, address, status and kind in eight
    hexadecimal digits each; and each of the four words can be read back from
    its place in that line. *)
Theorem fault_report_roundtrip (kind pc addr status : Z) (s : S) :
  0 <= kind < 2 ^ 32 -> 0 <= pc < 2 ^ 32 -> 0 <= addr < 2 ^ 32 -> 0 <= status < 2 ^ 32 ->
  let line := report kind pc addr status in
  uart_fault_report uart_tx_raw kind pc addr status s = send line s /\
  read_uint 16 (take 8 (drop 7 line)) = pc /\ read_uint 16 (take 8 (drop 20 line)) = addr /\
  read_uint 16 (take 8 (drop 33 line)) = status /\ read_uint 16 (take 8 (drop 46 line)) = kind.
Proof.
  intros Hk Hp Ha Hs. cbv zeta. split.
  - apply (f_equal (fun m => m s)). unfold uart_fault_report. rewrite !puthex_sends by done. unfold report, report_field.
    rewrite <- !app_assoc. cbn [app]. rewrite <- (tx_one 10). cbn [tx_all]. repeat (rewrite !send_app; cbn [tx_all]).
    rewrite !bind_assoc. reflexivity.
  - pose proof (hex8_reads pc Hp). pose proof (hex8_reads addr Ha). pose proof (hex8_reads status Hs). pose proof (hex8_reads kind Hk).
    unfold report, report_field. destruct_hex pc. destruct_hex addr. destruct_hex status. destruct_hex kind. by split_and!.
Qed.
End report.

(** ** Examples *)

Module Texts.
Import String.
Local Open Scope string_scope.
Definition prefix : list Z := chars "emmc: ".
Definition line : list Z := chars "emmc: 0000FE34 -  42 (null)%".
Definition cut : list Z := chars "50%".
Definition with_char : list Z := chars "a%cb".
Definition cut_char : list Z := chars "a".
End Texts.

Definition log_print (str : list Z) : M (list (list Z)) unit := modify (fun l => l ++ [str]).
Definition demo_items : list item :=
  map Lit Texts.prefix ++ [Conv true [56] CHEX; Lit SPACE; Conv false [53] CInt; Lit SPACE; Conv false [] CStr; Conv false [] CPercent].
Definition demo_args : list arg := [AInt 0xFE34; AInt (-42); AStr None].

Lemma uart_vprintf_chunks_witness :
  uart_vprintf log_print (concat (map show_item demo_items)) demo_args [] =
  Ret tt [Texts.line].
Proof.
  assert (Forall item_ok demo_items) as Hok.
  { unfold demo_items. apply Forall_app. split; [by apply Forall_fmap; repeat constructor|].
    repeat apply Forall_cons_2; try apply Forall_nil_2; try done; split_and!; try done; by repeat constructor. }
  assert (render demo_items demo_args = Some Texts.line) as Hr by (by vm_compute).
  etrans; [exact (uart_vprintf_chunks log_print demo_items demo_args _ [] Hok Hr)|]. by vm_compute.
Defined.

Lemma format_uint_roundtrip_witness : exists out, format_uint 48879 16 UPPER 8 ZERO = Some out /\ read_uint 16 out = 48879.
Proof.
  destruct (format_uint_roundtrip 48879 16 UPPER 8 ZERO) as (out & H1 & H2 & _);
    [apply hexadecimal; by right|done|by right|]. by exists out.
Defined.

Lemma fault_report_roundtrip_witness :
  read_uint 16 (take 8 (drop 7 (report 1 0x8000 0xDEADBEEF 0x805))) = 0x8000 /\
  read_uint 16 (take 8 (drop 20 (report 1 0x8000 0xDEADBEEF 0x805))) = 0xDEADBEEF.
Proof.
  destruct (fault_report_roundtrip (fun c => modify (fun l => l ++ [c])) 1 0x8000 0xDEADBEEF 0x805 []) as (_ & H1 & H2 & _); [done..|].
  by split.
Defined.

(** A format that ends inside a conversion is read past its end. *)
Lemma cut_format_faults : exists l, uart_vprintf log_print Texts.cut [] [] = Stop Fault l.
Proof. eexists. by vm_compute. Qed.

(** A NUL printed by [%c] takes the rest of its chunk with it. *)
Lemma nul_cuts_chunk : uart_vprintf log_print Texts.with_char [AInt 0] [] = Ret tt [Texts.cut_char].
Proof. by vm_compute. Qed.
