(* ===== verification/Soc.v ===== *)
(** * What the SoC drivers share

    Registers here are absolute bus addresses.  The system registers of the
    core (the generic timer's) are a second class, [Cp15].  [spin_while] is the
    bounded poll the drivers repeat; [Plain] is the contract of registers that hold what was last
    written, and [regfile] a device all of whose registers do. *)

From S2P Require Import Prelude Types Board Mmio.

(** A driver inside one with more static variables. *)
Section vars.
Context {D V W : Type} (f : V -> W) (g : W -> V -> V).
Definition narrow (s : io D V) : io D W := mkIo (io_dev s) (io_ram s) (f (io_vars s)) (io_console s) (io_delay s) (io_barriers s).
Definition widen (t : io D W) (s : io D V) : io D V :=
  mkIo (io_dev t) (io_ram t) (g (io_vars t) (io_vars s)) (io_console t) (io_delay t) (io_barriers t).
Definition with_vars {A} (m : Io D W A) : Io D V A := zoom narrow widen m.
End vars.

(** ** System registers *)

Inductive sysreg := CNTFRQ | CNTPCT | CNTP_CTL | CNTP_CVAL.
#[export] Instance sysreg_eq_dec : EqDecision sysreg.
Proof. solve_decision. Defined.

Class Cp15 (D : Type) := {
  cp_read : sysreg -> D -> Z * D;
  cp_write : sysreg -> Z -> D -> D
}.

Section soc.
Context {D V : Type} `{Mmio D}.

Definition mrc `{!Cp15 D} (r : sysreg) : Io D V Z := fun s =>
  let '(v, d) := cp_read r (io_dev s) in Ret v (s <| io_dev := d |>).
Definition mcr `{!Cp15 D} (r : sysreg) (v : Z) : Io D V unit := modify (fun s => s <| io_dev ::= cp_write r v |>).

(** [while (test && count > 0) { count--; }]: what is left of [count]. *)
Fixpoint spin_while (r : Z) (test : Z -> bool) (count : nat) : Io D V nat :=
  v ← rd r;
  if test v then
    match count with
    | O => mret O
    | S count' => spin_while r test count'
    end
  else mret count.

Lemma spin_while_returns (r : Z) (test : Z -> bool) (count : nat) : forall s,
  returns (spin_while r test count) s (fun left _ => (left <= count)%nat).
Proof.
  induction count as [|count IH]; intros s; cbn [spin_while]; step; unfold returns at 1, rd;
    destruct (io_read r _) as [v [d m]]; destruct (test (u32 v)).
  - apply returns_ret. done.
  - apply returns_ret. done.
  - eapply returns_mono; [apply IH|]. cbv beta. intros; lia.
  - apply returns_ret. done.
Qed.

(** [while (test) {}], given up after [patience] polls. *)
Fixpoint wait_while (patience : nat) (r : Z) (test : Z -> bool) : Io D V unit :=
  match patience with
  | O => stop Hang
  | S patience' => v ← rd r; if test v then wait_while patience' r test else mret tt
  end.
End soc.

(** ** Code that always comes back *)

Definition total {S A} (m : M S A) : Prop := forall s, returns m s (fun _ _ => True).

Lemma total_ret {S A} (a : A) : total (mret a : M S A).
Proof. done. Qed.
Lemma total_gets {S A} (f : S -> A) : total (gets f).
Proof. done. Qed.
Lemma total_modify {S} (f : S -> S) : total (modify f).
Proof. done. Qed.

(** What a total command does not say, the rest of the program may be in. *)
Lemma total_bind {S A B} (m : M S A) (k : A -> M S B) s (Q : B -> S -> Prop) :
  total m -> (forall a s', returns (k a) s' Q) -> returns (m ≫= k) s Q.
Proof. intros Hm Hk. step. eapply returns_mono; [apply Hm|]. intros a s' _. apply Hk. Qed.
Lemma total_rbind {S A B} (m : M S A) (k : A -> M S B) s (Q : B -> S -> Prop) E :
  total m -> (forall a s', runs (k a) s' Q E) -> runs (m ≫= k) s Q E.
Proof. intros Hm Hk. rstep. apply runs_returns. eapply returns_mono; [apply Hm|]. intros a s' _. apply Hk. Qed.

Lemma total_seq {S A B} (m : M S A) (k : A -> M S B) : total m -> (forall a, total (k a)) -> total (m ≫= k).
Proof. intros Hm Hk s. apply total_bind; [done|]. intros a s'. apply Hk. Qed.
Lemma total_for {S} (body : Z -> M S unit) (n : nat) : (forall i, total (body i)) -> forall i, total (for_ n i body).
Proof. intros Hb. induction n as [|n IH]; intros i; cbn [for_]; [apply total_ret|]. apply total_seq; [done|]. intros _. apply IH. Qed.

Section total_io.
Context {D V : Type} `{Mmio D}.
Lemma total_rd (r : Z) : total (rd r : Io D V Z).
Proof. intros s. unfold returns, rd. by destruct (io_read _ _) as [v [d m]]. Qed.
Lemma total_wr (r v : Z) : total (wr r v : Io D V unit).
Proof. intros s. unfold returns, wr. by destruct (io_write _ _ _) as [d m]. Qed.
Lemma total_rmw (r : Z) (f : Z -> Z) : total (rmw r f : Io D V unit).
Proof. apply total_seq; [apply total_rd|]. intros v. apply total_wr. Qed.
Lemma total_spin_while (r : Z) (test : Z -> bool) (count : nat) : total (spin_while r test count : Io D V nat).
Proof. intros s. eapply returns_mono; [apply spin_while_returns|done]. Qed.
End total_io.

Create HintDb total.
#[export] Hint Resolve total_ret total_gets total_modify total_rd total_wr total_rmw total_spin_while total_for : total.
#[export] Hint Unfold load32 store32 print dsb var set_vars : total.
(** Walks through a program of total commands, splitting its tests. *)
Ltac total_step :=
  lazymatch goal with
  | |- total (_ ≫= _) => apply total_seq; [|intros ?]
  | |- total (if ?b then _ else _) => destruct b
  | |- total (for_ _ _ _) => apply total_for; intros ?
  | |- total (match ?b with Some _ => _ | None => _ end) => destruct b
  | |- total (let _ := _ in _) => cbv zeta
  end.
Ltac total := repeat first [solve [eauto with total] | total_step].

(** ** Bit fields *)

Ltac dlia := Z.div_mod_to_equations; lia.

Definition field (v shift width : Z) : Z := Z.land (Z.shiftr v shift) (Z.ones width).
Definition put_field (v shift width x : Z) : Z := Z.lor (Z.land v (bnot (shl (Z.ones width) shift))) (shl x shift).

Lemma ones_range (n : Z) : 0 <= n -> 0 <= Z.ones n < 2 ^ n.
Proof. intros Hn. rewrite Z.ones_equiv. pose proof (Z.pow_pos_nonneg 2 n). lia. Qed.

Lemma testbit_small (a n i : Z) : 0 <= a < 2 ^ n -> 0 <= n <= i -> Z.testbit a i = false.
Proof. intros Ha Hi. rewrite <- (Z.mod_small a (2 ^ n)) by lia. apply Z.mod_pow2_bits_high. lia. Qed.

Lemma shl_bit (x n i : Z) : 0 <= n -> 0 <= i -> Z.testbit (shl x n) i = (i <? 32) && (n <=? i) && Z.testbit x (i - n).
Proof.
  intros Hn Hi. unfold shl, wrap. destruct (Z.ltb_spec i 32); cbn [andb].
  - rewrite Z.mod_pow2_bits_low by lia. rewrite Z.shiftl_spec by lia. destruct (Z.leb_spec n i); [done|]. apply Z.testbit_neg_r. lia.
  - apply Z.mod_pow2_bits_high. lia.
Qed.

Lemma bnot_bit (x i : Z) : 0 <= i -> Z.testbit (bnot x) i = xorb (i <? 32) (Z.testbit x i).
Proof.
  intros Hi. unfold bnot. rewrite Z.lxor_spec. f_equal. change 0xFFFFFFFF with (Z.ones 32).
  destruct (Z.ltb_spec i 32); [apply Z.ones_spec_low; lia|apply Z.ones_spec_high; lia].
Qed.

Lemma ones_bit (n i : Z) : 0 <= n -> 0 <= i -> Z.testbit (Z.ones n) i = (i <? n).
Proof. intros Hn Hi. destruct (Z.ltb_spec i n); [apply Z.ones_spec_low; lia|apply Z.ones_spec_high; lia]. Qed.

Lemma put_field_bit (v shift width x i : Z) : 0 <= shift -> 0 <= width -> shift + width <= 32 -> 0 <= x < 2 ^ width -> 0 <= v < 2 ^ 32 -> 0 <= i ->
  Z.testbit (put_field v shift width x) i = if (shift <=? i) && (i <? shift + width) then Z.testbit x (i - shift) else Z.testbit v i.
Proof.
  intros Hs Hw Hr Hx Hv Hi. unfold put_field. rewrite Z.lor_spec, Z.land_spec, bnot_bit, !shl_bit by lia.
  destruct (Z.leb_spec shift i); cbn [andb].
  - rewrite ones_bit by lia. destruct (Z.ltb_spec i 32); cbn [andb xorb].
    + destruct (Z.ltb_spec i (shift + width)); destruct (Z.ltb_spec (i - shift) width); try lia; cbn [negb].
      * by rewrite andb_false_r.
      * rewrite (testbit_small x width) by lia. by rewrite andb_true_r, orb_false_r.
    + rewrite (testbit_small v 32) by lia. destruct (Z.ltb_spec i (shift + width)); [lia|done].
  - rewrite andb_false_r. cbn [andb]. destruct (Z.ltb_spec i 32); cbn [xorb]; [by rewrite andb_true_r, orb_false_r|].
    by rewrite (testbit_small v 32) by lia.
Qed.

Lemma field_bit (v shift width i : Z) : 0 <= shift -> 0 <= width -> 0 <= i ->
  Z.testbit (field v shift width) i = (i <? width) && Z.testbit v (i + shift).
Proof. intros. unfold field. rewrite Z.land_spec, Z.shiftr_spec, ones_bit by lia. apply andb_comm. Qed.

(** Writing a field: it reads back, and no other field changes. *)
Lemma field_put_same (v shift width x : Z) : 0 <= shift -> 0 <= width -> shift + width <= 32 -> 0 <= x < 2 ^ width -> 0 <= v < 2 ^ 32 ->
  field (put_field v shift width x) shift width = x.
Proof.
  intros. apply Z.bits_inj'. intros i Hi. rewrite field_bit, put_field_bit by lia.
  destruct (Z.ltb_spec i width); cbn [andb].
  - rewrite (proj2 (Z.leb_le _ _)), (proj2 (Z.ltb_lt _ _)) by lia. cbn [andb]. f_equal. lia.
  - symmetry. by apply (testbit_small x width); lia.
Qed.

Lemma field_put_other (v shift width x shift' width' : Z) : 0 <= shift -> 0 <= width -> shift + width <= 32 -> 0 <= x < 2 ^ width -> 0 <= v < 2 ^ 32 ->
  0 <= shift' -> 0 <= width' -> shift' + width' <= shift \/ shift + width <= shift' ->
  field (put_field v shift width x) shift' width' = field v shift' width'.
Proof.
  intros. apply Z.bits_inj'. intros i Hi. rewrite !field_bit, put_field_bit by lia.
  destruct (Z.ltb_spec i width'); cbn [andb]; [|done].
  destruct (Z.leb_spec shift (i + shift')); destruct (Z.ltb_spec (i + shift') (shift + width)); cbn [andb]; try done. lia.
Qed.

Lemma put_field_range (v shift width x : Z) : 0 <= v < 2 ^ 32 -> 0 <= put_field v shift width x < 2 ^ 32.
Proof.
  intros Hv. unfold put_field.
  assert (0 <= shl x shift < 2 ^ 32) as Hs by (apply wrap_range; lia).
  assert (0 <= bnot (shl (Z.ones width) shift)) as Hb.
  { apply Z.lxor_nonneg. split; [|lia]. intros _. apply wrap_range. lia. }
  split; [apply Z.lor_nonneg; split; [apply Z.land_nonneg; lia|lia]|].
  apply Z.log2_lt_cancel. change (Z.log2 (2 ^ 32)) with 32.
  assert (forall a, 0 <= a < 2 ^ 32 -> Z.log2 a < 32) as Hlog.
  { intros a Ha. destruct (Z.eq_dec a 0) as [->|]; [done|]. apply Z.log2_lt_pow2; lia. }
  rewrite Z.log2_lor by (try apply Z.land_nonneg; lia). apply Z.max_lub_lt; [|by apply Hlog].
  pose proof (Z.log2_land v (bnot (shl (Z.ones width) shift)) ltac:(lia) ltac:(lia)). specialize (Hlog v ltac:(lia)). lia.
Qed.

(** ** Registers that hold what was written *)

Class Plain (D : Type) `{Mmio D} (P : Z -> Prop) := {
  reg : D -> Z -> Z;
  plain_read : forall r d m, P r -> io_read r (d, m) = (reg d r, (d, m));
  plain_write : forall r v d m, P r -> let '(d', m') := io_write r v (d, m) in
    m' = m /\ reg d' r = u32 v /\ (forall r', P r' -> r' <> r -> reg d' r' = reg d r')
}.

Lemma returns_rmw {D V} `{Mmio D} (P : Z -> Prop) `{!Plain D P} (r : Z) (f : Z -> Z) (s : io D V) (Q : unit -> io D V -> Prop) :
  P r ->
  (forall d', reg (P := P) d' r = u32 (f (u32 (reg (P := P) (io_dev s) r))) ->
     (forall r', P r' -> r' <> r -> reg (P := P) d' r' = reg (P := P) (io_dev s) r') -> Q tt (s <| io_dev := d' |>)) ->
  returns (rmw r f) s Q.
Proof.
  intros HP HQ. unfold rmw, rd, wr. step. unfold returns. rewrite plain_read by done. cbn [io_dev io_ram field_update].
  pose proof (plain_write r (f (u32 (reg (P := P) (io_dev s) r))) (io_dev s) (io_ram s) HP) as Hw.
  destruct (io_write _ _ _) as [d' m']. destruct Hw as (-> & Hr & Ho).
  specialize (HQ d' Hr Ho). by destruct s.
Qed.

(** A device whose registers are a table, and whose counter ticks when read. *)
Record regfile := mkRegfile { rf_regs : Z -> Z; rf_count : Z }.
#[export] Instance eta_regfile : Settable regfile := fun r => mkRegfile (rf_regs r) (rf_count r).
#[export] Instance regfile_mmio : Mmio regfile := {
  io_read := fun r st => (rf_regs st.1 r, st);
  io_write := fun r v st => (st.1 <| rf_regs ::= fun f => <[r := u32 v]> f |>, st.2)
}.
#[export] Instance regfile_cp15 : Cp15 regfile := {
  cp_read := fun r d => match r with
                        | CNTFRQ => (54000000, d)
                        | CNTPCT => (rf_count d, d <| rf_count ::= Z.add 1 |>)
                        | _ => (0, d)
                        end;
  cp_write := fun _ _ d => d
}.
#[export] Program Instance regfile_plain (P : Z -> Prop) : Plain regfile P := { reg := rf_regs }.
Next Obligation. done. Qed.
Next Obligation.
  intros P r v d m _. cbn. split_and!; [done|by rewrite fn_lookup_insert|]. intros r' _ Hne. by rewrite fn_lookup_insert_ne.
Qed.
