(* ===== verification/Gpio.v ===== *)
(** * GPIO pins (source/drivers/gpio) and the JTAG pins (source/drivers/jtag)

    A pin's function and pull are fields of packed registers, a pin's level
    one bit.  Indexing a register array beyond its end is [Fault]. *)

From S2P Require Import Prelude Types Board Mmio Soc.

Definition GPIO_BASE : Z := 0xFE200000.

Inductive GPIOFunc :=
  | GPIO_FUNC_INPUT | GPIO_FUNC_OUTPUT | GPIO_FUNC_ALT0 | GPIO_FUNC_ALT1 | GPIO_FUNC_ALT2 | GPIO_FUNC_ALT3
  | GPIO_FUNC_ALT4 | GPIO_FUNC_ALT5.
Definition gpio_func_code (f : GPIOFunc) : Z :=
  match f with
  | GPIO_FUNC_INPUT => 0 | GPIO_FUNC_OUTPUT => 1 | GPIO_FUNC_ALT0 => 4 | GPIO_FUNC_ALT1 => 5
  | GPIO_FUNC_ALT2 => 6 | GPIO_FUNC_ALT3 => 7 | GPIO_FUNC_ALT4 => 3 | GPIO_FUNC_ALT5 => 2
  end.
Inductive GPIOPull := GPIO_PULL_NONE | GPIO_PULL_UP | GPIO_PULL_DOWN.
Definition gpio_pull_code (p : GPIOPull) : Z :=
  match p with GPIO_PULL_NONE => 0 | GPIO_PULL_UP => 1 | GPIO_PULL_DOWN => 2 end.

(** [GPIORegs], as the addresses of its arrays' elements. *)
Definition GPFSEL (n : Z) : Z := GPIO_BASE + 4 * n.
Definition GPSET (n : Z) : Z := GPIO_BASE + 0x1C + 4 * n.
Definition GPCLR (n : Z) : Z := GPIO_BASE + 0x28 + 4 * n.
Definition GPLEV (n : Z) : Z := GPIO_BASE + 0x34 + 4 * n.
Definition GPPUPPDN (n : Z) : Z := GPIO_BASE + 0xE4 + 4 * n.

Section gpio.
Context {D V : Type} `{Mmio D}.
Abbreviation G := (Io D V).

(** [a[i]] of an array of [len]. *)
Definition element (a : Z -> Z) (len i : Z) : G Z := if i <? len then mret (a i) else stop Fault.

Definition gpio_set_function (pin : Z) (funct : GPIOFunc) : G unit :=
  let reg := pin / 10 in
  let shift := (pin mod 10) * 3 in
  r ← element GPFSEL 6 reg;
  rmw r (fun val => Z.lor (Z.land val (bnot (shl 7 shift))) (shl (gpio_func_code funct) shift)).

Definition gpio_set_pull (pin : Z) (pull : GPIOPull) : G unit :=
  let reg := pin / 16 in
  let shift := (pin mod 16) * 2 in
  r ← element GPPUPPDN 4 reg;
  rmw r (fun val => Z.lor (Z.land val (bnot (shl 3 shift))) (shl (gpio_pull_code pull) shift)).

Definition gpio_on (pin : Z) : G unit := r ← element GPSET 2 (pin / 32); wr r (shl 1 (pin mod 32)).
Definition gpio_off (pin : Z) : G unit := r ← element GPCLR 2 (pin / 32); wr r (shl 1 (pin mod 32)).
Definition gpio_read (pin : Z) : G Z :=
  r ← element GPLEV 2 (pin / 32);
  v ← rd r;
  mret (Z.land (Z.shiftr v (pin mod 32)) 1).

(** ** JTAG *)

Definition JTAG_TRST : Z := 22.
Definition JTAG_TDO : Z := 24.
Definition JTAG_TCK : Z := 25.
Definition JTAG_TDI : Z := 26.
Definition JTAG_TMS : Z := 27.
Definition CHIPCTL_BASE : Z := 0xFF800000.
Definition CHIPCTL_A : Z := CHIPCTL_BASE + 0x00.
Definition JTAG_ENABLE_MASK : Z := Z.shiftl 1 21.

Definition jtag_gpio_init : G unit :=
  rmw CHIPCTL_A (fun v => Z.lor v JTAG_ENABLE_MASK);;
  gpio_set_pull JTAG_TRST GPIO_PULL_UP;;
  gpio_set_pull JTAG_TDO GPIO_PULL_NONE;;
  gpio_set_pull JTAG_TCK GPIO_PULL_NONE;;
  gpio_set_pull JTAG_TDI GPIO_PULL_NONE;;
  gpio_set_pull JTAG_TMS GPIO_PULL_UP;;
  gpio_set_function JTAG_TRST GPIO_FUNC_ALT4;;
  gpio_set_function JTAG_TDO GPIO_FUNC_ALT4;;
  gpio_set_function JTAG_TCK GPIO_FUNC_ALT4;;
  gpio_set_function JTAG_TDI GPIO_FUNC_ALT4;;
  gpio_set_function JTAG_TMS GPIO_FUNC_ALT4.
End gpio.

(** ** The pins of the chip *)

Definition gpio_reg (r : Z) : Prop := exists n, r = GPFSEL n /\ 0 <= n < 6 \/ r = GPPUPPDN n /\ 0 <= n < 4.

Section pins.
Context {D V : Type} `{!Mmio D, !Plain D gpio_reg}.
Implicit Types (s : io D V) (d : D).

(** What the registers say of a pin. *)
Definition pin_function (d : D) (pin : Z) : Z := field (u32 (reg (P := gpio_reg) d (GPFSEL (pin / 10)))) ((pin mod 10) * 3) 3.
Definition pin_pull (d : D) (pin : Z) : Z := field (u32 (reg (P := gpio_reg) d (GPPUPPDN (pin / 16)))) ((pin mod 16) * 2) 2.

Lemma fsel_reg (n : Z) : 0 <= n < 6 -> gpio_reg (GPFSEL n).
Proof. exists n. by left. Qed.
Lemma pull_reg (n : Z) : 0 <= n < 4 -> gpio_reg (GPPUPPDN n).
Proof. exists n. by right. Qed.
Lemma fsel_ne_pull (n k : Z) : 0 <= n < 6 -> 0 <= k -> GPFSEL n <> GPPUPPDN k.
Proof. unfold GPFSEL, GPPUPPDN. lia. Qed.

Lemma func_code_range (f : GPIOFunc) : 0 <= gpio_func_code f < 2 ^ 3.
Proof. by destruct f. Qed.
Lemma pull_code_range (p : GPIOPull) : 0 <= gpio_pull_code p < 2 ^ 2.
Proof. by destruct p. Qed.

(** A packed array of [width]-bit fields, [per] to a register: what a field is
    after one is written. *)
Lemma packed_put (per width v x p q : Z) : 0 < per -> 0 < width -> per * width <= 32 -> 0 <= x < 2 ^ width ->
  let w := u32 (put_field (u32 v) ((p mod per) * width) width x) in
  field (u32 w) ((q mod per) * width) width = if q mod per =? p mod per then x else field (u32 v) ((q mod per) * width) width.
Proof.
  intros Hp Hw Hr Hx w. assert (0 <= u32 v < 2 ^ 32) as Hv by (apply wrap_range; lia).
  pose proof (Z.mod_pos_bound p per Hp). pose proof (Z.mod_pos_bound q per Hp).
  assert (u32 w = put_field (u32 v) ((p mod per) * width) width x) as ->.
  { unfold w. rewrite wrap_wrap by lia. apply wrap_small, put_field_range. done. }
  destruct (Z.eqb_spec (q mod per) (p mod per)) as [->|Hne].
  - apply field_put_same; try nia; done.
  - apply field_put_other; try nia; try done.
Qed.

(** Setting a pin's function sets that function and touches no other pin:
    no other function field, no pull, no RAM. *)
Theorem gpio_set_function_exact (pin : Z) (f : GPIOFunc) s : 0 <= pin < 60 ->
  returns (gpio_set_function pin f) s (fun _ s' =>
    (forall q, 0 <= q < 60 -> pin_function (io_dev s') q = if q =? pin then gpio_func_code f else pin_function (io_dev s) q) /\
    (forall q, 0 <= q < 64 -> pin_pull (io_dev s') q = pin_pull (io_dev s) q) /\ io_ram s' = io_ram s).
Proof.
  intros Hp. unfold gpio_set_function, element. cbv zeta. rewrite (proj2 (Z.ltb_lt _ _)) by dlia. do 2 step.
  assert (gpio_reg (GPFSEL (pin / 10))) as HP by (apply fsel_reg; dlia).
  apply (returns_rmw gpio_reg); [done|]. intros d' Hr Ho. cbn [io_dev io_ram field_update]. split_and!; [| |done].
  - intros q Hq. unfold pin_function. destruct (Z.eqb_spec (q / 10) (pin / 10)) as [He|Hne].
    + rewrite He, Hr. etrans; [apply (packed_put 10 3 _ (gpio_func_code f) pin q); [lia..|apply func_code_range]|].
      destruct (Z.eqb_spec (q mod 10) (pin mod 10)); destruct (Z.eqb_spec q pin) as [->|]; try done. dlia.
    + rewrite Ho; [|by apply fsel_reg; dlia|unfold GPFSEL; dlia]. destruct (Z.eqb_spec q pin) as [->|]; done.
  - intros q Hq. unfold pin_pull. rewrite Ho; [done|apply pull_reg; dlia|]. apply not_eq_sym, fsel_ne_pull; dlia.
Qed.

Lemma gpio_set_pull_exact (pin : Z) (p : GPIOPull) s : 0 <= pin < 64 ->
  returns (gpio_set_pull pin p) s (fun _ s' =>
    (forall q, 0 <= q < 64 -> pin_pull (io_dev s') q = if q =? pin then gpio_pull_code p else pin_pull (io_dev s) q) /\
    (forall q, 0 <= q < 60 -> pin_function (io_dev s') q = pin_function (io_dev s) q) /\ io_ram s' = io_ram s).
Proof.
  intros Hp. unfold gpio_set_pull, element. cbv zeta. rewrite (proj2 (Z.ltb_lt _ _)) by dlia. do 2 step.
  assert (gpio_reg (GPPUPPDN (pin / 16))) as HP by (apply pull_reg; dlia).
  apply (returns_rmw gpio_reg); [done|]. intros d' Hr Ho. cbn [io_dev io_ram field_update]. split_and!; [| |done].
  - intros q Hq. unfold pin_pull. destruct (Z.eqb_spec (q / 16) (pin / 16)) as [He|Hne].
    + rewrite He, Hr. etrans; [apply (packed_put 16 2 _ (gpio_pull_code p) pin q); [lia..|apply pull_code_range]|].
      destruct (Z.eqb_spec (q mod 16) (pin mod 16)); destruct (Z.eqb_spec q pin) as [->|]; try done. dlia.
    + rewrite Ho; [|by apply pull_reg; dlia|unfold GPPUPPDN; dlia]. destruct (Z.eqb_spec q pin) as [->|]; done.
  - intros q Hq. unfold pin_function. rewrite Ho; [done|apply fsel_reg; dlia|]. apply fsel_ne_pull; dlia.
Qed.
End pins.

(** A pin number past the last register is an access past the array. *)
Lemma gpio_pin_out_of_range {D V} `{Mmio D} (pin : Z) (f : GPIOFunc) (s : io D V) : 60 <= pin ->
  gpio_set_function pin f s = Stop Fault s.
Proof. intros Hp. unfold gpio_set_function, element. by rewrite (proj2 (Z.ltb_ge _ _)) by dlia. Qed.

Lemma gpio_set_function_exact_witness :
  returns (gpio_set_function 14 GPIO_FUNC_ALT0) (mkIo (mkRegfile (fun _ => 0xFFFFFFFF) 0) (fun _ => 0) tt [] 0 0) (fun _ s' =>
    pin_function (io_dev s') 14 = 4 /\ pin_function (io_dev s') 15 = 7).
Proof.
  eapply returns_mono; [exact (gpio_set_function_exact 14 GPIO_FUNC_ALT0 (mkIo (mkRegfile (fun _ => 0xFFFFFFFF) 0) (fun _ => 0) tt [] 0 0) ltac:(lia))|].
  cbv beta. intros a s' (Hf & _). split; [by rewrite Hf by lia|by rewrite Hf by lia].
Defined.
