(* ===== verification/Gic.v ===== *)
(** * Interrupts and the generic timer
      (source/drivers/gic, source/drivers/interrupts, source/drivers/gentimer, source/libraries/delay)

    The GIC-400 and the ARM Local registers, the table of handlers, the EL1
    physical timer, and the tick-based delay.  [me] is [companion_core_id()];
    the registers that are banked per core are those core [me] sees.  Handlers
    are numbers (their addresses); what calling one does is a parameter. *)

From S2P Require Import Prelude Types Board Kernel Mmio Soc.

Definition GICD_BASE : Z := 0xFF841000.
Definition GICC_BASE : Z := 0xFF842000.
Definition ARM_LOCAL_BASE : Z := 0xFF800000.
Definition GICD_CTLR : Z := GICD_BASE + 0x000.
Definition GICD_ISENABLER (n : Z) : Z := GICD_BASE + 0x100 + n * 4.
Definition GICD_IPRIORITYR (n : Z) : Z := GICD_BASE + 0x400 + n * 4.
Definition GICD_ITARGETSR (n : Z) : Z := GICD_BASE + 0x800 + n * 4.
Definition GICD_ICFGR (n : Z) : Z := GICD_BASE + 0xC00 + n * 4.
Definition GICC_CTLR : Z := GICC_BASE + 0x000.
Definition GICC_PMR : Z := GICC_BASE + 0x004.
Definition CORE_TIMER_IRQCNTL (n : Z) : Z := ARM_LOCAL_BASE + 0x40 + n * 4.
Definition CORE_MBOX_IRQCNTL (n : Z) : Z := ARM_LOCAL_BASE + 0x50 + n * 4.
Definition CORE_MBOX0_SET (n : Z) : Z := ARM_LOCAL_BASE + 0x80 + n * 0x10.

Section gic.
Context {D V : Type} `{Mmio D}.
Abbreviation G := (Io D V).

Definition gic_distributor_init : G unit :=
  wr GICD_CTLR 0;;
  dsb;;
  wr GICD_CTLR 1;;
  dsb.

(** [(r & ~(mask << shift)) | (x << shift)] *)
Definition set_bits (mask shift x v : Z) : Z := Z.lor (Z.land v (bnot (shl mask shift))) (shl x shift).

Definition gic_percore_init (me : Z) : G unit :=
  rmw (GICD_ISENABLER 0) (fun v => Z.lor v (shl 1 30));;
  rmw (GICD_IPRIORITYR (30 / 4)) (set_bits 0xFF ((30 mod 4) * 8) 0x80);;
  wr GICC_PMR 0xFF;;
  wr GICC_CTLR 1;;
  rmw (CORE_TIMER_IRQCNTL me) (fun v => Z.lor v (shl 1 1));;
  rmw (CORE_MBOX_IRQCNTL me) (fun v => Z.lor v (shl 1 0));;
  dsb.

Definition gic_enable_spi (intid priority : Z) : G unit :=
  rmw (GICD_IPRIORITYR (intid / 4)) (set_bits 0xFF ((intid mod 4) * 8) priority);;
  rmw (GICD_ITARGETSR (intid / 4)) (set_bits 0xFF ((intid mod 4) * 8) 0x01);;
  rmw (GICD_ICFGR (intid / 16)) (fun v => Z.land v (bnot (shl 0x3 ((intid mod 16) * 2))));;
  wr (GICD_ISENABLER (intid / 32)) (shl 1 (intid mod 32));;
  dsb.

Definition gic_send_mailbox_ipi (target_core : Z) : G unit :=
  wr (CORE_MBOX0_SET target_core) 1;;
  dsb.

Definition gic_disable (me : Z) : G unit :=
  wr GICC_CTLR 0;;
  rmw (CORE_TIMER_IRQCNTL me) (fun v => Z.land v (bnot (shl 1 1)));;
  rmw (CORE_MBOX_IRQCNTL me) (fun v => Z.land v (bnot (shl 1 0)));;
  dsb.

(** ** The generic timer *)

Definition HZ : Z := 1000.

Definition read_cntpct `{!Cp15 D} : G Z := mrc CNTPCT.

(** [clk_freq] is where the caller wants the frequency, if anywhere; the result
    is what it then holds.  Dividing by [hz = 0] is undefined. *)
Definition gentimer_init `{!Cp15 D} (clk_freq : bool) (hz : Z) : G (StatusCode * option Z) :=
  if negb clk_freq then mret (E_INVALID_ARGS, None) else
  mrc CNTFRQ;;
  let freq := 54000000 in
  mcr CNTP_CTL 0;;
  current ← read_cntpct;
  (if hz =? 0 then stop Fault else
   mcr CNTP_CVAL (u64 (current + freq / hz));;
   mcr CNTP_CTL 1;;
   mret (E_OK, Some freq)).

Definition gentimer_disable `{!Cp15 D} : G unit := mcr CNTP_CTL 0.
End gic.

(** ** The handler table *)

Definition IRQ_MAX_INTID : Z := 256.

(** [g_handlers], beside the kernel state whose interrupt mask guards it. *)
Abbreviation irqs := (kstate * (Z -> option Z))%type.

Definition irq_register (me intid : Z) (handler : option Z) : M irqs StatusCode :=
  if IRQ_MAX_INTID <=? intid then mret E_INVALID_ARGS else
  saved ← zoom fst (fun k s => (k, s.2)) (enter_critical me);
  modify (fun s => (s.1, <[intid := handler]> s.2));;
  zoom fst (fun k s => (k, s.2)) (exit_critical me saved);;
  mret E_OK.

Definition irq_dispatch {S} (table : S -> Z -> option Z) (call : Z -> M S unit) (intid : Z) : M S unit :=
  if intid <? IRQ_MAX_INTID then
    h ← gets (fun s => table s intid);
    match h with Some f => call f | None => mret tt end
  else mret tt.

(** ** Delays (libraries/delay)

    [delay_ms] polls a counter an interrupt advances; [ticks_seen] is what its
    successive reads find.  [delay_cycles] counts in a 64-bit [volatile]. *)

Fixpoint delay_wait (start ticks : Z) (ticks_seen : list Z) : option nat :=
  match ticks_seen with
  | [] => None
  | now :: rest => if u64 (now - start) <? ticks then option_map S (delay_wait start ticks rest) else Some O
  end.
Definition delay_ms (ticks : Z) (ticks_seen : list Z) : option nat :=
  match ticks_seen with [] => None | start :: rest => delay_wait start ticks rest end.
Definition delay_init (s_tick_count p_tick_count : option Z) : StatusCode * option Z :=
  match p_tick_count with None => (E_INVALID_ARGS, s_tick_count) | Some p => (E_OK, Some p) end.

(** ** Behaviour *)

Lemma irq_register_dispatch (me intid : Z) (h : option Z) (s : irqs) : 0 <= intid < IRQ_MAX_INTID ->
  returns (irq_register me intid h) s (fun r s' => r = E_OK /\ s'.2 = <[intid := h]> s.2 /\ k_irq_masked s'.1 = k_irq_masked s.1).
Proof.
  intros Hi. unfold irq_register. rewrite (proj2 (Z.leb_gt _ _)) by lia. destruct s as [k g]. unfold returns. cbn.
  split_and!; [done|done|]. change (<[me := k_irq_masked k me]> (<[me := true]> (k_irq_masked k)) = k_irq_masked k).
  rewrite fn_insert_insert. by apply fn_insert_id.
Qed.

(** The wait ends at the first read [ticks] or more after the start, also
    across the wrap of the counter. *)
Lemma delay_wait_spec (start ticks : Z) (seen : list Z) : forall n, delay_wait start ticks seen = Some n ->
  (exists now, seen !! n = Some now /\ ticks <= u64 (now - start)) /\
  (forall i now, (i < n)%nat -> seen !! i = Some now -> u64 (now - start) < ticks).
Proof.
  induction seen as [|now seen IH]; intros n; cbn [delay_wait]; [done|]. destruct (Z.ltb_spec (u64 (now - start)) ticks) as [Hlt|Hge].
  - destruct (delay_wait start ticks seen) as [k|]; [|done]. intros [= <-]. destruct (IH k eq_refl) as [(now' & H1 & H2) H3].
    split; [by exists now'|]. intros [|i] now'' Hi; cbn; [by intros [= <-]|]. apply H3. lia.
  - intros [= <-]. split; [by exists now|]. intros i now' Hi. lia.
Qed.
