(* ===== verification/Dma.v ===== *)
(** * The DMA controller and the VideoCore mailbox
      (source/drivers/dma, source/drivers/mailbox)

    Buffers and control blocks are in RAM, at addresses the linker chose
    (parameters).  The engine and the VideoCore may change the RAM at any
    access to their registers. *)

From S2P Require Import Prelude Types Board Mmio Soc.

Definition DMA_BASE : Z := 0xFE007000.
Definition DMA_CHANNEL (n : Z) : Z := DMA_BASE + n * 0x100.
Definition CS (ch : Z) : Z := ch + 0x00.
Definition CONBLK_AD (ch : Z) : Z := ch + 0x04.
Definition DEBUG (ch : Z) : Z := ch + 0x20.
Definition DMA_ENABLE : Z := DMA_BASE + 0xFF0.

Definition DMA_CS_ACTIVE : Z := Z.shiftl 1 0.
Definition DMA_CS_END : Z := Z.shiftl 1 1.
Definition DMA_CS_INT : Z := Z.shiftl 1 2.
Definition DMA_CS_ERROR : Z := Z.shiftl 1 8.
Definition DMA_CS_RESET : Z := Z.shiftl 1 31.
Definition DMA_DEBUG_FIFO_ERROR : Z := Z.shiftl 1 1.
Definition DMA_DEBUG_READ_ERROR : Z := Z.shiftl 1 2.
Definition DMA_DEBUG_ERROR_MASK : Z := Z.lor DMA_DEBUG_FIFO_ERROR DMA_DEBUG_READ_ERROR.
Definition DMA_TI_INTEN : Z := Z.shiftl 1 0.
Definition DMA_TI_WAIT_RESP : Z := Z.shiftl 1 3.
Definition DMA_TI_DEST_INC : Z := Z.shiftl 1 4.
Definition DMA_TI_DEST_DREQ : Z := Z.shiftl 1 6.
Definition DMA_TI_SRC_INC : Z := Z.shiftl 1 8.
Definition DMA_TI_PERMAP (dreq : Z) : Z := shl (Z.land dreq 0x1F) 16.
Definition DMA_DREQ_UART_TX : Z := 12.
Definition DMA_IRQ_INTID (channel : Z) : Z := u32 (112 + channel).
Definition DMA_BUS_ALIAS : Z := 0xC0000000.
Definition BUS_ADDRESS (a : Z) : Z := Z.lor (Z.land (u32 a) (bnot 0xC0000000)) DMA_BUS_ALIAS.
Definition PERIPHERAL_BUS_ADDRESS (a : Z) : Z := Z.lor (Z.land (u32 a) 0x00FFFFFF) 0x7E000000.

Record DmaControlBlock := mkDmaControlBlock {
  ti : Z;
  source_ad : Z;
  dest_ad : Z;
  txfr_len : Z;
  stride : Z;
  nextconbk : Z
}.

Definition DMA_RESET_SPINS : Z := 100000.
Definition DMA_SELFTEST_LEN : Z := 256.

Module DmaMessages.
Import String.
Definition selftest : string := "dma: selftest ch%u alias=0x%08X CS=0x%08X DEBUG=0x%08X st=%d\r\n".
Definition mismatch : string := "dma: selftest MISMATCH at %u (got 0x%02X want 0x%02X)\r\n".
Definition passed : string := "dma: selftest OK — mem->mem verified, bus alias correct\r\n".
Definition firmware : string := "mbox: selftest firmware_rev=0x%08X st=%d\r\n".
End DmaMessages.

Section dma.
Context {D V : Type} `{Mmio D}.
Abbreviation G := (Io D V).

Definition dma_channel_init (channel : Z) : G unit :=
  rmw DMA_ENABLE (fun v => Z.lor v (shl 1 channel));;
  dsb;;
  let ch := DMA_CHANNEL channel in
  wr (CS ch) DMA_CS_RESET;;
  spin_while (CS ch) (fun v => has v DMA_CS_RESET) (Z.to_nat DMA_RESET_SPINS);;
  wr (CS ch) (Z.lor DMA_CS_END DMA_CS_INT);;
  dsb.

(** [cb]: the address of the control block. *)
Definition dma_start (channel cb : Z) : G unit :=
  let ch := DMA_CHANNEL channel in
  wr (CS ch) (Z.lor DMA_CS_END DMA_CS_INT);;
  dsb;;
  wr (CONBLK_AD ch) (BUS_ADDRESS cb);;
  dsb;;
  wr (CS ch) DMA_CS_ACTIVE.

Definition dma_wait (channel spin_limit : Z) : G StatusCode :=
  let ch := DMA_CHANNEL channel in
  spin_while (CS ch) (fun v => has v DMA_CS_ACTIVE) (Z.to_nat spin_limit);;
  v ← rd (CS ch);
  if has v DMA_CS_ACTIVE then mret E_TIMED_OUT else
  v ← rd (CS ch);
  bad ← (if has v DMA_CS_ERROR then mret true
         else d ← rd (DEBUG ch); mret (has d DMA_DEBUG_ERROR_MASK));
  mret (if bad : bool then E_CORRUPTED else E_OK).

(** The block's fields, stored in turn. *)
Definition store_cb (a : Z) (cb : DmaControlBlock) : G unit :=
  store32 a (ti cb);;
  store32 (a + 4) (source_ad cb);;
  store32 (a + 8) (dest_ad cb);;
  store32 (a + 12) (txfr_len cb);;
  store32 (a + 16) (stride cb);;
  store32 (a + 20) (nextconbk cb).

Definition load8 (a : Z) : G Z := gets (fun s => io_ram s a).
Definition store8 (a v : Z) : G unit := modify (fun s => s <| io_ram ::= fun m => ram_put m a [u8 v] |>).

Variables (s_dma_src s_dma_dst s_dma_cb : Z).

Fixpoint compare (n : nat) (i : Z) : G StatusCode :=
  match n with
  | O => print DmaMessages.passed [];; mret E_OK
  | S n' =>
      d ← load8 (s_dma_dst + i);
      s ← load8 (s_dma_src + i);
      if negb (d =? s) then print DmaMessages.mismatch [i; d; s];; mret E_CORRUPTED
      else compare n' (i + 1)
  end.

Definition dma_selftest (channel : Z) : G StatusCode :=
  for_ (Z.to_nat DMA_SELFTEST_LEN) 0 (fun i => store8 (s_dma_src + i) (Z.lxor i 0xA5);; store8 (s_dma_dst + i) 0);;
  store_cb s_dma_cb (mkDmaControlBlock (Z.lor (Z.lor DMA_TI_SRC_INC DMA_TI_DEST_INC) DMA_TI_WAIT_RESP)
    (BUS_ADDRESS s_dma_src) (BUS_ADDRESS s_dma_dst) DMA_SELFTEST_LEN 0 0);;
  dma_channel_init channel;;
  dma_start channel s_dma_cb;;
  st ← dma_wait channel 1000000;
  let ch := DMA_CHANNEL channel in
  c ← rd (CS ch);
  d ← rd (DEBUG ch);
  print DmaMessages.selftest [channel; DMA_BUS_ALIAS; c; d; status_code st];;
  if decide (st <> E_OK) then mret st else
  dsb;;
  compare (Z.to_nat DMA_SELFTEST_LEN) 0.
End dma.

(** ** The mailbox *)

Definition MBOX_BASE : Z := 0xFE00B880.
Definition MBOX_READ : Z := MBOX_BASE + 0x00.
Definition MBOX_STATUS : Z := MBOX_BASE + 0x18.
Definition MBOX_WRITE : Z := MBOX_BASE + 0x20.
Definition MBOX_STATUS_FULL : Z := Z.shiftl 1 31.
Definition MBOX_STATUS_EMPTY : Z := Z.shiftl 1 30.
Definition MBOX_TAG_RESP_BIT : Z := Z.shiftl 1 31.
Definition MBOX_SPIN_LIMIT : Z := 1000000.
Definition MBOX_CH_PROPERTY : Z := 8.
Definition MBOX_TAG_GET_FIRMWARE_REVISION : Z := 0x00000001.
Definition MBOX_TAG_GET_BOARD_SERIAL : Z := 0x00010004.
Definition MBOX_TAG_GET_ARM_MEMORY : Z := 0x00010005.
Definition MBOX_TAG_GET_CLOCK_RATE : Z := 0x00030002.
Definition MBOX_CLOCK_ID_CORE : Z := 4.

Section mailbox.
Context {D V : Type} `{Mmio D}.
Abbreviation G := (Io D V).
(** The response loop is left only by the response to this buffer or by a
    wait that ran out; [patience] bounds the foreign responses followed. *)
Variable patience : nat.

Fixpoint mbox_response (turns : nat) (addr : Z) (spins : nat) : G bool :=
  match turns with
  | O => stop NoFuel
  | S turns' =>
      spins ← spin_while MBOX_STATUS (fun v => has v MBOX_STATUS_EMPTY) spins;
      if decide (spins = O) then mret false else
      resp ← rd MBOX_READ;
      if resp =? addr then mret true else mbox_response turns' addr spins
  end.

Definition mbox_property_call (buf : Z) : G StatusCode :=
  let addr := Z.lor (BUS_ADDRESS buf) MBOX_CH_PROPERTY in
  spins ← spin_while MBOX_STATUS (fun v => has v MBOX_STATUS_FULL) (Z.to_nat MBOX_SPIN_LIMIT);
  if decide (spins = O) then mret E_TIMED_OUT else
  wr MBOX_WRITE addr;;
  got ← mbox_response patience addr (Z.to_nat MBOX_SPIN_LIMIT);
  if negb got then mret E_TIMED_OUT else
  code ← load32 (buf + 4);
  mret (if negb (code =? MBOX_TAG_RESP_BIT) then E_CORRUPTED else E_OK).

Variable s_mbox_buf : Z.

(** The words of a message, stored in turn. *)
Fixpoint store_words (a : Z) (l : list Z) : G unit :=
  match l with
  | [] => mret tt
  | v :: l' => store32 a v;; store_words (a + 4) l'
  end.

Definition mbox_get_clock_rate (clock_id : Z) : G (StatusCode * option Z) :=
  store_words s_mbox_buf [8 * 4; 0; MBOX_TAG_GET_CLOCK_RATE; 8; 0; clock_id; 0; 0];;
  ret ← mbox_property_call s_mbox_buf;
  if decide (ret <> E_OK) then mret (ret, None) else
  w ← load32 (s_mbox_buf + 16);
  if Z.land w MBOX_TAG_RESP_BIT =? 0 then mret (E_CORRUPTED, None) else
  hz ← load32 (s_mbox_buf + 24);
  mret (E_OK, Some hz).

Definition mbox_get_board_serial : G (StatusCode * option (Z * Z)) :=
  store_words s_mbox_buf [8 * 4; 0; MBOX_TAG_GET_BOARD_SERIAL; 8; 0; 0; 0; 0];;
  ret ← mbox_property_call s_mbox_buf;
  if decide (ret <> E_OK) then mret (ret, None) else
  w ← load32 (s_mbox_buf + 16);
  if Z.land w MBOX_TAG_RESP_BIT =? 0 then mret (E_CORRUPTED, None) else
  lo ← load32 (s_mbox_buf + 20);
  hi ← load32 (s_mbox_buf + 24);
  mret (E_OK, Some (lo, hi)).

Definition mbox_get_arm_memory : G (StatusCode * option (Z * Z)) :=
  store_words s_mbox_buf [8 * 4; 0; MBOX_TAG_GET_ARM_MEMORY; 8; 0; 0; 0; 0];;
  ret ← mbox_property_call s_mbox_buf;
  if decide (ret <> E_OK) then mret (ret, None) else
  w ← load32 (s_mbox_buf + 16);
  if Z.land w MBOX_TAG_RESP_BIT =? 0 then mret (E_CORRUPTED, None) else
  base ← load32 (s_mbox_buf + 20);
  size ← load32 (s_mbox_buf + 24);
  mret (E_OK, Some (base, size)).

Definition mbox_selftest : G StatusCode :=
  store_words s_mbox_buf [7 * 4; 0; MBOX_TAG_GET_FIRMWARE_REVISION; 4; 0; 0; 0];;
  ret ← mbox_property_call s_mbox_buf;
  rev ← load32 (s_mbox_buf + 20);
  print DmaMessages.firmware [rev; status_code ret];;
  mret ret.
End mailbox.

(** ** Behaviour *)

Section behaviour.
Context {D V : Type} `{Mmio D}.
Implicit Types (s : io D V).

Lemma dma_wait_total (channel limit : Z) : total (dma_wait (D := D) (V := V) channel limit).
Proof. unfold dma_wait. total. Qed.
Lemma dma_channel_init_total (channel : Z) : total (dma_channel_init (D := D) (V := V) channel).
Proof. unfold dma_channel_init. total. Qed.
Lemma dma_start_total (channel cb : Z) : total (dma_start (D := D) (V := V) channel cb).
Proof. unfold dma_start. total. Qed.
Hint Resolve dma_wait_total dma_channel_init_total dma_start_total : total.

Lemma compare_spec (src dst : Z) (n : nat) : forall i s, returns (compare src dst n i) s (fun r s' =>
  io_ram s' = io_ram s /\ (r = E_OK -> forall j, i <= j < i + Z.of_nat n -> io_ram s (dst + j) = io_ram s (src + j))).
Proof.
  induction n as [|n IH]; intros i s; cbn [compare].
  - unfold print. steps. split; [done|]. intros _ j Hj. lia.
  - unfold load8. do 4 step. destruct (Z.eqb_spec (io_ram s (dst + i)) (io_ram s (src + i))) as [He|]; cbn [negb].
    + eapply returns_mono; [apply IH|]. cbv beta. intros r s' [Hm Hr]. split; [done|]. intros Hok j Hj.
      destruct (Z.eq_dec j i) as [->|]; [done|]. apply Hr; [done|lia].
    + unfold print. steps. by split.
Qed.

(** The DMA self-test does not pass a copy that did not happen.  Whatever
    the engine does, the test comes back; and if it says E_OK, the 256 bytes of
    the destination are those of the source. *)
Theorem dma_selftest_verifies (src dst cb channel : Z) s :
  returns (dma_selftest src dst cb channel) s (fun r s' =>
    r = E_OK -> forall i, 0 <= i < DMA_SELFTEST_LEN -> io_ram s' (dst + i) = io_ram s' (src + i)).
Proof.
  unfold dma_selftest. cbv zeta. do 8 (apply total_bind; [unfold store_cb; total|intros ? ?]).
  destruct (decide _); [by step|]. apply total_bind; [total|intros ? ?].
  eapply returns_mono; [apply compare_spec|]. cbv beta. intros r t' [Hm Hr] Hok i Hi. rewrite Hm.
  apply Hr; [done|]. unfold DMA_SELFTEST_LEN in *. lia.
Qed.

Lemma store_words_total (a : Z) (l : list Z) : total (store_words (D := D) (V := V) a l).
Proof. revert a. induction l as [|v l IH]; intros a; cbn [store_words]; total. Qed.

(** A property call that reports success has the response code in its buffer. *)
Lemma property_call_replied (patience : nat) (buf : Z) s :
  runs (mbox_property_call patience buf) s
    (fun r s' => r = E_OK -> ram_word (io_ram s') (buf + 4) = MBOX_TAG_RESP_BIT) (fun w _ => w = NoFuel).
Proof.
  assert (forall turns addr spins s, runs (mbox_response (D := D) (V := V) turns addr spins) s (fun _ _ => True) (fun w _ => w = NoFuel)) as Hresp.
  { induction turns as [|turns IH]; intros addr spins s0; cbn [mbox_response]; [by rstep|].
    apply total_rbind; [total|]. intros left s1. destruct (decide _); [by rstep|].
    apply total_rbind; [total|]. intros v s2. destruct (v =? addr); [by rstep|apply IH]. }
  unfold mbox_property_call. cbv zeta. apply total_rbind; [total|]. intros spins s1. destruct (decide _); [by rstep|].
  apply total_rbind; [total|]. intros [] s2. rstep. eapply runs_mono; [apply Hresp| |done]. intros got s3 _. cbv beta.
  destruct got; cbn [negb]; [|by rstep]. unfold load32. rsteps. by destruct (Z.eqb_spec (ram_word (io_ram s3) (buf + 4)) MBOX_TAG_RESP_BIT).
Qed.
End behaviour.

Lemma dma_selftest_verifies_witness : returns (dma_selftest 0x1000 0x2000 0x3000 4)
  (mkIo (mkRegfile (fun _ => 0) 0) (fun _ => 0) tt [] 0 0) (fun r s' => r = E_OK -> io_ram s' 0x2007 = io_ram s' 0x1007).
Proof.
  eapply returns_mono; [exact (dma_selftest_verifies 0x1000 0x2000 0x3000 4 (mkIo (mkRegfile (fun _ => 0) 0) (fun _ => 0) tt [] 0 0))|].
  cbv beta. intros r s' Hr Hok. by apply (Hr Hok 7).
Defined.
