(* ===== verification/I2c.v ===== *)
(** * The I2C controllers (source/drivers/i2c)

    Every function of the driver over the BSC register blocks.  A transfer's
    buffer is the list of bytes the caller passes, or gets: what is read past
    its end is [Fault], and so is a channel number used as an index before it
    is checked.  [BscBus] is what the driver relies on of a controller: which
    address and bytes it has been given, and that it does not set DONE, a latch,
    for a write before it has them all. *)

From S2P Require Import Prelude Types Board Mmio Soc Gpio Dma.

Definition I2C0_BASE : Z := 0xFE205000.
Definition I2C1_BASE : Z := 0xFE804000.
Definition I2C3_BASE : Z := 0xFE205600.
Definition I2C4_BASE : Z := 0xFE205800.
Definition I2C5_BASE : Z := 0xFE205A00.
Definition I2C6_BASE : Z := 0xFE205C00.

Module BSCRegs.
Definition C : Z := 0x00.
Definition S : Z := 0x04.
Definition DLEN : Z := 0x08.
Definition A : Z := 0x0C.
Definition FIFO : Z := 0x10.
Definition DIV : Z := 0x14.
End BSCRegs.

Definition C_I2CEN : Z := Z.shiftl 1 15.
Definition C_ST : Z := Z.shiftl 1 7.
Definition C_CLEAR : Z := Z.shiftl 1 4.
Definition C_READ : Z := Z.shiftl 1 0.
Definition C_WRITE : Z := Z.shiftl 0 0.
Definition S_CLKT : Z := Z.shiftl 1 9.
Definition S_ERR : Z := Z.shiftl 1 8.
Definition S_RXD : Z := Z.shiftl 1 5.
Definition S_TXD : Z := Z.shiftl 1 4.
Definition S_DONE : Z := Z.shiftl 1 1.
Definition S_TA : Z := Z.shiftl 1 0.
Definition S_CLEAR_ALL : Z := Z.lor (Z.lor S_CLKT S_ERR) S_DONE.
Definition I2C_FIFO_DEPTH : Z := 16.

Inductive I2cBaudrate := I2C_BAUDRATE_STANDARD_100K | I2C_BAUDRATE_FAST_400K.
#[export] Instance I2cBaudrate_eq_dec : EqDecision I2cBaudrate.
Proof. solve_decision. Defined.
Definition I2C_BAUDRATE_STANDARD_100K_HZ : Z := 100000.
Definition I2C_BAUDRATE_FAST_400K_HZ : Z := 400000.
Definition I2C_NUM_CHANNELS : Z := 7.

Record I2cConfig := mkI2cConfig {
  sda_pin : Z;
  scl_pin : Z;
  alt_func : GPIOFunc;
  i2c_baudrate : I2cBaudrate
}.

Record I2cVars := mkI2cVars {
  s_i2c_core_clock_hz : Z;
  s_i2c_configs : Z -> option I2cConfig;
  s_i2c_last_status : Z -> Z
}.
#[export] Instance eta_I2cVars : Settable I2cVars :=
  fun r => mkI2cVars (s_i2c_core_clock_hz r) (s_i2c_configs r) (s_i2c_last_status r).
Definition i2c_vars_initial : I2cVars := mkI2cVars 0 (fun _ => None) (fun _ => 0).

(** [i2c_hw_table], as the register block of a channel. *)
Definition i2c_hw_table (channel : Z) : option Z :=
  if channel =? 0 then Some I2C0_BASE else if channel =? 1 then Some I2C1_BASE else
  if channel =? 3 then Some I2C3_BASE else if channel =? 4 then Some I2C4_BASE else
  if channel =? 5 then Some I2C5_BASE else if channel =? 6 then Some I2C6_BASE else None.

(** The bus divisor for a core clock, the source's 32-bit sums included. *)
Definition i2c_divisor (core_hz target_hz : Z) : Z :=
  let div := u32 (core_hz + target_hz - 1) / target_hz in
  let div := if negb (Z.land div 1 =? 0) then u32 (div + 1) else div in
  let div := if div <? 2 then 2 else div in
  if 0xFFFE <? div then 0xFFFE else div.

Section i2c.
Context {D : Type} `{Mmio D}.
Abbreviation G := (Io D I2cVars).
Variable patience : nat.          (* of the mailbox call *)
Variable s_mbox_buf : Z.

Definition i2c_core_clock_hz : G (StatusCode * option Z) :=
  cached ← var s_i2c_core_clock_hz;
  if negb (cached =? 0) then mret (E_OK, Some cached) else
  p ← mbox_get_clock_rate patience s_mbox_buf MBOX_CLOCK_ID_CORE;
  match p with
  | (E_OK, Some hz) => set_vars (fun v => v <| s_i2c_core_clock_hz := hz |>);; mret (E_OK, Some hz)
  | (ret, _) => mret (ret, None)
  end.

Definition i2c_channel_regs (channel : Z) : option Z :=
  if I2C_NUM_CHANNELS <=? channel then None else i2c_hw_table channel.

Definition i2c_channel_last_status (channel : Z) : G Z :=
  if I2C_NUM_CHANNELS <=? channel then mret 0 else var (fun v => s_i2c_last_status v channel).

(** [s_i2c_configs[channel]] *)
Definition config_of (channel : Z) : G (option I2cConfig) :=
  if I2C_NUM_CHANNELS <=? channel then stop Fault else var (fun v => s_i2c_configs v channel).

Definition i2c_channel_init (channel : Z) (config : option I2cConfig) : G StatusCode :=
  match config, i2c_channel_regs channel with
  | None, _ => mret E_INVALID_ARGS
  | Some _, None => mret E_NOTSUPP
  | Some config, Some regs =>
      spin_while (regs + BSCRegs.S) (fun v => has v S_TA) (Z.to_nat 10000);;
      wr (regs + BSCRegs.C) 0;;
      gpio_set_function (sda_pin config) (alt_func config);;
      gpio_set_pull (sda_pin config) GPIO_PULL_UP;;
      gpio_set_function (scl_pin config) (alt_func config);;
      gpio_set_pull (scl_pin config) GPIO_PULL_UP;;
      p ← i2c_core_clock_hz;
      match p with
      | (E_OK, Some core_hz) =>
          let target_hz := if decide (i2c_baudrate config = I2C_BAUDRATE_FAST_400K) then I2C_BAUDRATE_FAST_400K_HZ
                           else I2C_BAUDRATE_STANDARD_100K_HZ in
          wr (regs + BSCRegs.DIV) (i2c_divisor core_hz target_hz);;
          wr (regs + BSCRegs.S) S_CLEAR_ALL;;
          wr (regs + BSCRegs.C) C_I2CEN;;
          set_vars (fun v => v <| s_i2c_configs ::= fun f => <[channel := Some config]> f |>);;
          mret E_OK
      | (ret, _) => mret ret
      end
  end.

Definition i2c_channel_deinit (channel : Z) : G unit :=
  match i2c_channel_regs channel with
  | None => mret tt
  | Some regs =>
      spin_while (regs + BSCRegs.S) (fun v => has v S_TA) (Z.to_nat 10000);;
      wr (regs + BSCRegs.C) 0;;
      wr (regs + BSCRegs.S) S_CLEAR_ALL;;
      config ← config_of channel;
      match config with
      | Some c => gpio_set_function (sda_pin c) GPIO_FUNC_INPUT;; gpio_set_function (scl_pin c) GPIO_FUNC_INPUT
      | None => mret tt
      end
  end.

(** Feeding the FIFO: [rest] is the buffer from the current index on, [todo]
    how many of its bytes are to go. *)
Fixpoint write_loop (regs : Z) (timeout : nat) (rest : list Z) (todo : nat) : G unit :=
  match todo, timeout with
  | O, _ | _, O => mret tt
  | S todo', S timeout' =>
      status ← rd (regs + BSCRegs.S);
      if has status (Z.lor S_ERR S_CLKT) then mret tt else
      if has status S_TXD then
        b ← deref (head rest);
        wr (regs + BSCRegs.FIFO) b;;
        write_loop regs timeout' (tail rest) todo'
      else write_loop regs timeout' rest todo
  end.

(** Draining the FIFO; [got]: the bytes stored so far. *)
Fixpoint read_loop (regs : Z) (timeout : nat) (got : list Z) (todo : nat) : G (list Z) :=
  match todo, timeout with
  | O, _ | _, O => mret got
  | S todo', S timeout' =>
      status ← rd (regs + BSCRegs.S);
      if has status (Z.lor S_ERR S_CLKT) then mret got else
      if has status S_RXD then
        b ← rd (regs + BSCRegs.FIFO);
        read_loop regs timeout' (got ++ [u8 b]) todo'
      else read_loop regs timeout' got todo
  end.

(** The end of every transfer: wait for an outcome, and report it. *)
Definition transfer_end (channel regs : Z) : G StatusCode :=
  spin_while (regs + BSCRegs.S) (fun v => negb (has v (Z.lor (Z.lor S_DONE S_ERR) S_CLKT))) (Z.to_nat 10000);;
  status ← rd (regs + BSCRegs.S);
  set_vars (fun v => v <| s_i2c_last_status ::= fun f => <[channel := status]> f |>);;
  if has status S_CLKT then wr (regs + BSCRegs.C) 0;; mret E_TIMED_OUT
  else if has status S_ERR then mret E_DATA
  else if negb (has status S_DONE) then wr (regs + BSCRegs.C) 0;; mret E_TIMED_OUT
  else mret E_OK.

Definition i2c_channel_write (channel addr : Z) (buf : list Z) (len : Z) : G StatusCode :=
  if len =? 0 then mret E_INVALID_ARGS else
  config ← config_of channel;
  match config, i2c_channel_regs channel with
  | None, _ => mret E_NOT_INITIALIZED
  | Some _, None => mret E_NOTSUPP
  | Some _, Some regs =>
      wr (regs + BSCRegs.S) S_CLEAR_ALL;;
      wr (regs + BSCRegs.A) addr;;
      wr (regs + BSCRegs.DLEN) len;;
      wr (regs + BSCRegs.C) (Z.lor (Z.lor C_I2CEN C_ST) C_WRITE);;
      write_loop regs (Z.to_nat 1000000) buf (Z.to_nat len);;
      transfer_end channel regs
  end.

Definition i2c_channel_read (channel addr len : Z) : G (StatusCode * list Z) :=
  if len =? 0 then mret (E_INVALID_ARGS, []) else
  config ← config_of channel;
  match config, i2c_channel_regs channel with
  | None, _ => mret (E_NOT_INITIALIZED, [])
  | Some _, None => mret (E_NOTSUPP, [])
  | Some _, Some regs =>
      wr (regs + BSCRegs.S) S_CLEAR_ALL;;
      wr (regs + BSCRegs.A) addr;;
      wr (regs + BSCRegs.DLEN) len;;
      wr (regs + BSCRegs.C) (Z.lor (Z.lor C_I2CEN C_ST) C_READ);;
      got ← read_loop regs (Z.to_nat 1000000) [] (Z.to_nat len);
      r ← transfer_end channel regs;
      mret (r, got)
  end.

Fixpoint preload (regs : Z) (n : nat) (rest : list Z) : G unit :=
  match n with
  | O => mret tt
  | S n' => b ← deref (head rest); wr (regs + BSCRegs.FIFO) b;; preload regs n' (tail rest)
  end.

Definition i2c_channel_write_read (channel addr : Z) (tx_buf : list Z) (tx_len rx_len : Z) : G (StatusCode * list Z) :=
  config ← config_of channel;
  match config, i2c_channel_regs channel with
  | None, _ => mret (E_NOT_INITIALIZED, [])
  | Some _, None => mret (E_NOTSUPP, [])
  | Some _, Some regs =>
      if I2C_FIFO_DEPTH <? tx_len then mret (E_INVALID_ARGS, []) else
      wr (regs + BSCRegs.C) C_CLEAR;;
      wr (regs + BSCRegs.S) S_CLEAR_ALL;;
      wr (regs + BSCRegs.A) addr;;
      wr (regs + BSCRegs.DLEN) tx_len;;
      wr (regs + BSCRegs.C) C_I2CEN;;
      preload regs (Z.to_nat tx_len) tx_buf;;
      wr (regs + BSCRegs.C) (Z.lor C_I2CEN C_ST);;
      timeout ← spin_while (regs + BSCRegs.S) (fun v => negb (has v (Z.lor (Z.lor (Z.lor S_TA S_DONE) S_ERR) S_CLKT))) (Z.to_nat 10000);
      status ← rd (regs + BSCRegs.S);
      set_vars (fun v => v <| s_i2c_last_status ::= fun f => <[channel := status]> f |>);;
      if decide (timeout = O) then wr (regs + BSCRegs.C) 0;; mret (E_TIMED_OUT, [])
      else if has status S_CLKT then wr (regs + BSCRegs.C) 0;; mret (E_TIMED_OUT, [])
      else if has status S_ERR then mret (E_DATA, [])
      else
      wr (regs + BSCRegs.DLEN) rx_len;;
      wr (regs + BSCRegs.C) (Z.lor (Z.lor C_I2CEN C_ST) C_READ);;
      got ← read_loop regs (Z.to_nat 1000000) [] (Z.to_nat rx_len);
      r ← transfer_end channel regs;
      mret (r, got)
  end.
End i2c.

(** ** The bus speed *)

(** The divisor never runs the bus faster than asked.  For any core clock
    the VideoCore can report, the divisor is even and within the register's
    range, and unless it had to be cut to that range the resulting SCL rate is
    at most the one asked for, and the next smaller even divisor would
    exceed it. *)
Theorem i2c_divisor_correct (core_hz target_hz : Z) :
  0 < core_hz -> target_hz = I2C_BAUDRATE_STANDARD_100K_HZ \/ target_hz = I2C_BAUDRATE_FAST_400K_HZ -> core_hz + target_hz <= 2 ^ 32 ->
  let div := i2c_divisor core_hz target_hz in
  div mod 2 = 0 /\ 2 <= div <= 0xFFFE /\ (core_hz <= target_hz * 0xFFFE -> core_hz <= target_hz * div) /\
  (2 < div -> target_hz * (div - 2) < core_hz).
Proof.
  intros Hc Ht Hw. assert (0 < target_hz) as Hp by (destruct Ht as [-> | ->]; done). unfold i2c_divisor. cbv zeta.
  rewrite wrap_small by lia. set (d := (core_hz + target_hz - 1) / target_hz).
  assert (target_hz * d <= core_hz + target_hz - 1 < target_hz * d + target_hz) as Hd.
  { unfold d. pose proof (Z.div_mod (core_hz + target_hz - 1) target_hz ltac:(lia)).
    pose proof (Z.mod_pos_bound (core_hz + target_hz - 1) target_hz Hp). lia. }
  assert (1 <= d <= 2 ^ 32 / 100000) as Hdr.
  { split; [unfold d; apply Z.div_le_lower_bound; lia|]. unfold d. transitivity (2 ^ 32 / target_hz).
    - apply Z.div_le_mono; lia.
    - apply Z.div_le_compat_l; [lia|]. destruct Ht as [-> | ->]; by vm_compute. }
  clearbody d. change (2 ^ 32 / 100000) with 42949 in Hdr. replace (Z.land d 1) with (d mod 2) by (symmetry; apply (Z.land_ones d 1); lia).
  assert (u32 (d + 1) = d + 1) as -> by (apply wrap_small; lia).
  destruct (Z.eqb_spec (d mod 2) 0) as [He|Ho]; cbn [negb].
  - rewrite (proj2 (Z.ltb_ge d 2)) by dlia. rewrite (proj2 (Z.ltb_ge 0xFFFE d)) by lia. split_and!; [done|dlia|lia|nia|]. intros _. nia.
  - assert (d mod 2 = 1) as Hm by dlia. rewrite (proj2 (Z.ltb_ge (d + 1) 2)) by lia.
    rewrite (proj2 (Z.ltb_ge 0xFFFE (d + 1))) by lia. split_and!; [dlia|lia|lia|nia|]. intros _. nia.
Qed.

(** ** What a transfer delivers *)

(** What a controller knows of its transfers.  DONE is a latch: it is set by the
    end of a transfer and stays until 1 is written to it. *)
Record bus := mkBus {
  bus_ready : bool;      (* no transfer is under way, and the FIFO is empty *)
  bus_latched : bool;    (* DONE may be set *)
  bus_addr : Z;          (* A *)
  bus_len : Z;           (* DLEN *)
  bus_writing : bool;    (* the last START began a write... *)
  bus_stale : bool;      (* ...with DONE set already *)
  bus_sent : list Z      (* the bytes given to the FIFO since *)
}.
#[export] Instance eta_bus : Settable bus :=
  fun r => mkBus (bus_ready r) (bus_latched r) (bus_addr r) (bus_len r) (bus_writing r) (bus_stale r) (bus_sent r).

(** The transfer is the same one. *)
Definition same_transfer (x x' : bus) : Prop :=
  bus_addr x' = bus_addr x /\ bus_len x' = bus_len x /\ bus_writing x' = bus_writing x /\ bus_stale x' = bus_stale x /\ bus_sent x' = bus_sent x.

(** A controller at [b], as far as writing goes.  Nothing is assumed of when, or
    whether, it answers, or of the other registers; nor of DONE when the START
    found it set. *)
Class BscBus (D : Type) `{Mmio D} (b : Z) := {
  bus_of : D -> bus;
  bus_status : forall d m v d' m', io_read (b + BSCRegs.S) (d, m) = (v, (d', m')) -> same_transfer (bus_of d) (bus_of d') /\
    (bus_writing (bus_of d) = true -> bus_stale (bus_of d) = false ->
     has (u32 v) S_DONE = true -> has (u32 v) S_ERR = false -> has (u32 v) S_CLKT = false ->
     Z.of_nat (length (bus_sent (bus_of d))) = bus_len (bus_of d) /\ bus_ready (bus_of d') = true);
  bus_clear : forall v d m d' m', io_write (b + BSCRegs.S) v (d, m) = (d', m') -> bus_ready (bus_of d) = true -> has v S_DONE = true ->
    bus_ready (bus_of d') = true /\ bus_latched (bus_of d') = false;
  bus_set_addr : forall v d m d' m', io_write (b + BSCRegs.A) v (d, m) = (d', m') -> bus_ready (bus_of d) = true ->
    bus_ready (bus_of d') = true /\ bus_latched (bus_of d') = bus_latched (bus_of d) /\ bus_addr (bus_of d') = v;
  bus_set_len : forall v d m d' m', io_write (b + BSCRegs.DLEN) v (d, m) = (d', m') -> bus_ready (bus_of d) = true ->
    bus_ready (bus_of d') = true /\ bus_latched (bus_of d') = bus_latched (bus_of d) /\ bus_addr (bus_of d') = bus_addr (bus_of d) /\ bus_len (bus_of d') = v;
  bus_start : forall v d m d' m', io_write (b + BSCRegs.C) v (d, m) = (d', m') -> bus_ready (bus_of d) = true ->
    has v C_I2CEN = true -> has v C_ST = true -> has v C_READ = false ->
    same_transfer ((bus_of d) <| bus_writing := true |> <| bus_stale := bus_latched (bus_of d) |> <| bus_sent := [] |>) (bus_of d');
  bus_fifo : forall v d m d' m', io_write (b + BSCRegs.FIFO) v (d, m) = (d', m') -> bus_writing (bus_of d) = true ->
    same_transfer ((bus_of d) <| bus_sent ::= fun l => l ++ [v] |>) (bus_of d')
}.

Section delivery.
Context {D : Type} `{!Mmio D} (b : Z) `{!BscBus D b}.
Implicit Types (s : io D I2cVars).

Abbreviation at_bus s := (bus_of (b := b) (io_dev s)).

(** A write to [addr] under way: [n] bytes to send, those of [buf] sent so far. *)
Record sending (addr : Z) (buf : list Z) (n : nat) (k : nat) s : Prop := {
  sg_addr : bus_addr (at_bus s) = addr;
  sg_sent : bus_sent (at_bus s) = take k buf;
  sg_len : bus_len (at_bus s) = Z.of_nat n;
  sg_writing : bus_writing (at_bus s) = true;
  sg_fresh : bus_stale (at_bus s) = false
}.

(** The write is over: the controller has been given the address and [n] bytes,
    and is ready for the next. *)
Definition delivered (addr : Z) (buf : list Z) (n : nat) s : Prop :=
  bus_addr (at_bus s) = addr /\ bus_sent (at_bus s) = take n buf /\ bus_ready (at_bus s) = true.

Lemma sending_kept addr buf n k s d m : sending addr buf n k s -> same_transfer (at_bus s) (bus_of (b := b) d) ->
  sending addr buf n k (s <| io_dev := d |> <| io_ram := m |>).
Proof. intros [] (H1 & H2 & H3 & H4 & H5). constructor; cbn; congruence. Qed.

(** Reading the status during a write. *)
Lemma rd_status addr buf n k s : sending addr buf n k s -> returns (rd (b + BSCRegs.S)) s (fun v s' => sending addr buf n k s' /\
  (has v S_DONE = true -> has v S_ERR = false -> has v S_CLKT = false -> length (take k buf) = n /\ bus_ready (at_bus s') = true)).
Proof.
  intros Hs. unfold returns, rd. destruct (io_read _ _) as [v [d m]] eqn:Hr. destruct (bus_status _ _ _ _ _ Hr) as [Hk Hd].
  split; [by apply sending_kept|]. destruct Hs. intros H1 H2 H3. destruct (Hd sg_writing0 sg_fresh0 H1 H2 H3) as [Hl Hrdy].
  rewrite sg_sent0, sg_len0 in Hl. split; [lia|exact Hrdy].
Qed.

Lemma spin_status addr buf n k (test : Z -> bool) (count : nat) : forall s, sending addr buf n k s ->
  returns (spin_while (b + BSCRegs.S) test count) s (fun _ s' => sending addr buf n k s').
Proof.
  induction count as [|count IH]; intros s Hs; cbn [spin_while]; step; (eapply returns_mono; [by apply rd_status|]);
    intros v s' [Hs' _]; destruct (test v); try by apply returns_ret. by apply IH.
Qed.

Lemma write_loop_sends (addr : Z) (buf : list Z) (n : nat) (timeout : nat) : forall k s,
  (n <= length buf)%nat -> (k <= n)%nat -> sending addr buf n k s ->
  returns (write_loop b timeout (drop k buf) (n - k)) s (fun _ s' => exists j, (j <= n)%nat /\ sending addr buf n j s').
Proof.
  induction timeout as [|timeout IH]; intros k s Hn Hk Hs; (destruct (n - k)%nat as [|todo] eqn:Ht; cbn [write_loop]; [step; by exists k|]).
  { step. by exists k. }
  step. eapply returns_mono; [by apply rd_status|]. intros v s' [Hs' _]. destruct (has v _); [step; by exists k|].
  destruct (has v S_TXD).
  - destruct (lookup_lt_is_Some_2 buf k ltac:(lia)) as [x Hx]. rewrite (drop_S _ _ _ Hx). cbn [head tail deref hd_error]. do 2 step. step.
    unfold returns at 1, wr. destruct (io_write _ _ _) as [d m] eqn:Hw. apply bus_fifo in Hw; [|apply Hs']. destruct Hw as (H1 & H2 & H3 & H4 & H5). cbn in H1, H2, H3, H4, H5.
    replace todo with (n - S k)%nat by lia. apply IH; [done|lia|]. destruct Hs'. constructor; cbn; [congruence| |congruence..].
    rewrite H5, sg_sent0. symmetry. by apply take_S_r.
  - rewrite <- Ht. by apply IH.
Qed.

Lemma transfer_end_sent addr buf n k channel s : sending addr buf n k s -> (n <= length buf)%nat -> (k <= n)%nat ->
  returns (transfer_end channel b) s (fun r s' => r ∈ [E_OK; E_TIMED_OUT; E_DATA] /\ (r = E_OK -> delivered addr buf n s')).
Proof.
  intros Hs Hn Hk. unfold transfer_end. step. eapply returns_mono; [by apply spin_status|]. intros left s1 H1. cbv beta in *.
  step. eapply returns_mono; [by apply rd_status|]. intros v s2 [H2 Hd]. unfold set_vars. do 2 step.
  assert (forall s r, r ∈ [E_TIMED_OUT] -> returns (wr (b + BSCRegs.C) 0;; mret r) s
    (fun r s' => r ∈ [E_OK; E_TIMED_OUT; E_DATA] /\ (r = E_OK -> delivered addr buf n s'))) as Hoff.
  { intros s' r Hr. apply list_elem_of_singleton in Hr as ->. step. unfold returns at 1, wr. destruct (io_write _ _ _) as [d m]. step. split; [set_solver|done]. }
  destruct (has v S_CLKT) eqn:Hclkt; [apply Hoff; set_solver|]. destruct (has v S_ERR) eqn:Herr; [step; split; [set_solver|done]|].
  destruct (has v S_DONE) eqn:Hdone; cbn [negb]; [|apply Hoff; set_solver]. step. split; [set_solver|]. intros _.
  destruct (Hd eq_refl eq_refl eq_refl) as [Hl Hrdy]. rewrite length_take in Hl. destruct H2. unfold delivered. cbn [io_dev field_update].
  split_and!; [done| |exact Hrdy]. rewrite sg_sent0. by replace k with n by lia.
Qed.

Lemma i2c_write_spec (channel addr : Z) (buf : list Z) (len : Z) s :
  i2c_channel_regs channel = Some b -> is_Some (s_i2c_configs (io_vars s) channel) -> 0 < len <= Z.of_nat (length buf) ->
  bus_ready (at_bus s) = true ->
  returns (i2c_channel_write channel addr buf len) s (fun r s' =>
    r ∈ [E_OK; E_TIMED_OUT; E_DATA] /\ (r = E_OK -> delivered addr buf (Z.to_nat len) s')).
Proof.
  intros Hb [c Hc] Hl Hready. unfold i2c_channel_write. rewrite (proj2 (Z.eqb_neq _ _)) by lia.
  assert (config_of channel s = Ret (Some c) s) as Hcfg.
  { unfold config_of. unfold i2c_channel_regs in Hb. destruct (I2C_NUM_CHANNELS <=? channel); [done|]. unfold var, gets. by rewrite Hc. }
  step. unfold returns at 1. rewrite Hcfg, Hb.
  step. unfold returns at 1, wr. destruct (io_write (b + BSCRegs.S) _ _) as [d1 m1] eqn:Hw1. apply bus_clear in Hw1 as [Hr1 Hl1]; [|done..].
  step. unfold returns at 1, wr. destruct (io_write (b + BSCRegs.A) _ _) as [d2 m2] eqn:Hw2. cbn [io_dev io_ram field_update] in Hw2.
  apply bus_set_addr in Hw2 as (Hr2 & Hl2 & Ha2); [|done].
  step. unfold returns at 1, wr. destruct (io_write (b + BSCRegs.DLEN) _ _) as [d3 m3] eqn:Hw3. cbn [io_dev io_ram field_update] in Hw3.
  apply bus_set_len in Hw3 as (Hr3 & Hl3 & Ha3 & Hn3); [|done].
  step. unfold returns at 1, wr. destruct (io_write (b + BSCRegs.C) _ _) as [d4 m4] eqn:Hw4. cbn [io_dev io_ram field_update] in Hw4.
  apply bus_start in Hw4 as (H1 & H2 & H3 & H4 & H5); [|done..].
  cbn in H1, H2, H3, H4, H5. step.
  pose proof (write_loop_sends addr buf (Z.to_nat len) (Z.to_nat 1000000) 0) as Hloop. rewrite drop_0, Nat.sub_0_r in Hloop.
  eapply returns_mono; [apply Hloop; [lia|lia|]; constructor; cbn; [congruence|done|lia|done|congruence]|].
  cbv beta. intros u s3 (k & Hk & Hs3). apply (transfer_end_sent addr buf _ k); [done|lia|done].
Qed.

(** A write that reports success has delivered its bytes.  On a configured
    channel whose controller is ready, and whatever the controller answers, a
    write comes back, with E_OK, E_TIMED_OUT or E_DATA; and after E_OK the
    controller has been given the address and exactly the first [len] bytes of
    the buffer, in order, since the START, and is ready again.  A DONE left by
    an earlier transfer is not taken for this one's, since it is cleared
    before the START. *)
Theorem i2c_write_delivers (channel addr : Z) (buf : list Z) (len : Z) s :
  i2c_channel_regs channel = Some b -> is_Some (s_i2c_configs (io_vars s) channel) -> 0 < len <= Z.of_nat (length buf) ->
  bus_ready (at_bus s) = true ->
  returns (i2c_channel_write channel addr buf len) s (fun r s' =>
    r ∈ [E_OK; E_TIMED_OUT; E_DATA] /\ (r = E_OK -> delivered addr buf (Z.to_nat len) s')).
Proof. apply i2c_write_spec. Qed.
End delivery.

(** ** Examples *)

(** A controller that takes every byte at once, and whose DONE is a latch. *)
Record quick_bus := mkQuickBus { qb_bus : bus }.
Definition qb_complete (x : bus) : bool := bus_writing x && (Z.of_nat (length (bus_sent x)) =? bus_len x).
Definition qb_done (x : bus) : bool := if bus_writing x then bus_stale x || qb_complete x else bus_latched x.
Definition qb_write (r v : Z) (x : bus) : bus :=
  if r =? I2C1_BASE + BSCRegs.S then if has v S_DONE then x <| bus_latched := false |> <| bus_writing := false |> else x
  else if r =? I2C1_BASE + BSCRegs.A then x <| bus_addr := v |>
  else if r =? I2C1_BASE + BSCRegs.DLEN then x <| bus_len := v |>
  else if r =? I2C1_BASE + BSCRegs.C then
    if has v C_ST then mkBus false (bus_latched x) (bus_addr x) (bus_len x) (negb (has v C_READ)) (bus_latched x) [] else x
  else if r =? I2C1_BASE + BSCRegs.FIFO then x <| bus_sent ::= fun l => l ++ [v] |>
  else x.
#[export] Instance quick_mmio : Mmio quick_bus := {
  io_read := fun r st =>
    let x := qb_bus st.1 in
    if r =? I2C1_BASE + BSCRegs.S then
      (Z.lor S_TXD (if qb_done x then S_DONE else 0),
       (mkQuickBus (x <| bus_latched := qb_done x |> <| bus_ready := bus_ready x || qb_complete x |>), st.2))
    else (0, st);
  io_write := fun r v st => (mkQuickBus (qb_write r v (qb_bus st.1)), st.2)
}.

#[local] Obligation Tactic := idtac.
#[export] Program Instance quick_laws : BscBus quick_bus I2C1_BASE := { bus_of := qb_bus }.
Next Obligation.
  intros [x] m v d' m' He. cbn in He. injection He as <- <- _. split; [by split_and!|]. cbn. unfold qb_done. intros -> ->. cbn.
  intros Hd _ _. unfold qb_complete in *. destruct (bus_writing x && _) eqn:Hc in Hd |- *; [|discriminate Hd].
  apply andb_true_iff in Hc as [_ Hc%Z.eqb_eq]. split; [done|]. by rewrite orb_true_r.
Qed.
Next Obligation. intros v [x] m d' m' He Hr Hv. cbn in He. injection He as <- _. cbn. unfold qb_write. rewrite Z.eqb_refl, Hv. by split. Qed.
Next Obligation. intros v [x] m d' m' He Hr. injection He as <- _. by split_and!. Qed.
Next Obligation. intros v [x] m d' m' He Hr. injection He as <- _. by split_and!. Qed.
Next Obligation.
  intros v [x] m d' m' He Hr _ Hst Hrd. injection He as <- _. unfold qb_write. cbn -[has]. rewrite Hst, Hrd. by split_and!.
Qed.
Next Obligation. intros v [x] m d' m' He Hw. injection He as <- _. by split_and!. Qed.

Definition qb_idle : quick_bus := mkQuickBus (mkBus true true 0 0 false false []).
Definition demo_config : I2cConfig := mkI2cConfig 2 3 GPIO_FUNC_ALT0 I2C_BAUDRATE_FAST_400K.
Definition demo_i2c {D} (d : D) : io D I2cVars := mkIo d (fun _ => 0) (i2c_vars_initial <| s_i2c_configs ::= fun f => <[1 := Some demo_config]> f |>) [] 0 0.

Lemma i2c_divisor_correct_witness : i2c_divisor 500000000 400000 = 1250 /\ 500000000 <= 400000 * i2c_divisor 500000000 400000.
Proof.
  split; [by vm_compute|]. destruct (i2c_divisor_correct 500000000 400000) as (_ & _ & H & _); [done|by right|done|]. apply H. done.
Defined.

Lemma quick_write_ok : answers (i2c_channel_write 1 0x47 [0xFE; 30] 2) (demo_i2c qb_idle) is_ok = true.
Proof. lazy. reflexivity. Qed.

Lemma i2c_write_delivers_witness : returns (i2c_channel_write 1 0x47 [0xFE; 30] 2) (demo_i2c qb_idle)
  (fun _ s' => bus_addr (qb_bus (io_dev s')) = 0x47 /\ bus_sent (qb_bus (io_dev s')) = [0xFE; 30]).
Proof.
  pose proof (i2c_write_delivers I2C1_BASE 1 0x47 [0xFE; 30] 2 (demo_i2c qb_idle) eq_refl ltac:(by eexists) ltac:(done) eq_refl) as H.
  eapply returns_mono; [exact (answers_returns _ _ _ _ H quick_write_ok)|]. cbv beta. intros r s' (Hr & _ & Hs).
  apply bool_decide_eq_true in Hr. destruct (Hs Hr) as (Ha & Hb & _). by split.
Defined.

(** A read may report success and have read nothing: if the status says DONE
    and never RXD, the poll runs out and DONE is taken for the outcome. *)
#[local] Instance done_mmio : Mmio unit := { io_read := fun _ st => (S_DONE, st); io_write := fun _ _ st => st }.

Lemma read_loop_starved (b : Z) (timeout todo : nat) (got : list Z) (s : io unit I2cVars) :
  read_loop b timeout got todo s = Ret got s.
Proof.
  induction timeout as [|timeout IH]; destruct todo as [|todo]; cbn [read_loop]; try done.
  exec. change (u32 S_DONE) with S_DONE. change (has S_DONE (Z.lor S_ERR S_CLKT)) with false. change (has S_DONE S_RXD) with false. cbv iota.
  rewrite <- IH at 1. by destruct s as [[] ? ? ? ? ?].
Qed.

Lemma transfer_end_done (channel b : Z) (s : io unit I2cVars) : returns (transfer_end channel b) s (fun r _ => r = E_OK).
Proof. destruct s as [[] m v c n k]. lazy. reflexivity. Qed.

Lemma i2c_read_short : returns (i2c_channel_read 1 0x47 1) (demo_i2c tt) (fun p _ => p = (E_OK, [])).
Proof.
  unfold i2c_channel_read. change (1 =? 0) with false. cbv iota. step. unfold returns at 1. 

  change (config_of 1 (demo_i2c tt)) with (Ret (S := io unit I2cVars) (Some demo_config) (demo_i2c tt)). cbn [i2c_channel_regs].
  do 4 (apply total_bind; [apply total_wr|intros [] ?]). change (Z.to_nat 1) with 1%nat. step. unfold returns at 1.
  rewrite read_loop_starved. step. eapply returns_mono; [apply transfer_end_done|]. cbv beta. intros r t ->. by step.
Qed.
