(* ===== verification/Pwm.v ===== *)
(** * The PWM controller (source/drivers/pwm_pca9685)

    A PCA9685 on an I2C bus: the driver's register writes, over the I2C driver.
    [task_delay_ms] is a parameter here (Scheduler models it: the caller is
    descheduled).  The [%s] argument of the failure message is the number of
    the step. *)

From Stdlib Require String.
From S2P Require Import Prelude Types Board Mmio Soc Gpio Dma I2c.

Definition PCA9685_MODE1 : Z := 0x00.
Definition PCA9685_MODE2 : Z := 0x01.
Definition PCA9685_PRE_SCALE : Z := 0xFE.
Definition PCA9685_LED0_ON_L : Z := 0x06.
Definition PCA9685_MODE1_RESTART : Z := Z.shiftl 1 7.
Definition PCA9685_MODE1_AI : Z := Z.shiftl 1 5.
Definition PCA9685_MODE1_SLEEP : Z := Z.shiftl 1 4.
Definition PCA9685_MODE2_OUTDRV : Z := Z.shiftl 1 2.
Definition PCA9685_LED_FULL_BIT : Z := Z.shiftl 1 4.
Definition PCA9685_NUM_CHANNELS : Z := 16.
Definition PCA9685_TICK_MAX : Z := 4096.
Definition PCA9685_OSC_CLOCK_HZ : Z := 25000000.
Definition PCA9685_FREQ_HZ_MIN : Z := 24.
Definition PCA9685_FREQ_HZ_MAX : Z := 1526.
Definition UINT32_MAX : Z := 2 ^ 32 - 1.

Record Pca9685Config := mkPca9685Config {
  pca_channel : Z;
  pca_i2c_addr : Z;
  pwm_freq_hz : Z
}.
Record PwmVars := mkPwmVars {
  pwm_i2c : I2cVars;
  s_config : option Pca9685Config
}.
#[export] Instance eta_PwmVars : Settable PwmVars := fun r => mkPwmVars (pwm_i2c r) (s_config r).

Module PwmMessages.
Import String.
Definition step_failed : string := "pwm_pca9685: init step '%s' failed: ret=%d S=0x%02X\r\n".
End PwmMessages.

(** PRE_SCALE for an update rate, and the 12-bit tick of a fraction. *)
Definition prescale_of (freq : Z) : Z :=
  let denom := u32 (PCA9685_TICK_MAX * freq) in
  let prescale := u32 (PCA9685_OSC_CLOCK_HZ + denom / 2) / denom in
  u8 (u32 (prescale - 1)).
Definition tick_of (fraction : Z) : Z := u16 (u64 (fraction * (PCA9685_TICK_MAX - 1)) / UINT32_MAX).
Definition led_reg (pwm_channel : Z) : Z := u8 (u32 (PCA9685_LED0_ON_L + 4 * pwm_channel)).

Section pwm.
Context {D : Type} `{Mmio D}.
Abbreviation G := (Io D PwmVars).
Variable task_delay_ms : Z -> G unit.

Definition on_i2c {A} (m : Io D I2cVars A) : G A := with_vars pwm_i2c (fun w v => v <| pwm_i2c := w |>) m.

Definition pca9685_write_reg (channel i2c_addr reg value : Z) : G StatusCode :=
  on_i2c (i2c_channel_write channel i2c_addr [reg; value] 2).

(** The value read, if any was stored. *)
Definition pca9685_read_reg (channel i2c_addr reg : Z) : G (StatusCode * option Z) :=
  ret ← on_i2c (i2c_channel_write channel i2c_addr [reg] 1);
  if decide (ret <> E_OK) then mret (ret, None) else
  p ← on_i2c (i2c_channel_read channel i2c_addr 1);
  mret (p.1, head p.2).

Definition pwm_pca9685_is_initialized : G StatusCode :=
  c ← var s_config; mret (match c with Some _ => E_OK | None => E_NOT_INITIALIZED end).

Definition pca9685_init_step_failed (channel step : Z) (ret : StatusCode) : G StatusCode :=
  st ← on_i2c (i2c_channel_last_status channel);
  print PwmMessages.step_failed [step; status_code ret; st];;
  mret ret.

(** [ret = m; if (ret != E_OK) return pca9685_init_step_failed(...);] *)
Definition init_step (channel step : Z) (m : G StatusCode) (rest : G StatusCode) : G StatusCode :=
  ret ← m;
  if decide (ret <> E_OK) then pca9685_init_step_failed channel step ret else rest.

Definition pwm_pca9685_init (config : option Pca9685Config) : G StatusCode :=
  match config with
  | None => mret E_INVALID_ARGS
  | Some config =>
      let freq := pwm_freq_hz config in
      if (freq <? PCA9685_FREQ_HZ_MIN) || (PCA9685_FREQ_HZ_MAX <? freq) then mret E_INVALID_ARGS else
      let channel := pca_channel config in
      let i2c_addr := pca_i2c_addr config in
      p ← pca9685_read_reg channel i2c_addr PCA9685_MODE1;
      init_step channel 0 (mret p.1) (
      mode1 ← deref p.2;
      let mode1_sleep := Z.lor (Z.land mode1 (u8 (bnot PCA9685_MODE1_RESTART))) PCA9685_MODE1_SLEEP in
      let awake := Z.land mode1_sleep (u8 (bnot PCA9685_MODE1_SLEEP)) in
      init_step channel 1 (pca9685_write_reg channel i2c_addr PCA9685_MODE1 mode1_sleep) (
      init_step channel 2 (pca9685_write_reg channel i2c_addr PCA9685_PRE_SCALE (prescale_of freq)) (
      init_step channel 3 (pca9685_write_reg channel i2c_addr PCA9685_MODE1 awake) (
      task_delay_ms 1;;
      init_step channel 4 (pca9685_write_reg channel i2c_addr PCA9685_MODE1
                             (Z.lor (Z.lor awake PCA9685_MODE1_RESTART) PCA9685_MODE1_AI)) (
      init_step channel 5 (pca9685_write_reg channel i2c_addr PCA9685_MODE2 PCA9685_MODE2_OUTDRV) (
      set_vars (fun v => v <| s_config := Some config |>);;
      mret E_OK))))))
  end.

(** [if (s_config == NULL) return ...; if (pwm_channel >= ...) return ...;] *)
Definition with_channel (pwm_channel : Z) (m : Pca9685Config -> G StatusCode) : G StatusCode :=
  c ← var s_config;
  match c with
  | None => mret E_NOT_INITIALIZED
  | Some c => if PCA9685_NUM_CHANNELS <=? pwm_channel then mret E_INVALID_ARGS else m c
  end.

Definition pwm_pca9685_set_channel_full_off (pwm_channel : Z) : G StatusCode :=
  with_channel pwm_channel (fun c =>
    let base := led_reg pwm_channel in
    ret ← pca9685_write_reg (pca_channel c) (pca_i2c_addr c) (u8 (base + 1)) 0x00;
    if decide (ret <> E_OK) then mret ret else
    pca9685_write_reg (pca_channel c) (pca_i2c_addr c) (u8 (base + 3)) PCA9685_LED_FULL_BIT).

Definition pwm_pca9685_set_channel_full_on (pwm_channel : Z) : G StatusCode :=
  with_channel pwm_channel (fun c =>
    let base := led_reg pwm_channel in
    ret ← pca9685_write_reg (pca_channel c) (pca_i2c_addr c) (u8 (base + 3)) 0x00;
    if decide (ret <> E_OK) then mret ret else
    pca9685_write_reg (pca_channel c) (pca_i2c_addr c) (u8 (base + 1)) PCA9685_LED_FULL_BIT).

Definition pwm_pca9685_deinit : G StatusCode :=
  c ← var s_config;
  match c with
  | None => mret E_NOT_INITIALIZED
  | Some c =>
      for_ (Z.to_nat PCA9685_NUM_CHANNELS) 0 (fun ch => pwm_pca9685_set_channel_full_off ch;; mret tt);;
      ret ← pca9685_write_reg (pca_channel c) (pca_i2c_addr c) PCA9685_MODE1 PCA9685_MODE1_SLEEP;
      set_vars (fun v => v <| s_config := None |>);;
      mret ret
  end.

(** The message that sets a channel's ticks. *)
Definition channel_message (pwm_channel delay duty_cycle : Z) : list Z :=
  let on_tick := tick_of delay in
  let off_tick := tick_of (u32 (delay + duty_cycle)) in
  [led_reg pwm_channel; u8 (Z.land on_tick 0xFF); u8 (Z.land (Z.shiftr on_tick 8) 0x0F);
   u8 (Z.land off_tick 0xFF); u8 (Z.land (Z.shiftr off_tick 8) 0x0F)].

Definition pwm_pca9685_set_channel (pwm_channel delay duty_cycle : Z) : G StatusCode :=
  with_channel pwm_channel (fun c =>
    if u32 (UINT32_MAX - delay) <? duty_cycle then mret E_INVALID_ARGS else
    on_i2c (i2c_channel_write (pca_channel c) (pca_i2c_addr c) (channel_message pwm_channel delay duty_cycle) 5)).
End pwm.

(** ** The numbers *)

(** The prescaler of every rate the driver accepts fits its register, and is
    the nearest there is. *)
Lemma prescale_correct (freq : Z) : PCA9685_FREQ_HZ_MIN <= freq <= PCA9685_FREQ_HZ_MAX ->
  let p := prescale_of freq in
  3 <= p <= 253 /\ Z.abs (2 * PCA9685_OSC_CLOCK_HZ - 2 * (PCA9685_TICK_MAX * freq) * (p + 1)) <= PCA9685_TICK_MAX * freq.
Proof.
  unfold PCA9685_FREQ_HZ_MIN, PCA9685_FREQ_HZ_MAX, prescale_of, PCA9685_TICK_MAX, PCA9685_OSC_CLOCK_HZ. intros Hf. cbv zeta.
  rewrite (wrap_small 32 (4096 * freq)) by lia. replace (4096 * freq / 2) with (2048 * freq) by dlia.
  rewrite (wrap_small 32 (25000000 + 2048 * freq)) by lia. set (q := (25000000 + 2048 * freq) / (4096 * freq)).
  assert (4096 * freq * q <= 25000000 + 2048 * freq < 4096 * freq * q + 4096 * freq) as Hq.
  { unfold q. pose proof (Z.div_mod (25000000 + 2048 * freq) (4096 * freq) ltac:(lia)).
    pose proof (Z.mod_pos_bound (25000000 + 2048 * freq) (4096 * freq) ltac:(lia)). lia. }
  clearbody q. assert (4 <= q <= 254) as Hr by nia. rewrite (wrap_small 32 (q - 1)) by lia.
  rewrite (wrap_small 8 (q - 1)) by lia. replace (q - 1 + 1) with q by lia. lia.
Qed.

Lemma tick_spec (f : Z) : 0 <= f <= UINT32_MAX -> tick_of f = f * 4095 / UINT32_MAX /\ 0 <= tick_of f <= 4095.
Proof.
  unfold tick_of, PCA9685_TICK_MAX, UINT32_MAX. intros Hf. rewrite (wrap_small 64) by lia.
  assert (0 <= f * (4096 - 1) / (2 ^ 32 - 1) <= 4095) as Hb.
  { split; [apply Z.div_pos; lia|]. apply Z.div_le_upper_bound; lia. }
  rewrite wrap_small by lia. done.
Qed.

(** The ticks of a message: ON is the phase and OFF the phase plus the width,
    as fractions of the 4095 ticks rounded down; ON is not after OFF. *)
Definition ticks (delay duty on off : Z) : Prop :=
  on = delay * 4095 / UINT32_MAX /\ off = (delay + duty) * 4095 / UINT32_MAX /\ 0 <= on <= off /\ off <= 4095.

Lemma channel_message_correct (pwm_channel delay duty : Z) :
  0 <= pwm_channel < PCA9685_NUM_CHANNELS -> 0 <= delay -> 0 <= duty -> delay + duty <= UINT32_MAX ->
  exists on off, ticks delay duty on off /\
    channel_message pwm_channel delay duty = [6 + 4 * pwm_channel; on mod 256; on / 256; off mod 256; off / 256].
Proof.
  intros Hc Hd Hw Hs. destruct (tick_spec delay ltac:(lia)) as [Ht1 Hr1]. destruct (tick_spec (delay + duty) ltac:(lia)) as [Ht2 Hr2].
  exists (tick_of delay), (tick_of (delay + duty)). split; [split_and!; [done|done|lia| |lia]|].
  - rewrite Ht1, Ht2. apply Z.div_le_mono; [done|lia].
  - unfold channel_message. cbv zeta. rewrite (wrap_small 32 (delay + duty)) by (unfold UINT32_MAX in Hs; lia).
    assert (forall t, 0 <= t <= 4095 -> u8 (Z.land t 0xFF) = t mod 256 /\ u8 (Z.land (Z.shiftr t 8) 0x0F) = t / 256) as Hb.
    { intros t Ht. change 0xFF with (Z.ones 8). change 0x0F with (Z.ones 4). rewrite !Z.land_ones, Z.shiftr_div_pow2 by lia.
      change (2 ^ 8) with 256. change (2 ^ 4) with 16. unfold wrap. change (2 ^ 8) with 256. dlia. }
    destruct (Hb _ Hr1) as [-> ->]. destruct (Hb _ Hr2) as [-> ->]. f_equal.
    unfold led_reg, PCA9685_LED0_ON_L, PCA9685_NUM_CHANNELS in *. rewrite (wrap_small 32), (wrap_small 8) by lia. done.
Qed.

Section set_channel.
Context {D : Type} `{!Mmio D} (b : Z) `{!BscBus D b}.
Implicit Types (s : io D PwmVars).

Abbreviation at_bus s := (bus_of (b := b) (io_dev s)).

(** A chip that was set up on a channel that is, and whose controller is
    ready. *)
Definition pwm_ready s (c : Pca9685Config) : Prop :=
  s_config (io_vars s) = Some c /\ i2c_channel_regs (pca_channel c) = Some b /\
  is_Some (s_i2c_configs (pwm_i2c (io_vars s)) (pca_channel c)) /\ bus_ready (at_bus s) = true.

(** The chip's address and the message are what the controller has been given. *)
Definition sent_to (c : Pca9685Config) (msg : list Z) s : Prop := bus_addr (at_bus s) = pca_i2c_addr c /\ bus_sent (at_bus s) = msg.

Lemma on_i2c_write (c : Pca9685Config) (buf : list Z) (len : Z) s : pwm_ready s c -> 0 < len <= Z.of_nat (length buf) ->
  returns (on_i2c (i2c_channel_write (pca_channel c) (pca_i2c_addr c) buf len)) s (fun r s' =>
    r ∈ [E_OK; E_TIMED_OUT; E_DATA] /\ (r = E_OK -> sent_to c (take (Z.to_nat len) buf) s')).
Proof.
  intros (_ & Hr & Hc & Hrdy) Hl. apply returns_zoom. eapply returns_mono; [by apply (i2c_write_spec b)|]. cbv beta.
  intros r s' [Ho Hs]. split; [done|]. intros Hr0. by destruct (Hs Hr0) as (? & ? & _).
Qed.

(** Setting a channel sends its ticks, or says why not.  A channel out of
    range, or a phase and width beyond a full period, is E_INVALID_ARGS and
    nothing is sent, so a pulse that wraps the period, which docs.md ("Full-on/off
    tick semantics") says the driver does not reject, cannot be asked for;
    otherwise E_OK means that the bus was given the chip's address and exactly
    the channel's register and the four bytes of its two 12-bit ticks: ON is the
    phase, OFF the phase plus the width, rounded down, ON not after OFF. *)
Theorem pwm_set_channel_correct (c : Pca9685Config) (ch delay duty : Z) s :
  pwm_ready s c -> 0 <= ch -> 0 <= delay <= UINT32_MAX -> 0 <= duty ->
  returns (pwm_pca9685_set_channel ch delay duty) s (fun r s' =>
    if decide (ch < PCA9685_NUM_CHANNELS /\ delay + duty <= UINT32_MAX)
    then r ∈ [E_OK; E_TIMED_OUT; E_DATA] /\ (r = E_OK -> exists on off, ticks delay duty on off /\
           sent_to c [6 + 4 * ch; on mod 256; on / 256; off mod 256; off / 256] s')
    else r = E_INVALID_ARGS /\ s' = s).
Proof.
  intros Hok Hch Hd Hw. pose proof Hok as (Hc & _). unfold pwm_pca9685_set_channel, with_channel, var. do 2 step. rewrite Hc.
  rewrite (wrap_small 32) by (unfold UINT32_MAX in *; lia).
  destruct (Z.leb_spec PCA9685_NUM_CHANNELS ch); [step; rewrite decide_False by lia; done|].
  destruct (Z.ltb_spec (UINT32_MAX - delay) duty); [step; rewrite decide_False by lia; done|].
  eapply returns_mono; [by apply (on_i2c_write c _ 5)|]. cbv beta. intros r s' [Hr Hs]. rewrite decide_True by lia. split; [done|].
  intros Hr0. destruct (channel_message_correct ch delay duty) as (on & off & Ht & Hm); [lia..|]. exists on, off. split; [done|].
  specialize (Hs Hr0). by rewrite Hm in Hs.
Qed.
End set_channel.

(** ** Example *)

Definition demo_pwm : io quick_bus PwmVars :=
  mkIo qb_idle (fun _ => 0)
    (mkPwmVars (i2c_vars_initial <| s_i2c_configs ::= fun f => <[1 := Some demo_config]> f |>) (Some (mkPca9685Config 1 0x47 50))) [] 0 0.

Lemma demo_pwm_ready : pwm_ready I2C1_BASE demo_pwm (mkPca9685Config 1 0x47 50).
Proof. split_and!; [done|done|by eexists|done]. Qed.

Lemma demo_set : answers (pwm_pca9685_set_channel 3 0 (2 ^ 31)) demo_pwm is_ok = true.
Proof. lazy. reflexivity. Qed.

Lemma pwm_set_channel_correct_witness : returns (pwm_pca9685_set_channel 3 0 (2 ^ 31)) demo_pwm (fun _ s' =>
  exists on off, ticks 0 (2 ^ 31) on off /\
  sent_to I2C1_BASE (mkPca9685Config 1 0x47 50) [18; on mod 256; on / 256; off mod 256; off / 256] s').
Proof.
  pose proof (pwm_set_channel_correct I2C1_BASE (mkPca9685Config 1 0x47 50) 3 0 (2 ^ 31) demo_pwm demo_pwm_ready ltac:(done) ltac:(done) ltac:(done)) as H.
  eapply returns_mono; [exact (answers_returns _ _ _ _ H demo_set)|]. cbv beta. intros r s' (Hr & Hs).
  assert (3 < PCA9685_NUM_CHANNELS /\ 0 + 2 ^ 31 <= UINT32_MAX) as Hc by (split; vm_compute; [done|discriminate]).
  rewrite (decide_True _ _ Hc) in Hs. destruct Hs as [_ Hs]. apply Hs. by apply bool_decide_eq_true in Hr.
Defined.
