(* ===== verification/Uart.v ===== *)
(** * The UARTs (source/drivers/uart/uart.c)

    Initialisation, blocking transmission and reception per channel, and (full
    mode) the ring buffer, its task and the interrupt handlers, over the device,
    the kernel and the interrupt table.  [uart_buf] is in RAM, where the DMA
    engine reads it: one word per byte, from [uart_buf_at] on.  A loop that
    waits for the hardware without a bound is followed for [patience] polls.
    The text printed is Printf's. *)

From Stdlib Require String.
From S2P Require Import Prelude Types Board Kernel Heap Task Semaphore Mmio Printf Soc Gpio Gic Dma.

Definition UART0_BASE : Z := 0xFE201000.
Definition UART2_BASE : Z := 0xFE201400.
Definition UART3_BASE : Z := 0xFE201600.
Definition UART4_BASE : Z := 0xFE201800.
Definition UART5_BASE : Z := 0xFE201A00.

Module PL011Regs.
Definition DR : Z := 0x00.
Definition FR : Z := 0x18.
Definition IBRD : Z := 0x24.
Definition FBRD : Z := 0x28.
Definition LCRH : Z := 0x2C.
Definition CR : Z := 0x30.
Definition IMSC : Z := 0x38.
Definition ICR : Z := 0x44.
Definition DMACR : Z := 0x48.
End PL011Regs.
Import PL011Regs.

Definition FR_TXFF : Z := Z.shiftl 1 5.
Definition FR_RXFE : Z := Z.shiftl 1 4.
Definition FR_BUSY : Z := Z.shiftl 1 3.
Definition LCRH_WLEN_8 : Z := Z.shiftl 3 5.
Definition LCRH_FEN : Z := Z.shiftl 1 4.
Definition CR_RXE : Z := Z.shiftl 1 9.
Definition CR_TXE : Z := Z.shiftl 1 8.
Definition CR_UARTEN : Z := Z.shiftl 1 0.
Definition IMSC_RXIM : Z := Z.shiftl 1 4.
Definition IMSC_RTIM : Z := Z.shiftl 1 6.
Definition ICR_ALL : Z := 0x7FF.
Definition ICR_RXIC : Z := Z.shiftl 1 4.
Definition ICR_RTIC : Z := Z.shiftl 1 6.
Definition DMACR_TXDMAE : Z := Z.shiftl 1 1.
Definition UART_IRQ_INTID : Z := 153.
Definition UART_IBRD_115200 : Z := 26.
Definition UART_FBRD_115200 : Z := 3.
Definition UART_IBRD_921600 : Z := 3.
Definition UART_FBRD_921600 : Z := 16.
(** [UartBaudrate], whose values outside the enumeration the code rejects. *)
Definition UART_BAUDRATE_115200 : Z := 0.
Definition UART_BAUDRATE_921600 : Z := 1.
Definition UART_BUFFER_SIZE : Z := 2056.
Definition UART_PIN_NONE : Z := 0xFF.
Definition UART_CHANNEL_PRINT : Z := 0.
Definition UART_CHANNEL_TELEMETRY : Z := 5.
Definition UART_NUM_CHANNELS : Z := 6.

Inductive UartMode := UART_MODE_BLOCKING | UART_MODE_BUFFERED_TASK.
#[export] Instance UartMode_eq_dec : EqDecision UartMode.
Proof. solve_decision. Defined.

Record UartConfig := mkUartConfig {
  tx_pin : Z;
  rx_pin : Z;
  uart_alt_func : GPIOFunc;
  uart_baudrate : Z;
  uart_mode : UartMode;
  is_dma_enabled : bool;
  dma_channel : Z;
  task_stack_words : Z;
  task_priority : Z
}.

Record UartVars := mkUartVars {
  s_uart_configs : Z -> option UartConfig;
  s_buffered_channel : Z;
  uart_task_started : bool;
  p_uart_buf_left : Z;
  p_uart_buf_right : Z;
  uart_rx_handler : option Z;
  uart_tcb : option tcb
}.
#[export] Instance eta_UartVars : Settable UartVars :=
  fun r => mkUartVars (s_uart_configs r) (s_buffered_channel r) (uart_task_started r) (p_uart_buf_left r) (p_uart_buf_right r)
             (uart_rx_handler r) (uart_tcb r).
Definition uart_vars_initial : UartVars := mkUartVars (fun _ => None) UART_NUM_CHANNELS false 0 0 None None.

(** [uart_hw_table]: the registers of a channel and its interrupt. *)
Definition uart_hw_table (channel : Z) : option (Z * Z) :=
  if channel =? 0 then Some (UART0_BASE, UART_IRQ_INTID) else if channel =? 2 then Some (UART2_BASE, 0) else
  if channel =? 3 then Some (UART3_BASE, 0) else if channel =? 4 then Some (UART4_BASE, 0) else
  if channel =? 5 then Some (UART5_BASE, 0) else None.

Definition uart_channel_regs (channel : Z) : option Z :=
  if UART_NUM_CHANNELS <=? channel then None else option_map fst (uart_hw_table channel).

Definition uart_baud_divisors (baudrate : Z) : option (Z * Z) :=
  if baudrate =? UART_BAUDRATE_115200 then Some (UART_IBRD_115200, UART_FBRD_115200)
  else if baudrate =? UART_BAUDRATE_921600 then Some (UART_IBRD_921600, UART_FBRD_921600) else None.

(** ** What needs only the device *)

Section blocking.
Context {D : Type} `{Mmio D}.
Abbreviation G := (Io D UartVars).
Variable patience : nat.

Definition uart_channel_init (channel : Z) (config : option UartConfig) : G StatusCode :=
  match config, uart_channel_regs channel with
  | None, _ => mret E_INVALID_ARGS
  | Some _, None => mret E_NOTSUPP
  | Some c, Some regs =>
      when (negb (tx_pin c =? UART_PIN_NONE))
        (gpio_set_function (tx_pin c) (uart_alt_func c);; gpio_set_pull (tx_pin c) GPIO_PULL_NONE);;
      when (negb (rx_pin c =? UART_PIN_NONE))
        (gpio_set_function (rx_pin c) (uart_alt_func c);; gpio_set_pull (rx_pin c) GPIO_PULL_NONE);;
      rmw (regs + CR) (fun v => Z.land v (bnot 1));;
      timeout ← spin_while (regs + FR) (fun v => has v FR_BUSY) (Z.to_nat 10000);
      if decide (timeout = O) then mret E_TIMED_OUT else
      rmw (regs + LCRH) (fun v => Z.land v (bnot LCRH_FEN));;
      wr (regs + ICR) ICR_ALL;;
      match uart_baud_divisors (uart_baudrate c) with
      | None => mret E_INVALID_ARGS
      | Some (ibrd, fbrd) =>
          wr (regs + IBRD) ibrd;;
          wr (regs + FBRD) fbrd;;
          wr (regs + LCRH) (Z.lor LCRH_WLEN_8 LCRH_FEN);;
          wr (regs + CR) (Z.lor (Z.lor CR_UARTEN CR_TXE) (if negb (rx_pin c =? UART_PIN_NONE) then CR_RXE else 0));;
          set_vars (fun v => if channel =? s_buffered_channel v then v <| uart_task_started := false |> else v);;
          set_vars (fun v => v <| s_uart_configs ::= fun f => <[channel := Some c]> f |>);;
          mret E_OK
      end
  end.
Definition uart_init (config : option UartConfig) : G StatusCode := uart_channel_init UART_CHANNEL_PRINT config.

Definition uart_channel_tx_raw (channel byte : Z) : G unit :=
  match uart_channel_regs channel with
  | None => mret tt
  | Some regs => wait_while patience (regs + FR) (fun v => has v FR_TXFF);; wr (regs + DR) byte
  end.
Definition uart_tx_raw (byte : Z) : G unit := uart_channel_tx_raw UART_CHANNEL_PRINT byte.

Definition uart_channel_rx (channel : Z) : G Z :=
  match uart_channel_regs channel with
  | None => mret 0
  | Some regs =>
      wait_while patience (regs + FR) (fun v => has v FR_RXFE);;
      v ← rd (regs + DR);
      mret (u8 (Z.land v 0xFF))
  end.
Definition uart_rx : G Z := uart_channel_rx UART_CHANNEL_PRINT.

Definition uart_channel_rx_nonblocking (channel : Z) : G (StatusCode * option Z) :=
  match uart_channel_regs channel with
  | None => mret (E_NOTSUPP, None)
  | Some regs =>
      f ← rd (regs + FR);
      if has f FR_RXFE then mret (E_EMPTY, None) else
      v ← rd (regs + DR);
      mret (E_OK, Some (u8 (Z.land v 0xFF)))
  end.
Definition uart_rx_nonblocking : G (StatusCode * option Z) := uart_channel_rx_nonblocking UART_CHANNEL_PRINT.

(** [true]: a byte came; [false]: the time was up. *)
Fixpoint rx_poll `{!Cp15 D} (turns : nat) (regs start ticks : Z) : G bool :=
  match turns with
  | O => stop NoFuel
  | S turns' =>
      f ← rd (regs + FR);
      if has f FR_RXFE then
        now ← mrc CNTPCT;
        if ticks <=? u64 (now - start) then mret false else rx_poll turns' regs start ticks
      else mret true
  end.

Definition uart_channel_rx_timed `{!Cp15 D} (channel timeout_ms : Z) : G (StatusCode * option Z) :=
  match uart_channel_regs channel with
  | None => mret (E_NOTSUPP, None)
  | Some regs =>
      frq ← mrc CNTFRQ;
      start ← mrc CNTPCT;
      came ← rx_poll patience regs start (u64 (frq / 1000 * timeout_ms));
      if negb came then mret (E_TIMED_OUT, None) else
      v ← rd (regs + DR);
      mret (E_OK, Some (u8 (Z.land v 0xFF)))
  end.
Definition uart_rx_timed `{!Cp15 D} (timeout_ms : Z) : G (StatusCode * option Z) := uart_channel_rx_timed UART_CHANNEL_PRINT timeout_ms.

Definition uart_channel_drain (channel : Z) : G unit :=
  match uart_channel_regs channel with
  | None => mret tt
  | Some regs => wait_while patience (regs + FR) (fun v => has v FR_BUSY)
  end.
Definition uart_drain : G unit := uart_channel_drain UART_CHANNEL_PRINT.

(** [s_uart_configs[channel]] *)
Definition uart_config (channel : Z) : G (option UartConfig) :=
  if UART_NUM_CHANNELS <=? channel then stop Fault else var (fun v => s_uart_configs v channel).

Definition uart_channel_deinit (channel : Z) : G unit :=
  match uart_channel_regs channel with
  | None => mret tt
  | Some regs =>
      uart_channel_drain channel;;
      rmw (regs + CR) (fun v => Z.land v (bnot (Z.lor (Z.lor CR_UARTEN CR_TXE) CR_RXE)));;
      rmw (regs + LCRH) (fun v => Z.land v (bnot LCRH_FEN));;
      wr (regs + IMSC) 0;;
      wr (regs + ICR) ICR_ALL;;
      config ← uart_config channel;
      match config with
      | None => mret tt
      | Some c =>
          gpio_set_function (tx_pin c) GPIO_FUNC_INPUT;;
          when (negb (rx_pin c =? UART_PIN_NONE)) (gpio_set_function (rx_pin c) GPIO_FUNC_INPUT)
      end
  end.
Definition uart_deinit : G unit := uart_channel_deinit UART_CHANNEL_PRINT.

(** The report of a fault: straight to the wire. *)
Definition fault_report (kind pc addr status : Z) : G unit := uart_fault_report uart_tx_raw kind pc addr status.
End blocking.

(** The bootloader's build has no ring buffer. *)
Module MINIMAL.
Section minimal.
Context {D : Type} `{Mmio D}.
Variable patience : nat.
Fixpoint uart_channel_print (channel : Z) (str : list Z) : Io D UartVars unit :=
  match str with
  | [] => mret tt
  | c :: str' => uart_channel_tx_raw patience channel c;; uart_channel_print channel str'
  end.
Definition uart_channel_printf (channel : Z) (fmt : list Z) (args : list arg) : Io D UartVars unit :=
  uart_vprintf (uart_channel_print channel) fmt args.
End minimal.
End MINIMAL.

(** ** Full mode *)

Module UartMessages.
Import String.
Definition data_ready : list Z := chars "uart_data_ready".
Definition dma_done : list Z := chars "uart_dma_done".
Definition tx_name : list Z := chars "uart_tx".
End UartMessages.

Record sys (D : Type) := mkSys { y_io : io D UartVars; y_irqs : irqs }.
Arguments mkSys {D}. Arguments y_io {D}. Arguments y_irqs {D}.

Section full.
Context {D : Type} `{Mmio D}.
Abbreviation Y := (M (sys D)).
Variable patience : nat.
Variables (uart_buf_at uart_tx_cb : Z).                        (* uart_buf, uart_tx_cb *)
Variables (uart_data_ready uart_dma_done : semref).
(** The addresses of the handlers, of the task and of task.c's exit trap. *)
Variables (dma_irq_handler rx_irq_handler tx_task trap : Z).
(** The weak hook, and calling an application's handler. *)
Variable dfu_trigger_feed_isr : Z -> Y unit.
Variable call_rx_handler : Z -> Z -> Y unit.
Variable me : Z.

Definition on_io {A} (m : Io D UartVars A) : Y A := zoom y_io (fun t s => mkSys t (y_irqs s)) m.
Definition on_irqs {A} (m : M irqs A) : Y A := zoom y_irqs (fun t s => mkSys (y_io s) t) m.
Definition on_k {A} (m : K A) : Y A := on_irqs (zoom fst (fun k s => (k, s.2)) m).
Definition uvar {A} (f : UartVars -> A) : Y A := on_io (var f).

Definition regs_of (channel : Z) : Y Z :=
  if UART_NUM_CHANNELS <=? channel then stop Fault else p ← deref (uart_hw_table channel); mret p.1.
Definition the_config (channel : Z) : Y UartConfig := c ← on_io (uart_config channel); deref c.

Definition uart_dma_tx_run (channel buf len : Z) : Y unit :=
  c ← on_io (uart_config channel);
  regs ← regs_of channel;
  on_io (store_cb uart_tx_cb (mkDmaControlBlock
    (Z.lor (Z.lor (Z.lor (Z.lor DMA_TI_INTEN DMA_TI_WAIT_RESP) DMA_TI_DEST_DREQ) DMA_TI_SRC_INC) (DMA_TI_PERMAP DMA_DREQ_UART_TX))
    (BUS_ADDRESS buf) (PERIPHERAL_BUS_ADDRESS (regs + DR)) (u32 (len * 4)) 0 0));;
  c ← deref c;
  on_io (dma_start (dma_channel c) uart_tx_cb).

Definition uart_dma_irq_handler : Y unit :=
  channel ← uvar s_buffered_channel;
  c ← the_config channel;
  on_io (wr (CS (DMA_CHANNEL (dma_channel c))) DMA_CS_INT;; dsb);;
  on_k (semaphore_give me uart_dma_done);;
  mret tt.

Definition uart_rx_irq_enable (handler : option Z) : Y unit := on_io (set_vars (fun v => v <| uart_rx_handler := handler |>)).

Fixpoint rx_irq_loop (turns : nat) (regs : Z) : Y unit :=
  match turns with
  | O => stop Hang
  | S turns' =>
      f ← on_io (rd (regs + FR));
      if has f FR_RXFE then mret tt else
      v ← on_io (rd (regs + DR));
      let b := u8 (Z.land v 0xFF) in
      dfu_trigger_feed_isr b;;
      h ← uvar uart_rx_handler;
      match h with Some f => call_rx_handler f b | None => mret tt end;;
      rx_irq_loop turns' regs
  end.
Definition uart_rx_irq_handler : Y unit :=
  channel ← uvar s_buffered_channel;
  regs ← regs_of channel;
  rx_irq_loop patience regs;;
  on_io (wr (regs + ICR) (Z.lor ICR_RXIC ICR_RTIC)).

(** *** The transmit task

    Its endless loop waits for [uart_data_ready] and then empties the buffer.
    Without DMA that is [tx_drain].  With DMA each round ends in a wait for
    [uart_dma_done]: [tx_dma_round] is the round up to it (the run it started,
    or [None] if the buffer is empty), [tx_dma_advance] what follows. *)

Fixpoint tx_drain (turns : nat) (channel : Z) : Y unit :=
  match turns with
  | O => stop NoFuel
  | S turns' =>
      right ← uvar p_uart_buf_right;
      left ← uvar p_uart_buf_left;
      if right =? left then mret tt else
      let left' := (left + 1) mod UART_BUFFER_SIZE in
      on_io (set_vars (fun v => v <| p_uart_buf_left := left' |>));;
      w ← on_io (load32 (uart_buf_at + 4 * left'));
      on_io (uart_channel_tx_raw patience channel (u8 w));;
      tx_drain turns' channel
  end.

Definition tx_dma_round (channel : Z) : Y (option (Z * Z)) :=
  right ← uvar p_uart_buf_right;
  left ← uvar p_uart_buf_left;
  if right =? left then mret None else
  let start := (left + 1) mod UART_BUFFER_SIZE in
  let avail := u16 (Z.rem (right - left + UART_BUFFER_SIZE) UART_BUFFER_SIZE) in
  let run := if UART_BUFFER_SIZE <? start + avail then u16 (UART_BUFFER_SIZE - start) else avail in
  uart_dma_tx_run channel (uart_buf_at + 4 * start) run;;
  mret (Some (left, run)).
Definition tx_dma_advance (left run : Z) : Y unit :=
  on_io (set_vars (fun v => v <| p_uart_buf_left := (left + run) mod UART_BUFFER_SIZE |>)).

Definition uart_channel_task_start (channel : Z) : Y StatusCode :=
  if UART_NUM_CHANNELS <=? channel then mret E_NOT_INITIALIZED else
  cfg ← uvar (fun v => s_uart_configs v channel);
  match cfg with
  | None => mret E_NOT_INITIALIZED
  | Some c =>
      if decide (uart_mode c <> UART_MODE_BUFFERED_TASK) then mret E_INVALID_ARGS else
      started ← uvar uart_task_started;
      buffered ← uvar s_buffered_channel;
      if started && negb (buffered =? channel) then mret E_RESOURCE_EXHAUSTED else
      let intid := default 0 (option_map snd (uart_hw_table channel)) in
      if negb (rx_pin c =? UART_PIN_NONE) && (intid =? 0) then mret E_NOTSUPP else
      on_io (set_vars (fun v => v <| s_buffered_channel := channel |>));;
      on_k (semaphore_init uart_data_ready 1 0 (Some UartMessages.data_ready));;
      when (is_dma_enabled c) (
        on_k (semaphore_init uart_dma_done 1 0 (Some UartMessages.dma_done));;
        regs ← regs_of channel;
        on_io (wr (regs + DMACR) DMACR_TXDMAE);;
        on_io (dma_channel_init (dma_channel c));;
        on_irqs (irq_register me (DMA_IRQ_INTID (dma_channel c)) (Some dma_irq_handler));;
        on_io (gic_enable_spi (DMA_IRQ_INTID (dma_channel c)) 0x80));;
      when (negb (rx_pin c =? UART_PIN_NONE)) (
        regs ← regs_of channel;
        on_io (wr (regs + ICR) ICR_ALL);;
        on_io (rmw (regs + IMSC) (fun v => Z.lor v (Z.lor IMSC_RXIM IMSC_RTIM)));;
        on_irqs (irq_register me intid (Some rx_irq_handler));;
        on_io (gic_enable_spi intid 0x80));;
      p ← on_k (task_create trap me tx_task (task_stack_words c) (task_priority c) 0 (Some UartMessages.tx_name));
      when (bool_decide (p.2 <> None)) (on_io (set_vars (fun v => v <| uart_tcb := p.2 |>)));;
      when (bool_decide (p.1 = E_OK)) (on_io (set_vars (fun v => v <| uart_task_started := true |>)));;
      mret p.1
  end.
Definition uart_task_start : Y StatusCode := uart_channel_task_start UART_CHANNEL_PRINT.

(** *** Sending *)

Definition uart_channel_tx (channel byte : Z) : Y unit :=
  started ← uvar uart_task_started;
  buffered ← uvar s_buffered_channel;
  if negb started || negb (channel =? buffered) then on_io (uart_channel_tx_raw patience channel byte) else
  right ← uvar p_uart_buf_right;
  left ← uvar p_uart_buf_left;
  let next := (right + 1) mod UART_BUFFER_SIZE in
  if next =? left then mret tt else
  on_io (store32 (uart_buf_at + 4 * next) byte);;
  on_io (set_vars (fun v => v <| p_uart_buf_right := next |>)).

Fixpoint tx_str (channel : Z) (str : list Z) : Y unit :=
  match str with
  | [] => mret tt
  | c :: str' => uart_channel_tx channel c;; tx_str channel str'
  end.
Fixpoint raw_str (channel : Z) (str : list Z) : Y unit :=
  match str with
  | [] => mret tt
  | c :: str' => on_io (uart_channel_tx_raw patience channel c);; raw_str channel str'
  end.

(** The critical section both senders put around the buffer. *)
Definition with_buffer (m : Y unit) : Y unit :=
  cpsr ← on_k (enter_critical me);
  on_k (spinlock_acquire LkUartBuf);;
  m;;
  on_k (spinlock_release LkUartBuf);;
  on_k (exit_critical me cpsr);;
  on_k (semaphore_give me uart_data_ready);;
  mret tt.

Definition uart_channel_send_byte (channel byte : Z) : Y unit :=
  started ← uvar uart_task_started;
  buffered ← uvar s_buffered_channel;
  if started && (channel =? buffered) then with_buffer (uart_channel_tx channel byte)
  else on_io (uart_channel_tx_raw patience channel byte).
Definition uart_send_byte (byte : Z) : Y unit := uart_channel_send_byte UART_CHANNEL_PRINT byte.

Definition uart_channel_print (channel : Z) (str : list Z) : Y unit :=
  started ← uvar uart_task_started;
  buffered ← uvar s_buffered_channel;
  if started && (channel =? buffered) then with_buffer (tx_str channel str) else raw_str channel str.
Definition uart_print (str : list Z) : Y unit := uart_channel_print UART_CHANNEL_PRINT str.

Definition uart_channel_printf (channel : Z) (fmt : list Z) (args : list arg) : Y unit :=
  uart_vprintf (uart_channel_print channel) fmt args.
Definition uart_printf (fmt : list Z) (args : list arg) : Y unit := uart_vprintf (uart_channel_print UART_CHANNEL_PRINT) fmt args.
End full.
