(* ===== verification/UartThm.v ===== *)
(** * What is printed is what is sent

    The ring buffer between the senders and the transmit task is a bounded
    queue: a sender appends, dropping what does not fit; the task takes the
    bytes out in order and puts them on the wire, one by one or in DMA runs. *)

From S2P Require Import Prelude Types Dll Board Kernel Invariant Scheduler Task SchedulerThm Semaphore Mmio Printf Soc Gpio Gic Dma Uart.
Import PL011Regs.

(** ** The ring as a queue *)

Section ring.
Context {D : Type} `{Mmio D}.
Variable uart_buf_at : Z.
Implicit Types (s : sys D) (v : UartVars).

Abbreviation vars s := (io_vars (y_io s)).
Abbreviation ram_of s := (io_ram (y_io s)).

Definition ring_len v : Z := (p_uart_buf_right v - p_uart_buf_left v) mod UART_BUFFER_SIZE.
(** The index of the [i]-th waiting byte. *)
Definition ring_index v (i : Z) : Z := (p_uart_buf_left v + 1 + i) mod UART_BUFFER_SIZE.
Definition slot (i : Z) : Z := uart_buf_at + 4 * i.
Definition contents s : list Z := map (fun i => ram_word (ram_of s) (slot (ring_index (vars s) i))) (seqZ 0 (ring_len (vars s))).
Definition ring_ok v : Prop := 0 <= p_uart_buf_left v < UART_BUFFER_SIZE /\ 0 <= p_uart_buf_right v < UART_BUFFER_SIZE.
Definition RING_CAPACITY : Z := 2055.   (* UART_BUFFER_SIZE - 1 *)

Lemma ring_len_range v : 0 <= ring_len v <= RING_CAPACITY.
Proof. unfold ring_len, RING_CAPACITY, UART_BUFFER_SIZE. dlia. Qed.

Lemma length_contents s : Z.of_nat (length (contents s)) = ring_len (vars s).
Proof. unfold contents. rewrite length_fmap, length_seqZ. pose proof (ring_len_range (vars s)). lia. Qed.

(** A ring is empty when its indices agree, full when the next slot is the
    last one consumed. *)
Lemma ring_empty v : ring_ok v -> (p_uart_buf_right v =? p_uart_buf_left v) = (ring_len v =? 0).
Proof. unfold ring_ok, ring_len, UART_BUFFER_SIZE. intros Hok. destruct (Z.eqb_spec (p_uart_buf_right v) (p_uart_buf_left v)) as [->|]; dlia. Qed.

Lemma ring_full v : ring_ok v ->
  ((p_uart_buf_right v + 1) mod UART_BUFFER_SIZE =? p_uart_buf_left v) = (ring_len v =? RING_CAPACITY).
Proof. unfold ring_ok, ring_len, RING_CAPACITY, UART_BUFFER_SIZE. intros Hok. dlia. Qed.

Lemma ring_next v : ring_ok v -> (p_uart_buf_right v + 1) mod UART_BUFFER_SIZE = ring_index v (ring_len v).
Proof. unfold ring_ok, ring_len, ring_index, UART_BUFFER_SIZE. intros Hok. dlia. Qed.

Lemma ring_index_range v i : 0 <= ring_index v i < UART_BUFFER_SIZE.
Proof. unfold ring_index. by apply Z.mod_pos_bound. Qed.

Lemma ring_index_inj v i j : ring_ok v -> 0 <= i < UART_BUFFER_SIZE -> 0 <= j < UART_BUFFER_SIZE -> ring_index v i = ring_index v j -> i = j.
Proof. unfold ring_index, UART_BUFFER_SIZE. intros _ Hi Hj He. dlia. Qed.

Definition put_byte (b : Z) s : sys D :=
  let next := (p_uart_buf_right (vars s) + 1) mod UART_BUFFER_SIZE in
  mkSys ((y_io s) <| io_ram ::= fun m => ram_put m (slot next) (le32 b) |> <| io_vars ::= fun v => v <| p_uart_buf_right := next |> |>) (y_irqs s).

(** What sending [str] to the buffer does, and leaves alone. *)
Record queued (str : list Z) s s' : Prop := {
  qd_contents : contents s' = take (Z.to_nat RING_CAPACITY) (contents s ++ str);
  qd_ok : ring_ok (vars s');
  qd_vars : vars s' = (vars s) <| p_uart_buf_right := p_uart_buf_right (vars s') |>;
  qd_dev : io_dev (y_io s') = io_dev (y_io s);
  qd_irqs : y_irqs s' = y_irqs s
}.

Lemma put_byte_queued (b : Z) s : ring_ok (vars s) -> ring_len (vars s) < RING_CAPACITY -> is_byte b -> queued [b] s (put_byte b s).
Proof.
  intros Hok Hl Hb. pose proof (ring_len_range (vars s)) as Hr. pose proof (ring_next _ Hok) as Hn.
  assert (ring_ok (vars (put_byte b s))) as Hok' by (split; cbn; [apply Hok|by apply Z.mod_pos_bound]).
  assert (ring_len (vars (put_byte b s)) = ring_len (vars s) + 1) as Hlen.
  { revert Hl Hok. clear. unfold ring_len, ring_ok, RING_CAPACITY, put_byte. cbn. unfold UART_BUFFER_SIZE. intros. dlia. }
  constructor; [|done|done|done|done].
  rewrite take_ge by (rewrite length_app; cbn [length]; pose proof (length_contents s); lia).
  unfold contents at 1. rewrite Hlen, seqZ_snoc by lia. rewrite map_app. cbn [map Z.add]. f_equal.
  - apply map_ext_in. intros i Hi. apply list_elem_of_In, elem_of_seqZ in Hi. cbn [put_byte y_io io_ram io_vars field_update].
    change (ring_index _ i) with (ring_index (vars s) i). apply ram_word_ext. intros x Hx. apply ram_put_out. rewrite length_le32.
    intros Hin. assert (ring_index (vars s) i = ring_index (vars s) (ring_len (vars s))) as He by (unfold slot in *; rewrite Hn in Hin; lia).
    apply ring_index_inj in He; [lia|done|unfold UART_BUFFER_SIZE, RING_CAPACITY in *; lia..].
  - f_equal. cbn [put_byte y_io io_ram io_vars field_update]. change (ring_index _ (ring_len (vars s))) with (ring_index (vars s) (ring_len (vars s))).
    rewrite Hn. apply ram_word_put. unfold is_byte in Hb. lia.
Qed.

(** Taking [n] bytes off the ring. *)
Definition took_run (n : Z) s : sys D := mkSys ((y_io s) <| io_vars ::= fun v => v <| p_uart_buf_left := (p_uart_buf_left v + n) mod UART_BUFFER_SIZE |> |>) (y_irqs s).

Lemma map_seqZ_shift {A} (f : Z -> A) (m n : Z) : map f (seqZ m n) = map (fun i => f (m + i)) (seqZ 0 n).
Proof. replace (seqZ m n) with (Z.add m <$> seqZ 0 n) by (rewrite fmap_add_seqZ; f_equal; lia). apply map_map. Qed.

Lemma took_run_contents (n : Z) s : ring_ok (vars s) -> 0 <= n <= ring_len (vars s) ->
  contents s = map (fun i => ram_word (ram_of s) (slot (ring_index (vars s) i))) (seqZ 0 n) ++ contents (took_run n s) /\
  ring_ok (vars (took_run n s)).
Proof.
  intros Hok Hn. split; [|split; cbn; [by apply Z.mod_pos_bound|apply Hok]].
  assert (ring_len (vars (took_run n s)) = ring_len (vars s) - n) as Hlen.
  { revert Hn Hok. clear. unfold ring_len, ring_ok, took_run. cbn. unfold UART_BUFFER_SIZE. intros. dlia. }
  unfold contents. rewrite Hlen. replace (ring_len (vars s)) with (n + (ring_len (vars s) - n)) at 1 by lia.
  rewrite seqZ_app by lia. rewrite map_app. f_equal. rewrite (map_seqZ_shift _ (0 + n)). apply map_ext_in. intros i _.
  f_equal. unfold slot, ring_index. f_equal. f_equal. cbn. unfold UART_BUFFER_SIZE. dlia.
Qed.

(** *** Sending *)

Section send.
Variable patience : nat.
Variables (uart_data_ready : semref) (me : Z).
Variable channel : Z.
(** The transmit task of [channel] is running. *)
Definition buffered_on v : Prop := uart_task_started v = true /\ s_buffered_channel v = channel.

Lemma uvar_eq {A} (f : UartVars -> A) s : uvar f s = Ret (f (vars s)) s.
Proof. by destruct s as [[] ?]. Qed.
Lemma on_k_eq {A} (m : K A) s k a : m (y_irqs s).1 = Ret a k -> on_k m s = Ret a (mkSys (y_io s) (k, (y_irqs s).2)).
Proof. intros Hm. unfold on_k, on_irqs, zoom. by rewrite Hm. Qed.
Ltac uv := etrans; [eapply bind_ret; apply uvar_eq|]; cbv beta.
Ltac onk H := etrans; [eapply bind_ret; apply on_k_eq; exact H|]; cbv beta.

Lemma tx_ring (b : Z) s : buffered_on (vars s) -> ring_ok (vars s) ->
  uart_channel_tx patience uart_buf_at channel b s = Ret tt (if ring_len (vars s) =? RING_CAPACITY then s else put_byte b s).
Proof.
  intros [Hs Hc] Hok. unfold uart_channel_tx. uv. uv. rewrite Hs, Hc, Z.eqb_refl. cbn [negb orb].
  uv. uv. cbv zeta. rewrite ring_full by done.
  destruct (ring_len (vars s) =? RING_CAPACITY); [done|]. exec. by destruct s as [[] ?].
Qed.

Lemma queued_nil s : ring_ok (vars s) -> queued [] s s.
Proof.
  intros Hok. constructor; [|done| |done|done].
  - rewrite app_nil_r, take_ge; [done|]. pose proof (length_contents s). pose proof (ring_len_range (vars s)). lia.
  - by destruct (vars s).
Qed.

Lemma queued_trans (a b : list Z) s1 s2 s3 : queued a s1 s2 -> queued b s2 s3 -> queued (a ++ b) s1 s3.
Proof.
  intros [C1 O1 V1 D1 I1] [C2 O2 V2 D2 I2]. constructor; [|done| |by etrans|by etrans].
  - rewrite C2, C1, app_assoc. set (n := Z.to_nat RING_CAPACITY). set (l := contents s1 ++ a).
    destruct (decide (length l <= n)%nat) as [Hl|Hl]; [by rewrite (take_ge l) by lia|].
    rewrite take_app_le by (rewrite length_take; lia). rewrite take_take, Nat.min_id. by rewrite take_app_le by lia.
  - rewrite V2 at 1. rewrite V1. by destruct (vars s1), (vars s3).
Qed.

Lemma tx_queued (b : Z) s : is_byte b -> buffered_on (vars s) -> ring_ok (vars s) ->
  returns (uart_channel_tx patience uart_buf_at channel b) s (fun _ s' => queued [b] s s').
Proof.
  intros Hb Hon Hok. unfold returns. rewrite (tx_ring b s Hon Hok). destruct (Z.eqb_spec (ring_len (vars s)) RING_CAPACITY) as [Hf|Hf].
  - destruct (queued_nil s Hok) as [C O V Dv I]. constructor; try done. rewrite take_app_le, take_ge; [done|..];
      pose proof (length_contents s); lia.
  - apply put_byte_queued; [done| |done]. pose proof (ring_len_range (vars s)). lia.
Qed.

Lemma queued_on (str : list Z) s s' : queued str s s' -> buffered_on (vars s) -> buffered_on (vars s').
Proof. intros [_ _ V _ _] Hon. rewrite V. by destruct (vars s). Qed.

Lemma tx_str_queued (str : list Z) : forall s, Forall is_byte str -> buffered_on (vars s) -> ring_ok (vars s) ->
  returns (tx_str patience uart_buf_at channel str) s (fun _ s' => queued str s s').
Proof.
  induction str as [|c str IH]; intros s Hb Hon Hok; cbn [tx_str]; [by apply queued_nil|].
  apply Forall_cons in Hb as [Hc Hb]. step. eapply returns_mono; [by apply tx_queued|]. cbv beta. intros _ s1 Q1.
  eapply returns_mono; [apply IH; [done|by eapply queued_on|apply Q1]|]. cbv beta. intros _ s2 Q2.
  exact (queued_trans [c] str _ _ _ Q1 Q2).
Qed.

(** With the buffer's lock free, a call of [uart_channel_print] puts into the
    buffer what fits and then signals the task. *)
Lemma uart_print_spec (str : list Z) s : Forall is_byte str -> buffered_on (vars s) -> ring_ok (vars s) ->
  k_held (y_irqs s).1 = [] ->
  exists s1, queued str s s1 /\
    uart_channel_print patience uart_buf_at uart_data_ready me channel str s = (on_k (semaphore_give me uart_data_ready);; mret tt) s1.
Proof.
  intros Hb Hon Hok Hfree. destruct Hon as [Hs Hc]. unfold uart_channel_print.
  set (k := (y_irqs s).1). set (k1 := k <| k_irq_masked ::= fun f => <[me := true]> f |>). set (k2 := k1 <| k_held ::= cons LkUartBuf |>).
  assert (spinlock_acquire LkUartBuf k1 = Ret tt k2) as Hacq by (apply acquire_eq; subst k1 k; cbn; by rewrite Hfree).
  set (s0 := mkSys (y_io s) (k2, (y_irqs s).2)).
  assert (returns (tx_str patience uart_buf_at channel str) s0 (fun _ s' => queued str s0 s')) as Htx by by apply tx_str_queued.
  unfold returns in Htx. destruct (tx_str patience uart_buf_at channel str s0) as [[] s1|] eqn:Htx'; [|done].
  exists (mkSys (y_io s1) (y_irqs s)). split; [destruct Htx; by constructor|].
  uv. uv. rewrite Hs, Hc, Z.eqb_refl. cbn [andb]. unfold with_buffer.
  onk (enter_critical_eq me k). onk Hacq. exec_with Htx'.
  etrans; [eapply bind_ret; apply on_k_eq; reflexivity|]. cbv beta. etrans; [eapply bind_ret; apply on_k_eq; reflexivity|]. cbv beta.
  f_equal. f_equal. cbn [y_irqs fst snd]. rewrite (qd_irqs _ _ _ Htx). subst s0 k2 k1 k. cbn.
  rewrite decide_False by auto. rewrite Hfree. destruct s as [io [k t]]. cbn in *. f_equal. rewrite fn_insert_insert, fn_insert_id by done.
  rewrite <- Hfree. by destruct k.
Qed.

(** The call returns, the buffer has what fits of [str] behind what was there,
    and the transmit task will see it: it was waiting and is handed over to its
    scheduler, or the semaphore is left signalled. *)
Definition signalled (Q : queues) s s' (Q' : queues) : Prop :=
  match Q (LSem uart_data_ready) with
  | [] => 1 <= count (k_sem (y_irqs s').1 uart_data_ready)
  | n :: _ => NState (node_tcb n) ∈ Q' (LReady (tcb_core (node_tcb n)) (priority (k_tcbs (y_irqs s).1 (node_tcb n))))
  end.

Lemma print_signals_spec (str : list Z) (Q : queues) s : Forall is_byte str -> buffered_on (vars s) -> ring_ok (vars s) ->
  sched_inv [] (y_irqs s).1 Q -> sem_ok (y_irqs s).1 Q uart_data_ready -> 1 <= max_count (k_sem (y_irqs s).1 uart_data_ready) ->
  k_held (y_irqs s).1 = [] ->
  returns (uart_channel_print patience uart_buf_at uart_data_ready me channel str) s (fun _ s' => exists Q',
    contents s' = take (Z.to_nat RING_CAPACITY) (contents s ++ str) /\ ring_ok (vars s') /\ buffered_on (vars s') /\
    io_dev (y_io s') = io_dev (y_io s) /\
    sched_inv [] (y_irqs s').1 Q' /\ signalled Q s s' Q').
Proof.
  intros Hb Hon Hok HI Hsem Hmax Hfree. destruct (uart_print_spec str s Hb Hon Hok Hfree) as (s1 & Hq & Heq).
  assert (buffered_on (vars s1)) as Hon1 by by eapply queued_on.
  unfold returns. rewrite Heq. unfold signalled. destruct Hq as [C O V Dv Hir]. rewrite <- Hir in *.
  set (k := (y_irqs s1).1) in *. destruct (Q (LSem uart_data_ready)) as [|n q] eqn:Hq.
  - pose proof (semaphore_give_counts me uart_data_ready k Q (si_mem _ _ _ _ _ _ HI) Hfree Hq (proj1 (proj1 Hsem)) (proj1 (proj2 Hsem))) as Hgive.
    destruct (Z.ltb_spec (count (k_sem k uart_data_ready)) (max_count (k_sem k uart_data_ready))) as [Hlt|Hge].
    + destruct (semaphore_give_moves me uart_data_ready k Q HI Hsem Hfree Hlt) as (k' & Q' & Hg & Gv).
      unfold mbind, M_mbind. rewrite (on_k_eq _ _ _ _ Hg). cbn. exists Q'. split_and!; [done|done|done|done|apply Gv|].
      rewrite (gv_sem _ _ _ _ _ Gv), fn_lookup_insert. cbn. unfold woken. rewrite Hq. destruct Hsem as ([]&_). lia.
    + unfold mbind, M_mbind. rewrite (on_k_eq _ _ _ _ Hgive). cbn. exists Q. split_and!; [done|done|done|done|done|]. lia.
  - destruct Hsem as (Hc & Hm & Hz). assert (count (k_sem k uart_data_ready) < max_count (k_sem k uart_data_ready)) as Hlt.
    { rewrite Hz by (by rewrite Hq). lia. }
    destruct (semaphore_give_moves me uart_data_ready k Q HI (conj Hc (conj Hm Hz)) Hfree Hlt) as (k' & Q' & Hg & Gv).
    unfold mbind, M_mbind. rewrite (on_k_eq _ _ _ _ Hg). cbn. exists Q'. split_and!; [done|done|done|done|apply Gv|].
    destruct (member_sync _ _ _ _ _ _ (LSem uart_data_ready) n HI I) as (t & -> & _);
      [rewrite Hq; by apply elem_of_cons; left|apply not_elem_of_nil|].
    by apply (gv_woken _ _ _ _ _ Gv t q).
Qed.
End send.

(** *** The transmit task, without DMA *)

(** A PL011 at [regs]: [wire] is what left it, [busy] the polls for which the
    transmit FIFO will still say it is full. *)
Class Pl011 (regs : Z) := {
  wire : D -> list Z;
  busy : D -> nat;
  max_busy : nat;
  pl_busy : forall d, (busy d <= max_busy)%nat;
  pl_fr : forall d m, let '(w, (d', m')) := io_read (regs + FR) (d, m) in
    m' = m /\ wire d' = wire d /\ busy d' = pred (busy d) /\ has (u32 w) FR_TXFF = negb (busy d =? 0)%nat;
  pl_dr : forall b d m, busy d = O -> let '(d', m') := io_write (regs + DR) b (d, m) in
    m' = m /\ wire d' = wire d ++ [u8 b]
}.

Section drain.
Variables (channel regs : Z) (patience : nat).
Context `{!Pl011 regs}.
Hypothesis Hregs : uart_channel_regs channel = Some regs.
Hypothesis Hpat : (max_busy < patience)%nat.

(** [tx_raw] on the device's side: the byte, after what was there. *)
Record sent (bytes : list Z) (t t' : io D UartVars) : Prop := {
  st_wire : wire (io_dev t') = wire (io_dev t) ++ bytes;
  st_ram : io_ram t' = io_ram t;
  st_vars : io_vars t' = io_vars t
}.

Lemma wait_room (n : nat) : forall t : io D UartVars, (busy (io_dev t) < n)%nat ->
  returns (wait_while n (regs + FR) (fun f => has f FR_TXFF)) t (fun _ t' => sent [] t t' /\ busy (io_dev t') = O).
Proof.
  induction n as [|n IH]; intros t Hb; [lia|]. cbn [wait_while]. step. unfold returns at 1, rd.
  pose proof (pl_fr (io_dev t) (io_ram t)) as Hf. destruct (io_read _ _) as [w [d' m']]. destruct Hf as (-> & Hw & Hbusy & Ht).
  rewrite Ht. destruct (busy (io_dev t)) as [|b] eqn:Hbz; cbn [Nat.eqb negb].
  - apply returns_ret. split; [|done]. constructor; [by rewrite app_nil_r|done|done].
  - eapply returns_mono; [apply IH; cbn; lia|]. cbv beta. intros _ t2 [[Hw2 Hr2 Hv2] Hz]. split; [|done].
    constructor; [by rewrite Hw2, app_nil_r, app_nil_r; cbn|by rewrite Hr2|by rewrite Hv2].
Qed.

Lemma tx_raw_sent (b : Z) (t : io D UartVars) : returns (uart_channel_tx_raw patience channel b) t (fun _ t' => sent [u8 b] t t').
Proof.
  unfold uart_channel_tx_raw. rewrite Hregs. step. eapply returns_mono; [apply wait_room; pose proof (pl_busy (io_dev t)); lia|].
  cbv beta. intros _ t1 [[Hw Hr Hv] Hz]. unfold returns, wr. pose proof (pl_dr b (io_dev t1) (io_ram t1) Hz) as Hd.
  destruct (io_write _ _ _) as [d' m']. destruct Hd as [-> Hd]. rewrite app_nil_r in Hw. constructor; cbn; [by rewrite Hd, Hw|done|done].
Qed.

(** [tx_drain] takes the bytes out in order, puts them on the wire, and leaves
    the ring empty. *)
Lemma tx_drain_spec (turns : nat) : forall s, ring_ok (vars s) -> (Z.to_nat (ring_len (vars s)) < turns)%nat ->
  returns (tx_drain patience uart_buf_at turns channel) s (fun _ s' =>
    wire (io_dev (y_io s')) = wire (io_dev (y_io s)) ++ map u8 (contents s) /\
    contents s' = [] /\ ring_ok (vars s') /\ ram_of s' = ram_of s /\ y_irqs s' = y_irqs s).
Proof.
  induction turns as [|turns IH]; intros s Hok Hf; [lia|]. cbn [tx_drain]. pose proof (ring_len_range (vars s)) as Hr.
  step. unfold returns at 1. rewrite uvar_eq. step. unfold returns at 1. rewrite uvar_eq. rewrite ring_empty by done.
  destruct (Z.eqb_spec (ring_len (vars s)) 0) as [Hz|Hz].
  - apply returns_ret. assert (contents s = []) as -> by (apply length_zero_iff_nil; pose proof (length_contents s); lia).
    by rewrite app_nil_r.
  - cbv zeta. destruct (took_run_contents 1 s Hok ltac:(lia)) as [Hc Hok']. 
    change (seqZ 0 1) with [0] in Hc. cbn [map app] in Hc. unfold ring_index in Hc. rewrite Z.add_0_r in Hc.
    step. unfold returns at 1. change (on_io _ s) with (Ret tt (took_run 1 s)). cbv beta iota.
    step. apply returns_zoom. unfold returns at 1, load32, gets.
    step. apply returns_zoom. eapply returns_mono; [apply tx_raw_sent|]. cbv beta. intros _ t1 [Hw Hram Hv].
    set (s1 := mkSys t1 _). assert (vars s1 = vars (took_run 1 s)) as Hv1 by exact Hv.
    assert (contents s1 = contents (took_run 1 s)) as Hc1 by (unfold contents; rewrite Hv1; subst s1; cbn; by rewrite Hram).
    eapply returns_mono; [apply IH; rewrite Hv1; [done|]|].
    + pose proof (length_contents s) as L1. pose proof (length_contents (took_run 1 s)) as L2. rewrite Hc in L1. cbn [length] in L1. lia.
    + cbv beta. intros _ s2 (W & C & O & R & I2). split_and!; [|done|done|by rewrite R; subst s1; cbn; rewrite Hram|by rewrite I2].
      rewrite W, Hc1, Hc. subst s1. cbn [y_io]. rewrite Hw. cbn [map]. rewrite <- app_assoc. cbn.
      assert (forall w, u8 (u8 w) = u8 w) as Hu by (intros w; apply wrap_small, wrap_range; lia). by rewrite Hu.
Qed.
Variables (uart_data_ready : semref) (me : Z).

(** C35: what is printed is what is sent.  Starting from a ring whose waiting
    bytes leave room for [str], a call of [uart_channel_print] on the buffered
    channel followed by the transmit task's emptying loop puts the waiting
    bytes and then exactly [str], in order and each once, on the wire, and
    leaves the ring empty, the kernel's invariant intact and the task's
    semaphore signalled or its waiter handed over. *)
Theorem printed_is_sent (str : list Z) (Q : queues) s :
  Forall is_byte str -> buffered_on channel (vars s) -> ring_ok (vars s) -> Z.of_nat (length str) <= RING_CAPACITY - ring_len (vars s) ->
  sched_inv [] (y_irqs s).1 Q -> sem_ok (y_irqs s).1 Q uart_data_ready -> 1 <= max_count (k_sem (y_irqs s).1 uart_data_ready) ->
  k_held (y_irqs s).1 = [] ->
  returns (uart_channel_print patience uart_buf_at uart_data_ready me channel str;;
           tx_drain patience uart_buf_at (Z.to_nat UART_BUFFER_SIZE) channel) s (fun _ s' => exists Q',
    wire (io_dev (y_io s')) = wire (io_dev (y_io s)) ++ map u8 (contents s) ++ str /\
    contents s' = [] /\ ring_ok (vars s') /\
    sched_inv [] (y_irqs s').1 Q' /\ signalled uart_data_ready Q s s' Q').
Proof.
  intros Hb Hon Hok Hfit HI Hsem Hmax Hfree. step. eapply returns_mono; [by apply print_signals_spec|]. cbv beta.
  intros _ s1 (Q' & C & O & _ & Dv & HI' & Hsig). pose proof (ring_len_range (vars s1)) as Hr.
  eapply returns_mono; [apply tx_drain_spec; [done|unfold RING_CAPACITY, UART_BUFFER_SIZE in *; lia]|]. cbv beta.
  intros _ s2 (W & C2 & O2 & _ & I2). exists Q'. rewrite Dv, C in W. unfold signalled in *. rewrite I2.
  split_and!; [|done|done|done|done]. rewrite W. f_equal. rewrite take_ge by (rewrite length_app; pose proof (length_contents s); lia).
  rewrite map_app. f_equal. by apply u8_bytes.
Qed.
End drain.

(** *** The transmit task, with DMA *)

(** The run a round sends: up to the end of the array. *)
Definition run_start v : Z := (p_uart_buf_left v + 1) mod UART_BUFFER_SIZE.
Definition run_length v : Z := ring_len v `min` (UART_BUFFER_SIZE - run_start v).

Variables (channel uart_tx_cb : Z).

Lemma avail_len v : ring_ok v -> u16 (Z.rem (p_uart_buf_right v - p_uart_buf_left v + UART_BUFFER_SIZE) UART_BUFFER_SIZE) = ring_len v.
Proof.
  intros Hok. pose proof (ring_len_range v) as Hr. unfold ring_ok, RING_CAPACITY, UART_BUFFER_SIZE in *. rewrite Z.rem_mod_nonneg by lia.
  rewrite <- (wrap_small 16 (ring_len v)) by lia. f_equal. unfold ring_len, UART_BUFFER_SIZE. dlia.
Qed.
Lemma run_width v :
  (if UART_BUFFER_SIZE <? run_start v + ring_len v then u16 (UART_BUFFER_SIZE - run_start v) else ring_len v) = run_length v.
Proof.
  assert (0 <= run_start v < UART_BUFFER_SIZE) as Hs by by apply Z.mod_pos_bound. unfold run_length, UART_BUFFER_SIZE in *.
  destruct (Z.ltb_spec 2056 (run_start v + ring_len v)); [rewrite wrap_small by lia|]; lia.
Qed.

(** C36: a round of the DMA loop with bytes waiting hands the engine one run:
    at least one byte, inside the array, its words one after the other in
    memory exactly the first [run] waiting bytes in order; the run stops short
    of them all only at the end of the array.  Once the engine is done,
    whatever was sent in the meantime, the advance takes exactly those bytes
    off.  With none waiting the round starts nothing. *)
Theorem dma_round_exact s : ring_ok (vars s) ->
  tx_dma_round uart_buf_at uart_tx_cb channel s =
    (if ring_len (vars s) =? 0 then mret None else
     uart_dma_tx_run uart_tx_cb channel (slot (run_start (vars s))) (run_length (vars s));;
     mret (Some (p_uart_buf_left (vars s), run_length (vars s)))) s /\
  (0 < ring_len (vars s) ->
    let run := run_length (vars s) in
    0 < run /\ 0 <= run_start (vars s) /\ run_start (vars s) + run <= UART_BUFFER_SIZE /\
    (run < ring_len (vars s) -> run_start (vars s) + run = UART_BUFFER_SIZE) /\
    contents s = map (fun i => ram_word (ram_of s) (slot (run_start (vars s)) + 4 * i)) (seqZ 0 run) ++ contents (took_run run s)) /\
  (forall s', p_uart_buf_left (vars s') = p_uart_buf_left (vars s) ->
    tx_dma_advance (p_uart_buf_left (vars s)) (run_length (vars s)) s' = Ret tt (took_run (run_length (vars s)) s')).
Proof.
  intros Hok. pose proof (ring_len_range (vars s)) as Hr. assert (0 <= run_start (vars s) < UART_BUFFER_SIZE) as Hs by by apply Z.mod_pos_bound.
  split_and!.
  - unfold tx_dma_round. do 2 (etrans; [eapply bind_ret; apply uvar_eq|]; cbv beta). rewrite ring_empty by done. destruct (ring_len (vars s) =? 0); [done|]. cbv zeta.
    fold (run_start (vars s)). rewrite (avail_len (vars s) Hok), run_width. done.
  - intros Hl run. assert (0 < run <= ring_len (vars s)) as Hrun by (subst run; unfold run_length in *; lia).
    split_and!; [lia|lia|subst run; unfold run_length; lia|subst run; unfold run_length; lia|].
    destruct (took_run_contents run s Hok ltac:(lia)) as [-> _]. f_equal. apply map_ext_in. intros i Hi.
    apply list_elem_of_In, elem_of_seqZ in Hi. f_equal. unfold slot. rewrite <- Z.add_assoc, <- Z.mul_add_distr_l. do 2 f_equal.
    subst run. revert Hi Hs Hok. unfold run_length, ring_index, run_start, ring_ok. clear. intros.
    rewrite <- Zplus_mod_idemp_l. apply Z.mod_small. lia.
  - intros s' He. destruct s' as [[] ?]. cbn in *. unfold took_run. cbn. by rewrite He.
Qed.
End ring.

(** ** A line, and what is printed on it *)

(** A transmitter whose FIFO is full for one poll after each byte. *)
Record line := mkLine { ln_wire : list Z; ln_full : bool }.
#[export] Instance eta_line : Settable line := fun r => mkLine (ln_wire r) (ln_full r).
#[export] Instance line_mmio : Mmio line := {
  io_read := fun r st =>
    if r =? UART0_BASE + FR then (if ln_full st.1 then FR_TXFF else 0, (st.1 <| ln_full := false |>, st.2)) else (0, st);
  io_write := fun r v st =>
    if (r =? UART0_BASE + DR) && negb (ln_full st.1) then (mkLine (ln_wire st.1 ++ [u8 v]) true, st.2) else st
}.
#[export] Program Instance line_pl011 : Pl011 UART0_BASE := {
  wire := ln_wire; busy := fun d => if ln_full d then 1%nat else 0%nat; max_busy := 1%nat
}.
Next Obligation. intros d. cbn. destruct (ln_full d); lia. Qed.
Next Obligation. intros [w []] m; done. Qed.
Next Obligation. intros b [w []] m; cbn; done. Qed.

Definition demo_config : UartConfig := mkUartConfig 14 15 GPIO_FUNC_ALT0 UART_BAUDRATE_115200 UART_MODE_BUFFERED_TASK true 5 512 1.
(** A ring whose waiting bytes go round the end of the array: 2 words before
    it, 3 after. *)
Definition demo_vars : UartVars := mkUartVars (fun c => if c =? 0 then Some demo_config else None) 0 true 2053 2 None None.
Definition demo_sys : sys line :=
  mkSys (mkIo (mkLine [] false) (ram_put (fun _ => 0) (4 * 2054) (mjoin (map le32 [65; 66]))) demo_vars [] 0 0) (demo_sem, fun _ => None).

Lemma demo_sys_ring : ring_ok (io_vars (y_io demo_sys)).
Proof. done. Qed.

Lemma printed_is_sent_witness :
  returns (uart_channel_print 5 0 (SemUser 0) 1 0 [72; 105];; tx_drain 5 0 (Z.to_nat UART_BUFFER_SIZE) 0) demo_sys (fun _ s' =>
    ln_wire (io_dev (y_io s')) = [65; 66; 0; 0; 0; 72; 105]).
Proof.
  assert (max_busy (D := line) (regs := UART0_BASE) < 5)%nat as Hp by (vm_compute; lia).
  eapply returns_mono; [apply (printed_is_sent 0 0 UART0_BASE 5 eq_refl Hp (SemUser 0) 1 [72; 105] demo_Q demo_sys)|].
  - repeat constructor; done.
  - done.
  - exact demo_sys_ring.
  - by vm_compute.
  - exact (proj1 demo_sem_inv).
  - exact (proj2 demo_sem_inv).
  - by vm_compute.
  - exact demo_sem_held.
  - cbv beta. intros _ s' (Q' & W & _). etrans; [exact W|]. by vm_compute.
Defined.

Lemma dma_round_exact_witness :
  ring_len demo_vars = 5 /\ run_start demo_vars = 2054 /\ run_length demo_vars = 2 /\
  contents 0 demo_sys = [65; 66] ++ contents 0 (took_run 2 demo_sys) /\
  tx_dma_advance 2053 2 demo_sys = Ret tt (took_run 2 demo_sys).
Proof.
  destruct (dma_round_exact 0 0 4096 demo_sys demo_sys_ring) as (_ & Hrun & Hadv).
  destruct (Hrun ltac:(by vm_compute)) as (_ & _ & _ & _ & Hc). do 3 (split; [by vm_compute|]). split; [|exact (Hadv demo_sys eq_refl)].
  change (run_length (io_vars (y_io demo_sys))) with 2 in Hc. etrans; [exact Hc|]. f_equal.
Defined.
