(* ===== verification/UartTyped.v ===== *)
(** * The UART driver's variables are well formed

    The ring's indices stay inside the array, only channels that exist have a
    configuration, and the transmit task runs only for a channel configured
    for it: what the interrupt handlers rely on when they follow
    [s_uart_configs] and [uart_hw_table] without a check. *)

From S2P Require Import Prelude Types Board Kernel Heap Task Semaphore Mmio Printf Soc Gpio Gic Dma Uart UartThm.

(** ** Driver code and static variables *)

Section frames.
Context {D V : Type} `{Mmio D}.

(** Driver code keeps the static variables it does not name; if it does not
    come back it is because the hardware never answered. *)
Definition same_vars (t t' : io D V) : Prop := io_vars t' = io_vars t.
Definition hangs (w : stop_reason) : Prop := w = Hang.
#[export] Instance same_vars_preorder : PreOrder same_vars.
Proof. split; [done|]. intros t1 t2 t3 H1 H2. unfold same_vars in *. congruence. Qed.

Lemma rd_vars E (r : Z) : keeps E same_vars (rd r : Io D V Z).
Proof. intros t. unfold runs, rd, same_vars. by destruct (io_read r _) as [v [d m]]. Qed.
Lemma wr_vars E (r v : Z) : keeps E same_vars (wr r v : Io D V unit).
Proof. intros t. unfold runs, wr, same_vars. by destruct (io_write r v _) as [d m]. Qed.
Lemma rmw_vars E (r : Z) (f : Z -> Z) : keeps E same_vars (rmw r f : Io D V unit).
Proof. apply keeps_bind; [apply rd_vars|]. intros v. apply wr_vars. Qed.
Lemma dsb_vars E : keeps E same_vars (dsb : Io D V unit).
Proof. by intros t. Qed.
Lemma store32_vars E (a v : Z) : keeps E same_vars (store32 a v : Io D V unit).
Proof. by intros t. Qed.
Lemma mcr_vars `{!Cp15 D} E (r : sysreg) (v : Z) : keeps E same_vars (mcr r v : Io D V unit).
Proof. by intros t. Qed.
Lemma keeps_for {S} E (R : S -> S -> Prop) `{!PreOrder R} (body : Z -> M S unit) (n : nat) : (forall i, keeps E R (body i)) -> forall i, keeps E R (for_ n i body).
Proof. intros Hb. induction n as [|n IH]; intros i; cbn [for_]; [apply keeps_ret|]. apply keeps_bind; [done|]. intros _. apply IH. Qed.

Lemma wait_while_vars (n : nat) (r : Z) (test : Z -> bool) : keeps hangs same_vars (wait_while n r test : Io D V unit).
Proof.
  induction n as [|n IH]; cbn [wait_while]; [by apply keeps_stop|]. apply keeps_bind; [apply rd_vars|]. intros v. destruct (test v); [apply IH|apply keeps_ret].
Qed.
Lemma set_function_vars E (pin : Z) (f : GPIOFunc) : pin < 60 -> keeps E same_vars (gpio_set_function pin f : Io D V unit).
Proof.
  intros Hp. unfold gpio_set_function, element. assert (pin / 10 < 6) as Hq by dlia. apply Z.ltb_lt in Hq. rewrite Hq.
  apply keeps_bind; [apply keeps_ret|]. intros r. apply rmw_vars.
Qed.
Lemma gpio_off_vars E (pin : Z) : pin < 64 -> keeps E same_vars (gpio_off pin : Io D V unit).
Proof.
  intros Hp. unfold gpio_off, element. assert (pin / 32 < 2) as Hq by dlia. apply Z.ltb_lt in Hq. rewrite Hq.
  apply keeps_bind; [apply keeps_ret|]. intros r. apply wr_vars.
Qed.
Lemma gic_disable_vars E (me : Z) : keeps E same_vars (gic_disable me : Io D V unit).
Proof. unfold gic_disable. repeat (apply keeps_bind; [apply wr_vars || apply rmw_vars|intros _]). apply dsb_vars. Qed.

Lemma set_pull_vars (pin : Z) (p : GPIOPull) : keeps ever same_vars (gpio_set_pull pin p : Io D V unit).
Proof.
  unfold gpio_set_pull, element. destruct (pin / 16 <? 4); apply keeps_bind; [apply keeps_ret|intros r; apply rmw_vars|by apply keeps_stop|intros r; apply rmw_vars].
Qed.
Lemma any_function_vars (pin : Z) (f : GPIOFunc) : keeps ever same_vars (gpio_set_function pin f : Io D V unit).
Proof.
  unfold gpio_set_function, element. destruct (pin / 10 <? 6); apply keeps_bind; [apply keeps_ret|intros r; apply rmw_vars|by apply keeps_stop|intros r; apply rmw_vars].
Qed.
Lemma spin_while_vars E (r : Z) (test : Z -> bool) (n : nat) : keeps E same_vars (spin_while r test n : Io D V nat).
Proof.
  induction n as [|n IH]; cbn [spin_while]; apply keeps_bind; (apply rd_vars || intros v; destruct (test v)); try apply keeps_ret. exact IH.
Qed.
Lemma dma_channel_init_vars E (c : Z) : keeps E same_vars (dma_channel_init c : Io D V unit).
Proof.
  unfold dma_channel_init. cbv zeta.
  repeat (apply keeps_bind; [apply rmw_vars || apply wr_vars || apply dsb_vars || apply spin_while_vars|intros ?]). apply dsb_vars.
Qed.
Lemma gic_enable_spi_vars E (intid prio : Z) : keeps E same_vars (gic_enable_spi intid prio : Io D V unit).
Proof. unfold gic_enable_spi. repeat (apply keeps_bind; [apply rmw_vars || apply wr_vars|intros ?]). apply dsb_vars. Qed.
Lemma dma_start_vars E (c cb : Z) : keeps E same_vars (dma_start c cb : Io D V unit).
Proof. unfold dma_start. cbv zeta. repeat (apply keeps_bind; [apply wr_vars || apply dsb_vars|intros ?]). apply wr_vars. Qed.
Lemma store_cb_vars E (a : Z) (cb : DmaControlBlock) : keeps E same_vars (store_cb a cb : Io D V unit).
Proof. unfold store_cb. repeat (apply keeps_bind; [apply store32_vars|intros ?]). apply store32_vars. Qed.
End frames.

(** ** Well-formedness *)

Record uart_typed (v : UartVars) : Prop := {
  ut_ring : ring_ok v;
  ut_buffered : 0 <= s_buffered_channel v <= UART_NUM_CHANNELS;
  ut_configs : forall ch, is_Some (s_uart_configs v ch) -> is_Some (uart_channel_regs ch);
  ut_started : uart_task_started v = true ->
    exists c, s_uart_configs v (s_buffered_channel v) = Some c /\ uart_mode c = UART_MODE_BUFFERED_TASK
}.

Lemma uart_typed_initial : uart_typed uart_vars_initial.
Proof. constructor; [done|done|intros ch [c Hc]; done|done]. Qed.

(** Programs over a state with the driver's variables in it.  [typed_run m v]:
    started with the variables [v], [m] leaves well-formed ones, whether it
    comes back or stops. *)
Section calculus.
Context {S : Type} (view : S -> UartVars).

Definition keeps_view {A} (m : M S A) : Prop := keeps ever (fun s s' => view s' = view s) m.
Definition typed_run {A} (m : M S A) (v : UartVars) : Prop :=
  forall s, view s = v -> runs m s (fun _ s' => uart_typed (view s')) (fun _ s' => uart_typed (view s')).

Lemma typed_end {A} (m : M S A) v : uart_typed v -> keeps_view m -> typed_run m v.
Proof. intros Hv Hm s <-. eapply runs_mono; [apply Hm| |]; [by intros a s' ->|by intros w s' [_ ->]]. Qed.
Lemma typed_ret {A} (a : A) v : uart_typed v -> typed_run (mret a) v.
Proof. intros Hv s <-. exact Hv. Qed.
Lemma typed_seq {A B} (m : M S A) (k : A -> M S B) v : uart_typed v -> keeps_view m -> (forall a, typed_run (k a) v) -> typed_run (m ≫= k) v.
Proof. intros Hv Hm Hk s <-. rstep. eapply runs_mono; [apply Hm|intros a s' He; by apply Hk|]. by intros w s' [_ ->]. Qed.
Lemma typed_read {A B} (m : M S A) (x : UartVars -> A) (k : A -> M S B) v :
  (forall s, m s = Ret (x (view s)) s) -> typed_run (k (x v)) v -> typed_run (m ≫= k) v.
Proof. intros Hm Hk s <-. rstep. unfold runs at 1. rewrite Hm. by apply Hk. Qed.
Lemma typed_write {B} (m : M S unit) (f : UartVars -> UartVars) (k : unit -> M S B) v :
  (forall s, exists s', m s = Ret tt s' /\ view s' = f (view s)) -> typed_run (k tt) (f v) -> typed_run (m ≫= k) v.
Proof. intros Hm Hk s <-. rstep. destruct (Hm s) as (s' & He & Hf). unfold runs at 1. rewrite He. by apply Hk. Qed.
Lemma view_seq {A B} (m : M S A) (k : A -> M S B) : keeps_view m -> (forall a, keeps_view (k a)) -> keeps_view (m ≫= k).
Proof.
  intros Hm Hk s. rstep. eapply runs_mono; [apply Hm| |done]. intros a s' He. eapply runs_mono; [apply Hk| |].
  - intros b s'' ->. exact He.
  - intros w s'' [_ ->]. split; [done|exact He].
Qed.
Lemma view_ret {A} (a : A) : keeps_view (mret a).
Proof. by intros s. Qed.
Lemma view_stop {A} (w : stop_reason) : keeps_view (stop w : M S A).
Proof. by intros s. Qed.
End calculus.

Section lifting.
Context {D : Type} `{Mmio D}.
Definition yvars (s : sys D) : UartVars := io_vars (y_io s).
Lemma on_io_view {A} (m : Io D UartVars A) : keeps ever same_vars m -> keeps_view yvars (on_io m).
Proof. intros Hm s. apply runs_zoom. eapply runs_mono; [apply Hm|done|done]. Qed.
Lemma on_irqs_view {A} (m : M irqs A) : keeps_view yvars (on_irqs m : M (sys D) A).
Proof. intros s. apply runs_zoom. unfold runs. by destruct (m (y_irqs s)). Qed.
Lemma on_k_view {A} (m : K A) : keeps_view yvars (on_k m : M (sys D) A).
Proof. apply on_irqs_view. Qed.
Lemma uvar_read {A} (f : UartVars -> A) (s : sys D) : uvar f s = Ret (f (yvars s)) s.
Proof. by destruct s as [[] ?]. Qed.
Lemma set_write (f : UartVars -> UartVars) (s : sys D) : exists s', on_io (set_vars f) s = Ret tt s' /\ yvars s' = f (yvars s).
Proof. by eexists. Qed.
Lemma regs_of_view (ch : Z) : keeps_view yvars (regs_of ch : M (sys D) Z).
Proof. unfold regs_of. destruct (_ <=? _); [apply view_stop|]. intros s. unfold deref. by destruct (uart_hw_table ch). Qed.
End lifting.

(** ** The updates the driver makes *)

Lemma typed_right v (n : Z) : uart_typed v -> uart_typed (v <| p_uart_buf_right := n mod UART_BUFFER_SIZE |>).
Proof. intros [[Hl _] Hb Hc Hs]. constructor; [split; cbn; [done|by apply Z.mod_pos_bound]|done..]. Qed.
Lemma typed_left v (n : Z) : uart_typed v -> uart_typed (v <| p_uart_buf_left := n mod UART_BUFFER_SIZE |>).
Proof. intros [[_ Hr] Hb Hc Hs]. constructor; [split; cbn; [by apply Z.mod_pos_bound|done]|done..]. Qed.
Lemma typed_tcb v p : uart_typed v -> uart_typed (v <| uart_tcb := p |>).
Proof. intros [[] ? ? ?]. by constructor. Qed.
Lemma typed_handler v h : uart_typed v -> uart_typed (v <| uart_rx_handler := h |>).
Proof. intros [[] ? ? ?]. by constructor. Qed.
(** Choosing the buffered channel, when no other has the task. *)
Lemma typed_buffered v (ch : Z) : uart_typed v -> 0 <= ch < UART_NUM_CHANNELS ->
  (uart_task_started v && negb (s_buffered_channel v =? ch)) = false -> uart_typed (v <| s_buffered_channel := ch |>).
Proof.
  intros [? ? ? Hs] Hch Hf. constructor; [done|cbn; lia|done|]. cbn. intros Hst. specialize (Hs Hst).
  rewrite Hst in Hf. cbn [andb] in Hf. apply negb_false_iff, Z.eqb_eq in Hf. by rewrite <- Hf.
Qed.
Lemma typed_started v c : uart_typed v -> s_uart_configs v (s_buffered_channel v) = Some c -> uart_mode c = UART_MODE_BUFFERED_TASK ->
  uart_typed (v <| uart_task_started := true |>).
Proof. intros [? ? ? _] Hc Hm. constructor; [done..|]. intros _. by exists c. Qed.
(** A new configuration of the buffered channel stops its task. *)
Lemma typed_config v (ch : Z) c : uart_typed v -> is_Some (uart_channel_regs ch) ->
  uart_typed ((if ch =? s_buffered_channel v then v <| uart_task_started := false |> else v) <| s_uart_configs ::= fun f => <[ch := Some c]> f |>).
Proof.
  intros [Hr Hb Hc Hs] Hreg.
  assert (forall v', s_uart_configs v' = s_uart_configs v -> forall x, is_Some ((<[ch := Some c]> (s_uart_configs v')) x) -> is_Some (uart_channel_regs x)) as Hall.
  { intros v' -> x. destruct (decide (x = ch)) as [->|Hne]; [done|]. rewrite fn_lookup_insert_ne by done. apply Hc. }
  destruct (Z.eqb_spec ch (s_buffered_channel v)) as [He|Hne]; constructor; try done; try (by apply Hall).
  intros Hst. destruct (Hs Hst) as (c' & Hc' & Hm). exists c'. cbn. by rewrite fn_lookup_insert_ne by done.
Qed.

Section ops.
Context {D : Type} `{Mmio D}.
Variable patience : nat.
Implicit Types (v : UartVars).

Lemma io_view {A} (m : Io D UartVars A) : keeps ever same_vars m -> keeps_view io_vars m.
Proof. done. Qed.

Lemma init_typed (channel : Z) (config : option UartConfig) v : uart_typed v ->
  typed_run io_vars (uart_channel_init (D := D) channel config) v.
Proof.
  intros Hv. unfold uart_channel_init. destruct config as [c|]; [|by apply typed_ret].
  destruct (uart_channel_regs channel) as [regs|] eqn:Hr; [|by apply typed_ret].
  assert (forall (b : bool) (pin : Z), keeps_view (S := io D UartVars) io_vars (when b (gpio_set_function pin (uart_alt_func c);; gpio_set_pull pin GPIO_PULL_NONE))) as Hpin.
  { intros b pin. unfold when. destruct b; [|apply view_ret]. apply view_seq; [apply any_function_vars|intros _; apply set_pull_vars]. }
  apply typed_seq; [done|apply Hpin|intros _]. apply typed_seq; [done|apply Hpin|intros _].
  apply typed_seq; [done|apply rmw_vars|intros _]. apply typed_seq; [done|apply spin_while_vars|intros timeout].
  destruct (decide (timeout = O)); [by apply typed_ret|].
  apply typed_seq; [done|apply rmw_vars|intros _]. apply typed_seq; [done|apply wr_vars|intros _].
  destruct (uart_baud_divisors (uart_baudrate c)) as [[ibrd fbrd]|]; [|by apply typed_ret].
  do 4 (apply typed_seq; [done|apply wr_vars|intros _]).
  eapply (typed_write io_vars _ (fun v => if channel =? s_buffered_channel v then v <| uart_task_started := false |> else v)); [by eexists|].
  eapply (typed_write io_vars _ (fun v => v <| s_uart_configs ::= fun f => <[channel := Some c]> f |>)); [by eexists|].
  apply typed_ret, typed_config; [done|by rewrite Hr].
Qed.

Variables (uart_buf_at uart_tx_cb : Z) (data_ready dma_done : semref) (dma_handler rx_handler tx_task trap me : Z).

Ltac quiet_io := first [apply on_k_view|apply on_irqs_view|apply regs_of_view|apply on_io_view; first
  [apply wr_vars|apply rmw_vars|apply dma_channel_init_vars|apply gic_enable_spi_vars|apply store32_vars]].
Ltac quiet1 := apply typed_seq; [done|quiet_io|intros ?].

Lemma when_view (b : bool) (m : M (sys D) unit) : keeps_view yvars m -> keeps_view yvars (when b m).
Proof. intros Hm. unfold when. destruct b; [done|apply view_ret]. Qed.

Lemma task_start_typed (channel : Z) v : 0 <= channel -> uart_typed v ->
  typed_run yvars (uart_channel_task_start (D := D) data_ready dma_done dma_handler rx_handler tx_task trap me channel) v.
Proof.
  intros Hch Hv. unfold uart_channel_task_start. destruct (Z.leb_spec UART_NUM_CHANNELS channel); [by apply typed_ret|].
  eapply (typed_read yvars); [apply uvar_read|]. destruct (s_uart_configs v channel) as [c|] eqn:Hc; [|by apply typed_ret].
  destruct (decide (uart_mode c <> UART_MODE_BUFFERED_TASK)) as [|Hm]; [by apply typed_ret|].
  eapply (typed_read yvars); [apply uvar_read|]. eapply (typed_read yvars); [apply uvar_read|].
  destruct (uart_task_started v && negb (s_buffered_channel v =? channel)) eqn:Hst; [by apply typed_ret|].
  destruct (negb (rx_pin c =? UART_PIN_NONE) && _); [by apply typed_ret|].
  eapply (typed_write yvars); [apply set_write|]. cbv beta.
  assert (uart_typed (v <| s_buffered_channel := channel |>)) as Hv1 by by apply typed_buffered.
  quiet1. apply typed_seq; [done|apply when_view|intros _].
  { repeat (apply view_seq; [quiet_io|intros ?]). quiet_io. }
  apply typed_seq; [done|apply when_view|intros _].
  { repeat (apply view_seq; [quiet_io|intros ?]). quiet_io. }
  apply typed_seq; [done|apply on_k_view|intros p].
  assert (forall v2, uart_typed v2 -> s_uart_configs v2 (s_buffered_channel v2) = Some c ->
    typed_run (S := sys D) yvars (when (bool_decide (p.1 = E_OK)) (on_io (set_vars (fun v0 => v0 <| uart_task_started := true |>)));; mret p.1) v2) as Hend.
  { intros v2 Hv2 Hc2. unfold when. destruct (bool_decide (p.1 = E_OK)); [|apply typed_seq; [done|apply view_ret|intros _; by apply typed_ret]].
    eapply (typed_write yvars); [apply set_write|]. apply typed_ret. eapply typed_started; [done|exact Hc2|].
    by destruct (decide (uart_mode c = UART_MODE_BUFFERED_TASK)). }
  unfold when at 1. destruct (bool_decide (p.2 <> None)).
  - eapply (typed_write yvars); [apply set_write|]. apply Hend; [by apply typed_tcb|done].
  - apply typed_seq; [done|apply view_ret|intros _]. by apply Hend.
Qed.

Lemma tx_raw_vars (channel b : Z) : keeps hangs same_vars (uart_channel_tx_raw patience channel b : Io D UartVars unit).
Proof.
  unfold uart_channel_tx_raw. destruct (uart_channel_regs channel); [|apply keeps_ret].
  apply keeps_bind; [apply wait_while_vars|intros _; apply wr_vars].
Qed.
Lemma keeps_ever {S A} (R : S -> S -> Prop) E (m : M S A) : keeps E R m -> keeps ever R m.
Proof. intros Hm s. eapply runs_mono; [apply Hm|done|]. by intros w s' [_ Hr]. Qed.

Lemma channel_tx_typed (channel b : Z) v : uart_typed v -> typed_run yvars (uart_channel_tx (D := D) patience uart_buf_at channel b) v.
Proof.
  intros Hv. unfold uart_channel_tx. do 2 (eapply (typed_read yvars); [apply uvar_read|]).
  destruct (negb _ || negb _); [apply typed_end; [done|]; eapply on_io_view, keeps_ever, tx_raw_vars|].
  do 2 (eapply (typed_read yvars); [apply uvar_read|]). cbv zeta. destruct (_ =? _); [by apply typed_ret|].
  quiet1. rewrite <- (bind_mret_r (on_io (set_vars _))). eapply (typed_write yvars); [apply set_write|]. apply typed_ret. by apply typed_right.
Qed.

Lemma tx_drain_typed (channel : Z) (turns : nat) : forall v, uart_typed v -> typed_run yvars (tx_drain (D := D) patience uart_buf_at turns channel) v.
Proof.
  induction turns as [|turns IH]; intros v Hv; cbn [tx_drain]; [by apply typed_end, view_stop|].
  do 2 (eapply (typed_read yvars); [apply uvar_read|]). destruct (_ =? _); [by apply typed_ret|]. cbv zeta.
  eapply (typed_write yvars); [apply set_write|]. cbv beta. pose proof (typed_left v (p_uart_buf_left v + 1) Hv) as Hv1.
  apply typed_seq; [done|apply on_io_view; by intros t|intros w].
  apply typed_seq; [done|eapply on_io_view, keeps_ever, tx_raw_vars|intros _]. by apply IH.
Qed.

(** With the task running, the handlers' lookups find what they look for... *)
Lemma lookups_total v : uart_typed v -> uart_task_started v = true -> exists c regs, forall s : sys D, yvars s = v ->
  on_io (uart_config (s_buffered_channel v)) s = Ret (Some c) s /\ regs_of (s_buffered_channel v) s = Ret regs s.
Proof.
  intros [_ Hb Hc Hs] Hst. destruct (Hs Hst) as (c & Hcfg & _). destruct (Hc (s_buffered_channel v) ltac:(by rewrite Hcfg)) as [regs Hr].
  exists c, regs. intros s <-. unfold uart_channel_regs in Hr.
  unfold on_io, zoom, uart_config, regs_of. destruct (UART_NUM_CHANNELS <=? s_buffered_channel (yvars s)); [done|]. split.
  - unfold var, gets. destruct s as [[] ?]. cbn in *. by rewrite Hcfg.
  - destruct (uart_hw_table (s_buffered_channel (yvars s))) as [p|]; [|done]. injection Hr as <-. done.
Qed.

Lemma on_io_never {A} (m : Io D UartVars A) (s : sys D) v : keeps never same_vars m -> yvars s = v -> returns (on_io m) s (fun _ s' => yvars s' = v).
Proof. intros Hm <-. apply returns_zoom. eapply returns_mono; [apply (keeps_returns same_vars), Hm|done]. Qed.

(** ...and the transmit task's round never follows a pointer that is not
    there. *)
Lemma dma_round_total v : uart_typed v -> uart_task_started v = true -> forall s, yvars s = v ->
  returns (tx_dma_round (D := D) uart_buf_at uart_tx_cb (s_buffered_channel v)) s (fun _ s' => yvars s' = v).
Proof.
  intros Hv Hst s Hs. destruct (lookups_total v Hv Hst) as (c & regs & Hlook). destruct (Hlook s Hs) as [Hcfg Hregs].
  unfold tx_dma_round. step. unfold returns at 1. rewrite uvar_read. step. unfold returns at 1. rewrite uvar_read.
  destruct (_ =? _); [by apply returns_ret|]. cbv zeta. step. unfold uart_dma_tx_run.
  step. unfold returns at 1. rewrite Hcfg. step. unfold returns at 1. rewrite Hregs.
  step. eapply returns_mono; [apply on_io_never; [apply store_cb_vars|exact Hs]|]. cbv beta. intros _ s1 Hs1.
  step. unfold deref. apply returns_ret. eapply returns_mono; [apply on_io_never; [apply dma_start_vars|exact Hs1]|].
  cbv beta. intros _ s2 Hs2. by apply returns_ret.
Qed.

(** C40: the driver's variables stay well typed.  They are so initially, and
    configuring a channel, starting its task, sending a byte, draining the
    ring and advancing after a DMA run all leave them so, whatever the
    hardware and the kernel answer and even if the operation does not come
    back.  While the task runs, the handlers' unchecked lookups of its
    configuration and registers succeed and its DMA rounds come back. *)
Theorem uart_well_typed v : uart_typed uart_vars_initial /\ (uart_typed v ->
  (forall channel config, typed_run io_vars (uart_channel_init (D := D) channel config) v) /\
  (forall channel, 0 <= channel ->
     typed_run yvars (uart_channel_task_start (D := D) data_ready dma_done dma_handler rx_handler tx_task trap me channel) v) /\
  (forall channel byte, typed_run yvars (uart_channel_tx (D := D) patience uart_buf_at channel byte) v) /\
  (forall turns channel, typed_run yvars (tx_drain (D := D) patience uart_buf_at turns channel) v) /\
  (forall left run, typed_run yvars (tx_dma_advance (D := D) left run) v) /\
  (uart_task_started v = true -> (exists c regs, forall s : sys D, yvars s = v ->
     on_io (uart_config (s_buffered_channel v)) s = Ret (Some c) s /\ regs_of (s_buffered_channel v) s = Ret regs s) /\
     forall s, yvars s = v -> returns (tx_dma_round (D := D) uart_buf_at uart_tx_cb (s_buffered_channel v)) s (fun _ s' => yvars s' = v))).
Proof.
  split; [exact uart_typed_initial|]. intros Hv. split_and!.
  - intros channel config. by apply init_typed.
  - intros channel Hch. by apply task_start_typed.
  - intros channel byte. by apply channel_tx_typed.
  - intros turns channel. by apply tx_drain_typed.
  - intros left run. unfold tx_dma_advance. rewrite <- (bind_mret_r (on_io _)). eapply (typed_write yvars); [apply set_write|].
    apply typed_ret. by apply typed_left.
  - intros Hst. split; [by apply lookups_total|]. by apply dma_round_total.
Qed.
End ops.

(** ** Example: the demonstration's ring *)

Lemma demo_vars_typed : uart_typed demo_vars.
Proof.
  constructor; [done|done| |intros _; by exists demo_config]. intros ch [c Hc]. cbn in Hc. destruct (Z.eqb_spec ch 0) as [->|]; [by eexists|done].
Qed.

Lemma uart_well_typed_witness :
  returns (tx_dma_round (D := line) 0 4096 0) demo_sys (fun _ s' => yvars s' = demo_vars) /\
  typed_run yvars (uart_channel_tx (D := line) 5 0 0 65) demo_vars.
Proof.
  destruct (uart_well_typed (D := line) 5 0 4096 (SemUser 0) (SemUser 1) 0 0 0 0 1 demo_vars) as [_ Ht].
  destruct (Ht demo_vars_typed) as (_ & _ & Htx & _ & _ & Hround). split; [|apply Htx].
  exact (proj2 (Hround eq_refl) demo_sys eq_refl).
Defined.
