(* ===== verification/App.v ===== *)
(** * The application's machine: watchdog tasks, the DFU trigger, the way back
      (watchdog.c and dfu_trigger.c from their task code on, drivers/reset/reset.c)

    Here the parts meet: the kernel and the interrupt table, the UART, the
    boot components' state and the devices.  A task whose loop waits is given
    by what it does after each wait.  [me] is the core. *)

From Stdlib Require String.
From S2P Require Import Prelude Types Dll Kernel Invariant Scheduler Heap Task SchedulerThm Semaphore SoftTimer Board Companion Watchdog Boot Dfu Bootloader Mmio Printf Soc Gpio Gic Dma Uart UartThm UartTyped.

Record machine (E D : Type) := mkMachine { m_board : board E; m_sys : sys D }.
Arguments mkMachine {E D}. Arguments m_board {E D}. Arguments m_sys {E D}.
#[export] Instance eta_machine E D : Settable (machine E D) := fun r => mkMachine (m_board r) (m_sys r).

Module AppMessages.
Import String.
Definition confirm_sem : list Z := chars "wdt_confirm_sem".
Definition confirm_task : list Z := chars "wdt_confirm".
Definition core_kick_task : list Z := chars "wdt_core_kick".
Definition trigger_sem : list Z := chars "dfu_trigger_sem".
Definition reboot_task : list Z := chars "dfu_reboot".
Definition rebooting : list Z := chars "DFU trigger received, rebooting to bootloader" ++ [13; 10].
End AppMessages.

Section app.
Context {E D : Type} `{BlockDevice E} `{Mmio D} `{!Cp15 D}.
Abbreviation A := (M (machine E D)).

Definition on_board {T} (m : Bd E T) : A T := zoom m_board (fun b s => mkMachine b (m_sys s)) m.
Definition on_sys {T} (m : M (sys D) T) : A T := zoom m_sys (fun y s => mkMachine (m_board s) y) m.
Definition on_dev {T} (m : Io D UartVars T) : A T := on_sys (on_io m).
Definition on_kernel {T} (m : K T) : A T := on_sys (on_k m).

Variable patience : nat.
Variable me : Z.
(** [cpsid i] *)
Definition cpsid : K unit := modify (fun k => k <| k_irq_masked ::= fun f => <[me := true]> f |>).

(** ** reset.c *)

(** The linker's bounds of the stacks. *)
Variables (fiq_stack_bottom svc_stack_top : Z).

Definition system_hard_reset : A unit := on_board watchdog_trigger_reset.

(** [for (uint32_t *p = bottom; p < top; p++) *p = 0;] *)
Definition zero_stacks : Io D UartVars unit :=
  for_ (Z.to_nat ((svc_stack_top - fiq_stack_bottom + 3) / 4)) 0 (fun i => store32 (fiq_stack_bottom + 4 * i) 0).

Definition enter_bootloader : A unit :=
  on_kernel cpsid;;
  on_board companion_core_reset_active;;
  on_dev gentimer_disable;;
  on_dev (gic_disable me);;
  on_dev (gpio_off 16);;
  on_dev zero_stacks;;
  on_dev (uart_deinit patience);;
  on_dev dsb;;
  stop (Jump BOOTLOADER_START_ADDR).

(** ** dfu_trigger.c *)

Definition dfu_trigger_feed_isr (byte : Z) : A unit :=
  hit ← on_board (dfu_trigger_feed byte);
  if hit : bool then on_kernel (semaphore_give me SemDfu);; mret tt else mret tt.

Variables (uart_buf_at trap : Z) (uart_data_ready : semref).

(** [dfu_reboot_task] first waits on its semaphore, without a time limit... *)
Definition dfu_reboot_wait : K attempt := semaphore_take me SemDfu SEMAPHORE_TAKE_BLOCKING.
Definition request_dfu : Bd E unit :=
  upd_flags (fun f => f <| dfu_requested := DFU_REQUEST |>);;
  upd_flags (fun f => f <| reset_reason := RESET_REASON_SOFTWARE |>);;
  upd_flags (fun f => f <| bf_magic := BOOT_FLAGS_MAGIC |>).
(** ...and then reboots. *)
Definition dfu_reboot : A unit :=
  on_sys (uart_print patience uart_buf_at uart_data_ready me AppMessages.rebooting);;
  on_kernel cpsid;;
  on_board request_dfu;;
  enter_bootloader.

(** [reboot_task]: the address of [dfu_reboot_task]. *)
Definition dfu_trigger_task_start (reboot_task : Z) : A StatusCode :=
  on_board dfu_trigger_reset;;
  on_kernel (semaphore_init SemDfu 1 0 (Some AppMessages.trigger_sem));;
  p ← on_kernel (task_create trap me reboot_task 1024 TASK_PRIORITY_5 0 (Some AppMessages.reboot_task));
  mret p.1.

(** ** watchdog.c *)

(** The two timers and the semaphore; the addresses of the functions. *)
Variables (s_watchdog_kick_timer s_confirm_timer : Z) (s_confirm_semaphore : semref).
Variables (kick_cb confirm_timer_cb confirm_task core_kick_task : Z).
Variable timer_fuel : nat.

Definition watchdog_confirm_timer_cb : K unit := semaphore_give me s_confirm_semaphore;; mret tt.
(** [watchdog_confirm_task]: its wait, and what follows it before it idles. *)
Definition watchdog_confirm_wait : K attempt := semaphore_take me s_confirm_semaphore SEMAPHORE_TAKE_BLOCKING.
Definition watchdog_confirm : Bd E StatusCode := wdt_meta_confirm_slot.

Definition watchdog_task_start : A StatusCode :=
  cfg ← on_board (gets (fun b => s_config (b_wdt b)));
  match cfg with
  | None => mret E_NOT_INITIALIZED
  | Some c =>
      ret ← on_kernel (software_timer_create timer_fuel me (Some s_watchdog_kick_timer) WDT_KICK_PERIOD (Some kick_cb) TIMER_MODE_PERIODIC);
      if decide (ret <> E_OK) then mret ret else
      ret ← on_kernel (software_timer_reset timer_fuel me (Some s_watchdog_kick_timer));
      if decide (ret <> E_OK) then mret ret else
      cf ← on_board (gets (fun b => wdt_configs (b_wdt b) c));
      if 0 <=? confirm_delay_ms cf then
        let delay := if 0 <? confirm_delay_ms cf then confirm_delay_ms cf else 1 in
        on_kernel (semaphore_init s_confirm_semaphore 1 0 (Some AppMessages.confirm_sem));;
        p ← on_kernel (task_create trap me confirm_task 512 TASK_PRIORITY_1 0 (Some AppMessages.confirm_task));
        if decide (p.1 <> E_OK) then mret p.1 else
        ret ← on_kernel (software_timer_create timer_fuel me (Some s_confirm_timer) delay (Some confirm_timer_cb) TIMER_MODE_ONE_SHOT);
        if decide (ret <> E_OK) then mret ret else
        ret ← on_kernel (software_timer_reset timer_fuel me (Some s_confirm_timer));
        if decide (ret <> E_OK) then mret ret else mret E_OK
      else mret E_OK
  end.

(** A round of [watchdog_core_kick_task]: the report, then the delay. *)
Definition watchdog_core_kick_round : A StatusCode :=
  on_board (watchdog_core_kick me);;
  on_kernel (task_delay_ms me WDT_CORE_KICK_PERIOD);;
  mret E_OK.

Definition watchdog_core_task_start : A StatusCode :=
  cfg ← on_board (gets (fun b => s_config (b_wdt b)));
  match cfg with
  | None => mret E_NOT_INITIALIZED
  | Some c =>
      cf ← on_board (gets (fun b => wdt_configs (b_wdt b) c));
      if negb (multicore_mode cf) || bool_decide (companion_core_ctx cf = None) then mret E_INVALID_ARGS else
      p ← on_kernel (task_create trap me core_kick_task 512 TASK_PRIORITY_1 0 (Some AppMessages.core_kick_task));
      mret p.1
  end.
End app.

(** ** The way back

    What [enter_bootloader] relies on of the machine, beside the UART: the
    registers it silences hold what was last written to them, no other access
    changes them or CNTP_CTL, and no access changes the RAM (no DMA is under
    way). *)
Definition control (r : Z) : Prop := r = GICC_CTLR \/ ARM_LOCAL_BASE + 0x40 <= r < ARM_LOCAL_BASE + 0x60.

Class Controls (D : Type) `{Mmio D} `{!Cp15 D} `{!Plain D control} := {
  ctl_timer : D -> Z;
  same_controls d d' := ctl_timer d' = ctl_timer d /\ forall r, control r -> reg (P := control) d' r = reg (P := control) d r;
  ctl_write : forall r v d m, control r -> ctl_timer (io_write r v (d, m)).1 = ctl_timer d;
  other_read : forall r d m, ~ control r -> let '(_, (d', m')) := io_read r (d, m) in m' = m /\ same_controls d d';
  other_write : forall r v d m, ~ control r -> let '(d', m') := io_write r v (d, m) in m' = m /\ same_controls d d';
  timer_write : forall v d, ctl_timer (cp_write CNTP_CTL v d) = v /\
    forall r, control r -> reg (P := control) (cp_write CNTP_CTL v d) r = reg (P := control) d r
}.

(** The pins of a UART's configuration exist. *)
Definition pins_ok (v : UartVars) : Prop :=
  forall c, s_uart_configs v UART_CHANNEL_PRINT = Some c -> 0 <= tx_pin c < 60 /\ (rx_pin c <> UART_PIN_NONE -> 0 <= rx_pin c < 60).

Section silence.
Context {D : Type} `{!Mmio D, !Cp15 D, !Plain D control, !Controls D}.
Implicit Types (t : io D UartVars).
Abbreviation G := (Io D UartVars).

(** An access that concerns none of that. *)
Record elsewhere t t' : Prop := {
  el_vars : io_vars t' = io_vars t;
  el_ram : io_ram t' = io_ram t;
  el_controls : same_controls (io_dev t) (io_dev t')
}.
#[local] Instance elsewhere_preorder : PreOrder elsewhere.
Proof.
  split; [by split; [| |split]|]. intros t1 t2 t3 [H1 H2 [H3 H4]] [H1' H2' [H3' H4']]. split; [congruence|congruence|split; [congruence|]].
  intros r Hr. by rewrite H4', H4.
Qed.

Lemma rd_elsewhere E (r : Z) : ~ control r -> keeps E elsewhere (rd r : G Z).
Proof. intros Hr t. unfold runs, rd. pose proof (other_read r (io_dev t) (io_ram t) Hr) as Ho. destruct (io_read r _) as [v [d m]]. by destruct Ho. Qed.
Lemma wr_elsewhere E (r v : Z) : ~ control r -> keeps E elsewhere (wr r v : G unit).
Proof. intros Hr t. unfold runs, wr. pose proof (other_write r v (io_dev t) (io_ram t) Hr) as Ho. destruct (io_write r v _) as [d m]. by destruct Ho. Qed.
Lemma rmw_elsewhere E (r : Z) (f : Z -> Z) : ~ control r -> keeps E elsewhere (rmw r f : G unit).
Proof. intros Hr. apply keeps_bind; [by apply rd_elsewhere|]. intros v. by apply wr_elsewhere. Qed.
Lemma wait_elsewhere (n : nat) (r : Z) (test : Z -> bool) : ~ control r -> keeps hangs elsewhere (wait_while n r test : G unit).
Proof.
  intros Hr. induction n as [|n IH]; cbn [wait_while]; [by apply keeps_stop|]. apply keeps_bind; [by apply rd_elsewhere|].
  intros v. destruct (test v); [apply IH|apply keeps_ret].
Qed.

(** The UART and the GPIO are elsewhere. *)
Lemma low_uncontrolled (r : Z) : r < ARM_LOCAL_BASE -> ~ control r.
Proof. unfold control, GICC_CTLR, GICC_BASE, ARM_LOCAL_BASE. lia. Qed.
Lemma set_function_elsewhere E (pin : Z) (f : GPIOFunc) : 0 <= pin < 60 -> keeps E elsewhere (gpio_set_function pin f : G unit).
Proof.
  intros Hp t. unfold gpio_set_function, element. assert (0 <= pin / 10 < 6) as Hq by dlia. rewrite (proj2 (Z.ltb_lt _ _) (proj2 Hq)).
  apply runs_bind, runs_ret, rmw_elsewhere, low_uncontrolled. unfold GPFSEL, GPIO_BASE, ARM_LOCAL_BASE. lia.
Qed.
Lemma gpio_off_elsewhere E (pin : Z) : 0 <= pin < 64 -> keeps E elsewhere (gpio_off pin : G unit).
Proof.
  intros Hp t. unfold gpio_off, element. assert (0 <= pin / 32 < 2) as Hq by dlia. rewrite (proj2 (Z.ltb_lt _ _) (proj2 Hq)).
  apply runs_bind, runs_ret, wr_elsewhere, low_uncontrolled. unfold GPCLR, GPIO_BASE, ARM_LOCAL_BASE. lia.
Qed.
Lemma dsb_elsewhere E : keeps E elsewhere (dsb : G unit).
Proof. intros t. by split; [| |split]. Qed.

Lemma uart_deinit_elsewhere (patience : nat) t : pins_ok (io_vars t) ->
  runs (uart_deinit patience) t (fun _ t' => elsewhere t t') (fun w t' => hangs w /\ elsewhere t t').
Proof.
  intros Hp. unfold uart_deinit, uart_channel_deinit. change (uart_channel_regs UART_CHANNEL_PRINT) with (Some UART0_BASE). cbv beta iota.
  assert (forall (m : G unit) (k : unit -> G unit) (u : io D UartVars), keeps hangs elsewhere m -> elsewhere t u ->
    (forall u', elsewhere t u' -> runs (k tt) u' (fun _ t' => elsewhere t t') (fun w t' => hangs w /\ elsewhere t t')) ->
    runs (m ≫= k) u (fun _ t' => elsewhere t t') (fun w t' => hangs w /\ elsewhere t t')) as Hseq.
  { intros m k u Hm Hu Hk. rstep. eapply runs_mono; [apply Hm| |].
    - intros [] u' Hu'. apply Hk. by transitivity u.
    - intros w u' [Hw Hu']. split; [done|by transitivity u]. }
  apply Hseq; [|done|].
  { unfold uart_channel_drain. change (uart_channel_regs UART_CHANNEL_PRINT) with (Some UART0_BASE). by apply wait_elsewhere, low_uncontrolled. }
  intros u1 Hu1. apply Hseq; [by apply rmw_elsewhere, low_uncontrolled|done|]. intros u2 Hu2. apply Hseq; [by apply rmw_elsewhere, low_uncontrolled|done|].
  intros u3 Hu3. apply Hseq; [by apply wr_elsewhere, low_uncontrolled|done|]. intros u4 Hu4.
  apply Hseq; [by apply wr_elsewhere, low_uncontrolled|done|]. intros u5 Hu5.
  rstep. unfold runs at 1. change (uart_config UART_CHANNEL_PRINT u5) with (Ret (s_uart_configs (io_vars u5) UART_CHANNEL_PRINT) u5). rewrite (el_vars _ _ Hu5).
  destruct (s_uart_configs (io_vars t) UART_CHANNEL_PRINT) as [c|] eqn:Hc; [|by rstep].
  destruct (Hp c Hc) as [Htx Hrx]. apply Hseq; [by apply set_function_elsewhere|done|]. intros u6 Hu6.
  unfold when. destruct (Z.eqb_spec (rx_pin c) UART_PIN_NONE) as [_|Hne]; cbn [negb]; [by rstep|].
  eapply runs_mono; [apply (set_function_elsewhere hangs); by apply Hrx| |]; [intros [] u7 Hu7|intros w u7 [Hw Hu7]; split; [done|]]; by transitivity u6.
Qed.

(** No timer and no interrupt of this core is on. *)
Definition silent (me : Z) (d : D) : Prop :=
  ctl_timer d = 0 /\ reg (P := control) d GICC_CTLR = 0 /\
  has (reg (P := control) d (CORE_TIMER_IRQCNTL me)) (shl 1 1) = false /\ has (reg (P := control) d (CORE_MBOX_IRQCNTL me)) (shl 1 0) = false.
Lemma silent_same me (d d' : D) : 0 <= me < COMPANION_CORE_MAX_CORES -> same_controls d d' -> silent me d -> silent me d'.
Proof.
  unfold COMPANION_CORE_MAX_CORES, silent. intros Hme [-> Hr]. rewrite !Hr; [done|..].
  - right. unfold CORE_MBOX_IRQCNTL. lia.
  - right. unfold CORE_TIMER_IRQCNTL. lia.
  - by left.
Qed.

Lemma timer_off t : returns (gentimer_disable (V := UartVars)) t (fun _ t' => io_vars t' = io_vars t /\ ctl_timer (io_dev t') = 0).
Proof. unfold gentimer_disable, mcr. apply returns_modify. split; [done|]. cbn. by destruct (timer_write 0 (io_dev t)). Qed.

(** A masking of a control register. *)
Lemma mask_control r bits t : control r -> 0 <= bits < 2 ^ 32 ->
  returns (rmw (V := UartVars) r (fun v => Z.land v (bnot bits))) t (fun _ t' => io_vars t' = io_vars t /\
    ctl_timer (io_dev t') = ctl_timer (io_dev t) /\ has (reg (P := control) (io_dev t') r) bits = false /\
    forall r', control r' -> r' <> r -> reg (P := control) (io_dev t') r' = reg (P := control) (io_dev t) r').
Proof.
  intros Hr Hb. unfold rmw, rd, wr. step. unfold returns. rewrite plain_read by done. cbn [io_dev io_ram field_update].
  set (v := Z.land _ _). pose proof (plain_write r v (io_dev t) (io_ram t) Hr) as Hw. pose proof (ctl_write r v (io_dev t) (io_ram t) Hr) as Ht.
  destruct (io_write r v _) as [d' m']. destruct Hw as (_ & Hv & Ho). cbn in Ht |- *. split_and!; [done|done| |done]. rewrite Hv.
  unfold v, has, bnot, wrap. apply negb_false_iff, Z.eqb_eq. apply Z.bits_inj'. intros i Hi. rewrite Z.bits_0, Z.land_spec.
  destruct (Z.lt_ge_cases i 32) as [Hlt|Hge].
  - rewrite Z.mod_pow2_bits_low, Z.land_spec, Z.lxor_spec by lia. replace (Z.testbit 0xFFFFFFFF i) with true; [by destruct (Z.testbit bits i); rewrite ?andb_false_r|].
    symmetry. exact (Z.ones_spec_low 32 i ltac:(lia)).
  - rewrite Z.mod_pow2_bits_high by lia. done.
Qed.

Lemma gic_off me t : 0 <= me < COMPANION_CORE_MAX_CORES -> ctl_timer (io_dev t) = 0 ->
  returns (gic_disable (V := UartVars) me) t (fun _ t' => io_vars t' = io_vars t /\ silent me (io_dev t')).
Proof.
  intros Hme Ht. unfold COMPANION_CORE_MAX_CORES in Hme. assert (control GICC_CTLR) as H1 by by left.
  assert (control (CORE_TIMER_IRQCNTL me)) as H2 by (right; unfold CORE_TIMER_IRQCNTL; lia).
  assert (control (CORE_MBOX_IRQCNTL me)) as H3 by (right; unfold CORE_MBOX_IRQCNTL; lia).
  assert (CORE_TIMER_IRQCNTL me <> GICC_CTLR /\ CORE_MBOX_IRQCNTL me <> GICC_CTLR /\ CORE_TIMER_IRQCNTL me <> CORE_MBOX_IRQCNTL me) as (N1 & N2 & N3)
    by (unfold CORE_TIMER_IRQCNTL, CORE_MBOX_IRQCNTL, GICC_CTLR, GICC_BASE, ARM_LOCAL_BASE; lia).
  unfold gic_disable. step. unfold returns at 1, wr. pose proof (plain_write GICC_CTLR 0 (io_dev t) (io_ram t) H1) as Hw.
  pose proof (ctl_write GICC_CTLR 0 (io_dev t) (io_ram t) H1) as Hc. destruct (io_write GICC_CTLR 0 _) as [d m]. destruct Hw as (_ & Hv & _). cbn in Hc.
  set (t1 := t <| io_dev := d |> <| io_ram := m |>). step. eapply returns_mono; [by apply (mask_control (CORE_TIMER_IRQCNTL me) (shl 1 1) t1)|]. cbv beta.
  intros _ t2 (V2 & T2 & B2 & O2). step. eapply returns_mono; [by apply (mask_control (CORE_MBOX_IRQCNTL me) (shl 1 0) t2)|]. cbv beta.
  intros _ t3 (V3 & T3 & B3 & O3). unfold dsb. apply returns_modify. cbn -[t1]. split; [by rewrite V3, V2|]. split_and!; [by rewrite T3, T2; cbn; rewrite Hc| | |done].
  - rewrite O3, O2 by auto. cbn. by rewrite Hv.
  - by rewrite O3 by auto.
Qed.

(** The stacks: every word from [bottom] on that begins below [top]. *)
Lemma zeroing_loop (bottom : Z) (n : nat) : forall i t,
  returns (for_ n i (fun i => store32 (bottom + 4 * i) 0) : G unit) t (fun _ t' => io_vars t' = io_vars t /\ io_dev t' = io_dev t /\
    (forall x, bottom + 4 * i <= x < bottom + 4 * (i + Z.of_nat n) -> io_ram t' x = 0) /\
    (forall x, x < bottom + 4 * i -> io_ram t' x = io_ram t x)).
Proof.
  induction n as [|n IH]; intros i t; cbn [for_]; [apply returns_ret; split_and!; [done|done|lia|done]|].
  unfold store32 at 1. step. apply returns_modify. eapply returns_mono; [apply IH|]. cbv beta. intros _ t' (Hv & Hd & Hz & Ho). cbn in Hv, Hd, Ho.
  split_and!; [done|done| |].
  - intros x Hx. destruct (Z.lt_ge_cases x (bottom + 4 * (i + 1))) as [Hlt|Hge]; [|apply Hz; lia]. rewrite Ho by lia.
    unfold ram_put. destruct (_ && _) eqn:Hin.
    + change (le32 0) with (replicate 4 0). destruct (replicate 4 0 !! _) eqn:Hl; [|done]. by apply lookup_replicate in Hl as [-> _].
    + apply andb_false_iff in Hin as [Hin%Z.leb_gt|Hin%Z.ltb_ge]; [lia|]. change (Z.of_nat (length (le32 0))) with 4 in Hin. lia.
  - intros x Hx. rewrite Ho by lia. apply ram_put_out. lia.
Qed.
Definition zeroed (bottom top : Z) (m : ram) : Prop := forall x, bottom <= x < top -> m x = 0.
Lemma stacks_zeroed (bottom top : Z) t : returns (zero_stacks bottom top) t (fun _ t' =>
  io_vars t' = io_vars t /\ io_dev t' = io_dev t /\ zeroed bottom top (io_ram t')).
Proof.
  unfold zero_stacks. eapply returns_mono; [apply zeroing_loop|]. cbv beta. intros _ t' (Hv & Hd & Hz & _). split_and!; [done|done|].
  intros x Hx. apply Hz. dlia.
Qed.
End silence.

Section back.
Context {E D : Type} `{BlockLaws E} `{!Mmio D, !Cp15 D, !Plain D control, !Controls D}.
Implicit Types (s : machine E D) (t : io D UartVars).

Definition same_card (b k : board E) : Prop := b_dev k = b_dev b /\ b_flags k = b_flags b.

(** The cores that were released, lowest first. *)
Definition released_cores (b : board E) : list Z := filter (fun c => Z.testbit (g_core_alive_mask (b_cores b)) c = true) [1; 2; 3].
(** They have been asked to park, and the card and the flags are as they were. *)
Definition parked (b k : board E) : Prop :=
  same_card b k /\ g_core_alive_mask (b_cores k) = 0 /\ b_hw k = b_hw b ++ map HwMailboxIpi (released_cores b).

Lemma reset_active_parks (b : board E) : returns companion_core_reset_active b (fun _ k => parked b k).
Proof.
  assert (keeps ever same_card (companion_core_reset_active (D := E))) as Hk.
  { unfold companion_core_reset_active. assert (PreOrder same_card) as Hp by (split; [done|]; intros b1 b2 b3 [] []; split; congruence).
    apply keeps_bind; [|by intros _ k]. apply keeps_for; [apply _|]. intros i. apply keeps_bind; [apply keeps_gets|]. intros m. unfold when. destruct (negb _); [by intros k|apply keeps_ret]. }
  pose proof (reset_active_sends b) as Hs. specialize (Hk b). unfold returns, runs in *. destruct (companion_core_reset_active b) as [[] k|]; [|done].
  destruct Hs. by split_and!.
Qed.

(** A driver call on the machine, from [P] to [P']: the boot state, the kernel
    and the table of handlers stay. *)
Definition around (b : board E) (q : irqs) (P : io D UartVars -> Prop) s : Prop := m_board s = b /\ y_irqs (m_sys s) = q /\ P (y_io (m_sys s)).
Lemma dev_seq (b : board E) (q : irqs) (P P' : io D UartVars -> Prop) (m : Io D UartVars unit) (k : unit -> M (machine E D) unit) s Q F :
  around b q P s -> (forall t, P t -> runs m t (fun _ t' => P' t') (fun w _ => hangs w)) ->
  (forall s', around b q P' s' -> runs (k tt) s' Q F) -> (forall s', m_board s' = b -> y_irqs (m_sys s') = q -> F Hang s') -> runs (on_dev m ≫= k) s Q F.
Proof.
  intros (Hb & Hq & Hp) Hm Hk Hf. rstep. apply runs_zoom, runs_zoom. eapply runs_mono; [apply (Hm _ Hp)| |].
  - intros [] t' Ht. by apply Hk.
  - intros w t' ->. by apply Hf.
Qed.

(** How [enter_bootloader] leaves the machine, from a board [b]: the cores
    parked and interrupts masked; and, unless the UART never drains, the timer
    and the interrupt controller silent and the stacks zero. *)
Definition went_back (me bottom top : Z) (b : board E) (w : stop_reason) s' : Prop :=
  parked b (m_board s') /\ k_irq_masked (y_irqs (m_sys s')).1 me = true /\
  (w = Hang \/ w = Jump BOOTLOADER_START_ADDR /\ silent me (io_dev (y_io (m_sys s'))) /\ zeroed bottom top (io_ram (y_io (m_sys s')))).

Lemma enter_bootloader_spec (patience : nat) (me bottom top : Z) s : 0 <= me < COMPANION_CORE_MAX_CORES -> pins_ok (io_vars (y_io (m_sys s))) ->
  runs (enter_bootloader patience me bottom top) s (fun _ _ => False) (went_back me bottom top (m_board s)).
Proof.
  intros Hme Hp. unfold enter_bootloader. rstep. unfold runs at 1.
  set (q := ((y_irqs (m_sys s)).1 <| k_irq_masked ::= fun f => <[me := true]> f |>, (y_irqs (m_sys s)).2)).
  match goal with |- match ?o with _ => _ end => change o with (Ret tt (mkMachine (m_board s) (mkSys (y_io (m_sys s)) q))) end.
  cbv beta iota. rstep. apply runs_zoom, runs_returns. cbn [m_board]. eapply returns_mono; [apply reset_active_parks|].
  intros [] k Hk. set (b := m_board s) in *. set (v := io_vars (y_io (m_sys s))) in *.
  assert (k_irq_masked q.1 me = true) as Hq by (unfold q; cbn; by rewrite fn_lookup_insert).
  assert (forall s', m_board s' = k -> y_irqs (m_sys s') = q -> went_back me bottom top b Hang s') as Hhang.
  { intros s' Hb' Hq'. unfold went_back. rewrite Hb', Hq'. split_and!; [done|done|by left]. }
  assert (forall (P : io D UartVars -> Prop) (m : Io D UartVars unit), (forall t t', P t -> elsewhere t t' -> P t') -> keeps hangs elsewhere m ->
    forall t, P t -> runs m t (fun _ t' => P t') (fun w _ => hangs w)) as Helse.
  { intros P m HP Hm t Ht. eapply runs_mono; [apply Hm|intros [] t' He; by apply (HP t)|by intros w t' [Hw _]]. }
  set (P2 t := io_vars t = v /\ silent me (io_dev t)). set (P4 t := P2 t /\ zeroed bottom top (io_ram t)).
  assert (forall t t', P2 t -> elsewhere t t' -> P2 t') as HP2.
  { intros t t' [Hv Hs] [Hv' _ Hc']. split; [by rewrite Hv'|]. by apply (silent_same me (io_dev t)). }
  assert (forall t t', P4 t -> elsewhere t t' -> P4 t') as HP4.
  { intros t t' [H2 Hz] He. split; [by apply (HP2 t)|]. rewrite (el_ram _ _ He). exact Hz. }
  eapply (dev_seq k q (fun t => io_vars t = v) (fun t => io_vars t = v /\ ctl_timer (io_dev t) = 0)); [done| | |exact Hhang].
  { intros t Ht. apply runs_returns. eapply returns_mono; [apply timer_off|]. cbv beta. intros _ t' [-> ?]. by split. }
  intros s1 S1. eapply (dev_seq k q _ P2); [exact S1| | |exact Hhang].
  { intros t [Ht Htm]. apply runs_returns. eapply returns_mono; [by apply (gic_off me)|]. cbv beta. intros _ t' [Hv ?]. split; [by rewrite Hv|done]. }
  intros s2 S2. eapply (dev_seq k q _ P2); [exact S2|apply Helse; [exact HP2|by apply gpio_off_elsewhere]| |exact Hhang].
  intros s3 S3. eapply (dev_seq k q _ P4); [exact S3| | |exact Hhang].
  { intros t [Ht Hsl]. apply runs_returns. eapply returns_mono; [apply stacks_zeroed|]. cbv beta. intros _ t' (Hv & Hd & Hz). split; [|done]. split; [by rewrite Hv|by rewrite Hd]. }
  intros s4 S4. eapply (dev_seq k q _ P4); [exact S4| | |exact Hhang].
  { intros t Ht. eapply runs_mono; [apply uart_deinit_elsewhere; destruct Ht as [[-> _] _]; exact Hp|intros [] t' He; by apply (HP4 t)|by intros w t' [Hw _]]. }
  intros s5 S5. eapply (dev_seq k q _ P4); [exact S5|apply Helse; [exact HP4|apply dsb_elsewhere]| |exact Hhang].
  intros s6 (Hb6 & Hq6 & [[_ Hsl] Hz]). rsteps. unfold went_back. rewrite Hb6, Hq6. split_and!; [done|done|by right].
Qed.

Lemma policy_keeps_request (m : WdtMeta) (f : BootFlags) : dfu_requested f = DFU_REQUEST -> dfu_requested (boot_policy m f).1.2 = DFU_REQUEST.
Proof.
  intros Hf. unfold boot_policy, after_trial, after_tolerance. repeat case_match; simplify_eq; done.
Qed.

(** C38: the DFU key reboots into the upload.  Once its message is out,
    [dfu_reboot] masks the interrupts of its core and asks exactly the released
    companion cores, lowest first, to park; and on a machine whose control
    registers hold what is written ([Controls]) it enters the bootloader at
    0x10000 only with the timer and the interrupt controller of its core off
    and every byte of the stacks zero.  The only other way it can end is a UART
    that never drains; the UART's pins are pins there are ([pins_ok]).  The card
    is as it was and the boot flags, whatever they held, carry the request, so
    that the bootloader's initialisation, on any metadata and under any reset
    policy, ends with the request still standing. *)
Theorem dfu_reboot_reaches_upload (patience : nat) (me bottom top buf : Z) (sem : semref) (y : sys D) s :
  0 <= me < COMPANION_CORE_MAX_CORES ->
  uart_print patience buf sem me AppMessages.rebooting (m_sys s) = Ret tt y -> pins_ok (io_vars (y_io y)) ->
  runs (dfu_reboot patience me bottom top buf sem) s (fun _ _ => False) (fun w s' =>
    (w = Hang \/ w = Jump BOOTLOADER_START_ADDR /\ silent me (io_dev (y_io (m_sys s'))) /\ zeroed bottom top (io_ram (y_io (m_sys s')))) /\
    k_irq_masked (y_irqs (m_sys s')).1 me = true /\ b_hw (m_board s') = b_hw (m_board s) ++ map HwMailboxIpi (released_cores (m_board s)) /\
    b_dev (m_board s') = b_dev (m_board s) /\
    forall b2, buffers_ok b2 -> b_flags b2 = b_flags (m_board s') ->
      returns bootloader_init b2 (fun _ k => dfu_requested (b_flags k) = DFU_REQUEST)).
Proof.
  intros Hme Hprint Hp. unfold dfu_reboot. rstep. unfold runs at 1, on_sys, zoom. rewrite Hprint. rstep. unfold runs at 1.
  match goal with |- match ?o with _ => _ end => change o with (Ret tt (mkMachine (m_board s) (mkSys (y_io y) ((y_irqs y).1 <| k_irq_masked ::= fun f => <[me := true]> f |>, (y_irqs y).2)))) end.
  cbv beta iota. rstep. apply runs_zoom. unfold request_dfu, upd_flags. rsteps. cbn [m_board m_sys].
  eapply runs_mono; [by apply enter_bootloader_spec|done|]. intros w s' ([[Hd Hf] [_ Hh]] & Hmask & Hend). split_and!; [exact Hend|exact Hmask|exact Hh|exact Hd|].
  intros b2 Hb2 Hfl. eapply returns_mono; [by apply bootloader_init_spec|]. intros [] k [m0 [pol _ _ Hfs _ _ _ _]].
  assert (flags_init (b_flags b2) = b_flags b2) as Hinit by (unfold flags_init; by rewrite Hfl, Hf).
  assert (dfu_requested pol.1.2 = DFU_REQUEST) as Hreq by (apply policy_keeps_request; rewrite Hinit, Hfl, Hf; done).
  destruct pol.2; [destruct Hfs as (ok & -> & _)|rewrite Hfs]; exact Hreq.
Qed.

(** ** Confirming a trial *)

(** The tolerance policy does not switch slots: there is none, or it asks for an
    upload. *)
Definition no_rollback (m : WdtMeta) : Prop := wdt_reset_tolerance m < 0 \/ wdt_reset_policy m <> WATCHDOG_RESET_POLICY_ROLLBACK.
Definition slot_of (m : WdtMeta) (slot : Z) : Prop := meta_ok m /\ active_app_slot m = slot /\ no_rollback m.

(** The card says: this slot, not on trial. *)
Definition confirmed (b : board E) (slot : Z) : Prop :=
  exists m, Board.contents (b_dev b) EMMC_SECTOR_METADATA = meta_sector (seal m) /\ slot_of m slot /\ app_slot_trial m = 0.

Lemma policy_confirmed (m : WdtMeta) (f : BootFlags) (slot : Z) : slot_of m slot -> app_slot_trial m = 0 ->
  slot_of (boot_policy m f).1.1 slot /\ app_slot_trial (boot_policy m f).1.1 = 0.
Proof.
  intros (Hm & Ha & Hp) Ht. unfold boot_policy, after_trial. rewrite Ht. cbn [Z.eqb]. unfold after_tolerance.
  pose proof (wrap_range 32 (wdt_reset_count m + 1) ltac:(lia)) as Hw. unfold slot_of, no_rollback, meta_ok, count_boot in *. msimpl.
  destruct (Z.leb_spec 0 (wdt_reset_tolerance m)); cbn [andb]; [|msimpl; intuition lia].
  destruct (_ <? _); [|msimpl; intuition lia]. destruct (_ =? WATCHDOG_RESET_POLICY_FORCE_UPDATE).
  { cbn [fst]. msimpl. intuition lia. }
  destruct (Z.eqb_spec (wdt_reset_policy m) WATCHDOG_RESET_POLICY_ROLLBACK); [lia|]. msimpl. intuition lia.
Qed.

Lemma boot_confirmed (b : board E) (slot : Z) : reads_succeed (D := E) -> writes_succeed (D := E) -> buffers_ok b -> confirmed b slot ->
  returns bootloader_init b (fun _ k => active_app_slot (b_meta k) = slot /\ confirmed k slot).
Proof.
  intros Hrd Hws Hb (m & Hc & Hst & Ht). eapply returns_mono; [by apply bootloader_init_spec|]. intros [] k [m0 [pol Hm0 Hm _ _ _ _ Hs]].
  specialize (Hm0 Hrd). specialize (Hs Hws). rewrite (stored_sealed _ m) in Hm0 by (done || apply Hst).
  destruct (policy_confirmed (seal m) (flags_init (b_flags b)) slot) as [Hpol Hpt]; [split; [by apply seal_ok, Hst|exact (proj2 Hst)]|exact Ht|].
  rewrite <- Hm0 in Hpol, Hpt. fold pol in Hpol, Hpt. rewrite Hm. split; [apply Hpol|]. exists pol.1.1. split; [by rewrite Hs, Hm|done].
Qed.

(** C39: a confirmed slot stays.  On a device that works, the confirmation
    task's work on a slot on trial, after however many boots, ends the trial
    on the card, and from then on every run of the bootloader's initialisation,
    whatever the boot flags, leaves that slot the active one and confirmed.
    The metadata's tolerance policy is any but ROLLBACK: none never interferes,
    FORCE_UPDATE may ask for an upload but does not switch slots; ROLLBACK,
    which watchdog.h reserves, would switch. *)
Theorem confirmed_trial_stays (b : board E) (m : WdtMeta) (slot : Z) :
  reads_succeed (D := E) -> writes_succeed (D := E) ->
  Board.contents (b_dev b) EMMC_SECTOR_METADATA = meta_sector (seal m) -> slot_of m slot ->
  returns watchdog_confirm b (fun r k => r = E_OK /\ confirmed k slot) /\
  forall b2, buffers_ok b2 -> confirmed b2 slot ->
    returns bootloader_init b2 (fun _ k => active_app_slot (b_meta k) = slot /\ confirmed k slot).
Proof.
  intros Hrd Hws Hc Hst. split; [|intros b2 Hb2; by apply boot_confirmed].
  unfold watchdog_confirm, wdt_meta_confirm_slot. step. destruct (wdt_meta_read_eq b) as (r & d & buf & Heq & Hd & [bytes Hread] & _).
  unfold returns at 1. rewrite Heq. destruct (Hrd EMMC_SECTOR_METADATA 1 (b_dev b) ltac:(lia)) as (? & ? & Hok).
  rewrite Hok in Hread. injection Hread as <- _ _. rewrite !decide_False by tauto. rewrite Hc, accepted_sector by apply Hst.
  unfold upd_meta. steps. unfold returns. rewrite wdt_meta_write_eq. bsimpl. rewrite (meta_of_sector (seal m)) by apply seal_ok, Hst.
  match goal with |- context [seal ?x] => lazymatch x with m => fail | _ => set (m2 := x) end end.
  assert (slot_of m2 slot /\ app_slot_trial m2 = 0) as Hm2.
  { destruct Hst as (Hm & Ha & Htol). pose proof (seal_ok m Hm). unfold m2, slot_of, no_rollback, meta_ok, seal in *. cbn -[wdt_meta_compute_crc] in *. intuition lia. }
  destruct (meta_sector_bytes (seal m2)) as [Hl Hb]. destruct (Hws EMMC_SECTOR_METADATA (meta_sector (seal m2)) d) as [d2 Hw]; [by vm_compute|].
  rewrite Hw. split; [done|]. exists m2. split; [|done]. by apply (write_ok _ _ _ _ Hl Hb Hw).
Qed.
End back.

(** ** Examples *)

(** A machine with the serial line [line], the registers [control] and a
    timer. *)
Record soc := mkSoc { so_line : line; so_regs : Z -> Z; so_timer : Z }.
#[export] Instance eta_soc : Settable soc := fun r => mkSoc (so_line r) (so_regs r) (so_timer r).
Definition is_control (r : Z) : bool := (r =? GICC_CTLR) || ((ARM_LOCAL_BASE + 0x40 <=? r) && (r <? ARM_LOCAL_BASE + 0x60)).
Lemma is_control_spec (r : Z) : control r <-> is_control r = true.
Proof. unfold control, is_control. lia. Qed.
#[export] Instance soc_mmio : Mmio soc := {
  io_read := fun r st => let '(d, m) := st in
    if is_control r then (so_regs d r, st) else let '(v, (l, _)) := io_read r (so_line d, m) in (v, (d <| so_line := l |>, m));
  io_write := fun r v st => let '(d, m) := st in
    if is_control r then (d <| so_regs ::= fun f => <[r := u32 v]> f |>, m) else (d <| so_line := (io_write r v (so_line d, m)).1 |>, m)
}.
#[export] Instance soc_cp15 : Cp15 soc := {
  cp_read := fun r d => (match r with CNTP_CTL => so_timer d | _ => 0 end, d);
  cp_write := fun r v d => match r with CNTP_CTL => d <| so_timer := v |> | _ => d end
}.
#[local] Obligation Tactic := idtac.
#[export] Program Instance soc_plain : Plain soc control := { reg := so_regs }.
Next Obligation. intros r d m Hr. cbn -[is_control]. by rewrite (proj1 (is_control_spec r) Hr). Qed.
Next Obligation.
  intros r v d m Hr. cbn -[is_control]. rewrite (proj1 (is_control_spec r) Hr). split_and!; [done|cbn; by rewrite fn_lookup_insert|].
  intros r' _ Hne. cbn. by rewrite fn_lookup_insert_ne.
Qed.
#[export] Program Instance soc_controls : Controls soc := { ctl_timer := so_timer }.
Next Obligation. intros r v d m Hr. cbn -[is_control]. by rewrite (proj1 (is_control_spec r) Hr). Qed.
Next Obligation.
  intros r d m Hr. assert (is_control r = false) as Hc by (destruct (is_control r) eqn:Hc; [by destruct Hr; apply is_control_spec|done]).
  change (io_read r (d, m)) with (if is_control r then (so_regs d r, (d, m)) else
    let '(v, (l, _)) := io_read (D := line) r (so_line d, m) in (v, (d <| so_line := l |>, m))).
  rewrite Hc. destruct (io_read r _) as [v [l m']]. by split_and!.
Qed.
Next Obligation. intros r v d m Hr. cbn -[is_control]. destruct (is_control r) eqn:Hc; [by destruct Hr; apply is_control_spec|]. by split_and!. Qed.
Next Obligation. by intros v d. Qed.

(** An application with two companion cores, the timer on, an empty card, and
    flags that were lost. *)
Definition demo_soc : sys soc :=
  mkSys (mkIo (mkSoc (mkLine [] false) (fun r => if is_control r then 3 else 0) 1) (io_ram (y_io demo_sys)) demo_vars [] 0 0) (y_irqs demo_sys).
Definition demo_machine : machine ram_disk soc :=
  mkMachine ((board_start (mkDisk (fun _ => [])) (mkWdtMeta 0 0 0 0 0 0 0 0 0) (mkBootFlags 0 0 0 0) []) <| b_cores ::= fun v => v <| g_core_alive_mask := 6 |> |>) demo_soc.
Definition demo_printed : sys soc :=
  match uart_print 5 0 (SemUser 0) 1 AppMessages.rebooting demo_soc with Ret _ y | Stop _ y => y end.

Lemma demo_prints : uart_print 5 0 (SemUser 0) 1 AppMessages.rebooting (m_sys demo_machine) = Ret tt demo_printed.
Proof.
  unfold demo_printed. assert (answers (uart_print 5 0 (SemUser 0) 1 AppMessages.rebooting) demo_soc (fun _ => true) = true) as Ha by (vm_compute; reflexivity).
  unfold answers in Ha. cbn [m_sys demo_machine]. by destruct (uart_print 5 0 (SemUser 0) 1 AppMessages.rebooting demo_soc) as [[]|].
Qed.
Lemma demo_pins : pins_ok (io_vars (y_io demo_printed)).
Proof.
  intros c Hc. assert (Some demo_config = Some c) as Hs by (rewrite <- Hc; vm_compute; reflexivity).
  clear Hc. apply (inj Some) in Hs as <-. vm_compute. repeat split; try discriminate.
Qed.
(** The line drains. *)
Lemma demo_enters : runs (dfu_reboot 5 1 4096 4104 0 (SemUser 0)) demo_machine (fun _ _ => False) (fun w _ => w = Jump BOOTLOADER_START_ADDR).
Proof. vm_compute. reflexivity. Qed.

Lemma dfu_reboot_reaches_upload_witness :
  runs (dfu_reboot 5 1 4096 4104 0 (SemUser 0)) demo_machine (fun _ _ => False) (fun w s' =>
    silent 1 (io_dev (y_io (m_sys s'))) /\ zeroed 4096 4104 (io_ram (y_io (m_sys s'))) /\ b_hw (m_board s') = [HwMailboxIpi 1; HwMailboxIpi 2] /\
    returns bootloader_init (board_start (b_dev (m_board s')) (mkWdtMeta 0 0 0 0 0 0 0 0 0) (b_flags (m_board s')) []) (fun _ k =>
      dfu_requested (b_flags k) = DFU_REQUEST)).
Proof.
  assert (0 <= 1 < COMPANION_CORE_MAX_CORES) as Hme by by vm_compute.
  eapply runs_mono; [exact (runs_and _ _ _ _ _ _ demo_enters (dfu_reboot_reaches_upload 5 1 4096 4104 0 (SemUser 0) demo_printed demo_machine Hme demo_prints demo_pins))|intros [] s' [[] _]|].
  cbv beta. intros w s' [-> (Hend & _ & Hh & _ & Hb)]. destruct Hend as [Hw|(_ & Hs & Hz)]; [discriminate Hw|].
  split_and!; [exact Hs|exact Hz|rewrite Hh; vm_compute; exact eq_refl|]. apply Hb; [by split; apply zero_sector_ok|exact eq_refl].
Defined.

Lemma confirmed_trial_stays_witness :
  returns watchdog_confirm trial_board (fun _ k =>
    returns bootloader_init (board_start (b_dev k) trial_meta (b_flags k) []) (fun _ k2 => active_app_slot (b_meta k2) = APP_SLOT_B)).
Proof.
  assert (slot_of trial_meta APP_SLOT_B) as Hst by (split_and!; [apply trial_meta_state|done|by left]).
  destruct (confirmed_trial_stays trial_board trial_meta APP_SLOT_B ram_reads ram_writes trial_board_meta Hst) as [Hc Hb].
  eapply returns_mono; [exact Hc|]. cbv beta. intros r k [_ Hk].
  eapply returns_mono; [apply (Hb (board_start (b_dev k) trial_meta (b_flags k) [])); [by split; apply zero_sector_ok|exact Hk]|].
  cbv beta. by intros [] k2 [Ha _].
Defined.
