(* ===== verification/Startup.v ===== *)
(** * Start-up: what the kernel's initialisers establish

    From the cleared .bss to the first tasks: [booting] describes the kernel
    between two calls of an image's [kmain], as far as the [plan] of what has
    been initialised says; each initialiser moves it on, [scheduler_start]
    hands over in it, and it implies [System.starts], from which the theorems
    about the running kernel start. *)

From S2P Require Import Prelude Types Dll Telemetry Kernel Stack Invariant Scheduler Heap Task SchedulerThm Semaphore Mutex Queue SoftTimer System.

(** ** The plan *)

(** Mutexes initialised, each with its [inheritance_enabled]; semaphores
    initialised, timers armed, cores initialised; the heap's offset, and the
    tasks created on each core. *)
Record plan := mkPlan {
  p_mtx : list (Z * Z); p_sem : list semref; p_armed : list Z; p_cores : list Z; p_off : Z; p_tasks : Z -> Z
}.
#[export] Instance eta_plan : Settable plan :=
  fun r => mkPlan (p_mtx r) (p_sem r) (p_armed r) (p_cores r) (p_off r) (p_tasks r).

Definition nothing_yet : plan := mkPlan [] [] [] [] 0 (fun _ => 0).

Section booting.
(** The initial count and the bound of each semaphore of the image. *)
Context (init : semref -> Z * Z).

(** The priority each task is created with. *)
Context (rank : tcb -> Z).

(** The stack of [t] begins at [b]. *)
Definition home (t : tcb) (b : sptr) (off : Z) : Prop :=
  match t, b with
  | Pool _ _, HeapPtr o => 0 <= o /\ o + 4 <= off
  | Idle c, IdlePtr c' w => c' = c /\ w = 0
  | _, _ => False
  end.

(** A task that can be switched to: its watermark is in place and its saved
    frame is within its memory. *)
Record enterable (k : kstate) (t : tcb) : Prop := {
  en_base : exists b, stack_base (k_tcbs k t) = Some b /\ home t b (k_heap_offset k) /\ stack_word k b = TASK_WATERMARK;
  en_frame : exists p, current_sp (k_tcbs k t) = Some p /\ sptr_ok (sptr_add p 14) = true
}.

Lemma enterable_ext k k' t : enterable k t -> stack_base (k_tcbs k' t) = stack_base (k_tcbs k t) -> current_sp (k_tcbs k' t) = current_sp (k_tcbs k t) ->
  k_heap_offset k <= k_heap_offset k' -> (forall a, a < k_heap_offset k -> k_heap k' a = k_heap k a) ->
  (forall c, t = Idle c -> idle_stack (k_cores k' c) = idle_stack (k_cores k c)) -> enterable k' t.
Proof.
  intros [(b & Hb & Hh & Hw) (p & Hp & Hok)] E1 E2 Ho Hheap Hidle. split; [|exists p; by rewrite E2].
  exists b. rewrite E1. split; [done|]. destruct t as [c i|c], b as [o|c' w]; cbn in *; try done.
  - split; [lia|]. rewrite <- Hw. unfold heap_load32. by rewrite !Hheap by lia.
  - destruct Hh as [-> ->]. split; [done|]. by rewrite (Hidle c).
Qed.

Definition unready (l : lref) : Prop := match l with LReady _ _ => False | _ => True end.

Record booting (pl : plan) (k : kstate) : Prop := {
  bt_sched : exists Q, sched_inv [] k Q /\ forall l, unready l -> Q l = [];
  bt_locks : k_held k = [];
  bt_heap : heap_ok k;
  bt_off : k_heap_offset k = p_off pl;
  bt_count : forall c, k_task_counter k c = p_tasks pl c;
  bt_tasks : forall t, live k t -> enterable k t;
  bt_reasons : forall t, wakeup_reason (k_tcbs k t) = WAKEUP_REASON_NONE;
  bt_fresh : forall c, c ∉ p_cores pl -> s_tick_count (k_cores k c) = None;
  bt_ticking : forall c, c ∈ p_cores pl -> ticking k c 0;
  bt_current : forall c t, k_current k c = Some t -> c ∈ p_cores pl;
  bt_rank : forall t, live k t -> mutexes_held (k_tcbs k t) = 0 /\ base_priority (k_tcbs k t) = rank t /\ priority (k_tcbs k t) = rank t;
  bt_mtx : forall m e, (m, e) ∈ p_mtx pl -> k_mtx k m = mkMutex MUTEX_STATE_UNLOCKED None e TASK_PRIORITY_IDLE (mtx_sync_id (k_mtx k m));
  bt_sem : forall s, s ∈ p_sem pl -> init s = (count (k_sem k s), max_count (k_sem k s)) /\
    0 <= count (k_sem k s) <= max_count (k_sem k s) /\ max_count (k_sem k s) < 2 ^ 32;
  bt_timers : exists Lb, timers_ok k Lb [] /\ forall t, t ∈ Lb -> t ∈ p_armed pl
}.

Lemma booting_zero : booting nothing_yet kernel_zero.
Proof.
  split; cbn; try done; try (by intros ? ?%elem_of_nil).
  - exists (fun _ => []). split; [apply kernel_zero_inv|done].
  - intros [c i|c]; cbn; [lia|by intros []].
  - intros [c i|c]; cbn; [lia|by intros []].
  - by intros m e ?%elem_of_nil.
  - exists []. split; [|done]. split; cbn; try done; [apply NoDup_nil_2|apply SSorted_nil].
Qed.

(** A task of a booting kernel is not blocked. *)
Lemma booting_awake k Q t : sched_inv [] k Q -> (forall l, unready l -> Q l = []) -> live k t -> runnable (current_state (k_tcbs k t)).
Proof.
  intros HI Hno Ha. pose proof (si_mem _ _ _ _ _ _ HI) as Hwf.
  destruct (si_placed _ _ _ _ _ _ HI t Ha (not_elem_of_nil _)) as [Hr|cs ce _ Hcs Hce Hl Hsync Hnone]; [done|]. exfalso.
  destruct ce as [l|].
  - apply (wf_container _ _ _ _ Hwf) in Hce. specialize (Hsync l eq_refl). rewrite Hno in Hce by (by destruct l). by apply elem_of_nil in Hce.
  - destruct Hl as [->| ->]; [by apply Hnone|]. apply (wf_container _ _ _ _ Hwf) in Hcs. rewrite Hno in Hcs by done. by apply elem_of_nil in Hcs.
Qed.

Lemma enterable_watermark k t : heap_ok k -> enterable k t -> watermark_word k t = Some TASK_WATERMARK.
Proof.
  intros [Ho _] [(b & Hb & Hh & Hw) _]. unfold watermark_word. rewrite Hb.
  assert (sptr_ok b = true) as ->; [|by rewrite Hw].
  destruct t, b as [o|c' w]; cbn in *; try done; [|by destruct Hh as [_ ->]]. apply andb_true_intro. split; apply Z.leb_le; lia.
Qed.

(** What the theorems about the running kernel start from. *)
Lemma booting_starts pl k ob : booting pl k -> (forall m, m ∈ ob_mtx ob -> exists e, (m, e) ∈ p_mtx pl) -> (forall s, s ∈ ob_sem ob -> s ∈ p_sem pl) ->
  (forall t, t ∈ p_armed pl -> t ∈ ob_timers ob) -> ob_init ob = init -> (length (ob_timers ob) <= timer_fuel)%nat ->
  ob_timers ob = [] \/ SemTimer ∈ ob_sem ob -> exists Q, starts ob k Q.
Proof.
  intros [] Hm Hs Ht Hi Hf Htm. destruct bt_sched0 as (Q & HI & Hno). exists Q. split; try done.
  - intros t Ha. apply enterable_watermark; auto.
  - intros c t Hc%bt_current0. pose proof (bt_ticking0 c Hc) as Htk. split; [|by exists 0].
    destruct Htk as (Hr & _ & _ & Hn). split; [done|by rewrite Hn].
  - intros t. by eapply booting_awake.
  - intros m Hin. destruct (Hm m Hin) as [e He]. rewrite (bt_mtx0 m e He). split; [done|]. unfold mtx_ok. rewrite (bt_mtx0 m e He). cbn. by rewrite Hno.
  - intros s Hin. destruct (bt_sem0 s (Hs s Hin)) as (H1 & H2 & H3). rewrite Hi. split; [done|]. split_and!; try lia. by rewrite Hno.
  - destruct bt_timers0 as (Lb & Hok & Hin). exists Lb, []. split; [done|]. intros t. rewrite app_nil_r. auto.
Qed.

(** ** The initialisers *)

(** [m] takes the kernel from [pl] to [pl'], and returns a value of [P]. *)
Definition boots {A} (pl : plan) (m : K A) (P : A -> Prop) (pl' : plan) : Prop :=
  forall k, booting pl k -> returns m k (fun r k' => P r /\ booting pl' k').

Lemma boots_bind {A B} pl pl1 pl2 (m : K A) (f : A -> K B) P R :
  boots pl m P pl1 -> (forall a, P a -> boots pl1 (f a) R pl2) -> boots pl (m ≫= f) R pl2.
Proof.
  intros Hm Hf k Hk. apply returns_bind. eapply returns_mono; [by apply Hm|]. cbv beta. intros a k' [Ha Hk']. by apply Hf.
Qed.

Lemma boots_ret {A} pl (a : A) (P : A -> Prop) : P a -> boots pl (mret a) P pl.
Proof. intros Ha k Hk. by apply returns_ret. Qed.

Lemma boots_at {A} pl pl' (m : K A) (P : A -> Prop) :
  (forall k, booting pl k -> exists r k', m k = Ret r k' /\ P r /\ booting pl' k') -> boots pl m P pl'.
Proof. intros Hm k Hk. destruct (Hm k Hk) as (r & k' & Heq & Hr). unfold returns. by rewrite Heq. Qed.

(** What the objects' initialisers leave alone. *)
Definition objects_only (k k' : kstate) : Prop :=
  k_tcbs k' = k_tcbs k /\ k_cores k' = k_cores k /\ k_current k' = k_current k /\ k_task_counter k' = k_task_counter k /\
  k_heap k' = k_heap k /\ k_heap_offset k' = k_heap_offset k /\ k_held k' = k_held k.

Lemma booting_objects pl pl' k k' : booting pl k -> objects_only k k' ->
  p_off pl' = p_off pl -> p_tasks pl' = p_tasks pl -> p_cores pl' = p_cores pl ->
  (forall Q, sched_inv [] k Q -> (forall l, unready l -> Q l = []) -> sched_inv [] k' Q) ->
  (forall m e, (m, e) ∈ p_mtx pl' -> k_mtx k' m = mkMutex MUTEX_STATE_UNLOCKED None e TASK_PRIORITY_IDLE (mtx_sync_id (k_mtx k' m))) ->
  (forall s, s ∈ p_sem pl' -> init s = (count (k_sem k' s), max_count (k_sem k' s)) /\
    0 <= count (k_sem k' s) <= max_count (k_sem k' s) /\ max_count (k_sem k' s) < 2 ^ 32) ->
  (exists Lb, timers_ok k' Lb [] /\ forall t, t ∈ Lb -> t ∈ p_armed pl') -> booting pl' k'.
Proof.
  intros [] (E1 & E2 & E3 & E4 & E5 & E6 & E7) P1 P2 P3 Hq Hm Hs Ht.
  assert (forall t, live k' t -> live k t) as Hlive by (intros [c i|c]; cbn; by rewrite ?E2, ?E4).
  split; rewrite ?P1, ?P2, ?P3, ?E3, ?E4, ?E6, ?E7; try done.
  - destruct bt_sched0 as (Q & HI & Hno). exists Q. auto.
  - unfold heap_ok. by rewrite E6.
  - intros t Ha%Hlive. apply (enterable_ext k); auto; [by rewrite E1..|by rewrite E6|by intros; rewrite E5|by intros; rewrite E2].
  - by rewrite E1.
  - by rewrite E2.
  - unfold ticking. by rewrite E2.
  - intros t Ha%Hlive. rewrite E1. auto.
Qed.

Lemma timers_same pl k k' : booting pl k -> k_timers k' = k_timers k -> k_blocked_head k' = k_blocked_head k -> k_active_head k' = k_active_head k ->
  exists Lb, timers_ok k' Lb [] /\ forall t, t ∈ Lb -> t ∈ p_armed pl.
Proof. intros [] E1 E2 E3. destruct bt_timers0 as (Lb & Hok & Hin). exists Lb. split; [by apply (timers_ok_ext k)|done]. Qed.

Lemma semaphore_init_boots pl s mx initial name parent : init s = (initial, mx) -> 0 <= initial <= mx -> mx < 2 ^ 32 ->
  boots pl (semaphore_init_with_parent s mx initial name parent) (fun _ => True) (pl <| p_sem ::= cons s |>).
Proof.
  intros Hi H1 H2. apply boots_at. intros k Hk. pose proof (bt_locks _ _ Hk) as Hh.
  destruct (telemetry_register_sync SYNC_KIND_SEMAPHORE parent name (k_tel k)) as [id te] eqn:Ht.
  exists tt, (k <| k_dm ::= reset_list (LSem s) |> <| k_tel := te |> <| k_sem ::= fun f => <[s := mkSemaphore mx initial id]> f |>).
  split_and!; [|done|].
  - unfold semaphore_init_with_parent, semaphore_init_common, telemetry_register.
    unfold_K. cbn -[filter telemetry_register_sync]. rewrite Ht. cbn -[filter].
    by rewrite fn_insert_insert, fn_lookup_insert, Hh.
  - apply (booting_objects pl _ k); try done.
    + intros Q HI Hno. apply sinv_reset; [exact HI|by apply Hno].
    + apply (bt_mtx _ _ Hk).
    + intros s' Hs. cbn. rewrite fn_insert_lookup. case_decide as He; [by subst s'|]. apply (bt_sem _ _ Hk).
      by apply elem_of_cons in Hs as [->|].
    + by apply (timers_same pl k).
Qed.

(** The mutexes of a plan, with the entry of [m] set to [e]. *)
Definition with_mtx (m e : Z) (ms : list (Z * Z)) : list (Z * Z) := (m, e) :: filter (fun x => x.1 <> m) ms.

Lemma elem_of_with_mtx m e ms m' e' : (m', e') ∈ with_mtx m e ms <-> if decide (m = m') then e' = e else (m', e') ∈ ms.
Proof.
  unfold with_mtx. rewrite elem_of_cons, list_elem_of_filter. cbn. case_decide as Hm; [subst m'|]; split.
  - intros [[= ->]|[? _]]; done.
  - intros ->. by left.
  - intros [[= -> _]|[_ ?]]; done.
  - intros Hin. right. by split.
Qed.

Lemma mutex_init_boots pl m name : boots pl (mutex_init m name) (fun _ => True) (pl <| p_mtx ::= with_mtx m 0 |>).
Proof.
  apply boots_at. intros k Hk. destruct (bt_sched _ _ Hk) as (Q & HI & Hno).
  destruct (mutex_init_eq m name k Q HI (bt_locks _ _ Hk) (Hno (LMutex m) I)) as (te & id & Heq & _).
  eexists _, _. split; [exact Heq|split; [done|]]. apply (booting_objects pl _ k); try done.
  - intros Q' HI' Hno'. apply sinv_reset; [exact HI'|by apply Hno'].
  - intros m' e Hm%elem_of_with_mtx. cbn. rewrite fn_insert_lookup. case_decide; [by subst|by apply (bt_mtx _ _ Hk)].
  - apply (bt_sem _ _ Hk).
  - by apply (timers_same pl k).
Qed.

Lemma set_inheritance_boots pl me m e0 e : (m, e0) ∈ p_mtx pl ->
  boots pl (mutex_set_inheritance me m e) (fun r => r = E_OK) (pl <| p_mtx ::= with_mtx m e |>).
Proof.
  intros Hin. apply boots_at. intros k Hk. destruct (bt_sched _ _ Hk) as (Q & HI & Hno). pose proof (bt_mtx _ _ Hk m e0 Hin) as Hm.
  pose proof (rep_num _ _ _ (si_mem _ _ _ _ _ _ HI (LMutex m))) as Hnum. rewrite (Hno (LMutex m) I) in Hnum.
  pose proof (set_inheritance_unlocked me m e k ltac:(by rewrite Hm) Hnum (bt_locks _ _ Hk)) as Heq.
  eexists _, _. split; [exact Heq|split; [done|]]. apply (booting_objects pl _ k); try done.
  - intros m' e' Hm'%elem_of_with_mtx. cbn. rewrite fn_insert_lookup. case_decide; [subst; by rewrite Hm|by apply (bt_mtx _ _ Hk)].
  - apply (bt_sem _ _ Hk).
  - by apply (timers_same pl k).
Qed.

Lemma no_timers_boots pl h : p_armed pl = [] -> boots pl (set_head h None) (fun _ => True) pl.
Proof.
  intros Ha. apply boots_at. intros k Hk. exists tt, (with_head h None k). split; [apply set_head_eq|split; [done|]].
  destruct (bt_timers _ _ Hk) as (Lb & [] & Hin). rewrite Ha in Hin.
  assert (Lb = []) as -> by (destruct Lb as [|t Lb]; [done|]; by specialize (Hin t (list_elem_of_here _ _)) as ?%elem_of_nil).
  destruct h; (apply (booting_objects pl _ k); try done; [apply (bt_mtx _ _ Hk)|apply (bt_sem _ _ Hk)|]); (exists []; split; [by split|by rewrite Ha]).
Qed.

Lemma software_timer_init_boots pl : p_armed pl = [] -> init SemTimer = (0, SEMAPHORE_MAX_COUNT_UNLIMITED) ->
  boots pl software_timer_init (fun r => r = E_OK) (pl <| p_sem ::= cons SemTimer |>).
Proof.
  intros Ha Hi. do 2 (eapply boots_bind; [by apply no_timers_boots|intros _ _]).
  eapply boots_bind; [apply (semaphore_init_boots pl SemTimer SEMAPHORE_MAX_COUNT_UNLIMITED 0); [exact Hi|unfold SEMAPHORE_MAX_COUNT_UNLIMITED; lia..]|intros _ _].
  by apply boots_ret.
Qed.

Lemma heap_malloc_boots pl me size : 0 <= size -> p_off pl + 4 * ((size + 3) / 4) <= HEAP_SIZE_BYTES ->
  boots pl (heap_malloc me size) (fun r => r = Some (p_off pl)) (pl <| p_off ::= fun o => o + 4 * ((size + 3) / 4) |>).
Proof.
  intros Hs Hfit. apply boots_at. intros k Hk. destruct Hk. rewrite <- bt_off0 in Hfit.
  eexists _, _. split; [by apply heap_malloc_fits|]. rewrite bt_off0 in *. split; [done|].
  destruct bt_heap0 as [Ho Hm]. rewrite bt_off0 in *. assert (0 <= (size + 3) / 4) by (apply Z.div_pos; lia).
  split; try done; cbn.
  - split; cbn; [lia|]. Z.div_mod_to_equations; lia.
  - intros t Ha. apply (enterable_ext k); auto. cbn. lia.
  - destruct bt_timers0 as (Lb & Hok & Hin). exists Lb. split; [by apply (timers_ok_ext k)|done].
Qed.

Lemma upd_queue_boots pl q f : boots pl (upd_queue q f) (fun _ => True) pl.
Proof.
  apply boots_at. intros k Hk. eexists _, _. split; [reflexivity|split; [done|]].
  apply (booting_objects pl _ k); try done; [apply (bt_mtx _ _ Hk)|apply (bt_sem _ _ Hk)|by apply (timers_same pl k)].
Qed.

Lemma register_boots pl kind parent name : boots pl (telemetry_register kind parent name) (fun _ => True) pl.
Proof.
  apply boots_at. intros k Hk. unfold telemetry_register. destruct (telemetry_register_sync kind parent name (k_tel k)) as [id te].
  eexists _, _. split; [reflexivity|split; [done|]].
  apply (booting_objects pl _ k); try done; [apply (bt_mtx _ _ Hk)|apply (bt_sem _ _ Hk)|by apply (timers_same pl k)].
Qed.

Lemma spinlock_init_boots pl l : boots pl (spinlock_init l) (fun _ => True) pl.
Proof.
  apply boots_at. intros k Hk. eexists tt, k. split; [|done]. unfold spinlock_init. unfold_K.
  pose proof (bt_locks _ _ Hk) as Hh. f_equal. destruct k. cbn in *. by subst.
Qed.

Lemma queue_init_boots pl me q cap isize name : 0 < cap < 2 ^ 32 -> 0 < isize -> cap * isize < 2 ^ 32 ->
  p_off pl + 4 * ((cap * isize + 3) / 4) <= HEAP_SIZE_BYTES -> init (SemData q) = (0, cap) -> init (SemSpace q) = (cap, cap) ->
  boots pl (queue_init me q cap isize name) (fun r => r = E_OK)
    (pl <| p_off ::= fun o => o + 4 * ((cap * isize + 3) / 4) |> <| p_sem ::= cons (SemData q) |> <| p_sem ::= cons (SemSpace q) |>).
Proof.
  intros Hc Hi Hsz Hroom Hd Hs. assert (u32 (cap * isize) = cap * isize) as Hw by (apply wrap_small; nia).
  unfold queue_init. eapply boots_bind; [apply upd_queue_boots|intros _ _].
  eapply boots_bind; [rewrite Hw; apply heap_malloc_boots; [nia|done]|]. cbv beta. intros buf ->.
  eapply boots_bind; [apply upd_queue_boots|intros _ _]. eapply boots_bind; [apply register_boots|intros id _].
  eapply boots_bind; [apply upd_queue_boots|intros _ _]. eapply boots_bind; [apply semaphore_init_boots; [done|lia..]|intros _ _].
  eapply boots_bind; [apply semaphore_init_boots; [done|lia..]|intros _ _]. eapply boots_bind; [apply spinlock_init_boots|intros _ _].
  by apply boots_ret.
Qed.

(** [task_create_eq], field by field. *)
Lemma task_create_fields trap me task_function depth prio params name (k : kstate) Q (n := k_task_counter k me) (off := k_heap_offset k) :
  sched_inv [] k Q -> k_held k = [] -> heap_ok k -> 0 <= me < COMPANION_CORE_MAX_CORES -> 0 <= n < MAX_NUM_TASKS ->
  16 <= depth < 2 ^ 16 -> 0 <= prio -> off + 4 * depth <= HEAP_SIZE_BYTES ->
  exists k', task_create trap me task_function depth prio params name k = Ret (E_OK, Some (Pool me n)) k' /\
    sched_inv [] k' (<[LReady me (clamp_priority prio) := Q (LReady me (clamp_priority prio)) ++ [NState (Pool me n)]]> Q) /\
    word (HeapPtr off) k' 0 = stack_image depth task_function trap params 0 /\
    (forall a, a < off \/ off + 4 * depth <= a -> k_heap k' a = k_heap k a) /\
    k_heap_offset k' = off + 4 * depth /\ k_task_counter k' = <[me := n + 1]> (k_task_counter k) /\
    k_tcbs k' = <[Pool me n := new_tcb me n depth (clamp_priority prio) off (k_tcbs k (Pool me n))]> (k_tcbs k) /\
    k_cores k' = k_cores k /\ k_current k' = k_current k /\ k_held k' = k_held k /\ k_mtx k' = k_mtx k /\ k_sem k' = k_sem k /\
    k_timers k' = k_timers k /\ k_blocked_head k' = k_blocked_head k /\ k_active_head k' = k_active_head k.
Proof.
  intros HI Hh Hheap Hme Hn Hd Hp Hroom.
  destruct (task_create_eq trap me task_function depth prio params name k Q HI Hh Hheap Hme Hn Hd Hp Hroom)
    as (h & d' & te & Heq & HI' & Hw & Hrest).
  eexists. split; [exact Heq|]. split; [exact HI'|]. split; [apply Hw; lia|]. split; [exact Hrest|]. by repeat split.
Qed.

Lemma task_create_boots pl trap me task_function depth prio params name :
  0 <= me < COMPANION_CORE_MAX_CORES -> 0 <= p_tasks pl me < MAX_NUM_TASKS -> 16 < depth < 2 ^ 16 -> 0 <= prio ->
  p_off pl + 4 * depth <= HEAP_SIZE_BYTES -> clamp_priority prio = rank (Pool me (p_tasks pl me)) ->
  boots pl (task_create trap me task_function depth prio params name) (fun r => r = (E_OK, Some (Pool me (p_tasks pl me))))
    (pl <| p_off ::= fun o => o + 4 * depth |> <| p_tasks ::= fun f => <[me := f me + 1]> f |>).
Proof.
  intros Hme Hn Hd Hp Hroom Hrank. apply boots_at. intros k [].
  destruct bt_sched0 as (Q & HI & Hno). rewrite <- bt_count0 in *. rewrite <- bt_off0 in *. assert (16 <= depth < 2 ^ 16) as Hd' by lia.
  destruct (task_create_fields trap me task_function depth prio params name k Q HI bt_locks0 bt_heap0 Hme Hn Hd' Hp Hroom)
    as (k' & Heq & HI' & Hw & Hrest & E1 & E2 & E3 & E4 & E5 & E6 & E7 & E8 & E9 & E10 & E11). pose proof bt_heap0 as [Ho Hm].
  exists (E_OK, Some (Pool me (k_task_counter k me))), k'. split; [exact Heq|split; [done|]]. clear Heq.
  assert (forall t, live k' t -> t <> Pool me (k_task_counter k me) -> live k t) as Hold.
  { intros t Ha Hne. destruct t as [c i|c]; cbn in *; rewrite ?E2, ?E4 in Ha; [|done]. rewrite fn_insert_lookup in Ha.
    case_decide as Hc; [|done]. subst c. assert (i <> k_task_counter k me) by congruence. lia. }
  split; rewrite ?E4, ?E5, ?E6, ?E7, ?E8; try done.
  - eexists. split; [exact HI'|]. intros l Hl. rewrite fn_lookup_insert_ne; [by apply Hno|by intros <-].
  - unfold heap_ok. rewrite E1. split; [lia|]. Z.div_mod_to_equations; lia.
  - rewrite E1. cbn. by rewrite bt_off0.
  - intros c. rewrite E2. cbn. rewrite !fn_insert_lookup. by case_decide; rewrite <- ?bt_count0.
  - intros t Ha. destruct (decide (t = Pool me (k_task_counter k me))) as [->|Hne].
    + split; rewrite E3, fn_lookup_insert; eexists; (split; [reflexivity|]).
      * rewrite E1. split; [cbn; lia|]. unfold word, stack_image in Hw. rewrite decide_False in Hw by lia. cbn in Hw.
        rewrite <- Hw. cbn. by rewrite Z.add_0_r.
      * cbn. apply andb_true_intro. split; apply Z.leb_le; lia.
    + apply (enterable_ext k); rewrite ?E1, ?E3, ?E4, ?fn_lookup_insert_ne by congruence; try done; [|lia|intros a Ha'; apply Hrest; lia].
      by apply bt_tasks0, Hold.
  - intros t. rewrite E3, fn_insert_lookup. by case_decide.
  - unfold ticking. by rewrite E4.
  - intros t Ha. rewrite E3, fn_insert_lookup. case_decide as Ht; [subst t; cbn; by rewrite Hrank|]. apply bt_rank0, Hold; [done|congruence].
  - destruct bt_timers0 as (Lb & Hok & Hin). exists Lb. split; [by apply (timers_ok_ext k)|done].
Qed.

Lemma tel_boots pl f : boots pl (tel f) (fun _ => True) pl.
Proof.
  apply boots_at. intros k Hk. eexists _, _. split; [reflexivity|split; [done|]].
  apply (booting_objects pl _ k); try done; [apply (bt_mtx _ _ Hk)|apply (bt_sem _ _ Hk)|by apply (timers_same pl k)].
Qed.

(** [scheduler_init_until], field by field. *)
Lemma scheduler_init_fields `{Hooks} idle_func c clk new_hz tick0 (k : kstate) Q : sched_inv [] k Q -> k_held k = [] ->
  0 <= c < COMPANION_CORE_MAX_CORES -> s_tick_count (k_cores k c) = None -> k_task_counter k c = 0 ->
  exists k' st, scheduler_init idle_func c (Some clk) new_hz (Some tick0) k =
      (dfu_ret ← (if c =? 0 then dfu_trigger_task_start c else mret E_OK);
       if decide (dfu_ret = E_OK)
       then tel (telemetry_report_boot_milestone BOOT_MS_SCHEDULER_INIT_DONE BOOT_STAGE_APP c);; mret E_OK
       else mret dfu_ret) k' /\
    sched_inv [] k' (<[LReady c 0 := [NState (Idle c)]]> Q) /\ st 0 = TASK_WATERMARK /\
    k_cores k' = <[c := initialised c clk new_hz st (k_cores k c)]> (k_cores k) /\
    k_tcbs k' = <[Idle c := idle_tcb_init c]> (k_tcbs k) /\
    k_heap_offset k' = k_heap_offset k /\ k_heap k' = k_heap k /\ k_task_counter k' = k_task_counter k /\
    k_current k' = k_current k /\ k_held k' = k_held k /\ k_mtx k' = k_mtx k /\ k_sem k' = k_sem k /\
    k_timers k' = k_timers k /\ k_blocked_head k' = k_blocked_head k /\ k_active_head k' = k_active_head k.
Proof.
  intros HI Hh Hc Hf Hn. destruct (scheduler_init_until idle_func c clk new_hz tick0 k Q HI Hh Hc Hf Hn) as (d' & st & te & Heq & HI' & Hst).
  eexists _, st. split; [exact Heq|]. split; [exact HI'|]. split; [by rewrite Hst|]. by repeat split.
Qed.

Lemma scheduler_init_boots `{Hooks} pl pl' idle_func c clk new_hz tick0 :
  0 <= c < COMPANION_CORE_MAX_CORES -> c ∉ p_cores pl -> p_tasks pl c = 0 -> new_hz <> 0 -> rank (Idle c) = TASK_PRIORITY_IDLE ->
  boots (pl <| p_cores ::= cons c |>) (if c =? 0 then dfu_trigger_task_start c else mret E_OK) (fun r => r = E_OK) pl' ->
  boots pl (scheduler_init idle_func c (Some clk) new_hz (Some tick0)) (fun r => r = E_OK) pl'.
Proof.
  intros Hc Hnew Hn Hz Hrank Hhook k []. destruct bt_sched0 as (Q & HI & Hno).
  destruct (scheduler_init_fields idle_func c clk new_hz tick0 k Q HI bt_locks0 Hc (bt_fresh0 c Hnew) ltac:(by rewrite bt_count0))
    as (k' & st & Heq & HI' & Hst & E1 & E2 & E3 & E4 & E5 & E6 & E7 & E8 & E9 & E10 & E11 & E12).
  unfold returns. rewrite Heq. clear Heq.
  match goal with |- match ?m k' with _ => _ end => change (returns m k' (fun r k'' => r = E_OK /\ booting pl' k'')) end.
  apply returns_bind. eapply returns_mono; [apply Hhook|].
  2: { cbv beta. intros r k2 [-> Hk2]. rewrite decide_True by done. apply returns_bind. eapply returns_mono; [by apply tel_boots|].
       cbv beta. intros _ k3 [_ Hk3]. by apply returns_ret. }
  assert (forall t, live k' t -> t <> Idle c -> live k t) as Hold.
  { intros t Ha Hne. destruct t as [c' i|c']; cbn in *; rewrite ?E1, ?E5 in Ha; [done|]. by rewrite fn_lookup_insert_ne in Ha by congruence. }
  split; rewrite ?E3, ?E5, ?E6, ?E7, ?E8, ?E9; try done.
  - eexists. split; [exact HI'|]. intros l Hl. rewrite fn_lookup_insert_ne; [by apply Hno|by intros <-].
  - unfold heap_ok. by rewrite E3.
  - intros t Ha. destruct (decide (t = Idle c)) as [->|Hne].
    + split; rewrite E2, fn_lookup_insert; eexists; (split; [reflexivity|]); [|done].
      split; [done|]. cbn. by rewrite E1, fn_lookup_insert.
    + apply (enterable_ext k); rewrite ?E2, ?E3, ?E4, ?fn_lookup_insert_ne by congruence; try done.
      * by apply bt_tasks0, Hold.
      * intros c' ->. by rewrite E1, fn_lookup_insert_ne by congruence.
  - intros t. rewrite E2, fn_insert_lookup. by case_decide.
  - intros c' [Hne Hc']%not_elem_of_cons. rewrite E1, fn_lookup_insert_ne by done. by apply bt_fresh0.
  - intros c' Hc'. unfold ticking. rewrite E1. destruct (decide (c = c')) as [<-|Hne].
    + rewrite fn_lookup_insert. repeat split; by try apply Hc.
    + rewrite fn_lookup_insert_ne by done. apply bt_ticking0. by apply elem_of_cons in Hc' as [->|].
  - intros c' t Hc'. cbn. right. by eapply bt_current0.
  - intros t Ha. rewrite E2, fn_insert_lookup. case_decide as Ht; [by subst t|]. apply bt_rank0, Hold; [done|congruence].
  - destruct bt_timers0 as (Lb & Hok & Hin). exists Lb. split; [by apply (timers_ok_ext k)|done].
Qed.

Lemma switch_boots pl me k : booting pl k -> me ∈ p_cores pl ->
  exists t k', scheduler_switch_context me k = Ret tt k' /\ k_current k' me = Some t /\ live k' t /\ booting pl k'.
Proof.
  intros Hk Hme. pose proof Hk as []. destruct bt_sched0 as (Q & HI & Hno).
  assert (live k (Idle me)) as Hidle by (destruct (bt_ticking0 me Hme) as (Hr & _ & _ & Hn); split; [done|by rewrite Hn]).
  destruct (switch_context_eq me k Q HI bt_locks0 Hidle) as (p & t & _ & Hin & _ & Hsw & HI').
  { intros u Hu. apply enterable_watermark; [done|]. apply bt_tasks0. by destruct (si_current _ _ _ _ _ _ HI _ _ Hu). }
  destruct (member_ready _ _ _ _ _ _ _ _ _ HI Hin) as (u & [= <-] & Ha & _); [apply not_elem_of_nil|].
  set (k0 := k <| k_held ::= cons (LkSched me) |>) in *. set (k1 := pick me t (requeue me k0)) in *.
  assert (forall A (f : TaskControlBlock -> A) v, (forall r s, f (r <| current_state := s |>) = f r) -> f (k_tcbs k1 v) = f (k_tcbs k v)) as Hf
    by (intros A f v Hf; exact (switch_tcb_field f me t k0 v Hf)).
  assert (k_mtx k1 = k_mtx k /\ k_sem k1 = k_sem k /\ k_heap k1 = k_heap k /\ k_heap_offset k1 = k_heap_offset k /\ k_cores k1 = k_cores k /\
          k_task_counter k1 = k_task_counter k /\ k_timers k1 = k_timers k /\ k_blocked_head k1 = k_blocked_head k /\ k_active_head k1 = k_active_head k)
    as (E1 & E2 & E3 & E4 & E5 & E6 & E7 & E8 & E9) by (unfold k1, requeue; destruct (running_on k0 me); done).
  assert (forall v, live k1 v <-> live k v) as Hlive by (intros v; unfold live; by rewrite E5, E6).
  exists t, k1. split; [exact Hsw|]. split; [unfold k1; by rewrite pick_current, decide_True|]. split; [by apply Hlive|].
  split; rewrite ?E1, ?E2, ?E4, ?E5, ?E6; try done.
  - by exists Q.
  - change (filter (fun h => h <> LkSched me) (k_held (requeue me k0)) = []).
    assert (k_held (requeue me k0) = [LkSched me]) as -> by (unfold requeue; destruct (running_on k0 me); cbn; by rewrite bt_locks0).
    apply filter_own_lock.
  - unfold heap_ok. by rewrite E4.
  - intros v Hv%Hlive. apply (enterable_ext k); rewrite ?E4, ?E3, ?E5; auto; first [by apply (Hf _ stack_base)|by apply (Hf _ current_sp)|lia].
  - intros v. by rewrite (Hf _ wakeup_reason).
  - unfold ticking. by rewrite E5.
  - intros c v. unfold k1. rewrite pick_current, requeue_current. case_decide as Hc; [by subst c|apply bt_current0].
  - intros v Hv%Hlive. rewrite (Hf _ mutexes_held), (Hf _ base_priority), (Hf _ priority) by done. by apply bt_rank0.
  - destruct bt_timers0 as (Lb & Hok & Hl). exists Lb. split; [by apply (timers_ok_ext k)|done].
Qed.

(** A core leaves for its first task, in a state that can run. *)
Lemma scheduler_start_boots pl me k : booting pl k -> me ∈ p_cores pl ->
  exists pc k', scheduler_start me k = Stop (Jump pc) k' /\ booting pl k'.
Proof.
  intros Hk Hme. destruct (switch_boots pl me k Hk Hme) as (t & k1 & Hsw & Hcur & Ha & Hk1).
  pose proof (tel_boots pl (telemetry_report_boot_milestone BOOT_MS_SCHEDULER_START BOOT_STAGE_APP me) k1 Hk1) as Htel.
  destruct (en_frame _ _ (bt_tasks _ _ Hk1 t Ha)) as (p & Hp & Hok).
  eexists _, _. split.
  - unfold scheduler_start. exec_with Hsw. exec. rewrite Hcur. exec. unfold start_first_task. exec.
    change (k_current _ me) with (k_current k1 me). rewrite Hcur. exec. exec. change (k_tcbs _ t) with (k_tcbs k1 t). rewrite Hp. exec.
    unfold stack_load. rewrite Hok. exec. reflexivity.
  - apply Htel.
Qed.

(** Timers created and armed before the scheduler runs: the create leaves the
    timer off the lists, the reset puts it in. *)
Lemma timers_changed_boots pl armed k tm' hb ha Lb : booting pl k -> timers_ok (timers_changed k tm' hb ha) Lb [] ->
  (forall t, t ∈ Lb -> t ∈ armed) -> booting (pl <| p_armed := armed |>) (timers_changed k tm' hb ha).
Proof.
  intros Hk Hok Hin. apply (booting_objects pl _ k); try done; [apply (bt_mtx _ _ Hk)|apply (bt_sem _ _ Hk)|]. by exists Lb.
Qed.

Lemma software_timer_create_boots pl me t p cb mode : t ∉ p_armed pl -> p <> 0 -> me ∈ p_cores pl -> (length (p_armed pl) <= timer_fuel)%nat ->
  boots pl (software_timer_create timer_fuel me (Some t) p cb mode) (fun r => r = E_OK) (pl <| p_armed ::= cons t |>).
Proof.
  intros Ht Hp Hme Hf. apply boots_at. intros k Hk. destruct (bt_timers _ _ Hk) as (Lb & Hok & Hin).
  assert (t ∉ Lb) as Hnew by auto. assert ((length Lb <= timer_fuel)%nat) as HLb.
  { pose proof (tk_nodup _ _ _ Hok) as Hnd. rewrite app_nil_r in Hnd. pose proof (submseteq_length _ _ (NoDup_submseteq _ _ Hnd Hin)). lia. }
  destruct (bt_ticking _ _ Hk me Hme) as (_ & _ & _ & Hnow). destruct (k_current k me) as [c|] eqn:Hcur.
  - destruct (create_eq timer_fuel me t p 0 cb mode c Lb [] k Hok Hnew (not_elem_of_nil _) HLb Hp Hcur Hnow) as (tm' & hb & Heq & Hok' & _).
    eexists _, _. split; [exact Heq|split; [done|]]. apply (timers_changed_boots pl _ k _ _ _ _ Hk Hok').
    intros u. rewrite elem_of_timer_insert. cbn. rewrite elem_of_cons. naive_solver.
  - set (tm' := <[t := mkSoftwareTimer 0 p mode cb TIMER_LIST_NONE None]> (k_timers k)).
    eexists _, (timers_changed k tm' (k_blocked_head k) (k_active_head k)). split_and!; [|reflexivity|].
    + unfold software_timer_create. rewrite (proj2 (Z.eqb_neq _ _) Hp). exec. unfold scheduler_get_current_task. exec.
      change (k_current _ me) with (k_current k me). rewrite Hcur. cbn. by destruct k.
    + apply (timers_changed_boots pl (t :: p_armed pl) k _ _ _ Lb Hk); [|intros u Hu; right; auto].
      destruct Hok as [H1 H2 H3 H4 H5]. split; cbn; try done.
      * apply (tchain_ext (k_timers k)); [|exact H1]. intros u Hu. unfold tm'. by rewrite fn_lookup_insert_ne by (intros <-; done).
      * apply (sorted_ext (k_timers k)); [|exact H4]. intros u Hu. unfold tm'. by rewrite fn_lookup_insert_ne by (intros <-; done).
      * intros u. unfold tm'. rewrite fn_insert_lookup. case_decide as Hu; [subst u|apply H5]. cbn. unfold tag.
        by rewrite !decide_False by done.
Qed.

Lemma software_timer_reset_boots pl me t : t ∈ p_armed pl -> me ∈ p_cores pl -> (length (p_armed pl) <= timer_fuel)%nat ->
  boots pl (software_timer_reset timer_fuel me (Some t)) (fun r => r = E_OK) pl.
Proof.
  intros Ht Hme Hf. apply boots_at. intros k Hk. destruct (bt_timers _ _ Hk) as (Lb & Hok & Hin).
  assert ((length Lb <= timer_fuel)%nat) as HLb.
  { pose proof (tk_nodup _ _ _ Hok) as Hnd. rewrite app_nil_r in Hnd. pose proof (submseteq_length _ _ (NoDup_submseteq _ _ Hnd Hin)). lia. }
  destruct (bt_ticking _ _ Hk me Hme) as (_ & _ & _ & Hnow).
  destruct (reset_eq timer_fuel me t 0 Lb [] k Hok HLb ltac:(cbn; lia) Hnow) as (tm' & hb & ha & Heq & Hok' & _).
  eexists _, _. split; [exact Heq|split; [done|]]. replace pl with (pl <| p_armed := p_armed pl |>) by (by destruct pl).
  apply (timers_changed_boots pl _ k _ _ _ _ Hk Hok'). intros u. rewrite elem_of_timer_insert, list_elem_of_filter. naive_solver.
Qed.
End booting.
