(* ===== verification/Image.v ===== *)
(** * What every image starts before its own tasks

    The kernel's part of the services that [kmain] starts in each sample -- the
    DFU trigger, the UART's transmit task, the software timers, the watchdog --
    and what their start does to the [plan] of [Startup].  What these functions
    do besides (registers, boot reports) is App's; here they are tied to it. *)

From S2P Require Import Prelude Types Dll Telemetry Kernel Stack Invariant Scheduler Heap Task SchedulerThm Semaphore Mutex Queue SoftTimer System Program Startup.
From S2P Require Printf Watchdog Uart App.

(** The services' functions that the kernel is given the addresses of. *)
Inductive service :=
  | F_idle | F_trap | F_dfu_reboot | F_uart_tx | F_timer_service | F_wdt_confirm | F_wdt_core_kick | F_wdt_kick_cb | F_wdt_confirm_cb.

Definition uart_data_ready : semref := SemUser 3.
Definition uart_dma_done : semref := SemUser 4.
Definition s_confirm_semaphore : semref := SemUser 5.
Definition s_watchdog_kick_timer : Z := 0.
Definition s_confirm_timer : Z := 1.

(** What interrupt handlers and callbacks give: the timers' semaphore, the DFU
    key's, the UART's two (every print gives [uart_data_ready], too), the
    watchdog's. *)
Definition service_sems : list semref := [SemTimer; SemDfu; uart_data_ready; uart_dma_done; s_confirm_semaphore].

Section services.
Context (address : service -> Z).
Abbreviation create me f depth prio name := (task_create (address F_trap) me (address f) depth prio 0 (Some name)).

(** [dfu_trigger_task_start], with which [scheduler_init] of core 0 ends. *)
Definition dfu_start (me : Z) : K StatusCode :=
  semaphore_init SemDfu 1 0 (Some App.AppMessages.trigger_sem);;
  p ← create me F_dfu_reboot 1024 TASK_PRIORITY_5 App.AppMessages.reboot_task;
  mret p.1.
Definition image_hooks : Hooks := timer_hooks timer_fuel dfu_start.

Definition uart_start (me : Z) : K StatusCode :=
  semaphore_init uart_data_ready 1 0 (Some Uart.UartMessages.data_ready);;
  semaphore_init uart_dma_done 1 0 (Some Uart.UartMessages.dma_done);;
  p ← create me F_uart_tx 2048 TASK_PRIORITY_5 Uart.UartMessages.tx_name;
  mret p.1.

(** [watchdog_task_start], with [confirm_delay_ms] of the configuration. *)
Definition watchdog_start (me confirm_delay_ms : Z) : K StatusCode :=
  ret ← software_timer_create timer_fuel me (Some s_watchdog_kick_timer) Watchdog.WDT_KICK_PERIOD (Some (address F_wdt_kick_cb)) TIMER_MODE_PERIODIC;
  if decide (ret <> E_OK) then mret ret else
  ret ← software_timer_reset timer_fuel me (Some s_watchdog_kick_timer);
  if decide (ret <> E_OK) then mret ret else
  if 0 <=? confirm_delay_ms then
    let delay := if 0 <? confirm_delay_ms then confirm_delay_ms else 1 in
    semaphore_init s_confirm_semaphore 1 0 (Some App.AppMessages.confirm_sem);;
    p ← create me F_wdt_confirm 512 TASK_PRIORITY_1 App.AppMessages.confirm_task;
    if decide (p.1 <> E_OK) then mret p.1 else
    ret ← software_timer_create timer_fuel me (Some s_confirm_timer) delay (Some (address F_wdt_confirm_cb)) TIMER_MODE_ONE_SHOT;
    if decide (ret <> E_OK) then mret ret else
    ret ← software_timer_reset timer_fuel me (Some s_confirm_timer);
    if decide (ret <> E_OK) then mret ret else mret E_OK
  else mret E_OK.

Definition watchdog_core_start (me : Z) : K StatusCode :=
  p ← create me F_wdt_core_kick 512 TASK_PRIORITY_1 App.AppMessages.core_kick_task;
  mret p.1.

(** These are the kernel's part of App's. *)
Section parts.
Context {E D : Type} `{Board.BlockDevice E} `{Mmio.Mmio D} `{!Soc.Cp15 D}.

Lemma on_board_gets {T} (f : Board.board E -> T) (s : App.machine E D) : App.on_board (gets f) s = Ret (f (App.m_board s)) s.
Proof. by destruct s. Qed.

Lemma on_kernel_bind {T U} (m : K T) (f : T -> K U) (g : T -> M (App.machine E D) U) (s : App.machine E D) :
  (forall a s', App.m_board s' = App.m_board s -> g a s' = App.on_kernel (f a) s') ->
  (App.on_kernel m ≫= g) s = App.on_kernel (m ≫= f) s.
Proof.
  intros Hg. unfold App.on_kernel, App.on_sys, Uart.on_k, Uart.on_irqs, zoom, mbind, M_mbind in *.
  destruct (m _) as [a k|w k]; [|done]. by rewrite Hg.
Qed.
Lemma on_kernel_ret {T} (a : T) (s : App.machine E D) : (mret a : M (App.machine E D) T) s = App.on_kernel (mret a) s.
Proof. by destruct s as [b [io [k hs]]]. Qed.

Lemma watchdog_start_part me c d (s : App.machine E D) : Board.s_config (Board.b_wdt (App.m_board s)) = Some c ->
  Board.confirm_delay_ms (Board.wdt_configs (Board.b_wdt (App.m_board s)) c) = d ->
  App.watchdog_task_start me (address F_trap) s_watchdog_kick_timer s_confirm_timer s_confirm_semaphore (address F_wdt_kick_cb)
    (address F_wdt_confirm_cb) (address F_wdt_confirm) timer_fuel s = App.on_kernel (watchdog_start me d) s.
Proof.
  intros Hc Hd. unfold App.watchdog_task_start, watchdog_start.
  etrans; [eapply bind_ret, on_board_gets|]. cbv beta. rewrite Hc.
  apply on_kernel_bind. intros r1 s1 E1. case_decide; [apply on_kernel_ret|].
  apply on_kernel_bind. intros r2 s2 E2. case_decide; [apply on_kernel_ret|].
  etrans; [eapply bind_ret, on_board_gets|]. cbv beta. rewrite E2, E1, Hd.
  destruct (0 <=? d); [|apply on_kernel_ret]. apply on_kernel_bind. intros [] s3 _.
  apply on_kernel_bind. intros p s4 _. case_decide; [apply on_kernel_ret|].
  apply on_kernel_bind. intros r5 s5 _. case_decide; [apply on_kernel_ret|].
  apply on_kernel_bind. intros r6 s6 _. case_decide; apply on_kernel_ret.
Qed.

Lemma watchdog_core_start_part me c (s : App.machine E D) : Board.s_config (Board.b_wdt (App.m_board s)) = Some c ->
  Board.multicore_mode (Board.wdt_configs (Board.b_wdt (App.m_board s)) c) = true ->
  Board.companion_core_ctx (Board.wdt_configs (Board.b_wdt (App.m_board s)) c) <> None ->
  App.watchdog_core_task_start me (address F_trap) (address F_wdt_core_kick) s = App.on_kernel (watchdog_core_start me) s.
Proof.
  intros Hc Hm Hx. unfold App.watchdog_core_task_start, watchdog_core_start.
  etrans; [eapply bind_ret, on_board_gets|]. cbv beta. rewrite Hc.
  etrans; [eapply bind_ret, on_board_gets|]. cbv beta. rewrite Hm. cbn [negb orb].
  rewrite bool_decide_eq_false_2 by done. apply on_kernel_bind. intros p s1 _. apply on_kernel_ret.
Qed.

Lemma dfu_start_part me (s s' : App.machine E D) : App.on_board Board.dfu_trigger_reset s = Ret tt s' ->
  App.dfu_trigger_task_start me (address F_trap) (address F_dfu_reboot) s = App.on_kernel (dfu_start me) s'.
Proof.
  intros Hs. unfold App.dfu_trigger_task_start, dfu_start. etrans; [eapply bind_ret, Hs|].
  apply on_kernel_bind. intros [] s1 _. apply on_kernel_bind. intros p s2 _. apply on_kernel_ret.
Qed.
End parts.

End services.

(** A core's [kmain] up to the jump into its first task. *)
Definition entered (m : K StatusCode) : K unit := fun k =>
  match m k with Stop (Jump _) k' => Ret tt k' | Stop w k' => Stop w k' | Ret _ k' => Stop Hang k' end.

(** ** What a start does to the plan *)

Section plans.
Context (init : semref -> Z * Z) (rank : tcb -> Z) (address : service -> Z).
Lemma enters_bind {A} pl pl1 pl2 (m : K A) (f : A -> K StatusCode) P :
  boots init rank pl m P pl1 -> (forall a, P a -> boots init rank pl1 (entered (f a)) (fun _ => True) pl2) ->
  boots init rank pl (entered (m ≫= f)) (fun _ => True) pl2.
Proof.
  intros Hm Hf k Hk. specialize (Hm k Hk). unfold returns, entered, mbind, M_mbind in *.
  destruct (m k) as [a k'|w k']; [|done]. destruct Hm as [Ha Hk']. exact (Hf a Ha k' Hk').
Qed.

Lemma enters_start pl me : me ∈ p_cores pl -> boots init rank pl (entered (scheduler_start me)) (fun _ => True) pl.
Proof.
  intros Hme k Hk. destruct (scheduler_start_boots init rank pl me k Hk Hme) as (pc & k' & Heq & Hk'). unfold returns, entered. by rewrite Heq.
Qed.
(** The tasks created on the four cores. *)
Definition counts (n : Z * Z * Z * Z) (c : Z) : Z :=
  let '(n0, n1, n2, n3) := n in if c =? 0 then n0 else if c =? 1 then n1 else if c =? 2 then n2 else if c =? 3 then n3 else 0.
Definition bump (me : Z) (n : Z * Z * Z * Z) : Z * Z * Z * Z :=
  let '(n0, n1, n2, n3) := n in
  if me =? 0 then (n0 + 1, n1, n2, n3) else if me =? 1 then (n0, n1 + 1, n2, n3) else if me =? 2 then (n0, n1, n2 + 1, n3) else (n0, n1, n2, n3 + 1).

Lemma booting_counts pl n k : booting init rank pl k -> (forall c, p_tasks pl c = n c) -> booting init rank (pl <| p_tasks := n |>) k.
Proof. intros [] Hn. split; try done. intros c. cbn. by rewrite <- Hn. Qed.

Lemma counts_bump me n : 0 <= me < COMPANION_CORE_MAX_CORES -> forall c, <[me := counts n me + 1]> (counts n) c = counts (bump me n) c.
Proof.
  intros Hme c. unfold COMPANION_CORE_MAX_CORES in Hme. destruct n as [[[n0 n1] n2] n3]. rewrite fn_insert_lookup.
  assert (me = 0 \/ me = 1 \/ me = 2 \/ me = 3) as [->|[->|[->| ->]]] by lia; cbn;
    (case_decide as Hc; [by subst c|]); destruct (Z.eqb_spec c 0), (Z.eqb_spec c 1), (Z.eqb_spec c 2), (Z.eqb_spec c 3); congruence.
Qed.

(** There is room for a task on core [me], of the priority [rank] says. *)
Definition fits (me depth prio off : Z) (n : Z * Z * Z * Z) : bool :=
  (0 <=? me) && (me <? COMPANION_CORE_MAX_CORES) && (0 <=? counts n me) && (counts n me <? MAX_NUM_TASKS) &&
  (16 <? depth) && (depth <? 2 ^ 16) && (0 <=? prio) && (off + 4 * depth <=? HEAP_SIZE_BYTES) &&
  (clamp_priority prio =? rank (Pool me (counts n me))).

Lemma create_boots ms ss ts cs off n trap f me depth prio name : fits me depth prio off n = true ->
  boots init rank (mkPlan ms ss ts cs off (counts n)) (task_create trap me f depth prio 0 (Some name)) (fun r => r = (E_OK, Some (Pool me (counts n me))))
    (mkPlan ms ss ts cs (off + 4 * depth) (counts (bump me n))).
Proof.
  unfold fits. intros Hb. rewrite !andb_true_iff, !Z.leb_le, !Z.ltb_lt, Z.eqb_eq in Hb. destruct_and! Hb. intros k Hk.
  eapply returns_mono; [apply (task_create_boots init rank (mkPlan ms ss ts cs off (counts n))); [done..|exact Hk]|].
  intros r k' [-> Hk']. split; [done|]. apply (booting_counts _ (counts (bump me n))) in Hk'; [exact Hk'|]. by apply counts_bump.
Qed.

Lemma sem_boots pl s mx initial name : init s = (initial, mx) -> (0 <=? initial) && (initial <=? mx) && (mx <? 2 ^ 32) = true ->
  boots init rank pl (semaphore_init s mx initial name) (fun _ => True) (pl <| p_sem ::= cons s |>).
Proof. intros Hi Hb. rewrite !andb_true_iff, !Z.leb_le, Z.ltb_lt in Hb. destruct Hb as [[H1 H2] H3]. exact (semaphore_init_boots init rank pl s mx initial name _ Hi (conj H1 H2) H3). Qed.

(** *** The services *)

(** The initial counts and bounds of their semaphores. *)
Record service_init : Prop := {
  si_dfu : init SemDfu = (0, 1);
  si_data : init uart_data_ready = (0, 1);
  si_dma : init uart_dma_done = (0, 1);
  si_confirm : init s_confirm_semaphore = (0, 1);
  si_timer : init SemTimer = (0, SEMAPHORE_MAX_COUNT_UNLIMITED)
}.
Context (Hinit : service_init).

Lemma dfu_start_boots ms ss ts cs off n me : fits me 1024 TASK_PRIORITY_5 off n = true ->
  boots init rank (mkPlan ms ss ts cs off (counts n)) (dfu_start address me) (fun r => r = E_OK)
    (mkPlan ms (SemDfu :: ss) ts cs (off + 4 * 1024) (counts (bump me n))).
Proof.
  intros Hf. eapply boots_bind; [by apply sem_boots; [apply Hinit|]|intros _ _].
  eapply boots_bind; [by apply create_boots|cbv beta; intros p ->]. by apply boots_ret.
Qed.

Lemma uart_start_boots ms ss ts cs off n me : fits me 2048 TASK_PRIORITY_5 off n = true ->
  boots init rank (mkPlan ms ss ts cs off (counts n)) (uart_start address me) (fun r => r = E_OK)
    (mkPlan ms (uart_dma_done :: uart_data_ready :: ss) ts cs (off + 4 * 2048) (counts (bump me n))).
Proof.
  intros Hf. do 2 (eapply boots_bind; [by apply sem_boots; [apply Hinit|]|intros _ _]).
  eapply boots_bind; [by apply create_boots|cbv beta; intros p ->]. by apply boots_ret.
Qed.

Lemma timer_start_boots ms ss ts cs off n me : fits me 512 TASK_PRIORITY_5 off n = true ->
  boots init rank (mkPlan ms ss ts cs off (counts n)) (software_timer_start (address F_trap) me (address F_timer_service)) (fun r => r = E_OK)
    (mkPlan ms ss ts cs (off + 4 * 512) (counts (bump me n))).
Proof. intros Hf. eapply boots_bind; [by apply create_boots|cbv beta; intros p ->]. by apply boots_ret. Qed.

Lemma core_start_boots ms ss ts cs off n me : fits me 512 TASK_PRIORITY_1 off n = true ->
  boots init rank (mkPlan ms ss ts cs off (counts n)) (watchdog_core_start address me) (fun r => r = E_OK)
    (mkPlan ms ss ts cs (off + 4 * 512) (counts (bump me n))).
Proof. intros Hf. eapply boots_bind; [by apply create_boots|cbv beta; intros p ->]. by apply boots_ret. Qed.

Lemma watchdog_start_boots ms ss cs off n me delay : me ∈ cs -> 0 < delay -> fits me 512 TASK_PRIORITY_1 off n = true ->
  boots init rank (mkPlan ms ss [] cs off (counts n)) (watchdog_start address me delay) (fun r => r = E_OK)
    (mkPlan ms (s_confirm_semaphore :: ss) [s_confirm_timer; s_watchdog_kick_timer] cs (off + 4 * 512) (counts (bump me n))).
Proof.
  intros Hme Hd Hf. unfold watchdog_start. assert (forall t, t ∈ [s_watchdog_kick_timer] -> t <> s_confirm_timer) as Hne by (by intros t ->%list_elem_of_singleton).
  eapply boots_bind; [apply software_timer_create_boots; [apply not_elem_of_nil|done|done|cbn; unfold timer_fuel; lia]|].
  cbv beta. intros r ->. rewrite decide_False by (by intros []).
  eapply boots_bind; [apply software_timer_reset_boots; [by left|done|cbn; unfold timer_fuel; lia]|].
  cbv beta. intros r ->. rewrite decide_False by (by intros []). rewrite (proj2 (Z.leb_le _ _)), (proj2 (Z.ltb_lt _ _)) by lia. cbv zeta.
  eapply boots_bind; [by apply sem_boots; [apply Hinit|]|intros _ _].
  eapply boots_bind; [by apply create_boots|cbv beta; intros p ->]. rewrite decide_False by (by intros []).
  eapply boots_bind; [apply software_timer_create_boots; [intros Hin; by apply (Hne _ Hin)|lia|done|cbn; unfold timer_fuel; lia]|].
  cbv beta. intros r ->. rewrite decide_False by (by intros []).
  eapply boots_bind; [apply software_timer_reset_boots; [by left|done|cbn; unfold timer_fuel; lia]|].
  cbv beta. intros r ->. rewrite decide_False by (by intros []). by apply boots_ret.
Qed.

(** [scheduler_init] of a core, with the DFU task on core 0. *)
Lemma first_init_boots clk new_hz : new_hz <> 0 -> rank (Idle 0) = TASK_PRIORITY_IDLE -> fits 0 1024 TASK_PRIORITY_5 0 (0, 0, 0, 0) = true ->
  boots init rank nothing_yet (scheduler_init (H := image_hooks address) (address F_idle) 0 (Some clk) new_hz (Some 0)) (fun r => r = E_OK)
    (mkPlan [] [SemDfu] [] [0] 4096 (counts (1, 0, 0, 0))).
Proof.
  intros Hz Hr Hf k0 Hk0. apply (booting_counts _ (counts (0, 0, 0, 0))) in Hk0.
  2: { intros c. cbn. by repeat case_match. }
  revert k0 Hk0. apply scheduler_init_boots; [done|apply not_elem_of_nil|done|done|done|]. exact (dfu_start_boots [] [] [] [0] 0 (0, 0, 0, 0) 0 Hf).
Qed.

Lemma core_init_boots pl me clk new_hz : (0 <? me) && (me <? COMPANION_CORE_MAX_CORES) = true -> me ∉ p_cores pl -> p_tasks pl me = 0 ->
  new_hz <> 0 -> rank (Idle me) = TASK_PRIORITY_IDLE ->
  boots init rank pl (scheduler_init (H := image_hooks address) (address F_idle) me (Some clk) new_hz (Some 0)) (fun r => r = E_OK) (pl <| p_cores ::= cons me |>).
Proof.
  intros Hb Hn Ht Hz Hr. rewrite andb_true_iff, !Z.ltb_lt in Hb. apply scheduler_init_boots; [lia|done..|].
  rewrite (proj2 (Z.eqb_neq me 0)) by lia. by apply boots_ret.
Qed.
End plans.

(** The side conditions of a concrete image. *)
Ltac side := first [reflexivity | discriminate | vm_compute; reflexivity].

(** ** The services as programs

    What the tasks of the services do between their waits is no concern of the
    kernel's theorems: each is a loop around its delay or its take.  A
    semaphore that nobody gives is replaced by the timers'. *)
Inductive loop := LoopIdle | LoopEvery (ms : Z) | LoopAwait (s : semref).

Definition loop_task (given : list semref) (t : tcb) (x : loop) : action unit loop :=
  match x with
  | LoopIdle => Mem (fun _ _ d => (d, LoopIdle))
  | LoopEvery ms => Do (CDelay ms) (fun _ => LoopEvery ms)
  | LoopAwait s => Do (CTake (if decide (s ∈ given) then s else SemTimer) SEMAPHORE_TAKE_BLOCKING) (fun _ => LoopAwait s)
  end.

Lemma loop_task_obeys ob given : (forall s, s ∈ given -> s ∈ ob_sem ob) -> SemTimer ∈ ob_sem ob -> obeys ob (loop_task given) (fun _ _ => []).
Proof. intros Hg Ht t [|ms|s]; cbn; [done|by split|]. split; [case_decide; auto|done]. Qed.
