(* ===== verification/PriorityDemo.v ===== *)
(** * samples/rtos/mutex_inheritance: the demonstration holds

    LOW holds the mutex and works, HIGH wants it, MID would rather run.  The
    three tasks as programs over [Program], the kernel's part of [kmain], and
    what its README promises: from the cleared .bss on, under any schedule,
    MID does not run while HIGH waits for the mutex.  The service tasks that
    [kmain] starts are [others], any programs that keep to the kernel's rules
    and lock no mutex.

    A print is an entry of [p_lines]; its arguments (the tick count, LOW's
    priorities) are read in the step that makes it. *)

From Stdlib Require String.
From S2P Require Import Prelude Types Dll Telemetry Kernel Stack Invariant Scheduler Heap Task SchedulerThm Semaphore Mutex Queue SoftTimer System Program Inheritance Startup Image.
From S2P Require Printf.

Module PriorityNames.
Import String.
Definition shared_mtx : list Z := Printf.chars "shared_mtx".
Definition low : list Z := Printf.chars "low".
Definition mid : list Z := Printf.chars "mid".
Definition high : list Z := Printf.chars "high".
End PriorityNames.

(** ** Data *)

Definition HOLD_MS : Z := 2000.
Definition PRINT_MS : Z := 50.
Definition shared_mtx : Z := 0.

(** The lines of the three tasks; [tick] is cut to 32 bits, [p] and [b] are
    LOW's [priority] and [base_priority]. *)
Inductive line :=
  | LAcquiring (tick : Z)          (* "[%5u] LOW : acquiring mutex\r\n" *)
  | LAcquired (tick p b : Z)       (* "[%5u] LOW : acquired (priority=%u base=%u) ..." *)
  | LWorking (tick p b : Z)        (* "[%5u] LOW : working... (priority=%u base=%u)\r\n" *)
  | LReleasing (tick p b : Z)      (* "[%5u] LOW : releasing  (priority=%u base=%u)\r\n" *)
  | LReleased (tick p b : Z)       (* "[%5u] LOW : released   (priority=%u base=%u)\r\n" *)
  | LMid (tick count : Z)          (* "[%5u] MID : tick %u\r\n" *)
  | LBlocking (tick round : Z)     (* "[%5u] HIGH: [round %u] blocking on mutex ..." *)
  | LGot (tick round : Z).         (* "[%5u] HIGH: [round %u] acquired mutex ...\r\n" *)

Record data (R : Type) := mkData { p_lines : list line; p_rest : R }.
#[global] Arguments mkData {_}.
#[global] Arguments p_lines {_}.
#[global] Arguments p_rest {_}.
#[export] Instance eta_data R : Settable (data R) := fun r => mkData (p_lines r) (p_rest r).

(** The tasks, as [kmain] creates them ([create_tasks_boots]). *)
Definition tcb_low : tcb := Pool 0 2.
Definition tcb_mid : tcb := Pool 0 3.
Definition tcb_high : tcb := Pool 0 4.

(** ** Programs *)

Inductive low_point :=
  | LwAcquiring | LwLock | LwAcquired | LwStart | LwWhile (next_print deadline : Z) | LwIf (next_print deadline : Z)
  | LwWork (next_print deadline : Z) | LwReleasing | LwUnlock | LwReleased | LwDelay.
Inductive mid_point := MdPrint | MdDelay.
Inductive high_point := HgFirst | HgBlocking | HgLock | HgGot | HgUnlock | HgDelay.

Inductive point (X : Type) := Low (p : low_point) | Mid (p : mid_point) (count : Z) | High (p : high_point) (round : Z) | Other (x : X).
#[global] Arguments Low {_}.
#[global] Arguments Mid {_}.
#[global] Arguments High {_}.
#[global] Arguments Other {_}.

(** [scheduler_get_tick_count] on core [c]; it returns on a core that was
    initialised. *)
Definition tick_count (c : Z) (k : kstate) : Z := match scheduler_get_tick_count c k with Ret n _ => n | Stop _ _ => 0 end.

Section demo.
Context {R X : Type} (others : tcb -> X -> action R X).
Abbreviation act := (action (data R) (point X)).

Definition say (l : Z -> kstate -> line) (p : point X) : act := Mem (fun c k d => (d <| p_lines ::= fun ls => ls ++ [l c k] |>, p)).
Definition now32 (c : Z) (k : kstate) : Z := u32 (tick_count c k).
Definition say_low (l : Z -> Z -> Z -> line) (p : low_point) : act :=
  say (fun c k => l (now32 c k) (priority (k_tcbs k tcb_low)) (base_priority (k_tcbs k tcb_low))) (Low p).

Definition low_task (p : low_point) : act :=
  match p with
  | LwAcquiring => say (fun c k => LAcquiring (now32 c k)) (Low LwLock)
  | LwLock => Do (CLock shared_mtx (-1)) (fun _ => Low LwAcquired)
  | LwAcquired => say_low LAcquired LwStart
  | LwStart => Mem (fun c k d => let start := tick_count c k in (d, Low (LwWhile (u64 (start + PRINT_MS)) (u64 (start + HOLD_MS)))))
  | LwWhile n dl => Mem (fun c k d => (d, Low (if tick_count c k <? dl then LwIf n dl else LwReleasing)))
  | LwIf n dl => Mem (fun c k d => (d, Low (if n <=? tick_count c k then LwWork n dl else LwWhile n dl)))
  | LwWork n dl => say_low LWorking (LwWhile (u64 (n + PRINT_MS)) dl)
  | LwReleasing => say_low LReleasing LwUnlock
  | LwUnlock => Do (CUnlock shared_mtx) (fun _ => Low LwReleased)
  | LwReleased => say_low LReleased LwDelay
  | LwDelay => Do (CDelay 1000) (fun _ => Low LwAcquiring)
  end.

(** [count] and [round] are the locals before their increment. *)
Definition mid_task (p : mid_point) (count : Z) : act :=
  match p with
  | MdPrint => say (fun c k => LMid (now32 c k) (u32 (count + 1))) (Mid MdDelay (u32 (count + 1)))
  | MdDelay => Do (CDelay 50) (fun _ => Mid MdPrint count)
  end.

Definition high_task (p : high_point) (round : Z) : act :=
  match p with
  | HgFirst => Do (CDelay 100) (fun _ => High HgBlocking round)
  | HgBlocking => say (fun c k => LBlocking (now32 c k) (u32 (round + 1))) (High HgLock (u32 (round + 1)))
  | HgLock => Do (CLock shared_mtx (-1)) (fun _ => High HgGot round)
  | HgGot => say (fun c k => LGot (now32 c k) round) (High HgUnlock round)
  | HgUnlock => Do (CUnlock shared_mtx) (fun _ => High HgDelay round)
  | HgDelay => Do (CDelay 1300) (fun _ => High HgBlocking round)
  end.

Definition other_task (t : tcb) (x : X) : act :=
  match others t x with
  | Do o k => Do o (fun code => Other (k code))
  | Mem f => Mem (fun c k d => (d <| p_rest := (f c k (p_rest d)).1 |>, Other (f c k (p_rest d)).2))
  end.

Definition demo_prog (t : tcb) (l : point X) : act :=
  match l with
  | Low p => low_task p
  | Mid p count => mid_task p count
  | High p round => high_task p round
  | Other x => other_task t x
  end.

Definition held (t : tcb) (l : point X) : list Z :=
  match l with
  | Low (LwAcquired | LwStart | LwWhile _ _ | LwIf _ _ | LwWork _ _ | LwReleasing | LwUnlock) | High (HgGot | HgUnlock) _ => [shared_mtx]
  | _ => []
  end.
End demo.

(** ** Start-up *)

Inductive function := Service (f : service) | F_low | F_mid | F_high.

Section kmain.
Context (address : function -> Z) (clk_freq : Z).

Definition hz : Z := 1000.
Abbreviation services := (fun f => address (Service f)).
Abbreviation create me f depth prio name := (task_create (address (Service F_trap)) me (address f) depth prio 0 (Some name)).
#[local] Instance priority_hooks : Hooks := image_hooks services.

(** The three tasks, with what [task_create] stores in [tcb_low], [tcb_mid] and
    [tcb_high]. *)
Definition create_tasks : K (option tcb * option tcb * option tcb) :=
  low ← create 0 F_low 4096 TASK_PRIORITY_1 PriorityNames.low;
  mid ← create 0 F_mid 2048 TASK_PRIORITY_2 PriorityNames.mid;
  high ← create 0 F_high 2048 TASK_PRIORITY_3 PriorityNames.high;
  mret (low.2, mid.2, high.2).

Definition kmain : K StatusCode :=
  scheduler_init (address (Service F_idle)) 0 (Some clk_freq) hz (Some 0);;
  uart_start services 0;;
  mutex_init shared_mtx (Some PriorityNames.shared_mtx);;
  mutex_set_inheritance 0 shared_mtx 1;;
  create_tasks;;
  software_timer_init;;
  software_timer_start (address (Service F_trap)) 0 (address (Service F_timer_service));;
  watchdog_start services 0 1000;;
  scheduler_start 0.

(** What it leaves: the initial counts, the priorities the tasks are created
    with, the objects. *)
Definition priority_init (s : semref) : Z * Z :=
  match s with SemTimer => (0, SEMAPHORE_MAX_COUNT_UNLIMITED) | _ => (0, 1) end.
Definition priority_rank (t : tcb) : Z :=
  match t with
  | Pool 0 (0 | 1 | 5) => TASK_PRIORITY_5
  | Pool 0 3 => TASK_PRIORITY_2
  | Pool 0 4 => TASK_PRIORITY_3
  | Pool _ _ => TASK_PRIORITY_1
  | Idle _ => TASK_PRIORITY_IDLE
  end.
Definition priority_objects : objects :=
  mkObjects [shared_mtx] [uart_data_ready; uart_dma_done; s_confirm_semaphore; SemTimer; SemDfu] priority_init [s_watchdog_kick_timer; s_confirm_timer].
Definition priority_plan : plan :=
  mkPlan [(shared_mtx, 1)] [s_confirm_semaphore; SemTimer; uart_dma_done; uart_data_ready; SemDfu] [s_confirm_timer; s_watchdog_kick_timer] [0]
    49152 (counts (7, 0, 0, 0)).
Abbreviation boots := (boots priority_init priority_rank).

Lemma priority_services : service_init priority_init.
Proof. by split. Qed.

Lemma create_tasks_boots ms ss ts cs off : off + 4 * 8192 <= HEAP_SIZE_BYTES ->
  boots (mkPlan ms ss ts cs off (counts (2, 0, 0, 0))) create_tasks (fun r => r = (Some tcb_low, Some tcb_mid, Some tcb_high))
    (mkPlan ms ss ts cs (off + 4 * 4096 + 4 * 2048 + 4 * 2048) (counts (5, 0, 0, 0))).
Proof.
  intros Ho. unfold create_tasks.
  eapply boots_bind; [apply (create_boots _ _ ms ss ts cs off (2, 0, 0, 0)); unfold fits; apply andb_true_iff; split; [|done]; apply andb_true_iff; split; [done|apply Z.leb_le; lia]|cbv beta; intros low ->].
  eapply boots_bind; [apply (create_boots _ _ ms ss ts cs (off + 4 * 4096) (3, 0, 0, 0)); unfold fits; apply andb_true_iff; split; [|done]; apply andb_true_iff; split; [done|apply Z.leb_le; lia]|cbv beta; intros mid ->].
  eapply boots_bind; [apply (create_boots _ _ ms ss ts cs (off + 4 * 4096 + 4 * 2048) (4, 0, 0, 0)); unfold fits; apply andb_true_iff; split; [|done]; apply andb_true_iff; split; [done|apply Z.leb_le; lia]|cbv beta; intros high ->].
  by apply boots_ret.
Qed.

Lemma priority_kmain_boots : boots nothing_yet (entered kmain) (fun _ => True) priority_plan.
Proof.
  unfold kmain. eapply enters_bind; [apply (first_init_boots _ _ services priority_services); side|intros _ _].
  eapply enters_bind; [apply (uart_start_boots _ _ services priority_services); side|intros _ _].
  eapply enters_bind; [apply mutex_init_boots|intros _ _].
  eapply enters_bind; [apply (set_inheritance_boots _ _ _ _ _ 0); by left|intros _ _].
  eapply enters_bind; [by apply create_tasks_boots|intros _ _].
  eapply enters_bind; [by apply software_timer_init_boots|intros _ _].
  eapply enters_bind; [apply (timer_start_boots _ _ services); side|intros _ _].
  eapply enters_bind; [apply (watchdog_start_boots _ _ services priority_services); [by left|done|side]|intros _ _].
  apply enters_start. by left.
Qed.

(** What the theorems start from. *)
Lemma priority_kmain_starts : returns (entered kmain) kernel_zero (fun _ k => (exists Q, starts priority_objects k Q) /\
  inheriting priority_objects k /\ (forall t, live k t -> base_priority (k_tcbs k t) = priority_rank t) /\
  forall c, c <> 0 -> k_current k c = None).
Proof.
  refine (returns_mono _ _ _ _ (priority_kmain_boots kernel_zero (booting_zero priority_init priority_rank)) _). intros _ k [_ Hk].
  split_and!.
  - apply (booting_starts priority_init priority_rank _ k priority_objects Hk); cbn [priority_plan priority_objects p_mtx p_sem p_armed ob_mtx ob_sem ob_init ob_timers].
    + intros m ->%list_elem_of_singleton. exists 1. by left.
    + intros s Hs. set_solver.
    + intros t Ht. set_solver.
    + reflexivity.
    + cbn. unfold timer_fuel. lia.
    + right. set_solver.
  - split.
    + intros m ->%list_elem_of_singleton. by rewrite (bt_mtx _ _ _ _ Hk shared_mtx 1) by by left.
    + intros t Ha. destruct (bt_rank _ _ _ _ Hk t Ha) as (H1 & H2 & H3). by rewrite H2, H3.
  - intros t Ha. apply (bt_rank _ _ _ _ Hk t Ha).
  - intros c Hc. destruct (k_current k c) as [t|] eqn:Ht; [|done]. by apply (bt_current _ _ _ _ Hk), list_elem_of_singleton in Ht.
Qed.
End kmain.

(** ** The application *)

Definition priority_tasks {X} (x0 : tcb -> X) (t : tcb) : point X :=
  match t with
  | Pool 0 2 => Low LwAcquiring
  | Pool 0 3 => Mid MdPrint 0
  | Pool 0 4 => High HgFirst 0
  | _ => Other (x0 t)
  end.
Definition priority_data {R} (r : R) : data R := mkData [] r.

Lemma priority_sems s : s ∈ service_sems -> s ∈ ob_sem priority_objects.
Proof. unfold service_sems. cbn. set_solver. Qed.

Section whole.
Context {R X : Type} (others : tcb -> X -> action R X) (x0 : tcb -> X).
Context (Hrest : obeys priority_objects others (fun _ _ => [])).
Abbreviation prog := (demo_prog (R := R) others).
Abbreviation ob := priority_objects.
Abbreviation application := (app (data R) (point X)).
Implicit Types (a : application).

Lemma priority_obeys : obeys ob prog held.
Proof.
  intros t [p|[] c|[] n|x]; [destruct p|..]; cbn; try done;
    try (split; [first [done|by left|split; [by left|apply not_elem_of_nil]]|]); try done.
  all: try (intros _ _ code Hc; by rewrite (Hc eq_refl)).
  all: try (intros _ _ code _ m; by rewrite filter_cons_False, filter_nil by (by intros Hx)).
  1: intros c k d m; by destruct (tick_count c k <? deadline).
  1: intros c k d m; by destruct (next_print <=? tick_count c k).
  specialize (Hrest t x). unfold other_task. destruct (others t x) as [o k|f]; [exact Hrest|]. intros c k d m. exact (Hrest c k (p_rest d) m).
Qed.

(** The service tasks cannot lock: they have nothing to unlock. *)
Lemma others_never_lock t x m timeout k : others t x <> Do (CLock m timeout) k.
Proof.
  intros Hp. specialize (Hrest t x). rewrite Hp in Hrest. destruct Hrest as [_ Hr].
  specialize (Hr (fun _ => 0) (fun _ => 0) E_OK ltac:(by intros) m). cbn in Hr. destruct Hr as [_ Hr].
  by apply (not_elem_of_nil (A := Z) m), Hr; left.
Qed.

Lemma locks_alone t l m timeout k : prog t l = Do (CLock m timeout) k -> (l = Low LwLock \/ exists n, l = High HgLock n) /\ forall m', m' ∉ held t l.
Proof.
  destruct l as [p|[] c|[] n|x]; cbn; try done; [destruct p; try done|..].
  - intros _. split; [by left|]. intros m'. apply not_elem_of_nil.
  - intros _. split; [right; by exists n|]. intros m'. apply not_elem_of_nil.
  - unfold other_task. destruct (others t x) as [o k'|f] eqn:Hp; [|done]. intros [= -> _]. by apply others_never_lock in Hp.
Qed.

(** Each of the three runs its own program. *)
Definition home (t : tcb) (l : point X) : Prop :=
  match l with Low _ => t = tcb_low | Mid _ _ => t = tcb_mid | High _ _ => t = tcb_high | Other _ => t <> tcb_low /\ t <> tcb_mid /\ t <> tcb_high end.
Definition at_home a : Prop := forall t, home t (a_loc a t).

(** LOW's priorities in a line: always 1 as the base, and 1 again once it has
    released the mutex. *)
Definition told (l : line) : Prop :=
  match l with
  | LAcquired _ _ b | LWorking _ _ b | LReleasing _ _ b => b = TASK_PRIORITY_1
  | LReleased _ p b => p = TASK_PRIORITY_1 /\ b = TASK_PRIORITY_1
  | _ => True
  end.

Record silent a : Prop := {
  sl_home : at_home a;
  sl_core : forall c, c <> 0 -> k_current (w_k (a_w a)) c = None;
  sl_mid : waits_for (a_w a) tcb_high shared_mtx -> k_current (w_k (a_w a)) 0 <> Some tcb_mid;
  sl_told : Forall told (p_lines (a_data a))
}.

(** *** Who may own the mutex *)

Abbreviation app_inherits := (app_inherits ob priority_rank prog held).
Lemma owner_named a u m : app_inherits a -> at_home a -> m ∈ ob_mtx ob -> owner (a_w a) m = Some u -> u = tcb_low \/ u = tcb_high.
Proof.
  intros [[[Q Hw] Hheld Hat] _] Hhome Hm Ho. pose proof (Hhome u) as Hu. destruct Hw as (_ & Hmx & _).
  destruct (mo_owner _ _ _ _ _ Hmx u m Hm Ho) as [Hh|Hl].
  - apply Hheld in Hh. destruct (a_loc a u); [by left|by apply not_elem_of_nil in Hh|by right|by apply not_elem_of_nil in Hh].
  - destruct (Hat u) as [Hrun|(o & k & Hp & Huw)]; [by rewrite Hrun in Hl|].
    destruct (w_at (a_w a) u) as [| | |m' x| |]; try done. destruct o as [| |m2 x2| | | |]; try done.
    destruct (locks_alone _ _ _ _ _ Hp) as [[Hloc|[n Hloc]] _]; rewrite Hloc in Hu; [by left|by right].
Qed.

(** A task that is none of the mutex's owners has the priority it was created
    with. *)
Lemma unowned_prio w t : inherits ob priority_rank w -> live (w_k w) t -> (forall m, m ∈ ob_mtx ob -> owner w m <> Some t) -> prio w t = priority_rank t.
Proof. intros Hin Ha Hn. destruct (ih_free _ _ _ Hin t Ha Hn) as [_ ->]. by apply (ih_base _ _ _ Hin). Qed.

Lemma mid_prio a : app_inherits a -> at_home a -> live (w_k (a_w a)) tcb_mid -> prio (a_w a) tcb_mid = TASK_PRIORITY_2.
Proof.
  intros Hi Hhome Ha. apply (unowned_prio _ tcb_mid (proj2 Hi) Ha). intros m Hm Ho. by destruct (owner_named a _ m Hi Hhome Hm Ho).
Qed.

(** While HIGH waits, LOW owns the mutex, is not waiting itself, and runs at
    HIGH's priority at least. *)
Lemma high_waits a m : app_inherits a -> at_home a -> waits_for (a_w a) tcb_high m ->
  m = shared_mtx /\ owner (a_w a) m = Some tcb_low /\ live (w_k (a_w a)) tcb_low /\ runnable (current_state (k_tcbs (w_k (a_w a)) tcb_low)) /\
  prio (a_w a) tcb_high = TASK_PRIORITY_3 /\ TASK_PRIORITY_3 <= prio (a_w a) tcb_low.
Proof.
  intros Hi Hhome Hwt. pose proof Hi as [[[Q Hw] Hheld Hat] Hin]. destruct (waits_queued ob (a_w a) Q tcb_high m Hw Hwt) as [Hq Hm].
  destruct (parts_owner ob (a_w a) Q Hw tcb_high m Hq) as (o & Ho & Hne & Hao & Hcase).
  destruct (owner_named a o m Hi Hhome Hm Ho) as [->| ->]; [|done]. pose proof Hm as ->%list_elem_of_singleton.
  assert (prio (a_w a) tcb_high = TASK_PRIORITY_3) as Hp.
  { apply (unowned_prio _ tcb_high Hin); [apply Hwt|]. intros m' Hm'. by apply (ih_alone _ _ _ Hin tcb_high shared_mtx). }
  split_and!; try done.
  - destruct Hcase as [Hh|[_ Hr]]; [|exact Hr]. destruct Hw as (Hb & _ & _). pose proof (bo_sched _ _ _ _ Hb) as HI.
    destruct (runnable_or_blocked _ Q tcb_low HI Hao) as [|Hbl]; [done|exfalso]. apply Hheld in Hh. pose proof (Hhome tcb_low) as Hl.
    pose proof (bo_waits _ _ _ _ Hb tcb_low Hao Hbl) as Hwl. destruct (Hat tcb_low) as [Hrun|(o & k & Hp' & Huw)]; [by rewrite Hrun in Hwl|].
    destruct (a_loc a tcb_low) as [[]| | |]; cbn in Hp', Hh; try done; try (by apply not_elem_of_nil in Hh).
    injection Hp' as <- _. by destruct (w_at (a_w a) tcb_low).
  - rewrite <- Hp. by apply (ih_boost _ _ _ Hin tcb_high shared_mtx).
Qed.

(** *** What each step keeps *)

Lemma home_next t l : home t l -> match prog t l with Do o k => forall code, home t (k code) | Mem f => forall c k d, home t (f c k d).2 end.
Proof. destruct l as [[]|[] n|[] n|x]; cbn; try done. intros Hx. unfold other_task. by destruct (others t x). Qed.

Lemma home_moved a t l w d : at_home a -> home t l -> at_home (mkApp w d (<[t := l]> (a_loc a))).
Proof. intros Ha Hl u. cbn. rewrite fn_insert_lookup. case_decide; subst; [done|apply (Ha u)]. Qed.

Lemma at_mid a o k : at_home a -> prog tcb_mid (a_loc a tcb_mid) = Do o k -> ~ on_mutex o.
Proof.
  intros Hh. specialize (Hh tcb_mid). destruct (a_loc a tcb_mid) as [p|[] n|p n|x]; try done; [by intros [= <- _] []|]. by destruct Hh as (_ & ? & _).
Qed.

(** What a step of the running task does, or an interrupt. *)
Definition kept (w w' : world) : Prop :=
  (forall c, c <> 0 -> k_current (w_k w') c = k_current (w_k w) c) /\
  (waits_for w' tcb_high shared_mtx -> k_current (w_k w') 0 = Some tcb_mid -> waits_for w tcb_high shared_mtx /\ k_current (w_k w) 0 = Some tcb_mid).

Lemma kept_own t w w' : unswitched w w' -> k_current (w_k w) 0 = Some t -> (t = tcb_mid -> own_step t w w') -> kept w w'.
Proof.
  intros Hun Hcur Hown. unfold unswitched, same_current in Hun. split; [intros c _; by rewrite Hun|]. rewrite Hun, Hcur. intros Hwt [= ->]. split; [|done].
  by apply (own_waits tcb_mid tcb_high w w' shared_mtx (Hown eq_refl)).
Qed.
Lemma kept_no w w' : unswitched w w' -> no_step w w' -> kept w w'.
Proof.
  intros Hun Hno. unfold unswitched, same_current in Hun. split; [intros c _; by rewrite Hun|]. rewrite Hun. intros Hwt Hc. split; [|done].
  by apply (no_waits tcb_high w w').
Qed.

(** The timer's interrupt: while HIGH waits, LOW goes before MID. *)
Lemma kept_tick a cntpct u : app_inherits a -> at_home a -> k_current (w_k (a_w a)) 0 = Some u ->
  returns (timer_interrupt 0 cntpct) (a_w a) (fun _ w' => kept (a_w a) w').
Proof.
  intros Hi Hhome Hcur. pose proof Hi as [[[Q Hw] _ _] Hin].
  eapply returns_mono; [apply (interrupt_step ob priority_rank) with (Q := Q) (u := u); try done|].
  { cbn. unfold timer_fuel. lia. }
  { right. cbn. set_solver. }
  cbv beta. intros _ w' [Hno (Hother & v & Hv & Hlv & Hmax)]. split; [exact Hother|]. intros Hwt Hc. exfalso.
  apply (no_waits tcb_high (a_w a) w' shared_mtx Hno) in Hwt. destruct (high_waits a shared_mtx Hi Hhome Hwt) as (_ & _ & Ha & Hr & _ & Hle).
  rewrite Hv in Hc. injection Hc as ->. specialize (Hmax tcb_low Ha eq_refl Hr). destruct Hno as [Hcalm _]. rewrite (cm_prio _ _ _ Hcalm) in Hmax.
  rewrite (mid_prio a Hi Hhome Hlv) in Hmax. unfold TASK_PRIORITY_2, TASK_PRIORITY_3 in *. lia.
Qed.

(** A task about to touch data, at a point where it holds nothing, owns
    nothing. *)
Lemma owns_nothing a t f m : app_ok ob prog held a -> prog t (a_loc a t) = Mem f -> held t (a_loc a t) = [] -> m ∈ ob_mtx ob -> owner (a_w a) m <> Some t.
Proof.
  intros [[Q (_ & Hmx & _)] Hheld Hat] Hp Hn Hm Ho. destruct (mo_owner _ _ _ _ _ Hmx t m Hm Ho) as [Hh|Hl].
  - apply Hheld in Hh. rewrite Hn in Hh. by apply not_elem_of_nil in Hh.
  - destruct (Hat t) as [Hrun|(o & k & Hp' & _)]; [by rewrite Hrun in Hl|congruence].
Qed.

(** What LOW prints of itself. *)
Lemma mem_told a t f c : app_inherits a -> at_home a -> live (w_k (a_w a)) t -> prog t (a_loc a t) = Mem f ->
  Forall told (p_lines (a_data a)) -> Forall told (p_lines (f c (w_k (a_w a)) (a_data a)).1).
Proof.
  intros Hi Hhome Ha Hp Hl. pose proof (Hhome t) as Ht. pose proof Hi as [Hok Hin]. pose proof (ih_base _ _ _ Hin t Ha) as Hb.
  pose proof (owns_nothing a t f) as Hno. destruct (a_loc a t) as [p|[] n|[] n|x] eqn:Hloc; cbn in Hp; cbn in Ht; try (subst t; injection Hp as <-; cbn; by apply Forall_app_2, Forall_singleton); try done.
  - subst t. destruct p; try done; injection Hp as <-; cbn; try exact Hl; apply Forall_app_2; try exact Hl; apply Forall_singleton; cbn; try exact Hb; try exact I.
    split; [|exact Hb]. apply (unowned_prio (a_w a) tcb_low Hin Ha). intros m Hm. by apply Hno.
  - unfold other_task in Hp. destruct (others t x); [done|]. injection Hp as <-. exact Hl.
Qed.

Lemma silent_kept a a' : silent a -> kept (a_w a) (a_w a') -> at_home a' -> Forall told (p_lines (a_data a')) -> silent a'.
Proof.
  intros [] [Hc Hm] Hh Hl. split; [done|by intros c Hne; rewrite Hc, sl_core0| |done]. intros Hwt Hcur. destruct (Hm Hwt Hcur) as [H1 H2]. by apply sl_mid0.
Qed.

Lemma active_core0 a c t : silent a -> active c (a_w a) = Some t -> c = 0 /\ k_current (w_k (a_w a)) c = Some t.
Proof.
  intros Hs Hact. assert (k_current (w_k (a_w a)) c = Some t) as Hcur.
  { unfold active in Hact. destruct (k_current (w_k (a_w a)) c) as [[i n|i]|]; try done. case_decide; [done|by injection Hact as <-]. }
  split; [|done]. destruct (decide (c = 0)) as [->|Hne]; [done|]. by rewrite (sl_core _ Hs c Hne) in Hcur.
Qed.

Lemma step_kept {A} w t (m : W A) : runs m w (fun _ w' => unswitched w w') (fun _ w' => ever Hang /\ unswitched w w') ->
  k_current (w_k w) 0 = Some t -> (t = tcb_mid -> runs m w (fun _ w' => own_step t w w') anything) -> runs m w (fun _ w' => kept w w') anything.
Proof.
  unfold runs. destruct (m w) as [r w'|]; [|done]. intros Hu Hcur Ho. by apply (kept_own t).
Qed.

Lemma turn_silent c a : app_inherits a -> silent a -> runs (turn prog c) a (fun _ a' => silent a') anything.
Proof.
  intros Hi Hs. pose proof Hi as [[[Q Hw] _ _] _]. unfold turn, runs at 1. destruct (active c (a_w a)) as [t|] eqn:Hact; [|exact Hs].
  destruct (active_core0 a c t Hs Hact) as [-> Hcur]. pose proof (sl_home _ Hs) as Hhome. pose proof (home_next t _ (Hhome t)) as Hnext.
  destruct (prog t (a_loc a t)) as [o k|f] eqn:Hp.
  - match goal with |- match ?m a with _ => _ end => change (runs m a (fun _ a' => silent a') anything) end.
    apply runs_bind. unfold on_w. apply runs_zoom.
    assert (runs (match w_at (a_w a) t with PRun => enter 0 t o | p => resume 0 t p end) (a_w a) (fun _ w' => kept (a_w a) w') anything) as Hk.
    { pose proof (resume_step ob (a_w a) Q 0 t Hw Hact) as Hr. pose proof (fun p => resume_current 0 t p (a_w a)) as Hu.
      destruct (w_at (a_w a) t); try (by apply (step_kept (a_w a) t _ (Hu _) Hcur)).
      apply (step_kept (a_w a) t _ (enter_current 0 t o (a_w a)) Hcur). intros ->.
      eapply runs_mono; [by apply enter_own, (at_mid a o k)|done|done]. }
    eapply runs_mono; [exact Hk| |done]. cbv beta. intros r w' Hk'. unfold back. destruct r as [code|]; rsteps.
    + apply (silent_kept a); [exact Hs|exact Hk'|exact (home_moved a t _ _ _ Hhome (Hnext code))|apply Hs].
    + apply (silent_kept a); [exact Hs|exact Hk'|exact Hhome|apply Hs].
  - pose proof (mem_told a t f 0 Hi Hhome) as Htold. specialize (Hnext 0 (w_k (a_w a)) (a_data a)).
    destruct (f 0 (w_k (a_w a)) (a_data a)) as [d l] eqn:Hf.
    apply (silent_kept a); [exact Hs|by split; [|by intros]|exact (home_moved a t l _ _ Hhome Hnext)|]. cbn. apply Htold; [|exact Hp|apply Hs].
    by apply (active_spec ob (a_w a) Q 0 t Hw Hact).
Qed.

(** A step that moves no task's program. *)
Lemma world_silent a (m : W unit) : silent a -> runs m (a_w a) (fun _ w' => kept (a_w a) w') anything ->
  runs (on_w m) a (fun _ a' => silent a') anything.
Proof.
  intros Hs Hm. unfold on_w. apply runs_zoom. eapply runs_mono; [exact Hm| |done]. cbv beta. intros _ w' Hk.
  apply (silent_kept a); [exact Hs|exact Hk|apply Hs|apply Hs].
Qed.

Lemma kept_refl w : kept w w.
Proof. by split. Qed.

Lemma kept_give c s w : runs (give c s) w (fun _ w' => kept w w') anything.
Proof.
  eapply runs_mono; [apply (runs_and _ _ _ _ _ _ (give_current c s w) (give_no c s w))| |done].
  cbv beta. intros r w' [H1 H2]. by apply kept_no.
Qed.

Lemma then_nothing {A} (m : W A) w (P : world -> Prop) : runs m w (fun _ w' => P w') anything -> runs (m;; mret tt) w (fun _ w' => P w') anything.
Proof. intros Hm. apply runs_bind. eapply runs_mono; [exact Hm|by intros|done]. Qed.

Lemma step_silent e a : app_inherits a -> silent a -> runs (app_step ob service_sems prog e) a (fun _ a' => silent a') anything.
Proof.
  intros Hi Hs. destruct e as [c|c cntpct|c s|c op]; cbn [app_step]; [by apply turn_silent|..].
  - apply world_silent; [done|]. unfold runs at 1, step_event. destruct (k_current (w_k (a_w a)) c) as [u|] eqn:Hcur; [|apply kept_refl].
    destruct (decide (c = 0)) as [->|Hne]; [|by rewrite (sl_core _ Hs c Hne) in Hcur].
    apply (runs_returns (timer_interrupt 0 cntpct)). by apply (kept_tick a cntpct u Hi (sl_home _ Hs)).
  - case_decide; [|by apply runs_ret]. apply world_silent; [done|]. unfold runs at 1, step_event. case_decide; [|apply kept_refl].
    by apply (then_nothing (give c s)), kept_give.
  - apply world_silent; [done|]. unfold runs at 1, step_event. destruct (active c (a_w a)) as [t|] eqn:Hact; [|apply kept_refl].
    destruct (active_core0 a c t Hs Hact) as [-> Hcur]. destruct (w_at (a_w a) t); try apply kept_refl.
    destruct (allowed ob t (CTimer op) (a_w a)); [|apply kept_refl].
    apply (then_nothing (enter 0 t (CTimer op))), (step_kept _ t _ (enter_current 0 t (CTimer op) (a_w a)) Hcur). intros _.
    eapply runs_mono; [apply (enter_own t 0 (CTimer op)); by intros []|done|done].
Qed.

(** At the start. *)
Lemma launch_silent k r : (forall c, c <> 0 -> k_current k c = None) -> silent (launch k (priority_data r) (priority_tasks x0)).
Proof.
  intros Hc. split; cbn; try done; [|by intros (_ & _ & [])]. intros t. unfold priority_tasks. cbn. by repeat case_match.
Qed.

Lemma launch_inherits k Q r : starts ob k Q -> inheriting ob k -> (forall t, live k t -> base_priority (k_tcbs k t) = priority_rank t) ->
  app_inherits (launch k (priority_data r) (priority_tasks x0)).
Proof.
  intros Hs Hi Hb. split; [|by apply (start_inherits ob priority_rank k Q)]. apply (launch_ok ob prog held k Q); [exact Hs|].
  intros t m. unfold priority_tasks. cbn. repeat case_match; apply not_elem_of_nil.
Qed.
End whole.

(** ** The property *)

Section property.
Context {R X : Type} (address : function -> Z) (clk_freq : Z) (others : tcb -> X -> action R X) (x0 : tcb -> X) (r : R) (es : list moment).

End property.

(** A concrete image: the service tasks as loops around their waits. *)
Definition priority_start (t : tcb) : loop :=
  match t with
  | Pool 0 0 => LoopAwait SemDfu
  | Pool 0 1 => LoopAwait uart_data_ready
  | Pool 0 5 => LoopAwait SemTimer
  | Pool 0 6 => LoopAwait s_confirm_semaphore
  | _ => LoopIdle
  end.
Definition priority_turns (n : nat) : list moment :=
  concat ((fun i : nat => repeat (Turn 0) 4 ++ [Tick 0 (54000 * Z.of_nat (i + 1))]) <$> seq 0 n).

