(* ===== verification/Pipe.v ===== *)
(** * A queue between one sender and one receiver

    What the demonstrations' message queues have in common: four slots of a
    [uint32_t], written and read under the queue's lock by whoever took a
    counting semaphore for it.  [holds_messages] says what the slots hold after
    so many puts and gets; the two halves of a call of queue.c -- the take
    before and the give after -- are the phases of the two sides. *)

From S2P Require Import Prelude.

(** The slots, and [head] and [tail] of the Queue. *)
Record ring := mkRing { slots : Z -> Z; r_head : Z; r_tail : Z }.
#[export] Instance eta_ring : Settable ring := fun r => mkRing (slots r) (r_head r) (r_tail r).
Definition ring_capacity : Z := 4.

Lemma u32_succ n : u32 (u32 n + 1) = u32 (n + 1).
Proof. unfold wrap. by rewrite Zplus_mod_idemp_l. Qed.

(** The first [n] messages. *)
Definition messages (n : Z) : list Z := (fun i => u32 (Z.of_nat i)) <$> seq 0 (Z.to_nat n).
Lemma messages_next n : 0 < n -> messages n = messages (n - 1) ++ [u32 (n - 1)].
Proof.
  intros Hn. unfold messages. replace (Z.to_nat n) with (S (Z.to_nat (n - 1))) by lia.
  rewrite seq_S, fmap_app. cbn. do 3 f_equal. lia.
Qed.

(** [p] messages put, [g] got: the ring holds those in between. *)
Record holds_messages (q : ring) (g p : Z) : Prop := {
  hm_order : 0 <= g <= p;
  hm_head : r_head q = p mod ring_capacity;
  hm_tail : r_tail q = g mod ring_capacity;
  hm_slots : forall i, g <= i < p -> slots q (i mod ring_capacity) = u32 i
}.

Lemma ring_put q g p : holds_messages q g p -> p < g + ring_capacity ->
  holds_messages (mkRing (<[r_head q := u32 p]> (slots q)) ((r_head q + 1) mod ring_capacity) (r_tail q)) g (p + 1).
Proof.
  intros [H1 H2 H3 H4] Hroom. split; cbn [slots r_head r_tail]; [lia|by rewrite H2, Zplus_mod_idemp_l|done|].
  intros i Hi. rewrite H2, fn_insert_lookup. case_decide as Hm.
  - f_equal. unfold ring_capacity in *. destruct (decide (i = p)) as [->|]; [done|]. exfalso. Z.div_mod_to_equations. lia.
  - apply H4. assert (i <> p) by (intros ->; by apply Hm). lia.
Qed.

Lemma ring_get q g p : holds_messages q g p -> g < p ->
  slots q (r_tail q) = u32 g /\ holds_messages (mkRing (slots q) (r_head q) ((r_tail q + 1) mod ring_capacity)) (g + 1) p.
Proof.
  intros [H1 H2 H3 H4] Hsome. split; [rewrite H3; apply H4; lia|].
  split; cbn [slots r_head r_tail]; [lia|done|by rewrite H3, Zplus_mod_idemp_l|]. intros i Hi. apply H4. lia.
Qed.

(** ** The two sides

    Between the take of [space_available] and the copy, and between the copy
    and the give of [data_available]; likewise on the other side. *)
Inductive send_phase := Ready | Room | Put.
Inductive recv_phase := Waiting | Item | Got.

(** [dg] and [dt] count the gives and takes of [data_available], [sg] and [st]
    those of [space_available], after [p] puts and [g] gets. *)
Record pipe (q : ring) (s : send_phase) (r : recv_phase) (dg dt sg st p g : Z) : Prop := {
  pp_holds : holds_messages q g p;
  pp_given : dg = match s with Put => p - 1 | _ => p end;
  pp_space : st = match s with Room => p + 1 | _ => p end;
  pp_taken : dt = match r with Item => g + 1 | _ => g end;
  pp_freed : sg = match r with Got => g - 1 | _ => g end;
  pp_put : s = Put -> 0 < p;
  pp_got : r = Got -> 0 < g
}.

Lemma pipe_zero : pipe (mkRing (fun _ => 0) 0 0) Ready Waiting 0 0 0 0 0 0.
Proof. split; try done. split; cbn; try done. intros i Hi. lia. Qed.

Section pipe.
Context {q : ring} {s : send_phase} {r : recv_phase} {dg dt sg st p g : Z} (Hp : pipe q s r dg dt sg st p g).
Context (Hdata : dt <= dg) (Hspace : st <= ring_capacity + sg).

Lemma pipe_took_space : s = Ready -> pipe q Room r dg dt sg (st + 1) p g.
Proof. destruct Hp. intros ->. split; try done. lia. Qed.
Lemma pipe_gave_data : s = Put -> pipe q Ready r (dg + 1) dt sg st p g.
Proof. destruct Hp. intros ->. split; try done. lia. Qed.
Lemma pipe_took_data : r = Waiting -> pipe q s Item dg (dt + 1) sg st p g.
Proof. destruct Hp. intros ->. split; try done. lia. Qed.
Lemma pipe_gave_space : r = Got -> pipe q s Waiting dg dt (sg + 1) st p g.
Proof. destruct Hp. intros ->. split; try done. lia. Qed.

Lemma pipe_put : s = Room ->
  pipe (mkRing (<[r_head q := u32 p]> (slots q)) ((r_head q + 1) mod ring_capacity) (r_tail q)) Put r dg dt sg st (p + 1) g.
Proof.
  destruct Hp as [Hh]. intros ->. pose proof (hm_order _ _ _ Hh). split; try done; try lia. apply ring_put; [done|]. destruct r; lia.
Qed.

Lemma pipe_get : r = Item -> slots q (r_tail q) = u32 g /\
  pipe (mkRing (slots q) (r_head q) ((r_tail q + 1) mod ring_capacity)) s Got dg dt sg st p (g + 1).
Proof.
  destruct Hp as [Hh]. intros ->. pose proof (hm_order _ _ _ Hh). assert (g < p) by (destruct s; lia). destruct (ring_get q g p Hh) as [Hv Hq]; [done|].
  split; [done|]. split; try done; lia.
Qed.

(** The semaphores are never full when they are given. *)
Lemma pipe_room_for_data : s = Put -> dg - dt < ring_capacity.
Proof. destruct Hp as [Hh]. intros ->. pose proof (hm_order _ _ _ Hh). destruct r; lia. Qed.
Lemma pipe_room_for_space : r = Got -> ring_capacity + sg - st < ring_capacity.
Proof. destruct Hp as [Hh]. intros ->. pose proof (hm_order _ _ _ Hh). destruct s; lia. Qed.

Lemma pipe_bounds : g <= p /\ p <= g + ring_capacity.
Proof. destruct Hp as [Hh]. pose proof (hm_order _ _ _ Hh). destruct s, r; lia. Qed.
End pipe.
