(* ===== verification/FullDemo.v ===== *)
(** * samples/rtos/full_demo and heavy_overlap: one workload, two images

    The five tasks of both samples as programs over [Program] -- a sender and a
    receiver of a queue, a giver and a taker of a semaphore, a stack monitor --
    and the kernel's part of their two [kmain]s.  From the cleared .bss on, and
    under any schedule, the messages arrive in order, and the counter counts
    the takes, of which there are no more than gives.  The service tasks are
    [others], any programs that keep to the kernel's rules and leave the queue
    and the semaphore alone; [core1_blink], which in heavy_overlap runs on
    core 1 with no scheduler, touches nothing but a pin.

    A print is an entry of [w_lines]. *)

From Stdlib Require String.
From S2P Require Import Prelude Types Dll Telemetry Kernel Stack Invariant Scheduler Heap Task SchedulerThm Semaphore Mutex Queue SoftTimer System Program Startup Image Pipe.
From S2P Require Printf.

Module WorkNames.
Import String.
Definition test_queue : list Z := Printf.chars "test_queue".
Definition shared_sem : list Z := Printf.chars "shared_sem".
Definition task_1 : list Z := Printf.chars "task_1".
Definition task_2 : list Z := Printf.chars "task_2".
Definition task_3 : list Z := Printf.chars "task_3".
Definition task_4 : list Z := Printf.chars "task_4".
Definition task_5 : list Z := Printf.chars "task_5".
End WorkNames.

(** ** Data *)

Inductive line :=
  | LStarting (task : Z)                 (* "Task N starting.........\r\n" *)
  | LSent (msg : Z)                      (* "Task 1 | sent %u\r\n" *)
  | LFull                                (* "Task 1 | queue full, send timed out\r\n" *)
  | LDraining                            (* "Task 4 | draining queue...\r\n" *)
  | LRecv (recv_count msg : Z)           (* "Task 4 | recv [%u] msg = %u\r\n" *)
  | LEmpty                               (* "Task 4 | queue empty\r\n" *)
  | LGiving                              (* "Task 2 | giving semaphore\r\n" *)
  | LTaken (counter : Z)                 (* "Task 3 | semaphore taken - %u\r\n" *)
  | LTimedOut                            (* "Task 3 | semaphore timed out\r\n" *)
  | LStack (count : Z) (base sp high : option sptr).  (* "(%d) Task 5 | %d | %d | %d |\r\n" *)

Definition shared_semaphore : semref := SemUser 0.
Definition test_queue : Z := 0.
Definition space_available : semref := SemSpace test_queue.
Definition data_available : semref := SemData test_queue.

Record data (R : Type) := mkData { shared_counter_2 : Z; queue_ring : ring; w_lines : list line; w_rest : R }.
#[global] Arguments mkData {_}.
#[global] Arguments shared_counter_2 {_}.
#[global] Arguments queue_ring {_}.
#[global] Arguments w_lines {_}.
#[global] Arguments w_rest {_}.
#[export] Instance eta_data R : Settable (data R) := fun r => mkData (shared_counter_2 r) (queue_ring r) (w_lines r) (w_rest r).

(** ** Programs *)

Inductive point_1 := T1Starting | T1Take | T1Put | T1Give | T1Sent | T1Full | T1Delay.
Inductive point_2 := T2Starting | T2Delay | T2Give | T2Print.
Inductive point_3 := T3Starting | T3Take | T3Load | T3Store (tmp : Z) | T3Print | T3TimedOut | T3Delay.
Inductive point_4 := T4Starting | T4Delay | T4Draining | T4Take | T4Get | T4Give | T4Print | T4Empty.
Inductive point_5 := T5Starting | T5Print | T5Delay.

Inductive point (X : Type) :=
  | One (p : point_1) (msg : Z)
  | Two (p : point_2)
  | Three (p : point_3)
  | Four (p : point_4) (recv_count msg : Z)
  | Five (p : point_5) (count_5 : Z)
  | Other (x : X).
#[global] Arguments One {_}.
#[global] Arguments Two {_}.
#[global] Arguments Three {_}.
#[global] Arguments Four {_}.
#[global] Arguments Five {_}.
#[global] Arguments Other {_}.

(** Where the images differ: the delays of tasks 4 and 5, and how many tasks
    are created before task 1. *)
Record variant := mkVariant { drain_ms : Z; stack_ms : Z; first_task : Z }.
Definition full_demo : variant := mkVariant 1100 220 1.
Definition heavy_overlap : variant := mkVariant 1000 200 2.

Section tasks.
Context {R X : Type} (v : variant) (others : tcb -> X -> action R X).
Abbreviation act := (action (data R) (point X)).

(** The tasks in the order of their creation. *)
Definition tcb_1 : tcb := Pool 0 (first_task v).
Definition tcb_4 : tcb := Pool 0 (first_task v + 1).
Definition tcb_2 : tcb := Pool 0 (first_task v + 2).
Definition tcb_3 : tcb := Pool 0 (first_task v + 3).
Definition tcb_5 : tcb := Pool 0 (first_task v + 4).

Definition say (l : line) (p : point X) : act := Mem (fun _ _ d => (d <| w_lines ::= fun ls => ls ++ [l] |>, p)).

(** [queue_send] with 200 ms: the take, the copy, the give. *)
Definition task_1_func (p : point_1) (msg : Z) : act :=
  match p with
  | T1Starting => say (LStarting 1) (One T1Take msg)
  | T1Take => Do (CTake space_available 200) (fun r => if decide (r = E_OK) then One T1Put msg else One T1Full msg)
  | T1Put => Mem (fun _ _ d => let q := queue_ring d in
      (d <| queue_ring := mkRing (<[r_head q := msg]> (slots q)) ((r_head q + 1) mod ring_capacity) (r_tail q) |>, One T1Give msg))
  | T1Give => Do (CGive data_available) (fun _ => One T1Sent msg)
  | T1Sent => say (LSent (u32 (msg + 1))) (One T1Delay (u32 (msg + 1)))
  | T1Full => say LFull (One T1Delay msg)
  | T1Delay => Do (CDelay 100) (fun _ => One T1Take msg)
  end.

(** [queue_recv] with 0 ms. *)
Definition task_4_func (p : point_4) (recv_count msg : Z) : act :=
  match p with
  | T4Starting => say (LStarting 4) (Four T4Delay recv_count msg)
  | T4Delay => Do (CDelay (drain_ms v)) (fun _ => Four T4Draining recv_count msg)
  | T4Draining => say LDraining (Four T4Take recv_count msg)
  | T4Take => Do (CTake data_available 0) (fun r => if decide (r = E_OK) then Four T4Get recv_count msg else Four T4Empty recv_count msg)
  | T4Get => Mem (fun _ _ d => let q := queue_ring d in
      (d <| queue_ring := mkRing (slots q) (r_head q) ((r_tail q + 1) mod ring_capacity) |>, Four T4Give recv_count (slots q (r_tail q))))
  | T4Give => Do (CGive space_available) (fun _ => Four T4Print recv_count msg)
  | T4Print => say (LRecv (u32 (recv_count + 1)) msg) (Four T4Take (u32 (recv_count + 1)) msg)
  | T4Empty => say LEmpty (Four T4Delay recv_count msg)
  end.

Definition task_2_func (p : point_2) : act :=
  match p with
  | T2Starting => say (LStarting 2) (Two T2Delay)
  | T2Delay => Do (CDelay 1000) (fun _ => Two T2Give)
  | T2Give => Do (CGive shared_semaphore) (fun _ => Two T2Print)
  | T2Print => say LGiving (Two T2Delay)
  end.

(** [shared_counter_2++] is a load and a store. *)
Definition task_3_func (p : point_3) : act :=
  match p with
  | T3Starting => say (LStarting 3) (Three T3Take)
  | T3Take => Do (CTake shared_semaphore 100) (fun r => if decide (r = E_OK) then Three T3Load else Three T3TimedOut)
  | T3Load => Mem (fun _ _ d => (d, Three (T3Store (shared_counter_2 d))))
  | T3Store tmp => Mem (fun _ _ d => (d <| shared_counter_2 := u32 (tmp + 1) |>, Three T3Print))
  | T3Print => Mem (fun _ _ d => (d <| w_lines ::= fun ls => ls ++ [LTaken (shared_counter_2 d)] |>, Three T3Delay))
  | T3TimedOut => say LTimedOut (Three T3Delay)
  | T3Delay => Do (CDelay 100) (fun _ => Three T3Take)
  end.

Definition task_5_func (p : point_5) (count_5 : Z) : act :=
  match p with
  | T5Starting => say (LStarting 5) (Five T5Print count_5)
  | T5Print => Mem (fun _ k d => let t := k_tcbs k tcb_5 in
      (d <| w_lines ::= fun ls => ls ++ [LStack (u32 (count_5 + 1)) (stack_base t) (current_sp t) (stack_high t)] |>, Five T5Delay (u32 (count_5 + 1))))
  | T5Delay => Do (CDelay (stack_ms v)) (fun _ => Five T5Print count_5)
  end.

Definition other_task (t : tcb) (x : X) : act :=
  match others t x with
  | Do o k => Do o (fun code => Other (k code))
  | Mem f => Mem (fun c k d => (d <| w_rest := (f c k (w_rest d)).1 |>, Other (f c k (w_rest d)).2))
  end.

Definition work (t : tcb) (l : point X) : act :=
  match l with
  | One p msg => task_1_func p msg
  | Two p => task_2_func p
  | Three p => task_3_func p
  | Four p n msg => task_4_func p n msg
  | Five p n => task_5_func p n
  | Other x => other_task t x
  end.

Definition work_tasks (x0 : tcb -> X) (t : tcb) : point X :=
  if decide (t = tcb_1) then One T1Starting 0 else if decide (t = tcb_4) then Four T4Starting 0 0 else
  if decide (t = tcb_2) then Two T2Starting else if decide (t = tcb_3) then Three T3Starting else
  if decide (t = tcb_5) then Five T5Starting 0 else Other (x0 t).
End tasks.

Definition work_data {R} (r : R) : data R := mkData 0 (mkRing (fun _ => 0) 0 0) [] r.

(** ** Start-up *)

Inductive function := Service (f : service) | F_task_1 | F_task_2 | F_task_3 | F_task_4 | F_task_5.

Section kmain.
Context (address : function -> Z) (clk_freq : Z).

Definition hz : Z := 1000.
Abbreviation services := (fun f => address (Service f)).
Abbreviation create me f depth prio name := (task_create (address (Service F_trap)) me (address f) depth prio 0 (Some name)).
#[local] Instance work_hooks : Hooks := image_hooks services.

(** The five tasks, with what [task_create] stores in [tcb_1], [tcb_4],
    [tcb_2], [tcb_3] and [tcb_5]. *)
Definition create_tasks : K (list (option tcb)) :=
  p1 ← create 0 F_task_1 2048 TASK_PRIORITY_5 WorkNames.task_1;
  p4 ← create 0 F_task_4 2048 TASK_PRIORITY_5 WorkNames.task_4;
  p2 ← create 0 F_task_2 2048 TASK_PRIORITY_3 WorkNames.task_2;
  p3 ← create 0 F_task_3 2048 TASK_PRIORITY_4 WorkNames.task_3;
  p5 ← create 0 F_task_5 2048 TASK_PRIORITY_1 WorkNames.task_5;
  mret [p1.2; p4.2; p2.2; p3.2; p5.2].

Definition init_objects : K StatusCode :=
  ret ← queue_init 0 test_queue 4 4 (Some WorkNames.test_queue);
  semaphore_init shared_semaphore 1 1 (Some WorkNames.shared_sem);;
  mret ret.

Definition timers_start : K StatusCode :=
  software_timer_init;;
  software_timer_start (address (Service F_trap)) 0 (address (Service F_timer_service)).

(** [kmain] of full_demo, and of heavy_overlap. *)
Definition full_demo_kmain : K StatusCode :=
  scheduler_init (address (Service F_idle)) 0 (Some clk_freq) hz (Some 0);;
  create_tasks;;
  init_objects;;
  uart_start services 0;;
  timers_start;;
  watchdog_start services 0 1000;;
  scheduler_start 0.

Definition heavy_overlap_kmain : K StatusCode :=
  scheduler_init (address (Service F_idle)) 0 (Some clk_freq) hz (Some 0);;
  uart_start services 0;;
  create_tasks;;
  timers_start;;
  watchdog_start services 0 1000;;
  init_objects;;
  scheduler_start 0.

Definition work_init (s : semref) : Z * Z :=
  if decide (s = shared_semaphore) then (1, 1) else
  match s with
  | SemTimer => (0, SEMAPHORE_MAX_COUNT_UNLIMITED)
  | SemData _ => (0, ring_capacity)
  | SemSpace _ => (ring_capacity, ring_capacity)
  | _ => (0, 1)
  end.
Definition work_objects : objects :=
  mkObjects [] [shared_semaphore; space_available; data_available; uart_data_ready; uart_dma_done; s_confirm_semaphore; SemTimer; SemDfu] work_init
    [s_watchdog_kick_timer; s_confirm_timer].

(** The tasks' priorities, of an image whose task 1 is the [first]. *)
Definition work_rank (first : Z) (t : tcb) : Z :=
  match t with
  | Pool 0 8 => TASK_PRIORITY_1
  | Pool 0 n => if n =? first + 2 then TASK_PRIORITY_3 else if n =? first + 3 then TASK_PRIORITY_4 else if n =? first + 4 then TASK_PRIORITY_1 else TASK_PRIORITY_5
  | Pool _ _ => TASK_PRIORITY_1
  | Idle _ => TASK_PRIORITY_IDLE
  end.

Lemma work_services : service_init work_init.
Proof. by split. Qed.

Lemma create_work_boots first ms ss ts cs off : (0 <=? first) && (first <? 4) && (off + 4 * 10240 <=? HEAP_SIZE_BYTES) = true ->
  boots work_init (work_rank first) (mkPlan ms ss ts cs off (counts (first, 0, 0, 0))) create_tasks
    (fun r => r = (fun i => Some (Pool 0 (first + i))) <$> [0; 1; 2; 3; 4])
    (mkPlan ms ss ts cs (off + 4 * 10240) (counts (first + 5, 0, 0, 0))).
Proof.
  rewrite !andb_true_iff, !Z.leb_le, Z.ltb_lt. intros [[H0 H1] Ho].
  assert (forall i prio, 0 <= i < 5 -> clamp_priority prio = work_rank first (Pool 0 (first + i)) -> 0 <= prio ->
    fits (work_rank first) 0 2048 prio (off + 4 * 2048 * i) (first + i, 0, 0, 0) = true) as Hfit.
  { intros i prio Hi Hr Hp. unfold fits, counts, MAX_NUM_TASKS. cbn. rewrite !andb_true_iff, !Z.leb_le, !Z.ltb_lt, Z.eqb_eq. split_and!; try lia; exact Hr. }
  assert (forall i prio name f, 0 <= i < 5 -> clamp_priority prio = work_rank first (Pool 0 (first + i)) -> 0 <= prio ->
    boots work_init (work_rank first) (mkPlan ms ss ts cs (off + 4 * 2048 * i) (counts (first + i, 0, 0, 0))) (create 0 f 2048 prio name)
      (fun r => r = (E_OK, Some (Pool 0 (first + i)))) (mkPlan ms ss ts cs (off + 4 * 2048 * (i + 1)) (counts (first + (i + 1), 0, 0, 0)))) as Hc.
  { intros i prio name f Hi Hr Hp. replace (off + 4 * 2048 * (i + 1)) with (off + 4 * 2048 * i + 4 * 2048) by lia.
    replace (first + (i + 1)) with (first + i + 1) by lia. exact (create_boots _ _ ms ss ts cs _ (first + i, 0, 0, 0) _ _ 0 2048 prio name (Hfit i prio Hi Hr Hp)). }
  unfold create_tasks. assert (first = 0 \/ first = 1 \/ first = 2 \/ first = 3) as Hf by lia.
  pose proof (fun name f => Hc 0 TASK_PRIORITY_5 name f ltac:(lia) ltac:(by destruct Hf as [->|[->|[->| ->]]]) ltac:(done)) as Hc0.
  rewrite Z.mul_0_r, !Z.add_0_r in Hc0. eapply boots_bind; [apply Hc0|cbv beta; intros p1 ->].
  eapply boots_bind; [by apply (Hc 1); [| destruct Hf as [->|[->|[->| ->]]]|]|cbv beta; intros p4 ->].
  eapply boots_bind; [by apply (Hc 2); [| destruct Hf as [->|[->|[->| ->]]]|]|cbv beta; intros p2 ->].
  eapply boots_bind; [by apply (Hc 3); [| destruct Hf as [->|[->|[->| ->]]]|]|cbv beta; intros p3 ->].
  eapply boots_bind; [by apply (Hc 4); [| destruct Hf as [->|[->|[->| ->]]]|]|cbv beta; intros p5 ->].
  replace (off + 4 * 10240) with (off + 4 * 2048 * (4 + 1)) by lia. apply boots_ret. cbn. by rewrite Z.add_0_r.
Qed.

(** The offset and the tasks do not depend on the order of the services. *)
Definition work_plan (ss : list semref) : plan :=
  mkPlan [] ss [s_confirm_timer; s_watchdog_kick_timer] [0] 57360 (counts (9, 0, 0, 0)).

Lemma init_objects_boots rank ms ss ts cs off n : (0 <=? off) && (off + 16 <=? HEAP_SIZE_BYTES) = true ->
  boots work_init rank (mkPlan ms ss ts cs off n) init_objects (fun _ => True)
    (mkPlan ms (shared_semaphore :: space_available :: data_available :: ss) ts cs (off + 16) n).
Proof.
  rewrite andb_true_iff, !Z.leb_le. intros [H0 H1]. unfold init_objects.
  eapply boots_bind; [apply queue_init_boots; cbn; try done; lia|intros r _].
  eapply boots_bind; [by apply sem_boots|intros _ _]. by apply boots_ret.
Qed.

Lemma timers_start_boots rank ms ss cs off n : fits rank 0 512 TASK_PRIORITY_5 off n = true ->
  boots work_init rank (mkPlan ms ss [] cs off (counts n)) timers_start (fun r => r = E_OK)
    (mkPlan ms (SemTimer :: ss) [] cs (off + 4 * 512) (counts (bump 0 n))).
Proof.
  intros Hf. unfold timers_start. eapply boots_bind; [by apply software_timer_init_boots|intros _ _]. by apply (timer_start_boots _ _ services).
Qed.

Lemma full_demo_boots : boots work_init (work_rank 1) nothing_yet (entered full_demo_kmain) (fun _ => True)
  (work_plan [s_confirm_semaphore; SemTimer; uart_dma_done; uart_data_ready; shared_semaphore; space_available; data_available; SemDfu]).
Proof.
  unfold full_demo_kmain. eapply enters_bind; [apply (first_init_boots _ _ services work_services); side|intros _ _].
  eapply enters_bind; [by apply create_work_boots|intros _ _]. eapply enters_bind; [by apply init_objects_boots|intros _ _].
  eapply enters_bind; [apply (uart_start_boots _ _ services work_services _ _ _ _ _ (6, 0, 0, 0)); side|intros _ _].
  eapply enters_bind; [apply timers_start_boots; side|intros _ _].
  eapply enters_bind; [apply (watchdog_start_boots _ _ services work_services); [by left|done|side]|intros _ _].
  apply enters_start. by left.
Qed.

Lemma heavy_overlap_boots : boots work_init (work_rank 2) nothing_yet (entered heavy_overlap_kmain) (fun _ => True)
  (work_plan [shared_semaphore; space_available; data_available; s_confirm_semaphore; SemTimer; uart_dma_done; uart_data_ready; SemDfu]).
Proof.
  unfold heavy_overlap_kmain. eapply enters_bind; [apply (first_init_boots _ _ services work_services); side|intros _ _].
  eapply enters_bind; [apply (uart_start_boots _ _ services work_services); side|intros _ _].
  eapply enters_bind; [by apply (create_work_boots 2)|intros _ _].
  eapply enters_bind; [apply (timers_start_boots _ _ _ _ _ (7, 0, 0, 0)); side|intros _ _].
  eapply enters_bind; [apply (watchdog_start_boots _ _ services work_services); [by left|done|side]|intros _ _].
  eapply enters_bind; [by apply init_objects_boots|intros _ _].
  apply enters_start. by left.
Qed.

Lemma work_starts rank ss k : (forall s, s ∈ ob_sem work_objects -> s ∈ ss) -> booting work_init rank (work_plan ss) k -> exists Q, starts work_objects k Q.
Proof.
  intros Hss Hk. apply (booting_starts work_init rank _ k work_objects Hk); cbn [work_plan work_objects p_mtx p_sem p_armed ob_mtx ob_sem ob_init ob_timers].
  - by intros m Hm%elem_of_nil.
  - exact Hss.
  - intros t Ht. set_solver.
  - reflexivity.
  - cbn. unfold timer_fuel. lia.
  - right. set_solver.
Qed.
End kmain.

(** ** The application *)

(** What the other tasks leave alone. *)
Definition own_sems : list semref := [shared_semaphore; space_available; data_available].
Definition keeps_off (o : call) : Prop := match o with CTake s _ | CGive s => s ∉ own_sems | _ => True end.
Record rest_ok {R X} (others : tcb -> X -> action R X) (held_other : tcb -> X -> list Z) (x0 : tcb -> X) : Prop := {
  ro_rules : obeys work_objects others held_other;
  ro_alone : forall t x o k, others t x = Do o k -> keeps_off o;
  ro_start : forall t m, m ∉ held_other t (x0 t)
}.

(** A call that does not concern a semaphore. *)
Definition mentions (o : call) (s : semref) : Prop := match o with CTake s' _ | CGive s' => s' = s | _ => False end.
Lemma unmentioned o s code f : ~ mentions o s -> given_after o (Some code) f s = f s /\ taken_after o (Some code) f s = f s.
Proof. intros Hm. destruct o; destruct code; cbn in Hm |- *; rewrite ?fn_lookup_insert_ne by done; done. Qed.

Definition sent (ls : list line) : list Z := omap (fun l => match l with LSent m => Some m | _ => None end) ls.
Definition received (ls : list line) : list (Z * Z) := omap (fun l => match l with LRecv n m => Some (n, m) | _ => None end) ls.
Definition taken (ls : list line) : list Z := omap (fun l => match l with LTaken n => Some n | _ => None end) ls.
Definition giving (ls : list line) : list unit := omap (fun l => match l with LGiving => Some tt | _ => None end) ls.

(** 1 to [n], and the numbered messages, as 32-bit words. *)
Definition numbers (n : Z) : list Z := (fun i => u32 (i + 1)) <$> seqZ 0 n.
Definition numbered (n : Z) : list (Z * Z) := (fun i => (u32 (i + 1), u32 i)) <$> seqZ 0 n.
Lemma numbers_next n : 0 <= n -> numbers (n + 1) = numbers n ++ [u32 (n + 1)].
Proof. intros Hn. unfold numbers. by rewrite seqZ_snoc, fmap_app, Z.add_0_l by done. Qed.
Lemma numbered_next n : 0 <= n -> numbered (n + 1) = numbered n ++ [(u32 (n + 1), u32 n)].
Proof. intros Hn. unfold numbered. by rewrite seqZ_snoc, fmap_app, Z.add_0_l by done. Qed.

Section whole.
Context {R X : Type} (v : variant) (others : tcb -> X -> action R X) (held_other : tcb -> X -> list Z) (x0 : tcb -> X).
Context (Hrest : rest_ok others held_other x0).
Abbreviation prog := (work (R := R) v others).
Abbreviation ob := work_objects.
Abbreviation Books := (books (data R) (point X)).
Implicit Types (b : Books).

Definition held (t : tcb) (l : point X) : list Z := match l with Other x => held_other t x | _ => [] end.

Lemma work_obeys : obeys ob prog held.
Proof.
  intros t [[] m|[]|[]|[] n m|[] n|x]; cbn; try done; try (split; [first [done|cbn; set_solver]|]); try (by intros; case_decide); try done.
  pose proof (ro_rules _ _ _ Hrest t x) as Ho. unfold other_task. destruct (others t x) as [o k|f]; [exact Ho|]. intros c k d. apply Ho.
Qed.

(** Each task runs its own program. *)
Definition home (t : tcb) (l : point X) : Prop :=
  match l with
  | One _ _ => t = tcb_1 v | Two _ => t = tcb_2 v | Three _ => t = tcb_3 v | Four _ _ _ => t = tcb_4 v | Five _ _ => t = tcb_5 v
  | Other _ => t <> tcb_1 v /\ t <> tcb_2 v /\ t <> tcb_3 v /\ t <> tcb_4 v
  end.
Lemma work_home_next t l : home t l -> match prog t l with Do o k => forall code, home t (k code) | Mem f => forall c k d, home t (f c k d).2 end.
Proof.
  destruct l as [[] m|[]|[]|[] n m|[] n|x]; cbn; try done; try (by intros -> code; case_decide). intros Hx. unfold other_task. by destruct (others t x).
Qed.

(** Where the sender and the receiver are in their calls. *)
Definition send_at (l : point X) : send_phase := match l with One T1Put _ => Room | One T1Give _ => Put | _ => Ready end.
Definition recv_at (l : point X) : recv_phase := match l with Four T4Get _ _ => Item | Four T4Give _ _ => Got | _ => Waiting end.

(** After [p] puts, [sp] are reported sent; after [g] gets, [rp] reported
    received; the locals follow. *)
Definition sender_ok (l : point X) (p sp : Z) : Prop :=
  match l with
  | One (T1Give | T1Sent) msg => msg = u32 (p - 1) /\ sp = p - 1 /\ 0 < p
  | One _ msg => msg = u32 p /\ sp = p
  | _ => False
  end.
Definition receiver_ok (l : point X) (g rp : Z) : Prop :=
  match l with
  | Four (T4Give | T4Print) n msg => n = u32 rp /\ msg = u32 rp /\ rp = g - 1 /\ 0 < g
  | Four _ n _ => n = u32 rp /\ rp = g
  | _ => False
  end.

(** The counter after [n] reported takes; [gn] gives reported. *)
Definition taker_ok (l : point X) (n counter tk : Z) : Prop :=
  match l with
  | Three T3Load => counter = u32 n /\ tk = n + 1
  | Three (T3Store tmp) => tmp = u32 n /\ counter = u32 n /\ tk = n + 1
  | Three T3Print => counter = u32 (n + 1) /\ tk = n + 1
  | Three _ => counter = u32 n /\ tk = n
  | _ => False
  end.
Definition giver_ok (l : point X) (gn gv : Z) : Prop :=
  match l with Two T2Print => gv <= gn + 1 | Two _ => gv <= gn | _ => False end.

Definition queue_part b : Prop := exists p g sp rp, 0 <= sp /\ 0 <= rp /\
  pipe (queue_ring (b_data b)) (send_at (b_loc b (tcb_1 v))) (recv_at (b_loc b (tcb_4 v)))
    (b_given b data_available) (b_taken b data_available) (b_given b space_available) (b_taken b space_available) p g /\
  sender_ok (b_loc b (tcb_1 v)) p sp /\ receiver_ok (b_loc b (tcb_4 v)) g rp /\
  sent (w_lines (b_data b)) = numbers sp /\ received (w_lines (b_data b)) = numbered rp.
Definition counter_part b : Prop := exists n, 0 <= n /\
  taker_ok (b_loc b (tcb_3 v)) n (shared_counter_2 (b_data b)) (b_taken b shared_semaphore) /\
  giver_ok (b_loc b (tcb_2 v)) (Z.of_nat (length (giving (w_lines (b_data b))))) (b_given b shared_semaphore) /\
  taken (w_lines (b_data b)) = numbers n.
Record working b : Prop := {
  wk_home : forall t, home t (b_loc b t);
  wk_queue : queue_part b;
  wk_counter : counter_part b
}.

Lemma queue_frame b b' : queue_part b -> b_loc b' (tcb_1 v) = b_loc b (tcb_1 v) -> b_loc b' (tcb_4 v) = b_loc b (tcb_4 v) ->
  queue_ring (b_data b') = queue_ring (b_data b) ->
  (forall s, s = space_available \/ s = data_available -> b_given b' s = b_given b s /\ b_taken b' s = b_taken b s) ->
  sent (w_lines (b_data b')) = sent (w_lines (b_data b)) -> received (w_lines (b_data b')) = received (w_lines (b_data b)) -> queue_part b'.
Proof.
  intros (p & g & sp & rp & Hq) E1 E2 E3 Hs E4 E5. exists p, g, sp, rp. destruct (Hs space_available) as [E6 E7]; [by left|].
  destruct (Hs data_available) as [E8 E9]; [by right|]. by rewrite E1, E2, E3, E4, E5, E6, E7, E8, E9.
Qed.
Lemma counter_frame b b' : counter_part b -> b_loc b' (tcb_3 v) = b_loc b (tcb_3 v) -> b_loc b' (tcb_2 v) = b_loc b (tcb_2 v) ->
  shared_counter_2 (b_data b') = shared_counter_2 (b_data b) ->
  b_given b' shared_semaphore = b_given b shared_semaphore -> b_taken b' shared_semaphore = b_taken b shared_semaphore ->
  taken (w_lines (b_data b')) = taken (w_lines (b_data b)) -> giving (w_lines (b_data b')) = giving (w_lines (b_data b)) -> counter_part b'.
Proof. intros (n & Hn) E1 E2 E3 E4 E5 E6 E7. exists n. by rewrite E1, E2, E3, E4, E5, E6, E7. Qed.

Lemma foreign t x o k s : others t x = Do o k -> mentions o s -> s ∉ own_sems.
Proof. intros Ho Hm. apply (ro_alone _ _ _ Hrest) in Ho. destruct o; try done; cbn in Ho, Hm; by subst. Qed.

Lemma home_insert (loc : tcb -> point X) t l : (forall u, home u (loc u)) -> home t l -> forall u, home u (<[t := l]> loc u).
Proof. intros Ha Hl u. rewrite fn_insert_lookup. by case_decide; subst. Qed.

Lemma work_sent_app ls l : sent (ls ++ [l]) = sent ls ++ match l with LSent m => [m] | _ => [] end.
Proof. unfold sent. rewrite omap_app. f_equal. by destruct l. Qed.
Lemma work_received_app ls l : received (ls ++ [l]) = received ls ++ match l with LRecv n m => [(n, m)] | _ => [] end.
Proof. unfold received. rewrite omap_app. f_equal. by destruct l. Qed.
Lemma taken_app ls l : taken (ls ++ [l]) = taken ls ++ match l with LTaken n => [n] | _ => [] end.
Proof. unfold taken. rewrite omap_app. f_equal. by destruct l. Qed.
Lemma giving_app ls l : giving (ls ++ [l]) = giving ls ++ match l with LGiving => [tt] | _ => [] end.
Proof. unfold giving. rewrite omap_app. f_equal. by destruct l. Qed.

(** The tasks are different. *)
Lemma apart i j : i <> j -> Pool 0 (first_task v + i) <> Pool 0 (first_task v + j).
Proof. intros Hij [=]. lia. Qed.
Lemma apart_0 i : 0 <> i -> Pool 0 (first_task v) <> Pool 0 (first_task v + i).
Proof. intros Hij [=]. lia. Qed.
Ltac apart := unfold tcb_1, tcb_2, tcb_3, tcb_4, tcb_5; first [by apply apart|by apply apart_0|by apply not_eq_sym, apart_0].
Ltac elsewhere := repeat rewrite fn_lookup_insert_ne by first [discriminate|apart].

Lemma ledger b s : lawful ob held b -> s ∈ own_sems -> b_taken b s <= (work_init s).1 + b_given b s.
Proof. intros Hl Hs. apply (lw_ledger _ _ _ Hl). unfold own_sems in Hs. cbn. set_solver. Qed.

Lemma queue_ledger b : lawful ob held b -> b_taken b data_available <= b_given b data_available /\
  b_taken b space_available <= ring_capacity + b_given b space_available.
Proof.
  intros Hl. split; [exact (ledger b data_available Hl ltac:(unfold own_sems; set_solver))|exact (ledger b space_available Hl ltac:(unfold own_sems; set_solver))].
Qed.

(** A give of the queue's semaphores does not fail. *)
Lemma work_sender_call b p msg o k code : lawful ob held b -> working b -> b_loc b (tcb_1 v) = One p msg -> task_1_func (R := R) p msg = Do o k ->
  may_return ob (b_given b) (b_taken b) o code -> queue_part (called (tcb_1 v) o k code b).
Proof.
  intros Hlaw [Hh (pn & g & sp & rp & H1 & H2 & Hp & Hs & Hr & Hls & Hlr) _] Hloc Ht Hcode.
  destruct (queue_ledger b Hlaw) as [Hd Hsp]. rewrite Hloc in Hs, Hp. exists pn, g, sp, rp. split; [done|]. split; [done|]. cbn [called b_loc b_data]. rewrite fn_lookup_insert, (fn_lookup_insert_ne _ (tcb_1 v)) by apart.
  destruct p; try done; injection Ht as <- <-; cbn in Hs, Hcode.
  - destruct code; cbn -[sent received]; rewrite ?decide_True, ?decide_False by done; cbn -[sent received]; rewrite ?fn_lookup_insert; elsewhere;
      split_and!; try done; try apply Hs. by apply (pipe_took_space Hp).
  - pose proof (pipe_room_for_data Hp Hsp eq_refl) as Hroom. change (work_init data_available) with (0, ring_capacity) in Hcode. cbn in Hcode. destruct Hcode as [->|Hfull]; [|lia].
    cbn -[sent received]. rewrite !fn_lookup_insert. elsewhere. split_and!; try done; try apply Hs. by apply (pipe_gave_data Hp).
  - destruct code; cbn -[sent received]; split_and!; try done; apply Hs.
Qed.

Lemma work_receiver_call b p n msg o k code : lawful ob held b -> working b -> b_loc b (tcb_4 v) = Four p n msg -> task_4_func (R := R) v p n msg = Do o k ->
  may_return ob (b_given b) (b_taken b) o code -> queue_part (called (tcb_4 v) o k code b).
Proof.
  intros Hlaw [Hh (pn & g & sp & rp & H1 & H2 & Hp & Hs & Hr & Hls & Hlr) _] Hloc Ht Hcode.
  destruct (queue_ledger b Hlaw) as [Hd Hsp]. rewrite Hloc in Hr, Hp. exists pn, g, sp, rp. split; [done|]. split; [done|]. cbn [called b_loc b_data]. rewrite fn_lookup_insert, (fn_lookup_insert_ne _ (tcb_4 v)) by apart.
  destruct p; try done; injection Ht as <- <-; cbn in Hr, Hcode.
  - destruct code; cbn -[sent received]; split_and!; try done; apply Hr.
  - destruct code; cbn -[sent received]; rewrite ?decide_True, ?decide_False by done; cbn -[sent received]; rewrite ?fn_lookup_insert; elsewhere;
      split_and!; try done; try apply Hr. by apply (pipe_took_data Hp).
  - pose proof (pipe_room_for_space Hp Hd eq_refl) as Hroom. change (work_init space_available) with (ring_capacity, ring_capacity) in Hcode. cbn in Hcode. destruct Hcode as [->|Hfull]; [|lia].
    cbn -[sent received]. rewrite !fn_lookup_insert. elsewhere. split_and!; try done; try apply Hr. by apply (pipe_gave_space Hp).
Qed.

Lemma work_sender_mem b p msg f c k : lawful ob held b -> working b -> b_loc b (tcb_1 v) = One p msg -> task_1_func (R := R) p msg = Mem f ->
  queue_part (touched (tcb_1 v) (f c k) b).
Proof.
  intros Hlaw [Hh (pn & g & sp & rp & H1 & H2 & Hp & Hs & Hr & Hls & Hlr) _] Hloc Ht.
  destruct (queue_ledger b Hlaw) as [Hd Hsp]. rewrite Hloc in Hs, Hp.
  destruct p; try done; injection Ht as <-; cbn in Hs; unfold queue_part; cbn -[sent received];
    rewrite fn_lookup_insert, (fn_lookup_insert_ne _ (tcb_1 v)) by apart; cbn -[sent received]; rewrite ?work_sent_app, ?work_received_app, ?app_nil_r.
  - exists pn, g, sp, rp. split_and!; try done; apply Hs.
  - destruct Hs as [-> ->]. exists (pn + 1), g, pn, rp. split_and!; try done; try lia; [by apply (pipe_put Hp Hsp)|f_equal; lia].
  - destruct Hs as (-> & -> & Hpos). exists pn, g, pn, rp. rewrite u32_succ. replace (pn - 1 + 1) with pn by lia.
    split_and!; try done; try lia. rewrite Hls. replace pn with (pn - 1 + 1) at 3 by lia. rewrite numbers_next by done. do 3 f_equal. lia.
  - exists pn, g, sp, rp. split_and!; try done; apply Hs.
Qed.

Lemma work_receiver_mem b p n msg f c k : lawful ob held b -> working b -> b_loc b (tcb_4 v) = Four p n msg -> task_4_func (R := R) v p n msg = Mem f ->
  queue_part (touched (tcb_4 v) (f c k) b).
Proof.
  intros Hlaw [Hh (pn & g & sp & rp & H1 & H2 & Hp & Hs & Hr & Hls & Hlr) _] Hloc Ht.
  destruct (queue_ledger b Hlaw) as [Hd Hsp]. rewrite Hloc in Hr, Hp.
  destruct p; try done; injection Ht as <-; cbn in Hr; unfold queue_part; cbn -[sent received];
    rewrite fn_lookup_insert, (fn_lookup_insert_ne _ (tcb_4 v)) by apart; cbn -[sent received]; rewrite ?work_sent_app, ?work_received_app, ?app_nil_r.
  - exists pn, g, sp, rp. split_and!; try done; apply Hr.
  - exists pn, g, sp, rp. split_and!; try done; apply Hr.
  - destruct Hr as [-> ->]. destruct (pipe_get Hp Hd eq_refl) as [Hv Hp']. rewrite Hv. exists pn, (g + 1), sp, g. split_and!; try done; lia.
  - destruct Hr as (-> & -> & -> & Hpos). exists pn, g, sp, g. rewrite u32_succ. replace (g - 1 + 1) with g by lia.
    split_and!; try done; try lia. rewrite Hlr. pose proof (numbered_next (g - 1) ltac:(lia)) as Hn. by replace (g - 1 + 1) with g in Hn by lia.
  - exists pn, g, sp, rp. split_and!; try done; apply Hr.
Qed.

Lemma giver_call b p o k code : working b -> b_loc b (tcb_2 v) = Two p -> task_2_func (R := R) p = Do o k -> counter_part (called (tcb_2 v) o k code b).
Proof.
  intros [_ _ (n & Hn & Ht3 & Ht2 & Hl)] Hloc Ht. rewrite Hloc in Ht2. exists n. split; [done|]. cbn [called b_loc b_data].
  rewrite fn_lookup_insert, (fn_lookup_insert_ne _ (tcb_2 v)) by apart. destruct p; try done; injection Ht as <- <-; cbn in Ht2.
  - destruct code; cbn -[taken giving]; by split_and!.
  - destruct code; cbn -[taken giving]; rewrite ?fn_lookup_insert; split_and!; done || lia.
Qed.

Lemma taker_call b p o k code : working b -> b_loc b (tcb_3 v) = Three p -> task_3_func (R := R) p = Do o k -> counter_part (called (tcb_3 v) o k code b).
Proof.
  intros [_ _ (n & Hn & Ht3 & Ht2 & Hl)] Hloc Ht. rewrite Hloc in Ht3. exists n. split; [done|]. cbn [called b_loc b_data].
  rewrite fn_lookup_insert, (fn_lookup_insert_ne _ (tcb_3 v)) by apart. destruct p; try done; injection Ht as <- <-; cbn in Ht3.
  - destruct code; cbn -[taken giving]; rewrite ?decide_True, ?decide_False by done; cbn -[taken giving]; rewrite ?fn_lookup_insert;
      split_and!; try done; try apply Ht3; lia.
  - destruct code; cbn -[taken giving]; by split_and!; try apply Ht3.
Qed.

Lemma giver_mem b p f c k : working b -> b_loc b (tcb_2 v) = Two p -> task_2_func (R := R) p = Mem f -> counter_part (touched (tcb_2 v) (f c k) b).
Proof.
  intros [_ _ (n & Hn & Ht3 & Ht2 & Hl)] Hloc Ht. rewrite Hloc in Ht2. exists n. split; [done|]. destruct p; try done; injection Ht as <-; cbn -[taken giving];
    rewrite fn_lookup_insert, (fn_lookup_insert_ne _ (tcb_2 v)) by apart; rewrite ?taken_app, ?giving_app, ?app_nil_r; [by split_and!|].
  cbn in Ht2. split_and!; try done. cbn -[giving]. rewrite length_app. cbn -[giving]. lia.
Qed.

Lemma taker_mem b p f c k : working b -> b_loc b (tcb_3 v) = Three p -> task_3_func (R := R) p = Mem f -> counter_part (touched (tcb_3 v) (f c k) b).
Proof.
  intros [_ _ (n & Hn & Ht3 & Ht2 & Hl)] Hloc Ht. rewrite Hloc in Ht3. destruct p; try done; injection Ht as <-; cbn in Ht3; unfold counter_part; cbn -[taken giving];
    rewrite fn_lookup_insert, (fn_lookup_insert_ne _ (tcb_3 v)) by apart; rewrite ?taken_app, ?giving_app, ?app_nil_r.
  - exists n. by split_and!; try apply Ht3.
  - exists n. split_and!; try done. destruct Ht3. by split_and!.
  - destruct Ht3 as (-> & _ & Htk). exists n. rewrite u32_succ. by split_and!.
  - destruct Ht3 as (-> & Htk). exists (n + 1). rewrite Hl, numbers_next by done. split_and!; try done; lia.
  - exists n. by split_and!; try apply Ht3.
Qed.

(** Steps that do not concern a part. *)
Lemma call_queue_same b t o k code : working b -> t <> tcb_1 v -> t <> tcb_4 v -> ~ mentions o space_available -> ~ mentions o data_available ->
  queue_part (called t o k code b).
Proof.
  intros [_ Hq _] H1 H4 Hs Hd. apply (queue_frame b); try done; cbn; rewrite ?fn_lookup_insert_ne by done; try done.
  intros s [->| ->]; (split; by apply unmentioned).
Qed.
Lemma call_counter_same b t o k code : working b -> t <> tcb_2 v -> t <> tcb_3 v -> ~ mentions o shared_semaphore -> counter_part (called t o k code b).
Proof.
  intros [_ _ Hc] H2 H3 Hs. apply (counter_frame b); try done; cbn; rewrite ?fn_lookup_insert_ne by done; try done; by apply unmentioned.
Qed.
Lemma mem_queue_same b t (f : data R -> data R * point X) : working b -> t <> tcb_1 v -> t <> tcb_4 v -> queue_ring (f (b_data b)).1 = queue_ring (b_data b) ->
  sent (w_lines (f (b_data b)).1) = sent (w_lines (b_data b)) -> received (w_lines (f (b_data b)).1) = received (w_lines (b_data b)) -> queue_part (touched t f b).
Proof. intros [_ Hq _] H1 H4 E1 E2 E3. apply (queue_frame b); try done; cbn; by rewrite fn_lookup_insert_ne. Qed.
Lemma mem_counter_same b t (f : data R -> data R * point X) : working b -> t <> tcb_2 v -> t <> tcb_3 v -> shared_counter_2 (f (b_data b)).1 = shared_counter_2 (b_data b) ->
  taken (w_lines (f (b_data b)).1) = taken (w_lines (b_data b)) -> giving (w_lines (f (b_data b)).1) = giving (w_lines (b_data b)) -> counter_part (touched t f b).
Proof. intros [_ _ Hc] H1 H4 E1 E2 E3. apply (counter_frame b); try done; cbn; by rewrite fn_lookup_insert_ne. Qed.

Ltac other_part lem := apply lem; first [assumption|apart|by intros ?|cbn; rewrite ?work_sent_app, ?work_received_app, ?taken_app, ?giving_app, ?app_nil_r; reflexivity].

Lemma work_stable : stable ob service_sems prog held working.
Proof.
  split.
  - intros b t o k code Hlaw Hb Hp Hcode _. pose proof (wk_home _ Hb t) as Ht. pose proof (work_home_next t _ Ht) as Hn.
    rewrite Hp in Hn. assert (forall u, home u (b_loc (called t o k code b) u)) as Hh by exact (home_insert _ t _ (wk_home _ Hb) (Hn code)).
    destruct (b_loc b t) as [p m|p|p|p n m|p n|x] eqn:Hl; cbn in Ht, Hp; try subst t; (split; [exact Hh|..]).
    + by apply (work_sender_call b p m).
    + destruct p; try done; injection Hp as <- <-; other_part call_counter_same.
    + destruct p; try done; injection Hp as <- <-; other_part call_queue_same.
    + by apply (giver_call b p).
    + destruct p; try done; injection Hp as <- <-; other_part call_queue_same.
    + by apply (taker_call b p).
    + by apply (work_receiver_call b p n m).
    + destruct p; try done; injection Hp as <- <-; other_part call_counter_same.
    + destruct p; try done; injection Hp as <- <-; other_part call_queue_same.
    + destruct p; try done; injection Hp as <- <-; other_part call_counter_same.
    + destruct Ht as (H1 & H2 & H3 & H4). unfold other_task in Hp. destruct (others t x) as [o' k'|] eqn:Ho; [|done]. injection Hp as <- <-.
      apply call_queue_same; try done; intros Hm; apply (foreign _ _ _ _ _ Ho) in Hm; unfold own_sems in Hm; set_solver.
    + destruct Ht as (H1 & H2 & H3 & H4). unfold other_task in Hp. destruct (others t x) as [o' k'|] eqn:Ho; [|done]. injection Hp as <- <-.
      apply call_counter_same; try done; intros Hm; apply (foreign _ _ _ _ _ Ho) in Hm; unfold own_sems in Hm; set_solver.
  - intros b t f c ke Hlaw Hb Hp. pose proof (wk_home _ Hb t) as Ht. pose proof (work_home_next t _ Ht) as Hn.
    rewrite Hp in Hn. assert (forall u, home u (b_loc (touched t (f c ke) b) u)) as Hh by exact (home_insert _ t _ (wk_home _ Hb) (Hn c ke (b_data b))).
    destruct (b_loc b t) as [p m|p|p|p n m|p n|x] eqn:Hl; cbn in Ht, Hp; try subst t; (split; [exact Hh|..]).
    + by apply (work_sender_mem b p m).
    + destruct p; try done; injection Hp as <-; other_part mem_counter_same.
    + destruct p; try done; injection Hp as <-; other_part mem_queue_same.
    + by apply (giver_mem b p).
    + destruct p; try done; injection Hp as <-; other_part mem_queue_same.
    + by apply (taker_mem b p).
    + by apply (work_receiver_mem b p n m).
    + destruct p; try done; injection Hp as <-; other_part mem_counter_same.
    + destruct p; try done; injection Hp as <-; other_part mem_queue_same.
    + destruct p; try done; injection Hp as <-; other_part mem_counter_same.
    + destruct Ht as (H1 & H2 & H3 & H4). unfold other_task in Hp. destruct (others t x) as [|h]; [done|]. injection Hp as <-. by apply mem_queue_same.
    + destruct Ht as (H1 & H2 & H3 & H4). unfold other_task in Hp. destruct (others t x) as [|h]; [done|]. injection Hp as <-. by apply mem_counter_same.
  - intros b s _ [Hh Hq Hc] Hs. assert (s ∉ own_sems) as Hne by (unfold service_sems in Hs; unfold own_sems; set_solver).
    split; [exact Hh|..].
    + apply (queue_frame b); try done. intros u Hu. cbn. rewrite fn_lookup_insert_ne; [done|]. intros <-. apply Hne. unfold own_sems. destruct Hu; subst; set_solver.
    + apply (counter_frame b); try done. cbn. rewrite fn_lookup_insert_ne; [done|]. intros ->. apply Hne. unfold own_sems. set_solver.
Qed.

Lemma work_start k r : working (books_of (launch k (work_data r) (work_tasks v x0))).
Proof.
  assert (work_tasks v x0 (tcb_1 v) = One T1Starting 0) as E1 by (unfold work_tasks; by rewrite decide_True).
  assert (work_tasks v x0 (tcb_4 v) = Four T4Starting 0 0) as E4 by (unfold work_tasks; do 1 (rewrite decide_False by apart); by rewrite decide_True).
  assert (work_tasks v x0 (tcb_2 v) = Two T2Starting) as E2 by (unfold work_tasks; do 2 (rewrite decide_False by apart); by rewrite decide_True).
  assert (work_tasks v x0 (tcb_3 v) = Three T3Starting) as E3 by (unfold work_tasks; do 3 (rewrite decide_False by apart); by rewrite decide_True).
  split.
  - intros t. cbn. unfold work_tasks. repeat case_decide; try done.
  - exists 0, 0, 0, 0. cbn -[work_tasks sender_ok receiver_ok send_at recv_at]. rewrite E1, E4. split_and!; try done. exact pipe_zero.
  - exists 0. cbn -[work_tasks taker_ok giver_ok]. rewrite E2, E3. by split_and!.
Qed.

(** What the lines of a run say. *)
Definition in_order (ls : list line) : Prop := exists sp rp n,
  sent ls = numbers sp /\ received ls = numbered rp /\ rp <= sp + 1 /\ sp <= rp + ring_capacity + 1 /\
  taken ls = numbers n /\ n <= Z.of_nat (length (giving ls)) + 2.

Lemma working_in_order b : lawful ob held b -> working b -> in_order (w_lines (b_data b)).
Proof.
  intros Hlaw [_ (p & g & sp & rp & _ & _ & Hp & Hs & Hr & Hls & Hlr) (n & _ & Ht & Hg & Hl)]. destruct (queue_ledger b Hlaw) as [Hd Hsp].
  destruct (pipe_bounds Hp Hsp) as [Hgp Hpg]. pose proof (ledger b shared_semaphore Hlaw ltac:(unfold own_sems; set_solver)) as Hsh. change (work_init shared_semaphore) with (1, 1) in Hsh. cbn in Hsh.
  assert (p - 1 <= sp <= p) by (destruct (b_loc b (tcb_1 v)) as [[] ?| | | | |]; try done; cbn in Hs; lia).
  assert (g - 1 <= rp <= g) by (destruct (b_loc b (tcb_4 v)) as [| | |[] ? ?| |]; try done; cbn in Hr; lia).
  assert (n <= b_taken b shared_semaphore) by (destruct (b_loc b (tcb_3 v)) as [| |[]| | |]; try done; cbn in Ht; lia).
  assert (b_given b shared_semaphore <= Z.of_nat (length (giving (w_lines (b_data b)))) + 1) by (destruct (b_loc b (tcb_2 v)) as [|[]| | | |]; try done; cbn -[giving] in Hg; lia).
  exists sp, rp, n. split_and!; done || lia.
Qed.

Lemma work_whole_run k Q r es : starts ob k Q ->
  returns (app_run ob service_sems prog es) (launch k (work_data r) (work_tasks v x0)) (fun _ a => in_order (w_lines (a_data a))).
Proof.
  intros Hs. assert (forall s, s ∈ service_sems -> s ∈ ob_sem ob) as Hisr by (unfold service_sems; cbn; set_solver).
  eapply returns_mono; [apply (app_run_ok ob service_sems prog held work_obeys Hisr) with (J := working)|].
  - cbn. unfold timer_fuel. lia.
  - by left.
  - apply work_stable.
  - split; [|apply work_start]. apply (launch_ok ob prog held k Q _ _ Hs). intros t m. unfold work_tasks. repeat case_decide; try apply not_elem_of_nil. apply Hrest.
  - cbv beta. intros _ a [Hok Hw]. exact (working_in_order _ (app_lawful ob prog held a Hok) Hw).
Qed.
End whole.

(** The samples do what they print: from the cleared .bss on, whatever the
    schedule, the messages reported sent and received are 1, 2, 3, ... in
    order, at most one of them received before it is reported sent, and at
    most as many as the queue holds, and one more, sent but not received; the
    counter is printed as 1, 2, 3, ...; and it is not ahead of the reported
    gives by more than the count the semaphore starts with and the give that
    is being reported. *)
Theorem workload_in_order {R X} address clk_freq (others : tcb -> X -> action R X) held_other x0 (r : R) es : rest_ok others held_other x0 ->
  returns (entered (full_demo_kmain address clk_freq)) kernel_zero (fun _ k =>
    returns (app_run work_objects service_sems (work full_demo others) es) (launch k (work_data r) (work_tasks full_demo x0))
      (fun _ a => in_order (w_lines (a_data a)))) /\
  returns (entered (heavy_overlap_kmain address clk_freq)) kernel_zero (fun _ k =>
    returns (app_run work_objects service_sems (work heavy_overlap others) es) (launch k (work_data r) (work_tasks heavy_overlap x0))
      (fun _ a => in_order (w_lines (a_data a)))).
Proof.
  intros Hrest. split.
  - eapply returns_mono; [exact (full_demo_boots address clk_freq kernel_zero (booting_zero work_init (work_rank 1)))|]. intros _ k [_ Hk].
    apply work_starts in Hk as [Q Hs]; [|cbn; set_solver]. by apply (work_whole_run full_demo others held_other x0 Hrest k Q).
  - eapply returns_mono; [exact (heavy_overlap_boots address clk_freq kernel_zero (booting_zero work_init (work_rank 2)))|]. intros _ k [_ Hk].
    apply work_starts in Hk as [Q Hs]; [|cbn; set_solver]. by apply (work_whole_run heavy_overlap others held_other x0 Hrest k Q).
Qed.

(** A concrete image: the service tasks as loops around their waits. *)
Definition service_start (t : tcb) : loop :=
  match t with Pool 0 0 => LoopAwait SemDfu | Pool 0 7 => LoopAwait SemTimer | Pool 0 8 => LoopAwait s_confirm_semaphore | _ => LoopAwait uart_data_ready end.

Lemma loops_alone : rest_ok (loop_task service_sems) (fun _ _ => []) service_start.
Proof.
  split.
  - apply loop_task_obeys; [unfold service_sems; cbn; set_solver|cbn; set_solver].
  - intros t [|ms|s] o k; cbn; [done|by intros [= <- _]|]. intros [= <- _]. cbn. unfold own_sems.
    case_decide as Hs; [unfold service_sems in Hs|]; set_solver.
  - intros t m. apply not_elem_of_nil.
Qed.

Definition work_turns (n : nat) : list moment := concat (repeat (repeat (Turn 0) 8 ++ [Tick 0 54000]) n).
Example workload_example : returns (entered (full_demo_kmain (fun _ => 0x8000) 54000000)) kernel_zero (fun _ k =>
  returns (app_run work_objects service_sems (work full_demo (loop_task service_sems)) (work_turns 100))
    (launch k (work_data tt) (work_tasks full_demo service_start)) (fun _ a => in_order (w_lines (a_data a)))).
Proof.
  destruct (workload_in_order (fun _ => 0x8000) 54000000 (loop_task service_sems) (fun _ _ => []) service_start tt (work_turns 100) loops_alone) as [H _]. exact H.
Qed.
