(* ===== verification/MulticoreDemo.v ===== *)
(** * samples/rtos/multicore_full_demo: the application on the whole kernel

    The tasks of the sample as programs over [Program]: the counter tasks that
    share [g_shared_counter] under [g_counter_mutex], the ping and pong tasks,
    the producer and consumer that hand batches to each other through two
    semaphores, the sender and receiver of [g_msg_queue], and the grinding
    tasks.  Everything else that runs beside them (the LED, timer, UART,
    watchdog and telemetry tasks) is [others], any programs that keep to the
    kernel's rules and leave these objects alone.  The sample's start-up is
    [MulticoreBoot]'s.

    [busy_work_ms] only lets time pass: it is no step, since any task may wait
    between two steps as long as the schedule likes.  A print is an entry of
    [d_lines], in the order of the calls.  A call of queue.c is its steps: the
    take, the copy under the queue's lock, the give. *)

From S2P Require Import Prelude Types Dll Telemetry Kernel Stack Invariant Scheduler Heap Task SchedulerThm Semaphore Mutex SoftTimer System Program Pipe.

(** ** Data *)

(** The lines the tasks print; the arguments are those of the format. *)
Inductive line :=
  | LCounter (core value : Z)   (* "core %u: shared counter now %u\r\n" *)
  | LPing (count : Z)           (* "core 0: ping %u sent\r\n" *)
  | LPong (count : Z)           (* "core 1: pong %u received\r\n" *)
  | LProduced (batch : Z)       (* "core 1: produced batch %u, handing off\r\n" *)
  | LAcked (batch : Z)          (* "core 1: batch %u acked, producing next\r\n" *)
  | LProcessing (batch : Z)     (* "core 2: processing batch %u\r\n" *)
  | LDone (batch : Z)           (* "core 2: batch %u done\r\n" *)
  | LSent (msg : Z)             (* "core 2: sent msg %u\r\n" *)
  | LFull                       (* "core 2: queue full, send timed out\r\n" *)
  | LReceived (msg : Z).        (* "core 0: received msg %u\r\n" *)

(** [g_msg_queue] is a [ring]. *)
(** [d_rest] is what the other tasks share. *)
Record data (R : Type) := mkData { g_shared_counter : Z; g_msg_queue : ring; d_lines : list line; d_rest : R }.
#[global] Arguments mkData {_}.
#[global] Arguments g_shared_counter {_}.
#[global] Arguments g_msg_queue {_}.
#[global] Arguments d_lines {_}.
#[global] Arguments d_rest {_}.
#[export] Instance eta_data R : Settable (data R) := fun r => mkData (g_shared_counter r) (g_msg_queue r) (d_lines r) (d_rest r).

Definition g_counter_mutex : Z := 0.
Definition g_ping_sem : semref := SemUser 0.
Definition g_data_ready_sem : semref := SemUser 1.
Definition g_processing_done_sem : semref := SemUser 2.
Definition space_available : semref := SemSpace 0.
Definition data_available : semref := SemData 0.

(** ** Programs *)

Inductive counter_point := CtLock | CtLoad | CtStore (tmp : Z) | CtPrint | CtUnlock | CtDelay.
Inductive ping_point := PgDelay | PgGive | PgPrint.
Inductive pong_point := PoTake | PoPrint.
Inductive producer_point := PdPrint | PdGive | PdTake | PdAck.
Inductive consumer_point := CsTake | CsStart | CsDone | CsGive.
Inductive send_point := QsTake | QsPut | QsGive | QsSent | QsFull | QsDelay.
Inductive recv_point := QrTake | QrGet | QrGive | QrPrint.

Inductive point (X : Type) :=
  | Counter (p : counter_point)
  | Ping (p : ping_point) (count : Z)
  | Pong (p : pong_point) (count : Z)
  | Producer (p : producer_point) (batch : Z)
  | Consumer (p : consumer_point) (batch : Z)
  | Sender (p : send_point) (msg : Z)
  | Receiver (p : recv_point) (msg : Z)
  | Grind
  | Other (x : X).
#[global] Arguments Counter {_}.
#[global] Arguments Ping {_}.
#[global] Arguments Pong {_}.
#[global] Arguments Producer {_}.
#[global] Arguments Consumer {_}.
#[global] Arguments Sender {_}.
#[global] Arguments Receiver {_}.
#[global] Arguments Grind {_}.
#[global] Arguments Other {_}.

Section demo.
Context {R X : Type} (others : tcb -> X -> action R X).
Abbreviation act := (action (data R) (point X)).

Definition say (l : line) (p : point X) : act := Mem (fun _ _ d => (d <| d_lines ::= fun ls => ls ++ [l] |>, p)).

(** [g_shared_counter++] is a load and a store. *)
Definition mutex_counter_task (my_core : Z) (p : counter_point) : act :=
  match p with
  | CtLock => Do (CLock g_counter_mutex (-1)) (fun _ => Counter CtLoad)
  | CtLoad => Mem (fun _ _ d => (d, Counter (CtStore (g_shared_counter d))))
  | CtStore tmp => Mem (fun _ _ d => (d <| g_shared_counter := u32 (tmp + 1) |>, Counter CtPrint))
  | CtPrint => Mem (fun _ _ d => (d <| d_lines ::= fun ls => ls ++ [LCounter my_core (g_shared_counter d)] |>, Counter CtUnlock))
  | CtUnlock => Do (CUnlock g_counter_mutex) (fun _ => Counter CtDelay)
  | CtDelay => Do (CDelay 300) (fun _ => Counter CtLock)
  end.

Definition ping_task (p : ping_point) (count : Z) : act :=
  match p with
  | PgDelay => Do (CDelay 500) (fun _ => Ping PgGive count)
  | PgGive => Do (CGive g_ping_sem) (fun _ => Ping PgPrint count)
  | PgPrint => say (LPing count) (Ping PgDelay (u32 (count + 1)))
  end.

Definition pong_task (p : pong_point) (count : Z) : act :=
  match p with
  | PoTake => Do (CTake g_ping_sem SEMAPHORE_TAKE_BLOCKING)
                (fun r => if decide (r = E_OK) then Pong PoPrint count else Pong PoTake count)
  | PoPrint => say (LPong count) (Pong PoTake (u32 (count + 1)))
  end.

Definition handshake_producer_task (p : producer_point) (batch : Z) : act :=
  match p with
  | PdPrint => say (LProduced batch) (Producer PdGive batch)
  | PdGive => Do (CGive g_data_ready_sem) (fun _ => Producer PdTake batch)
  | PdTake => Do (CTake g_processing_done_sem SEMAPHORE_TAKE_BLOCKING) (fun _ => Producer PdAck batch)
  | PdAck => say (LAcked batch) (Producer PdPrint (u32 (batch + 1)))
  end.

Definition handshake_consumer_task (p : consumer_point) (batch : Z) : act :=
  match p with
  | CsTake => Do (CTake g_data_ready_sem SEMAPHORE_TAKE_BLOCKING) (fun _ => Consumer CsStart batch)
  | CsStart => say (LProcessing batch) (Consumer CsDone batch)
  | CsDone => say (LDone batch) (Consumer CsGive batch)
  | CsGive => Do (CGive g_processing_done_sem) (fun _ => Consumer CsTake (u32 (batch + 1)))
  end.

Definition queue_send_task (p : send_point) (msg : Z) : act :=
  match p with
  | QsTake => Do (CTake space_available 200) (fun r => if decide (r = E_OK) then Sender QsPut msg else Sender QsFull msg)
  | QsPut => Mem (fun _ _ d => let q := g_msg_queue d in
      (d <| g_msg_queue := mkRing (<[r_head q := msg]> (slots q)) ((r_head q + 1) mod ring_capacity) (r_tail q) |>, Sender QsGive msg))
  | QsGive => Do (CGive data_available) (fun _ => Sender QsSent msg)
  | QsSent => say (LSent msg) (Sender QsDelay (u32 (msg + 1)))
  | QsFull => say LFull (Sender QsDelay msg)
  | QsDelay => Do (CDelay 150) (fun _ => Sender QsTake msg)
  end.

Definition queue_recv_task (p : recv_point) (msg : Z) : act :=
  match p with
  | QrTake => Do (CTake data_available SEMAPHORE_TAKE_BLOCKING) (fun r => if decide (r = E_OK) then Receiver QrGet msg else Receiver QrTake msg)
  | QrGet => Mem (fun _ _ d => let q := g_msg_queue d in
      (d <| g_msg_queue := mkRing (slots q) (r_head q) ((r_tail q + 1) mod ring_capacity) |>, Receiver QrGive (slots q (r_tail q))))
  | QrGive => Do (CGive space_available) (fun _ => Receiver QrPrint msg)
  | QrPrint => say (LReceived msg) (Receiver QrTake msg)
  end.

(** Both grinding tasks. *)
Definition grind_task : act := Do (CDelay 15) (fun _ => Grind).

Definition other_task (t : tcb) (x : X) : act :=
  match others t x with
  | Do o k => Do o (fun code => Other (k code))
  | Mem f => Mem (fun c k d => (d <| d_rest := (f c k (d_rest d)).1 |>, Other (f c k (d_rest d)).2))
  end.

Definition demo_prog (t : tcb) (l : point X) : act :=
  match l with
  | Counter p => mutex_counter_task (tcb_core t) p
  | Ping p count => ping_task p count
  | Pong p count => pong_task p count
  | Producer p batch => handshake_producer_task p batch
  | Consumer p batch => handshake_consumer_task p batch
  | Sender p msg => queue_send_task p msg
  | Receiver p msg => queue_recv_task p msg
  | Grind => grind_task
  | Other x => other_task t x
  end.

(** ** The rest of the image *)
Context (ob : objects) (isr : list semref) (held_other : tcb -> X -> list Z).

Definition held (t : tcb) (l : point X) : list Z :=
  match l with
  | Counter (CtLoad | CtStore _ | CtPrint | CtUnlock) => [g_counter_mutex]
  | Other x => held_other t x
  | _ => []
  end.

Definition handshake_sem (s : semref) : Prop := s = g_data_ready_sem \/ s = g_processing_done_sem.
Definition queue_sem (s : semref) : Prop := s = space_available \/ s = data_available.

(** What the other tasks must leave alone. *)
Definition leaves_alone (o : call) : Prop :=
  match o with
  | CLock m _ | CUnlock m => m <> g_counter_mutex
  | CTake s _ | CGive s => ~ handshake_sem s /\ ~ queue_sem s
  | _ => True
  end.

(** The objects of [kmain], and tasks that keep to the rules. *)
Record image : Prop := {
  im_mtx : g_counter_mutex ∈ ob_mtx ob;
  im_sems : forall s, s = g_ping_sem \/ handshake_sem s \/ queue_sem s -> s ∈ ob_sem ob;
  im_init : forall s, handshake_sem s -> ob_init ob s = (0, 1);
  im_data : ob_init ob data_available = (0, ring_capacity);
  im_space : ob_init ob space_available = (ring_capacity, ring_capacity);
  im_isr : forall s, s ∈ isr -> s ∈ ob_sem ob /\ ~ handshake_sem s /\ ~ queue_sem s;
  im_timer : SemTimer ∈ isr;
  im_fuel : (length (ob_timers ob) <= timer_fuel)%nat;
  im_rules : obeys ob others held_other;
  im_alone : forall t x o k, others t x = Do o k -> leaves_alone o
}.

(** The tasks as [kmain], [core1_kmain] and [core2_kmain] create them: [P]
    produces, [C] consumes, [S] sends, [V] receives, any tasks may count. *)
Record created (P C S V : tcb) (l0 : tcb -> point X) : Prop := {
  cr_producer : l0 P = Producer PdPrint 0;
  cr_consumer : l0 C = Consumer CsTake 0;
  cr_sender : l0 S = Sender QsTake 0;
  cr_receiver : exists msg, l0 V = Receiver QrTake msg;
  cr_one_producer : forall t p b, l0 t = Producer p b -> t = P;
  cr_one_consumer : forall t p b, l0 t = Consumer p b -> t = C;
  cr_one_sender : forall t p m, l0 t = Sender p m -> t = S;
  cr_one_receiver : forall t p m, l0 t = Receiver p m -> t = V;
  cr_counters : forall t p, l0 t = Counter p -> p = CtLock;
  cr_others : forall t x m, l0 t = Other x -> m ∉ held_other t x
}.

Lemma demo_obeys : image -> obeys ob demo_prog held.
Proof.
  intros [] t l. unfold handshake_sem, queue_sem in *. destruct l as [[]|[]|[]|[]|[]|[]|[]| |x]; cbn; try (split; [eauto 10|]); try done.
  1: split; [done|by intros ?%elem_of_nil].
  all: try by eauto.
  - intros _ _ code Hc. by rewrite Hc.
  - by left.
  - intros _ _ code _ m. by case_decide.
  - intros _ _ code _ m. by case_decide.
  - intros _ _ code _ m. by case_decide.
  - specialize (im_rules0 t x). unfold other_task. destruct (others t x) as [o k|f]; [exact im_rules0|]. intros c k d m. apply im_rules0.
Qed.

(** ** The shared counter *)

(** The values the counter tasks have printed, and 1 to [n] as 32-bit words. *)
Definition values (ls : list line) : list Z := omap (fun l => match l with LCounter _ v => Some v | _ => None end) ls.
Definition numbers (n : nat) : list Z := (fun i => u32 (Z.of_nat i)) <$> seq 1 n.

Definition counter_inv (b : books (data R) (point X)) : Prop := exists n,
  values (d_lines (b_data b)) = numbers n /\
  (forall t tmp, b_loc b t = Counter (CtStore tmp) -> tmp = g_shared_counter (b_data b)) /\
  (forall t, b_loc b t = Counter CtPrint -> g_shared_counter (b_data b) = u32 (Z.of_nat n + 1)) /\
  ((forall t, b_loc b t <> Counter CtPrint) -> g_shared_counter (b_data b) = u32 (Z.of_nat n)).

Definition quiet_point (l : point X) : Prop := match l with Counter (CtStore _ | CtPrint) => False | _ => True end.

(** A step that neither counts nor prints the counter. *)
Lemma counter_keeps (b b' : books (data R) (point X)) t l : counter_inv b -> b_loc b' = <[t := l]> (b_loc b) -> quiet_point l -> b_loc b t <> Counter CtPrint ->
  g_shared_counter (b_data b') = g_shared_counter (b_data b) -> values (d_lines (b_data b')) = values (d_lines (b_data b)) -> counter_inv b'.
Proof.
  intros (n & H1 & H2 & H3 & H4) Hl Hq Ht Hg Hv. exists n. rewrite Hv, Hg, Hl. split_and!; [done|..].
  - intros u tmp. rewrite fn_insert_lookup. case_decide; [by intros ->|apply H2].
  - intros u. rewrite fn_insert_lookup. case_decide; [by intros ->|apply H3].
  - intros Hno. apply H4. intros u. destruct (decide (u = t)) as [->|Hu]; [done|]. specialize (Hno u). by rewrite fn_lookup_insert_ne in Hno.
Qed.

Lemma values_app ls l : values (ls ++ [l]) = values ls ++ match l with LCounter _ v => [v] | _ => [] end.
Proof. unfold values. rewrite omap_app. f_equal. by destruct l. Qed.

Lemma numbers_S n : numbers (S n) = numbers n ++ [u32 (Z.of_nat n + 1)].
Proof. unfold numbers. rewrite seq_S, fmap_app. cbn. do 3 f_equal. lia. Qed.

Lemma counter_sole (b : books (data R) (point X)) t u l : lawful ob held b -> b_loc b t = Counter l -> held t (Counter l) = [g_counter_mutex] ->
  forall l', b_loc b u = Counter l' -> held u (Counter l') = [g_counter_mutex] -> u = t.
Proof.
  intros Hlaw Ht Hl l' Hu Hl'. apply (lw_excl _ _ _ Hlaw _ _ g_counter_mutex); [rewrite Hu, Hl'|rewrite Ht, Hl]; by left.
Qed.

Lemma counter_stable : image -> stable ob isr demo_prog held counter_inv.
Proof.
  intros Him. split.
  - intros b t o k code _ HJ Hp _ _. eapply (counter_keeps b _ t (k code)); try done.
    + unfold demo_prog in Hp. destruct (b_loc b t) as [[]|[]|[]|[]|[]|[]|[]| |x]; try done; try (injection Hp as <- <-); try done; [by case_decide..|].
      unfold other_task in Hp. destruct (others t x); [|done]. by injection Hp as <- <-.
    + intros Hx. rewrite Hx in Hp. done.
  - intros b t f c k Hlaw HJ Hp. unfold demo_prog in Hp.
    destruct (b_loc b t) as [[| |tmp| | |]|[] n|[] n|[] n|[] n|[] n|[] n| |x] eqn:Hl; try done; cbn in Hp; unfold say, other_task in Hp;
      try (injection Hp as <-; eapply (counter_keeps b _ t); [exact HJ|reflexivity|..]; cbn; first [done|by rewrite Hl|by rewrite values_app, app_nil_r]).
    + (* the load *) injection Hp as <-. destruct HJ as (n & H1 & H2 & H3 & H4). exists n. cbn. split_and!; [done|..].
      * intros u tmp. rewrite fn_insert_lookup. case_decide; [by intros [= <-]|apply H2].
      * intros u. rewrite fn_insert_lookup. case_decide; [done|apply H3].
      * intros Hno. apply H4. intros u Hu. destruct (decide (u = t)) as [->|Hne]; [congruence|]. apply (Hno u). by rewrite fn_lookup_insert_ne.
    + (* the store *) injection Hp as <-. destruct HJ as (n & H1 & H2 & H3 & H4). exists n. cbn.
      pose proof (fun u l' => counter_sole b t u (CtStore tmp) Hlaw Hl eq_refl l') as Hsole. split_and!; [done|..].
      * intros u tmp'. rewrite fn_insert_lookup. case_decide as Hu; [done|]. intros Hu'. by destruct (Hu (eq_sym (Hsole u _ Hu' eq_refl))).
      * intros u _. rewrite (H2 t tmp Hl), H4; [unfold u32; by rewrite Zplus_mod_idemp_l|].
        intros v Hv. rewrite (Hsole v _ Hv eq_refl) in Hv. congruence.
      * intros Hno. exfalso. apply (Hno t). by rewrite fn_lookup_insert.
    + (* the print *) injection Hp as <-. destruct HJ as (n & H1 & H2 & H3 & H4). exists (S n). cbn -[numbers Z.of_nat].
      pose proof (fun u l' => counter_sole b t u CtPrint Hlaw Hl eq_refl l') as Hsole. specialize (H3 t Hl). split_and!.
      * by rewrite values_app, H1, numbers_S, H3.
      * intros u tmp'. rewrite fn_insert_lookup. case_decide as Hu; [done|]. intros Hu'. by destruct (Hu (eq_sym (Hsole u _ Hu' eq_refl))).
      * intros u. rewrite fn_insert_lookup. case_decide as Hu; [done|]. intros Hu'. by destruct (Hu (eq_sym (Hsole u _ Hu' eq_refl))).
      * intros _. rewrite H3. f_equal. lia.
    + destruct (others t x) as [|g]; [done|]. injection Hp as <-. eapply (counter_keeps b _ t); [exact HJ|reflexivity|..]; cbn; first [done|by rewrite Hl].
  - intros b s _ HJ Hs. exact HJ.
Qed.
End demo.
