(* ===== verification/MulticoreSync.v ===== *)
(** * multicore_full_demo: the handshake and the message queue

    The invariants of the two pipelines of the sample, over the programs of
    [MulticoreDemo]: producer and consumer alternate, and the queue hands its
    messages on in the order sent, without loss or overrun. *)

From S2P Require Import Prelude Types Dll Telemetry Kernel Stack Invariant Scheduler Heap Task SchedulerThm Semaphore Mutex SoftTimer System Program Pipe MulticoreDemo.

Section sync.
Context {R X : Type} (others : tcb -> X -> action R X).
Context (ob : objects) (isr : list semref) (held_other : tcb -> X -> list Z).
Abbreviation prog := (demo_prog (R := R) others).
Abbreviation holding := (held (X := X) held_other).
Abbreviation rules := (image others ob isr held_other).

(** ** The handshake *)

Definition round (i : nat) : list line :=
  let b := u32 (Z.of_nat i) in [LProduced b; LProcessing b; LDone b; LAcked b].
Definition rounds (n : nat) : list line := concat (round <$> seq 0 n).

Definition handshake_lines (ls : list line) : list line :=
  omap (fun l => match l with LProduced _ | LAcked _ | LProcessing _ | LDone _ => Some l | _ => None end) ls.

Lemma handshake_app ls l : handshake_lines (ls ++ [l]) =
  handshake_lines ls ++ match l with LProduced _ | LAcked _ | LProcessing _ | LDone _ => [l] | _ => [] end.
Proof. unfold handshake_lines. rewrite omap_app. f_equal. by destruct l. Qed.

Lemma rounds_S n : rounds (S n) = rounds n ++ round n.
Proof. unfold rounds. rewrite seq_S, fmap_app, concat_app. change (concat (round <$> [(0 + n)%nat])) with (round n ++ []). by rewrite app_nil_r. Qed.

(** The [n]-th round: where the two tasks are, the gives and takes of the two
    semaphores, and how many lines of the round are out. *)
Inductive stage (n : Z) : point X -> point X -> Z * Z -> Z * Z -> nat -> Prop :=
  | st_produce : stage n (Producer PdPrint (u32 n)) (Consumer CsTake (u32 n)) (n, n) (n, n) 0
  | st_give : stage n (Producer PdGive (u32 n)) (Consumer CsTake (u32 n)) (n, n) (n, n) 1
  | st_given : stage n (Producer PdTake (u32 n)) (Consumer CsTake (u32 n)) (n + 1, n) (n, n) 1
  | st_start : stage n (Producer PdTake (u32 n)) (Consumer CsStart (u32 n)) (n + 1, n + 1) (n, n) 1
  | st_done : stage n (Producer PdTake (u32 n)) (Consumer CsDone (u32 n)) (n + 1, n + 1) (n, n) 2
  | st_answer : stage n (Producer PdTake (u32 n)) (Consumer CsGive (u32 n)) (n + 1, n + 1) (n, n) 3
  | st_answered : stage n (Producer PdTake (u32 n)) (Consumer CsTake (u32 (n + 1))) (n + 1, n + 1) (n + 1, n) 3
  | st_ack : stage n (Producer PdAck (u32 n)) (Consumer CsTake (u32 (n + 1))) (n + 1, n + 1) (n + 1, n + 1) 3.

Context (P C : tcb).

Record handshake_inv (b : books (data R) (point X)) : Prop := {
  hs_stage : exists (n i : nat),
    stage (Z.of_nat n) (b_loc b P) (b_loc b C)
      (b_given b g_data_ready_sem, b_taken b g_data_ready_sem)
      (b_given b g_processing_done_sem, b_taken b g_processing_done_sem) i /\
    handshake_lines (d_lines (b_data b)) = rounds n ++ take i (round n);
  hs_producer : forall t p bt, b_loc b t = Producer p bt -> t = P;
  hs_consumer : forall t p bt, b_loc b t = Consumer p bt -> t = C
}.

Definition bystander (l : point X) : Prop := match l with Producer _ _ | Consumer _ _ => False | _ => True end.

Lemma stage_points n lp lc c1 c2 i : stage n lp lc c1 c2 i -> ~ bystander lp /\ ~ bystander lc.
Proof. destruct 1; cbn; tauto. Qed.

(** A step of any other task. *)
Lemma handshake_keeps (b b' : books (data R) (point X)) t l : handshake_inv b -> b_loc b' = <[t := l]> (b_loc b) ->
  bystander (b_loc b t) -> bystander l -> handshake_lines (d_lines (b_data b')) = handshake_lines (d_lines (b_data b)) ->
  (forall s, handshake_sem s -> b_given b' s = b_given b s /\ b_taken b' s = b_taken b s) -> handshake_inv b'.
Proof.
  intros [(n & i & Hst & Hl) HP HC] Hloc Hb Hb' Hlines Hs. destruct (stage_points _ _ _ _ _ _ Hst) as [H1 H2].
  assert (t <> P) as HtP by (by intros ->). assert (t <> C) as HtC by (by intros ->).
  destruct (Hs g_data_ready_sem) as [E1 E2]; [by left|]. destruct (Hs g_processing_done_sem) as [E3 E4]; [by right|].
  split.
  - exists n, i. rewrite Hloc, !fn_lookup_insert_ne by done. by rewrite E1, E2, E3, E4, Hlines.
  - intros u p bt. rewrite Hloc, fn_insert_lookup. case_decide; [intros ->; by cbn in Hb'|apply HP].
  - intros u p bt. rewrite Hloc, fn_insert_lookup. case_decide; [intros ->; by cbn in Hb'|apply HC].
Qed.



(** A step of the producer or of the consumer. *)
Lemma handshake_step (b b' : books (data R) (point X)) (n i : nat) :
  handshake_inv b -> (forall u, u <> P -> u <> C -> b_loc b' u = b_loc b u) ->
  stage (Z.of_nat n) (b_loc b' P) (b_loc b' C) (b_given b' g_data_ready_sem, b_taken b' g_data_ready_sem)
    (b_given b' g_processing_done_sem, b_taken b' g_processing_done_sem) i ->
  handshake_lines (d_lines (b_data b')) = rounds n ++ take i (round n) -> handshake_inv b'.
Proof.
  intros [_ HP HC] Hu Hst Hl. split; [by exists n, i|..]; intros t p bt Ht.
  - destruct (decide (t = P)) as [|HtP]; [done|]. destruct (decide (t = C)) as [->|HtC].
    + rewrite Ht in Hst. by inversion Hst.
    + rewrite Hu in Ht by done. by apply HP in Ht.
  - destruct (decide (t = C)) as [|HtC]; [done|]. destruct (decide (t = P)) as [->|HtP].
    + rewrite Ht in Hst. by inversion Hst.
    + rewrite Hu in Ht by done. by apply HC in Ht.
Qed.

Lemma handshake_apart b : handshake_inv b -> P <> C.
Proof. intros [(n & i & Hst & _) _ _] He. rewrite He in Hst. by inversion Hst; congruence. Qed.

Lemma give_accepted s n code (b : books (data R) (point X)) : rules -> handshake_sem s -> b_given b s = n -> b_taken b s = n ->
  may_return ob (b_given b) (b_taken b) (CGive s) code -> code = E_OK.
Proof. intros Him Hs Hg Ht. cbn. rewrite (im_init _ _ _ _ Him s Hs), Hg, Ht. cbn. intros [|]; [done|lia]. Qed.

Lemma take_covered s o (k : StatusCode -> point X) code t (b : books (data R) (point X)) : rules -> handshake_sem s -> lawful ob holding (called t o k code b) ->
  taken_after o (Some code) (b_taken b) s <= given_after o (Some code) (b_given b) s.
Proof.
  intros Him Hs Hlaw. pose proof (lw_ledger _ _ _ Hlaw s (im_sems _ _ _ _ Him s (or_intror (or_introl Hs)))) as Hl. rewrite (im_init _ _ _ _ Him s Hs) in Hl. exact Hl.
Qed.

(** The producer's calls. *)
Lemma handshake_give b n code : rules -> handshake_inv b -> b_loc b P = Producer PdGive n ->
  may_return ob (b_given b) (b_taken b) (CGive g_data_ready_sem) code ->
  handshake_inv (called P (CGive g_data_ready_sem) (fun _ => Producer PdTake n) code b).
Proof.
  intros Him Hinv Hloc Hcode. pose proof (handshake_apart b Hinv) as Hne. pose proof Hinv as [(m & i & Hst & Hl) _ _].
  inversion Hst as [| H1 H2 H3 H4 H5| | | | | |]; try congruence. rewrite Hloc in H1. injection H1 as H1. subst n i.
  assert (code = E_OK) as -> by (eapply (give_accepted g_data_ready_sem (Z.of_nat m)); try done; by left).
  apply (handshake_step b _ m 1 Hinv); cbn -[round rounds]; [|..|exact Hl].
  - intros u Hu _. by rewrite fn_lookup_insert_ne.
  - rewrite !fn_lookup_insert, !fn_lookup_insert_ne by done. rewrite <- H2, <- H3, <- H4. rewrite <- H, <- H0. constructor.
Qed.

Lemma handshake_take b n code : rules -> handshake_inv b -> b_loc b P = Producer PdTake n -> code = E_OK ->
  lawful ob holding (called P (CTake g_processing_done_sem SEMAPHORE_TAKE_BLOCKING) (fun _ => Producer PdAck n) code b) ->
  handshake_inv (called P (CTake g_processing_done_sem SEMAPHORE_TAKE_BLOCKING) (fun _ => Producer PdAck n) code b).
Proof.
  intros Him Hinv Hloc -> Hlaw. pose proof (handshake_apart b Hinv) as Hne. pose proof Hinv as [(m & i & Hst & Hl) _ _].
  pose proof (take_covered g_processing_done_sem _ _ _ _ _ Him (or_intror eq_refl) Hlaw) as Hcov. cbn in Hcov. rewrite fn_lookup_insert in Hcov.
  inversion Hst as [| | H1 H2 H3 H4 H5|H1 H2 H3 H4 H5|H1 H2 H3 H4 H5|H1 H2 H3 H4 H5| H1 H2 H3 H4 H5|]; try congruence; try lia.
  rewrite Hloc in H1. injection H1 as H1. subst n i.
  apply (handshake_step b _ m 3 Hinv); cbn -[round rounds]; [|..|exact Hl].
  - intros u Hu _. by rewrite fn_lookup_insert_ne.
  - rewrite !fn_lookup_insert, !fn_lookup_insert_ne by done. rewrite <- H2, <- H3, <- H4. rewrite <- H, <- H0. constructor.
Qed.

(** The consumer's calls. *)
Lemma handshake_take_data b n code : rules -> handshake_inv b -> b_loc b C = Consumer CsTake n -> code = E_OK ->
  lawful ob holding (called C (CTake g_data_ready_sem SEMAPHORE_TAKE_BLOCKING) (fun _ => Consumer CsStart n) code b) ->
  handshake_inv (called C (CTake g_data_ready_sem SEMAPHORE_TAKE_BLOCKING) (fun _ => Consumer CsStart n) code b).
Proof.
  intros Him Hinv Hloc -> Hlaw. pose proof (handshake_apart b Hinv) as Hne. pose proof Hinv as [(m & i & Hst & Hl) _ _].
  pose proof (take_covered g_data_ready_sem _ _ _ _ _ Him (or_introl eq_refl) Hlaw) as Hcov. cbn in Hcov. rewrite fn_lookup_insert in Hcov.
  inversion Hst as [H1 H2 H3 H4 H5|H1 H2 H3 H4 H5|H1 H2 H3 H4 H5| | | |H1 H2 H3 H4 H5|H1 H2 H3 H4 H5]; try congruence; try lia.
  rewrite Hloc in H2. injection H2 as H2. subst n i.
  apply (handshake_step b _ m 1 Hinv); cbn -[round rounds]; [|..|exact Hl].
  - intros u _ Hu. by rewrite fn_lookup_insert_ne.
  - rewrite !fn_lookup_insert, !fn_lookup_insert_ne by done. rewrite <- H1, <- H3, <- H4. rewrite <- H, <- H0. constructor.
Qed.

Lemma handshake_answer b n code : rules -> handshake_inv b -> b_loc b C = Consumer CsGive n ->
  may_return ob (b_given b) (b_taken b) (CGive g_processing_done_sem) code ->
  handshake_inv (called C (CGive g_processing_done_sem) (fun _ => Consumer CsTake (u32 (n + 1))) code b).
Proof.
  intros Him Hinv Hloc Hcode. pose proof (handshake_apart b Hinv) as Hne. pose proof Hinv as [(m & i & Hst & Hl) _ _].
  inversion Hst as [| | | | |H1 H2 H3 H4 H5| |]; try congruence. rewrite Hloc in H2. injection H2 as H2. subst n i.
  assert (code = E_OK) as -> by (eapply (give_accepted g_processing_done_sem (Z.of_nat m)); try done; by right).
  apply (handshake_step b _ m 3 Hinv); cbn -[round rounds]; [|..|exact Hl].
  - intros u _ Hu. by rewrite fn_lookup_insert_ne.
  - rewrite !fn_lookup_insert, !fn_lookup_insert_ne by done. rewrite <- H1, <- H3, <- H4. rewrite <- H, <- H0, u32_succ. constructor.
Qed.

Lemma tell_keeps (b : books (data R) (point X)) t f l : handshake_inv b -> bystander (b_loc b t) ->
  (f (b_data b)).2 = l -> bystander l -> handshake_lines (d_lines (f (b_data b)).1) = handshake_lines (d_lines (b_data b)) -> handshake_inv (touched t f b).
Proof. intros Hinv Ht Hl Hb Hlines. apply (handshake_keeps b _ t l Hinv); try done. cbn. by rewrite Hl. Qed.

(** A call that is not on [s] leaves its counts alone. *)
Lemma call_leaves s t o (k : StatusCode -> point X) code (b : books (data R) (point X)) : (o <> CGive s /\ forall x, o <> CTake s x) ->
  b_given (called t o k code b) s = b_given b s /\ b_taken (called t o k code b) s = b_taken b s.
Proof.
  intros [Hg Htk]. cbn. destruct o as [| |m x|m|s' x|s'|op]; try done; destruct code; try done; cbn;
    rewrite fn_lookup_insert_ne; try done; intros <-; [by eapply Htk|by apply Hg].
Qed.

(** A call of another task leaves the two semaphores alone. *)
Lemma call_keeps (b : books (data R) (point X)) t o k code : handshake_inv b -> bystander (b_loc b t) -> bystander (k code) ->
  (forall s, handshake_sem s -> o <> CGive s /\ forall x, o <> CTake s x) -> handshake_inv (called t o k code b).
Proof.
  intros Hinv Ht Hk Hs. apply (handshake_keeps b _ t (k code) Hinv); try done. intros s H. by apply call_leaves, Hs.
Qed.

(** The lines of the two tasks. *)
Lemma produce_step b n f co ke : handshake_inv b -> b_loc b P = Producer PdPrint n -> say (LProduced n) (Producer PdGive n) = Mem f -> handshake_inv (touched P (f co ke) b).
Proof.
  intros Hinv Hloc [= <-]. pose proof (handshake_apart b Hinv) as Hne. pose proof Hinv as [(m & i & Hst & Hl) _ _].
  inversion Hst as [H1 H2 H3 H4 H5| | | | | | |]; try congruence. rewrite Hloc in H1. injection H1 as H1. subst n i.
  apply (handshake_step b _ m 1 Hinv); cbn -[round rounds].
  - intros u Hu _. by rewrite fn_lookup_insert_ne.
  - rewrite !fn_lookup_insert, !fn_lookup_insert_ne by done. rewrite <- H2, <- H3, <- H4. rewrite <- H, <- H0. constructor.
  - by rewrite handshake_app, Hl, app_nil_r.
Qed.

Lemma ack_step b n f co ke : handshake_inv b -> b_loc b P = Producer PdAck n -> say (LAcked n) (Producer PdPrint (u32 (n + 1))) = Mem f -> handshake_inv (touched P (f co ke) b).
Proof.
  intros Hinv Hloc [= <-]. pose proof (handshake_apart b Hinv) as Hne. pose proof Hinv as [(m & i & Hst & Hl) _ _].
  inversion Hst as [| | | | | | |H1 H2 H3 H4 H5]; try congruence. rewrite Hloc in H1. injection H1 as H1. subst n i.
  apply (handshake_step b _ (S m) 0 Hinv); cbn -[round rounds Z.of_nat].
  - intros u Hu _. by rewrite fn_lookup_insert_ne.
  - rewrite !fn_lookup_insert, !fn_lookup_insert_ne by done. rewrite <- H2, <- H3, <- H4. rewrite <- H, <- H0, u32_succ.
    replace (Z.of_nat m + 1) with (Z.of_nat (S m)) by lia. constructor.
  - by rewrite handshake_app, Hl, rounds_S, !app_nil_r, <- app_assoc.
Qed.

Lemma start_step b n f co ke : handshake_inv b -> b_loc b C = Consumer CsStart n -> say (LProcessing n) (Consumer CsDone n) = Mem f -> handshake_inv (touched C (f co ke) b).
Proof.
  intros Hinv Hloc [= <-]. pose proof (handshake_apart b Hinv) as Hne. pose proof Hinv as [(m & i & Hst & Hl) _ _].
  inversion Hst as [| | |H1 H2 H3 H4 H5| | | |]; try congruence. rewrite Hloc in H2. injection H2 as H2. subst n i.
  apply (handshake_step b _ m 2 Hinv); cbn -[round rounds].
  - intros u _ Hu. by rewrite fn_lookup_insert_ne.
  - rewrite !fn_lookup_insert, !fn_lookup_insert_ne by done. rewrite <- H1, <- H3, <- H4. rewrite <- H, <- H0. constructor.
  - by rewrite handshake_app, Hl, <- app_assoc.
Qed.

Lemma done_step b n f co ke : handshake_inv b -> b_loc b C = Consumer CsDone n -> say (LDone n) (Consumer CsGive n) = Mem f -> handshake_inv (touched C (f co ke) b).
Proof.
  intros Hinv Hloc [= <-]. pose proof (handshake_apart b Hinv) as Hne. pose proof Hinv as [(m & i & Hst & Hl) _ _].
  inversion Hst as [| | | |H1 H2 H3 H4 H5| | |]; try congruence. rewrite Hloc in H2. injection H2 as H2. subst n i.
  apply (handshake_step b _ m 3 Hinv); cbn -[round rounds].
  - intros u _ Hu. by rewrite fn_lookup_insert_ne.
  - rewrite !fn_lookup_insert, !fn_lookup_insert_ne by done. rewrite <- H1, <- H3, <- H4. rewrite <- H, <- H0. constructor.
  - by rewrite handshake_app, Hl, <- app_assoc.
Qed.

Lemma handshake_stable : rules -> stable ob isr prog holding handshake_inv.
Proof.
  intros Him. split.
  - intros b t o k code _ Hinv Hp Hcode Hlaw. unfold demo_prog in Hp. destruct (b_loc b t) as [[]|[] n|[] n|[] n|[] n|[] n|[] n| |x] eqn:Hl; try done;
      try (injection Hp as <- <-);
      try (apply call_keeps; [done|by rewrite Hl|cbn; by try case_decide|]; intros s [-> | ->]; (split; [|intros x]; discriminate)).
    + assert (t = P) as -> by (exact (hs_producer b Hinv t _ _ Hl)). by apply handshake_give.
    + assert (t = P) as -> by (exact (hs_producer b Hinv t _ _ Hl)). apply handshake_take; [done..| |done]. by apply Hcode.
    + assert (t = C) as -> by (exact (hs_consumer b Hinv t _ _ Hl)). apply handshake_take_data; [done..| |done]. by apply Hcode.
    + assert (t = C) as -> by (exact (hs_consumer b Hinv t _ _ Hl)). by apply handshake_answer.
    + unfold other_task in Hp. destruct (others t x) as [o' k'|] eqn:Ho; [|done]. injection Hp as <- <-.
      pose proof (im_alone _ _ _ _ Him t x o' k' Ho) as Hal. apply call_keeps; [done|by rewrite Hl|done|].
      intros s Hs. split; [|intros x0]; intros ->; by apply (proj1 Hal).
  - intros b t f co ke _ Hinv Hp. unfold demo_prog in Hp. destruct (b_loc b t) as [[]|[] n|[] n|[] n|[] n|[] n|[] n| |x] eqn:Hl; try done; cbn in Hp.
    all: try (injection Hp as <-; eapply tell_keeps; [done|by rewrite Hl|done|done|cbn; rewrite ?handshake_app, ?app_nil_r; done]).
    1: assert (t = P) as -> by (exact (hs_producer b Hinv t _ _ Hl)); by eapply produce_step.
    1: assert (t = P) as -> by (exact (hs_producer b Hinv t _ _ Hl)); by eapply ack_step.
    1: assert (t = C) as -> by (exact (hs_consumer b Hinv t _ _ Hl)); by eapply start_step.
    1: assert (t = C) as -> by (exact (hs_consumer b Hinv t _ _ Hl)); by eapply done_step.
    unfold other_task in Hp. destruct (others t x) as [|g]; [done|]. injection Hp as <-.
    by eapply tell_keeps; [done|rewrite Hl|..].
  - intros b s _ Hinv Hs. destruct (im_isr _ _ _ _ Him s Hs) as (_ & Hno & _). destruct Hinv as [(n & i & Hst & Hlines) HP HC]. split; [|done..].
    exists n, i. cbn. rewrite !fn_lookup_insert_ne; [done|..]; intros ->; apply Hno; [by right|by left].
Qed.

(** ** The message queue *)

Definition sent (ls : list line) : list Z := omap (fun l => match l with LSent m => Some m | _ => None end) ls.
Definition received (ls : list line) : list Z := omap (fun l => match l with LReceived m => Some m | _ => None end) ls.

Lemma sent_app ls l : sent (ls ++ [l]) = sent ls ++ match l with LSent m => [m] | _ => [] end.
Proof. unfold sent. rewrite omap_app. f_equal. by destruct l. Qed.
Lemma received_app ls l : received (ls ++ [l]) = received ls ++ match l with LReceived m => [m] | _ => [] end.
Proof. unfold received. rewrite omap_app. f_equal. by destruct l. Qed.
(** Where the sender is, after [p] puts: the gives of [data_available], the
    takes of [space_available], and the messages it has reported. *)
Definition sending (p : Z) (l : point X) (given taken reported : Z) : Prop :=
  match l with
  | Sender (QsTake | QsFull | QsDelay) msg => msg = u32 p /\ given = p /\ taken = p /\ reported = p
  | Sender QsPut msg => msg = u32 p /\ given = p /\ taken = p + 1 /\ reported = p
  | Sender QsGive msg => 0 < p /\ msg = u32 (p - 1) /\ given = p - 1 /\ taken = p /\ reported = p - 1
  | Sender QsSent msg => 0 < p /\ msg = u32 (p - 1) /\ given = p /\ taken = p /\ reported = p - 1
  | _ => False
  end.

(** Where the receiver is, after [g] gets: the takes of [data_available], the
    gives of [space_available], and the messages it has reported. *)
Definition receiving (g : Z) (l : point X) (taken given reported : Z) : Prop :=
  match l with
  | Receiver QrTake _ => taken = g /\ given = g /\ reported = g
  | Receiver QrGet _ => taken = g + 1 /\ given = g /\ reported = g
  | Receiver QrGive msg => 0 < g /\ msg = u32 (g - 1) /\ taken = g /\ given = g - 1 /\ reported = g - 1
  | Receiver QrPrint msg => 0 < g /\ msg = u32 (g - 1) /\ taken = g /\ given = g /\ reported = g - 1
  | _ => False
  end.

(** Both keep within the ring. *)
Lemma sending_range p l given taken reported : sending p l given taken reported -> p - 1 <= given <= p /\ p <= taken <= p + 1.
Proof. unfold sending. destruct l as [| | | | |[] | | |]; try done; lia. Qed.
Lemma receiving_range g l taken given reported : receiving g l taken given reported -> g <= taken <= g + 1 /\ g - 1 <= given <= g.
Proof. unfold receiving. destruct l as [| | | | | |[] | |]; try done; lia. Qed.

Context (S V : tcb).

Record queue_inv (b : books (data R) (point X)) : Prop := {
  qi_pipe : exists p g sp rp, holds_messages (g_msg_queue (b_data b)) g p /\
    sending p (b_loc b S) (b_given b data_available) (b_taken b space_available) sp /\
    receiving g (b_loc b V) (b_taken b data_available) (b_given b space_available) rp /\
    sent (d_lines (b_data b)) = messages sp /\ received (d_lines (b_data b)) = messages rp;
  qi_sender : forall t p m, b_loc b t = Sender p m -> t = S;
  qi_receiver : forall t p m, b_loc b t = Receiver p m -> t = V
}.

Lemma queue_apart b : queue_inv b -> S <> V.
Proof. intros [(p & g & sp & rp & _ & Hs & Hr & _) _ _] He. rewrite He in Hs. by destruct (b_loc b V). Qed.

Definition outsider (l : point X) : Prop := match l with Sender _ _ | Receiver _ _ => False | _ => True end.

Lemma queue_keeps (b b' : books (data R) (point X)) t l : queue_inv b -> b_loc b' = <[t := l]> (b_loc b) ->
  outsider (b_loc b t) -> outsider l -> g_msg_queue (b_data b') = g_msg_queue (b_data b) ->
  sent (d_lines (b_data b')) = sent (d_lines (b_data b)) -> received (d_lines (b_data b')) = received (d_lines (b_data b)) ->
  (forall s, queue_sem s -> b_given b' s = b_given b s /\ b_taken b' s = b_taken b s) -> queue_inv b'.
Proof.
  intros [(p & g & sp & rp & Hq & Hs & Hr & Hls & Hlr) HS HV] Hloc Ht Hl E1 E2 E3 Hsem.
  assert (t <> S) as HtS by (intros ->; by destruct (b_loc b S)). assert (t <> V) as HtV by (intros ->; by destruct (b_loc b V)).
  destruct (Hsem data_available) as [E4 E5]; [by right|]. destruct (Hsem space_available) as [E6 E7]; [by left|].
  split.
  - exists p, g, sp, rp. rewrite Hloc, !fn_lookup_insert_ne by done. by rewrite E1, E2, E3, E4, E5, E6, E7.
  - intros u q m. rewrite Hloc, fn_insert_lookup. case_decide; [intros ->; by cbn in Hl|apply HS].
  - intros u q m. rewrite Hloc, fn_insert_lookup. case_decide; [intros ->; by cbn in Hl|apply HV].
Qed.

(** A step of the sender or of the receiver. *)
Lemma queue_step (b b' : books (data R) (point X)) p g sp rp : queue_inv b -> (forall u, u <> S -> u <> V -> b_loc b' u = b_loc b u) ->
  holds_messages (g_msg_queue (b_data b')) g p -> sending p (b_loc b' S) (b_given b' data_available) (b_taken b' space_available) sp ->
  receiving g (b_loc b' V) (b_taken b' data_available) (b_given b' space_available) rp ->
  sent (d_lines (b_data b')) = messages sp -> received (d_lines (b_data b')) = messages rp -> queue_inv b'.
Proof.
  intros [_ HS HV] Hu Hq Hs Hr H1 H2. split; [by exists p, g, sp, rp|..]; intros t q m Ht.
  - destruct (decide (t = S)) as [|HtS]; [done|]. destruct (decide (t = V)) as [->|HtV].
    + by rewrite Ht in Hr.
    + rewrite Hu in Ht by done. by apply HS in Ht.
  - destruct (decide (t = V)) as [|HtV]; [done|]. destruct (decide (t = S)) as [->|HtS].
    + by rewrite Ht in Hs.
    + rewrite Hu in Ht by done. by apply HV in Ht.
Qed.

(** What the semaphores say of the ring. *)
Lemma queue_bounds (b : books (data R) (point X)) : rules -> lawful ob holding b ->
  b_taken b data_available <= b_given b data_available /\ b_taken b space_available <= ring_capacity + b_given b space_available.
Proof.
  intros Him Hlaw. pose proof (lw_ledger _ _ _ Hlaw data_available (im_sems _ _ _ _ Him _ ltac:(right; right; by right))) as H1.
  pose proof (lw_ledger _ _ _ Hlaw space_available (im_sems _ _ _ _ Him _ ltac:(right; right; by left))) as H2.
  rewrite (im_data _ _ _ _ Him) in H1. rewrite (im_space _ _ _ _ Him) in H2. cbn in H1, H2. split; assumption.
Qed.

Lemma sender_call b o k code msg q : rules -> lawful ob holding b -> queue_inv b -> b_loc b S = Sender q msg -> queue_send_task (R := R) q msg = Do o k ->
  may_return ob (b_given b) (b_taken b) o code -> queue_inv (called S o k code b).
Proof.
  intros Him Hlaw Hinv Hloc Hp Hcode. pose proof (queue_apart b Hinv) as Hne. destruct (queue_bounds b Him Hlaw) as [Hb1 Hb2].
  pose proof Hinv as [(p & g & sp & rp & Hq & Hs & Hr & Hls & Hlr) _ _]. pose proof (receiving_range _ _ _ _ _ Hr) as Hrr.
  rewrite Hloc in Hs. apply (queue_step b _ p g sp rp Hinv); try done.
  - intros u Hu _. cbn. by rewrite fn_lookup_insert_ne.
  - cbn [called b_loc]. rewrite fn_lookup_insert. destruct q; try done; injection Hp as <- <-; cbn in Hs, Hcode |- *.
    + destruct code; cbn; rewrite ?decide_True, ?decide_False by done; cbn; rewrite ?fn_lookup_insert, ?fn_lookup_insert_ne by done; try lia.
    + rewrite (im_data _ _ _ _ Him) in Hcode. cbn in Hcode. destruct Hcode as [->|Hfull]; [|exfalso; unfold ring_capacity in *; lia].
      rewrite ?fn_lookup_insert, ?fn_lookup_insert_ne by done. lia.
    + lia.
  - cbn [called b_loc]. rewrite fn_lookup_insert_ne by done. destruct q; try done; injection Hp as <- <-; try exact Hr; cbn -[receiving];
      destruct code; cbn -[receiving]; rewrite ?fn_lookup_insert_ne by done; exact Hr.
Qed.
Lemma receiver_call b o k code msg q : rules -> lawful ob holding b -> queue_inv b -> b_loc b V = Receiver q msg -> queue_recv_task (R := R) q msg = Do o k ->
  may_return ob (b_given b) (b_taken b) o code -> queue_inv (called V o k code b).
Proof.
  intros Him Hlaw Hinv Hloc Hp Hcode. pose proof (queue_apart b Hinv) as Hne. destruct (queue_bounds b Him Hlaw) as [Hb1 Hb2].
  pose proof Hinv as [(p & g & sp & rp & Hq & Hs & Hr & Hls & Hlr) _ _]. pose proof (sending_range _ _ _ _ _ Hs) as Hsr.
  rewrite Hloc in Hr. apply (queue_step b _ p g sp rp Hinv); try done.
  - intros u _ Hu. cbn. by rewrite fn_lookup_insert_ne.
  - cbn [called b_loc]. rewrite fn_lookup_insert_ne by done. destruct q; try done; injection Hp as <- <-; try exact Hs; cbn -[sending];
      destruct code; cbn -[sending]; rewrite ?fn_lookup_insert_ne by done; exact Hs.
  - cbn [called b_loc]. rewrite fn_lookup_insert. destruct q; try done; injection Hp as <- <-; cbn in Hr, Hcode |- *.
    + destruct code; cbn; rewrite ?decide_True, ?decide_False by done; cbn; rewrite ?fn_lookup_insert, ?fn_lookup_insert_ne by done; try lia.
    + rewrite (im_space _ _ _ _ Him) in Hcode. cbn in Hcode. destruct Hcode as [->|Hfull]; [|exfalso; pose proof (hm_order _ _ _ Hq); lia].
      rewrite ?fn_lookup_insert, ?fn_lookup_insert_ne by done. lia.
Qed.

Lemma sender_mem b f co ke msg q : rules -> lawful ob holding b -> queue_inv b -> b_loc b S = Sender q msg -> queue_send_task (R := R) q msg = Mem f ->
  queue_inv (touched S (f co ke) b).
Proof.
  intros Him Hlaw Hinv Hloc Hp. pose proof (queue_apart b Hinv) as Hne. destruct (queue_bounds b Him Hlaw) as [Hb1 Hb2].
  pose proof Hinv as [(p & g & sp & rp & Hq & Hs & Hr & Hls & Hlr) _ _]. pose proof (receiving_range _ _ _ _ _ Hr) as Hrr.
  rewrite Hloc in Hs. pose proof (hm_order _ _ _ Hq) as Hgp. destruct q; try done; injection Hp as <-; cbn in Hs.
  - destruct Hs as (-> & Hgd & Htk & ->). apply (queue_step b _ (p + 1) g p rp Hinv); cbn -[receiving]; rewrite ?fn_lookup_insert, ?fn_lookup_insert_ne by done; try done.
    + intros u Hu _. by rewrite fn_lookup_insert_ne.
    + apply ring_put; [done|lia].
    + unfold sending. replace (p + 1 - 1) with p by lia. split_and!; done || lia.
  - destruct Hs as (Hpos & -> & Hgd & Htk & ->). apply (queue_step b _ p g p rp Hinv); cbn -[receiving]; rewrite ?fn_lookup_insert, ?fn_lookup_insert_ne by done; try done.
    + intros u Hu _. by rewrite fn_lookup_insert_ne.
    + unfold sending. rewrite u32_succ. replace (p - 1 + 1) with p by lia. split_and!; done || lia.
    + by rewrite sent_app, Hls, <- messages_next.
    + by rewrite received_app, app_nil_r.
  - apply (queue_step b _ p g sp rp Hinv); cbn -[receiving]; rewrite ?fn_lookup_insert, ?fn_lookup_insert_ne by done; try done.
    + intros u Hu _. by rewrite fn_lookup_insert_ne.
    + by rewrite sent_app, app_nil_r.
    + by rewrite received_app, app_nil_r.
Qed.

Lemma receiver_mem b f co ke msg q : rules -> lawful ob holding b -> queue_inv b -> b_loc b V = Receiver q msg -> queue_recv_task (R := R) q msg = Mem f ->
  queue_inv (touched V (f co ke) b).
Proof.
  intros Him Hlaw Hinv Hloc Hp. pose proof (queue_apart b Hinv) as Hne. destruct (queue_bounds b Him Hlaw) as [Hb1 Hb2].
  pose proof Hinv as [(p & g & sp & rp & Hq & Hs & Hr & Hls & Hlr) _ _]. pose proof (sending_range _ _ _ _ _ Hs) as Hsr.
  rewrite Hloc in Hr. pose proof (hm_order _ _ _ Hq) as Hgp. destruct q; try done; injection Hp as <-; cbn in Hr.
  - destruct Hr as (Htk & Hgd & ->). destruct (ring_get _ g p Hq) as [Hv Hq']; [lia|].
    apply (queue_step b _ p (g + 1) sp g Hinv); cbn -[sending]; rewrite ?fn_lookup_insert, ?fn_lookup_insert_ne by done; try done.
    + intros u _ Hu. by rewrite fn_lookup_insert_ne.
    + unfold receiving. rewrite Hv. replace (g + 1 - 1) with g by lia. split_and!; done || lia.
  - destruct Hr as (Hpos & -> & Htk & Hgd & ->). apply (queue_step b _ p g sp g Hinv); cbn -[sending]; rewrite ?fn_lookup_insert, ?fn_lookup_insert_ne by done; try done.
    + intros u _ Hu. by rewrite fn_lookup_insert_ne.
    + by rewrite sent_app, app_nil_r.
    + by rewrite received_app, Hlr, <- messages_next.
Qed.

Lemma queue_call_keeps (b : books (data R) (point X)) t o k code : queue_inv b -> outsider (b_loc b t) -> outsider (k code) ->
  (forall s, queue_sem s -> o <> CGive s /\ forall x, o <> CTake s x) -> queue_inv (called t o k code b).
Proof.
  intros Hinv Ht Hk Hs. apply (queue_keeps b _ t (k code) Hinv); try done. intros s H. by apply call_leaves, Hs.
Qed.

Lemma queue_mem_keeps (b : books (data R) (point X)) t f : queue_inv b -> outsider (b_loc b t) -> outsider (f (b_data b)).2 ->
  g_msg_queue (f (b_data b)).1 = g_msg_queue (b_data b) -> sent (d_lines (f (b_data b)).1) = sent (d_lines (b_data b)) ->
  received (d_lines (f (b_data b)).1) = received (d_lines (b_data b)) -> queue_inv (touched t f b).
Proof. intros. by apply (queue_keeps b _ t (f (b_data b)).2). Qed.

Lemma queue_stable : rules -> stable ob isr prog holding queue_inv.
Proof.
  intros Him. split.
  - intros b t o k code Hlaw Hinv Hp Hcode _. unfold demo_prog in Hp. destruct (b_loc b t) as [[]|[] n|[] n|[] n|[] n|q n|q n| |x] eqn:Hl; try done;
      try (injection Hp as <- <-);
      try (apply queue_call_keeps; [done|by rewrite Hl|cbn; by try case_decide|]; intros s [-> | ->]; (split; [|intros x]; discriminate)).
    + assert (t = S) as -> by exact (qi_sender b Hinv t _ _ Hl). by eapply sender_call.
    + assert (t = V) as -> by exact (qi_receiver b Hinv t _ _ Hl). by eapply receiver_call.
    + unfold other_task in Hp. destruct (others t x) as [o' k'|] eqn:Ho; [|done]. injection Hp as <- <-.
      pose proof (im_alone _ _ _ _ Him t x o' k' Ho) as Hal. apply queue_call_keeps; [done|by rewrite Hl|done|].
      intros s Hs. split; [|intros x0]; intros ->; by apply (proj2 Hal).
  - intros b t f co ke Hlaw Hinv Hp. unfold demo_prog in Hp. destruct (b_loc b t) as [[]|[] n|[] n|[] n|[] n|q n|q n| |x] eqn:Hl; try done; cbn in Hp.
    all: try (injection Hp as <-; apply queue_mem_keeps; [done|by rewrite Hl|done|done|cbn; rewrite ?sent_app, ?received_app, ?app_nil_r; done..]).
    + assert (t = S) as -> by exact (qi_sender b Hinv t _ _ Hl). by eapply sender_mem.
    + assert (t = V) as -> by exact (qi_receiver b Hinv t _ _ Hl). by eapply receiver_mem.
    + unfold other_task in Hp. destruct (others t x) as [|h]; [done|]. injection Hp as <-.
      by apply queue_mem_keeps; [|rewrite Hl|..].
  - intros b s _ Hinv Hs. destruct (im_isr _ _ _ _ Him s Hs) as (_ & _ & Hno). destruct Hinv as [(p & g & sp & rp & H1 & H2 & H3 & H4 & H5) HS HV]. split; [|done..].
    exists p, g, sp, rp. cbn -[sending receiving]. rewrite !fn_lookup_insert_ne; [done|..]; intros ->; apply Hno; [by left|by right].
Qed.
End sync.
