(* ===== verification/MulticoreBoot.v ===== *)
(** * multicore_full_demo: start-up, and the whole application

    The kernel's part of [kmain], [core1_kmain], [core2_kmain] and
    [core3_kmain], in their order, and what the application does from the
    cleared .bss on, whatever the schedule.  The cores come up one after the
    other: core 0 releases the rest before it starts its own scheduler.  What
    [kmain] does besides (pins, UART and I2C registers, GIC, the watchdog's
    registers, boot reports) changes nothing of the kernel's state. *)

From Stdlib Require String.
From S2P Require Import Prelude Types Dll Telemetry Kernel Stack Invariant Scheduler Heap Task SchedulerThm Semaphore Mutex Queue SoftTimer System Program Startup Image Pipe MulticoreDemo MulticoreSync.
From S2P Require Printf.

Module DemoNames.
Import String.
Definition counter_mtx : list Z := Printf.chars "counter_mtx".
Definition ping_sem : list Z := Printf.chars "ping_sem".
Definition data_ready_sem : list Z := Printf.chars "data_ready_sem".
Definition processing_done_sem : list Z := Printf.chars "processing_done_sem".
Definition msg_queue : list Z := Printf.chars "msg_queue".
Definition mutex_ctr0 : list Z := Printf.chars "mutex_ctr0".
Definition mutex_ctr1 : list Z := Printf.chars "mutex_ctr1".
Definition mutex_ctr2 : list Z := Printf.chars "mutex_ctr2".
Definition ping : list Z := Printf.chars "ping".
Definition pong : list Z := Printf.chars "pong".
Definition hs_producer : list Z := Printf.chars "hs_producer".
Definition hs_consumer : list Z := Printf.chars "hs_consumer".
Definition queue_recv : list Z := Printf.chars "queue_recv".
Definition queue_send : list Z := Printf.chars "queue_send".
Definition grind0 : list Z := Printf.chars "grind0".
Definition grind1 : list Z := Printf.chars "grind1".
Definition grind2 : list Z := Printf.chars "grind2".
Definition pca_blink : list Z := Printf.chars "pca_blink".
Definition telemetry_pub : list Z := Printf.chars "telemetry_pub".
End DemoNames.

(** The image's functions that the kernel is given the addresses of. *)
Inductive function :=
  | Service (f : service) | F_mutex_counter | F_ping | F_pong | F_producer | F_consumer | F_queue_send | F_queue_recv | F_grind | F_grind_2
  | F_pca_blink | F_telemetry_publisher.

Section kmain.
Context (address : function -> Z) (clk_freq : Z -> Z).

Definition hz : Z := 1000.
Abbreviation services := (fun f => address (Service f)).
Abbreviation create me f depth prio name := (task_create (address (Service F_trap)) me (address f) depth prio 0 (Some name)).
#[local] Instance demo_hooks : Hooks := image_hooks services.

Definition kmain : K StatusCode :=
  scheduler_init (address (Service F_idle)) 0 (Some (clk_freq 0)) hz (Some 0);;
  uart_start services 0;;
  software_timer_init;;
  software_timer_start (address (Service F_trap)) 0 (address (Service F_timer_service));;
  mutex_init g_counter_mutex (Some DemoNames.counter_mtx);;
  semaphore_init g_ping_sem 1 0 (Some DemoNames.ping_sem);;
  semaphore_init g_data_ready_sem 1 0 (Some DemoNames.data_ready_sem);;
  semaphore_init g_processing_done_sem 1 0 (Some DemoNames.processing_done_sem);;
  queue_init 0 0 4 4 (Some DemoNames.msg_queue);;
  create 0 F_mutex_counter 2048 TASK_PRIORITY_1 DemoNames.mutex_ctr0;;
  create 0 F_ping 2048 TASK_PRIORITY_2 DemoNames.ping;;
  create 0 F_queue_recv 2048 TASK_PRIORITY_2 DemoNames.queue_recv;;
  create 0 F_grind 2048 TASK_PRIORITY_1 DemoNames.grind0;;
  create 0 F_grind_2 2048 TASK_PRIORITY_1 DemoNames.grind1;;
  create 0 F_pca_blink 2048 TASK_PRIORITY_1 DemoNames.pca_blink;;
  watchdog_start services 0 1000;;
  scheduler_start 0.

Definition core1_kmain : K StatusCode :=
  scheduler_init (address (Service F_idle)) 1 (Some (clk_freq 1)) hz (Some 0);;
  watchdog_core_start services 1;;
  create 1 F_mutex_counter 2048 TASK_PRIORITY_1 DemoNames.mutex_ctr1;;
  create 1 F_pong 2048 TASK_PRIORITY_2 DemoNames.pong;;
  create 1 F_producer 2048 TASK_PRIORITY_2 DemoNames.hs_producer;;
  create 1 F_grind 2048 TASK_PRIORITY_1 DemoNames.grind1;;
  scheduler_start 1.

Definition core2_kmain : K StatusCode :=
  scheduler_init (address (Service F_idle)) 2 (Some (clk_freq 2)) hz (Some 0);;
  watchdog_core_start services 2;;
  create 2 F_mutex_counter 2048 TASK_PRIORITY_1 DemoNames.mutex_ctr2;;
  create 2 F_queue_send 2048 TASK_PRIORITY_2 DemoNames.queue_send;;
  create 2 F_consumer 2048 TASK_PRIORITY_2 DemoNames.hs_consumer;;
  create 2 F_grind 2048 TASK_PRIORITY_1 DemoNames.grind2;;
  scheduler_start 2.

Definition core3_kmain : K StatusCode :=
  scheduler_init (address (Service F_idle)) 3 (Some (clk_freq 3)) hz (Some 0);;
  watchdog_core_start services 3;;
  create 3 F_telemetry_publisher 2048 TASK_PRIORITY_1 DemoNames.telemetry_pub;;
  scheduler_start 3.

Definition image_boot : K unit :=
  entered kmain;; entered core1_kmain;; entered core2_kmain;; entered core3_kmain.

(** ** What start-up leaves *)

Definition demo_init (s : semref) : Z * Z :=
  match s with
  | SemUser _ | SemDfu => (0, 1)
  | SemTimer => (0, SEMAPHORE_MAX_COUNT_UNLIMITED)
  | SemData _ => (0, ring_capacity)
  | SemSpace _ => (ring_capacity, ring_capacity)
  end.
Definition demo_objects : objects :=
  mkObjects [g_counter_mutex]
    [g_ping_sem; g_data_ready_sem; g_processing_done_sem; space_available; data_available; uart_data_ready; uart_dma_done;
     s_confirm_semaphore; SemTimer; SemDfu] demo_init [s_watchdog_kick_timer; s_confirm_timer].

(** The priorities the tasks are created with. *)
Definition demo_rank (t : tcb) : Z :=
  match t with
  | Pool 0 (0 | 1 | 2) => TASK_PRIORITY_5
  | Pool 0 (4 | 5) | Pool 1 (2 | 3) | Pool 2 (2 | 3) => TASK_PRIORITY_2
  | Pool _ _ => TASK_PRIORITY_1
  | Idle _ => TASK_PRIORITY_IDLE
  end.
Abbreviation boots := (boots demo_init demo_rank).

Lemma demo_services : service_init demo_init.
Proof. by split. Qed.

#[local] Ltac create := eapply enters_bind; [apply create_boots; side|intros _ _].
#[local] Ltac sem := eapply enters_bind; [apply sem_boots; side|intros _ _].

(** The objects [kmain] leaves, and the heap it has used. *)
Definition all_sems : list semref :=
  [s_confirm_semaphore; space_available; data_available; g_processing_done_sem; g_data_ready_sem; g_ping_sem; SemTimer; uart_dma_done;
   uart_data_ready; SemDfu].
Definition ready_plan (cs : list Z) (off : Z) (n : Z * Z * Z * Z) : plan :=
  mkPlan [(g_counter_mutex, 0)] all_sems [s_confirm_timer; s_watchdog_kick_timer] cs off (counts n).

Lemma kmain_boots : boots nothing_yet (entered kmain) (fun _ => True) (ready_plan [0] 65552 (10, 0, 0, 0)).
Proof.
  unfold kmain. eapply enters_bind; [apply (first_init_boots _ _ services demo_services); side|intros _ _].
  eapply enters_bind; [apply (uart_start_boots _ _ services demo_services); side|intros _ _].
  eapply enters_bind; [by apply software_timer_init_boots|intros _ _].
  eapply enters_bind; [apply (timer_start_boots _ _ services); side|intros _ _].
  eapply enters_bind; [apply mutex_init_boots|intros _ _]. do 3 sem.
  eapply enters_bind; [by apply queue_init_boots|intros _ _]. do 6 create.
  eapply enters_bind; [apply (watchdog_start_boots _ _ services demo_services); [by left|done|side]|intros _ _].
  apply enters_start. by left.
Qed.

(** The other cores. *)
#[local] Ltac core me := eapply enters_bind; [apply (core_init_boots _ _ services _ me); [side| |side|done|done]; set_solver|intros _ _];
  eapply enters_bind; [apply (core_start_boots _ _ services); side|intros _ _].

Lemma core1_boots : boots (ready_plan [0] 65552 (10, 0, 0, 0)) (entered core1_kmain) (fun _ => True) (ready_plan [1; 0] 100368 (10, 5, 0, 0)).
Proof. unfold core1_kmain. core 1. do 4 create. apply enters_start. by left. Qed.

Lemma core2_boots : boots (ready_plan [1; 0] 100368 (10, 5, 0, 0)) (entered core2_kmain) (fun _ => True) (ready_plan [2; 1; 0] 135184 (10, 5, 5, 0)).
Proof. unfold core2_kmain. core 2. do 4 create. apply enters_start. by left. Qed.

Lemma core3_boots : boots (ready_plan [2; 1; 0] 135184 (10, 5, 5, 0)) (entered core3_kmain) (fun _ => True) (ready_plan [3; 2; 1; 0] 145424 (10, 5, 5, 2)).
Proof. unfold core3_kmain. core 3. create. apply enters_start. by left. Qed.

(** Start-up succeeds; it takes 145,424 of the heap's 262,144 bytes and 22
    tasks. *)
Lemma image_boots : boots nothing_yet image_boot (fun _ => True) (ready_plan [3; 2; 1; 0] 145424 (10, 5, 5, 2)).
Proof.
  unfold image_boot. eapply boots_bind; [apply kmain_boots|intros _ _]. eapply boots_bind; [apply core1_boots|intros _ _].
  eapply boots_bind; [apply core2_boots|intros _ _]. apply core3_boots.
Qed.

Lemma image_starts : returns image_boot kernel_zero (fun _ k => (exists Q, starts demo_objects k Q) /\ k_heap_offset k = 145424 /\
  forall c, k_task_counter k c = counts (10, 5, 5, 2) c).
Proof.
  refine (returns_mono _ _ _ _ (image_boots kernel_zero (booting_zero demo_init demo_rank)) _). intros _ k [_ Hk].
  split; [|split; [exact (bt_off _ _ _ _ Hk)|exact (bt_count _ _ _ _ Hk)]].
  apply (booting_starts demo_init demo_rank _ k demo_objects Hk); cbn [ready_plan demo_objects p_mtx p_sem p_armed ob_mtx ob_sem ob_init ob_timers].
  - intros m ->%list_elem_of_singleton. exists 0. by left.
  - intros s Hs. unfold all_sems. set_solver.
  - intros t Ht. set_solver.
  - reflexivity.
  - cbn. unfold timer_fuel. lia.
  - right. set_solver.
Qed.

Lemma booted (P : unit -> kstate -> Prop) : (forall u k Q, starts demo_objects k Q -> P u k) -> returns image_boot kernel_zero P.
Proof. intros HP. eapply returns_mono; [exact image_starts|]. intros u k [[Q Hs] _]. exact (HP u k Q Hs). Qed.

(** ** The whole application *)

(** The tasks of the image, in the order of their creation; the rest start at
    [x0]. *)
Definition demo_tasks {X} (x0 : tcb -> X) (t : tcb) : point X :=
  match t with
  | Pool 0 3 | Pool 1 1 | Pool 2 1 => Counter CtLock
  | Pool 0 4 => Ping PgDelay 0
  | Pool 0 5 => Receiver QrTake 0
  | Pool 0 6 | Pool 0 7 | Pool 1 4 | Pool 2 4 => Grind
  | Pool 1 2 => Pong PoTake 0
  | Pool 1 3 => Producer PdPrint 0
  | Pool 2 2 => Sender QsTake 0
  | Pool 2 3 => Consumer CsTake 0
  | _ => Other (x0 t)
  end.

Definition demo_data {R} (r : R) : data R := mkData 0 (mkRing (fun _ => 0) 0 0) [] r.

(** The rest of the tasks: programs that keep to the kernel's rules and leave
    the sample's objects alone. *)
Record rest_ok {R X} (others : tcb -> X -> action R X) (held_other : tcb -> X -> list Z) (x0 : tcb -> X) : Prop := {
  ro_rules : obeys demo_objects others held_other;
  ro_alone : forall t x o k, others t x = Do o k -> leaves_alone o;
  ro_start : forall t m, m ∉ held_other t (x0 t)
}.

Section whole.
Context {R X : Type} (others : tcb -> X -> action R X) (held_other : tcb -> X -> list Z) (x0 : tcb -> X).
Context (Hrest : rest_ok others held_other x0).

Lemma demo_image : image others demo_objects service_sems held_other.
Proof.
  destruct Hrest as [H1 H2 H3]. split; try done.
  - by left.
  - intros s Hs. unfold handshake_sem, queue_sem in Hs. cbn. set_solver.
  - by intros s [-> | ->].
  - intros s Hs. unfold handshake_sem, queue_sem. cbn in Hs. split; [|split].
    + cbn. set_solver.
    + unfold service_sems in Hs. intros Hh. rewrite !elem_of_cons, elem_of_nil in Hs. destruct_or! Hs; subst; destruct Hh; done.
    + unfold service_sems in Hs. intros Hh. rewrite !elem_of_cons, elem_of_nil in Hs. destruct_or! Hs; subst; destruct Hh; done.
  - by left.
  - cbn. unfold timer_fuel. lia.
Qed.

Abbreviation pr := (Pool 1 3).
Abbreviation co := (Pool 2 3).
Abbreviation se := (Pool 2 2).
Abbreviation re := (Pool 0 5).

Lemma demo_created : created held_other pr co se re (demo_tasks x0).
Proof.
  split; try done; try (by exists 0); try (intros t p b; unfold demo_tasks; by repeat case_match); try (intros t p; unfold demo_tasks; repeat case_match; congruence).
  intros t x m. unfold demo_tasks. repeat case_match; intros [= <-]; apply Hrest.
Qed.

Lemma demo_holds_nothing t m : m ∉ held held_other t (demo_tasks x0 t).
Proof.
  unfold demo_tasks. repeat case_match; cbn; try apply not_elem_of_nil; apply Hrest.
Qed.

(** A stable property that holds at the start holds after any events. *)
Lemma whole_run J k Q r es : starts demo_objects k Q -> stable demo_objects service_sems (demo_prog (R := R) others) (held held_other) J ->
  J (books_of (launch k (demo_data r) (demo_tasks x0))) ->
  returns (app_run demo_objects service_sems (demo_prog others) es) (launch k (demo_data r) (demo_tasks x0)) (fun _ a =>
    app_ok demo_objects (demo_prog others) (held held_other) a /\ J (books_of a)).
Proof.
  intros Hs HJ H0. pose proof demo_image as Him.
  apply (app_run_ok demo_objects service_sems (demo_prog others) (held held_other) (demo_obeys others demo_objects service_sems held_other Him)
    (fun s Hs => proj1 (im_isr _ _ _ _ Him s Hs)) (im_fuel _ _ _ _ Him) (im_timer _ _ _ _ Him) J HJ). split; [|exact H0].
  apply (launch_ok _ _ _ _ Q); [exact Hs|apply demo_holds_nothing].
Qed.
End whole.
End kmain.

(** ** The properties *)

Section properties.
Context {R X : Type} (address : function -> Z) (clk_freq : Z -> Z) (others : tcb -> X -> action R X) (held_other : tcb -> X -> list Z).
Context (x0 : tcb -> X) (r : R) (es : list moment).

(** The points between [mutex_lock] and [mutex_unlock]. *)
Definition in_section (p : counter_point) : Prop := match p with CtLock | CtDelay => False | _ => True end.

Lemma counter_start k : counter_inv (books_of (launch k (demo_data r) (demo_tasks x0))).
Proof.
  exists 0%nat. cbn. split_and!; [done|..]; (intros t; unfold demo_tasks; by repeat case_match).
Qed.

(** C3: no increment is lost.  From the cleared .bss on, whatever the order of
    the tasks' steps (a kernel call's critical section is one), timer
    interrupts and handlers on the four cores, and whatever the services' tasks
    do by the kernel's rules on objects of their own ([rest_ok]), the
    values the counter tasks have printed are 1, 2, 3, ... (as 32-bit words),
    each once and in order; the counter is the last of them, or the next one
    while a task is between its increment and its print; and only one task at
    a time is between its lock and its unlock. *)
Theorem counter_loses_nothing :
  rest_ok others held_other x0 ->
  returns (image_boot address clk_freq) kernel_zero (fun _ k =>
    returns (app_run demo_objects service_sems (demo_prog others) es) (launch k (demo_data r) (demo_tasks x0)) (fun _ a => exists n,
      values (d_lines (a_data a)) = numbers n /\
      ((forall t, a_loc a t <> Counter CtPrint) -> g_shared_counter (a_data a) = u32 (Z.of_nat n)) /\
      (forall t, a_loc a t = Counter CtPrint -> g_shared_counter (a_data a) = u32 (Z.of_nat n + 1)) /\
      (forall t u p q, a_loc a t = Counter p -> a_loc a u = Counter q -> in_section p -> in_section q -> t = u))).
Proof.
  intros Hrest. apply booted. intros _ k Q Hs.
  pose proof (demo_image others held_other x0 Hrest) as Him.
  eapply returns_mono; [exact (whole_run others held_other x0 Hrest counter_inv k Q r es Hs (counter_stable _ _ _ _ Him) (counter_start k))|].
  intros _ a [Hok (n & H1 & _ & H3 & H4)]. exists n. split_and!; [done..|]. intros t u p q Ht Hu Hp Hq.
  apply (lw_excl _ _ _ (app_lawful _ _ _ _ Hok) t u g_counter_mutex); cbn; rewrite ?Ht, ?Hu; [destruct p|destruct q]; try done; by left.
Qed.

Lemma handshake_start k : handshake_inv (Pool 1 3) (Pool 2 3) (books_of (launch k (demo_data r) (demo_tasks x0))).
Proof.
  split; [exists 0%nat, 0%nat; split; [exact (st_produce 0)|done]|..]; intros t p b; cbn; unfold demo_tasks; by repeat case_match.
Qed.

(** C12: producer and consumer alternate.  Whatever the schedule, and
    whatever the services' tasks do ([rest_ok]), what the two print is whole rounds -- produced, processing, done, acked, for batch 0, 1,
    2, ... -- and a beginning of the next; while the consumer works on a batch,
    the producer waits for its answer, and while the producer works, the
    consumer waits for data. *)
Theorem handshake_alternates :
  rest_ok others held_other x0 ->
  returns (image_boot address clk_freq) kernel_zero (fun _ k =>
    returns (app_run demo_objects service_sems (demo_prog others) es) (launch k (demo_data r) (demo_tasks x0)) (fun _ a => exists n i : nat,
      handshake_lines (d_lines (a_data a)) = rounds n ++ take i (round n) /\
      (forall b, a_loc a (Pool 2 3) = Consumer CsDone b -> b = u32 (Z.of_nat n) /\ a_loc a (Pool 1 3) = Producer PdTake b) /\
      (forall b, a_loc a (Pool 1 3) = Producer PdPrint b -> b = u32 (Z.of_nat n) /\ a_loc a (Pool 2 3) = Consumer CsTake b))).
Proof.
  intros Hrest. apply booted. intros _ k Q Hs.
  pose proof (demo_image others held_other x0 Hrest) as Him.
  eapply returns_mono; [exact (whole_run others held_other x0 Hrest _ k Q r es Hs (handshake_stable _ _ _ _ (Pool 1 3) (Pool 2 3) Him)
    (handshake_start k))|].
  intros _ a [_ [(n & i & Hst & Hl) _ _]]. exists n, i. split; [exact Hl|]. cbn in Hst.
  split; intros b Hb; rewrite Hb in Hst; inversion Hst; subst; done.
Qed.

Lemma queue_start k : queue_inv (Pool 2 2) (Pool 0 5) (books_of (launch k (demo_data r) (demo_tasks x0))).
Proof.
  split; [|intros t p b; cbn; unfold demo_tasks; by repeat case_match..].
  exists 0, 0, 0, 0. split_and!; try done. split; try done. intros i Hi. lia.
Qed.

End properties.

(** ** A concrete image: the rest of the tasks as loops around their waits *)

(** dfu_reboot, uart_tx, sw_timer, pca_blink, wdt_confirm on core 0; the core
    kickers; the telemetry publisher. *)
Definition rest_start (t : tcb) : loop :=
  match t with
  | Pool 0 0 => LoopAwait SemDfu
  | Pool 0 1 => LoopAwait uart_data_ready
  | Pool 0 2 => LoopAwait SemTimer
  | Pool 0 8 => LoopEvery 500
  | Pool 0 9 => LoopAwait s_confirm_semaphore
  | Pool 1 0 | Pool 2 0 | Pool 3 0 => LoopEvery 1000
  | Pool 3 1 => LoopEvery 100
  | _ => LoopIdle
  end.

Definition demo_address (f : function) : Z := 0x8000.
Definition demo_clk (c : Z) : Z := 54000000.

Lemma loops_ok : rest_ok (loop_task service_sems) (fun _ _ => []) rest_start.
Proof.
  split.
  - apply loop_task_obeys; [unfold service_sems; cbn; set_solver|by do 8 right; left].
  - intros t [|ms|s] o k; cbn; [done|by intros [= <- <-]|]. intros [= <- <-]. cbn. unfold handshake_sem, queue_sem.
    case_decide as Hs; [|split; by intros [?|?]]. unfold service_sems in Hs. rewrite !elem_of_cons, elem_of_nil in Hs.
    destruct_or! Hs; subst; (split; intros [?|?]; done).
  - intros t m. apply not_elem_of_nil.
Qed.

(** Every core takes some steps, then its timer interrupts. *)
Definition rounds_of_turns (n : nat) : list moment :=
  concat ((fun i : nat => concat ((fun c : Z => repeat (Turn c) 8 ++ [Tick c (54000 * Z.of_nat (i + 1))]) <$> [0; 1; 2; 3])) <$> seq 0 n).

(** The same tasks on a small scale, to be run here: on cores 1 and 2 a counter
    each, the producer and the consumer, with stacks of 32 words. *)
Definition mini_boot : K unit :=
  mutex_init g_counter_mutex None;;
  semaphore_init g_data_ready_sem 1 0 None;;
  semaphore_init g_processing_done_sem 1 0 None;;
  scheduler_init (H := weak_hooks) 0x8000 1 (Some 54000000) hz (Some 0);;
  task_create 0x9000 1 0x9100 32 2 0 None;;
  task_create 0x9000 1 0x9200 32 1 0 None;;
  entered (scheduler_start 1);;
  scheduler_init (H := weak_hooks) 0x8000 2 (Some 54000000) hz (Some 0);;
  task_create 0x9000 2 0x9300 32 2 0 None;;
  task_create 0x9000 2 0x9200 32 1 0 None;;
  entered (scheduler_start 2).
Definition mini_tasks (t : tcb) : point loop :=
  match t with
  | Pool 1 0 => Producer PdPrint 0
  | Pool 2 0 => Consumer CsTake 0
  | Pool 1 1 | Pool 2 1 => Counter CtLock
  | _ => Other LoopIdle
  end.
Definition mini_turns (n : nat) : list moment :=
  concat ((fun i : nat => concat ((fun c : Z => repeat (Turn c) 6 ++ [Tick c (54000 * Z.of_nat (i + 1))]) <$> [1; 2])) <$> seq 0 n).
Definition mini_lines (n : nat) : option (list line) :=
  match app_run (mkObjects [g_counter_mutex] [g_data_ready_sem; g_processing_done_sem] demo_init []) [] (demo_prog (loop_task service_sems)) (mini_turns n)
          (launch (final mini_boot kernel_zero) (demo_data tt) mini_tasks) with
  | Ret _ a => Some (d_lines (a_data a))
  | Stop _ _ => None
  end.
Example mini_first_lines : mini_lines 4 = Some
  [LProduced 0; LProcessing 0; LDone 0; LCounter 1 1; LAcked 0; LProduced 1; LCounter 2 2; LProcessing 1; LDone 1].
Proof. vm_compute. reflexivity. Qed.

Abbreviation demo_returns P :=
  (returns (image_boot demo_address demo_clk) kernel_zero (fun _ k =>
    returns (app_run demo_objects service_sems (demo_prog (loop_task service_sems)) (rounds_of_turns 8)) (launch k (demo_data tt) (demo_tasks rest_start)) (fun _ a => P a))).

Lemma counter_loses_nothing_witness : demo_returns (fun a => exists n, values (d_lines (a_data a)) = numbers n).
Proof.
  eapply returns_mono; [exact (counter_loses_nothing demo_address demo_clk (loop_task service_sems) (fun _ _ => []) rest_start tt (rounds_of_turns 8) loops_ok)|].
  intros u k Hk. eapply returns_mono; [exact Hk|]. intros _ a (n & Hn & _). by exists n.
Defined.

Lemma handshake_alternates_witness : demo_returns (fun a => exists n i : nat, handshake_lines (d_lines (a_data a)) = rounds n ++ take i (round n)).
Proof.
  eapply returns_mono; [exact (handshake_alternates demo_address demo_clk (loop_task service_sems) (fun _ _ => []) rest_start tt (rounds_of_turns 8) loops_ok)|].
  intros u k Hk. eapply returns_mono; [exact Hk|]. intros _ a (n & i & Hn & _). by exists n, i.
Defined.

